(* ===== verification/_CoqProject ===== *)
-Q . S2P
Prelude.v
Table.v
Cellmalloc.v
Xpoll.v
Rwlock.v
Keyhash.v
Types.v
Cfloat.v
Cfgfile.v
Acl.v
Passcode.v
ParseQc.v
Callsign.v
ParseAprs.v
Clientlist.v
ClientHeard.v
Dupecheck.v
Historydb.v
Filterdb.v
Messaging.v
Incoming.v
Buffers.v
Filter.v
FilterParse.v
FilterSpec.v
FilterText.v
Outgoing.v
Login.v
LoginSpec.v
Pipeline.v
Plist.v
ClientIO.v
Accounting.v
Worker.v
WorkerSpec.v
WorkerNew.v
Newclient.v
Accept.v
Upload.v
UploadSpec.v
Uplink.v
UplinkSpec.v
AcceptSpec.v
Config.v
ConfigSpec.v
LiveUpgrade.v
LiveUpgradeSpec.v
Tls.v
TlsSpec.v
Counterdata.v
Status.v
Shutdown.v
ShutdownSpec.v
Peers.v
Http.v
Wire.v
