(* ===== verification/Prelude.v ===== *)
(** * Verification of aprsc, an APRS-IS server

    aprsc (sources under src/src/) accepts APRS packets from network clients,
    checks and rewrites their headers (the Q construct algorithm), drops
    duplicates, remembers the last position of every station and sends each
    packet to the clients whose filters ask for it.

    ** The parts of the program

    One thread accepts connections (accept.c) and passes each new client to one of the
    worker threads (worker.c).  A worker reads lines from its clients.  Until the
    client is logged in the lines go to login.c; after that to incoming.c, which checks
    the packet, lets parse_qc.c rewrite its path and parse_aprs.c find its type and
    position, and queues it.  The checking thread (dupecheck.c) takes the queues of
    all workers, finds duplicates, stores positions (historydb.c), numbers the
    packets and puts them on a global queue.  Every worker follows that queue
    (outgoing.c) and writes a packet to those of its clients whose filters
    (filter.c) pass it.  uplink.c keeps connections to other servers, and core peers
    exchange packets in datagrams.  config.c reads the configuration, status.c and
    counterdata.c count, http.c shows it and takes uploads, tls.c wraps connections,
    and in a live upgrade a new process takes over the clients of the old one.

    ** Which file models what

    Shared:
    - Prelude.v: machine integers, byte strings, buffers with checked access, tactics
      and the hint database.  Table.v: chained hash tables as finite maps.  Cfloat.v: [float],
      [double] and [sscanf] of C.  Types.v: packets and clients (worker.h).
    - Cellmalloc.v (cellmalloc.c), Keyhash.v (keyhash.c), Passcode.v (passcode.c),
      Acl.v (acl.c), Cfgfile.v (cfgfile.c), Xpoll.v (xpoll.c), Rwlock.v (rwlock.c).

    The way of a packet:
    - ParseQc.v (parse_qc.c), Callsign.v and Incoming.v (incoming.c), ParseAprs.v
      (parse_aprs.c), Clientlist.v (clientlist.c), ClientHeard.v (client_heard.c),
      Messaging.v (messaging.c), Buffers.v (the memory of packet buffers: incoming.c and worker.c);
    - Dupecheck.v (dupecheck.c), Historydb.v (historydb.c), Filterdb.v (the databases of
      filter.c);
    - Filter.v, FilterParse.v (filter.c), with FilterSpec.v and FilterText.v;
      Outgoing.v (outgoing.c);
    - Pipeline.v composes input, check and output; Wire.v output and connections.

    Clients:
    - ClientIO.v (the buffers and sockets of worker.c), Plist.v (its linked lists),
      Accounting.v (its accounts), Worker.v, WorkerSpec.v and WorkerNew.v (taking over,
      keeping alive and closing clients), Peers.v (datagrams of peers), Shutdown.v and
      ShutdownSpec.v (starting and stopping workers);
    - Login.v, LoginSpec.v (login.c); Tls.v, TlsSpec.v (tls.c, and the TLS paths of
      worker.c and login.c);
    - Newclient.v, Accept.v, AcceptSpec.v (accept.c); Upload.v, UploadSpec.v (uploads of
      http.c and accept.c); Uplink.v, UplinkSpec.v (uplink.c);
    - LiveUpgrade.v, LiveUpgradeSpec.v (the client dump of worker.c, hex_encode and
      hex_decode of status.c, the restoring half of accept.c).

    Configuration and display:
    - Config.v, ConfigSpec.v (config.c); Counterdata.v (counterdata.c); Status.v
      (status.c); Http.v (the status server of http.c).

    A definition has the name of the C function, or of the part of it that its doc comment
    says; PROJECT.json has the lines.

    ** How the code is modelled

    Bytes and machine integers are [Z], with the wrap-around written out where the
    code can reach it ([u32], [i32], the widths of Passcode.v); strings and buffers are
    lists of bytes, pointers into a buffer offsets.  Memory is explicit where aliasing
    matters: the cells of Cellmalloc.v, the packet buffers of Buffers.v, the client lists of Plist.v, the clients of a
    worker by address.  A function whose result is an [option] returns [None] where the C
    code is undefined: an access outside of a buffer, a structure that was freed, a NULL
    pointer.  So a theorem that says [= Some] also says that the code does not get there.
    What a lock protects is one step; threads interleave between steps, and the order of steps is
    an explicit list (histories of Dupecheck.v, scripts of ClientIO.v, TlsSpec.v and
    Xpoll.v).  Rwlock.v goes below that: there the steps of threads on a lock are a relation, and its
    invariant is proved by induction on the steps.

    The operating system, the C library and other libraries are parameters: sockets
    that answer each call, getaddrinfo, fnmatch, the trigonometric functions, mmap, OpenSSL, zlib, libevent,
    cJSON (a JSON tree here), time and random numbers.  Where a property needs something of
    them it is a hypothesis of the theorem, and its witness instantiates it.

    ** Interfaces between components

    Classes state what one component promises to another, with the implementing
    component as instance: [ClientDirectory] (ParseQc.v asks, Clientlist.v answers),
    [PacketSinks] with [SinkLaws] (what Dupecheck.v hands packets to, implemented by
    the databases in Filterdb.v), [ServerOps] with [ServerLaws] and [OutLaws] (writing
    to clients, used by Incoming.v, Login.v and Outgoing.v, implemented by connections in
    Wire.v), and [Poller] with [PollerLaws] ([poll] and [epoll] in Xpoll.v).

    ** What the theorems show

    - Packets.  A packet is a duplicate exactly if its text, or a form that known
      faults of software make of it, was accepted within the storage time
      ([dupecheck_history]); the Q construct check accepts exactly the packets that the
      rules allow ([q_dropcheck_accepts]); the input side queues exactly what the policy
      allows and is defined on every line ([incoming_policy], [incoming_total]); buffers are
      never lost, shared or used after they are given back ([packet_memory_safe]); the parser is defined and ends on every packet
      ([parse_aprs_total], [parse_aprs_fuel]); queues keep the order and nothing is freed
      that a worker still has to send ([dupecheck_cycle_order], [purger_keeps_unsent]).
    - Delivery.  A filter decides as its text means ([filter_decides]); every packet
      goes to exactly the clients that want it, once and in order ([outgoing_recipients],
      [outgoing_complete]); the stages together deliver ([pipeline_delivers]); and
      the sockets get the texts ([packet_on_wire], [client_write_queue], [tls_stream]); the input is
      cut into the same lines whatever the chunks ([lines_from_chunks]); peers get each other's packets ([peers_exchange]).
    - Clients.  Who gets in and as whom ([accept_policy], [login_policy],
      [certificate_login], [acl_first_match]); a client that goes leaves nothing behind
      ([client_close_releases], [keepalives_attend], [collect_takes_over]); accounts agree
      ([accounts_add_up]); a live upgrade carries clients over ([clients_survive]).
    - Tables and memory refine plain maps, lists and sets ([clientlist_refines],
      [history_refines], [cellmalloc_refines], [pollers_agree]); the lock excludes and forgets no
      thread ([rwlock_correct]); texts of filters fit their
      buffers ([filter_text_fits]) and parsed filters are well-formed ([filter_parse_ok]).
    - Configuration.  No file makes a loop of servers ([config_no_loops]); a new
      file keeps the sockets that stay and opens exactly the others
      ([reload_keeps_sockets], [listeners_follow_config]); the uplinks of the file are
      found ([configured_uplink_found]); lines are dispatched with their errors
      ([cmdparse_dispatch]).
    - Display.  The web server gives out only the files it lists
      ([http_serves_listed]), and graphs show the documents ([graphs_show_documents]).

    Faults of the code that the model shows are theorems too (for example
    [filter_text_overflow], [moved_write_lost], [strings_without_lang],
    [entrycall_lookup_fresh], [drops_line_overflow]); PROJECT.json lists them.

    ** Bounds and fuel

    Loops that are not structural take fuel, and the theorems say how much is enough:
    the length of the packet for third-party packets (each level starts further in), the
    number of clients for the loops over client lists, [interrupts] + 1 for a write that is
    repeated on EINTR (at most [interrupts] of them in a row, as a hypothesis), the
    number of blocks for the arenas, the number of cells for the lists of buffers, the length of the file for its lines, the number of addresses
    for an uplink, one ring for a graph, and the length of the list for a round of [poll].  Theorems about results say that there is one; none of them
    is only about runs that end.

    ** Not modelled

    cJSON.c is a vendored library (its trees are data here).  aprsc.c (options, signals,
    pid files, starting threads), hlog.c (log files), hmalloc.c, random.c, errno_aprsc.c, netlib.c and version.c are process
    control or wrappers of the C library without logic of the server.  sctp.c and all
    code under USE_SCTP is compiled out.  inet_ntop.c, inet_pton.c, getnameinfo.c and
    gai_strerror.c are copies of C library functions.  Of tls.c the set-up of contexts, of http.c
    the event loop, of status.c the copying of counters into documents and of worker.c the loop
    of the running thread, which calls the modelled operations in turn, are left out. *)

From Stdlib Require Import ZArith Lia Bool String Ascii.
From stdpp Require Import base tactics list gmap numbers.
Open Scope Z_scope.

(** ** Character constants *)

Abbreviation ch_nul := 0 (only parsing).
Abbreviation ch_sp := 32 (only parsing).
Abbreviation ch_bang := 33 (only parsing).
Abbreviation ch_hash := 35 (only parsing).
Abbreviation ch_dollar := 36 (only parsing).
Abbreviation ch_star := 42 (only parsing).
Abbreviation ch_comma := 44 (only parsing).
Abbreviation ch_dash := 45 (only parsing).
Abbreviation ch_slash := 47 (only parsing).
Abbreviation ch_0 := 48 (only parsing).
Abbreviation ch_9 := 57 (only parsing).
Abbreviation ch_colon := 58 (only parsing).
Abbreviation ch_gt := 62 (only parsing).
Abbreviation ch_A := 65 (only parsing).
Abbreviation ch_Z := 90 (only parsing).
Abbreviation ch_bslash := 92 (only parsing).
Abbreviation ch_us := 95 (only parsing).
Abbreviation ch_a := 97 (only parsing).
Abbreviation ch_q := 113 (only parsing).
Abbreviation ch_z := 122 (only parsing).
Abbreviation ch_lbrace := 123 (only parsing).
Abbreviation ch_rbrace := 125 (only parsing).

(** A string literal of the source as the bytes it denotes, without its NUL. *)
Fixpoint str (s : string) : list Z :=
  match s with
  | EmptyString => []
  | String a t => Z.of_N (N_of_ascii a) :: str t
  end.

(** ** Machine integers *)

Definition u32 (z : Z) : Z := z mod 2 ^ 32.
Definition i32 (z : Z) : Z := (z + 2 ^ 31) mod 2 ^ 32 - 2 ^ 31.
Definition i16 (z : Z) : Z := (z + 2 ^ 15) mod 2 ^ 16 - 2 ^ 15.
Definition i8 (z : Z) : Z := (z + 2 ^ 7) mod 2 ^ 8 - 2 ^ 7.

(** A byte read through a [char] lvalue: [char] is signed on the target. *)
Definition schar (b : Z) : Z := if b <? 128 then b else b - 256.

Definition is_byte (b : Z) : Prop := 0 <= b < 256.
Definition bytes_ok (s : list Z) : Prop := Forall is_byte s.

(** Zero-based length as a C [int]. *)
Definition zlen {A} (l : list A) : Z := Z.of_nat (length l).

(** ** <ctype.h> in the C locale *)

Definition isdigit (c : Z) : bool := (48 <=? c) && (c <=? 57).
Definition isupper (c : Z) : bool := (65 <=? c) && (c <=? 90).
Definition islower (c : Z) : bool := (97 <=? c) && (c <=? 122).
Definition isalpha (c : Z) : bool := isupper c || islower c.
Definition isalnum (c : Z) : bool := isdigit c || isalpha c.
Definition toupper (c : Z) : Z := if islower c then c - 32 else c.
Definition tolower (c : Z) : Z := if isupper c then c + 32 else c.

(** ** Memory

    A buffer is the list of its bytes; a pointer into it is an offset.  A read
    or write outside the buffer is undefined behaviour of the C program: the
    access functions return [None], and [None] is propagated by the option
    monad through every function built on them. *)

Definition rd (s : list Z) (i : Z) : option Z :=
  if 0 <=? i then s !! Z.to_nat i else None.

Definition wr (s : list Z) (i v : Z) : option (list Z) :=
  if (0 <=? i) && (i <? zlen s) then Some (<[Z.to_nat i := v]> s) else None.

(** The [n] bytes at offset [a], clipped to the buffer. *)
Definition slice (s : list Z) (a n : Z) : list Z :=
  take (Z.to_nat n) (drop (Z.to_nat a) s).

(** The [n] bytes at offset [a], as [memcpy] and [memcmp] read them. *)
Definition rd_range (s : list Z) (a n : Z) : option (list Z) :=
  if (0 <=? a) && (0 <=? n) && (a + n <=? zlen s) then Some (slice s a n) else None.

Definition beq (a b : list Z) : bool := bool_decide (a = b).

(** Case-insensitive equality of two byte strings of equal length. *)
Definition caseeq (a b : list Z) : bool := bool_decide (map tolower a = map tolower b).

Fixpoint starts_with (needle hay : list Z) : bool :=
  match needle, hay with
  | [], _ => true
  | n :: ns, h :: hs => (n =? h) && starts_with ns hs
  | _ :: _, [] => false
  end.

(** Offset of the first occurrence of [needle] in [hay]. *)
Fixpoint find_sub (needle hay : list Z) : option nat :=
  if starts_with needle hay then Some O
  else match hay with
       | [] => None
       | _ :: hs => S <$> find_sub needle hs
       end.

(** [memmem(s+off, len, needle)]: the offset of the first match. *)
Definition memmem (s : list Z) (off len : Z) (needle : list Z) : option (option Z) :=
  h ← rd_range s off len;
  Some ((fun k => off + Z.of_nat k) <$> find_sub needle h).

(** [memchr(s+off, c, len)]. *)
Definition memchr (s : list Z) (off len : Z) (c : Z) : option (option Z) :=
  memmem s off len [c].

(** A C string: the bytes up to the first NUL. *)
Fixpoint cstr (s : list Z) : list Z :=
  match s with
  | [] => []
  | c :: t => if c =? 0 then [] else c :: cstr t
  end.

(** [while (p < e && !stop( *p )) p++;] *)
Fixpoint scan_n (n : nat) (s : list Z) (p : Z) (stop : Z -> bool) : option Z :=
  match n with
  | O => Some p
  | S n' => c ← rd s p; if stop c then Some p else scan_n n' s (p + 1) stop
  end.

Definition scan (s : list Z) (p e : Z) (stop : Z -> bool) : option Z :=
  scan_n (Z.to_nat (e - p)) s p stop.

(** [while (p > b && !stop( *p )) p--;] *)
Fixpoint rscan_n (n : nat) (s : list Z) (p : Z) (stop : Z -> bool) : option Z :=
  match n with
  | O => Some p
  | S n' => c ← rd s p; if stop c then Some p else rscan_n n' s (p - 1) stop
  end.

Definition rscan (s : list Z) (p b : Z) (stop : Z -> bool) : option Z :=
  rscan_n (Z.to_nat (p - b)) s p stop.

(** [strncmp(s+off, lit, strlen(lit)) == 0], reading no further than the first
    difference; [lit] holds no NUL. *)
Fixpoint strncmp_eq (s : list Z) (off : Z) (lit : list Z) : option bool :=
  match lit with
  | [] => Some true
  | x :: t => c ← rd s off; if c =? x then strncmp_eq s (off + 1) t else Some false
  end.

(** [strncasecmp(s+off, lit, strlen(lit)) == 0]; [lit] is in lower case. *)
Fixpoint strncasecmp_eq (s : list Z) (off : Z) (lit : list Z) : option bool :=
  match lit with
  | [] => Some true
  | x :: t => c ← rd s off; if tolower c =? x then strncasecmp_eq s (off + 1) t else Some false
  end.

(** [snprintf(buf, size, ...)] of an already formatted text: the characters
    stored (without the NUL) and the value returned. *)
Definition snprintf (size : Z) (text : list Z) : list Z * Z :=
  (take (Z.to_nat (size - 1)) text, zlen text).

(** ** Hash tables

    Every table of the program is a C array of chains: the chain heads are
    global storage, initially NULL, and a chain is walked through [next].  A
    table is a finite map from bucket numbers to chains, a missing bucket being
    the NULL head. *)

Definition bucket {A} (t : gmap Z (list A)) (i : Z) : list A := default [] (t !! i).
Definition set_bucket {A} (t : gmap Z (list A)) (i : Z) (l : list A) : gmap Z (list A) :=
  <[i := l]> t.

(** Every record is chained in the bucket its hash selects. *)
Definition chained {A} (index : A -> Z) (t : gmap Z (list A)) : Prop :=
  forall i x, x ∈ bucket t i -> index x = i.

(** Number of records in the buckets [0 .. n-1]. *)
Definition table_count {A} (n : nat) (t : gmap Z (list A)) : Z :=
  fold_right (fun k acc => zlen (bucket t (Z.of_nat k)) + acc) 0 (seq 0 n).

(** * Tactics *)

Create HintDb aprs.

(** Split the goal on the innermost boolean test and clean up. *)
Ltac split_if :=
  match goal with
  | |- context [if ?b then _ else _] =>
      lazymatch b with context [if _ then _ else _] => fail | _ => destruct b eqn:? end
  end.
Ltac split_if_in H :=
  match type of H with
  | context [if ?b then _ else _] =>
      lazymatch b with context [if _ then _ else _] => fail | _ => destruct b eqn:? end
  end.

(** Invert a monadic equation [x ← m; k = Some r]. *)
Ltac inv_bind H :=
  let x := fresh "x" in let E := fresh "E" in
  apply bind_Some in H; destruct H as (x & E & H).

(** Replace a boolean list comparison by the equality it decides. *)
Ltac beq_subst :=
  repeat match goal with
  | H : beq _ _ = true |- _ => apply bool_decide_eq_true in H; subst
  | H : beq _ _ = false |- _ => apply bool_decide_eq_false in H
  | H : _ && _ = true |- _ => apply andb_true_iff in H; destruct H
  | H : (_ =? _) = true |- _ => apply Z.eqb_eq in H; subst
  end.

(** [lia] on hypotheses that compare lengths with boolean tests. *)
Ltac zbool :=
  repeat match goal with
  | H : _ && _ = true |- _ => apply andb_true_iff in H; destruct H
  | H : _ && _ = false |- _ => apply andb_false_iff in H
  | H : _ \/ _ |- _ => destruct H
  | H : (_ <=? _) = true |- _ => apply Z.leb_le in H
  | H : (_ <=? _) = false |- _ => apply Z.leb_gt in H
  | H : (_ <? _) = true |- _ => apply Z.ltb_lt in H
  | H : (_ <? _) = false |- _ => apply Z.ltb_ge in H
  | H : (_ =? _) = true |- _ => apply Z.eqb_eq in H
  | H : (_ =? _) = false |- _ => apply Z.eqb_neq in H
  end; lia.

(** * Generic lemmas *)

(** ** Integers *)

Lemma u32_range z : 0 <= u32 z < 2 ^ 32.
Proof. unfold u32. apply Z.mod_pos_bound. lia. Qed.

Lemma u32_small z : 0 <= z < 2 ^ 32 -> u32 z = z.
Proof. intros. unfold u32. by apply Z.mod_small. Qed.

Lemma u32_idemp z : u32 (u32 z) = u32 z.
Proof. apply u32_small, u32_range. Qed.

Lemma u32_add_l a b : u32 (u32 a + b) = u32 (a + b).
Proof. unfold u32. by rewrite Z.add_mod_idemp_l by lia. Qed.

Lemma u32_add_r a b : u32 (a + u32 b) = u32 (a + b).
Proof. unfold u32. by rewrite Z.add_mod_idemp_r by lia. Qed.

Lemma i32_range z : - 2 ^ 31 <= i32 z < 2 ^ 31.
Proof. unfold i32. pose proof (Z.mod_pos_bound (z + 2 ^ 31) (2 ^ 32)). lia. Qed.

Lemma i32_small z : - 2 ^ 31 <= z < 2 ^ 31 -> i32 z = z.
Proof. intros. unfold i32. rewrite Z.mod_small; lia. Qed.

(** The signed view does not see a preceding reduction modulo 2^32. *)
Lemma i32_u32 z : i32 (u32 z) = i32 z.
Proof. unfold i32, u32. rewrite Z.add_mod_idemp_l by lia. done. Qed.

Lemma testbit_high n z i : 0 <= z < 2 ^ n -> 0 <= n <= i -> Z.testbit z i = false.
Proof.
  intros Hz Hn. rewrite <- (Z.mod_small z (2 ^ n)) by lia.
  apply Z.mod_pow2_bits_high. lia.
Qed.

Lemma lt_pow2_of_bits n z :
  0 <= n -> 0 <= z -> (forall i, n <= i -> Z.testbit z i = false) -> z < 2 ^ n.
Proof.
  intros Hn Hz H.
  assert (z mod 2 ^ n = z) as E.
  { apply Z.bits_inj'. intros i Hi. destruct (Z.ltb_spec i n).
    - apply Z.mod_pow2_bits_low. lia.
    - rewrite Z.mod_pow2_bits_high by lia. symmetry. apply H. lia. }
  rewrite <- E. apply Z.mod_pos_bound. lia.
Qed.

Lemma lxor_pow2_range n a b :
  0 <= n -> 0 <= a < 2 ^ n -> 0 <= b < 2 ^ n -> 0 <= Z.lxor a b < 2 ^ n.
Proof.
  intros Hn Ha Hb. assert (0 <= Z.lxor a b) by (apply Z.lxor_nonneg; lia).
  split; [done|]. apply lt_pow2_of_bits; [done..|]. intros i Hi.
  rewrite Z.lxor_spec, !(testbit_high n) by lia. done.
Qed.

Lemma lxor_byte_range a b :
  0 <= a < 2 ^ 32 -> is_byte b -> 0 <= Z.lxor a b < 2 ^ 32.
Proof. unfold is_byte. intros. apply lxor_pow2_range; lia. Qed.

(** ** Lengths and memory *)

Lemma zlen_nonneg {A} (l : list A) : 0 <= zlen l.
Proof. unfold zlen. lia. Qed.

Lemma zlen_app {A} (a b : list A) : zlen (a ++ b) = zlen a + zlen b.
Proof. unfold zlen. rewrite length_app. lia. Qed.

Lemma zlen_cons {A} (x : A) l : zlen (x :: l) = 1 + zlen l.
Proof. unfold zlen. simpl. lia. Qed.

Lemma zlen_nil {A} : zlen (@nil A) = 0.
Proof. done. Qed.

Lemma rd_Some s i c : rd s i = Some c -> 0 <= i < zlen s.
Proof.
  unfold rd, zlen. destruct (0 <=? i) eqn:E; [|done]. intros H%lookup_lt_Some. lia.
Qed.

Lemma rd_in s i : 0 <= i < zlen s -> exists c, rd s i = Some c.
Proof.
  unfold rd, zlen. intros. destruct (0 <=? i) eqn:E; [|lia].
  apply lookup_lt_is_Some_2. lia.
Qed.

Lemma rd_app_l s t i : 0 <= i < zlen s -> rd (s ++ t) i = rd s i.
Proof.
  unfold rd, zlen. intros. destruct (0 <=? i) eqn:E; [|lia].
  apply lookup_app_l. lia.
Qed.

Lemma rd_app_r s t i : zlen s <= i -> rd (s ++ t) i = rd t (i - zlen s).
Proof.
  unfold rd, zlen. intros. destruct (0 <=? i) eqn:E, (0 <=? i - Z.of_nat (length s)) eqn:E2;
    try lia. rewrite lookup_app_r by lia. f_equal. lia.
Qed.

Lemma rd_slice s a n i :
  0 <= a -> 0 <= i < n -> rd (slice s a n) i = rd s (a + i).
Proof.
  unfold rd, slice. intros. destruct (0 <=? i) eqn:E, (0 <=? a + i) eqn:E2; try lia.
  rewrite lookup_take, lookup_drop. case_decide; [|lia]. f_equal. lia.
Qed.

Lemma zlen_slice s a n :
  0 <= a -> 0 <= n -> a + n <= zlen s -> zlen (slice s a n) = n.
Proof.
  unfold zlen, slice. intros. rewrite length_take, length_drop. lia.
Qed.

Lemma rd_range_Some s a n h :
  rd_range s a n = Some h -> 0 <= a /\ 0 <= n /\ a + n <= zlen s /\ h = slice s a n.
Proof. unfold rd_range. split_if; [|done]. intros [= <-]. repeat split; (done || lia). Qed.

Lemma rd_range_in s a n :
  0 <= a -> 0 <= n -> a + n <= zlen s -> rd_range s a n = Some (slice s a n).
Proof. intros. unfold rd_range. apply Z.leb_le in H, H0, H1. by rewrite H, H0, H1. Qed.

Lemma slice_mid pre a post : slice (pre ++ a ++ post) (zlen pre) (zlen a) = a.
Proof. unfold slice, zlen. rewrite !Nat2Z.id, drop_app_length, take_app_length. done. Qed.

Lemma rd_range_mid pre a post : rd_range (pre ++ a ++ post) (zlen pre) (zlen a) = Some a.
Proof.
  rewrite rd_range_in; [by rewrite slice_mid|apply zlen_nonneg..|].
  rewrite !zlen_app. pose proof (zlen_nonneg post). lia.
Qed.

Lemma slice_app_l s t a n : 0 <= a -> 0 <= n -> a + n <= zlen s -> slice (s ++ t) a n = slice s a n.
Proof.
  intros Ha Hn Hs. unfold slice, zlen in *. rewrite drop_app_le by lia. apply take_app_le.
  rewrite length_drop. lia.
Qed.

Lemma slice_app_r s t a n : zlen s <= a -> slice (s ++ t) a n = slice t (a - zlen s) n.
Proof.
  intros Ha. unfold slice, zlen in *. rewrite drop_app_ge by lia. do 2 f_equal. lia.
Qed.

Lemma slice_slice s a m b n : 0 <= a -> 0 <= b -> 0 <= n -> b + n <= m -> slice (slice s a m) b n = slice s (a + b) n.
Proof.
  intros Ha Hb Hn Hm. unfold slice. rewrite skipn_firstn_comm, drop_drop, take_take.
  replace (Z.to_nat a + Z.to_nat b)%nat with (Z.to_nat (a + b)) by lia. f_equal. lia.
Qed.

Lemma slice_add s a m n : 0 <= a -> 0 <= m -> 0 <= n -> slice s a (m + n) = slice s a m ++ slice s (a + m) n.
Proof.
  intros Ha Hm Hn. unfold slice. rewrite !Z2Nat.inj_add by lia. by rewrite <- drop_drop, take_take_drop.
Qed.

(** All of a range, by its offsets. *)
Lemma Forall_slice (P : Z -> Prop) s a n :
  0 <= a -> (forall i c, a <= i < a + n -> rd s i = Some c -> P c) -> Forall P (slice s a n).
Proof.
  intros Ha HP. apply list.Forall_forall. intros x Hx. apply list_elem_of_lookup in Hx as [k Hk].
  unfold slice in Hk. rewrite lookup_take_Some, lookup_drop in Hk. destruct Hk as [Hk Hlt].
  apply (HP (a + Z.of_nat k)); [lia|]. unfold rd. destruct (0 <=? a + Z.of_nat k) eqn:E; [|lia].
  rewrite <- Hk. f_equal. lia.
Qed.

Lemma bytes_ok_slice s a n : bytes_ok s -> bytes_ok (slice s a n).
Proof. intros. unfold bytes_ok, slice. by apply Forall_take, Forall_drop. Qed.

Lemma bytes_ok_app s t : bytes_ok s -> bytes_ok t -> bytes_ok (s ++ t).
Proof. intros. by apply Forall_app. Qed.

Lemma bytes_ok_b s : forallb (fun b => (0 <=? b) && (b <? 256)) s = true -> bytes_ok s.
Proof.
  intros H. apply Forall_forall. intros b Hb. rewrite forallb_forall in H.
  specialize (H b Hb). unfold is_byte. zbool.
Qed.

(** ** Searching *)

Lemma starts_with_spec n h : starts_with n h = true <-> exists t, h = n ++ t.
Proof.
  revert h. induction n as [|x n IH]; intros h; simpl.
  - split; [by exists h|done].
  - destruct h as [|y h].
    + split; [done|]. by intros [t ?].
    + rewrite andb_true_iff, Z.eqb_eq, IH. split.
      * intros [-> [t ->]]. by exists t.
      * intros [t [= -> ->]]. split; [done|by exists t].
Qed.

(** [find_sub] returns the first occurrence, and [None] when there is none. *)
Lemma find_sub_Some n h k :
  find_sub n h = Some k ->
  (exists a b, h = a ++ n ++ b /\ length a = k) /\
  (forall j, (j < k)%nat -> starts_with n (drop j h) = false).
Proof.
  revert k. induction h as [|y h IH]; intros k; simpl.
  - destruct (starts_with n []) eqn:E; [|done]. intros [= <-].
    apply starts_with_spec in E as [t Ht]. split; [|lia].
    exists [], t. done.
  - destruct (starts_with n (y :: h)) eqn:E.
    + intros [= <-]. apply starts_with_spec in E as [t Ht]. split; [|lia].
      exists [], t. done.
    + intros (k' & Hk & ->)%fmap_Some.
      destruct (IH k' Hk) as [(a & b & -> & Hl) Hm]. split.
      * exists (y :: a), b. simpl. by rewrite Hl.
      * intros [|j] Hj; [done|]. simpl. apply Hm. lia.
Qed.

Lemma find_sub_None n h :
  find_sub n h = None -> forall j, starts_with n (drop j h) = false.
Proof.
  induction h as [|y h IH]; simpl.
  - destruct (starts_with n []) eqn:E; [done|]. intros _ [|j]; done.
  - destruct (starts_with n (y :: h)) eqn:E; [done|].
    intros H%fmap_None [|j]; [done|]. by apply IH.
Qed.

Lemma find_sub_is_Some n a b : exists k, find_sub n (a ++ n ++ b) = Some k /\ (k <= length a)%nat.
Proof.
  destruct (find_sub n (a ++ n ++ b)) as [k|] eqn:E.
  - exists k. split; [done|]. destruct (find_sub_Some _ _ _ E) as [_ Hm].
    destruct (decide (k <= length a)%nat); [done|].
    specialize (Hm (length a) ltac:(lia)).
    rewrite drop_app_length in Hm.
    assert (starts_with n (n ++ b) = true) by (apply starts_with_spec; eauto). congruence.
  - pose proof (find_sub_None _ _ E (length a)) as Hm.
    rewrite drop_app_length in Hm.
    assert (starts_with n (n ++ b) = true) by (apply starts_with_spec; eauto). congruence.
Qed.

(** What [scan] returns: the first stop character, or the end. *)
Lemma scan_n_spec n s p stop r :
  scan_n n s p stop = Some r ->
  p <= r <= p + Z.of_nat n /\
  (forall i c, p <= i < r -> rd s i = Some c -> stop c = false) /\
  (r < p + Z.of_nat n -> exists c, rd s r = Some c /\ stop c = true).
Proof.
  revert p. induction n as [|n IH]; intros p; simpl.
  - intros [= <-]. split; [lia|]. split; intros; lia.
  - intros H. inv_bind H. destruct (stop x) eqn:Es.
    + injection H as <-. split; [lia|]. split; [intros; lia|]. eauto.
    + destruct (IH _ H) as (Hr & Hb & He). split; [lia|]. split.
      * intros i c Hi Hc. destruct (decide (i = p)); [by simplify_eq|].
        apply (Hb i c); [lia|done].
      * intros. apply He. lia.
Qed.

Lemma scan_spec s p e stop r :
  p <= e -> scan s p e stop = Some r ->
  p <= r <= e /\ (forall i c, p <= i < r -> rd s i = Some c -> stop c = false) /\
  (r < e -> exists c, rd s r = Some c /\ stop c = true).
Proof.
  unfold scan. intros Hpe H%scan_n_spec. destruct H as (?&?&H). split; [lia|].
  split; [done|]. intros. apply H. lia.
Qed.

Lemma scan_n_in n s p stop :
  0 <= p -> p + Z.of_nat n <= zlen s -> exists r, scan_n n s p stop = Some r.
Proof.
  revert p. induction n as [|n IH]; intros p Hp Hl; simpl; [eauto|].
  destruct (rd_in s p) as [c Hc]; [lia|]. rewrite Hc. simpl.
  destruct (stop c); [eauto|]. apply IH; lia.
Qed.

(** A scan inside the buffer is defined. *)
Lemma scan_in s p e stop :
  0 <= p -> e <= zlen s -> exists r, scan s p e stop = Some r.
Proof.
  intros Hp He. unfold scan. destruct (Z.leb_spec e p).
  - replace (Z.to_nat (e - p)) with O by lia. simpl. eauto.
  - apply scan_n_in; lia.
Qed.

Lemma scan_end s e stop : scan s e e stop = Some e.
Proof. unfold scan. by replace (Z.to_nat (e - e)) with O by lia. Qed.

Lemma scan_unfold s p e stop :
  p < e -> scan s p e stop = (c ← rd s p; if stop c then Some p else scan s (p + 1) e stop).
Proof.
  intros. unfold scan. replace (Z.to_nat (e - p)) with (S (Z.to_nat (e - (p + 1)))) by lia.
  done.
Qed.

Lemma rd_mid pre x post : rd (pre ++ x :: post) (zlen pre) = Some x.
Proof. rewrite rd_app_r by lia. by rewrite Z.sub_diag. Qed.

Lemma scan_stop pre x post e stop :
  stop x = true -> zlen pre < e -> scan (pre ++ x :: post) (zlen pre) e stop = Some (zlen pre).
Proof. intros Hs He. rewrite scan_unfold by done. rewrite rd_mid. simpl. by rewrite Hs. Qed.

(** A scan moves over the characters that do not stop it. *)
Lemma scan_skip pre a post e stop :
  Forall (fun c => stop c = false) a -> zlen pre + zlen a <= e ->
  scan (pre ++ a ++ post) (zlen pre) e stop = scan ((pre ++ a) ++ post) (zlen (pre ++ a)) e stop.
Proof.
  intros Ha. revert pre. induction Ha as [|x a Hx Ha IH]; intros pre He.
  - by rewrite app_nil_r.
  - rewrite zlen_cons in He. rewrite scan_unfold by (pose proof (zlen_nonneg a); lia).
    assert (rd (pre ++ (x :: a) ++ post) (zlen pre) = Some x) as -> by apply rd_mid.
    simpl. rewrite Hx.
    specialize (IH (pre ++ [x])). rewrite zlen_app in IH.
    replace (zlen [x]) with 1 in IH by done.
    rewrite <- !app_assoc in IH. simpl in IH. rewrite IH by lia.
    rewrite <- !app_assoc. done.
Qed.

Lemma rscan_n_spec n s p stop r :
  rscan_n n s p stop = Some r ->
  p - Z.of_nat n <= r <= p /\
  (forall i c, r < i <= p -> rd s i = Some c -> stop c = false) /\
  (p - Z.of_nat n < r -> exists c, rd s r = Some c /\ stop c = true).
Proof.
  revert p. induction n as [|n IH]; intros p; simpl.
  - intros [= <-]. split; [lia|]. split; intros; lia.
  - intros H. inv_bind H. destruct (stop x) eqn:Es.
    + injection H as <-. split; [lia|]. split; [intros; lia|]. eauto.
    + destruct (IH _ H) as (Hr & Hb & He). split; [lia|]. split.
      * intros i c Hi Hc. destruct (decide (i = p)); [by simplify_eq|].
        apply (Hb i c); [lia|done].
      * intros. apply He. lia.
Qed.

Lemma rscan_in s p b stop :
  0 <= b -> p < zlen s -> exists r, rscan s p b stop = Some r.
Proof.
  unfold rscan. intros Hb Hp. remember (Z.to_nat (p - b)) as n eqn:Hn.
  revert p Hp Hn. induction n as [|n IH]; intros p Hp Hn; simpl; [eauto|].
  destruct (rd_in s p) as [c Hc]; [lia|]. rewrite Hc. simpl.
  destruct (stop c); [eauto|]. apply IH; lia.
Qed.

(** ** Tables *)

Lemma bucket_empty {A} i : bucket (∅ : gmap Z (list A)) i = [].
Proof. unfold bucket. by rewrite lookup_empty. Qed.

Lemma bucket_set_eq {A} (t : gmap Z (list A)) i l : bucket (set_bucket t i l) i = l.
Proof. unfold bucket, set_bucket. by rewrite lookup_insert_eq. Qed.

Lemma bucket_set_ne {A} (t : gmap Z (list A)) i j l :
  i <> j -> bucket (set_bucket t i l) j = bucket t j.
Proof. intros. unfold bucket, set_bucket. by rewrite lookup_insert_ne. Qed.

Lemma chained_empty {A} (index : A -> Z) : chained index ∅.
Proof. intros i x. rewrite bucket_empty. by intros ?%elem_of_nil. Qed.

(** Replacing a chain keeps the table well formed when every record of the new
    chain belongs to its bucket. *)
Lemma chained_set {A} (index : A -> Z) t i l :
  chained index t -> (forall x, x ∈ l -> index x = i) -> chained index (set_bucket t i l).
Proof.
  intros Ht Hl j x. destruct (decide (i = j)) as [->|Hne].
  - rewrite bucket_set_eq. apply Hl.
  - rewrite bucket_set_ne by done. apply Ht.
Qed.

#[export] Hint Resolve chained_empty chained_set zlen_nonneg : aprs.

(** [memchr] finds the first occurrence. *)
Lemma memchr_Some s off len c p :
  memchr s off len c = Some (Some p) ->
  0 <= off /\ off <= p < off + len /\ off + len <= zlen s /\ rd s p = Some c /\
  (forall i, off <= i < p -> rd s i <> Some c).
Proof.
  unfold memchr, memmem. intros H. inv_bind H. apply rd_range_Some in E as (Ho & Hl & Hs & ->).
  injection H as H. apply fmap_Some in H as (k & Hk & ->).
  apply find_sub_Some in Hk as [(a & b & Hab & <-) Hf].
  pose proof (f_equal zlen Hab) as Hz. rewrite zlen_slice, !zlen_app in Hz by lia.
  change (zlen [c]) with 1 in Hz. pose proof (zlen_nonneg b). fold (zlen a).
  assert (forall i, 0 <= i < len -> rd (slice s off len) i = rd s (off + i)) as Hr by (intros; by apply rd_slice).
  pose proof (zlen_nonneg a).
  split; [done|]. split; [lia|]. split; [done|]. split.
  - rewrite <- Hr, Hab by lia. apply rd_mid.
  - intros i Hi Hc. replace i with (off + (i - off)) in Hc by lia. rewrite <- Hr in Hc by lia.
    specialize (Hf (Z.to_nat (i - off)) ltac:(unfold zlen in *; lia)).
    unfold rd in Hc. destruct (0 <=? i - off) eqn:E0; [|done]. rewrite (drop_S _ _ _ Hc) in Hf.
    cbn in Hf. by rewrite Z.eqb_refl in Hf.
Qed.

Lemma memmem_in s off len needle :
  0 <= off -> 0 <= len -> off + len <= zlen s -> is_Some (memmem s off len needle).
Proof. intros. unfold memmem. rewrite rd_range_in by done. by eexists. Qed.

Lemma strncasecmp_in s off lit : 0 <= off -> off + zlen lit <= zlen s -> exists b, strncasecmp_eq s off lit = Some b.
Proof.
  revert off. induction lit as [|x t IH]; intros off Ho Hs; cbn [strncasecmp_eq]; [eauto|]. rewrite zlen_cons in Hs.
  pose proof (zlen_nonneg t). destruct (rd_in s off) as [c ->]; [lia|]. cbn [mbind option_bind].
  split_if; [apply IH; lia|eauto].
Qed.
