(* ===== verification/Table.v ===== *)
(** * Chained hash tables as finite maps

    The tables of client_heard.c, historydb.c, dupecheck.c and filter.c have the
    same shape: an array of chains, the chain of a record being selected by a
    hash of its key, and at most one record per key.  This file gives the finite
    map such a table stands for and what replacing a chain does to it. *)

From S2P Require Import Prelude.
From Stdlib Require Import ZArith Lia Bool.
From stdpp Require Import base tactics list gmap numbers.
Open Scope Z_scope.

(** All records, chain by chain. *)
Definition entries {A} (n : nat) (t : gmap Z (list A)) : list A :=
  concat (map (fun k => bucket t (Z.of_nat k)) (seq 0 n)).

(** A pass over every chain: [for (i = 0; i < n; i++) list[i] = f(list[i])]. *)
Definition sweep {A} (n : nat) (f : list A -> list A) (t : gmap Z (list A)) : gmap Z (list A) :=
  fold_left (fun t k => set_bucket t (Z.of_nat k) (f (bucket t (Z.of_nat k)))) (seq 0 n) t.

Lemma bucket_sweep {A} n f (t : gmap Z (list A)) j :
  bucket (sweep n f t) j = if (0 <=? j) && (j <? Z.of_nat n) then f (bucket t j) else bucket t j.
Proof.
  unfold sweep. revert t. induction n as [|n IH]; intros t.
  - cbn [seq fold_left]. change (Z.of_nat 0) with 0. split_if; [lia|done].
  - rewrite seq_S, fold_left_app, Nat.add_0_l. cbn [fold_left].
    destruct (decide (Z.of_nat n = j)) as [<-|Hj].
    + rewrite bucket_set_eq, IH. repeat split_if; try done; zbool.
    + rewrite bucket_set_ne, IH by done. repeat split_if; try done; zbool.
Qed.

Lemma elem_of_entries {A} n (t : gmap Z (list A)) a :
  a ∈ entries n t <-> exists i, 0 <= i < Z.of_nat n /\ a ∈ bucket t i.
Proof.
  unfold entries. rewrite list_elem_of_In, in_concat. split.
  - intros (l & Hl & Ha). apply in_map_iff in Hl as (k & <- & Hk). apply in_seq in Hk.
    exists (Z.of_nat k). split; [lia|by apply list_elem_of_In].
  - intros (i & Hi & Ha). exists (bucket t i). split; [|by apply list_elem_of_In].
    apply in_map_iff. exists (Z.to_nat i). rewrite Z2Nat.id by lia. split; [done|].
    apply in_seq. lia.
Qed.

Lemma entries_empty {A} n : entries n (∅ : gmap Z (list A)) = [].
Proof. unfold entries. induction (seq 0 n) as [|k ks IH]; [done|]. cbn [map concat]. by rewrite bucket_empty. Qed.

(** The other chains do not change when one chain is replaced. *)
Lemma entries_set {A} n (t : gmap Z (list A)) i :
  0 <= i < Z.of_nat n ->
  exists a b, entries n t = a ++ bucket t i ++ b /\
    forall l, entries n (set_bucket t i l) = a ++ l ++ b.
Proof.
  intros Hi. unfold entries. set (k := Z.to_nat i).
  assert (seq 0 n = seq 0 k ++ k :: seq (S k) (n - S k)) as Hs.
  { replace n with (k + S (n - S k))%nat at 1 by lia. rewrite seq_app. done. }
  exists (concat (map (fun k => bucket t (Z.of_nat k)) (seq 0 k))),
         (concat (map (fun k => bucket t (Z.of_nat k)) (seq (S k) (n - S k)))).
  assert (Z.of_nat k = i) as Hk by lia.
  rewrite Hs, map_app, concat_app. cbn [map concat]. rewrite Hk. split; [done|]. intros l.
  rewrite map_app, concat_app. cbn [map concat]. rewrite Hk, bucket_set_eq.
  f_equal; [|f_equal]; f_equal; apply map_ext_in; intros x Hx; apply in_seq in Hx;
    apply bucket_set_ne; lia.
Qed.

Lemma zlen_entries_set {A} n (t : gmap Z (list A)) i l :
  0 <= i < Z.of_nat n ->
  zlen (entries n (set_bucket t i l)) = zlen (entries n t) - zlen (bucket t i) + zlen l.
Proof.
  intros Hi. destruct (entries_set n t i Hi) as (a & b & -> & Hl). rewrite Hl, !zlen_app. lia.
Qed.

(** Unlink the first record that satisfies [p]. *)
Fixpoint unlink {A} (p : A -> bool) (l : list A) : list A :=
  match l with
  | [] => []
  | x :: t => if p x then t else x :: unlink p t
  end.

Lemma unlink_none {A} (p : A -> bool) l : List.find p l = None -> unlink p l = l.
Proof. induction l as [|x l IH]; simpl; [done|]. destruct (p x); [done|]. intros. by rewrite IH. Qed.

Lemma unlink_sublist {A} (p : A -> bool) l : unlink p l `sublist_of` l.
Proof. induction l as [|a l IH]; cbn; [done|]. destruct (p a); by constructor. Qed.

Lemma Forall_unlink {A} (P : A -> Prop) p l : Forall P l -> Forall P (unlink p l).
Proof. induction 1; simpl; [done|]. destruct (p x); [done|]. by constructor. Qed.

(** Change the first record that satisfies [p] where it is. *)
Fixpoint alter_first {A} (p : A -> bool) (f : A -> A) (l : list A) : list A :=
  match l with
  | [] => []
  | x :: t => if p x then f x :: t else x :: alter_first p f t
  end.

Lemma alter_first_ext {A} (p q : A -> bool) f l :
  (forall x, x ∈ l -> p x = q x) -> alter_first p f l = alter_first q f l.
Proof.
  induction l as [|x l IH]; intros Hpq; simpl; [done|].
  rewrite <- (Hpq x) by (apply elem_of_cons; by left).
  destruct (p x); [done|]. f_equal. apply IH. intros y Hy. apply Hpq, elem_of_cons. by right.
Qed.

Lemma zlen_alter_first {A} (p : A -> bool) f l : zlen (alter_first p f l) = zlen l.
Proof. induction l as [|x l IH]; cbn; [done|]. destruct (p x); rewrite !zlen_cons; lia. Qed.

Lemma elem_of_alter_first {A} (p : A -> bool) f l x :
  x ∈ alter_first p f l -> x ∈ l \/ exists y, y ∈ l /\ p y = true /\ x = f y.
Proof.
  induction l as [|a l IH]; cbn; [by left|]. rewrite elem_of_cons. destruct (p a) eqn:E.
  - intros [->|Hx]%elem_of_cons; [|by left; right]. right. exists a. rewrite elem_of_cons. auto.
  - intros [->|Hx]%elem_of_cons; [by left; left|]. destruct (IH Hx) as [?|(y & ? & ?)]; [by left; right|].
    right. exists y. rewrite elem_of_cons. auto.
Qed.

Lemma find_ext {A} (p q : A -> bool) l :
  (forall x, x ∈ l -> p x = q x) -> List.find p l = List.find q l.
Proof.
  induction l as [|x l IH]; intros Hpq; simpl; [done|].
  rewrite <- (Hpq x) by (apply elem_of_cons; by left).
  destruct (p x); [done|]. apply IH. intros y Hy. apply Hpq, elem_of_cons. by right.
Qed.

Lemma unlink_ext {A} (p q : A -> bool) l :
  (forall x, x ∈ l -> p x = q x) -> unlink p l = unlink q l.
Proof.
  induction l as [|x l IH]; intros Hpq; simpl; [done|].
  rewrite <- (Hpq x) by (apply elem_of_cons; by left).
  destruct (p x); [done|]. f_equal. apply IH. intros y Hy. apply Hpq, elem_of_cons. by right.
Qed.

Section View.
Context {A K V : Type} `{Countable K} (key : A -> K) (val : A -> V) (index : K -> Z) (n : nat).
Implicit Types (t : gmap Z (list A)) (k : K) (l : list A).

(** The record of a key in a chain. *)
Definition chain_find k l : option A := List.find (fun a => bool_decide (key a = k)) l.

Definition view t : gmap K V := list_to_map (map (fun a => (key a, val a)) (entries n t)).

(** At most one record per key, each in the chain its key selects. *)
Record table_wf t : Prop := {
  tw_chained : forall i a, a ∈ bucket t i -> index (key a) = i;
  tw_nodup : forall i, NoDup (map key (bucket t i))
}.

Context (Hindex : forall k, 0 <= index k < Z.of_nat n).

Lemma chain_find_Some k l a : chain_find k l = Some a -> a ∈ l /\ key a = k.
Proof.
  unfold chain_find. intros [Ha Hk]%find_some. apply list_elem_of_In in Ha.
  by apply bool_decide_eq_true in Hk.
Qed.

Lemma chain_find_None k l : chain_find k l = None -> k ∉ map key l.
Proof.
  unfold chain_find. intros Hn [a [-> Ha]]%list_elem_of_fmap. apply list_elem_of_In in Ha.
  apply (find_none _ _ Hn) in Ha. by rewrite bool_decide_eq_true_2 in Ha.
Qed.

Lemma chain_find_app k a b :
  chain_find k (a ++ b) = match chain_find k a with Some x => Some x | None => chain_find k b end.
Proof.
  unfold chain_find. induction a as [|x a IH]; [done|]. cbn. by destruct (bool_decide _).
Qed.

Lemma chain_find_unique k l a :
  NoDup (map key l) -> a ∈ l -> key a = k -> chain_find k l = Some a.
Proof.
  intros Hnd Ha Hk. destruct (chain_find k l) as [b|] eqn:E.
  - apply chain_find_Some in E as [Hb Hbk]. f_equal.
    apply list_elem_of_lookup in Ha as [i Hi], Hb as [j Hj].
    assert (i = j) as ->; [|congruence].
    eapply NoDup_lookup; [exact Hnd|..].
    + rewrite list_lookup_fmap, Hi. done.
    + rewrite list_lookup_fmap, Hj. cbn. congruence.
  - apply chain_find_None in E. exfalso. apply E. subst. by apply list_elem_of_fmap_2.
Qed.

Lemma NoDup_concat_keys (f : nat -> list A) (ks : list nat) :
  NoDup ks -> (forall j : nat, j ∈ ks -> NoDup (map key (f j))) ->
  (forall (j : nat) a, j ∈ ks -> a ∈ f j -> index (key a) = Z.of_nat j) ->
  NoDup (map key (concat (map f ks))).
Proof.
  induction 1 as [|k ks Hk Hnd IH]; intros Hf Hi; cbn; [constructor|].
  rewrite map_app. apply list.NoDup_app. split; [apply Hf, elem_of_cons; by left|]. split.
  - intros x Hx1 Hx2. apply list_elem_of_fmap in Hx1 as (a & -> & Ha).
    apply list_elem_of_fmap in Hx2 as (b & Hab & Hb).
    apply list_elem_of_In, in_concat in Hb as (l & Hl & Hb).
    apply in_map_iff in Hl as (k' & <- & Hk'). apply list_elem_of_In in Hk', Hb.
    pose proof (Hi k a ltac:(apply elem_of_cons; by left) Ha).
    pose proof (Hi k' b ltac:(apply elem_of_cons; by right) Hb).
    assert (k = k') as -> by (rewrite Hab in *; lia). done.
  - apply IH; intros; [apply Hf|apply Hi]; try done; apply elem_of_cons; by right.
Qed.

Lemma wf_nodup_entries t : table_wf t -> NoDup (map key (entries n t)).
Proof.
  intros [Hc Hn]. apply NoDup_concat_keys; [apply NoDup_seq|auto|].
  intros k a _ Ha. by apply Hc.
Qed.

(** The map of a well-formed table, looked up through the chain of the key. *)
Lemma view_lookup t k :
  table_wf t -> view t !! k = val <$> chain_find k (bucket t (index k)).
Proof.
  intros Hwf. pose proof (wf_nodup_entries t Hwf) as Hnd. unfold view.
  assert ((map (fun a => (key a, val a)) (entries n t)).*1 = map key (entries n t)) as Hfst.
  { by rewrite <- list_fmap_compose. }
  destruct (chain_find k (bucket t (index k))) as [a|] eqn:E; cbn.
  - apply chain_find_Some in E as [Ha <-]. apply elem_of_list_to_map_1; [by rewrite Hfst|].
    apply list_elem_of_fmap. exists a. split; [done|]. apply elem_of_entries. eauto.
  - apply chain_find_None in E. apply not_elem_of_list_to_map_1. rewrite Hfst.
    intros (a & -> & Ha)%list_elem_of_fmap. apply elem_of_entries in Ha as (i & Hi & Ha).
    apply E. destruct Hwf as [Hc _]. rewrite (Hc i a Ha). by apply list_elem_of_fmap_2.
Qed.

(** Replacing the chain [i] by records of that chain. *)
Lemma wf_set t i l :
  table_wf t -> (forall a, a ∈ l -> index (key a) = i) -> NoDup (map key l) ->
  table_wf (set_bucket t i l).
Proof.
  intros [Hc Hn] Hl Hnd. split.
  - intros j a. destruct (decide (i = j)) as [<-|Hj].
    + rewrite bucket_set_eq. apply Hl.
    + rewrite bucket_set_ne by done. apply Hc.
  - intros j. destruct (decide (i = j)) as [<-|Hj].
    + by rewrite bucket_set_eq.
    + by rewrite bucket_set_ne.
Qed.

Lemma wf_sweep t f :
  table_wf t -> (forall l, sublist (f l) l) -> table_wf (sweep n f t).
Proof.
  intros [Hc Hn] Hf. split.
  - intros j a. rewrite bucket_sweep. split_if; [|apply Hc]. intros Ha. apply (Hc j).
    by eapply elem_of_sublist.
  - intros j. rewrite bucket_sweep. split_if; [|apply Hn].
    apply (sublist_NoDup _ (map key (bucket t j))); [apply Hn|]. by apply fmap_sublist.
Qed.

Lemma wf_empty : table_wf ∅.
Proof.
  split; intros i; rewrite bucket_empty; [|constructor]. by intros a ?%elem_of_nil.
Qed.

Lemma view_empty : view ∅ = ∅.
Proof.
  unfold view, entries. induction (seq 0 n) as [|k ks IH]; [done|].
  cbn [map concat]. by rewrite bucket_empty.
Qed.

Lemma view_set_lookup t i l k :
  table_wf (set_bucket t i l) -> table_wf t ->
  view (set_bucket t i l) !! k = if index k =? i then val <$> chain_find k l else view t !! k.
Proof.
  intros H1 H2. rewrite !view_lookup by done. destruct (Z.eqb_spec (index k) i) as [<-|Hne].
  - by rewrite bucket_set_eq.
  - by rewrite bucket_set_ne by done.
Qed.

(** The number of records is the number of keys. *)
Lemma view_size t : table_wf t -> zlen (entries n t) = Z.of_nat (size (view t)).
Proof.
  intros Hwf. unfold view. rewrite <- length_map_to_list, map_to_list_to_map.
  - unfold zlen. by rewrite length_map.
  - rewrite <- list_fmap_compose. by apply wf_nodup_entries.
Qed.

Definition has_key k (a : A) : bool := bool_decide (key a = k).

Lemma chain_find_unlink k k' l :
  NoDup (map key l) ->
  chain_find k' (unlink (has_key k) l) = if bool_decide (k = k') then None else chain_find k' l.
Proof.
  induction l as [|a l IH]; cbn [map]; intros Hnd; [by destruct (bool_decide _)|].
  apply list.NoDup_cons in Hnd as [Ha Hnd]. specialize (IH Hnd). cbn [unlink]. unfold has_key at 1.
  destruct (decide (key a = k)) as [Hk|Hk];
    [rewrite (bool_decide_eq_true_2 (key a = k)) by done|rewrite (bool_decide_eq_false_2 (key a = k)) by done].
  - destruct (decide (k = k')) as [->|Hkk].
    + rewrite bool_decide_eq_true_2 by done. destruct (chain_find k' l) eqn:E; [|done].
      apply chain_find_Some in E as [Hin Hkey]. exfalso. apply Ha. rewrite Hk, <- Hkey.
      by apply list_elem_of_fmap_2.
    + rewrite bool_decide_eq_false_2 by done. unfold chain_find. cbn.
      rewrite bool_decide_eq_false_2; [done|congruence].
  - unfold chain_find in *. cbn. rewrite IH. destruct (decide (key a = k')) as [Hk'|Hk'].
    + rewrite (bool_decide_eq_true_2 (key a = k')) by done.
      rewrite bool_decide_eq_false_2; [done|congruence].
    + by rewrite (bool_decide_eq_false_2 (key a = k')).
Qed.

Lemma unlink_keys k l : NoDup (map key l) -> k ∉ map key (unlink (has_key k) l).
Proof.
  intros Hnd. apply chain_find_None. rewrite chain_find_unlink by done.
  by rewrite bool_decide_eq_true_2.
Qed.

(** Removing the record of a key. *)
Lemma view_delete t k :
  table_wf t ->
  let t' := set_bucket t (index k) (unlink (has_key k) (bucket t (index k))) in
  table_wf t' /\ view t' = delete k (view t).
Proof.
  intros Hwf t'. assert (table_wf t') as Hwf'.
  { apply wf_set; [done| |].
    - intros a Ha. apply (tw_chained t Hwf). eapply elem_of_sublist, unlink_sublist; done.
    - eapply sublist_NoDup; [apply (tw_nodup t Hwf)|]. apply fmap_sublist, unlink_sublist. }
  split; [done|]. apply map_eq. intros k'. unfold t' in *. rewrite view_set_lookup by done.
  rewrite chain_find_unlink by apply (tw_nodup t Hwf).
  destruct (decide (k = k')) as [<-|Hk].
  - by rewrite lookup_delete_eq, Z.eqb_refl, bool_decide_eq_true_2.
  - rewrite lookup_delete_ne, bool_decide_eq_false_2 by done.
    destruct (Z.eqb_spec (index k') (index k)) as [E|E]; [|done]. by rewrite view_lookup, E.
Qed.

(** Putting a record in front of the chain of its key, in the place of the one
    that was there. *)
Lemma view_put t a :
  table_wf t ->
  let t' := set_bucket t (index (key a)) (a :: unlink (has_key (key a)) (bucket t (index (key a)))) in
  table_wf t' /\ view t' = <[key a := val a]> (view t).
Proof.
  intros Hwf t'. assert (table_wf t') as Hwf'.
  { apply wf_set; [done| |].
    - intros b [->|Hb]%elem_of_cons; [done|]. apply (tw_chained t Hwf).
      eapply elem_of_sublist, unlink_sublist; done.
    - cbn. apply list.NoDup_cons. split; [apply unlink_keys, (tw_nodup t Hwf)|].
      eapply sublist_NoDup; [apply (tw_nodup t Hwf)|]. apply fmap_sublist, unlink_sublist. }
  split; [done|]. apply map_eq. intros k. unfold t' in *. rewrite view_set_lookup by done.
  unfold chain_find. cbn. fold (chain_find k (unlink (has_key (key a)) (bucket t (index (key a))))).
  rewrite chain_find_unlink by apply (tw_nodup t Hwf).
  destruct (decide (key a = k)) as [<-|Hk].
  - by rewrite lookup_insert_eq, Z.eqb_refl, bool_decide_eq_true_2.
  - rewrite lookup_insert_ne, bool_decide_eq_false_2 by done.
    destruct (Z.eqb_spec (index k) (index (key a))) as [E|E]; [|done]. by rewrite view_lookup, E.
Qed.

(** Changing the record of a key where it is. *)
Lemma chain_find_alter k k' f l a :
  (forall x, key (f x) = key x) -> chain_find k l = Some a ->
  chain_find k' (alter_first (has_key k) f l) = if bool_decide (k = k') then Some (f a) else chain_find k' l.
Proof.
  intros Hf. unfold chain_find, has_key. induction l as [|x l IH]; cbn [List.find alter_first]; [done|].
  destruct (decide (key x = k)) as [<-|Hk].
  - rewrite (bool_decide_eq_true_2 (key x = key x)) by done. intros [= ->]. cbn [List.find]. rewrite Hf.
    by destruct (bool_decide (key a = k')).
  - rewrite (bool_decide_eq_false_2 (key x = k)) by done. intros Ha. cbn [List.find].
    destruct (decide (key x = k')) as [<-|Hk'].
    + rewrite !bool_decide_eq_true_2 by done. rewrite bool_decide_eq_false_2; [done|congruence].
    + rewrite (bool_decide_eq_false_2 (key x = k')) by done. by apply IH.
Qed.

Lemma alter_first_keys p f l : (forall x, key (f x) = key x) -> map key (alter_first p f l) = map key l.
Proof. intros Hf. induction l as [|x l IH]; cbn; [done|]. destruct (p x); cbn; congruence. Qed.

Lemma view_alter t k f a :
  (forall x, key (f x) = key x) -> table_wf t -> chain_find k (bucket t (index k)) = Some a ->
  let t' := set_bucket t (index k) (alter_first (has_key k) f (bucket t (index k))) in
  table_wf t' /\ view t' = <[k := val (f a)]> (view t).
Proof.
  intros Hf Hwf Ha t'. assert (table_wf t') as Hwf'.
  { apply wf_set; [done| |].
    - intros x Hx. destruct (elem_of_alter_first _ _ _ _ Hx) as [Hx'|(y & Hy & _ & ->)];
        rewrite ?Hf; by apply (tw_chained t Hwf).
    - rewrite alter_first_keys by done. apply (tw_nodup t Hwf). }
  split; [done|]. apply map_eq. intros k'. unfold t' in *. rewrite view_set_lookup by done.
  destruct (decide (k = k')) as [<-|Hk].
  - rewrite lookup_insert_eq, Z.eqb_refl. by erewrite chain_find_alter, bool_decide_eq_true_2.
  - rewrite lookup_insert_ne by done. destruct (Z.eqb_spec (index k') (index k)) as [E|E]; [|done].
    rewrite view_lookup, E by done. by erewrite chain_find_alter, bool_decide_eq_false_2.
Qed.

Lemma unlink_absent k l : chain_find k l = None -> unlink (has_key k) l = l.
Proof. apply unlink_none. Qed.

Lemma chain_find_filter k q l :
  NoDup (map key l) ->
  chain_find k (List.filter q l) = a ← chain_find k l; if (q a : bool) then Some a else None.
Proof.
  induction l as [|a l IH]; cbn [map]; intros Hnd; [done|].
  apply list.NoDup_cons in Hnd as [Ha Hnd]. specialize (IH Hnd). unfold chain_find in *. cbn.
  destruct (decide (key a = k)) as [Hk|Hk];
    [rewrite (bool_decide_eq_true_2 (key a = k)) by done|rewrite (bool_decide_eq_false_2 (key a = k)) by done].
  - destruct (q a) eqn:Eq; cbn; rewrite ?Eq.
    + by rewrite bool_decide_eq_true_2.
    + rewrite IH. destruct (chain_find k l) as [b|] eqn:E; unfold chain_find in E; rewrite E; [|done].
      apply (chain_find_Some k l) in E as [Hb Hkb]. exfalso. apply Ha. rewrite Hk, <- Hkb.
      by apply list_elem_of_fmap_2.
  - destruct (q a); [|done]. cbn. by rewrite bool_decide_eq_false_2.
Qed.

Lemma filter_sublist (q : A -> bool) l : List.filter q l `sublist_of` l.
Proof. induction l as [|a l IH]; cbn; [done|]. destruct (q a); by constructor. Qed.

(** A pass that drops the records that fail a test on their value. *)
Lemma view_filter t (q : A -> bool) (Q : K * V -> Prop) `{!forall x, Decision (Q x)} :
  (forall a, Q (key a, val a) <-> q a = true) -> table_wf t ->
  let t' := sweep n (List.filter q) t in
  table_wf t' /\ view t' = filter Q (view t).
Proof.
  intros Hq Hwf t'. assert (table_wf t') as Hwf' by (apply wf_sweep; [done|apply filter_sublist]).
  split; [done|]. apply map_eq. intros k. rewrite map_lookup_filter, !view_lookup by done.
  unfold t'. rewrite bucket_sweep. specialize (Hindex k).
  destruct ((0 <=? index k) && (index k <? Z.of_nat n)) eqn:E; [|zbool].
  rewrite chain_find_filter by apply (tw_nodup t Hwf).
  destruct (chain_find k (bucket t (index k))) as [a|] eqn:Ea; [|done]. cbn.
  apply chain_find_Some in Ea as [_ <-]. specialize (Hq a).
  destruct (q a) eqn:Eq.
  - rewrite option_guard_True; [done|by apply Hq].
  - rewrite option_guard_False; [done|]. intros ?%Hq. congruence.
Qed.
End View.

Arguments chain_find {_ _ _} _ _ _.
Arguments has_key {_ _ _} _ _ _.
