(* ===== verification/Cellmalloc.v ===== *)
(** * cellmalloc.c: arenas of cells of one size

    The free cells of an arena are a linked list through the cells themselves, so the
    memory is modelled: [next] is the word at the start of a cell, which belongs to
    the owner of the cell while it is in use.  A null pointer is 0, and a read or
    write through a null pointer or outside of the cells is [None].  [mmap] is a
    parameter: the answer to its n-th call.  The mutex makes every operation
    atomic. *)

From S2P Require Import Prelude.
From Stdlib Require Import ZArith Lia Bool.
From stdpp Require Import base tactics list numbers gmap.
Open Scope Z_scope.

(** ** Data *)

Record cellarena_t := mk_arena {
  cellsize : Z;
  alignment : Z;
  increment : Z;
  lifo_policy : bool;
  minfree : Z;
  free_head : Z;
  free_tail : Z;
  freecount : Z;
  createsize : Z;
  cellblocks : list Z
}.

Definition CELLBLOCKS_MAX : Z := 200.

(** An arena, the words at the starts of the cells, and the calls of [mmap] made. *)
Record cells := mk_cells { ca : cellarena_t; next : gmap Z Z; calls : nat }.

Definition set_free (head tail count : Z) (a : cellarena_t) : cellarena_t :=
  mk_arena a.(cellsize) a.(alignment) a.(increment) a.(lifo_policy) a.(minfree) head tail count
           a.(createsize) a.(cellblocks).

Definition add_block (cb : Z) (a : cellarena_t) : cellarena_t :=
  mk_arena a.(cellsize) a.(alignment) a.(increment) a.(lifo_policy) a.(minfree) a.(free_head) a.(free_tail)
           a.(freecount) a.(createsize) (a.(cellblocks) ++ [cb]).

(** [ch->next = v]. *)
Definition set_next (ch v : Z) (h : gmap Z Z) : option (gmap Z Z) :=
  _ ← h !! ch; Some (<[ch := v]> h).

(** ** New blocks *)

Section Arena.
Variable mmap : nat -> option Z.

(** A new cell at the end of the free list. *)
Definition link_tail (ch : Z) (s : cells) : option cells :=
  let a := s.(ca) in
  '(head, h) ← (if a.(free_head) =? 0 then Some (ch, s.(next))
               else h ← set_next a.(free_tail) ch s.(next); Some (a.(free_head), h));
  Some (mk_cells (set_free head ch (a.(freecount) + 1) a) (<[ch := 0]> h) s.(calls)).

(** The loop of [new_cellblock] over the cells of a block, from offset [i] on. *)
Fixpoint fill_block (n : nat) (cb i : Z) (s : cells) : option cells :=
  match n with
  | O => Some s
  | S n =>
      if i <=? s.(ca).(createsize) - s.(ca).(increment) then
        s' ← link_tail (cb + i) s; fill_block n cb (i + s.(ca).(increment)) s'
      else Some s
  end.

(** [new_cellblock], with its return code. *)
Definition new_cellblock (s : cells) : option (cells * Z) :=
  if zlen s.(ca).(cellblocks) >=? CELLBLOCKS_MAX then Some (s, -1)
  else
    let cb := mmap s.(calls) in
    let s := mk_cells s.(ca) s.(next) (S s.(calls)) in
    match cb with
    | None => Some (s, -1)
    | Some cb =>
        s' ← fill_block (Z.to_nat s.(ca).(createsize) + 1) cb 0 (mk_cells (add_block cb s.(ca)) s.(next) s.(calls));
        Some (s', 0)
    end.

(** ** Taking and giving back *)

Definition starved (a : cellarena_t) : bool := (a.(free_head) =? 0) || (a.(freecount) <? a.(minfree)).

(** The loop that adds blocks while there are not enough cells; [false] when a block
    could not be had. *)
Fixpoint grow (n : nat) (s : cells) : option (cells * bool) :=
  match n with
  | O => Some (s, false)
  | S n =>
      if starved s.(ca) then
        '(s, rc) ← new_cellblock s;
        if rc =? 0 then grow n s else Some (s, false)
      else Some (s, true)
  end.

Definition grow_fuel : nat := Z.to_nat CELLBLOCKS_MAX + 1.

(** The first free cell. *)
Definition take_head (s : cells) : option (cells * Z) :=
  let a := s.(ca) in
  let ch := a.(free_head) in
  n ← s.(next) !! ch;
  Some (mk_cells (set_free n (if n =? 0 then 0 else a.(free_tail)) (a.(freecount) - 1) a)
                 (<[ch := 0]> s.(next)) s.(calls), ch).

Definition cellmalloc (s : cells) : option (cells * Z) :=
  '(s, ok) ← grow grow_fuel s;
  if (ok : bool) then take_head s else Some (s, 0).

Fixpoint cellmallocmany (numcells : nat) (s : cells) : option (cells * list Z) :=
  match numcells with
  | O => Some (s, [])
  | S numcells =>
      '(s, _) ← grow grow_fuel s;
      if s.(ca).(free_head) =? 0 then Some (s, [])
      else
        '(s, p) ← take_head s;
        '(s, l) ← cellmallocmany numcells s;
        Some (s, p :: l)
  end.

Definition cellfree (p : Z) (s : cells) : option cells :=
  let a := s.(ca) in
  h ← set_next p 0 s.(next);
  if a.(lifo_policy) then
    h ← set_next p a.(free_head) h;
    Some (mk_cells (set_free p a.(free_tail) (a.(freecount) + 1) a) h s.(calls))
  else
    h ← (if a.(free_tail) =? 0 then Some h else set_next a.(free_tail) p h);
    h ← set_next p 0 h;
    Some (mk_cells (set_free (if a.(free_head) =? 0 then p else a.(free_head)) p (a.(freecount) + 1) a) h s.(calls)).

Fixpoint cellfreemany (ps : list Z) (s : cells) : option cells :=
  match ps with
  | [] => Some s
  | p :: ps => s ← cellfree p s; cellfreemany ps s
  end.

(** [cellinit]; [None] when its loop does not end. *)
Fixpoint init_loop (n : nat) (s : cells) : option cells :=
  if s.(ca).(freecount) <? s.(ca).(minfree) then
    match n with O => None | S n => '(s, _) ← new_cellblock s; init_loop n s end
  else Some s.

Definition cellinit (fuel : nat) (cellsize alignment : Z) (lifo : bool) (createkb minfree : Z) : option cells :=
  let increment := if cellsize mod alignment =? 0 then cellsize else cellsize + (alignment - cellsize mod alignment) in
  init_loop fuel (mk_cells (mk_arena cellsize alignment increment lifo minfree 0 0 0 (createkb * 1024) []) ∅ 0).

(** [cellstatus]: the number of cells and of free cells. *)
Definition cellstatus (s : cells) : Z * Z :=
  (s.(ca).(createsize) / s.(ca).(increment) * zlen s.(ca).(cellblocks), s.(ca).(freecount)).
End Arena.

(** * The free list *)

Fixpoint chain (h : gmap Z Z) (p : Z) (l : list Z) : Prop :=
  match l with
  | [] => p = 0
  | x :: l => p = x /\ x <> 0 /\ exists n, h !! x = Some n /\ chain h n l
  end.

Lemma chain_frame h h' p l : (forall x, x ∈ l -> h' !! x = h !! x) -> chain h p l -> chain h' p l.
Proof.
  revert p. induction l as [|x l IH]; intros p Hf; [done|]. intros (-> & Hx & n & Hn & Hc).
  split; [done|]. split; [done|]. exists n. rewrite Hf by apply list_elem_of_here. split; [done|].
  apply IH; [|done]. intros y Hy. apply Hf. by apply list_elem_of_further.
Qed.

Lemma chain_head h p l : chain h p l -> p = 0 <-> l = [].
Proof. destruct l as [|x l]; [done|]. intros (-> & Hx & _). split; done. Qed.

Lemma chain_mem h p l x : chain h p l -> x ∈ l -> is_Some (h !! x).
Proof.
  revert p. induction l as [|y l IH]; intros p; [intros _ H; by apply elem_of_nil in H|].
  intros (_ & _ & n & Hn & Hc) [->|Hx]%elem_of_cons; [by rewrite Hn|]. by eapply IH.
Qed.

(** Linking a cell behind the last one. *)
Lemma chain_snoc h p l t ch :
  chain h p (l ++ [t]) -> base.NoDup (l ++ [t]) -> ch <> 0 -> ch ∉ l ++ [t] ->
  chain (<[ch := 0]> (<[t := ch]> h)) p ((l ++ [t]) ++ [ch]).
Proof.
  revert p. induction l as [|x l IH]; intros p; cbn [app].
  - intros (-> & Ht & n & Hn & _) _ Hch Hni. split; [done|]. split; [done|]. exists ch.
    rewrite lookup_insert_ne by set_solver. rewrite lookup_insert_eq. split; [done|].
    split; [done|]. split; [done|]. exists 0. by rewrite lookup_insert_eq.
  - intros (-> & Hx & n & Hn & Hc) [Hxl Hnd]%list.NoDup_cons Hch Hni. split; [done|]. split; [done|]. exists n.
    rewrite !lookup_insert_ne by set_solver. split; [done|]. apply IH; [done|done|done|set_solver].
Qed.

Abbreviation last_of l := (default 0 (last l)) (only parsing).

Lemma last_of_app (l1 l2 : list Z) : l2 <> [] -> last_of (l1 ++ l2) = last_of l2.
Proof. destruct l2 as [|y l2 _] using rev_ind; [done|]. intros _. by rewrite app_assoc, !last_snoc. Qed.

(** From [s] to [s'] the cells [new] were put at the end of the list. *)
Record grown (s s' : cells) (fl new : list Z) : Prop := {
  gr_chain : chain s'.(next) s'.(ca).(free_head) (fl ++ new);
  gr_tail : s'.(ca).(free_tail) = if bool_decide (new = []) then s.(ca).(free_tail) else last_of new;
  gr_ca : s'.(ca) = set_free s'.(ca).(free_head) s'.(ca).(free_tail) (s.(ca).(freecount) + zlen new) s.(ca);
  gr_frame : forall x, x ∉ fl -> x ∉ new -> s'.(next) !! x = s.(next) !! x;
  gr_calls : s'.(calls) = s.(calls)
}.

Lemma link_tail_grown ch s fl :
  chain s.(next) s.(ca).(free_head) fl -> base.NoDup fl -> (fl = [] \/ s.(ca).(free_tail) = last_of fl) ->
  ch <> 0 -> ch ∉ fl ->
  exists s', link_tail ch s = Some s' /\ grown s s' fl [ch].
Proof.
  intros Hc Hnd Ht Hch Hni. unfold link_tail. pose proof (chain_head _ _ _ Hc) as Hh.
  destruct (Z.eqb_spec (free_head (ca s)) 0) as [E|E].
  - apply Hh in E. subst fl. eexists. split; [reflexivity|]. split; cbn; try done.
    + split; [done|]. split; [done|]. exists 0. by rewrite lookup_insert_eq.
    + intros x _ Hx. rewrite lookup_insert_ne by set_solver. done.
  - destruct Ht as [->|Ht]; [by destruct Hh as [_ H]; specialize (H eq_refl)|].
    destruct fl as [|t l _] using rev_ind; [by destruct Hh as [_ H]; specialize (H eq_refl)|].
    rewrite last_snoc in Ht. change (free_tail (ca s) = t) in Ht. rewrite Ht. unfold set_next.
    destruct (chain_mem _ _ _ t Hc) as [v Hv]; [set_solver|]. rewrite Hv. cbn [mbind option_bind].
    eexists. split; [reflexivity|]. split; cbn; try done.
    + by apply chain_snoc.
    + intros x Hx Hx'. rewrite !lookup_insert_ne by set_solver. done.
Qed.

Lemma grown_nil s fl : chain s.(next) s.(ca).(free_head) fl -> grown s s fl [].
Proof.
  intros Hc. split; [by rewrite app_nil_r|done| |done|done]. rewrite zlen_nil, Z.add_0_r. by destruct s as [[]].
Qed.

Lemma grown_trans s1 s2 s3 fl l1 l2 :
  grown s1 s2 fl l1 -> grown s2 s3 (fl ++ l1) l2 -> grown s1 s3 fl (l1 ++ l2).
Proof.
  intros [C1 T1 A1 F1 K1] [C2 T2 A2 F2 K2]. split.
  - by rewrite app_assoc.
  - rewrite T2. destruct (decide (l2 = [])) as [->|E].
    + by rewrite app_nil_r.
    + rewrite !bool_decide_eq_false_2; [by rewrite last_of_app|by intros [? ?]%app_eq_nil|done].
  - rewrite A2 at 1. rewrite A1, zlen_app, Z.add_assoc. reflexivity.
  - intros x Hx Hx'. rewrite F2 by set_solver. apply F1; set_solver.
  - congruence.
Qed.

(** ** Cells of a block *)

Fixpoint block_cells (n : nat) (size inc cb i : Z) : list Z :=
  match n with
  | O => []
  | S n => if i <=? size - inc then (cb + i) :: block_cells n size inc cb (i + inc) else []
  end.

Lemma block_cells_range n size inc cb i p :
  0 < inc -> 0 <= i -> p ∈ block_cells n size inc cb i -> cb + i <= p /\ p + inc <= cb + size.
Proof.
  intros Hinc. revert i. induction n as [|n IH]; intros i Hi; cbn; [intros H; by apply elem_of_nil in H|].
  destruct (Z.leb_spec i (size - inc)) as [H|H]; [|intros H'; by apply elem_of_nil in H'].
  intros [->|Hp]%elem_of_cons; [lia|]. apply IH in Hp; lia.
Qed.

Lemma block_cells_aligned n size inc cb i p a :
  (a | cb + i) -> (a | inc) -> p ∈ block_cells n size inc cb i -> (a | p).
Proof.
  intros Hi Hinc. revert i Hi. induction n as [|n IH]; intros i Hi; cbn; [intros H; by apply elem_of_nil in H|].
  destruct (Z.leb_spec i (size - inc)); [|intros H'; by apply elem_of_nil in H'].
  intros [->|Hp]%elem_of_cons; [done|]. apply (IH (i + inc)); [|done]. rewrite Z.add_assoc. by apply Z.divide_add_r.
Qed.

Lemma block_cells_count n size inc cb i :
  0 < inc -> 0 <= i -> size - i < Z.of_nat n -> zlen (block_cells n size inc cb i) = Z.max 0 ((size - i) / inc).
Proof.
  intros Hinc. revert i. induction n as [|n IH]; intros i Hi Hn; cbn [block_cells].
  - rewrite zlen_nil. assert ((size - i) / inc < 0) by (apply Z.div_lt_upper_bound; lia). lia.
  - destruct (Z.leb_spec i (size - inc)) as [H|H].
    + rewrite zlen_cons, IH by lia. replace (size - i) with (size - (i + inc) + 1 * inc) by lia.
      rewrite Z.div_add by lia. assert (0 <= (size - (i + inc)) / inc) by (apply Z.div_pos; lia). lia.
    + rewrite zlen_nil. assert ((size - i) / inc < 1) by (apply Z.div_lt_upper_bound; lia). lia.
Qed.

(** Two cells do not overlap. *)
Definition apart (inc p q : Z) : Prop := p + inc <= q \/ q + inc <= p.

Lemma block_cells_apart n size inc cb i :
  0 < inc -> 0 <= i -> ForallOrdPairs (apart inc) (block_cells n size inc cb i).
Proof.
  intros Hinc. revert i. induction n as [|n IH]; intros i Hi; cbn; [constructor|].
  destruct (i <=? size - inc); [|constructor]. constructor; [|apply IH; lia].
  apply list.Forall_forall. intros q Hq. apply block_cells_range in Hq; unfold apart; lia.
Qed.

Lemma apart_NoDup inc l : 0 < inc -> ForallOrdPairs (apart inc) l -> base.NoDup l.
Proof.
  intros Hinc. induction 1 as [|p l Hp _ IH]; constructor; [|done].
  rewrite list.Forall_forall in Hp. intros Hin. specialize (Hp _ Hin). unfold apart in Hp. lia.
Qed.

Lemma apart_app inc l1 l2 :
  ForallOrdPairs (apart inc) (l1 ++ l2) <->
  ForallOrdPairs (apart inc) l1 /\ ForallOrdPairs (apart inc) l2 /\ Forall (fun p => Forall (apart inc p) l2) l1.
Proof.
  induction l1 as [|p l1 IH]; cbn [app].
  - split; [intros H; split; [constructor|split; [done|constructor]]|tauto].
  - split.
    + intros H. inversion H as [|? ? Hp H1]; subst. apply IH in H1 as (H1 & H2 & H3).
      apply Forall_app in Hp as [Hp Hp']. split; [by constructor|]. split; [done|by constructor].
    + intros (H1 & H2 & H3). inversion H1; subst. apply Forall_cons_1 in H3 as [H3 H3'].
      constructor; [by apply Forall_app|]. apply IH. done.
Qed.

Lemma apart_perm inc l l' : Permutation l l' -> ForallOrdPairs (apart inc) l -> ForallOrdPairs (apart inc) l'.
Proof.
  induction 1 as [|x l l' HP IH|x y l|l1 l2 l3 _ IH1 _ IH2]; intros H; [done| | |tauto].
  - inversion H as [|? ? Hx Hl]; subst. constructor; [|by apply IH]. by rewrite <- HP.
  - inversion H as [|? ? Hy Hl]; subst. inversion Hl as [|? ? Hx Hl']; subst. apply Forall_cons_1 in Hy as [Hyx Hy].
    constructor; [constructor; [unfold apart in *; tauto|done]|]. by constructor.
Qed.

Lemma fill_block_grown n cb i s fl :
  let l := block_cells n s.(ca).(createsize) s.(ca).(increment) cb i in
  chain s.(next) s.(ca).(free_head) fl -> base.NoDup (fl ++ l) -> (fl = [] \/ s.(ca).(free_tail) = last_of fl) ->
  Forall (fun p => p <> 0) l ->
  exists s', fill_block n cb i s = Some s' /\ grown s s' fl l.
Proof.
  revert i s fl. induction n as [|n IH]; intros i s fl; cbn [block_cells fill_block]; intros Hc Hnd Ht H0.
  { exists s. split; [done|]. by apply grown_nil. }
  destruct (i <=? _); [|exists s; split; [done|by apply grown_nil]].
  apply Forall_cons_1 in H0 as [Hch H0]. apply list.NoDup_app in Hnd as (Hfl & Hx & Hl).
  apply list.NoDup_cons in Hl as [Hni Hl].
  destruct (link_tail_grown (cb + i) s fl Hc Hfl Ht Hch) as (s1 & E1 & G1).
  { intros Hin. apply (Hx _ Hin). apply list_elem_of_here. }
  rewrite E1. cbn [mbind option_bind].
  pose proof (gr_ca _ _ _ _ G1) as Hca.
  assert (increment (ca s1) = increment (ca s) /\ createsize (ca s1) = createsize (ca s)) as [Hi Hs] by (rewrite Hca; done).
  destruct (IH (i + increment (ca s)) s1 (fl ++ [cb + i])) as (s2 & E2 & G2).
  - apply G1.
  - rewrite Hi, Hs, <- app_assoc. apply list.NoDup_app. split; [done|]. split; [done|]. by constructor.
  - right. rewrite (gr_tail _ _ _ _ G1), last_snoc. done.
  - by rewrite Hi, Hs.
  - exists s2. split; [done|]. rewrite Hi, Hs in G2. exact (grown_trans _ _ _ _ [cb + i] _ G1 G2).
Qed.

(** * The invariant *)

(** What [cellinit] fixes. *)
Record config_ok (a : cellarena_t) : Prop := {
  cf_align : 0 < a.(alignment);
  cf_size : 0 < a.(cellsize) <= a.(increment);
  cf_inc : (a.(alignment) | a.(increment));
  cf_create : 0 <= a.(createsize);
  cf_lifo : a.(lifo_policy) = true -> a.(minfree) <= 1
}.

(** The fields no operation changes. *)
Definition config (a : cellarena_t) : Z * Z * Z * bool * Z * Z :=
  (a.(cellsize), a.(alignment), a.(increment), a.(lifo_policy), a.(minfree), a.(createsize)).

(** What [mmap] promises for mappings of a size: an address that is not null and is
    aligned, and mappings that do not overlap. *)
Record mmap_ok (mmap : nat -> option Z) (size align : Z) : Prop := {
  mm_pos : forall i b, mmap i = Some b -> 0 < b;
  mm_aligned : forall i b, mmap i = Some b -> (align | b);
  mm_apart : forall i j b c, i <> j -> mmap i = Some b -> mmap j = Some c -> b + size <= c \/ c + size <= b
}.

Section Invariant.
Variable mmap : nat -> option Z.

(** A cell is aligned and lies in one of the blocks. *)
Definition in_block (align inc size : Z) (blocks : list Z) (p : Z) : Prop :=
  (align | p) /\ exists b, b ∈ blocks /\ b <= p /\ p + inc <= b + size.

Lemma in_block_more align inc size blocks cb l :
  Forall (in_block align inc size blocks) l -> Forall (in_block align inc size (blocks ++ [cb])) l.
Proof.
  intros Hl. eapply Forall_impl; [exact Hl|]. intros p (Ha & b & Hb & Hle). split; [done|].
  exists b. split; [by apply elem_of_app; left|done].
Qed.

(** The free cells in the order of the list, and the cells in use. *)
Record arena_inv (s : cells) (fl live : list Z) : Prop := {
  ai_config : config_ok s.(ca);
  ai_mmap : mmap_ok mmap s.(ca).(createsize) s.(ca).(alignment);
  ai_chain : chain s.(next) s.(ca).(free_head) fl;
  ai_tail : s.(ca).(free_tail) = last_of fl \/ s.(ca).(lifo_policy) = true /\ s.(ca).(free_tail) = 0;
  ai_count : s.(ca).(freecount) = zlen fl;
  ai_apart : ForallOrdPairs (apart s.(ca).(increment)) (fl ++ live);
  ai_in : Forall (in_block s.(ca).(alignment) s.(ca).(increment) s.(ca).(createsize) s.(ca).(cellblocks)) (fl ++ live);
  ai_mem : Forall (fun p => is_Some (s.(next) !! p)) (fl ++ live);
  ai_blocks : Forall (fun b => exists i, (i < s.(calls))%nat /\ mmap i = Some b) s.(ca).(cellblocks);
  ai_max : zlen s.(ca).(cellblocks) <= CELLBLOCKS_MAX;
  ai_total : zlen fl + zlen live = s.(ca).(createsize) / s.(ca).(increment) * zlen s.(ca).(cellblocks)
}.

Lemma inv_inc s fl live : arena_inv s fl live -> 0 < s.(ca).(increment).
Proof. intros H. pose proof (cf_size _ (ai_config _ _ _ H)). lia. Qed.

Lemma inv_NoDup s fl live : arena_inv s fl live -> base.NoDup (fl ++ live).
Proof. intros H. eapply apart_NoDup; [by eapply inv_inc|apply H]. Qed.

Lemma inv_pos s fl live p : arena_inv s fl live -> p ∈ fl ++ live -> 0 < p.
Proof.
  intros H Hp. pose proof (ai_in _ _ _ H) as Hin. rewrite list.Forall_forall in Hin.
  destruct (Hin _ Hp) as (_ & b & Hb & Hle & _). pose proof (ai_blocks _ _ _ H) as Hbl.
  rewrite list.Forall_forall in Hbl. destruct (Hbl _ Hb) as (i & _ & Hi).
  pose proof (mm_pos _ _ _ (ai_mmap _ _ _ H) i b Hi). lia.
Qed.

Lemma inv_full s fl live : arena_inv s fl live -> s.(ca).(free_head) = 0 <-> fl = [].
Proof. intros H. eapply chain_head, H. Qed.

(** The cells of a new block are clear of all others. *)
Lemma new_cells_apart s fl live cb :
  arena_inv s fl live -> mmap s.(calls) = Some cb ->
  let l := block_cells (Z.to_nat s.(ca).(createsize) + 1) s.(ca).(createsize) s.(ca).(increment) cb 0 in
  ForallOrdPairs (apart s.(ca).(increment)) ((fl ++ l) ++ live) /\ Forall (fun p => p <> 0) l.
Proof.
  intros H Hm l. pose proof (inv_inc _ _ _ H) as Hinc. pose proof (mm_pos _ _ _ (ai_mmap _ _ _ H) _ _ Hm) as Hcb.
  assert (forall p, p ∈ l -> cb <= p /\ p + increment (ca s) <= cb + createsize (ca s)) as Hl.
  { intros p Hp. apply block_cells_range in Hp; lia. }
  split.
  - apply (apart_perm _ ((fl ++ live) ++ l)).
    { rewrite <- !app_assoc. apply Permutation_app_head, Permutation_app_comm. }
    apply apart_app. split; [apply H|]. split; [by apply block_cells_apart|].
    apply list.Forall_forall. intros p Hp. apply list.Forall_forall. intros q Hq. apply Hl in Hq.
    pose proof (ai_in _ _ _ H) as Hin. rewrite list.Forall_forall in Hin.
    destruct (Hin _ Hp) as (_ & b & Hb & Hle & Hge). pose proof (ai_blocks _ _ _ H) as Hbl.
    rewrite list.Forall_forall in Hbl. destruct (Hbl _ Hb) as (i & Hi & Hib).
    destruct (mm_apart _ _ _ (ai_mmap _ _ _ H) i (calls s) b cb) as [?|?]; [lia|done|done| |]; unfold apart; lia.
  - apply list.Forall_forall. intros p Hp. apply Hl in Hp. lia.
Qed.

(** The memory of cells in use is not touched, nor is the configuration. *)
Definition keeps (live : list Z) (s s' : cells) : Prop :=
  config s'.(ca) = config s.(ca) /\ (forall x, x ∈ live -> s'.(next) !! x = s.(next) !! x).

Lemma keeps_trans live s1 s2 s3 : keeps live s1 s2 -> keeps live s2 s3 -> keeps live s1 s3.
Proof. intros [C1 F1] [C2 F2]. split; [congruence|]. intros x Hx. rewrite F2, F1; done. Qed.

Lemma keeps_weaken live live' s s' : live ⊆ live' -> keeps live' s s' -> keeps live s s'.
Proof. intros Hl [C F]. split; [done|]. intros x Hx. apply F. by apply Hl. Qed.

Lemma config_ok_eq a a' : config a' = config a -> config_ok a -> config_ok a'.
Proof. unfold config. intros E [H1 H2 H3 H4 H5]. injection E as E1 E2 E3 E4 E5 E6. split; rewrite ?E1, ?E2, ?E3, ?E4, ?E5, ?E6; done. Qed.

(** There is no memory for another block. *)
Definition exhausted (s : cells) : Prop :=
  zlen s.(ca).(cellblocks) >= CELLBLOCKS_MAX \/ exists i, s.(calls) = S i /\ mmap i = None.

Lemma block_added s fl live cb s' :
  let l := block_cells (Z.to_nat s.(ca).(createsize) + 1) s.(ca).(createsize) s.(ca).(increment) cb 0 in
  arena_inv s fl live -> zlen s.(ca).(cellblocks) < CELLBLOCKS_MAX -> mmap s.(calls) = Some cb ->
  (fl = [] \/ s.(ca).(free_tail) = last_of fl) ->
  grown (mk_cells (add_block cb s.(ca)) s.(next) (S s.(calls))) s' fl l ->
  arena_inv s' (fl ++ l) live /\ keeps live s s' /\ zlen s'.(ca).(cellblocks) = zlen s.(ca).(cellblocks) + 1.
Proof.
  intros l H Hmax Hm Ht G. destruct (new_cells_apart _ _ _ _ H Hm) as [Hap H0]. fold l in Hap, H0.
  pose proof (gr_ca _ _ _ _ G) as Hca. pose proof (gr_tail _ _ _ _ G) as Htail. pose proof (gr_frame _ _ _ _ G) as Hfr.
  pose proof (gr_calls _ _ _ _ G) as Hcalls. cbn in Hca, Htail, Hfr, Hcalls.
  pose proof (inv_inc _ _ _ H) as Hinc. pose proof (ai_config _ _ _ H) as Hcf.
  assert (config (ca s') = config (ca s)) as Hc by (rewrite Hca; done).
  assert (cellblocks (ca s') = cellblocks (ca s) ++ [cb]) as Hb by (rewrite Hca; done).
  pose proof Hc as Hc'. unfold config in Hc'. injection Hc' as E1 E2 E3 E4 E5 E6.
  pose proof (apart_NoDup _ _ Hinc Hap) as Hnd.
  split; [split|split; [split; [done|]|rewrite Hb, zlen_app; done]].
  - by eapply config_ok_eq.
  - rewrite E6, E2. apply H.
  - apply G.
  - left. rewrite Htail. case_bool_decide as E.
    + rewrite E, app_nil_r. cbn. destruct Ht as [->|Ht]; [|done]. destruct (ai_tail _ _ _ H) as [Ht|[_ Ht]]; rewrite Ht; done.
    + by rewrite last_of_app.
  - rewrite Hca. cbn. rewrite (ai_count _ _ _ H), zlen_app. done.
  - by rewrite E3.
  - rewrite E2, E3, E6, Hb. pose proof (ai_in _ _ _ H) as Hin. apply Forall_app in Hin as [Hin1 Hin2].
    apply Forall_app. split; [apply Forall_app; split; [by apply in_block_more|]|by apply in_block_more].
    apply list.Forall_forall. intros p Hp. split.
    + eapply block_cells_aligned; [|exact (cf_inc _ Hcf)|exact Hp]. rewrite Z.add_0_r. by eapply mm_aligned; [apply H|].
    + exists cb. apply block_cells_range in Hp; [|done|lia]. split; [apply elem_of_app; right; apply list_elem_of_here|lia].
  - apply Forall_app. pose proof (ai_mem _ _ _ H) as Hmem. apply Forall_app in Hmem as [Hm1 Hm2]. split.
    + apply list.Forall_forall. intros p Hp. by eapply chain_mem; [apply G|].
    + apply list.Forall_forall. intros p Hp. rewrite list.Forall_forall in Hm2. apply list.NoDup_app in Hnd as (_ & Hd & _).
      rewrite Hfr; [by apply Hm2| |]; intros Hin; apply (Hd p); rewrite ?elem_of_app; tauto.
  - rewrite Hb, Hcalls. apply Forall_app. split.
    + eapply Forall_impl; [apply (ai_blocks _ _ _ H)|]. cbn. intros b (i & Hi & Hib). exists i. split; [lia|done].
    + constructor; [|constructor]. exists (calls s). split; [lia|done].
  - rewrite Hb, zlen_app. change (zlen [cb]) with 1. lia.
  - rewrite Hb, E3, E6, !zlen_app. change (zlen [cb]) with 1. unfold l. pose proof (cf_create _ Hcf).
    rewrite block_cells_count by lia. rewrite Z.sub_0_r. pose proof (ai_total _ _ _ H).
    assert (0 <= createsize (ca s) / increment (ca s)) by (apply Z.div_pos; lia). lia.
  - intros x Hx. apply list.NoDup_app in Hnd as (_ & Hd & _). apply Hfr; intros Hin; apply (Hd x); rewrite ?elem_of_app; tauto.
Qed.

Lemma inv_called s fl live : arena_inv s fl live -> arena_inv (mk_cells s.(ca) s.(next) (S s.(calls))) fl live.
Proof.
  intros H. split; try apply H. eapply Forall_impl; [apply (ai_blocks _ _ _ H)|]. cbn. intros b (i & Hi & Hb).
  exists i. split; [lia|done].
Qed.

Lemma new_cellblock_spec s fl live :
  arena_inv s fl live -> starved s.(ca) = true ->
  exists s' rc new, new_cellblock mmap s = Some (s', rc) /\ arena_inv s' (fl ++ new) live /\ keeps live s s' /\
    (rc = 0 /\ zlen s'.(ca).(cellblocks) = zlen s.(ca).(cellblocks) + 1 \/ rc = -1 /\ new = [] /\ exhausted s').
Proof.
  intros H Hst. unfold new_cellblock. destruct (Z.geb_spec (zlen (cellblocks (ca s))) CELLBLOCKS_MAX) as [Hge|Hlt].
  { exists s, (-1), []. rewrite app_nil_r. split; [done|]. split; [done|]. split; [done|]. right.
    split; [done|]. split; [done|]. left. lia. }
  destruct (mmap (calls s)) as [cb|] eqn:Hm.
  2:{ eexists _, (-1), []. split; [reflexivity|]. rewrite app_nil_r. split; [by apply inv_called|]. split; [done|]. right.
      split; [done|]. split; [done|]. right. by exists (calls s). }
  assert (fl = [] \/ free_tail (ca s) = last_of fl) as Ht.
  { destruct (ai_tail _ _ _ H) as [Ht|[Hl _]]; [by right|]. left. pose proof (cf_lifo _ (ai_config _ _ _ H) Hl) as Hmf.
    unfold starved in Hst. apply orb_true_iff in Hst as [E%Z.eqb_eq|E%Z.ltb_lt]; [by eapply inv_full|].
    rewrite (ai_count _ _ _ H) in E. destruct fl; [done|]. rewrite zlen_cons in E. pose proof (zlen_nonneg fl). lia. }
  destruct (new_cells_apart _ _ _ _ H Hm) as [Hap H0].
  destruct (fill_block_grown (Z.to_nat (createsize (ca s)) + 1) cb 0 (mk_cells (add_block cb (ca s)) (next s) (S (calls s))) fl)
    as (s' & E & G); cbn.
  - apply H.
  - apply (apart_NoDup _ _ (inv_inc _ _ _ H)) in Hap. by apply list.NoDup_app in Hap as [Hap _].
  - done.
  - done.
  - cbn in E, G. rewrite E. cbn [mbind option_bind].
    destruct (block_added _ _ _ _ _ H ltac:(lia) Hm Ht G) as (Hi & Hk & Hz). eexists _, 0, _. split; [reflexivity|].
    split; [exact Hi|]. split; [done|]. by left.
Qed.

Lemma grow_spec n s fl live :
  arena_inv s fl live ->
  exists s' ok new, grow mmap n s = Some (s', ok) /\ arena_inv s' (fl ++ new) live /\ keeps live s s' /\
    (if ok : bool then starved s'.(ca) = false
     else CELLBLOCKS_MAX < Z.of_nat n + zlen s.(ca).(cellblocks) -> exhausted s').
Proof.
  revert s fl. induction n as [|n IH]; intros s fl H; cbn [grow].
  { exists s, false, []. rewrite app_nil_r. split; [done|]. split; [done|]. split; [done|].
    pose proof (ai_max _ _ _ H). lia. }
  destruct (starved (ca s)) eqn:Hst.
  2:{ exists s, true, []. rewrite app_nil_r. done. }
  destruct (new_cellblock_spec s fl live H Hst) as (s1 & rc & new & E & H1 & K1 & Hrc). rewrite E. cbn [mbind option_bind].
  destruct Hrc as [[-> Hz]|(-> & -> & Hex)]; cbn [Z.eqb].
  - destruct (IH s1 (fl ++ new) H1) as (s2 & ok & new2 & E2 & H2 & K2 & Hok). exists s2, ok, (new ++ new2).
    rewrite E2, app_assoc. split; [done|]. split; [done|]. split; [by eapply keeps_trans|].
    destruct ok; [done|]. intros Hm. apply Hok. lia.
  - exists s1, false, []. done.
Qed.

Lemma grow_fuel_enough s fl live : arena_inv s fl live -> CELLBLOCKS_MAX < Z.of_nat grow_fuel + zlen s.(ca).(cellblocks).
Proof. intros _. unfold grow_fuel. pose proof (zlen_nonneg (cellblocks (ca s))). unfold CELLBLOCKS_MAX. lia. Qed.

(** Cells that change hands. *)
Lemma inv_moved s s' fl live fl' live' :
  arena_inv s fl live -> Permutation (fl ++ live) (fl' ++ live') ->
  config s'.(ca) = config s.(ca) -> s'.(ca).(cellblocks) = s.(ca).(cellblocks) -> s'.(calls) = s.(calls) ->
  chain s'.(next) s'.(ca).(free_head) fl' ->
  (s'.(ca).(free_tail) = last_of fl' \/ s.(ca).(lifo_policy) = true /\ s'.(ca).(free_tail) = 0) ->
  s'.(ca).(freecount) = zlen fl' -> (forall x, is_Some (s.(next) !! x) -> is_Some (s'.(next) !! x)) ->
  arena_inv s' fl' live'.
Proof.
  intros H HP Hc Hb Hk Hch Ht Hn Hm. pose proof Hc as Hc'. unfold config in Hc'. injection Hc' as E1 E2 E3 E4 E5 E6. split.
  - eapply config_ok_eq; [done|apply H].
  - rewrite E6, E2. apply H.
  - done.
  - by rewrite E4.
  - done.
  - rewrite E3. eapply apart_perm; [done|apply H].
  - rewrite E2, E3, E6, Hb, <- HP. apply H.
  - rewrite <- HP. eapply Forall_impl; [apply (ai_mem _ _ _ H)|]. cbn. intros p Hp. by apply Hm.
  - rewrite Hb, Hk. apply H.
  - rewrite Hb. apply H.
  - rewrite E3, E6, Hb, <- (ai_total _ _ _ H). apply Permutation_length in HP. rewrite !length_app in HP. unfold zlen. lia.
Qed.

Lemma is_Some_insert (h : gmap Z Z) k v x : is_Some (h !! x) -> is_Some (<[k := v]> h !! x).
Proof. intros Hx. destruct (decide (k = x)) as [->|E]; [by rewrite lookup_insert_eq|by rewrite lookup_insert_ne]. Qed.

Lemma take_head_spec s p fl live :
  arena_inv s (p :: fl) live ->
  exists s', take_head s = Some (s', p) /\ arena_inv s' fl (p :: live) /\ keeps live s s'.
Proof.
  intros H. destruct (ai_chain _ _ _ H) as (Hp & Hp0 & n & Hn & Hc). pose proof (inv_NoDup _ _ _ H) as Hnd.
  cbn [app] in Hnd. apply list.NoDup_cons in Hnd as [Hni _]. unfold take_head. rewrite Hp, Hn. cbn [mbind option_bind].
  eexists. split; [reflexivity|]. split; [|split; [done|]].
  - apply (inv_moved s _ (p :: fl) live); cbn; try done.
    + apply Permutation_middle.
    + eapply chain_frame; [|exact Hc]. intros x Hx. rewrite lookup_insert_ne; [done|]. intros ->. apply Hni. by apply elem_of_app; left.
    + pose proof (chain_head _ _ _ Hc) as Hh. destruct (Z.eqb_spec n 0) as [E|E].
      * left. by rewrite (proj1 Hh E).
      * destruct (ai_tail _ _ _ H) as [Ht|Ht]; [left|by right]. rewrite Ht.
        assert (fl <> []) as Hf by (intros Hf; apply E; by apply Hh). exact (last_of_app [p] fl Hf).
    + rewrite (ai_count _ _ _ H), zlen_cons. lia.
    + intros x. apply is_Some_insert.
  - intros x Hx. cbn. rewrite lookup_insert_ne; [done|]. intros ->. apply Hni. by apply elem_of_app; right.
Qed.

Lemma set_next_ok h p v : is_Some (h !! p) -> set_next p v h = Some (<[p := v]> h).
Proof. intros [x Hx]. unfold set_next. by rewrite Hx. Qed.

(** What is known of a cell in use. *)
Lemma inv_live s fl p live :
  arena_inv s fl (p :: live) ->
  0 < p /\ p ∉ fl /\ p ∉ live /\ base.NoDup fl /\ is_Some (s.(next) !! p) /\ (forall x, x ∈ live -> x ∉ fl).
Proof.
  intros H. pose proof (inv_NoDup _ _ _ H) as Hnd. apply list.NoDup_app in Hnd as (Hfl & Hd & Hl).
  apply list.NoDup_cons in Hl as [Hpl _]. split.
  { eapply inv_pos; [exact H|]. apply elem_of_app. right. apply list_elem_of_here. }
  split; [intros Hin; apply (Hd p Hin), list_elem_of_here|]. split; [done|]. split; [done|]. split.
  - pose proof (ai_mem _ _ _ H) as Hm. rewrite list.Forall_forall in Hm. apply Hm, elem_of_app. right. apply list_elem_of_here.
  - intros x Hx Hin. apply (Hd x Hin). by apply list_elem_of_further.
Qed.

Lemma cellfree_lifo s p fl live :
  s.(ca).(lifo_policy) = true -> arena_inv s fl (p :: live) ->
  exists s', cellfree p s = Some s' /\ keeps live s s' /\ arena_inv s' (p :: fl) live.
Proof.
  intros Hlifo H. destruct (inv_live _ _ _ _ H) as (Hp & Hpf & Hpl & Hfl & Hm & Hd).
  unfold cellfree. rewrite Hlifo, set_next_ok by done. cbn [mbind option_bind].
  rewrite set_next_ok by by apply is_Some_insert. cbn [mbind option_bind]. eexists. split; [reflexivity|].
  split; [split; [done|]; intros x Hx; cbn; rewrite !lookup_insert_ne; [done|congruence..]|].
  apply (inv_moved s _ fl (p :: live)); cbn; try done.
  - symmetry. apply Permutation_middle.
  - split; [done|]. split; [lia|]. exists (free_head (ca s)). rewrite lookup_insert_eq. split; [done|].
    eapply chain_frame; [|apply H]. intros x Hx. rewrite !lookup_insert_ne; [done|congruence..].
  - destruct (decide (fl = [])) as [->|E].
    + right. split; [done|]. destruct (ai_tail _ _ _ H) as [Ht|[_ Ht]]; rewrite Ht; done.
    + destruct (ai_tail _ _ _ H) as [Ht|[_ Ht]]; [left|by right]. rewrite Ht. symmetry. exact (last_of_app [p] fl E).
  - rewrite (ai_count _ _ _ H), zlen_cons. lia.
  - intros x Hx. by apply is_Some_insert, is_Some_insert.
Qed.

Lemma cellfree_fifo_empty s p live :
  s.(ca).(lifo_policy) = false -> arena_inv s [] (p :: live) ->
  exists s', cellfree p s = Some s' /\ keeps live s s' /\ arena_inv s' [p] live.
Proof.
  intros Hlifo H. destruct (inv_live _ _ _ _ H) as (Hp & Hpf & Hpl & Hfl & Hm & Hd).
  assert (free_tail (ca s) = 0) as Ht by (destruct (ai_tail _ _ _ H) as [Ht|[E _]]; [done|congruence]).
  unfold cellfree. rewrite Hlifo, set_next_ok, Ht by done. cbn [mbind option_bind Z.eqb].
  rewrite set_next_ok by by apply is_Some_insert. cbn [mbind option_bind].
  rewrite (proj2 (inv_full _ _ _ H) eq_refl). cbn [Z.eqb]. eexists. split; [reflexivity|].
  split; [split; [done|]; intros x Hx; cbn; rewrite !lookup_insert_ne; [done|congruence..]|].
  apply (inv_moved s _ [] (p :: live)); cbn; try done.
  - split; [done|]. split; [lia|]. exists 0. by rewrite lookup_insert_eq.
  - by left.
  - by rewrite (ai_count _ _ _ H).
  - intros x Hx. by apply is_Some_insert, is_Some_insert.
Qed.

Lemma cellfree_fifo_last s p l t live :
  s.(ca).(lifo_policy) = false -> arena_inv s (l ++ [t]) (p :: live) ->
  exists s', cellfree p s = Some s' /\ keeps live s s' /\ arena_inv s' ((l ++ [t]) ++ [p]) live.
Proof.
  intros Hlifo H. destruct (inv_live _ _ _ _ H) as (Hp & Hpf & Hpl & Hfl & Hm & Hd).
  assert (t ∈ l ++ [t]) as Htin by (apply elem_of_app; right; apply list_elem_of_here).
  assert (free_tail (ca s) = t) as Ht.
  { destruct (ai_tail _ _ _ H) as [Ht|[E _]]; [|congruence]. by rewrite last_snoc in Ht. }
  assert (0 < t) as Htp by (eapply inv_pos; [exact H|]; apply elem_of_app; by left).
  assert (t <> p) as Htpne by congruence.
  assert (is_Some (next s !! t)) as Hmt by (eapply chain_mem; [apply H|done]).
  unfold cellfree. rewrite Hlifo, set_next_ok, Ht by done. cbn [mbind option_bind]. destruct (Z.eqb_spec t 0); [lia|].
  rewrite set_next_ok by by apply is_Some_insert. cbn [mbind option_bind].
  rewrite set_next_ok by by apply is_Some_insert, is_Some_insert. cbn [mbind option_bind].
  destruct (Z.eqb_spec (free_head (ca s)) 0) as [E|_]; [apply (inv_full _ _ _ H) in E; by destruct l|].
  eexists. split; [reflexivity|]. split.
  { split; [done|]. intros x Hx. cbn. rewrite !lookup_insert_ne; [done|congruence| |congruence]. intros ->. by apply (Hd x). }
  apply (inv_moved s _ (l ++ [t]) (p :: live)); cbn; try done.
  - by rewrite <- (app_assoc _ [p]).
  - apply (chain_frame (<[p := 0]> (<[t := p]> (next s)))); [|apply chain_snoc; try done; [apply H|lia]].
    intros x Hx. destruct (decide (x = p)) as [->|Exp]; [by rewrite !lookup_insert_eq|].
    rewrite !(lookup_insert_ne _ p x) by done. destruct (decide (x = t)) as [->|Ext]; [by rewrite !lookup_insert_eq|].
    by rewrite !lookup_insert_ne by done.
  - left. by rewrite last_snoc.
  - rewrite (ai_count _ _ _ H), !zlen_app. done.
  - intros x Hx. by apply is_Some_insert, is_Some_insert, is_Some_insert.
Qed.

Lemma cellfree_spec s p fl live :
  arena_inv s fl (p :: live) ->
  exists s', cellfree p s = Some s' /\ keeps live s s' /\
    arena_inv s' (if s.(ca).(lifo_policy) then p :: fl else fl ++ [p]) live.
Proof.
  intros H. destruct (lifo_policy (ca s)) eqn:Hl; [by apply cellfree_lifo|].
  destruct fl as [|t l _] using rev_ind; [by apply cellfree_fifo_empty|by apply cellfree_fifo_last].
Qed.

Lemma cellmalloc_spec s fl live :
  arena_inv s fl live ->
  exists s' p new, cellmalloc mmap s = Some (s', p) /\ keeps live s s' /\
    ((exists fl', fl ++ new = p :: fl' /\ arena_inv s' fl' (p :: live)) \/
     p = 0 /\ arena_inv s' (fl ++ new) live /\ exhausted s').
Proof.
  intros H. destruct (grow_spec grow_fuel s fl live H) as (s1 & ok & new & E & H1 & K & Hok).
  unfold cellmalloc. rewrite E. cbn [mbind option_bind]. destruct ok.
  - destruct (fl ++ new) as [|p fl'] eqn:Efl.
    { unfold starved in Hok. rewrite (proj2 (inv_full _ _ _ H1) eq_refl) in Hok. done. }
    destruct (take_head_spec _ _ _ _ H1) as (s2 & E2 & H2 & K2). exists s2, p, new. split; [done|].
    split; [by eapply keeps_trans|]. left. by exists fl'.
  - exists s1, 0, new. split; [done|]. split; [done|]. right. split; [done|]. split; [done|].
    apply Hok. by eapply grow_fuel_enough.
Qed.

Lemma inv_perm s fl live live' : Permutation live live' -> arena_inv s fl live -> arena_inv s fl live'.
Proof. intros HP H. apply (inv_moved s s fl live); try done; try apply H. by apply Permutation_app_head. Qed.

Lemma cellmallocmany_spec n s fl live :
  arena_inv s fl live ->
  exists s' l new fl', cellmallocmany mmap n s = Some (s', l) /\ keeps live s s' /\
    fl ++ new = l ++ fl' /\ arena_inv s' fl' (l ++ live) /\ (length l <= n)%nat /\ ((length l < n)%nat -> fl' = [] /\ exhausted s').
Proof.
  revert s fl live. induction n as [|n IH]; intros s fl live H; cbn [cellmallocmany].
  { exists s, [], [], fl. rewrite app_nil_r. split; [done|]. split; [done|]. split; [done|]. split; [done|]. split; [done|cbn; lia]. }
  destruct (grow_spec grow_fuel s fl live H) as (s1 & ok & new & E & H1 & K & Hok). rewrite E. cbn [mbind option_bind].
  pose proof (inv_full _ _ _ H1) as Hh. destruct (Z.eqb_spec (free_head (ca s1)) 0) as [E0|E0].
  - exists s1, [], new, []. apply Hh in E0. rewrite E0 in H1 |- *. split; [done|]. split; [done|]. split; [done|].
    split; [done|]. split; [cbn; lia|]. intros _. split; [done|]. destruct ok; [|apply Hok; by eapply grow_fuel_enough].
    unfold starved in Hok. by rewrite (proj2 Hh E0) in Hok.
  - destruct (fl ++ new) as [|p fl1] eqn:Efl; [by destruct E0; apply Hh|].
    destruct (take_head_spec _ _ _ _ H1) as (s2 & E2 & H2 & K2). rewrite E2. cbn [mbind option_bind].
    destruct (IH s2 fl1 (p :: live) H2) as (s3 & l & new2 & fl' & E3 & K3 & Efl' & H3 & Hlen & Hex). rewrite E3. cbn [mbind option_bind].
    exists s3, (p :: l), (new ++ new2), fl'. split; [done|]. split.
    { eapply keeps_trans; [done|]. eapply keeps_trans; [done|]. eapply keeps_weaken; [|done]. intros x. apply list_elem_of_further. }
    split; [rewrite app_assoc, Efl; cbn [app]; by rewrite Efl'|]. split; [|cbn; split; [lia|intros Hl; apply Hex; lia]].
    eapply inv_perm; [|exact H3]. symmetry. apply Permutation_middle.
Qed.

Lemma cellfreemany_spec ps s fl live :
  arena_inv s fl (ps ++ live) ->
  exists s', cellfreemany ps s = Some s' /\ keeps live s s' /\
    arena_inv s' (if s.(ca).(lifo_policy) then rev ps ++ fl else fl ++ ps) live.
Proof.
  revert s fl. induction ps as [|p ps IH]; intros s fl H; cbn [cellfreemany app].
  { exists s. rewrite app_nil_r. cbn. split; [done|]. split; [done|]. by destruct (lifo_policy (ca s)). }
  destruct (cellfree_spec _ _ _ _ H) as (s1 & E1 & K1 & H1). rewrite E1. cbn [mbind option_bind].
  destruct (IH _ _ H1) as (s2 & E2 & K2 & H2). exists s2. split; [done|].
  split; [eapply keeps_trans; [|done]; eapply keeps_weaken; [|done]; intros x Hx; by apply elem_of_app; right|].
  assert (lifo_policy (ca s1) = lifo_policy (ca s)) as Hl by (destruct K1 as [K1 _]; unfold config in K1; congruence).
  rewrite Hl in H2. destruct (lifo_policy (ca s)); [|by rewrite <- app_assoc in H2]. cbn [rev]. by rewrite <- app_assoc.
Qed.
End Invariant.

(** * Arenas and their users *)

(** What a user of an arena does: take and give back cells, and write to cells that
    are in use. *)
Inductive cell_op : Set :=
  | Malloc
  | MallocMany (numcells : nat)
  | Free (p : Z)
  | FreeMany (ps : list Z)
  | Store (p v : Z).

Definition exec (mmap : nat -> option Z) (op : cell_op) (s : cells) : option (cells * list Z) :=
  match op with
  | Malloc => '(s, p) ← cellmalloc mmap s; Some (s, if p =? 0 then [] else [p])
  | MallocMany n => cellmallocmany mmap n s
  | Free p => s ← cellfree p s; Some (s, [])
  | FreeMany ps => s ← cellfreemany ps s; Some (s, [])
  | Store p v => h ← set_next p v s.(next); Some (mk_cells s.(ca) h s.(calls), [])
  end.

(** The cells an operation gives back or writes to are in use. *)
Definition op_cells (op : cell_op) : list Z :=
  match op with Free p | Store p _ => [p] | FreeMany ps => ps | _ => [] end.

Definition op_freed (op : cell_op) : list Z :=
  match op with Free p => [p] | FreeMany ps => ps | _ => [] end.

(** The cells in use after an operation that gave out the cells [out]. *)
Definition in_use (op : cell_op) (live out live' : list Z) : Prop := Permutation (out ++ live) (op_freed op ++ live').

(** A pool: the free cells in the order in which they will be given out; [new] are
    cells of new blocks. *)
Inductive pool_step (lifo : bool) : cell_op -> list Z -> list Z -> list Z -> Prop :=
  | pool_malloc free new p free' : free ++ new = p :: free' -> pool_step lifo Malloc free [p] free'
  | pool_malloc_none free new : pool_step lifo Malloc free [] (free ++ new)
  | pool_many n free new l free' : free ++ new = l ++ free' -> (length l <= n)%nat ->
      pool_step lifo (MallocMany n) free l free'
  | pool_free p free : pool_step lifo (Free p) free [] (if lifo then p :: free else free ++ [p])
  | pool_freemany ps free : pool_step lifo (FreeMany ps) free [] (if lifo then rev ps ++ free else free ++ ps)
  | pool_store p v free : pool_step lifo (Store p v) free [] free.

(** The free list, by its pointers. *)
Fixpoint walk (n : nat) (h : gmap Z Z) (p : Z) : list Z :=
  match n with
  | O => []
  | S n => match h !! p with Some q => p :: walk n h q | None => [] end
  end.

Definition free_cells (s : cells) : list Z := walk (Z.to_nat s.(ca).(freecount)) s.(next) s.(ca).(free_head).

Lemma walk_chain h p l : chain h p l -> walk (length l) h p = l.
Proof. revert p. induction l as [|x l IH]; intros p; [done|]. intros (-> & _ & n & Hn & Hc). cbn. by rewrite Hn, IH. Qed.

Lemma free_cells_inv mmap s fl live : arena_inv mmap s fl live -> free_cells s = fl.
Proof. intros H. unfold free_cells. rewrite (ai_count _ _ _ _ H). unfold zlen. rewrite Nat2Z.id. apply walk_chain, H. Qed.

(** The states of an arena that users who keep to their cells can bring about. *)
Inductive reach (mmap : nat -> option Z) : cells -> list Z -> Prop :=
  | reach_init fuel cellsize alignment lifo createkb minfree s :
      0 < cellsize -> 0 < alignment -> 0 <= createkb -> (lifo = true -> minfree <= 1) ->
      mmap_ok mmap (createkb * 1024) alignment ->
      cellinit mmap fuel cellsize alignment lifo createkb minfree = Some s ->
      reach mmap s []
  | reach_step s live op s' out live' :
      reach mmap s live -> op_cells op ⊆+ live -> exec mmap op s = Some (s', out) ->
      in_use op live out live' -> reach mmap s' live'.

Lemma exec_spec mmap op s fl live :
  arena_inv mmap s fl live -> op_cells op ⊆+ live ->
  exists s' out fl', exec mmap op s = Some (s', out) /\ pool_step s.(ca).(lifo_policy) op fl out fl' /\
    (forall x, x ∈ live -> x ∉ op_cells op -> s'.(next) !! x = s.(next) !! x) /\
    (forall live', in_use op live out live' -> arena_inv mmap s' fl' live') /\
    base.NoDup (out ++ live) /\ (op = Malloc -> out = [] -> exhausted mmap s').
Proof.
  intros H Hop. destruct op as [|n|p|ps|p v]; cbn [exec op_cells] in *.
  - destruct (cellmalloc_spec mmap s fl live H) as (s' & p & new & E & [_ K] & Hp). rewrite E. cbn [mbind option_bind].
    destruct Hp as [(fl' & Ef & H')|(-> & H' & Hex)].
    + destruct (Z.eqb_spec p 0) as [E0|_]; [pose proof (inv_pos mmap _ _ _ p H') as Hpos; rewrite elem_of_app in Hpos;
        specialize (Hpos (or_intror (list_elem_of_here _ _))); lia|].
      exists s', [p], fl'. split; [done|]. split; [by eapply pool_malloc|]. split; [intros x Hx _; by apply K|].
      split; [intros live' Hu; by eapply inv_perm|]. split; [|done].
      apply inv_NoDup in H'. by apply list.NoDup_app in H' as (_ & _ & H').
    + exists s', [], (fl ++ new). split; [done|]. split; [constructor|]. split; [intros x Hx _; by apply K|].
      split; [intros live' Hu; by eapply inv_perm|]. split; [|done].
      apply inv_NoDup in H'. by apply list.NoDup_app in H' as (_ & _ & H').
  - destruct (cellmallocmany_spec mmap n s fl live H) as (s' & l & new & fl' & E & [_ K] & Ef & H' & Hn & _).
    exists s', l, fl'. split; [done|]. split; [by eapply pool_many|]. split; [intros x Hx _; by apply K|].
    split; [intros live' Hu; by eapply inv_perm|]. split; [|done].
    apply inv_NoDup in H'. by apply list.NoDup_app in H' as (_ & _ & H').
  - apply submseteq_Permutation in Hop as [k Hk]. apply (inv_perm _ _ _ _ _ Hk) in H as H1.
    destruct (cellfree_spec mmap s p fl k H1) as (s' & E & [_ K] & H'). rewrite E. cbn [mbind option_bind].
    exists s', [], (if lifo_policy (ca s) then p :: fl else fl ++ [p]). split; [done|]. split; [constructor|].
    split; [|split; [|split; [|done]]].
    + intros x Hx Hni. apply K. rewrite Hk in Hx. by apply elem_of_app in Hx as [Hx|Hx].
    + intros live' Hu. unfold in_use in Hu. cbn in Hu. rewrite Hk in Hu. apply Permutation_cons_inv in Hu. by eapply inv_perm.
    + apply inv_NoDup in H. by apply list.NoDup_app in H as (_ & _ & H).
  - apply submseteq_Permutation in Hop as [k Hk]. apply (inv_perm _ _ _ _ _ Hk) in H as H1.
    destruct (cellfreemany_spec mmap ps s fl k H1) as (s' & E & [_ K] & H'). rewrite E. cbn [mbind option_bind].
    exists s', [], (if lifo_policy (ca s) then rev ps ++ fl else fl ++ ps). split; [done|]. split; [constructor|].
    split; [|split; [|split; [|done]]].
    + intros x Hx Hni. apply K. rewrite Hk in Hx. by apply elem_of_app in Hx as [Hx|Hx].
    + intros live' Hu. unfold in_use in Hu. cbn in Hu. rewrite Hk in Hu. apply Permutation_app_inv_l in Hu. by eapply inv_perm.
    + apply inv_NoDup in H. by apply list.NoDup_app in H as (_ & _ & H).
  - assert (p ∈ live) as Hp by (apply (elem_of_submseteq [p] live); [apply list_elem_of_here|done]).
    pose proof (inv_NoDup _ _ _ _ H) as Hnd. apply list.NoDup_app in Hnd as (_ & Hd & Hnd).
    assert (is_Some (next s !! p)) as Hm.
    { pose proof (ai_mem _ _ _ _ H) as Hm. rewrite list.Forall_forall in Hm. apply Hm, elem_of_app. by right. }
    rewrite set_next_ok by done. cbn [mbind option_bind]. eexists _, [], fl. split; [reflexivity|]. split; [constructor|].
    split; [intros x _ Hx; cbn; rewrite lookup_insert_ne; [done|]; intros ->; apply Hx, list_elem_of_here|].
    split; [|done]. intros live' Hu. eapply inv_moved; [exact H|by apply Permutation_app_head|done|done|done| |apply H|apply H|].
    + eapply chain_frame; [|apply H]. intros x Hx. cbn. rewrite lookup_insert_ne; [done|]. intros ->. by apply (Hd x).
    + intros x. apply is_Some_insert.
Qed.

Lemma init_loop_inv mmap n s fl s' :
  arena_inv mmap s fl [] -> init_loop mmap n s = Some s' -> exists fl', arena_inv mmap s' fl' [].
Proof.
  revert s fl. induction n as [|n IH]; intros s fl H; cbn [init_loop]; destruct (freecount (ca s) <? minfree (ca s)) eqn:E;
    intros HE; try discriminate HE; try (injection HE as <-; by exists fl).
  destruct (new_cellblock_spec mmap s fl [] H) as (s1 & rc & new & E1 & H1 & _).
  { unfold starved. rewrite E. apply orb_true_r. }
  rewrite E1 in HE. by eapply IH.
Qed.

Lemma reach_inv mmap s live : reach mmap s live -> exists fl, arena_inv mmap s fl live.
Proof.
  induction 1 as [fuel cs al lifo kb mf s Hcs Hal Hkb Hlifo Hmm E|s live op s' out live' _ [fl IH] Hop E Hu].
  - unfold cellinit in E. eapply (init_loop_inv _ _ _ []); [|exact E].
    assert (0 <= cs mod al < al) as Hmod by (apply Z.mod_pos_bound; lia).
    split; cbn; try done; try (by constructor).
    + split; cbn; try done; try lia; [destruct (Z.eqb_spec (cs mod al) 0); lia|].
      destruct (Z.eqb_spec (cs mod al) 0) as [E0|E0]; [by apply Z.mod_divide; lia|].
      exists (cs / al + 1). pose proof (Z.div_mod cs al). lia.
    + change (zlen (@nil Z)) with 0. by rewrite Z.mul_0_r.
  - destruct (exec_spec mmap op s fl live IH Hop) as (s1 & out1 & fl1 & E1 & _ & _ & H1 & _).
    rewrite E1 in E. injection E as <- <-. exists fl1. by apply H1.
Qed.

(** C23: An arena is a pool, over any history of its users: as long as they give back
    and write to only cells that are in use, every operation returns, without an
    access outside of the cells; free cells are given out in the order of the policy
    of the arena, with new blocks behind them; a cell that is given out is not in
    use, and the memory of cells in use does not change.  Cells in use are aligned,
    lie in the blocks and do not overlap, the status counts them, and there is no
    cell only when all blocks are in use or the system has no memory. *)
Theorem cellmalloc_refines mmap s live :
  reach mmap s live ->
  ForallOrdPairs (apart s.(ca).(cellsize)) live /\
  Forall (in_block s.(ca).(alignment) s.(ca).(cellsize) s.(ca).(createsize) s.(ca).(cellblocks)) live /\
  cellstatus s = (zlen (free_cells s) + zlen live, zlen (free_cells s)) /\
  forall op, op_cells op ⊆+ live ->
    exists s' out, exec mmap op s = Some (s', out) /\
      pool_step s.(ca).(lifo_policy) op (free_cells s) out (free_cells s') /\
      base.NoDup (out ++ live) /\
      (forall x, x ∈ live -> x ∉ op_cells op -> s'.(next) !! x = s.(next) !! x) /\
      (op = Malloc -> out = [] -> exhausted mmap s').
Proof.
  intros [fl H]%reach_inv. pose proof (cf_size _ (ai_config _ _ _ _ H)) as Hs. split; [|split; [|split]].
  - pose proof (ai_apart _ _ _ _ H) as Ha. apply apart_app in Ha as (_ & Ha & _).
    clear - Ha Hs. induction Ha as [|p l Hp _ IH]; constructor; [|done].
    eapply Forall_impl; [exact Hp|]. unfold apart. lia.
  - pose proof (ai_in _ _ _ _ H) as Hin. apply Forall_app in Hin as [_ Hin]. eapply Forall_impl; [exact Hin|].
    cbn. intros p (Ha & b & Hb & Hle & Hge). split; [done|]. exists b. split; [done|lia].
  - unfold cellstatus. rewrite (free_cells_inv _ _ _ _ H), (ai_count _ _ _ _ H), (ai_total _ _ _ _ H). done.
  - intros op Hop. destruct (exec_spec mmap op s fl live H Hop) as (s' & out & fl' & E & Hp & K & Hi & Hnd & Hex).
    exists s', out. split; [done|]. rewrite (free_cells_inv _ _ _ _ H). split; [|done].
    assert (exists live', in_use op live out live') as [live' Hu].
    { unfold in_use. destruct op; cbn in Hop |- *; try (by exists (out ++ live)).
      - apply submseteq_Permutation in Hop as [k Hk]. exists (out ++ k). rewrite Hk. symmetry. apply Permutation_middle.
      - apply submseteq_Permutation in Hop as [k Hk]. exists (out ++ k). rewrite Hk, !app_assoc.
        apply Permutation_app_tail, Permutation_app_comm. }
    by rewrite (free_cells_inv _ _ _ _ (Hi _ Hu)).
Qed.

(** Pages one after the other, as many as are asked for. *)
Definition demo_mmap (n : nat) : option Z := Some (4096 * (Z.of_nat n + 1)).

Lemma demo_mmap_ok : mmap_ok demo_mmap 1024 8.
Proof.
  split; unfold demo_mmap.
  - intros i b E. injection E as <-. lia.
  - intros i b E. injection E as <-. apply Z.divide_mul_l. by exists 512.
  - intros i j b c Hij E1 E2. injection E1 as <-. injection E2 as <-. lia.
Qed.

(** An arena of 300-byte cells, three to a block: a cell is taken and given back. *)
Definition demo_arena : cells := mk_cells (mk_arena 300 8 304 false 0 0 0 0 1024 []) ∅ 0.

Lemma cellmalloc_refines_witness :
  exists s, reach demo_mmap s [4096] /\ cellstatus s = (3, 2) /\
    exists s' out, exec demo_mmap (Free 4096) s = Some (s', out) /\ pool_step false (Free 4096) [4400; 4704] out (free_cells s').
Proof.
  assert (reach demo_mmap demo_arena []) as H0.
  { apply (reach_init demo_mmap 0 300 8 false 1 0); [lia|lia|lia|discriminate|exact demo_mmap_ok|reflexivity]. }
  destruct (exec demo_mmap Malloc demo_arena) as [[s out]|] eqn:E; [|vm_compute in E; discriminate].
  assert (out = [4096]) as -> by (vm_compute in E; injection E as _ <-; reflexivity).
  assert (reach demo_mmap s [4096]) as H1.
  { eapply reach_step; [exact H0| |exact E|]; [apply submseteq_nil_l|unfold in_use; reflexivity]. }
  assert (cellstatus s = (3, 2) /\ free_cells s = [4400; 4704] /\ s.(ca).(lifo_policy) = false) as (Hs & Hf & Hl)
    by (vm_compute in E; injection E as <-; vm_compute; done).
  exists s. split; [exact H1|]. split; [exact Hs|].
  destruct (cellmalloc_refines demo_mmap s [4096] H1) as (_ & _ & _ & H).
  destruct (H (Free 4096)) as (s' & out & E' & Hp & _); [reflexivity|].
  exists s', out. split; [exact E'|]. rewrite Hf, Hl in Hp. exact Hp.
Defined.
