(* ===== verification/Xpoll.v ===== *)
(** * xpoll.c: which sockets are ready

    A worker waits for its sockets with [poll] or, on Linux, with [epoll]; xpoll.c has both behind one interface.  With [poll] there is
    an array of descriptors that has no gaps: a socket that is removed makes the ones behind it move, and every structure has its place in the array.
    With [epoll] the kernel keeps the set, and its events have the address of the structure.

    The structures are kept by their address, which the cell allocator gave; the list of them is in the order of its links.  What the
    kernel says of the sockets is a parameter. *)

From S2P Require Import Prelude.
From Stdlib Require Import ZArith Lia Bool.
From stdpp Require Import base tactics list gmap numbers.
Open Scope Z_scope.

Definition XP_IN : Z := 1.
Definition XP_OUT : Z := 2.
Definition XP_ERR : Z := 4.
Definition XP_INCREMENT : nat := 64.

Definition POLLIN : Z := 1.
Definition POLLPRI : Z := 2.
Definition POLLOUT : Z := 4.
Definition POLLERR : Z := 8.
Definition POLLHUP : Z := 16.
Definition POLLNVAL : Z := 32.

(** [xfd->result] *)
Definition xresult (revents : Z) : Z :=
  Z.lor (if Z.land revents (Z.lor POLLIN POLLPRI) =? 0 then 0 else XP_IN)
    (Z.lor (if Z.land revents POLLOUT =? 0 then 0 else XP_OUT)
       (if Z.land revents (Z.lor POLLERR (Z.lor POLLHUP POLLNVAL)) =? 0 then 0 else XP_ERR)).

(** [events] for a socket with or without output. *)
Definition want (have_outgoing : bool) (events : Z) : Z :=
  if have_outgoing then Z.lor events POLLOUT else Z.land events (Z.lor POLLIN (Z.lor POLLPRI (Z.lor POLLERR (Z.lor POLLHUP POLLNVAL)))).

(** ** What a poller promises *)

(** A socket that is waited for: its descriptor, the client, and whether it has output. *)
Record waiting := mk_waiting { wt_fd : Z; wt_p : Z; wt_out : bool }.

Class Poller (P : Type) := {
  pl_ok : P -> Prop;
  pl_view : P -> gmap Z waiting;
  pl_add : Z -> Z -> Z -> P -> option P;
  pl_remove : Z -> P -> option P;
  pl_outgoing : Z -> bool -> P -> option P
}.

Definition fresh_fd (fd : Z) (m : gmap Z waiting) : Prop := map_Forall (fun _ x => x.(wt_fd) <> fd) m.

Class PollerLaws (P : Type) `{Poller P} : Prop := {
  add_law : forall id fd p s, pl_ok s -> pl_view s !! id = None -> 0 <= fd -> fresh_fd fd (pl_view s) ->
    exists s', pl_add id fd p s = Some s' /\ pl_ok s' /\ pl_view s' = <[id := mk_waiting fd p false]> (pl_view s);
  remove_law : forall id x s, pl_ok s -> pl_view s !! id = Some x ->
    exists s', pl_remove id s = Some s' /\ pl_ok s' /\ pl_view s' = delete id (pl_view s);
  outgoing_law : forall id x out s, pl_ok s -> pl_view s !! id = Some x ->
    exists s', pl_outgoing id out s = Some s' /\ pl_ok s' /\ pl_view s' = <[id := mk_waiting x.(wt_fd) x.(wt_p) out]> (pl_view s)
}.

(** ** poll *)

Record pollfd := mk_pollfd { pf_fd : Z; pf_events : Z; pf_revents : Z }.
Definition no_pollfd : pollfd := mk_pollfd 0 0 0.

Record xpoll_fd_t := mk_xfd { x_fd : Z; x_p : Z; x_pollfd_n : nat }.

Record poll_t := mk_poll { po_fds : list Z; po_store : gmap Z xpoll_fd_t; po_pollfd : list pollfd; po_used : nat }.

Definition poll_initialize : poll_t := mk_poll [] ∅ (replicate XP_INCREMENT no_pollfd) 0.

(** An element of the array. *)
Definition store_pollfd (l : list pollfd) (n : nat) (x : pollfd) : option (list pollfd) :=
  if decide (n < length l)%nat then Some (<[n := x]> l) else None.

(** The array, made longer when it is full. *)
Definition grown (used : nat) (l : list pollfd) : list pollfd := if (length l <=? used)%nat then l ++ replicate XP_INCREMENT no_pollfd else l.

Definition poll_add (id fd p : Z) (s : poll_t) : option poll_t :=
  let n := s.(po_used) in
  let l := grown n s.(po_pollfd) in
  old ← l !! n;
  l ← store_pollfd l n (mk_pollfd fd POLLIN old.(pf_revents));
  Some (mk_poll (id :: s.(po_fds)) (<[id := mk_xfd fd p n]> s.(po_store)) l (S n)).

(** The elements behind [n] move down by one. *)
Definition close_gap (n used : nat) (l : list pollfd) : list pollfd := take n l ++ take (used - n - 1) (drop (S n) l) ++ drop (used - 1) l.

Definition move_down (n : nat) (x : xpoll_fd_t) : xpoll_fd_t :=
  if (n <? x.(x_pollfd_n))%nat then mk_xfd x.(x_fd) x.(x_p) (x.(x_pollfd_n) - 1) else x.

Definition unlisted (id : Z) (l : list Z) : list Z := List.filter (fun i => negb (i =? id)) l.

Definition poll_remove (id : Z) (s : poll_t) : option poll_t :=
  x ← s.(po_store) !! id;
  let n := x.(x_pollfd_n) in
  Some (mk_poll (unlisted id s.(po_fds)) (delete id (move_down n <$> s.(po_store))) (close_gap n s.(po_used) s.(po_pollfd)) (s.(po_used) - 1)).

Definition poll_outgoing (id : Z) (have_outgoing : bool) (s : poll_t) : option poll_t :=
  x ← s.(po_store) !! id;
  e ← s.(po_pollfd) !! x.(x_pollfd_n);
  l ← store_pollfd s.(po_pollfd) x.(x_pollfd_n) (mk_pollfd e.(pf_fd) (want have_outgoing e.(pf_events)) e.(pf_revents));
  Some (mk_poll s.(po_fds) s.(po_store) l s.(po_used)).

(** *** The array *)

Record poll_ok (s : poll_t) : Prop := {
  pk_nodup : NoDup s.(po_fds);
  pk_known : forall id, id ∈ s.(po_fds) <-> is_Some (s.(po_store) !! id);
  pk_used : s.(po_used) = length s.(po_fds);
  pk_room : (s.(po_used) <= length s.(po_pollfd))%nat;
  pk_place : forall id x, s.(po_store) !! id = Some x -> (x.(x_pollfd_n) < s.(po_used))%nat /\
    exists e, s.(po_pollfd) !! x.(x_pollfd_n) = Some e /\ e.(pf_fd) = x.(x_fd) /\ Z.land e.(pf_events) (Z.lnot POLLOUT) = POLLIN;
  pk_apart : forall i j x y, s.(po_store) !! i = Some x -> s.(po_store) !! j = Some y -> x.(x_pollfd_n) = y.(x_pollfd_n) -> i = j
}.

Definition wants_out (l : list pollfd) (x : xpoll_fd_t) : bool :=
  match l !! x.(x_pollfd_n) with Some e => negb (Z.land e.(pf_events) POLLOUT =? 0) | None => false end.

Definition seen (l : list pollfd) (x : xpoll_fd_t) : waiting := mk_waiting x.(x_fd) x.(x_p) (wants_out l x).

Definition poll_view (s : poll_t) : gmap Z waiting := seen s.(po_pollfd) <$> s.(po_store).

#[export] Instance poll_poller : Poller poll_t :=
  {| pl_ok := poll_ok; pl_view := poll_view; pl_add := poll_add; pl_remove := poll_remove; pl_outgoing := poll_outgoing |}.

Lemma poll_initialize_ok : poll_ok poll_initialize /\ poll_view poll_initialize = ∅.
Proof.
  split; [|apply fmap_empty]. split; cbn; try done.
  - apply NoDup_nil_2.
  - intros id. rewrite lookup_empty, elem_of_nil. split; [done|by intros [? ?]].
  - lia.
Qed.

Lemma store_pollfd_spec l n x : (n < length l)%nat -> store_pollfd l n x = Some (<[n := x]> l).
Proof. intros Hn. unfold store_pollfd. by rewrite decide_True. Qed.

Lemma seen_ext l l' x : l !! x.(x_pollfd_n) = l' !! x.(x_pollfd_n) -> seen l x = seen l' x.
Proof. intros E. unfold seen, wants_out. by rewrite E. Qed.

Lemma poll_add_spec id fd p s : poll_ok s -> s.(po_store) !! id = None ->
  exists s', poll_add id fd p s = Some s' /\ poll_ok s' /\ poll_view s' = <[id := mk_waiting fd p false]> (poll_view s).
Proof.
  intros [K1 K2 K3 K4 K5 K6] Hid. unfold poll_add. set (n := po_used s) in *. set (l := grown n (po_pollfd s)).
  assert ((n < length l)%nat /\ (forall i e, po_pollfd s !! i = Some e -> l !! i = Some e)) as [Hl Hk].
  { unfold l, grown. destruct (Nat.leb_spec (length (po_pollfd s)) n); [|split; [lia|done]]. rewrite length_app, length_replicate. unfold XP_INCREMENT. split; [lia|]. intros i e. apply lookup_app_l_Some. }
  clearbody l. destruct (lookup_lt_is_Some_2 l n Hl) as [old Eo]. rewrite Eo. cbn [mbind option_bind]. rewrite store_pollfd_spec by done. cbn [mbind option_bind].
  set (e := mk_pollfd fd POLLIN _). set (l' := <[n := e]> l). assert (forall i x, i <> n -> po_pollfd s !! i = Some x -> l' !! i = Some x) as Hk'
    by (intros i x Hi Hx; unfold l'; rewrite list_lookup_insert_ne by done; by apply Hk).
  eexists. split; [done|]. split.
  - split; cbn [po_fds po_store po_used po_pollfd].
    + apply list.NoDup_cons. split; [|done]. intros Hin. apply K2 in Hin as [x Hx]. congruence.
    + intros i. rewrite elem_of_cons, K2. destruct (decide (i = id)) as [->|Hne]; [rewrite lookup_insert_eq; split; [by eexists|by left]|].
      rewrite lookup_insert_ne by done. split; [by intros [?|?]|by right].
    + cbn. by f_equal.
    + unfold l'. rewrite length_insert. lia.
    + intros i x [[<- <-]|[Hne Hx]]%lookup_insert_Some; cbn [x_pollfd_n x_fd].
      * split; [lia|]. exists e. split; [unfold l'; by rewrite list_lookup_insert_eq|]. by split.
      * destruct (K5 i x Hx) as [H1 (f & H2 & H3)]. split; [lia|]. exists f. split; [apply Hk'; [lia|done]|done].
    + intros i j x y [[<- <-]|[Hi Hx]]%lookup_insert_Some [[<- <-]|[Hj Hy]]%lookup_insert_Some; cbn [x_pollfd_n]; intros E; [done| | |by eapply K6].
      * destruct (K5 j y Hy) as [H1 _]. lia.
      * destruct (K5 i x Hx) as [H1 _]. lia.
  - unfold poll_view. cbn [po_pollfd po_store]. rewrite fmap_insert. f_equal.
    + unfold seen, wants_out. cbn [x_pollfd_n x_fd x_p]. unfold l'. by rewrite list_lookup_insert_eq.
    + apply map_fmap_ext. intros i x Hx. destruct (K5 i x Hx) as [H1 (f & H2 & _)]. apply seen_ext. rewrite H2. apply Hk'; [lia|done].
Qed.

Lemma close_gap_lookup n used l i : (n < used <= length l)%nat -> (i < used - 1)%nat ->
  close_gap n used l !! i = l !! (if (i <? n)%nat then i else S i).
Proof.
  intros Hn Hi. unfold close_gap. destruct (Nat.ltb_spec i n).
  - rewrite lookup_app_l by (rewrite length_take; lia). by rewrite lookup_take_lt.
  - rewrite lookup_app_r by (rewrite length_take; lia). rewrite length_take, Nat.min_l by lia.
    rewrite lookup_app_l by (rewrite length_take, length_drop; lia). rewrite lookup_take_lt by lia. rewrite lookup_drop. f_equal. lia.
Qed.

Lemma close_gap_length n used l : (n < used <= length l)%nat -> length (close_gap n used l) = length l.
Proof. intros Hn. unfold close_gap. rewrite !length_app, !length_take, !length_drop. lia. Qed.

Lemma in_unlisted id i l : i ∈ unlisted id l <-> i ∈ l /\ i <> id.
Proof. unfold unlisted. rewrite !list_elem_of_In, filter_In. split; intros [H1 H2]; (split; [done|]); lia. Qed.

Lemma unlisted_length id l : NoDup l -> id ∈ l -> length l = S (length (unlisted id l)).
Proof.
  induction 1 as [|x l Hx Hd IH]; [by intros ?%elem_of_nil|]. unfold unlisted in *. cbn [List.filter]. intros [->|Hin]%elem_of_cons.
  - rewrite Z.eqb_refl. cbn [negb length]. f_equal. clear IH Hd. induction l as [|y l IH]; [done|]. apply not_elem_of_cons in Hx as [H1 H2]. cbn [List.filter].
    destruct (Z.eqb_spec y x); [congruence|]. cbn. by rewrite <- IH.
  - destruct (Z.eqb_spec x id) as [->|]; [done|]. cbn. by rewrite <- IH.
Qed.

(** The place of a structure, and its element, when another one is removed. *)
Lemma moved_place s id x j y : poll_ok s -> s.(po_store) !! id = Some x -> s.(po_store) !! j = Some y -> j <> id ->
  let y' := move_down x.(x_pollfd_n) y in
  (y'.(x_pollfd_n) < s.(po_used) - 1)%nat /\ close_gap x.(x_pollfd_n) s.(po_used) s.(po_pollfd) !! y'.(x_pollfd_n) = s.(po_pollfd) !! y.(x_pollfd_n) /\
  (y'.(x_fd), y'.(x_p)) = (y.(x_fd), y.(x_p)).
Proof.
  intros [_ _ _ K4 K5 K6] Hx Hy Hne y'. destruct (K5 id x Hx) as [Px _]. destruct (K5 j y Hy) as [Py _].
  assert (x_pollfd_n x <> x_pollfd_n y) as Hn by (intros E; apply Hne; symmetry; by eapply K6). unfold y', move_down.
  destruct (Nat.ltb_spec (x_pollfd_n x) (x_pollfd_n y)); cbn [x_pollfd_n x_fd x_p]; (split; [lia|]); (split; [|done]); rewrite close_gap_lookup by lia.
  - destruct (Nat.ltb_spec (x_pollfd_n y - 1) (x_pollfd_n x)); [lia|]. f_equal. lia.
  - destruct (Nat.ltb_spec (x_pollfd_n y) (x_pollfd_n x)); [done|lia].
Qed.

Lemma poll_remove_spec id x s : poll_ok s -> s.(po_store) !! id = Some x ->
  exists s', poll_remove id s = Some s' /\ poll_ok s' /\ poll_view s' = delete id (poll_view s).
Proof.
  intros Hok Hx. pose proof Hok as [K1 K2 K3 K4 K5 K6]. unfold poll_remove. rewrite Hx. cbn [mbind option_bind]. eexists. split; [done|].
  destruct (K5 id x Hx) as [Px _]. assert (id ∈ po_fds s) as Hin by (apply K2; by eexists).
  assert (forall j y', delete id (move_down (x_pollfd_n x) <$> po_store s) !! j = Some y' -> j <> id /\ exists y, po_store s !! j = Some y /\ y' = move_down (x_pollfd_n x) y) as Hst.
  { intros j y' [Hne (y & <- & Hy)%lookup_fmap_Some]%lookup_delete_Some. split; [done|]. by exists y. }
  split.
  - split; cbn [po_fds po_store po_used po_pollfd].
    + by apply base.NoDup_ListNoDup, NoDup_filter, base.NoDup_ListNoDup.
    + intros i. rewrite in_unlisted, K2. destruct (decide (i = id)) as [->|Hne]; [rewrite lookup_delete_eq; split; [by intros [_ ?]|by intros [? ?]]|].
      rewrite lookup_delete_ne, lookup_fmap, fmap_is_Some by done. split; [by intros [? _]|done].
    + pose proof (unlisted_length id _ K1 Hin). lia.
    + rewrite close_gap_length by lia. lia.
    + intros j y' Hy'. destruct (Hst j y' Hy') as [Hne (y & Hy & ->)]. destruct (moved_place s id x j y Hok Hx Hy Hne) as (M1 & M2 & [= M3 M4]).
      split; [done|]. rewrite M2, M3. by destruct (K5 j y Hy).
    + intros i j a b Ha Hb E. destruct (Hst i a Ha) as [Hi (a0 & Ha0 & ->)]. destruct (Hst j b Hb) as [Hj (b0 & Hb0 & ->)]. apply (K6 i j a0 b0 Ha0 Hb0).
      assert (x_pollfd_n x <> x_pollfd_n a0) by (intros E0; apply Hi; symmetry; by eapply K6). assert (x_pollfd_n x <> x_pollfd_n b0) by (intros E0; apply Hj; symmetry; by eapply K6).
      unfold move_down in E. destruct (Nat.ltb_spec (x_pollfd_n x) (x_pollfd_n a0)), (Nat.ltb_spec (x_pollfd_n x) (x_pollfd_n b0)); cbn in E; lia.
  - unfold poll_view. cbn [po_pollfd po_store]. rewrite fmap_delete, <- map_fmap_compose. apply map_eq. intros j. destruct (decide (j = id)) as [->|Hne]; [by rewrite !lookup_delete_eq|].
    rewrite !lookup_delete_ne, !lookup_fmap by done. destruct (po_store s !! j) as [y|] eqn:Hy; [|done]. cbn. f_equal.
    destruct (moved_place s id x j y Hok Hx Hy Hne) as (_ & M2 & [= M3 M4]). unfold seen, wants_out. by rewrite M2, M3, M4.
Qed.

Lemma want_bits out e : Z.land e (Z.lnot POLLOUT) = POLLIN ->
  Z.land (want out e) (Z.lnot POLLOUT) = POLLIN /\ negb (Z.land (want out e) POLLOUT =? 0) = out.
Proof.
  intros He. unfold want. set (m := Z.lor POLLIN _). destruct out.
  - rewrite Z.land_lor_distr_l, He, Z.land_lor_distr_l. split; [done|]. change (Z.land POLLOUT POLLOUT) with 4. apply negb_true_iff, Z.eqb_neq.
    intros E. apply (f_equal (fun z => Z.testbit z 2)) in E. rewrite Z.lor_spec in E. cbn in E. by rewrite orb_true_r in E.
  - rewrite <- !Z.land_assoc. change (Z.land m POLLOUT) with 0. rewrite Z.land_0_r. split; [|done].
    replace (Z.land m (Z.lnot POLLOUT)) with (Z.land (Z.lnot POLLOUT) m) by apply Z.land_comm. rewrite Z.land_assoc, He. done.
Qed.

Lemma poll_outgoing_spec id x out s : poll_ok s -> s.(po_store) !! id = Some x ->
  exists s', poll_outgoing id out s = Some s' /\ poll_ok s' /\ poll_view s' = <[id := mk_waiting x.(x_fd) x.(x_p) out]> (poll_view s).
Proof.
  intros Hok Hx. pose proof Hok as [K1 K2 K3 K4 K5 K6]. unfold poll_outgoing. rewrite Hx. cbn [mbind option_bind]. destruct (K5 id x Hx) as [Px (e & He & Hfd & Hev)].
  rewrite He. cbn [mbind option_bind]. rewrite store_pollfd_spec by lia. cbn [mbind option_bind]. set (e' := mk_pollfd _ _ _). eexists. split; [done|].
  destruct (want_bits out _ Hev) as [W1 W2].
  assert (forall j y, po_store s !! j = Some y -> j <> id -> <[x_pollfd_n x := e']> (po_pollfd s) !! x_pollfd_n y = po_pollfd s !! x_pollfd_n y) as Ho.
  { intros j y Hy Hne. rewrite list_lookup_insert_ne; [done|]. intros E. apply Hne. symmetry. by eapply K6. }
  assert (<[x_pollfd_n x := e']> (po_pollfd s) !! x_pollfd_n x = Some e') as Hs by (apply list_lookup_insert_eq; lia).
  split.
  - split; cbn [po_fds po_store po_used po_pollfd]; try done; [by rewrite length_insert|].
    intros j y Hy. destruct (K5 j y Hy) as [Py Hf]. split; [done|]. destruct (decide (j = id)) as [->|Hne]; [|by rewrite (Ho j)].
    assert (y = x) as -> by congruence. exists e'. by rewrite Hs.
  - unfold poll_view. cbn [po_pollfd po_store]. apply map_eq. intros j. destruct (decide (j = id)) as [->|Hne].
    + rewrite lookup_insert_eq, lookup_fmap, Hx. cbn. f_equal. unfold seen, wants_out. rewrite Hs. cbn [e' pf_events]. by rewrite W2.
    + rewrite lookup_insert_ne, !lookup_fmap by done. destruct (po_store s !! j) as [y|] eqn:Hy; [|done]. cbn. f_equal. apply seen_ext. by rewrite (Ho j).
Qed.

Lemma poll_view_lookup s id w : poll_view s !! id = Some w -> exists x, s.(po_store) !! id = Some x /\ w = seen s.(po_pollfd) x.
Proof. unfold poll_view. intros (x & <- & Hx)%lookup_fmap_Some. by exists x. Qed.

#[export] Instance poll_laws : PollerLaws poll_t.
Proof.
  split; cbn [pl_ok pl_view pl_add pl_remove pl_outgoing poll_poller].
  - intros id fd p s Hok Hid _ _. apply poll_add_spec; [done|]. unfold poll_view in Hid. by apply fmap_None in Hid || (rewrite lookup_fmap in Hid; by destruct (po_store s !! id)).
  - intros id w s Hok (x & Hx & _)%poll_view_lookup. by eapply poll_remove_spec.
  - intros id w out s Hok (x & Hx & ->)%poll_view_lookup. by apply poll_outgoing_spec.
Qed.

(** ** epoll *)

Definition EPOLL_MASK : Z := Z.lor POLLIN (Z.lor POLLPRI (Z.lor POLLERR POLLHUP)).

Record epoll_fd_t := mk_efd { e_fd : Z; e_p : Z; e_events : Z }.

(** [ep_kernel] is the set the kernel keeps: for a descriptor, its events and the structure. *)
Record epoll_t := mk_epoll { ep_fds : list Z; ep_store : gmap Z epoll_fd_t; ep_used : Z; ep_kernel : gmap Z (Z * Z) }.

Definition epoll_initialize : epoll_t := mk_epoll [] ∅ 0 ∅.

(** A descriptor that is in the set is not added again; the structure stays in the list then, and is not counted. *)
Definition epoll_add (id fd p : Z) (s : epoll_t) : epoll_t * bool :=
  let fds := id :: s.(ep_fds) in
  let store := <[id := mk_efd fd p POLLIN]> s.(ep_store) in
  match s.(ep_kernel) !! fd with
  | Some _ => (mk_epoll fds store s.(ep_used) s.(ep_kernel), false)
  | None => (mk_epoll fds store (s.(ep_used) + 1) (<[fd := (POLLIN, id)]> s.(ep_kernel)), true)
  end.

Definition epoll_remove (id : Z) (s : epoll_t) : option epoll_t :=
  x ← s.(ep_store) !! id;
  let kernel := if x.(e_fd) >=? 0 then delete x.(e_fd) s.(ep_kernel) else s.(ep_kernel) in
  Some (mk_epoll (unlisted id s.(ep_fds)) (delete id s.(ep_store)) (s.(ep_used) - 1) kernel).

Definition epoll_want (have_outgoing : bool) (events : Z) : Z := if have_outgoing then Z.lor events POLLOUT else Z.land events EPOLL_MASK.

Definition epoll_outgoing (id : Z) (have_outgoing : bool) (s : epoll_t) : option epoll_t :=
  x ← s.(ep_store) !! id;
  let events := epoll_want have_outgoing x.(e_events) in
  let kernel := match s.(ep_kernel) !! x.(e_fd) with Some _ => <[x.(e_fd) := (events, id)]> s.(ep_kernel) | None => s.(ep_kernel) end in
  Some (mk_epoll s.(ep_fds) (<[id := mk_efd x.(e_fd) x.(e_p) events]> s.(ep_store)) s.(ep_used) kernel).

Record epoll_ok (s : epoll_t) : Prop := {
  ek_nodup : NoDup s.(ep_fds);
  ek_known : forall id, id ∈ s.(ep_fds) <-> is_Some (s.(ep_store) !! id);
  ek_used : s.(ep_used) = zlen s.(ep_fds);
  ek_kernel : forall fd events id, s.(ep_kernel) !! fd = Some (events, id) <-> exists p, s.(ep_store) !! id = Some (mk_efd fd p events);
  ek_events : forall id x, s.(ep_store) !! id = Some x -> 0 <= x.(e_fd) /\ Z.land x.(e_events) (Z.lnot POLLOUT) = POLLIN
}.

Definition eseen (x : epoll_fd_t) : waiting := mk_waiting x.(e_fd) x.(e_p) (negb (Z.land x.(e_events) POLLOUT =? 0)).
Definition epoll_view (s : epoll_t) : gmap Z waiting := eseen <$> s.(ep_store).

#[export] Instance epoll_poller : Poller epoll_t :=
  {| pl_ok := epoll_ok; pl_view := epoll_view; pl_add := fun id fd p s => let '(s, ok) := epoll_add id fd p s in if (ok : bool) then Some s else None;
     pl_remove := epoll_remove; pl_outgoing := epoll_outgoing |}.

Lemma epoll_initialize_ok : epoll_ok epoll_initialize /\ epoll_view epoll_initialize = ∅.
Proof.
  split; [|apply fmap_empty]. split; cbn; try done.
  - apply NoDup_nil_2.
  - intros id. rewrite lookup_empty, elem_of_nil. split; [done|by intros [? ?]].
  - intros fd ev id. rewrite !lookup_empty. split; [done|by intros [? ?]].
Qed.

(** The kernel has a descriptor once. *)
Lemma kernel_once s i j x y : epoll_ok s -> s.(ep_store) !! i = Some x -> s.(ep_store) !! j = Some y -> x.(e_fd) = y.(e_fd) -> i = j.
Proof.
  intros Hok Hx Hy E. destruct x as [fd p ev], y as [fd' p' ev']. cbn in E. subst fd'. pose proof (proj2 (ek_kernel _ Hok fd ev i) (ex_intro _ p Hx)) as H1.
  pose proof (proj2 (ek_kernel _ Hok fd ev' j) (ex_intro _ p' Hy)) as H2. congruence.
Qed.

Lemma epoll_view_lookup s id w : epoll_view s !! id = Some w -> exists x, s.(ep_store) !! id = Some x /\ w = eseen x.
Proof. unfold epoll_view. intros (x & <- & Hx)%lookup_fmap_Some. by exists x. Qed.

Lemma epoll_add_spec id fd p s : epoll_ok s -> s.(ep_store) !! id = None -> 0 <= fd -> fresh_fd fd (epoll_view s) ->
  exists s', epoll_add id fd p s = (s', true) /\ epoll_ok s' /\ epoll_view s' = <[id := mk_waiting fd p false]> (epoll_view s).
Proof.
  intros Hok Hid Hfd Hf. pose proof Hok as [K1 K2 K3 K4 K5]. unfold epoll_add.
  assert (forall i x, ep_store s !! i = Some x -> e_fd x <> fd) as Hne by (intros i x Hx; apply (Hf i (eseen x)); unfold epoll_view; by rewrite lookup_fmap, Hx).
  destruct (ep_kernel s !! fd) as [[ev i]|] eqn:Ek; [exfalso; apply K4 in Ek as [q Hq]; by apply (Hne _ _ Hq)|].
  eexists. split; [done|]. split; [|unfold epoll_view; cbn [ep_store]; by rewrite fmap_insert]. split; cbn [ep_fds ep_store ep_used ep_kernel].
  - apply list.NoDup_cons. split; [|done]. intros Hin. apply K2 in Hin as [x Hx]. congruence.
  - intros i. rewrite elem_of_cons, K2. destruct (decide (i = id)) as [->|Hi]; [rewrite lookup_insert_eq; split; [by eexists|by left]|].
    rewrite lookup_insert_ne by done. split; [by intros [?|?]|by right].
  - rewrite zlen_cons. lia.
  - intros f ev i. split.
    + intros [[<- [= <- <-]]|[H1 H2]]%lookup_insert_Some; [exists p; by rewrite lookup_insert_eq|]. apply K4 in H2 as [q Hq]. exists q.
      rewrite lookup_insert_ne; [done|congruence].
    + intros [q [[<- [= <- <- <-]]|[H1 H2]]%lookup_insert_Some]; [by rewrite lookup_insert_eq|]. rewrite lookup_insert_ne; [apply K4; by exists q|].
      intros <-. by apply (Hne _ _ H2).
  - intros i x [[<- <-]|[_ Hx]]%lookup_insert_Some; [done|by apply (K5 i)].
Qed.

Lemma epoll_remove_spec id x s : epoll_ok s -> s.(ep_store) !! id = Some x ->
  exists s', epoll_remove id s = Some s' /\ epoll_ok s' /\ epoll_view s' = delete id (epoll_view s).
Proof.
  intros Hok Hx. pose proof Hok as [K1 K2 K3 K4 K5]. unfold epoll_remove. rewrite Hx. cbn [mbind option_bind]. destruct (K5 id x Hx) as [Hfd _].
  rewrite (proj2 (Z.geb_le _ _)) by done. eexists. split; [done|]. split; [|unfold epoll_view; cbn [ep_store]; by rewrite fmap_delete].
  assert (id ∈ ep_fds s) as Hin by (apply K2; by eexists). split; cbn [ep_fds ep_store ep_used ep_kernel].
  - by apply base.NoDup_ListNoDup, NoDup_filter, base.NoDup_ListNoDup.
  - intros i. rewrite in_unlisted, K2. destruct (decide (i = id)) as [->|Hne]; [rewrite lookup_delete_eq; split; [by intros [_ ?]|by intros [? ?]]|].
    rewrite lookup_delete_ne by done. split; [by intros [? _]|done].
  - pose proof (unlisted_length id _ K1 Hin). unfold zlen in *. lia.
  - intros f ev i. split.
    + intros [H1 H2]%lookup_delete_Some. apply K4 in H2 as [p Hp]. exists p. apply lookup_delete_Some. split; [|done]. intros ->. rewrite Hx in Hp. injection Hp as ->. done.
    + intros [p [H1 H2]%lookup_delete_Some]. apply lookup_delete_Some. split; [|apply K4; by exists p]. intros E. apply H1. by eapply (kernel_once s id i).
  - intros i y [_ Hy]%lookup_delete_Some. by apply (K5 i).
Qed.

Lemma epoll_want_bits out e : Z.land e (Z.lnot POLLOUT) = POLLIN ->
  Z.land (epoll_want out e) (Z.lnot POLLOUT) = POLLIN /\ negb (Z.land (epoll_want out e) POLLOUT =? 0) = out.
Proof.
  intros He. destruct out; [apply (want_bits true e He)|]. unfold epoll_want. rewrite <- !Z.land_assoc. change (Z.land EPOLL_MASK POLLOUT) with 0. rewrite Z.land_0_r.
  split; [|done]. rewrite (Z.land_comm EPOLL_MASK), Z.land_assoc, He. done.
Qed.

Lemma epoll_outgoing_spec id x out s : epoll_ok s -> s.(ep_store) !! id = Some x ->
  exists s', epoll_outgoing id out s = Some s' /\ epoll_ok s' /\ epoll_view s' = <[id := mk_waiting x.(e_fd) x.(e_p) out]> (epoll_view s).
Proof.
  intros Hok Hx. pose proof Hok as [K1 K2 K3 K4 K5]. unfold epoll_outgoing. rewrite Hx. cbn [mbind option_bind]. destruct (K5 id x Hx) as [Hfd Hev].
  destruct (epoll_want_bits out _ Hev) as [W1 W2]. set (ev' := epoll_want out (e_events x)) in *.
  assert (ep_kernel s !! e_fd x = Some (e_events x, id)) as Hk by (apply K4; exists (e_p x); rewrite Hx; by destruct x). rewrite Hk.
  eexists. split; [done|]. split.
  - split; cbn [ep_fds ep_store ep_used ep_kernel]; try done.
    + intros i. rewrite K2. destruct (decide (i = id)) as [->|Hne]; [rewrite lookup_insert_eq, Hx; by split; eexists|by rewrite lookup_insert_ne].
    + intros f ev i. split.
      * intros [[<- [= <- <-]]|[H1 H2]]%lookup_insert_Some; [exists (e_p x); by rewrite lookup_insert_eq|]. apply K4 in H2 as [p Hp]. exists p.
        rewrite lookup_insert_ne; [done|]. intros ->. rewrite Hx in Hp. injection Hp as ->. done.
      * intros [p [[<- [= <- _ <-]]|[H1 H2]]%lookup_insert_Some]; [by rewrite lookup_insert_eq|]. rewrite lookup_insert_ne; [apply K4; by exists p|].
        intros E. apply H1. by eapply (kernel_once s id i).
    + intros i y [[<- <-]|[_ Hy]]%lookup_insert_Some; [done|by apply (K5 i)].
  - unfold epoll_view. cbn [ep_store]. rewrite fmap_insert. f_equal. unfold eseen. cbn [e_fd e_p e_events]. by rewrite W2.
Qed.

#[export] Instance epoll_laws : PollerLaws epoll_t.
Proof.
  split; cbn [pl_ok pl_view pl_add pl_remove pl_outgoing epoll_poller].
  - intros id fd p s Hok Hid Hfd Hf. destruct (epoll_add_spec id fd p s Hok) as (s' & -> & H1 & H2); [|done|done|by exists s'].
    unfold epoll_view in Hid. rewrite lookup_fmap in Hid. by destruct (ep_store s !! id).
  - intros id w s Hok (x & Hx & _)%epoll_view_lookup. by eapply epoll_remove_spec.
  - intros id w out s Hok (x & Hx & ->)%epoll_view_lookup. by apply epoll_outgoing_spec.
Qed.

(** * Both pollers do the same *)

Inductive poll_op : Set := PAdd (id fd p : Z) | PRemove (id : Z) | POut (id : Z) (out : bool).

#[export] Instance fresh_fd_dec fd m : Decision (fresh_fd fd m).
Proof. unfold fresh_fd. apply _. Defined.

(** The set of sockets that is waited for; [None] if a structure or a descriptor is added twice, or a structure is not there. *)
Definition wait_step (m : gmap Z waiting) (op : poll_op) : option (gmap Z waiting) :=
  match op with
  | PAdd id fd p => if decide (m !! id = None /\ 0 <= fd /\ fresh_fd fd m) then Some (<[id := mk_waiting fd p false]> m) else None
  | PRemove id => if decide (is_Some (m !! id)) then Some (delete id m) else None
  | POut id out => x ← m !! id; Some (<[id := mk_waiting x.(wt_fd) x.(wt_p) out]> m)
  end.

Definition steps {A} (f : A -> poll_op -> option A) (ops : list poll_op) (a : A) : option A := fold_left (fun a op => a ← a; f a op) ops (Some a).

Lemma steps_cons {A} (f : A -> poll_op -> option A) op ops a : steps f (op :: ops) a = a ← f a op; steps f ops a.
Proof.
  unfold steps. cbn [fold_left mbind option_bind]. destruct (f a op); [done|]. cbn [mbind option_bind]. induction ops as [|o ops IH]; [done|]. exact IH.
Qed.

Section Run.
Context {P : Type} `{PollerLaws P}.

Definition pl_step (s : P) (op : poll_op) : option P :=
  match op with PAdd id fd p => pl_add id fd p s | PRemove id => pl_remove id s | POut id out => pl_outgoing id out s end.

Lemma pl_step_spec s op m : pl_ok s -> wait_step (pl_view s) op = Some m -> exists s', pl_step s op = Some s' /\ pl_ok s' /\ pl_view s' = m.
Proof.
  intros Hok. destruct op as [id fd p|id|id out]; cbn [wait_step pl_step].
  - destruct (decide _) as [(H1 & H2 & H3)|]; [|done]. intros [= <-]. by apply add_law.
  - destruct (decide _) as [[x Hx]|]; [|done]. intros [= <-]. by eapply remove_law.
  - destruct (pl_view s !! id) as [x|] eqn:Hx; [|done]. intros [= <-]. by apply outgoing_law.
Qed.

Lemma pl_run_spec ops : forall s m, pl_ok s -> steps wait_step ops (pl_view s) = Some m ->
  exists s', steps pl_step ops s = Some s' /\ pl_ok s' /\ pl_view s' = m.
Proof.
  induction ops as [|op ops IH]; intros s m Hok E; [injection E as <-; by exists s|]. rewrite steps_cons in E. rewrite steps_cons.
  destruct (wait_step (pl_view s) op) as [m1|] eqn:E1; [|done]. destruct (pl_step_spec s op m1 Hok E1) as (s1 & -> & H1 & <-). cbn [mbind option_bind] in *. by apply IH.
Qed.
End Run.

(** Every element below the number of sockets is used. *)
Lemma poll_places s : poll_ok s -> forall n, (n < s.(po_used))%nat -> exists id x, s.(po_store) !! id = Some x /\ x.(x_pollfd_n) = n.
Proof.
  intros [K1 K2 K3 K4 K5 K6] n Hn. set (place := fun id => match po_store s !! id with Some x => x_pollfd_n x | None => 0%nat end).
  assert (incl (seq 0 (po_used s)) (map place (po_fds s))) as Hincl.
  { apply NoDup_length_incl.
    - apply NoDup_map_NoDup_ForallPairs; [|by apply base.NoDup_ListNoDup]. intros i j Hi Hj E. apply list_elem_of_In, K2 in Hi as [x Hx]. apply list_elem_of_In, K2 in Hj as [y Hy].
      unfold place in E. rewrite Hx, Hy in E. by eapply K6.
    - rewrite length_seq, length_map. lia.
    - intros k Hk. apply in_map_iff in Hk as (i & <- & Hi). apply list_elem_of_In, K2 in Hi as [x Hx]. unfold place. rewrite Hx. apply in_seq. destruct (K5 i x Hx) as [Hp _]. lia. }
  destruct (proj1 (in_map_iff _ _ _) (Hincl n ltac:(apply in_seq; lia))) as (id & E & Hid). apply list_elem_of_In, K2 in Hid as [x Hx]. exists id, x. unfold place in E. by rewrite Hx in E.
Qed.

(** C25: Waiting with [poll] and with [epoll] is the same: after any sequence of sockets that are added and removed and of changes whether
    there is output, both wait for the same sockets for the same clients; every socket has one element of the array, with no element
    unused below the number of sockets however the elements moved, and one entry in the kernel, which names its structure; and
    both ask for output exactly for the sockets that have some. *)
Theorem pollers_agree ops m :
  steps wait_step ops ∅ = Some m ->
  exists s t, steps pl_step ops poll_initialize = Some s /\ steps pl_step ops epoll_initialize = Some t /\ poll_view s = m /\ epoll_view t = m /\
    Z.of_nat s.(po_used) = t.(ep_used) /\
    (forall n, (n < s.(po_used))%nat -> exists id x e, m !! id = Some x /\ s.(po_pollfd) !! n = Some e /\ e.(pf_fd) = x.(wt_fd) /\ negb (Z.land e.(pf_events) POLLOUT =? 0) = x.(wt_out)) /\
    forall fd events id, t.(ep_kernel) !! fd = Some (events, id) <->
      exists p, m !! id = Some (mk_waiting fd p (negb (Z.land events POLLOUT =? 0))) /\ exists x, t.(ep_store) !! id = Some x /\ x.(e_events) = events.
Proof.
  intros Hm. destruct poll_initialize_ok as [P1 P2]. destruct epoll_initialize_ok as [E1 E2].
  destruct (@pl_run_spec poll_t poll_poller poll_laws ops poll_initialize m P1) as (s & Es & Hs & Vs); [cbn [pl_view poll_poller]; by rewrite P2|].
  destruct (@pl_run_spec epoll_t epoll_poller epoll_laws ops epoll_initialize m E1) as (t & Et & Ht & Vt); [cbn [pl_view epoll_poller]; by rewrite E2|].
  cbn [pl_ok pl_view poll_poller epoll_poller] in Hs, Vs, Ht, Vt. exists s, t. split; [done|]. split; [done|]. split; [done|]. split; [done|]. split; [|split].
  - rewrite (pk_used _ Hs), (ek_used _ Ht). unfold zlen. f_equal. apply Permutation_length, NoDup_Permutation; [apply (pk_nodup _ Hs)|apply (ek_nodup _ Ht)|].
    intros i. rewrite (pk_known _ Hs), (ek_known _ Ht), <- (fmap_is_Some (seen (po_pollfd s))), <- (fmap_is_Some eseen), <- !lookup_fmap.
    change (is_Some (poll_view s !! i) <-> is_Some (epoll_view t !! i)). by rewrite Vs, Vt.
  - intros n Hn. destruct (poll_places s Hs n Hn) as (id & x & Hx & En). destruct (pk_place _ Hs id x Hx) as (_ & e & He & Hfd & _).
    exists id, (seen (po_pollfd s) x), e. split; [rewrite <- Vs; unfold poll_view; by rewrite lookup_fmap, Hx|]. rewrite <- En. split; [done|]. split; [done|].
    cbn [seen wt_out]. unfold wants_out. by rewrite He.
  - intros fd ev id. rewrite (ek_kernel _ Ht). split.
    + intros [p Hp]. exists p. split; [rewrite <- Vt; unfold epoll_view; by rewrite lookup_fmap, Hp|]. by eexists.
    + intros (p & Hp & x & Hx & <-). exists p. rewrite <- Vt in Hp. unfold epoll_view in Hp. rewrite lookup_fmap, Hx in Hp. injection Hp as H1 H2. rewrite Hx. destruct x. cbn in *. congruence.
Qed.

Lemma pollers_agree_witness :
  exists s, steps pl_step [PAdd 1 7 100; PAdd 2 8 200; POut 2 true; PRemove 1] poll_initialize = Some s /\ s.(po_used) = 1%nat /\
    s.(po_pollfd) !! 0%nat = Some (mk_pollfd 8 (Z.lor POLLIN POLLOUT) 0).
Proof.
  destruct (pollers_agree [PAdd 1 7 100; PAdd 2 8 200; POut 2 true; PRemove 1] {[2 := mk_waiting 8 200 true]}) as (s & t & Es & _ & _ & _ & _ & Hp & _); [vm_compute; reflexivity|].
  exists s. split; [exact Es|]. vm_compute in Es. injection Es as <-. split; reflexivity.
Defined.

(** * Events *)

Section Events.
Context {H : Type}.

Fixpoint after (id : Z) (l : list Z) : option Z :=
  match l with a :: l => if a =? id then head l else after id l | [] => None end.

(** What the kernel answers for the elements that are used. *)
Definition set_revents (revents : Z -> Z -> Z) (s : poll_t) : poll_t :=
  mk_poll s.(po_fds) s.(po_store)
    (imap (fun n e => if (n <? s.(po_used))%nat then mk_pollfd e.(pf_fd) e.(pf_events) (revents e.(pf_fd) e.(pf_events)) else e) s.(po_pollfd)) s.(po_used).

Section Poll.
(** The structure, its client and [result]. *)
Variable handler : Z -> Z -> Z -> poll_t -> H -> option (poll_t * H).

(** The next structure is looked up before the handler, which may free this one. *)
Fixpoint poll_loop (n : nat) (cur : option Z) (s : poll_t) (h : H) : option (poll_t * H) :=
  match n, cur with
  | _, None => Some (s, h)
  | O, Some _ => None
  | S n, Some id =>
      x ← s.(po_store) !! id;
      let next := after id s.(po_fds) in
      e ← s.(po_pollfd) !! x.(x_pollfd_n);
      if e.(pf_revents) =? 0 then poll_loop n next s h
      else '(s, h) ← handler id x.(x_p) (xresult e.(pf_revents)) s h; poll_loop n next s h
  end.

(** [None]: the wait was interrupted. *)
Definition xpoll_poll (answer : option (Z -> Z -> Z)) (s : poll_t) (h : H) : option (poll_t * H) :=
  match answer with
  | None => Some (s, h)
  | Some revents => let s := set_revents revents s in poll_loop (length s.(po_fds)) (head s.(po_fds)) s h
  end.

(** The sockets that are ready, in the order of the list. *)
Definition event_of (s : poll_t) (id : Z) : option (Z * Z * Z) :=
  x ← s.(po_store) !! id; e ← s.(po_pollfd) !! x.(x_pollfd_n); if e.(pf_revents) =? 0 then None else Some (id, x.(x_p), xresult e.(pf_revents)).

Fixpoint handle_all (events : list (Z * Z * Z)) (s : poll_t) (h : H) : option (poll_t * H) :=
  match events with [] => Some (s, h) | (id, p, r) :: events => '(s, h) ← handler id p r s h; handle_all events s h end.

(** A handler may remove the socket it is called for, add others and change whether there is output. *)
Definition well_behaved : Prop := forall id p r s h s' h', poll_ok s -> handler id p r s h = Some (s', h') ->
  poll_ok s' /\ (exists new, s'.(po_fds) = new ++ s.(po_fds) \/ s'.(po_fds) = new ++ unlisted id s.(po_fds)) /\
  forall j, j ∈ s.(po_fds) -> j <> id -> event_of s' j = event_of s j.

Lemma after_app id l1 l2 : id ∉ l1 -> after id (l1 ++ id :: l2) = head l2.
Proof.
  induction l1 as [|a l1 IH]; cbn [after Datatypes.app]; [by rewrite Z.eqb_refl|]. intros [Hne Hx]%not_elem_of_cons. destruct (Z.eqb_spec a id); [congruence|]. by apply IH.
Qed.

Lemma unlisted_app id l1 l2 : NoDup (l1 ++ id :: l2) -> unlisted id (l1 ++ id :: l2) = l1 ++ l2.
Proof.
  intros (H1 & H2 & [H3 H4]%list.NoDup_cons)%list.NoDup_app. assert (forall l, id ∉ l -> unlisted id l = l) as Hid.
  { intros l. induction l as [|a l IH]; [done|]. intros [Hne Hx]%not_elem_of_cons. unfold unlisted in *. cbn [List.filter]. destruct (Z.eqb_spec a id); [congruence|]. cbn. by rewrite IH. }
  unfold unlisted. rewrite filter_app. cbn [List.filter]. rewrite Z.eqb_refl. cbn [negb]. fold (unlisted id l1). fold (unlisted id l2). rewrite !Hid; [done|done|].
  intros Hin. apply (H2 id Hin). left.
Qed.

Lemma omap_event_ext s s' (l : list Z) : (forall j, j ∈ l -> event_of s' j = event_of s j) -> omap (event_of s') l = omap (event_of s) l.
Proof. induction l as [|j l IH]; intros He; [done|]. cbn [omap list_omap]. rewrite He by left. rewrite IH; [done|]. intros i Hi. apply He. by right. Qed.

Lemma poll_loop_spec (Hh : well_behaved) rest : forall n done s h, (length rest <= n)%nat -> poll_ok s -> s.(po_fds) = done ++ rest ->
  poll_loop n (head rest) s h = handle_all (omap (event_of s) rest) s h.
Proof.
  induction rest as [|id rest IH]; intros n done s h Hn Hok E; [by destruct n|]. destruct n as [|n]; [cbn in Hn; lia|].
  pose proof (pk_nodup _ Hok) as Hd. rewrite E in Hd. pose proof Hd as (D1 & D2 & [D3 D4]%list.NoDup_cons)%list.NoDup_app.
  assert (id ∉ done) as Hx by (intros Hin; apply (D2 id Hin); left).
  destruct (proj1 (pk_known _ Hok id)) as [x Hs]; [rewrite E; apply elem_of_app; right; left|]. destruct (pk_place _ Hok id x Hs) as (_ & e & He & _).
  cbn [head poll_loop omap list_omap]. rewrite E, after_app by done. unfold event_of at 1. rewrite Hs. cbn [mbind option_bind]. rewrite He. cbn [mbind option_bind].
  destruct (Z.eqb_spec (pf_revents e) 0) as [Er|Er].
  - apply (IH n (done ++ [id])); [cbn in Hn; lia|done|by rewrite <- app_assoc].
  - cbn [handle_all]. destruct (handler id (x_p x) (xresult (pf_revents e)) s h) as [[s' h']|] eqn:Eh; [|done]. cbn [mbind option_bind].
    destruct (Hh _ _ _ _ _ _ _ Hok Eh) as (Hok' & (new & Hnew) & Hev).
    rewrite (omap_event_ext s' s) by (intros j Hj; symmetry; apply Hev; [rewrite E; apply elem_of_app; right; by right|by intros ->]).
    destruct Hnew as [Hnew|Hnew]; rewrite E in Hnew.
    + apply (IH n (new ++ done ++ [id])); [cbn in Hn; lia|done|]. rewrite Hnew, <- !app_assoc. done.
    + rewrite unlisted_app in Hnew by done. apply (IH n (new ++ done)); [cbn in Hn; lia|done|]. by rewrite Hnew, app_assoc.
Qed.

Lemma set_revents_ok revents s : poll_ok s -> poll_ok (set_revents revents s).
Proof.
  intros [K1 K2 K3 K4 K5 K6]. split; cbn [set_revents po_fds po_store po_used po_pollfd]; try done; [by rewrite length_imap|].
  intros id x Hx. destruct (K5 id x Hx) as [H1 (e & H2 & H3 & H4)]. split; [done|]. rewrite list_lookup_imap, H2. cbn [fmap option_fmap option_map]. eexists. split; [done|].
  rewrite (proj2 (Nat.ltb_lt _ _)) by done. done.
Qed.

(** The event of a socket is what the kernel answered for its own descriptor. *)
Lemma event_own revents s id x : poll_ok s -> s.(po_store) !! id = Some x -> exists e, s.(po_pollfd) !! x.(x_pollfd_n) = Some e /\
  event_of (set_revents revents s) id = let r := revents x.(x_fd) e.(pf_events) in if r =? 0 then None else Some (id, x.(x_p), xresult r).
Proof.
  intros Hok Hx. destruct (pk_place _ Hok id x Hx) as [H1 (e & H2 & H3 & _)]. exists e. split; [done|]. unfold event_of. cbn [set_revents po_store po_pollfd]. rewrite Hx. cbn [mbind option_bind].
  rewrite list_lookup_imap, H2. cbn [fmap option_fmap option_map mbind option_bind]. rewrite (proj2 (Nat.ltb_lt _ _)) by done. cbn [pf_revents]. by rewrite H3.
Qed.

(** A round of [poll] calls the handler for every socket that is ready, once and with its own result, to the end of the list, although
    handlers remove their sockets and elements of the array move. *)
Theorem poll_delivers revents s h : well_behaved -> poll_ok s ->
  xpoll_poll (Some revents) s h = handle_all (omap (event_of (set_revents revents s)) s.(po_fds)) (set_revents revents s) h.
Proof. intros Hh Hok. unfold xpoll_poll. apply (poll_loop_spec Hh _ _ []); [done|by apply set_revents_ok|done]. Qed.
End Poll.

(** With [epoll] the kernel gives the structures themselves; it has no [POLLNVAL]. *)
Definition epoll_result (events : Z) : Z := xresult (Z.land events (Z.lnot POLLNVAL)).

Fixpoint epoll_loop (handler : Z -> Z -> Z -> epoll_t -> H -> option (epoll_t * H)) (events : list (Z * Z)) (s : epoll_t) (h : H) : option (epoll_t * H) :=
  match events with
  | [] => Some (s, h)
  | (ptr, revents) :: events => x ← s.(ep_store) !! ptr; '(s, h) ← handler ptr x.(e_p) (epoll_result revents) s h; epoll_loop handler events s h
  end.
End Events.

(** A handler that closes its client is such a handler. *)
Lemma remove_well_behaved : well_behaved (fun id p r s (h : list (Z * Z)) => s ← poll_remove id s; Some (s, h ++ [(p, r)])).
Proof.
  intros id p r s h s' h' Hok E. destruct (po_store s !! id) as [x|] eqn:Hx; [|unfold poll_remove in E; by rewrite Hx in E].
  destruct (poll_remove_spec id x s Hok Hx) as (s1 & E1 & H1 & _). rewrite E1 in E. injection E as <- <-. split; [done|]. unfold poll_remove in E1. rewrite Hx in E1. injection E1 as <-.
  cbn [po_fds]. split; [exists []; by right|]. intros j Hj Hne. apply (pk_known _ Hok) in Hj as [y Hy]. destruct (moved_place s id x j y Hok Hx Hy Hne) as (_ & M2 & [= M3 M4]).
  unfold event_of. cbn [po_store po_pollfd]. rewrite lookup_delete_ne, lookup_fmap, Hy by done. cbn [fmap option_fmap option_map mbind option_bind]. by rewrite M2, M4.
Qed.

(** Two of three sockets are ready, and both handlers remove theirs. *)
Lemma poll_delivers_demo :
  exists s s', steps pl_step [PAdd 1 7 100; PAdd 2 8 200; PAdd 3 9 300] poll_initialize = Some s /\
    xpoll_poll (fun id p r s h => s ← poll_remove id s; Some (s, h ++ [(p, r)])) (Some (fun fd _ => if fd =? 8 then 0 else 1)) s [] = Some (s', [(300, 1); (100, 1)]) /\ s'.(po_fds) = [2].
Proof. do 2 eexists. split; [vm_compute; reflexivity|]. split; [vm_compute; reflexivity|]. reflexivity. Qed.
