(* ===== verification/Rwlock.v ===== *)
(** * rwlock.c: the read-write lock

    The tables that several threads use are protected by read-write locks.  Where the system has none, this is one made of a mutex and
    two condition variables.  What a thread does between taking the mutex and giving it back, or waiting, is one step; threads interleave
    between their steps, are woken by signals or without a reason, and may be cancelled while they wait (a
    thread that is cancelled takes no signal, so one that was woken is not).  The calls of the thread library do not fail. *)

From S2P Require Import Prelude.
From Stdlib Require Import ZArith Lia Bool.
From stdpp Require Import base tactics list numbers relations.
Open Scope Z_scope.

Definition RWLOCK_VALID : Z := 0xfacade.
Definition EBUSY : Z := 16.
Definition EINVAL : Z := 22.

Record rwlock_t := mk_rw { rw_valid : Z; r_active : Z; w_active : Z; r_wait : Z; w_wait : Z }.

Definition rwl_init : rwlock_t := mk_rw RWLOCK_VALID 0 0 0 0.

(** A call returns with a status, or waits for a condition. *)
Inductive lock_answer : Set := Returns (status : Z) | Waits.

(** What is signalled before the mutex is given back. *)
Inductive lock_signal : Set := Silent | SignalWrite | BroadcastRead.

Section Calls.
Variable l : rwlock_t.

Definition invalid : bool := negb (l.(rw_valid) =? RWLOCK_VALID).
Definition add_reader (n wait : Z) : rwlock_t := mk_rw l.(rw_valid) (l.(r_active) + n) l.(w_active) (l.(r_wait) + wait) l.(w_wait).
Definition set_writer (active wait : Z) : rwlock_t := mk_rw l.(rw_valid) l.(r_active) active l.(r_wait) (l.(w_wait) + wait).

Definition rwl_destroy : rwlock_t * Z :=
  if invalid then (l, EINVAL)
  else if (l.(r_active) >? 0) || negb (l.(w_active) =? 0) then (l, EBUSY)
  else if negb (l.(r_wait) =? 0) || negb (l.(w_wait) =? 0) then (l, EBUSY)
  else (mk_rw 0 l.(r_active) l.(w_active) l.(r_wait) l.(w_wait), 0).

(** [rwl_rdlock] up to the wait, and from there on. *)
Definition rwl_rdlock : rwlock_t * lock_answer :=
  if invalid then (l, Returns EINVAL)
  else if negb (l.(w_active) =? 0) then (add_reader 0 1, Waits)
  else (add_reader 1 0, Returns 0).

Definition rdlock_woken : rwlock_t * lock_answer :=
  if negb (l.(w_active) =? 0) then (l, Waits) else (add_reader 1 (-1), Returns 0).

Definition rwl_tryrdlock : rwlock_t * Z :=
  if invalid then (l, EINVAL) else if negb (l.(w_active) =? 0) then (l, EBUSY) else (add_reader 1 0, 0).

Definition rwl_rdunlock : rwlock_t * lock_signal * Z :=
  if invalid then (l, Silent, EINVAL)
  else
    let l := add_reader (-1) 0 in
    (l, if (l.(r_active) =? 0) && (l.(w_wait) >? 0) then SignalWrite else Silent, 0).

Definition rwl_wrlock : rwlock_t * lock_answer :=
  if invalid then (l, Returns EINVAL)
  else if negb (l.(w_active) =? 0) || (l.(r_active) >? 0) then (set_writer l.(w_active) 1, Waits)
  else (set_writer 1 0, Returns 0).

Definition wrlock_woken : rwlock_t * lock_answer :=
  if negb (l.(w_active) =? 0) || (l.(r_active) >? 0) then (l, Waits) else (set_writer 1 (-1), Returns 0).

Definition rwl_trywrlock : rwlock_t * Z :=
  if invalid then (l, EINVAL) else if negb (l.(w_active) =? 0) || (l.(r_active) >? 0) then (l, EBUSY) else (set_writer 1 0, 0).

Definition rwl_wrunlock : rwlock_t * lock_signal * Z :=
  if invalid then (l, Silent, EINVAL)
  else (set_writer 0 0, if l.(r_wait) >? 0 then BroadcastRead else if l.(w_wait) >? 0 then SignalWrite else Silent, 0).

Definition rwl_readcleanup : rwlock_t := add_reader 0 (-1).
Definition rwl_writecleanup : rwlock_t := set_writer l.(w_active) (-1).
End Calls.

(** ** Threads *)

(** Where a thread is: outside, inside as a reader or writer, waiting for a condition, or woken and about to take the mutex again. *)
Inductive phase : Set := Outside | Reading | Writing | WaitRead | WokenRead | WaitWrite | WokenWrite.

#[export] Instance phase_eq_dec : EqDecision phase.
Proof. solve_decision. Defined.

Record system := mk_system { sy_lock : rwlock_t; sy_threads : list phase }.

Definition after_rd (a : lock_answer) : phase := match a with Waits => WaitRead | Returns n => if n =? 0 then Reading else Outside end.
Definition after_wr (a : lock_answer) : phase := match a with Waits => WaitWrite | Returns n => if n =? 0 then Writing else Outside end.

Definition wake_reader (p : phase) : phase := match p with WaitRead => WokenRead | p => p end.

(** A signal wakes one of the threads that wait, a broadcast all of them. *)
Inductive signalled : lock_signal -> list phase -> list phase -> Prop :=
  | sg_silent ts : signalled Silent ts ts
  | sg_broadcast ts : signalled BroadcastRead ts (map wake_reader ts)
  | sg_one ts j : ts !! j = Some WaitWrite -> signalled SignalWrite ts (<[j := WokenWrite]> ts)
  | sg_none ts : (forall j, ts !! j <> Some WaitWrite) -> signalled SignalWrite ts ts.

Inductive lock_step : system -> system -> Prop :=
  | st_rdlock l ts i l' a : ts !! i = Some Outside -> rwl_rdlock l = (l', a) -> lock_step (mk_system l ts) (mk_system l' (<[i := after_rd a]> ts))
  | st_rdwoken l ts i l' a : ts !! i = Some WokenRead -> rdlock_woken l = (l', a) -> lock_step (mk_system l ts) (mk_system l' (<[i := after_rd a]> ts))
  | st_tryrd l ts i l' n : ts !! i = Some Outside -> rwl_tryrdlock l = (l', n) -> lock_step (mk_system l ts) (mk_system l' (<[i := after_rd (Returns n)]> ts))
  | st_rdunlock l ts i l' sg ts' : ts !! i = Some Reading -> rwl_rdunlock l = (l', sg, 0) -> signalled sg (<[i := Outside]> ts) ts' ->
      lock_step (mk_system l ts) (mk_system l' ts')
  | st_wrlock l ts i l' a : ts !! i = Some Outside -> rwl_wrlock l = (l', a) -> lock_step (mk_system l ts) (mk_system l' (<[i := after_wr a]> ts))
  | st_wrwoken l ts i l' a : ts !! i = Some WokenWrite -> wrlock_woken l = (l', a) -> lock_step (mk_system l ts) (mk_system l' (<[i := after_wr a]> ts))
  | st_trywr l ts i l' n : ts !! i = Some Outside -> rwl_trywrlock l = (l', n) -> lock_step (mk_system l ts) (mk_system l' (<[i := after_wr (Returns n)]> ts))
  | st_wrunlock l ts i l' sg ts' : ts !! i = Some Writing -> rwl_wrunlock l = (l', sg, 0) -> signalled sg (<[i := Outside]> ts) ts' ->
      lock_step (mk_system l ts) (mk_system l' ts')
  | st_spurious_read l ts i : ts !! i = Some WaitRead -> lock_step (mk_system l ts) (mk_system l (<[i := WokenRead]> ts))
  | st_spurious_write l ts i : ts !! i = Some WaitWrite -> lock_step (mk_system l ts) (mk_system l (<[i := WokenWrite]> ts))
  | st_cancel_read l ts i : ts !! i = Some WaitRead -> lock_step (mk_system l ts) (mk_system (rwl_readcleanup l) (<[i := Outside]> ts))
  | st_cancel_write l ts i : ts !! i = Some WaitWrite -> lock_step (mk_system l ts) (mk_system (rwl_writecleanup l) (<[i := Outside]> ts))
  | st_destroy l ts l' n : rwl_destroy l = (l', n) -> lock_step (mk_system l ts) (mk_system l' ts).

(** [n] threads that do not use the lock yet. *)
Definition start (n : nat) : system := mk_system rwl_init (replicate n Outside).

(** * Counting threads *)

Definition same (p q : phase) : Z := if decide (p = q) then 1 else 0.

(** Compute [same] on phases that are known. *)
Ltac same_values :=
  repeat match goal with |- context [same ?p ?q] => let v := eval vm_compute in (same p q) in change (same p q) with v end.

(** The threads in a phase. *)
Fixpoint number (p : phase) (ts : list phase) : Z := match ts with [] => 0 | q :: ts => same p q + number p ts end.

Lemma same_range p q : 0 <= same p q <= 1.
Proof. unfold same. destruct (decide _); lia. Qed.

Lemma number_nonneg p ts : 0 <= number p ts.
Proof. induction ts as [|q ts IH]; cbn [number]; [lia|]. pose proof (same_range p q). lia. Qed.

Lemma number_insert p ts i q r : ts !! i = Some q -> number p (<[i := r]> ts) = number p ts - same p q + same p r.
Proof.
  revert i. induction ts as [|x ts IH]; intros [|i] E; try done; cbn in E.
  - injection E as ->. change (<[0%nat := r]> (q :: ts)) with (r :: ts). cbn [number]. lia.
  - change (<[S i := r]> (x :: ts)) with (x :: <[i := r]> ts). cbn [number]. rewrite (IH i E). lia.
Qed.

Lemma number_pos p ts : 0 < number p ts <-> exists i, ts !! i = Some p.
Proof.
  induction ts as [|q ts IH]; cbn [number]; [split; [lia|intros [i Hi]; by rewrite lookup_nil in Hi]|]. pose proof (number_nonneg p ts) as Hn. unfold same. destruct (decide (p = q)) as [<-|Hne].
  - split; [intros _; by exists 0%nat|lia].
  - rewrite Z.add_0_l, IH. split; intros [i Hi]; [by exists (S i)|]. destruct i as [|i]; [by injection Hi as ->|by exists i].
Qed.

Lemma number_two p ts i j : 0 < number p ts <= 1 -> ts !! i = Some p -> ts !! j = Some p -> i = j.
Proof.
  intros Hn Hi Hj. destruct (decide (i = j)) as [|Hne]; [done|]. exfalso. set (o := match p with Outside => Reading | _ => Outside end).
  assert (same p p = 1 /\ same p o = 0) as [E1 E2] by (by destruct p). pose proof (number_insert p ts i p o Hi) as E. rewrite E1, E2 in E.
  assert (0 < number p (<[i := o]> ts)); [|lia]. apply number_pos. exists j. by rewrite list_lookup_insert_ne.
Qed.

Lemma number_wake p ts : number p (map wake_reader ts) =
  match p with WaitRead => 0 | WokenRead => number WokenRead ts + number WaitRead ts | p => number p ts end.
Proof. induction ts as [|q ts IH]; [by destruct p|]. cbn [map number]. rewrite IH. destruct p, q; cbn [wake_reader]; same_values; lia. Qed.

Lemma number_start p n : p <> Outside -> number p (replicate n Outside) = 0.
Proof. intros Hp. induction n as [|n IH]; [done|]. cbn [replicate number]. rewrite IH. unfold same. by rewrite decide_False. Qed.

(** * The invariant *)

Record lock_ok (s : system) : Prop := {
  lk_readers : s.(sy_lock).(r_active) = number Reading s.(sy_threads);
  lk_writers : s.(sy_lock).(w_active) = number Writing s.(sy_threads);
  lk_rwait : s.(sy_lock).(r_wait) = number WaitRead s.(sy_threads) + number WokenRead s.(sy_threads);
  lk_wwait : s.(sy_lock).(w_wait) = number WaitWrite s.(sy_threads) + number WokenWrite s.(sy_threads);
  lk_one : number Writing s.(sy_threads) <= 1;
  lk_excl : 0 < number Writing s.(sy_threads) -> number Reading s.(sy_threads) = 0;
  lk_read_woken : 0 < number WaitRead s.(sy_threads) -> 0 < number Writing s.(sy_threads);
  lk_write_woken : 0 < number WaitWrite s.(sy_threads) ->
    0 < number Writing s.(sy_threads) + number Reading s.(sy_threads) + number WokenRead s.(sy_threads) + number WokenWrite s.(sy_threads);
  lk_valid : 0 < s.(sy_lock).(r_active) + s.(sy_lock).(w_active) + s.(sy_lock).(r_wait) + s.(sy_lock).(w_wait) -> s.(sy_lock).(rw_valid) = RWLOCK_VALID
}.

Lemma start_ok n : lock_ok (start n).
Proof. split; cbn [start sy_lock sy_threads rwl_init r_active w_active r_wait w_wait rw_valid]; rewrite ?number_start by done; lia || done. Qed.

(** All numbers of a list of threads that was changed in one place. *)
Ltac count_insert H :=
  rewrite ?(number_insert Reading _ _ _ _ H), ?(number_insert Writing _ _ _ _ H), ?(number_insert WaitRead _ _ _ _ H), ?(number_insert WokenRead _ _ _ _ H),
    ?(number_insert WaitWrite _ _ _ _ H), ?(number_insert WokenWrite _ _ _ _ H).

Ltac nonneg ts :=
  pose proof (number_nonneg Reading ts); pose proof (number_nonneg Writing ts); pose proof (number_nonneg WaitRead ts); pose proof (number_nonneg WokenRead ts);
  pose proof (number_nonneg WaitWrite ts); pose proof (number_nonneg WokenWrite ts).

(** The thread [i] was in phase [p]. *)
Lemma number_in p ts i : ts !! i = Some p -> 0 < number p ts.
Proof. intros Hi. apply number_pos. by exists i. Qed.

(** The numbers after a step, when the thread that made it was counted by [H]. *)
Ltac settle H :=
  split; cbn [sy_lock sy_threads r_active w_active r_wait w_wait rw_valid add_reader set_writer rwl_readcleanup rwl_writecleanup after_rd after_wr Z.eqb]; count_insert H; same_values; try lia.

(** The threads after a signal: a waiting writer is woken if there is one, all waiting readers are. *)
Lemma signalled_numbers sg ts ts' : signalled sg ts ts' ->
  number Reading ts' = number Reading ts /\ number Writing ts' = number Writing ts /\
  match sg with
  | Silent => ts' = ts
  | BroadcastRead => number WaitRead ts' = 0 /\ number WokenRead ts' = number WokenRead ts + number WaitRead ts /\
      number WaitWrite ts' = number WaitWrite ts /\ number WokenWrite ts' = number WokenWrite ts
  | SignalWrite => number WaitRead ts' = number WaitRead ts /\ number WokenRead ts' = number WokenRead ts /\
      number WaitWrite ts' + number WokenWrite ts' = number WaitWrite ts + number WokenWrite ts /\
      (0 < number WaitWrite ts + number WokenWrite ts -> 0 < number WokenWrite ts')
  end.
Proof.
  intros [ts0|ts0|ts0 j Hj|ts0 Hn]; [done|rewrite !number_wake; done| |].
  - count_insert Hj. same_values. pose proof (number_in _ _ _ Hj). nonneg ts0. repeat split; lia.
  - assert (number WaitWrite ts0 = 0); [|repeat split; lia]. pose proof (number_nonneg WaitWrite ts0). destruct (decide (0 < number WaitWrite ts0)) as [[j Hj]%number_pos|]; [by destruct (Hn j)|lia].
Qed.

Lemma rdunlock_ok l ts i l' sg ts' : lock_ok (mk_system l ts) -> ts !! i = Some Reading -> rwl_rdunlock l = (l', sg, 0) -> signalled sg (<[i := Outside]> ts) ts' ->
  lock_ok (mk_system l' ts').
Proof.
  intros [K1 K2 K3 K4 K5 K6 K7 K8 K9] Hi E Hs%signalled_numbers. cbn [sy_lock sy_threads] in *. nonneg ts. nonneg ts'. pose proof (number_in _ _ _ Hi). unfold rwl_rdunlock, invalid in E.
  destruct (Z.eqb_spec (rw_valid l) RWLOCK_VALID) as [Ev|Ev]; cbn [negb] in E; [|discriminate E]. injection E as <- <-.
  revert Hs. count_insert Hi. same_values. cbn [add_reader r_active w_wait]. destruct (Z.eqb_spec (r_active l + -1) 0), (Z.gtb_spec (w_wait l) 0); cbn [andb];
    intros (N1 & N2 & N3); [destruct N3 as (N3 & N4 & N5 & N6)|subst ts'; revert N1 N2; count_insert Hi; same_values; intros N1 N2..];
    split; cbn [sy_lock sy_threads r_active w_active r_wait w_wait rw_valid add_reader]; count_insert Hi; same_values; lia.
Qed.

Lemma wrunlock_ok l ts i l' sg ts' : lock_ok (mk_system l ts) -> ts !! i = Some Writing -> rwl_wrunlock l = (l', sg, 0) -> signalled sg (<[i := Outside]> ts) ts' ->
  lock_ok (mk_system l' ts').
Proof.
  intros [K1 K2 K3 K4 K5 K6 K7 K8 K9] Hi E Hs%signalled_numbers. cbn [sy_lock sy_threads] in *. nonneg ts. nonneg ts'. pose proof (number_in _ _ _ Hi). unfold rwl_wrunlock, invalid in E.
  destruct (Z.eqb_spec (rw_valid l) RWLOCK_VALID) as [Ev|Ev]; cbn [negb] in E; [|discriminate E]. injection E as <- <-.
  revert Hs. count_insert Hi. same_values. destruct (Z.gtb_spec (r_wait l) 0), (Z.gtb_spec (w_wait l) 0); intros (N1 & N2 & N3);
    [destruct N3 as (N3 & N4 & N5 & N6)..|subst ts'; revert N1 N2; count_insert Hi; same_values; intros N1 N2];
    split; cbn [sy_lock sy_threads r_active w_active r_wait w_wait rw_valid set_writer]; count_insert Hi; same_values; lia.
Qed.

Lemma step_lock_ok s s' : lock_step s s' -> lock_ok s -> lock_ok s'.
Proof.
  intros Hst Hok. pose proof Hok as [K1 K2 K3 K4 K5 K6 K7 K8 K9]. destruct Hst as [l ts i l' a Hi E|l ts i l' a Hi E|l ts i l' n Hi E|l ts i l' sg ts' Hi E Hs|l ts i l' a Hi E|l ts i l' a Hi E|
    l ts i l' n Hi E|l ts i l' sg ts' Hi E Hs|l ts i Hi|l ts i Hi|l ts i Hi|l ts i Hi|l ts l' n E]; cbn [sy_lock sy_threads] in *; nonneg ts; try pose proof (number_in _ _ _ Hi).
  - unfold rwl_rdlock, invalid in E. destruct (Z.eqb_spec (rw_valid l) RWLOCK_VALID), (Z.eqb_spec (w_active l) 0); cbn [negb] in E; injection E as <- <-; settle Hi.
  - unfold rdlock_woken in E. destruct (Z.eqb_spec (w_active l) 0); cbn [negb] in E; injection E as <- <-; settle Hi.
  - unfold rwl_tryrdlock, invalid in E. destruct (Z.eqb_spec (rw_valid l) RWLOCK_VALID), (Z.eqb_spec (w_active l) 0); cbn [negb] in E; injection E as <- <-; settle Hi.
  - by eapply rdunlock_ok.
  - unfold rwl_wrlock, invalid in E. destruct (Z.eqb_spec (rw_valid l) RWLOCK_VALID), (Z.eqb_spec (w_active l) 0), (Z.gtb_spec (r_active l) 0); cbn [negb orb] in E; injection E as <- <-; settle Hi.
  - unfold wrlock_woken in E. destruct (Z.eqb_spec (w_active l) 0), (Z.gtb_spec (r_active l) 0); cbn [negb orb] in E; injection E as <- <-; settle Hi.
  - unfold rwl_trywrlock, invalid in E. destruct (Z.eqb_spec (rw_valid l) RWLOCK_VALID), (Z.eqb_spec (w_active l) 0), (Z.gtb_spec (r_active l) 0); cbn [negb orb] in E; injection E as <- <-; settle Hi.
  - by eapply wrunlock_ok.
  - settle Hi.
  - settle Hi.
  - settle Hi.
  - settle Hi.
  - unfold rwl_destroy, invalid in E. destruct (Z.eqb_spec (rw_valid l) RWLOCK_VALID), (Z.eqb_spec (w_active l) 0), (Z.gtb_spec (r_active l) 0), (Z.eqb_spec (r_wait l) 0), (Z.eqb_spec (w_wait l) 0);
      cbn [negb orb] in E; injection E as <- <-; try done; split; cbn; lia.
Qed.

Lemma reachable_ok n s : rtc lock_step (start n) s -> lock_ok s.
Proof. revert s. apply rtc_ind_r; [apply start_ok|]. intros s s' _ Hs. by apply step_lock_ok. Qed.

(** A thread that is woken while nobody has the lock gets it with its next step. *)
Definition gets_lock (s : system) (j : nat) : Prop :=
  exists s', lock_step s s' /\ (s'.(sy_threads) !! j = Some Reading \/ s'.(sy_threads) !! j = Some Writing).

Lemma woken_gets s j p : lock_ok s -> s.(sy_lock).(w_active) = 0 -> s.(sy_lock).(r_active) = 0 -> s.(sy_threads) !! j = Some p -> p = WokenRead \/ p = WokenWrite -> gets_lock s j.
Proof.
  destruct s as [l ts]. cbn [sy_lock sy_threads]. intros _ Hw Hr Hj Hp. pose proof (lookup_lt_Some _ _ _ Hj). destruct Hp as [->| ->].
  - eexists. split; [eapply st_rdwoken; [exact Hj|]; unfold rdlock_woken; by rewrite Hw|]. left. by apply list_lookup_insert_eq.
  - eexists. split; [eapply st_wrwoken; [exact Hj|]; unfold wrlock_woken; by rewrite Hw, Hr|]. right. by apply list_lookup_insert_eq.
Qed.

(** C26: The lock excludes and never forgets a waiting thread.  Whatever calls, wakings and cancellations happen, in any order: a writer has the
    lock alone; those that have it can give it back; no thread waits for a lock that nobody has, unless another thread was already woken and
    gets the lock with its next step; and the lock is destroyed only when all threads are outside. *)
Theorem rwlock_correct n s : rtc lock_step (start n) s ->
  (forall i j, s.(sy_threads) !! i = Some Writing -> s.(sy_threads) !! j = Some Writing \/ s.(sy_threads) !! j = Some Reading -> i = j) /\
  (forall i, s.(sy_threads) !! i = Some Reading -> exists l' sg, rwl_rdunlock s.(sy_lock) = (l', sg, 0)) /\
  (forall i, s.(sy_threads) !! i = Some Writing -> exists l' sg, rwl_wrunlock s.(sy_lock) = (l', sg, 0)) /\
  (forall i, s.(sy_threads) !! i = Some WaitRead \/ s.(sy_threads) !! i = Some WaitWrite ->
     (exists j, s.(sy_threads) !! j = Some Reading \/ s.(sy_threads) !! j = Some Writing) \/
     (exists j, (s.(sy_threads) !! j = Some WokenRead \/ s.(sy_threads) !! j = Some WokenWrite) /\ gets_lock s j)) /\
  ((rwl_destroy s.(sy_lock)).2 = 0 -> Forall (fun p => p = Outside) s.(sy_threads)).
Proof.
  intros Hr%reachable_ok. pose proof Hr as [K1 K2 K3 K4 K5 K6 K7 K8 K9]. set (ts := sy_threads s) in *. nonneg ts. split; [|split; [|split; [|split]]].
  - intros i j Hi [Hj|Hj]; [eapply number_two; [|done|done]; pose proof (number_in _ _ _ Hi); lia|]. pose proof (number_in _ _ _ Hi). pose proof (number_in _ _ _ Hj). lia.
  - intros i Hi. pose proof (number_in _ _ _ Hi). unfold rwl_rdunlock, invalid. rewrite K9 by lia. by do 2 eexists.
  - intros i Hi. pose proof (number_in _ _ _ Hi). unfold rwl_wrunlock, invalid. rewrite K9 by lia. by do 2 eexists.
  - intros i Hi. destruct (decide (0 < number Writing ts)) as [[j Hj]%number_pos|Hw]; [left; exists j; by right|].
    destruct (decide (0 < number Reading ts)) as [[j Hj]%number_pos|Hrd]; [left; exists j; by left|]. right.
    destruct Hi as [Hi|Hi]; pose proof (number_in _ _ _ Hi); [lia|].
    assert (exists j, ts !! j = Some WokenRead \/ ts !! j = Some WokenWrite) as [j Hj].
    { destruct (decide (0 < number WokenRead ts)) as [[j Hj]%number_pos|]; [exists j; by left|]. destruct (proj1 (number_pos WokenWrite ts)) as [j Hj]; [lia|]. exists j. by right. }
    exists j. split; [done|]. destruct Hj as [Hj|Hj]; (eapply woken_gets; [done|lia|lia|exact Hj|auto]).
  - intros Hd. unfold rwl_destroy in Hd. destruct (invalid (sy_lock s)); [done|]. destruct (Z.gtb_spec (r_active (sy_lock s)) 0), (Z.eqb_spec (w_active (sy_lock s)) 0),
      (Z.eqb_spec (r_wait (sy_lock s)) 0), (Z.eqb_spec (w_wait (sy_lock s)) 0); cbn in Hd; try discriminate Hd.
    apply Forall_lookup. intros i p Hi. pose proof (number_in _ _ _ Hi). destruct p; done || lia.
Qed.

(** A reader that waits for a writer. *)
Lemma rwlock_correct_witness :
  exists s, rtc lock_step (start 2) s /\ s.(sy_threads) = [Writing; WaitRead] /\
    ((exists j, s.(sy_threads) !! j = Some Reading \/ s.(sy_threads) !! j = Some Writing) \/
     (exists j, (s.(sy_threads) !! j = Some WokenRead \/ s.(sy_threads) !! j = Some WokenWrite) /\ gets_lock s j)).
Proof.
  assert (rtc lock_step (start 2) (mk_system (mk_rw RWLOCK_VALID 0 1 1 0) [Writing; WaitRead])) as Hr.
  { apply (rtc_l _ _ (mk_system (mk_rw RWLOCK_VALID 0 1 0 0) [Writing; Outside])); [exact (st_wrlock rwl_init [Outside; Outside] 0 _ (Returns 0) eq_refl eq_refl)|].
    apply rtc_once. exact (st_rdlock (mk_rw RWLOCK_VALID 0 1 0 0) [Writing; Outside] 1 _ Waits eq_refl eq_refl). }
  eexists. split; [exact Hr|]. split; [reflexivity|]. destruct (rwlock_correct 2 _ Hr) as (_ & _ & _ & Hw & _). apply (Hw 1%nat). left. reflexivity.
Defined.
