(* ===== verification/Keyhash.v ===== *)
(** * keyhash.c: the hash function of every table *)

From S2P Require Import Prelude.
From Stdlib Require Import ZArith Lia Bool String Ascii.
From stdpp Require Import base tactics list numbers.
Open Scope Z_scope.

Definition FNV_32_PRIME : Z := 16777619.
Definition FVN_32_OFFSET : Z := 2166136261.

(** [hash += (hash<<1) + (hash<<4) + (hash<<7) + (hash<<8) + (hash<<24)] on a
    [uint32_t]: every shift and the sum wrap. *)
Definition fnv_mul (hash : Z) : Z :=
  u32 (hash + u32 (u32 (Z.shiftl hash 1) + u32 (Z.shiftl hash 4)
        + u32 (Z.shiftl hash 7) + u32 (Z.shiftl hash 8) + u32 (Z.shiftl hash 24))).

Definition fnv_step (hash : Z) (c : Z) : Z := Z.lxor (fnv_mul hash) c.

(** [keyhash(p, len, hash)] over the [len] bytes [p]. *)
Definition keyhash (p : list Z) (hash : Z) : Z :=
  fold_left fnv_step p (if hash =? 0 then FVN_32_OFFSET else hash).

Definition keyhashuc_upper (c : Z) : Z :=
  if (97 <=? c) && (c <=? 122) then c - (97 - 65) else c.

Definition keyhashuc (p : list Z) (hash : Z) : Z :=
  fold_left (fun h u => Z.lxor (fnv_mul h) (keyhashuc_upper u)) p
            (if hash =? 0 then FVN_32_OFFSET else hash).

(** * Lemmas *)

(** The multiplication the shifts stand for. *)
Lemma fnv_mul_prime h : fnv_mul h = u32 (h * FNV_32_PRIME).
Proof.
  unfold fnv_mul, FNV_32_PRIME. rewrite !Z.shiftl_mul_pow2 by lia.
  unfold u32. change (2 ^ 32) with 4294967296. Z.div_mod_to_equations. lia.
Qed.

Lemma fnv_mul_range h : 0 <= fnv_mul h < 2 ^ 32.
Proof. apply u32_range. Qed.

Lemma fnv_step_range h c : is_byte c -> 0 <= fnv_step h c < 2 ^ 32.
Proof. intros. apply lxor_byte_range; [apply fnv_mul_range|done]. Qed.

Lemma fold_fnv_range p h :
  bytes_ok p -> 0 <= h < 2 ^ 32 -> 0 <= fold_left fnv_step p h < 2 ^ 32.
Proof.
  intros Hp. revert h. induction Hp as [|c p Hc Hp IH]; intros h Hh; simpl; [done|].
  apply IH, fnv_step_range, Hc.
Qed.

Lemma keyhash_range p hash :
  bytes_ok p -> 0 <= hash < 2 ^ 32 -> 0 <= keyhash p hash < 2 ^ 32.
Proof.
  intros. unfold keyhash. apply fold_fnv_range; [done|].
  destruct (hash =? 0); [|done]. unfold FVN_32_OFFSET. lia.
Qed.

Lemma keyhashuc_upper_toupper c : keyhashuc_upper c = toupper c.
Proof. unfold keyhashuc_upper, toupper, islower. split_if; lia. Qed.

Lemma toupper_byte c : is_byte c -> is_byte (toupper c).
Proof. unfold is_byte, toupper, islower. split_if; lia. Qed.

Lemma keyhashuc_map p hash : keyhashuc p hash = keyhash (map toupper p) hash.
Proof.
  unfold keyhashuc, keyhash. generalize (if hash =? 0 then FVN_32_OFFSET else hash).
  induction p as [|c p IH]; intros h; simpl; [done|].
  rewrite IH, keyhashuc_upper_toupper. done.
Qed.

(** Hashing in two calls is hashing the concatenation, unless the intermediate
    value is 0, which [keyhash] takes for "no previous hash". *)
Lemma keyhash_continue a b :
  keyhash a 0 <> 0 -> keyhash b (keyhash a 0) = keyhash (a ++ b) 0.
Proof.
  intros Hne. unfold keyhash at 1. destruct (keyhash a 0 =? 0) eqn:E; [lia|].
  unfold keyhash. simpl. by rewrite fold_left_app.
Qed.

Lemma map_toupper_tolower a b :
  map toupper a = map toupper b <-> map tolower a = map tolower b.
Proof.
  assert (forall x y, toupper x = toupper y <-> tolower x = tolower y) as Hc.
  { intros x y. unfold toupper, tolower, islower, isupper.
    repeat split_if; lia. }
  revert b. induction a as [|x a IH]; intros [|y b]; simpl; try (split; congruence).
  specialize (IH b). specialize (Hc x y). split; intros [=]; f_equal; tauto.
Qed.

(** * Properties *)

(** The reference definition of FNV-1 on 32 bits: multiply by the prime, then
    xor the octet. *)
Fixpoint fnv1_spec (h : Z) (p : list Z) : Z :=
  match p with
  | [] => h
  | c :: t => fnv1_spec (Z.lxor (h * 16777619 mod 2 ^ 32) c) t
  end.

(** [keyhash] computes the FNV-1 hash of its input (multiplication first,
    then exclusive or), starting from the 32-bit offset basis when no previous
    hash is given: the shift-and-add form used for speed is the multiplication
    by the FNV prime modulo 2^32. *)
Theorem keyhash_is_fnv1 p hash :
  keyhash p hash = fnv1_spec (if hash =? 0 then 2166136261 else hash) p.
Proof.
  unfold keyhash. change FVN_32_OFFSET with 2166136261.
  generalize (if hash =? 0 then 2166136261 else hash).
  induction p as [|c p IH]; intros h; simpl; [done|].
  rewrite IH. unfold fnv_step. by rewrite fnv_mul_prime.
Qed.

(** [keyhashuc] of two callsigns that differ only in letter case is the
    same, and it is [keyhash] of the upper-case text: a table keyed with
    [keyhashuc] is case insensitive, and a key stored in upper case with
    [keyhash] is found with [keyhashuc]. *)
Theorem keyhashuc_case_insensitive a b hash :
  caseeq a b = true ->
  keyhashuc a hash = keyhashuc b hash /\ keyhashuc a hash = keyhash (map toupper b) hash.
Proof.
  intros H%bool_decide_eq_true. apply map_toupper_tolower in H.
  rewrite !keyhashuc_map, H. done.
Qed.

Lemma keyhashuc_case_insensitive_witness :
  keyhashuc (str "oh7lzb-1") 0 = keyhashuc (str "OH7LZB-1") 0 /\
  keyhashuc (str "oh7lzb-1") 0 = keyhash (map toupper (str "OH7LZB-1")) 0.
Proof. apply keyhashuc_case_insensitive. vm_compute. reflexivity. Defined.
