(* ===== verification/Types.v ===== *)
(** * worker.h: packet buffers, clients and the drop reasons

    The data of the program that several components share: the packet type and
    flag bits, the reasons for dropping an incoming packet, the packet buffer
    and the client.  A pointer into a packet's [data] is its offset from the
    start of [data]; NULL is [None]. *)

From S2P Require Import Prelude.
From Stdlib Require Import ZArith Lia Bool String SpecFloat.
From stdpp Require Import base tactics list gmap numbers.
Open Scope Z_scope.

Definition CALLSIGNLEN_MIN : Z := 3.
Definition CALLSIGNLEN_MAX : Z := 9.
Definition PACKETLEN_MIN : Z := 10.
Definition PACKETLEN_MAX : Z := 512.
Definition PACKETLEN_MAX_SMALL : Z := 100.
Definition PACKETLEN_MAX_MEDIUM : Z := 180.
Definition PACKETLEN_MAX_LARGE : Z := PACKETLEN_MAX.

(** ** Packet type bits ([packettype]) *)

Definition T_POSITION : Z := 1.
Definition T_OBJECT : Z := 2.
Definition T_ITEM : Z := 4.
Definition T_MESSAGE : Z := 8.
Definition T_NWS : Z := 16.
Definition T_WX : Z := 32.
Definition T_TELEMETRY : Z := 64.
Definition T_QUERY : Z := 128.
Definition T_STATUS : Z := 256.
Definition T_USERDEF : Z := 512.
Definition T_CWOP : Z := 1024.
Definition T_STATCAPA : Z := 2048.
Definition T_3RDPARTY : Z := 4096.
Definition T_ALL : Z := 32768.

(** ** Packet flags *)

Definition F_DUPE : Z := 1.
Definition F_HASPOS : Z := 2.
Definition F_HAS_TCPIP : Z := 4.
Definition F_FROM_UPSTR : Z := 8.
Definition F_FROM_DOWNSTR : Z := 16.

(** [v & mask] used as a condition. *)
Definition has (v mask : Z) : bool := negb (Z.land v mask =? 0).

(** ** Reasons for dropping an incoming packet *)

Definition INERR_UNKNOWN : Z := 0.
Definition INERR_NO_COLON : Z := -1.
Definition INERR_NO_DST : Z := -2.
Definition INERR_NO_PATH : Z := -3.
Definition INERR_INV_SRCCALL : Z := -4.
Definition INERR_NO_BODY : Z := -5.
Definition INERR_INV_DSTCALL : Z := -6.
Definition INERR_DISALLOW_UNVERIFIED : Z := -7.
Definition INERR_DISALLOW_UNVERIFIED_PATH : Z := -8.
Definition INERR_NOGATE : Z := -9.
Definition INERR_3RD_PARTY_IP : Z := -10.
Definition INERR_INV_3RD_PARTY : Z := -11.
Definition INERR_GENERAL_QUERY : Z := -12.
Definition INERR_OUT_OF_PBUFS : Z := -13.
Definition INERR_CLASS_FAIL : Z := -14.
Definition INERR_Q_BUG : Z := -15.
Definition INERR_Q_DROP : Z := -16.
Definition INERR_SHORT_PACKET : Z := -17.
Definition INERR_LONG_PACKET : Z := -18.
Definition INERR_INV_PATH_CALL : Z := -19.
Definition INERR_Q_QAX : Z := -20.
Definition INERR_Q_QAZ : Z := -21.
Definition INERR_Q_QPATH_MYCALL : Z := -22.
Definition INERR_Q_QPATH_CALL_TWICE : Z := -23.
Definition INERR_Q_PATH_LOGIN_NOT_LAST : Z := -24.
Definition INERR_Q_PATH_CALL_IS_LOCAL_CLIENT : Z := -25.
Definition INERR_Q_PATH_CALL_IS_INVALID : Z := -26.
Definition INERR_Q_QAU_PATH_CALL_IS_SRCCALL : Z := -27.
Definition INERR_Q_NEWQ_BUFFER_SMALL : Z := -28.
Definition INERR_Q_NONVAL_MULTI_Q_CALLS : Z := -29.
Definition INERR_Q_I_NO_VIACALL : Z := -30.
Definition INERR_Q_DISALLOW_PROTOCOL : Z := -31.
Definition INERR_EMPTY : Z := -32.
Definition INERR_DIS_SRCCALL : Z := -33.
Definition INERR_DIS_DX : Z := -34.
Definition INERR_DIS_MSG_DST : Z := -35.
Definition INERR_DIS_IGATECALL : Z := -36.
Definition INERR_MIN : Z := -36.

(** ** Clients *)

Inductive CStateEnum : Set :=
  | CSTATE_INIT | CSTATE_UDP | CSTATE_LOGIN | CSTATE_LOGRESP
  | CSTATE_CONNECTED | CSTATE_COREPEER.

#[export] Instance CStateEnum_eq_dec : EqDecision CStateEnum.
Proof. solve_decision. Defined.

Definition CLFLAGS_INPORT : Z := 1.
Definition CLFLAGS_UPLINKPORT : Z := 2.
Definition CLFLAGS_UDPSUBMIT : Z := 4.
Definition CLFLAGS_PORT_RO : Z := 8.
Definition CLFLAGS_USERFILTEROK : Z := 16.
Definition CLFLAGS_FULLFEED : Z := 256.
Definition CLFLAGS_DUPEFEED : Z := 512.
Definition CLFLAGS_MESSAGEONLY : Z := 1024.
Definition CLFLAGS_CLIENTONLY : Z := 2048.
Definition CLFLAGS_IGATE : Z := 4096.
Definition CLFLAGS_UPLINKMULTI : Z := 8192.
Definition VALIDATED_WEAK : Z := 1.
Definition VALIDATED_STRONG : Z := 3.
Definition CLIENT_HEARD_BUCKETS : Z := 32.

(** An entry of a heard list.  [h_callsign] is the bytes [strncpy] stored. *)
Record client_heard_t := mk_heard {
  h_hash : Z;
  h_call_len : Z;
  h_last_heard : Z;
  h_callsign : list Z
}.

Definition set_h_last_heard (v : Z) (x : client_heard_t) : client_heard_t :=
  mk_heard (x.(h_hash)) (x.(h_call_len)) v (x.(h_callsign)).

(** A network client: the fields the packet path reads or writes.  [c_id] stands
    for the address of the structure, which the program compares. *)
Record client_t := mk_client {
  c_id : Z;
  c_fd : Z;
  c_state : CStateEnum;
  c_flags : Z;
  c_validated : Z;
  c_username : list Z;
  c_username_len : Z;
  c_addr_hex : list Z;
  c_quirks_mode : bool;
  c_no_tx : bool;
  c_loc_known : bool;
  c_heard : gmap Z (list client_heard_t);
  c_courtesy : gmap Z (list client_heard_t);
  c_heard_count : Z;
  c_courtesy_count : Z;
  c_lat : spec_float;
  c_lng : spec_float;
  c_cos_lat : spec_float
}.

Definition set_c_loc_known (v : bool) (x : client_t) : client_t :=
  mk_client x.(c_id) x.(c_fd) x.(c_state) x.(c_flags) x.(c_validated) x.(c_username)
    x.(c_username_len) x.(c_addr_hex) x.(c_quirks_mode) x.(c_no_tx) v x.(c_heard)
    x.(c_courtesy) x.(c_heard_count) x.(c_courtesy_count) x.(c_lat) x.(c_lng)
    x.(c_cos_lat).
Definition set_c_heard (v : gmap Z (list client_heard_t)) (x : client_t) : client_t :=
  mk_client x.(c_id) x.(c_fd) x.(c_state) x.(c_flags) x.(c_validated) x.(c_username)
    x.(c_username_len) x.(c_addr_hex) x.(c_quirks_mode) x.(c_no_tx) x.(c_loc_known) v
    x.(c_courtesy) x.(c_heard_count) x.(c_courtesy_count) x.(c_lat) x.(c_lng)
    x.(c_cos_lat).
Definition set_c_courtesy (v : gmap Z (list client_heard_t)) (x : client_t) : client_t :=
  mk_client x.(c_id) x.(c_fd) x.(c_state) x.(c_flags) x.(c_validated) x.(c_username)
    x.(c_username_len) x.(c_addr_hex) x.(c_quirks_mode) x.(c_no_tx) x.(c_loc_known)
    x.(c_heard) v x.(c_heard_count) x.(c_courtesy_count) x.(c_lat) x.(c_lng)
    x.(c_cos_lat).
Definition set_c_heard_count (v : Z) (x : client_t) : client_t :=
  mk_client x.(c_id) x.(c_fd) x.(c_state) x.(c_flags) x.(c_validated) x.(c_username)
    x.(c_username_len) x.(c_addr_hex) x.(c_quirks_mode) x.(c_no_tx) x.(c_loc_known)
    x.(c_heard) x.(c_courtesy) v x.(c_courtesy_count) x.(c_lat) x.(c_lng)
    x.(c_cos_lat).
Definition set_c_courtesy_count (v : Z) (x : client_t) : client_t :=
  mk_client x.(c_id) x.(c_fd) x.(c_state) x.(c_flags) x.(c_validated) x.(c_username)
    x.(c_username_len) x.(c_addr_hex) x.(c_quirks_mode) x.(c_no_tx) x.(c_loc_known)
    x.(c_heard) x.(c_courtesy) x.(c_heard_count) v x.(c_lat) x.(c_lng)
    x.(c_cos_lat).
Definition set_c_lat (v : spec_float) (x : client_t) : client_t :=
  mk_client x.(c_id) x.(c_fd) x.(c_state) x.(c_flags) x.(c_validated) x.(c_username)
    x.(c_username_len) x.(c_addr_hex) x.(c_quirks_mode) x.(c_no_tx) x.(c_loc_known)
    x.(c_heard) x.(c_courtesy) x.(c_heard_count) x.(c_courtesy_count) v x.(c_lng)
    x.(c_cos_lat).
Definition set_c_lng (v : spec_float) (x : client_t) : client_t :=
  mk_client x.(c_id) x.(c_fd) x.(c_state) x.(c_flags) x.(c_validated) x.(c_username)
    x.(c_username_len) x.(c_addr_hex) x.(c_quirks_mode) x.(c_no_tx) x.(c_loc_known)
    x.(c_heard) x.(c_courtesy) x.(c_heard_count) x.(c_courtesy_count) x.(c_lat) v
    x.(c_cos_lat).
Definition set_c_cos_lat (v : spec_float) (x : client_t) : client_t :=
  mk_client x.(c_id) x.(c_fd) x.(c_state) x.(c_flags) x.(c_validated) x.(c_username)
    x.(c_username_len) x.(c_addr_hex) x.(c_quirks_mode) x.(c_no_tx) x.(c_loc_known)
    x.(c_heard) x.(c_courtesy) x.(c_heard_count) x.(c_courtesy_count) x.(c_lat)
    x.(c_lng) v.

(** A packet buffer.  [pb_data] is the whole buffer: the packet, its CRLF and NUL,
    and whatever an earlier use left behind.  The first two bytes of [symbol]
    are a pair; the third is always NUL. *)
Record pbuf_t := mk_pbuf {
  pb_origin : Z;
  pb_srcname_hash : Z;
  pb_srccall_hash : Z;
  pb_dstname_hash : Z;
  pb_packettype : Z;
  pb_flags : Z;
  pb_srcname_len : Z;
  pb_dstcall_len : Z;
  pb_dstname_len : Z;
  pb_entrycall_len : Z;
  pb_seqnum : Z;
  pb_t : Z;
  pb_packet_len : Z;
  pb_buf_len : Z;
  pb_srccall_end : Z;
  pb_dstcall_end_or_ssid : Z;
  pb_dstcall_end : Z;
  pb_qconst_start : Z;
  pb_info_start : Z;
  pb_srcname : Z;
  pb_dstname : option Z;
  pb_lat : spec_float;
  pb_lng : spec_float;
  pb_cos_lat : spec_float;
  pb_symbol : Z * Z;
  pb_is_free : bool;
  pb_data : list Z
}.

Definition set_pb_srcname_hash (v : Z) (x : pbuf_t) : pbuf_t :=
  mk_pbuf x.(pb_origin) v x.(pb_srccall_hash) x.(pb_dstname_hash) x.(pb_packettype)
    x.(pb_flags) x.(pb_srcname_len) x.(pb_dstcall_len) x.(pb_dstname_len)
    x.(pb_entrycall_len) x.(pb_seqnum) x.(pb_t) x.(pb_packet_len) x.(pb_buf_len)
    x.(pb_srccall_end) x.(pb_dstcall_end_or_ssid) x.(pb_dstcall_end) x.(pb_qconst_start)
    x.(pb_info_start) x.(pb_srcname) x.(pb_dstname) x.(pb_lat) x.(pb_lng)
    x.(pb_cos_lat) x.(pb_symbol) x.(pb_is_free) x.(pb_data).
Definition set_pb_srccall_hash (v : Z) (x : pbuf_t) : pbuf_t :=
  mk_pbuf x.(pb_origin) x.(pb_srcname_hash) v x.(pb_dstname_hash) x.(pb_packettype)
    x.(pb_flags) x.(pb_srcname_len) x.(pb_dstcall_len) x.(pb_dstname_len)
    x.(pb_entrycall_len) x.(pb_seqnum) x.(pb_t) x.(pb_packet_len) x.(pb_buf_len)
    x.(pb_srccall_end) x.(pb_dstcall_end_or_ssid) x.(pb_dstcall_end) x.(pb_qconst_start)
    x.(pb_info_start) x.(pb_srcname) x.(pb_dstname) x.(pb_lat) x.(pb_lng)
    x.(pb_cos_lat) x.(pb_symbol) x.(pb_is_free) x.(pb_data).
Definition set_pb_dstname_hash (v : Z) (x : pbuf_t) : pbuf_t :=
  mk_pbuf x.(pb_origin) x.(pb_srcname_hash) x.(pb_srccall_hash) v x.(pb_packettype)
    x.(pb_flags) x.(pb_srcname_len) x.(pb_dstcall_len) x.(pb_dstname_len)
    x.(pb_entrycall_len) x.(pb_seqnum) x.(pb_t) x.(pb_packet_len) x.(pb_buf_len)
    x.(pb_srccall_end) x.(pb_dstcall_end_or_ssid) x.(pb_dstcall_end) x.(pb_qconst_start)
    x.(pb_info_start) x.(pb_srcname) x.(pb_dstname) x.(pb_lat) x.(pb_lng)
    x.(pb_cos_lat) x.(pb_symbol) x.(pb_is_free) x.(pb_data).
Definition set_pb_packettype (v : Z) (x : pbuf_t) : pbuf_t :=
  mk_pbuf x.(pb_origin) x.(pb_srcname_hash) x.(pb_srccall_hash) x.(pb_dstname_hash) v
    x.(pb_flags) x.(pb_srcname_len) x.(pb_dstcall_len) x.(pb_dstname_len)
    x.(pb_entrycall_len) x.(pb_seqnum) x.(pb_t) x.(pb_packet_len) x.(pb_buf_len)
    x.(pb_srccall_end) x.(pb_dstcall_end_or_ssid) x.(pb_dstcall_end) x.(pb_qconst_start)
    x.(pb_info_start) x.(pb_srcname) x.(pb_dstname) x.(pb_lat) x.(pb_lng)
    x.(pb_cos_lat) x.(pb_symbol) x.(pb_is_free) x.(pb_data).
Definition set_pb_flags (v : Z) (x : pbuf_t) : pbuf_t :=
  mk_pbuf x.(pb_origin) x.(pb_srcname_hash) x.(pb_srccall_hash) x.(pb_dstname_hash)
    x.(pb_packettype) v x.(pb_srcname_len) x.(pb_dstcall_len) x.(pb_dstname_len)
    x.(pb_entrycall_len) x.(pb_seqnum) x.(pb_t) x.(pb_packet_len) x.(pb_buf_len)
    x.(pb_srccall_end) x.(pb_dstcall_end_or_ssid) x.(pb_dstcall_end) x.(pb_qconst_start)
    x.(pb_info_start) x.(pb_srcname) x.(pb_dstname) x.(pb_lat) x.(pb_lng)
    x.(pb_cos_lat) x.(pb_symbol) x.(pb_is_free) x.(pb_data).
Definition set_pb_srcname_len (v : Z) (x : pbuf_t) : pbuf_t :=
  mk_pbuf x.(pb_origin) x.(pb_srcname_hash) x.(pb_srccall_hash) x.(pb_dstname_hash)
    x.(pb_packettype) x.(pb_flags) v x.(pb_dstcall_len) x.(pb_dstname_len)
    x.(pb_entrycall_len) x.(pb_seqnum) x.(pb_t) x.(pb_packet_len) x.(pb_buf_len)
    x.(pb_srccall_end) x.(pb_dstcall_end_or_ssid) x.(pb_dstcall_end) x.(pb_qconst_start)
    x.(pb_info_start) x.(pb_srcname) x.(pb_dstname) x.(pb_lat) x.(pb_lng)
    x.(pb_cos_lat) x.(pb_symbol) x.(pb_is_free) x.(pb_data).
Definition set_pb_dstname_len (v : Z) (x : pbuf_t) : pbuf_t :=
  mk_pbuf x.(pb_origin) x.(pb_srcname_hash) x.(pb_srccall_hash) x.(pb_dstname_hash)
    x.(pb_packettype) x.(pb_flags) x.(pb_srcname_len) x.(pb_dstcall_len) v
    x.(pb_entrycall_len) x.(pb_seqnum) x.(pb_t) x.(pb_packet_len) x.(pb_buf_len)
    x.(pb_srccall_end) x.(pb_dstcall_end_or_ssid) x.(pb_dstcall_end) x.(pb_qconst_start)
    x.(pb_info_start) x.(pb_srcname) x.(pb_dstname) x.(pb_lat) x.(pb_lng)
    x.(pb_cos_lat) x.(pb_symbol) x.(pb_is_free) x.(pb_data).
Definition set_pb_entrycall_len (v : Z) (x : pbuf_t) : pbuf_t :=
  mk_pbuf x.(pb_origin) x.(pb_srcname_hash) x.(pb_srccall_hash) x.(pb_dstname_hash)
    x.(pb_packettype) x.(pb_flags) x.(pb_srcname_len) x.(pb_dstcall_len)
    x.(pb_dstname_len) v x.(pb_seqnum) x.(pb_t) x.(pb_packet_len) x.(pb_buf_len)
    x.(pb_srccall_end) x.(pb_dstcall_end_or_ssid) x.(pb_dstcall_end) x.(pb_qconst_start)
    x.(pb_info_start) x.(pb_srcname) x.(pb_dstname) x.(pb_lat) x.(pb_lng)
    x.(pb_cos_lat) x.(pb_symbol) x.(pb_is_free) x.(pb_data).
Definition set_pb_seqnum (v : Z) (x : pbuf_t) : pbuf_t :=
  mk_pbuf x.(pb_origin) x.(pb_srcname_hash) x.(pb_srccall_hash) x.(pb_dstname_hash)
    x.(pb_packettype) x.(pb_flags) x.(pb_srcname_len) x.(pb_dstcall_len)
    x.(pb_dstname_len) x.(pb_entrycall_len) v x.(pb_t) x.(pb_packet_len)
    x.(pb_buf_len) x.(pb_srccall_end) x.(pb_dstcall_end_or_ssid) x.(pb_dstcall_end)
    x.(pb_qconst_start) x.(pb_info_start) x.(pb_srcname) x.(pb_dstname) x.(pb_lat)
    x.(pb_lng) x.(pb_cos_lat) x.(pb_symbol) x.(pb_is_free) x.(pb_data).
Definition set_pb_srcname (v : Z) (x : pbuf_t) : pbuf_t :=
  mk_pbuf x.(pb_origin) x.(pb_srcname_hash) x.(pb_srccall_hash) x.(pb_dstname_hash)
    x.(pb_packettype) x.(pb_flags) x.(pb_srcname_len) x.(pb_dstcall_len)
    x.(pb_dstname_len) x.(pb_entrycall_len) x.(pb_seqnum) x.(pb_t) x.(pb_packet_len)
    x.(pb_buf_len) x.(pb_srccall_end) x.(pb_dstcall_end_or_ssid) x.(pb_dstcall_end)
    x.(pb_qconst_start) x.(pb_info_start) v x.(pb_dstname) x.(pb_lat) x.(pb_lng)
    x.(pb_cos_lat) x.(pb_symbol) x.(pb_is_free) x.(pb_data).
Definition set_pb_dstname (v : option Z) (x : pbuf_t) : pbuf_t :=
  mk_pbuf x.(pb_origin) x.(pb_srcname_hash) x.(pb_srccall_hash) x.(pb_dstname_hash)
    x.(pb_packettype) x.(pb_flags) x.(pb_srcname_len) x.(pb_dstcall_len)
    x.(pb_dstname_len) x.(pb_entrycall_len) x.(pb_seqnum) x.(pb_t) x.(pb_packet_len)
    x.(pb_buf_len) x.(pb_srccall_end) x.(pb_dstcall_end_or_ssid) x.(pb_dstcall_end)
    x.(pb_qconst_start) x.(pb_info_start) x.(pb_srcname) v x.(pb_lat) x.(pb_lng)
    x.(pb_cos_lat) x.(pb_symbol) x.(pb_is_free) x.(pb_data).
Definition set_pb_lat (v : spec_float) (x : pbuf_t) : pbuf_t :=
  mk_pbuf x.(pb_origin) x.(pb_srcname_hash) x.(pb_srccall_hash) x.(pb_dstname_hash)
    x.(pb_packettype) x.(pb_flags) x.(pb_srcname_len) x.(pb_dstcall_len)
    x.(pb_dstname_len) x.(pb_entrycall_len) x.(pb_seqnum) x.(pb_t) x.(pb_packet_len)
    x.(pb_buf_len) x.(pb_srccall_end) x.(pb_dstcall_end_or_ssid) x.(pb_dstcall_end)
    x.(pb_qconst_start) x.(pb_info_start) x.(pb_srcname) x.(pb_dstname) v x.(pb_lng)
    x.(pb_cos_lat) x.(pb_symbol) x.(pb_is_free) x.(pb_data).
Definition set_pb_lng (v : spec_float) (x : pbuf_t) : pbuf_t :=
  mk_pbuf x.(pb_origin) x.(pb_srcname_hash) x.(pb_srccall_hash) x.(pb_dstname_hash)
    x.(pb_packettype) x.(pb_flags) x.(pb_srcname_len) x.(pb_dstcall_len)
    x.(pb_dstname_len) x.(pb_entrycall_len) x.(pb_seqnum) x.(pb_t) x.(pb_packet_len)
    x.(pb_buf_len) x.(pb_srccall_end) x.(pb_dstcall_end_or_ssid) x.(pb_dstcall_end)
    x.(pb_qconst_start) x.(pb_info_start) x.(pb_srcname) x.(pb_dstname) x.(pb_lat) v
    x.(pb_cos_lat) x.(pb_symbol) x.(pb_is_free) x.(pb_data).
Definition set_pb_cos_lat (v : spec_float) (x : pbuf_t) : pbuf_t :=
  mk_pbuf x.(pb_origin) x.(pb_srcname_hash) x.(pb_srccall_hash) x.(pb_dstname_hash)
    x.(pb_packettype) x.(pb_flags) x.(pb_srcname_len) x.(pb_dstcall_len)
    x.(pb_dstname_len) x.(pb_entrycall_len) x.(pb_seqnum) x.(pb_t) x.(pb_packet_len)
    x.(pb_buf_len) x.(pb_srccall_end) x.(pb_dstcall_end_or_ssid) x.(pb_dstcall_end)
    x.(pb_qconst_start) x.(pb_info_start) x.(pb_srcname) x.(pb_dstname) x.(pb_lat)
    x.(pb_lng) v x.(pb_symbol) x.(pb_is_free) x.(pb_data).
Definition set_pb_symbol (v : Z * Z) (x : pbuf_t) : pbuf_t :=
  mk_pbuf x.(pb_origin) x.(pb_srcname_hash) x.(pb_srccall_hash) x.(pb_dstname_hash)
    x.(pb_packettype) x.(pb_flags) x.(pb_srcname_len) x.(pb_dstcall_len)
    x.(pb_dstname_len) x.(pb_entrycall_len) x.(pb_seqnum) x.(pb_t) x.(pb_packet_len)
    x.(pb_buf_len) x.(pb_srccall_end) x.(pb_dstcall_end_or_ssid) x.(pb_dstcall_end)
    x.(pb_qconst_start) x.(pb_info_start) x.(pb_srcname) x.(pb_dstname) x.(pb_lat)
    x.(pb_lng) x.(pb_cos_lat) v x.(pb_is_free) x.(pb_data).
Definition set_pb_buf_len (v : Z) (x : pbuf_t) : pbuf_t :=
  mk_pbuf x.(pb_origin) x.(pb_srcname_hash) x.(pb_srccall_hash) x.(pb_dstname_hash) x.(pb_packettype)
    x.(pb_flags) x.(pb_srcname_len) x.(pb_dstcall_len) x.(pb_dstname_len)
    x.(pb_entrycall_len) x.(pb_seqnum) x.(pb_t) x.(pb_packet_len) v
    x.(pb_srccall_end) x.(pb_dstcall_end_or_ssid) x.(pb_dstcall_end) x.(pb_qconst_start)
    x.(pb_info_start) x.(pb_srcname) x.(pb_dstname) x.(pb_lat) x.(pb_lng)
    x.(pb_cos_lat) x.(pb_symbol) x.(pb_is_free) x.(pb_data).

Definition set_pb_data (v : list Z) (x : pbuf_t) : pbuf_t :=
  mk_pbuf x.(pb_origin) x.(pb_srcname_hash) x.(pb_srccall_hash) x.(pb_dstname_hash) x.(pb_packettype)
    x.(pb_flags) x.(pb_srcname_len) x.(pb_dstcall_len) x.(pb_dstname_len)
    x.(pb_entrycall_len) x.(pb_seqnum) x.(pb_t) x.(pb_packet_len) x.(pb_buf_len)
    x.(pb_srccall_end) x.(pb_dstcall_end_or_ssid) x.(pb_dstcall_end) x.(pb_qconst_start)
    x.(pb_info_start) x.(pb_srcname) x.(pb_dstname) x.(pb_lat) x.(pb_lng)
    x.(pb_cos_lat) x.(pb_symbol) x.(pb_is_free) v.

Definition set_pb_is_free (v : bool) (x : pbuf_t) : pbuf_t :=
  mk_pbuf x.(pb_origin) x.(pb_srcname_hash) x.(pb_srccall_hash) x.(pb_dstname_hash)
    x.(pb_packettype) x.(pb_flags) x.(pb_srcname_len) x.(pb_dstcall_len)
    x.(pb_dstname_len) x.(pb_entrycall_len) x.(pb_seqnum) x.(pb_t) x.(pb_packet_len)
    x.(pb_buf_len) x.(pb_srccall_end) x.(pb_dstcall_end_or_ssid) x.(pb_dstcall_end)
    x.(pb_qconst_start) x.(pb_info_start) x.(pb_srcname) x.(pb_dstname) x.(pb_lat)
    x.(pb_lng) x.(pb_cos_lat) x.(pb_symbol) v x.(pb_data).

(** [pb->packettype |= T_x] and [pb->flags |= F_x]. *)
Definition add_type (mask : Z) (pb : pbuf_t) : pbuf_t :=
  set_pb_packettype (Z.lor pb.(pb_packettype) mask) pb.
Definition add_flag (mask : Z) (pb : pbuf_t) : pbuf_t :=
  set_pb_flags (Z.lor pb.(pb_flags) mask) pb.

(** [memset(pb, 0, sizeof( *pb))] followed by setting [buf_len]: the data bytes
    after the first keep their old content. *)
Definition pbuf_zero (buf_len : Z) (data : list Z) : pbuf_t :=
  mk_pbuf 0 0 0 0 0 0 0 0 0 0 0 0 0 buf_len 0 0 0 0 0 0 None
    (S754_zero false) (S754_zero false) (S754_zero false) (0, 0) false
    (match data with [] => [] | _ :: t => 0 :: t end).

(** ** Configuration and clock

    The global variables the packet path reads. *)

Record config := mk_config {
  serverid : list Z;
  q_protocol_id : Z;
  disallow_other_protocol_id : bool;
  disallow_unverified : bool;
  dupefilter_storetime : Z;
  lastposition_storetime : Z;
  heard_list_storetime : Z;
  courtesy_list_storetime : Z;
  pbuf_global_expiration : Z;
  pbuf_global_dupe_expiration : Z;
  have_filtered_listeners : bool
}.

(** The values config.c initialises the variables with. *)
Definition default_config (id : list Z) : config :=
  mk_config id 65 true true 30 (24 * 60 * 60) (3 * 60 * 60) (30 * 60) 60 60 true.

(** * Lemmas on flag words *)

Lemma has_lor_self v m : m <> 0 -> has (Z.lor v m) m = true.
Proof.
  intros Hm. unfold has. replace (Z.land (Z.lor v m) m) with m.
  - destruct (m =? 0) eqn:E; [lia|done].
  - symmetry. apply Z.bits_inj'. intros i _. rewrite Z.land_spec, Z.lor_spec.
    destruct (Z.testbit m i); by rewrite ?orb_true_r, ?andb_false_r.
Qed.

Lemma has_lor v a m : has (Z.lor v a) m = has v m || has a m.
Proof.
  unfold has. replace (Z.land (Z.lor v a) m) with (Z.lor (Z.land v m) (Z.land a m)).
  - destruct (Z.land v m =? 0) eqn:E1, (Z.land a m =? 0) eqn:E2; simpl.
    + apply Z.eqb_eq in E1, E2. by rewrite E1, E2.
    + apply Z.eqb_eq in E1. rewrite E1, Z.lor_0_l. by rewrite E2.
    + apply Z.eqb_eq in E2. rewrite E2, Z.lor_0_r. by rewrite E1.
    + destruct (Z.lor (Z.land v m) (Z.land a m) =? 0) eqn:E; [|done].
      apply Z.eqb_eq, Z.lor_eq_0_iff in E. lia.
  - apply Z.bits_inj'. intros i _. rewrite Z.lor_spec, !Z.land_spec, Z.lor_spec.
    by destruct (Z.testbit v i), (Z.testbit a i), (Z.testbit m i).
Qed.

(** * Sample data *)

(** A server with the default settings, and a connected client. *)
Definition demo_cfg : config := default_config (str "T2TEST").

Definition demo_client (name : string) (flags validated : Z) : client_t :=
  mk_client 1 5 CSTATE_CONNECTED flags validated (str name) (zlen (str name)) (str "7F000001")
    false false false ∅ ∅ 0 0 (S754_zero false) (S754_zero false) (S754_zero false).

(** A packet of a station, as the input side stores it, before its hashes are set. *)
Definition demo_pbuf (src info : string) : pbuf_t :=
  let n := zlen (str src) in
  let d := str src ++ str ">APRS,TCPIP*,qAC,T2TEST:" ++ str info ++ [13; 10] in
  mk_pbuf 1 0 0 0 0 F_FROM_DOWNSTR n 4 0 0 0 1000 (zlen d) (zlen d) n (n + 5) (n + 5) (n + 13) (n + 24)
    0 None (S754_zero false) (S754_zero false) (S754_zero false) (0, 0) false d.
