(* ===== verification/Cfloat.v ===== *)
(** * Floating point and [sscanf] of the C library

    [float] is IEEE binary32 and [double] binary64, evaluated without excess
    precision; both are [spec_float]s in canonical form, so a conversion is a
    rounding to the format.  The [sscanf] conversions are those the position
    parsers use, on the bytes of a C string. *)

From S2P Require Import Prelude.
From Stdlib Require Import ZArith Lia Bool String SpecFloat.
From stdpp Require Import base tactics list numbers.
Open Scope Z_scope.

Definition round_to (prec emax : Z) (x : spec_float) : spec_float :=
  match x with
  | S754_finite s m e => binary_normalize prec emax (if s then Zneg m else Zpos m) e s
  | _ => x
  end.

Definition to_f32 : spec_float -> spec_float := round_to 24 128.
Definition to_f64 : spec_float -> spec_float := round_to 53 1024.

Definition f32_of_Z (z : Z) : spec_float := binary_normalize 24 128 z 0 false.
Definition f64_of_Z (z : Z) : spec_float := binary_normalize 53 1024 z 0 false.

Definition f32_add := SFadd 24 128.
Definition f32_sub := SFsub 24 128.
Definition f32_div := SFdiv 24 128.
Definition f64_add := SFadd 53 1024.
Definition f64_sub := SFsub 53 1024.
Definition f64_mul := SFmul 53 1024.
Definition f64_div := SFdiv 53 1024.

(** The double nearest to [n / 10^k]: the value of a decimal literal. *)
Definition f64_dec (n : Z) (k : nat) : spec_float := f64_div (f64_of_Z n) (f64_of_Z (10 ^ Z.of_nat k)).

(** [M_PI] *)
Definition M_PI : spec_float := S754_finite false 7074237752028440 (-51).

(** ** sscanf *)

Definition isspace (c : Z) : bool := (c =? 32) || ((9 <=? c) && (c <=? 13)).

Fixpoint skip_space (s : list Z) : list Z :=
  match s with
  | c :: t => if isspace c then skip_space t else s
  | [] => []
  end.

(** At most [n] digits: their value, how many there were, and the rest. *)
Fixpoint digits (n : nat) (s : list Z) (acc : Z) : Z * nat * list Z :=
  match n, s with
  | S n', c :: t => if isdigit c then let '(v, k, r) := digits n' t (acc * 10 + (c - 48)) in (v, S k, r)
                    else (acc, O, s)
  | _, _ => (acc, O, s)
  end.

(** [%<width>d]: white space, then at most [width] characters of an optional sign
    and digits. *)
Definition scan_d (width : nat) (s : list Z) : option (Z * list Z) :=
  let s := skip_space s in
  let '(neg, w, s) := match s with
                      | c :: t => if c =? 45 then (true, pred width, t)
                                  else if c =? 43 then (false, pred width, t) else (false, width, s)
                      | [] => (false, width, s)
                      end in
  let '(v, k, r) := digits w s 0 in
  match k with O => None | S _ => Some ((if (neg : bool) then - v else v), r) end.

(** [%<width>u]: the same text, as an [unsigned int]. *)
Definition scan_u (width : nat) (s : list Z) : option (Z * list Z) :=
  '(v, r) ← scan_d width s; Some (u32 v, r).

(** [%c] and a literal character. *)
Definition scan_c (s : list Z) : option (Z * list Z) :=
  match s with c :: t => Some (c, t) | [] => None end.
Definition scan_lit (x : Z) (s : list Z) : option (list Z) :=
  match s with c :: t => if c =? x then Some t else None | [] => None end.

(** The float nearest to [m * 10^e]. *)
Definition f32_decimal (neg : bool) (m e : Z) : spec_float :=
  match m with
  | Zpos p =>
      if 0 <=? e then binary_normalize 24 128 ((if neg then Zneg p else Zpos p) * 10 ^ e) 0 neg
      else match 10 ^ (- e) with
           | Zpos q => SFdiv 24 128 (S754_finite neg p 0) (S754_finite false q 0)
           | _ => S754_nan
           end
  | _ => S754_zero neg
  end.

Definition hexval (c : Z) : option Z :=
  if isdigit c then Some (c - 48)
  else if (97 <=? c) && (c <=? 102) then Some (c - 87)
  else if (65 <=? c) && (c <=? 70) then Some (c - 55) else None.

Fixpoint hexdigits (s : list Z) (acc : Z) : Z * nat * list Z :=
  match s with
  | c :: t => match hexval c with
              | Some v => let '(x, k, r) := hexdigits t (acc * 16 + v) in (x, S k, r)
              | None => (acc, O, s)
              end
  | [] => (acc, O, s)
  end.

(** An exponent: the marker, an optional sign and at least one digit; [None] when
    the marker is there but the digits are not. *)
Definition scan_exp (lower upper : Z) (s : list Z) : option (Z * list Z) :=
  match s with
  | c :: t => if (c =? lower) || (c =? upper) then
                let '(neg, t) := match t with
                                 | x :: u => if x =? 45 then (true, u) else if x =? 43 then (false, u) else (false, t)
                                 | [] => (false, t) end in
                let '(v, k, r) := digits (length t) t 0 in
                match k with O => None | S _ => Some ((if (neg : bool) then - v else v), r) end
              else Some (0, s)
  | [] => Some (0, s)
  end.

Definition prefix_ci (w s : list Z) : bool := caseeq w (take (length w) s).

(** [%f]: a decimal or hexadecimal number, an infinity or a NaN. *)
Definition scan_f (s : list Z) : option (spec_float * list Z) :=
  let s := skip_space s in
  let '(neg, s) := match s with
                   | c :: t => if c =? 45 then (true, t) else if c =? 43 then (false, t) else (false, s)
                   | [] => (false, s) end in
  if prefix_ci (str "inf") s then
    if prefix_ci (str "i") (drop 3 s)
    then if prefix_ci (str "inity") (drop 3 s) then Some (S754_infinity neg, drop 8 s) else None
    else Some (S754_infinity neg, drop 3 s)
  else if prefix_ci (str "nan") s then Some (S754_nan, drop 3 s)
  else if prefix_ci (str "0x") s then
    let '(v1, k1, r1) := hexdigits (drop 2 s) 0 in
    let '(v2, k2, r2) := match r1 with
                         | c :: t => if c =? 46 then hexdigits t v1 else (v1, O, r1)
                         | [] => (v1, O, r1) end in
    if (k1 + k2 =? 0)%nat then None
    else '(e, r) ← scan_exp 112 80 r2;
         Some (binary_normalize 24 128 (if neg then - v2 else v2) (e - 4 * Z.of_nat k2) neg, r)
  else
    let '(v1, k1, r1) := digits (length s) s 0 in
    let '(v2, k2, r2) := match r1 with
                         | c :: t => if c =? 46 then digits (length t) t v1 else (v1, O, r1)
                         | [] => (v1, O, r1) end in
    if (k1 + k2 =? 0)%nat then None
    else '(e, r) ← scan_exp 101 69 r2; Some (f32_decimal neg v2 (e - Z.of_nat k2), r).

(** ** Reading back what was printed *)

(** [%0<w>u] of a number below [10^w]. *)
Fixpoint print_u (w : nat) (n : Z) : list Z :=
  match w with
  | O => []
  | S w' => print_u w' (n / 10) ++ [48 + n mod 10]
  end.

Lemma print_u_digit c : isdigit (48 + c mod 10) = true.
Proof. unfold isdigit. pose proof (Z.mod_pos_bound c 10). lia. Qed.

Lemma digits_print w n rest acc :
  0 <= n < 10 ^ Z.of_nat w ->
  digits w (print_u w n ++ rest) acc = (acc * 10 ^ Z.of_nat w + n, w, rest).
Proof.
  assert (forall w m n rest acc, 0 <= n < 10 ^ Z.of_nat w ->
    digits (w + m) (print_u w n ++ rest) acc =
    let '(v, k, r) := digits m rest (acc * 10 ^ Z.of_nat w + n) in (v, (w + k)%nat, r)) as Hgen.
  { clear. induction w as [|w IH]; intros m n rest acc Hn.
    - cbn [print_u app Nat.add]. change (10 ^ Z.of_nat 0) with 1 in *. replace (acc * 1 + n) with acc by lia.
      by destruct (digits m rest acc) as [[v k] r].
    - cbn [print_u]. rewrite <- app_assoc. cbn [app].
      replace (S w + m)%nat with (w + S m)%nat by lia.
      assert (10 ^ Z.of_nat (S w) = 10 * 10 ^ Z.of_nat w) as Hp
        by (rewrite Nat2Z.inj_succ, Z.pow_succ_r by lia; done).
      rewrite IH by (split; [apply Z.div_pos; lia|apply Z.div_lt_upper_bound; lia]).
      cbn [digits]. rewrite print_u_digit.
      replace ((acc * 10 ^ Z.of_nat w + n / 10) * 10 + (48 + n mod 10 - 48))
        with (acc * 10 ^ Z.of_nat (S w) + n)
        by (rewrite Hp; pose proof (Z.div_mod n 10); lia).
      destruct (digits m rest _) as [[v k] r]. f_equal. f_equal. lia. }
  intros Hn. specialize (Hgen w O n rest acc Hn). rewrite Nat.add_0_r in Hgen. rewrite Hgen.
  destruct rest; cbn [digits]; by rewrite Nat.add_0_r.
Qed.

(** Scanning a printed number gives it back, whatever follows. *)
Lemma scan_u_print w n rest :
  (0 < w)%nat -> 0 <= n < 10 ^ Z.of_nat w -> 10 ^ Z.of_nat w <= 2 ^ 32 ->
  scan_u w (print_u w n ++ rest) = Some (n, rest).
Proof.
  intros Hw Hn Hb. unfold scan_u, scan_d.
  assert (exists c t, print_u w n ++ rest = c :: t /\ isdigit c = true) as (c & t & E & Hc).
  { destruct (print_u w n) as [|c t] eqn:Ep.
    - destruct w as [|w]; [lia|]. cbn in Ep. by destruct (print_u w (n / 10)).
    - exists c, (t ++ rest). split; [done|].
      assert (Forall (fun c => isdigit c = true) (print_u w n)) as Hd.
      { clear. revert n. induction w as [|w IH]; intros n; cbn; [constructor|].
        apply Forall_app. split; [apply IH|]. constructor; [apply print_u_digit|constructor]. }
      rewrite Ep in Hd. by inversion Hd. }
  rewrite E. cbn [skip_space]. unfold isdigit in Hc.
  destruct (isspace c) eqn:Es; [unfold isspace in Es; lia|].
  destruct (c =? 45) eqn:E1; [lia|]. destruct (c =? 43) eqn:E2; [lia|].
  rewrite <- E, digits_print by done. destruct w as [|w]; [lia|]. cbn [mbind option_bind].
  by rewrite u32_small by lia.
Qed.
