(* ===== verification/Cfgfile.v ===== *)
(** * cfgfile.c: splitting lines into arguments, and reading the file

    Lines are C strings, without their NUL.  The splitting works in place in the
    C code; every byte is written at or before the place it was read from, so the
    functions here return what is left behind. *)

From S2P Require Import Prelude Cfloat.
From Stdlib Require Import ZArith Lia Bool String.
From stdpp Require Import base tactics list numbers.
Open Scope Z_scope.

Abbreviation ch_quote := 34 (only parsing).
Abbreviation LF := 10 (only parsing).
Abbreviation CR := 13 (only parsing).
Abbreviation TAB := 9 (only parsing).

(** ** Numbers and letters *)

Definition i64 (z : Z) : Z := (z + 2 ^ 63) mod 2 ^ 64 - 2 ^ 63.

(** [hatoll]; signed overflow is undefined. *)
Fixpoint hatoll_from (s : list Z) (res : Z) : option Z :=
  match s with
  | c :: t =>
      if isdigit c then
        let r := res * 10 + (c - 48) in
        if r <? 2 ^ 63 then hatoll_from t r else None
      else Some res
  | [] => Some res
  end.

Definition hatoll (s : list Z) : option Z := hatoll_from s 0.

Definition strlwr (s : list Z) : list Z := map tolower s.

(** [atoi] of digits; a value out of range is undefined. *)
Definition atoi_digits (s : list Z) : option Z :=
  let n := fold_left (fun a c => a * 10 + (c - 48)) s 0 in
  if n <? 2 ^ 31 then Some n else None.

(** [atoi]: white space, a sign and digits. *)
Fixpoint digits_of (s : list Z) : list Z :=
  match s with c :: t => if isdigit c then c :: digits_of t else [] | [] => [] end.

Definition atoi (s : list Z) : option Z :=
  match skip_space s with
  | c :: t =>
      if c =? ch_dash then
        let n := fold_left (fun a c => a * 10 + (c - 48)) (digits_of t) 0 in
        if n <=? 2 ^ 31 then Some (- n) else None
      else if c =? 43 then atoi_digits (digits_of t)
      else atoi_digits (digits_of (c :: t))
  | [] => Some 0
  end.

(** ** Directives with a value *)

Definition do_string (dest : list Z) (argv : list (list Z)) : list Z * Z :=
  match argv with _ :: v :: _ => (v, 0) | _ => (dest, -1) end.

Definition do_string_array (dest : list (list Z)) (argv : list (list Z)) : list (list Z) * Z :=
  match argv with _ :: v :: rest => (v :: rest, 0) | _ => (dest, -1) end.

Definition do_char (dest : Z) (argv : list (list Z)) : Z * Z :=
  match argv with [_; [c]] => (c, 0) | _ => (dest, -1) end.

Definition do_int (dest : Z) (argv : list (list Z)) : option (Z * Z) :=
  match argv with _ :: v :: _ => n ← atoi v; Some (n, 0) | _ => Some (dest, -1) end.

(** The seconds of a unit; other letters count for nothing. *)
Definition unit_seconds (c : Z) : Z :=
  let c := tolower c in
  if c =? 115 then 1 else if c =? 109 then 60 else if c =? 104 then 60 * 60 else if c =? 100 then 24 * 60 * 60 else 0.

(** [60 * i] in [int]s *)
Definition int_mul (a b : Z) : option Z := if (a * b <? 2 ^ 31) then Some (a * b) else None.

(** [parse_interval] (config.c): numbers with a unit each, and seconds at the end.
    [num] is the digits since the last letter. *)
Fixpoint interval_from (s num : list Z) (t : Z) : option Z :=
  match s with
  | [] => if bool_decide (num = []) then Some t else i ← atoi_digits num; Some (t + i)
  | c :: rest =>
      if isdigit c then interval_from rest (num ++ [c]) t
      else i ← atoi_digits num; v ← int_mul (unit_seconds c) i; interval_from rest [] (t + v)
  end.

Definition parse_interval (s : list Z) : option Z := interval_from s [] 0.

(** [do_interval] (config.c); the sum is stored in an [int]. *)
Definition do_interval (dest : Z) (argv : list (list Z)) : option (Z * Z) :=
  match argv with _ :: v :: _ => t ← parse_interval v; Some (i32 t, 0) | _ => Some (dest, -1) end.

Definition do_boolean (dest : bool) (argv : list (list Z)) : bool * Z :=
  match argv with
  | _ :: v :: _ =>
      if caseeq v (str "yes") || caseeq v (str "true") || caseeq v (str "on")
         || caseeq v (str "enable") || caseeq v (str "enabled") then (true, 0)
      else if caseeq v (str "no") || caseeq v (str "false") || caseeq v (str "off")
              || caseeq v (str "disable") || caseeq v (str "disabled") then (false, 0)
      else (dest, -1)
  | _ => (dest, -1)
  end.

(** ** Arguments *)

Definition isoctal (c : Z) : bool := (48 <=? c) && (c <=? 55).

(** [strtoul(str, &str, 8)] from a digit on, cut to a [char]: a value that does not
    fit is [ULONG_MAX]. *)
Fixpoint octal (s : list Z) (acc : Z) : Z * list Z :=
  match s with
  | c :: t => if isoctal c then octal t (acc * 8 + (c - 48)) else (acc, s)
  | [] => (acc, s)
  end.

Definition octal_char (s : list Z) : Z * list Z :=
  let '(v, r) := octal s 0 in (Z.min v (2 ^ 64 - 1) mod 256, r).

(** The character of an escape with one letter: n t v b r f a, or itself. *)
Definition escape (c : Z) : Z :=
  if c =? 110 then LF else if c =? 116 then TAB else if c =? 118 then 11 else if c =? 98 then 8
  else if c =? 114 then CR else if c =? 102 then 12 else if c =? 97 then 7 else c.

(** [parse_string] behind an opening quote: the text and what follows the closing
    quote; [None] is the null pointer for a backslash at the end.  The number
    after [\x] is looked for at the x, where there is none. *)
Fixpoint parse_string (fuel : nat) (s : list Z) : option (list Z * list Z) :=
  match fuel, s with
  | O, _ | _, [] => Some ([], [])
  | S fuel, c :: t =>
      if c =? ch_quote then Some ([], t)
      else if c =? ch_bslash then
        match t with
        | [] => None
        | e :: u =>
            let '(x, rest) := if e =? 120 then (0, t)
                              else if isoctal e then octal_char t else (escape e, u) in
            '(out, rest) ← parse_string fuel rest; Some (x :: out, rest)
        end
      else '(out, rest) ← parse_string fuel t; Some (c :: out, rest)
  end.

(** The characters up to a space. *)
Fixpoint word (s : list Z) : list Z * list Z :=
  match s with
  | c :: t => if isspace c then ([], s) else let '(w, r) := word t in (c :: w, r)
  | [] => ([], [])
  end.

(** The loop of [parse_args]; an argument is a C string, so it ends at a NUL.  The
    character behind an argument is overwritten. *)
Fixpoint args_from (n : nat) (s : list Z) : option (list (list Z)) :=
  match n with
  | O => Some []
  | S n =>
      match skip_space s with
      | [] => Some []
      | c :: t =>
          '(a, rest) ← (if c =? ch_quote then parse_string (length t) t else Some (word (c :: t)));
          l ← args_from n (tl rest);
          Some (cstr a :: l)
      end
  end.

(** [parse_args]: no arguments when a quoted string is not complete. *)
Definition parse_args (s : list Z) : list (list Z) := default [] (args_from 255 s).

(** [argstr(arg, argc, argv)]: the arguments with spaces between them, in a static
    buffer of [CFGLINE_LEN+1] bytes. *)
Definition CFGLINE_LEN : Z := 102400.

Definition strncat (s a : list Z) (n : Z) : list Z := s ++ take (Z.to_nat n) a.

Definition argstr (arg : nat) (argv : list (list Z)) : list Z :=
  let s := fold_left (fun s a => let s := strncat s a (CFGLINE_LEN - zlen s) in
                                 strncat s [ch_sp] (CFGLINE_LEN - zlen s)) (drop arg argv) [] in
  take (length s - 1) s.

(** ** Commands *)

(** A command: its name and its function of the configuration and the arguments. *)
Record cfgcmd (C : Type) := mk_cfgcmd {
  cmd_name : list Z;
  cmd_function : C -> list (list Z) -> C * Z
}.
Arguments mk_cfgcmd {C} _ _.
Arguments cmd_name {C} _.
Arguments cmd_function {C} _ _ _.

Definition cmdparse {C} (cmds : list (cfgcmd C)) (line : list Z) (cfg : C) : C * Z :=
  match parse_args line with
  | [] => (cfg, 0)
  | name :: rest =>
      if bool_decide (rd name 0 = Some ch_hash) then (cfg, 0)
      else
        let name := strlwr name in
        match List.find (fun k => caseeq (take (length name) k.(cmd_name)) name
                                  && (length name =? length k.(cmd_name))%nat) cmds with
        | Some k => k.(cmd_function) cfg (name :: rest)
        | None => (cfg, -1)
        end
  end.

(** ** Lines that continue *)

(** [fgets(p, left, fp)]: at most [left-1] bytes, up to and with a newline. *)
Fixpoint fgets_n (n : nat) (s : list Z) : list Z * list Z :=
  match n, s with
  | S n, c :: t => if c =? LF then ([c], t) else let '(l, r) := fgets_n n t in (c :: l, r)
  | _, _ => ([], s)
  end.

(** Trailing line ends and white space, but not the first byte. *)
Fixpoint trim_end (r : list Z) : list Z :=
  match r with
  | c :: t => if negb (bool_decide (t = [])) && ((c =? CR) || (c =? LF) || (c =? ch_sp) || (c =? TAB)) then trim_end t else r
  | [] => []
  end.

Definition trim_line (s : list Z) : list Z := rev (trim_end (rev s)).

(** [fgets_multiline] with a buffer of [buflen] bytes of which [pos] are used and
    [left] are said to be left: the line and the rest of the file, [None] when a
    byte is written outside of the buffer. *)
Fixpoint multiline (fuel : nat) (buflen : Z) (buf : list Z) (left : Z) (file : list Z)
    : option (option (list Z) * list Z) :=
  match fuel with
  | O => Some (None, file)
  | S fuel =>
      let '(l, file) := fgets_n (Z.to_nat (left - 1)) file in
      if bool_decide (l = []) then Some (None, file)
      else if zlen buf + zlen l + 1 >? buflen then None
      else
        let s := trim_line (cstr l) in
        match rd s (zlen s - 1) with
        | Some c =>
            if c =? ch_bslash then
              let s := take (length s - 1) s in
              multiline fuel buflen (buf ++ s) (buflen - zlen s) file
            else Some (Some (buf ++ s), file)
        | None => None
        end
  end.

Definition fgets_multiline (file : list Z) : option (option (list Z) * list Z) :=
  multiline (length file + 1) CFGLINE_LEN [] CFGLINE_LEN file.

(** [read_cfgfile]: the configuration and 0, or 2 at the first bad line. *)
Fixpoint read_lines {C} (fuel : nat) (cmds : list (cfgcmd C)) (file : list Z) (cfg : C) : option (C * Z) :=
  match fuel with
  | O => Some (cfg, 0)
  | S fuel =>
      '(l, file) ← fgets_multiline file;
      match l with
      | None => Some (cfg, 0)
      | Some line =>
          let '(cfg, ret) := cmdparse cmds (cstr line) cfg in
          if ret <? 0 then Some (cfg, 2) else read_lines fuel cmds file cfg
      end
  end.

Definition read_cfgfile {C} (cmds : list (cfgcmd C)) (file : list Z) (cfg : C) : option (C * Z) :=
  read_lines (length file + 1) cmds file cfg.

(** * Arguments that were written are read back *)

(** An argument in quotes, with a backslash before quotes and backslashes. *)
Definition quote_char (c : Z) : list Z := if (c =? ch_quote) || (c =? ch_bslash) then [ch_bslash; c] else [c].
Definition quoted (a : list Z) : list Z := ch_quote :: concat (map quote_char a) ++ [ch_quote].
Definition quote_args (l : list (list Z)) : list Z := concat (map (fun a => quoted a ++ [ch_sp]) l).

Lemma parse_string_quoted a rest fuel :
  (length (concat (map quote_char a)) < fuel)%nat ->
  parse_string fuel (concat (map quote_char a) ++ ch_quote :: rest) = Some (a, rest).
Proof.
  revert fuel. induction a as [|c a IH]; intros fuel Hf; (destruct fuel as [|fuel]; [lia|]); cbn [map concat app].
  { by cbn [parse_string]. }
  rewrite <- app_assoc. unfold quote_char at 1. cbn [map concat] in Hf. rewrite length_app in Hf. unfold quote_char at 1 in Hf.
  destruct (Z.eqb_spec c ch_quote) as [->|Hq]; [|destruct (Z.eqb_spec c ch_bslash) as [->|Hb]]; cbn [orb app length] in *;
    cbn [parse_string].
  - cbn [Z.eqb Pos.eqb isoctal Z.leb Z.compare Pos.compare Pos.compare_cont andb escape].
    rewrite IH by lia. done.
  - cbn [Z.eqb Pos.eqb isoctal Z.leb Z.compare Pos.compare Pos.compare_cont andb escape].
    rewrite IH by lia. done.
  - destruct (Z.eqb_spec c ch_quote); [done|]. destruct (Z.eqb_spec c ch_bslash); [done|]. rewrite IH by lia. done.
Qed.

Lemma cstr_nul_free s : Forall (fun c => c <> 0) s -> cstr s = s.
Proof. induction 1 as [|c s Hc Hs IH]; [done|]. cbn. destruct (Z.eqb_spec c 0); [done|]. by rewrite IH. Qed.

Lemma map_tolower_idemp s : map tolower (map tolower s) = map tolower s.
Proof.
  rewrite map_map. apply map_ext. intros c. unfold tolower at 1 3. destruct (isupper c) eqn:E.
  - unfold tolower, isupper in *. repeat split_if; lia.
  - unfold tolower. by rewrite !E.
Qed.

Lemma args_from_quoted n l :
  (length l < n)%nat -> Forall (Forall (fun c => c <> 0)) l -> args_from n (quote_args l) = Some l.
Proof.
  revert n. induction l as [|a l IH]; intros n Hn Hl; (destruct n as [|n]; [cbn in Hn; lia|]); [done|].
  apply Forall_cons_1 in Hl as [Ha Hl]. unfold quote_args. cbn [map concat]. fold (quote_args l).
  unfold quoted. rewrite <- app_comm_cons, <- !app_assoc, <- app_comm_cons. cbn [app args_from skip_space].
  change (isspace ch_quote) with false. cbv iota. rewrite Z.eqb_refl.
  rewrite <- app_assoc. cbn [app]. rewrite parse_string_quoted by (rewrite length_app; cbn; lia). cbn [mbind option_bind tail].
  rewrite IH by (cbn in Hn; lia || done). cbn [mbind option_bind]. by rewrite cstr_nul_free.
Qed.

(** Arguments survive being written and read: any list of fewer than 255 arguments,
    whatever their bytes but NULs, written in quotes with backslashes before quotes
    and backslashes, is split into exactly these arguments. *)
Theorem parse_args_quoted l :
  (length l < 255)%nat -> Forall (Forall (fun c => c <> 0)) l -> parse_args (quote_args l) = l.
Proof. intros Hl Hn. unfold parse_args. by rewrite args_from_quoted. Qed.


(** * Concrete runs *)

Lemma parse_args_quoted_witness :
  parse_args (quote_args [str "a b"; [34; 92]; []]) = [str "a b"; [34; 92]; []].
Proof. apply parse_args_quoted; [cbn; lia|]. repeat constructor; discriminate. Defined.


(** A hexadecimal escape is read as a NUL, which ends the argument. *)
Example hex_escape : parse_args (str "a" ++ [32; 34; 92] ++ str "x41b" ++ [34]) = [str "a"; []].
Proof. vm_compute. reflexivity. Qed.

Example interval_example : parse_interval (str "1h30m5") = Some 5405.
Proof. vm_compute. reflexivity. Qed.
