(* ===== verification/Acl.v ===== *)
(** * acl.c: access lists

    The addresses of a listener's clients are matched against the rules of a file.
    Words of an IPv6 address are in network order here; masking and comparing do not
    depend on the order of the bytes.  [getaddrinfo] is a parameter: it gives the
    addresses of a name, or fails. *)

From S2P Require Import Prelude Cfloat Cfgfile.
From Stdlib Require Import ZArith Lia Bool String.
From stdpp Require Import base tactics list numbers.
Open Scope Z_scope.

(** ** Data *)

Inductive sockaddr : Set :=
  | Inet (addr : Z)
  | Inet6 (words : list Z)
  | OtherFamily.

Record acl_e4_t := mk_e4 { e4_addr : Z; e4_mask : Z; e4_allow : Z }.
Record acl_e6_t := mk_e6 { e6_addr : list Z; e6_mask : list Z; e6_prefixlen : Z; e6_allow : Z }.
Record acl_t := mk_acl { entries4 : list acl_e4_t; entries6 : list acl_e6_t }.

Definition acl_new : acl_t := mk_acl [] [].

(** [acl_dup] pushes the entries one by one on the head of the copy. *)
Definition acl_dup (acl : acl_t) : acl_t :=
  mk_acl (fold_left (fun l e => e :: l) acl.(entries4) []) (fold_left (fun l e => e :: l) acl.(entries6) []).

(** ** Masks *)

Fixpoint mask4 (n : nat) (mask : Z) : Z :=
  match n with O => mask | S n => mask4 n (Z.lor (Z.shiftr mask 1) (Z.shiftl 1 31)) end.

Fixpoint mask6 (words : nat) (shift : Z) : list Z :=
  match words with
  | O => []
  | S words =>
      let s := if shift >? 32 then 32 else shift in
      u32 (0 - Z.shiftl 1 (32 - s)) :: mask6 words (shift - s)
  end.

Definition land_words (a m : list Z) : list Z := zip_with Z.land a m.

(** One address that [getaddrinfo] gave. *)
Definition add_entry (acl : acl_t) (a : sockaddr) (prefixlen allow : Z) : acl_t :=
  match a with
  | Inet6 w =>
      let e := if prefixlen =? 128 then mk_e6 w (replicate 4 (2 ^ 32 - 1)) prefixlen allow
               else let m := mask6 4 prefixlen in mk_e6 (land_words w m) m prefixlen allow in
      mk_acl acl.(entries4) (e :: acl.(entries6))
  | Inet a =>
      let prefixlen := if prefixlen >? 32 then 32 else prefixlen in
      let mask := mask4 (Z.to_nat prefixlen) 0 in
      mk_acl (mk_e4 (Z.land a mask) mask allow :: acl.(entries4)) acl.(entries6)
  | OtherFamily => acl
  end.

(** [strchr(s, c)] and a NUL written there: what is before and what is behind. *)
Fixpoint split_at (c : Z) (s : list Z) : list Z * option (list Z) :=
  match s with
  | [] => ([], None)
  | x :: t => if x =? c then ([], Some t) else let '(a, b) := split_at c t in (x :: a, b)
  end.

Definition cut (c : Z) (s : list Z) : list Z := (split_at c s).1.

Section Load.
Variable getaddrinfo : list Z -> option (list sockaddr).

(** [acl_add]: [freeaddrinfo] releases all addresses, so the loop reads released
    memory when there is a second one. *)
Definition acl_add (acl : acl_t) (netspec : list Z) (allow : Z) : option (acl_t * Z) :=
  let '(name, prefixls) := split_at ch_slash netspec in
  match getaddrinfo name with
  | None => Some (acl, -1)
  | Some ai =>
      prefixlen ← match prefixls with Some p => atoi p | None => Some 128 end;
      if (prefixlen <? 0) || (prefixlen >? 128) then Some (acl, -1)
      else match ai with
           | [] => Some (acl, 0)
           | [a] => Some (add_entry acl a prefixlen allow, 0)
           | _ => None
           end
  end.

Definition ACL_LINEBUF : Z := 1024.

(** The loop of [acl_load]: [None] when an argument is used that the line does not
    have. *)
Fixpoint load_lines (fuel : nat) (file : list Z) (acl : acl_t) (failed : bool) : option (acl_t * bool) :=
  match fuel with
  | O => Some (acl, failed)
  | S fuel =>
      let '(l, file) := fgets_n (Z.to_nat (ACL_LINEBUF - 1)) file in
      if bool_decide (l = []) then Some (acl, failed)
      else
        let buf := cut ch_hash (cut LF (cut CR (cstr l))) in
        if bool_decide (buf = []) then load_lines fuel file acl failed
        else
          let argv := parse_args buf in
          let failed := failed || negb (zlen argv =? 2) in
          match argv with
          | [] => None
          | cmd :: args =>
              if caseeq cmd (str "allow") || caseeq cmd (str "deny") then
                match args with
                | [] => None
                | netspec :: _ =>
                    '(acl, rc) ← acl_add acl netspec (if caseeq cmd (str "allow") then 1 else 0);
                    load_lines fuel file acl (failed || negb (rc =? 0))
                end
              else load_lines fuel file acl true
          end
  end.

Definition acl_load (file : list Z) : option (option acl_t) :=
  '(acl, failed) ← load_lines (length file + 1) file acl_new false;
  Some (if (failed : bool) then None else Some acl).
End Load.

(** ** Checking *)

Fixpoint acl_check_4 (l : list acl_e4_t) (addr : Z) : Z :=
  match l with
  | [] => 0
  | a :: l => if Z.land addr a.(e4_mask) =? a.(e4_addr) then a.(e4_allow) else acl_check_4 l addr
  end.

Fixpoint words_match (addr mask entry : list Z) : bool :=
  match addr, mask, entry with
  | x :: addr, m :: mask, a :: entry => (Z.land x m =? a) && words_match addr mask entry
  | _, _, _ => true
  end.

Fixpoint acl_check_6 (l : list acl_e6_t) (addr : list Z) : Z :=
  match l with
  | [] => 0
  | a :: l => if words_match addr a.(e6_mask) a.(e6_addr) then a.(e6_allow) else acl_check_6 l addr
  end.

(** [IN6_IS_ADDR_V4MAPPED] and [IN6_IS_ADDR_V4COMPAT]. *)
Definition unmap (sa : sockaddr) : sockaddr :=
  match sa with
  | Inet6 [w0; w1; w2; w3] =>
      if (w0 =? 0) && (w1 =? 0) && ((w2 =? 65535) || (w2 =? 0) && (w3 >? 1)) then Inet w3 else sa
  | _ => sa
  end.

Definition acl_check (acl : acl_t) (sa : sockaddr) : Z :=
  match unmap sa with
  | Inet a => acl_check_4 acl.(entries4) a
  | Inet6 w => acl_check_6 acl.(entries6) w
  | OtherFamily => 0
  end.

(** * Prefixes *)

Definition word_ok (w : Z) : Prop := 0 <= w < 2 ^ 32.

(** The number that words make. *)
Fixpoint num (ws : list Z) : Z :=
  match ws with [] => 0 | w :: ws => w * 2 ^ (32 * zlen ws) + num ws end.

Definition wmask (n : Z) : Z := 2 ^ 32 - 2 ^ (32 - n).

Lemma mask4_wmask n : (n <= 32)%nat -> mask4 n 0 = wmask (Z.of_nat n).
Proof.
  intros Hn. assert (Forall (fun k => mask4 k 0 = wmask (Z.of_nat k)) (seq 0 33)) as H by (repeat constructor).
  rewrite Forall_forall in H. apply H, in_seq. lia.
Qed.

Lemma u32_wmask s : 0 <= s <= 32 -> u32 (0 - Z.shiftl 1 (32 - s)) = wmask s.
Proof.
  intros Hs. rewrite <- (Z2Nat.id s) by lia. assert (Z.to_nat s <= 32)%nat as Hn by lia. revert Hn.
  generalize (Z.to_nat s) as n. intros n Hn.
  assert (Forall (fun k => u32 (0 - Z.shiftl 1 (32 - Z.of_nat k)) = wmask (Z.of_nat k)) (seq 0 33)) as H by (repeat constructor).
  rewrite Forall_forall in H. apply H, in_seq. lia.
Qed.

Lemma land_wmask x n : 0 <= n <= 32 -> word_ok x -> Z.land x (wmask n) = 2 ^ (32 - n) * (x / 2 ^ (32 - n)).
Proof.
  intros Hn Hx. unfold wmask.
  replace (2 ^ 32 - 2 ^ (32 - n)) with (Z.shiftl (Z.ones n) (32 - n)).
  2:{ rewrite Z.shiftl_mul_pow2, Z.ones_equiv, <- Z.sub_1_r, Z.mul_sub_distr_r, <- Z.pow_add_r by lia.
      f_equal; [f_equal|]; lia. }
  rewrite Z.mul_comm, <- Z.shiftl_mul_pow2, <- Z.shiftr_div_pow2 by lia.
  apply Z.bits_inj'. intros i Hi. rewrite Z.land_spec, !Z.shiftl_spec by lia.
  destruct (Z.ltb_spec (i - (32 - n)) 0) as [H|H].
  - rewrite !(Z.testbit_neg_r _ (i - (32 - n))) by lia. apply andb_false_r.
  - rewrite Z.shiftr_spec by lia. replace (i - (32 - n) + (32 - n)) with i by lia.
    destruct (Z.ltb_spec (i - (32 - n)) n) as [H'|H'].
    + rewrite Z.ones_spec_low by lia. apply andb_true_r.
    + rewrite (testbit_high 32 x i) by (done || lia). done.
Qed.

Lemma land_wmask_eq x b n : 0 <= n <= 32 -> word_ok x -> word_ok b ->
  (Z.land x (wmask n) =? Z.land b (wmask n)) = (x / 2 ^ (32 - n) =? b / 2 ^ (32 - n)).
Proof.
  intros Hn Hx Hb. rewrite !land_wmask by done.
  assert (0 < 2 ^ (32 - n)) by (apply Z.pow_pos_nonneg; lia).
  destruct (Z.eqb_spec (x / 2 ^ (32 - n)) (b / 2 ^ (32 - n))) as [->|E]; [apply Z.eqb_refl|].
  apply Z.eqb_neq. intros E'. apply Z.mul_reg_l in E'; [done|lia].
Qed.

Lemma num_range ws : Forall word_ok ws -> 0 <= num ws < 2 ^ (32 * zlen ws).
Proof.
  induction 1 as [|w ws Hw _ IH]; cbn [num]; [change (0 <= 0 < 1); lia|].
  rewrite zlen_cons, Z.mul_add_distr_l, Z.pow_add_r by (pose proof (zlen_nonneg ws); lia).
  change (2 ^ (32 * 1)) with (2 ^ 32). unfold word_ok in Hw. nia.
Qed.

(** The first bits of a number, by its words. *)
Lemma num_prefix w ws n :
  Forall word_ok ws -> 0 <= n <= 32 * zlen (w :: ws) ->
  num (w :: ws) / 2 ^ (32 * zlen (w :: ws) - n) =
    if n >? 32 then w * 2 ^ (n - 32) + num ws / 2 ^ (32 * zlen ws - (n - 32)) else w / 2 ^ (32 - n).
Proof.
  intros Hws Hn. pose proof (num_range ws Hws) as Hr. pose proof (zlen_nonneg ws) as Hz.
  rewrite zlen_cons in *. cbn [num]. destruct (Z.gtb_spec n 32) as [H|H].
  - replace (32 * (1 + zlen ws) - n) with (32 * zlen ws - (n - 32)) by lia.
    replace (w * 2 ^ (32 * zlen ws)) with (w * 2 ^ (n - 32) * 2 ^ (32 * zlen ws - (n - 32)))
      by (rewrite <- Z.mul_assoc, <- Z.pow_add_r by lia; f_equal; f_equal; lia).
    rewrite Z.div_add_l; [done|]. apply Z.pow_nonzero; lia.
  - replace (32 * (1 + zlen ws) - n) with (32 * zlen ws + (32 - n)) by lia.
    rewrite Z.pow_add_r by lia. rewrite <- Z.div_div by (apply Z.pow_nonzero || apply Z.pow_pos_nonneg; lia).
    rewrite Z.div_add_l by (apply Z.pow_nonzero; lia). rewrite (Z.div_small (num ws)) by lia. f_equal. lia.
Qed.

Lemma words_match_prefix xs bs n :
  Forall word_ok xs -> Forall word_ok bs -> length xs = length bs -> 0 <= n <= 32 * zlen xs ->
  words_match xs (mask6 (length xs) n) (land_words bs (mask6 (length xs) n)) =
    (num xs / 2 ^ (32 * zlen xs - n) =? num bs / 2 ^ (32 * zlen bs - n)).
Proof.
  revert bs n. induction xs as [|x xs IH]; intros [|b bs] n Hx Hb Hlen Hn; try done.
  apply Forall_cons_1 in Hx as [Hx Hxs]. apply Forall_cons_1 in Hb as [Hb Hbs]. injection Hlen as Hlen.
  assert (zlen xs = zlen bs) as Hz by (unfold zlen; lia). pose proof (num_range xs Hxs) as Rx. pose proof (num_range bs Hbs) as Rb.
  rewrite !num_prefix; [|done|rewrite zlen_cons in *; lia|done|done]. rewrite zlen_cons in Hn.
  cbn [length mask6 land_words zip_with words_match].
  set (s := if n >? 32 then 32 else n). assert (0 <= s <= 32) as Hs by (unfold s; split_if; lia).
  rewrite u32_wmask, land_wmask_eq by done. fold (land_words bs (mask6 (length xs) (n - s))).
  rewrite IH by (done || (pose proof (zlen_nonneg xs); unfold s; split_if; lia)). unfold s. destruct (Z.gtb_spec n 32) as [H|H].
  - rewrite Z.sub_diag. change (2 ^ 0) with 1. rewrite !Z.div_1_r.
    assert (forall y, 0 <= y < 2 ^ (32 * zlen bs) -> 0 <= y / 2 ^ (32 * zlen bs - (n - 32)) < 2 ^ (n - 32)) as Hd.
    { intros y Hy. split; [apply Z.div_pos; [lia|]; apply Z.pow_pos_nonneg; lia|].
      apply Z.div_lt_upper_bound; [apply Z.pow_pos_nonneg; lia|]. rewrite <- Z.pow_add_r by lia.
      replace (32 * zlen bs - (n - 32) + (n - 32)) with (32 * zlen bs) by lia. lia. }
    rewrite Hz in *. specialize (Hd _ Rx) as H1. specialize (Hd _ Rb) as H2.
    set (px := num xs / _) in *. set (pb := num bs / _) in *.
    destruct (Z.eqb_spec x b) as [->|E]; cbn [andb].
    + destruct (Z.eqb_spec px pb) as [->|E']; [by rewrite Z.eqb_refl|]. symmetry. apply Z.eqb_neq. lia.
    + symmetry. apply Z.eqb_neq. nia.
  - rewrite Z.sub_diag, !Z.sub_0_r, Hz. rewrite (Z.div_small (num xs)), (Z.div_small (num bs)) by (done || by rewrite <- Hz).
    rewrite Z.eqb_refl. apply andb_true_r.
Qed.

(** * Rules *)

(** A rule: a name, a prefix length as it is written, and what it decides. *)
Record rule := mk_rule { r_name : list Z; r_prefix : option (list Z); r_allow : bool }.

Definition netspec_text (r : rule) : list Z :=
  r.(r_name) ++ match r.(r_prefix) with Some p => ch_slash :: p | None => [] end.
Definition rule_text (r : rule) : list Z :=
  (if r.(r_allow) then str "allow" else str "deny") ++ ch_sp :: netspec_text r ++ [LF].
Definition acl_text (rules : list rule) : list Z := concat (map rule_text rules).

(** A character of a name or a prefix length. *)
Definition plain (c : Z) : Prop := isspace c = false /\ c <> 0 /\ c <> ch_hash /\ c <> ch_quote.

Definition sa_ok (a : sockaddr) : Prop :=
  match a with
  | Inet x => word_ok x
  | Inet6 w => length w = 4%nat /\ Forall word_ok w
  | OtherFamily => False
  end.

Section Rules.
Variable getaddrinfo : list Z -> option (list sockaddr).

Record rule_ok (r : rule) (a : sockaddr) (n : Z) : Prop := {
  ro_chars : Forall plain (netspec_text r);
  ro_slash : Forall (fun c => c <> ch_slash) r.(r_name);
  ro_name : r.(r_name) <> [];
  ro_len : zlen (rule_text r) < ACL_LINEBUF;
  ro_addr : getaddrinfo r.(r_name) = Some [a];
  ro_sa : sa_ok a;
  ro_prefix : match r.(r_prefix) with Some p => atoi p = Some n | None => n = 128 end;
  ro_range : 0 <= n <= 128
}.

(** The rule speaks of the address. *)
Definition covers (a : sockaddr) (n : Z) (sa : sockaddr) : bool :=
  match a, sa with
  | Inet b, Inet x => x / 2 ^ (32 - Z.min n 32) =? b / 2 ^ (32 - Z.min n 32)
  | Inet6 bs, Inet6 xs => num xs / 2 ^ (128 - n) =? num bs / 2 ^ (128 - n)
  | _, _ => false
  end.

Definition decision (rules : list (rule * sockaddr * Z)) (sa : sockaddr) : Z :=
  match List.find (fun '(_, a, n) => covers a n sa) rules with
  | Some (r, _, _) => if r.(r_allow) then 1 else 0
  | None => 0
  end.

Lemma covers_entry acl r a n sa :
  rule_ok r a n -> sa_ok sa -> unmap sa = sa ->
  let allow := if r.(r_allow) then 1 else 0 in
  acl_check (add_entry acl a n allow) sa = if covers a n sa then allow else acl_check acl sa.
Proof.
  intros Hr Hsa Hu allow. pose proof (ro_range _ _ _ Hr) as Hn. pose proof (ro_sa _ _ _ Hr) as Ha.
  unfold acl_check. rewrite Hu.
  destruct a as [b|bs|], sa as [x|xs|]; cbn [add_entry entries4 entries6 covers]; try done.
  - cbn [acl_check_4 e4_mask e4_addr e4_allow]. cbn in Ha, Hsa.
    replace (if n >? 32 then 32 else n) with (Z.min n 32) by (destruct (Z.gtb_spec n 32); lia).
    rewrite mask4_wmask, Z2Nat.id by lia. by rewrite land_wmask_eq by (done || lia).
  - destruct Ha as [Hl Ha], Hsa as [Hl' Hx].
    assert (32 * zlen xs = 128 /\ 32 * zlen bs = 128) as [H1 H2] by (unfold zlen; lia).
    pose proof (words_match_prefix xs bs n Hx Ha (eq_trans Hl' (eq_sym Hl))) as Hm. rewrite Hl', H1, H2 in Hm.
    destruct (Z.eqb_spec n 128) as [->|E]; cbn [acl_check_6 e6_mask e6_addr e6_allow]; [|by rewrite Hm].
    rewrite <- Hm by lia. f_equal. clear - Hl Ha.
    assert (land_words bs (replicate 4 (2 ^ 32 - 1)) = bs) as Hb; [|by rewrite <- Hb at 1].
    do 4 (destruct bs as [|? bs]; [done|]). destruct bs; [|done].
    repeat (apply Forall_cons_1 in Ha as [? Ha]). cbn [land_words zip_with replicate].
    change (2 ^ 32 - 1) with (wmask 32). rewrite !land_wmask by (done || lia).
    change (2 ^ (32 - 32)) with 1. by rewrite !Z.div_1_r, !Z.mul_1_l.
Qed.

Definition acl_cat (a b : acl_t) : acl_t := mk_acl (a.(entries4) ++ b.(entries4)) (a.(entries6) ++ b.(entries6)).

Lemma add_entry_cat acl a n allow : add_entry acl a n allow = acl_cat (add_entry acl_new a n allow) acl.
Proof. destruct acl, a; done. Qed.

Lemma push_all_rev {A} (l acc : list A) : fold_left (fun l e => e :: l) l acc = rev l ++ acc.
Proof. revert acc. induction l as [|x l IH]; intros acc; [done|]. cbn. by rewrite IH, <- app_assoc. Qed.

Lemma acl_dup_cat a b : acl_dup (acl_cat a b) = acl_cat (acl_dup b) (acl_dup a).
Proof. unfold acl_dup, acl_cat. cbn. by rewrite !push_all_rev, !app_nil_r, !rev_app_distr. Qed.

Lemma acl_dup_entry a n allow : acl_dup (add_entry acl_new a n allow) = add_entry acl_new a n allow.
Proof. by destruct a. Qed.

(** Loading pushes, copying pushes again: the copy has the order of the file. *)
Definition add_rule (acl : acl_t) (x : rule * sockaddr * Z) : acl_t :=
  let '(r, a, n) := x in add_entry acl a n (if r.(r_allow) then 1 else 0).

Lemma acl_dup_order l acl :
  acl_dup (fold_left add_rule l acl) = acl_cat (acl_dup acl) (fold_right (fun x acl => add_rule acl x) acl_new l).
Proof.
  revert acl. induction l as [|[[r a] n] l IH]; intros acl; cbn [fold_left fold_right].
  { destruct (acl_dup acl). unfold acl_cat, acl_new. cbn. by rewrite !app_nil_r. }
  rewrite IH. unfold add_rule at 1 3. rewrite add_entry_cat, acl_dup_cat, acl_dup_entry.
  rewrite (add_entry_cat (fold_right _ _ _)). unfold acl_cat. cbn. by rewrite <- !app_assoc.
Qed.

Lemma unmap_ok sa : sa_ok sa -> sa_ok (unmap sa) /\ unmap (unmap sa) = unmap sa.
Proof.
  destruct sa as [x|w|]; [done| |done]. intros [Hl Hw]. do 4 (destruct w as [|? w]; [done|]). destruct w; [|done].
  cbn [unmap]. destruct (_ && _) eqn:E.
  - split; [|done]. by repeat (apply Forall_cons_1 in Hw as [? Hw]).
  - split; [done|]. cbn [unmap]. by rewrite E.
Qed.

Lemma check_rules l sa :
  Forall (fun '(r, a, n) => rule_ok r a n) l -> sa_ok sa ->
  acl_check (fold_right (fun x acl => add_rule acl x) acl_new l) sa = decision l (unmap sa).
Proof.
  intros Hl Hsa. destruct (unmap_ok sa Hsa) as [Hok Hu]. unfold decision.
  assert (forall acl, acl_check acl sa = acl_check acl (unmap sa)) as Hc by (intros; unfold acl_check; by rewrite Hu).
  rewrite Hc. induction Hl as [|[[r a] n] l Hr Hl IH]; cbn [fold_right List.find].
  { unfold acl_check. by destruct (unmap (unmap sa)). }
  unfold add_rule at 1. rewrite covers_entry by done. destruct (covers a n (unmap sa)); [done|]. apply IH.
Qed.

(** ** A line of the file *)

Lemma split_at_none c s : Forall (fun x => x <> c) s -> split_at c s = (s, None).
Proof. induction 1 as [|x s Hx _ IH]; cbn; [done|]. destruct (Z.eqb_spec x c); [done|]. by rewrite IH. Qed.

Lemma split_at_found c s t : Forall (fun x => x <> c) s -> split_at c (s ++ c :: t) = (s, Some t).
Proof.
  induction 1 as [|x s Hx _ IH]; cbn; [by rewrite Z.eqb_refl|]. destruct (Z.eqb_spec x c); [done|]. by rewrite IH.
Qed.

Lemma word_plain s t : Forall (fun c => isspace c = false) s -> isspace (hd ch_sp t) = true -> word (s ++ t) = (s, t).
Proof.
  induction 1 as [|c s Hc _ IH]; cbn [app word]; intros Ht; [destruct t as [|x t]; [done|]; cbn in Ht |- *; by rewrite Ht|].
  by rewrite Hc, IH.
Qed.

Lemma plain_spaceless s : Forall plain s -> Forall (fun c => isspace c = false) s.
Proof. intros H. eapply Forall_impl; [|exact H]. by intros c [Hc _]. Qed.

Lemma args_two cmd arg :
  Forall plain cmd -> cmd <> [] -> Forall plain arg -> arg <> [] ->
  parse_args (cmd ++ ch_sp :: arg) = [cmd; arg].
Proof.
  assert (forall n s t, Forall plain s -> s <> [] -> isspace (hd ch_sp t) = true ->
    args_from (S n) (s ++ t) = l ← args_from n (tl t); Some (s :: l)) as Hone.
  { intros n [|c s] t Hs Hne Ht; [done|]. pose proof (plain_spaceless _ Hs) as Hs'.
    pose proof (Forall_inv Hs) as (Hc & _ & _ & Hq). cbn [app args_from skip_space]. rewrite Hc.
    apply Z.eqb_neq in Hq. rewrite Hq. rewrite (word_plain (c :: s) t Hs' Ht : word (c :: s ++ t) = _).
    cbn [mbind option_bind]. rewrite cstr_nul_free; [done|].
    eapply Forall_impl; [|exact Hs]. by intros x (_ & Hx & _). }
  intros Hc Hc0 Ha Ha0. unfold parse_args. rewrite Hone by done. rewrite <- (app_nil_r arg) at 1.
  cbn [tl]. rewrite Hone by done. done.
Qed.

Lemma fgets_n_line n s rest :
  Forall (fun c => c <> LF) s -> (length s < n)%nat -> fgets_n n (s ++ LF :: rest) = (s ++ [LF], rest).
Proof.
  intros Hs. revert n. induction Hs as [|c s Hc _ IH]; intros [|n] Hn; cbn [length] in Hn; try lia; cbn [app fgets_n].
  - done.
  - destruct (Z.eqb_spec c LF); [done|]. by rewrite IH by lia.
Qed.

(** The characters of a line before its end. *)
Definition line_body (r : rule) : list Z := (if r.(r_allow) then str "allow" else str "deny") ++ ch_sp :: netspec_text r.

Lemma rule_text_body r : rule_text r = line_body r ++ [LF].
Proof. unfold rule_text, line_body. by rewrite <- app_assoc. Qed.

Lemma body_chars r (P : Z -> Prop) :
  P ch_sp -> (forall c, plain c -> P c) -> Forall plain (netspec_text r) -> Forall P (line_body r).
Proof.
  intros Hsp Hp Hr. apply Forall_app. split.
  - eapply Forall_impl; [exact Hp|]. destruct (r_allow r); repeat constructor; done.
  - constructor; [done|]. by eapply Forall_impl.
Qed.

Lemma cut_body r :
  Forall plain (netspec_text r) -> cut ch_hash (cut LF (cut CR (cstr (line_body r ++ [LF])))) = line_body r.
Proof.
  intros Hr. assert (forall c, c = 0 \/ c = CR \/ c = LF \/ c = ch_hash -> Forall (fun x => x <> c) (line_body r)) as Hb.
  { intros c Hc. apply body_chars; [destruct Hc as [->|[->|[->| ->]]]; done| |done].
    intros x (Hx & H0 & Hh & _). destruct Hc as [->|[->|[->| ->]]]; try done; intros ->; done. }
  rewrite cstr_nul_free by (apply Forall_app; split; [by apply Hb; left|by repeat constructor]).
  unfold cut at 3. rewrite (split_at_none CR) by (apply Forall_app; split; [apply Hb; auto|by repeat constructor]).
  unfold cut at 2. cbn [fst]. rewrite split_at_found by (apply Hb; auto). unfold cut. cbn [fst].
  by rewrite split_at_none by (apply Hb; auto).
Qed.

Lemma body_args r :
  Forall plain (netspec_text r) -> r.(r_name) <> [] ->
  parse_args (line_body r) = [(if r.(r_allow) then str "allow" else str "deny"); netspec_text r].
Proof.
  intros Hr Hn. apply args_two; [|by destruct (r_allow r)|done|].
  - destruct (r_allow r); repeat constructor; done.
  - unfold netspec_text. by destruct (r_name r).
Qed.

Lemma add_rule_spec r a n acl :
  rule_ok r a n -> acl_add getaddrinfo acl (netspec_text r) (if r.(r_allow) then 1 else 0) = Some (add_rule acl (r, a, n), 0).
Proof.
  intros Hr. unfold acl_add, netspec_text. pose proof (ro_prefix _ _ _ Hr) as Hp. pose proof (ro_range _ _ _ Hr) as Hn.
  destruct (r_prefix r) as [p|].
  - rewrite split_at_found by apply Hr. rewrite (ro_addr _ _ _ Hr), Hp. cbn [mbind option_bind].
    destruct (Z.ltb_spec n 0), (Z.gtb_spec n 128); try lia. done.
  - rewrite app_nil_r, split_at_none by apply Hr. rewrite (ro_addr _ _ _ Hr). by rewrite Hp.
Qed.

Lemma load_rules l : Forall (fun '(r, a, n) => rule_ok r a n) l -> forall fuel acl,
  (length l < fuel)%nat ->
  load_lines getaddrinfo fuel (acl_text (map (fun x => x.1.1) l)) acl false = Some (fold_left add_rule l acl, false).
Proof.
  induction 1 as [|[[r a] n] l Hr _ IH]; intros [|fuel] acl Hf; cbn [length] in Hf; try lia; [done|].
  unfold acl_text. cbn [map concat fst load_lines]. fold (acl_text (map (fun x => x.1.1) l)).
  pose proof (ro_len _ _ _ Hr) as Hlen. rewrite rule_text_body in Hlen |- *. rewrite zlen_app in Hlen.
  rewrite <- app_assoc. cbn [app]. rewrite fgets_n_line.
  2:{ apply body_chars; [done| |apply Hr]. intros c [Hc _] ->. done. }
  2:{ unfold zlen, ACL_LINEBUF in *. cbn [length] in Hlen. lia. }
  rewrite bool_decide_eq_false_2 by (destruct (line_body r); done).
  rewrite cut_body by apply Hr. rewrite bool_decide_eq_false_2 by (unfold line_body; by destruct (r_allow r)).
  rewrite body_args by apply Hr. set (cmd := if r_allow r then _ else _).
  assert (caseeq cmd (str "allow") = r_allow r /\ caseeq cmd (str "deny") = negb (r_allow r)) as [E1 E2]
    by (unfold cmd; by destruct (r_allow r)).
  rewrite E1, E2, orb_negb_r, (add_rule_spec r a n acl Hr). apply IH. lia.
Qed.
End Rules.

(** C29: An access list as a listener uses it, a copy of the list that was loaded from
    its file, decides by the first rule of the file that covers the address of the
    client: the address begins with the bits of the rule's prefix, where an IPv6
    address that stands for an IPv4 address counts as that.  Without such a rule the
    client is not allowed. *)
Theorem acl_first_match getaddrinfo (l : list (rule * sockaddr * Z)) (sa : sockaddr) :
  Forall (fun '(r, a, n) => rule_ok getaddrinfo r a n) l -> sa_ok sa ->
  exists acl, acl_load getaddrinfo (acl_text (map (fun x => x.1.1) l)) = Some (Some acl) /\
              acl_check (acl_dup acl) sa = decision l (unmap sa).
Proof.
  intros Hl Hsa. exists (fold_left add_rule l acl_new). split.
  - unfold acl_load. rewrite load_rules; [done|done|]. unfold acl_text.
    clear - Hl. induction l as [|x l IH]; [cbn; lia|]. cbn [map concat]. rewrite length_app.
    apply Forall_cons_1 in Hl as [_ Hl]. specialize (IH Hl). unfold rule_text at 1.
    destruct (r_allow x.1.1); cbn [length app str] in *; lia.
  - rewrite acl_dup_order. rewrite <- (check_rules getaddrinfo) by done. f_equal.
Qed.

(** The addresses of the example in doc/CONFIGURATION.md. *)
Definition demo_resolver (name : list Z) : option (list sockaddr) :=
  if beq name (str "192.168.1.0") then Some [Inet 0xC0A80100]
  else if beq name (str "192.168.0.0") then Some [Inet 0xC0A80000]
  else if beq name (str "dead:beef::") then Some [Inet6 [0xdeadbeef; 0; 0; 0]]
  else None.

Definition demo_rules : list (rule * sockaddr * Z) :=
  [(mk_rule (str "192.168.1.0") (Some (str "24")) false, Inet 0xC0A80100, 24);
   (mk_rule (str "192.168.0.0") (Some (str "16")) true, Inet 0xC0A80000, 16);
   (mk_rule (str "dead:beef::") (Some (str "32")) true, Inet6 [0xdeadbeef; 0; 0; 0], 32)].

#[local] Instance plain_dec c : Decision (plain c).
Proof. unfold plain. apply _. Defined.

Lemma demo_rules_ok : Forall (fun '(r, a, n) => rule_ok demo_resolver r a n) demo_rules.
Proof.
  repeat (apply List.Forall_cons; [split;
    [by apply (bool_decide_unpack _)|by apply (bool_decide_unpack _)|discriminate|reflexivity|reflexivity| |reflexivity|lia]|]).
  4:{ apply List.Forall_nil. }
  1,2: cbv [sa_ok word_ok]; lia.
  split; [reflexivity|]. repeat (apply List.Forall_cons; [unfold word_ok; lia|]). apply List.Forall_nil.
Qed.

Lemma acl_first_match_witness :
  exists acl, acl_load demo_resolver (acl_text (map (fun x => x.1.1) demo_rules)) = Some (Some acl) /\
    acl_check (acl_dup acl) (Inet6 [0; 0; 65535; 0xC0A80207]) = 1.
Proof.
  destruct (acl_first_match demo_resolver demo_rules (Inet6 [0; 0; 65535; 0xC0A80207])) as (acl & H & H').
  - exact demo_rules_ok.
  - split; [reflexivity|]. repeat (apply List.Forall_cons; [unfold word_ok; lia|]). apply List.Forall_nil.
  - exists acl. split; [exact H|]. rewrite H'. reflexivity.
Defined.

(** The list that was loaded, without the copy, decides by the last rule. *)
Example acl_load_last :
  match acl_load demo_resolver (acl_text (map (fun x => x.1.1) demo_rules)) with
  | Some (Some acl) => acl_check acl (Inet 0xC0A80102) = 1 /\ acl_check (acl_dup acl) (Inet 0xC0A80102) = 0
  | _ => False
  end.
Proof. vm_compute. done. Qed.
