(* ===== verification/Passcode.v ===== *)
(** * passcode.c: the login passcode

    [aprs_passcode] hashes the callsign without its SSID, two bytes at a time,
    on a 16-bit [short]. *)

From S2P Require Import Prelude.
From Stdlib Require Import ZArith Lia Bool String Ascii.
From stdpp Require Import base tactics list numbers.
Open Scope Z_scope.

Definition kKey : Z := 29666.   (* 0x73e2 *)

(** The copy loop: at most nine characters, up to a '-' or the NUL. *)
Fixpoint rootCall (n : nat) (theCall : list Z) : list Z :=
  match n, theCall with
  | S n', c :: t => if (c =? ch_dash) || (c =? 0) then [] else toupper c :: rootCall n' t
  | _, _ => []
  end.

(** The hash loop over [rootCall], which is NUL terminated: for an odd length
    the last low byte is the NUL. *)
Fixpoint passcode_loop (hash : Z) (ptr : list Z) : Z :=
  match ptr with
  | hi :: lo :: t =>
      passcode_loop (i16 (Z.lxor (i16 (Z.lxor hash (Z.shiftl (schar hi) 8))) (schar lo))) t
  | [hi] => i16 (Z.lxor (i16 (Z.lxor hash (Z.shiftl (schar hi) 8))) 0)
  | [] => hash
  end.

Definition aprs_passcode (theCall : list Z) : Z :=
  Z.land (passcode_loop (i16 kKey) (rootCall 9 theCall)) 32767.

(** * Lemmas *)

Lemma aprs_passcode_nonneg call : 0 <= aprs_passcode call.
Proof. unfold aprs_passcode. apply Z.land_nonneg. by right. Qed.

Lemma rootCall_length n s : (length (rootCall n s) <= n)%nat.
Proof.
  revert s. induction n as [|n IH]; intros [|c s]; simpl; try lia.
  split_if; simpl; [lia|]. specialize (IH s). lia.
Qed.

Lemma rootCall_upper n s : rootCall n (map toupper s) = rootCall n s.
Proof.
  revert s. induction n as [|n IH]; intros [|c s]; simpl; try done.
  assert (toupper (toupper c) = toupper c) as ->
    by (unfold toupper, islower; repeat split_if; lia).
  assert ((toupper c =? ch_dash) || (toupper c =? 0) = (c =? ch_dash) || (c =? 0)) as ->
    by (unfold toupper, islower; repeat split_if; lia).
  split_if; [done|]. by rewrite IH.
Qed.

Lemma rootCall_ssid n call ssid : rootCall n (call ++ ch_dash :: ssid) = rootCall n call.
Proof.
  revert call. induction n as [|n IH]; intros [|c s]; simpl; try done.
  split_if; [done|]. by rewrite IH.
Qed.

(** * Properties *)

(** The passcode of a callsign is a non-negative [short] (0 to 32767); it
    depends neither on the SSID nor on letter case. *)
Theorem aprs_passcode_spec call ssid :
  0 <= aprs_passcode call <= 32767 /\
  aprs_passcode (call ++ ch_dash :: ssid) = aprs_passcode call /\
  aprs_passcode (map toupper call) = aprs_passcode call.
Proof.
  unfold aprs_passcode. rewrite rootCall_ssid, rootCall_upper. split; [|done].
  change 32767 with (Z.ones 15). rewrite Z.land_ones by lia.
  pose proof (Z.mod_pos_bound (passcode_loop (i16 kKey) (rootCall 9 call)) (2 ^ 15)
    ltac:(lia)). change (Z.ones 15) with (2 ^ 15 - 1). lia.
Qed.

(** The published test vector: the passcode of N0CALL is 13023. *)
Example passcode_n0call : aprs_passcode (str "N0CALL-15") = 13023.
Proof. vm_compute. reflexivity. Qed.
