(* ===== verification/ParseQc.v ===== *)
(** * parse_qc.c: the Q construct algorithm

    A packet header is [SRC>DST,PATH,...:].  The algorithm finds a Q construct
    [,qPT,call,...] in the path, drops the packet when the construct shows a
    loop or a forgery, and otherwise says what to append to, or to put in the
    place of, the path.  Offsets are relative to the start of the packet line
    [pdata]; the line is followed in memory by its terminator. *)

From S2P Require Import Prelude Types.
From Stdlib Require Import ZArith Lia Bool String Ascii.
From stdpp Require Import base tactics list numbers.
Open Scope Z_scope.

(** What the Q construct code asks of the client list: the file descriptor of a
    verified client logged in under a name, -1 when there is none. *)
Class ClientDirectory := {
  clientlist_check_if_validated_client : list Z -> Z
}.

(** 0 when the callsign is good for a Q construct, -1 otherwise. *)
Definition check_invalid_q_callsign (call : list Z) : Z :=
  let len := zlen call in
  if ((len >? CALLSIGNLEN_MAX) || (len <? 1)) && negb (len =? 32) then -1
  else if forallb (fun c => isalnum c || (c =? ch_dash)) call then 0 else -1.

Definition MAX_Q_CALLS : nat := 64.

(** A pointer handed back in [*new_q_start]: NULL, a position in the packet, or
    [NULL + 1], which the code produces when it has no construct at all. *)
Inductive qptr : Set := QNull | QAt (off : Z) | QNullPlus1.

#[export] Instance qptr_eq_dec : EqDecision qptr.
Proof. solve_decision. Defined.

(** What [q_process] leaves behind: the packet (one character of which it may
    rewrite), the text in [new_q], and the out parameters. *)
Record qout := mk_qout {
  qo_pdata : list Z;
  qo_new_q : list Z;
  qo_path_end : Z;
  qo_new_q_start : qptr;
  qo_q_replace : option Z
}.

(** ** q_dropcheck *)

(** The array of pointers to the callsigns after the construct, and the pointer
    the loop stopped at. *)
Fixpoint q_callv (n : nat) (pdata : list Z) (p path_end : Z) : option (list Z * Z) :=
  match n with
  | O => Some ([], p)
  | S n' =>
      if p <? path_end then
        p1 ← scan pdata p path_end (fun c => negb (c =? ch_comma));
        if p1 =? path_end then Some ([], p1)
        else
          p2 ← scan pdata p1 path_end (fun c => c =? ch_comma);
          '(v, pe) ← q_callv n' pdata p2 path_end;
          Some (p1 :: v, pe)
      else Some ([], p)
  end.

(** Start and length of each callsign: [l = qcallv[i+1] - qcallv[i] - 1], the
    last entry of the array being [p+1]. *)
Fixpoint q_call_spans (v : list Z) (last : Z) : list (Z * Z) :=
  match v with
  | [] => []
  | a :: t => (a, (match t with b :: _ => b | [] => last end) - a - 1) :: q_call_spans t last
  end.

(** The inner loop over [j]: the same callsign later in the construct. *)
Fixpoint q_call_twice (pdata call : list Z) (l : Z) (rest : list (Z * Z)) : option bool :=
  match rest with
  | [] => Some false
  | (b, lb) :: t =>
      if l =? lb then
        x ← rd_range pdata b l;
        if beq call x then Some true else q_call_twice pdata call l t
      else q_call_twice pdata call l t
  end.

Section WithDirectory.
Context `{ClientDirectory}.

(** The loop over [i]: the drop reason, or whether the login was seen. *)
Fixpoint q_check_calls (c : client_t) (pdata : list Z) (q_type : Z)
    (calls : list (Z * Z)) (login_in_path : bool) : option (Z + bool) :=
  match calls with
  | [] => Some (inr login_in_path)
  | (a, l) :: rest =>
      call ← rd_range pdata a l;
      twice ← q_call_twice pdata call l rest;
      if (twice : bool) then Some (inl INERR_Q_QPATH_CALL_TWICE)
      else
        let is_login := (l =? zlen c.(c_username)) && caseeq call c.(c_username) in
        if is_login && bool_decide (c.(c_state) = CSTATE_CONNECTED)
           && has c.(c_flags) CLFLAGS_INPORT && negb (bool_decide (rest = []))
        then Some (inl INERR_Q_PATH_LOGIN_NOT_LAST)
        else if negb is_login && negb (clientlist_check_if_validated_client call =? -1)
        then Some (inl INERR_Q_PATH_CALL_IS_LOCAL_CLIENT)
        else if negb is_login && negb (check_invalid_q_callsign call =? 0)
        then Some (inl INERR_Q_PATH_CALL_IS_INVALID)
        else
          from_src ← (if q_type =? 85 then
                        src ← rd_range pdata 0 l;
                        if beq call src then x ← rd pdata l; Some (x =? ch_gt)
                        else Some false
                      else Some false);
          if (from_src : bool) then Some (inl INERR_Q_QAU_PATH_CALL_IS_SRCCALL)
          else q_check_calls c pdata q_type rest (login_in_path || is_login)
  end.

(** The test for the server's own identifier in the construct: the first place
    [memmem] finds it, if that place is a whole path element. *)
Definition q_mycall_in_path (cfg : config) (pdata : list Z) (q_start path_end : Z) : option bool :=
  let n := zlen cfg.(serverid) in
  m ← memmem pdata (q_start + 4) (path_end - q_start - 4) cfg.(serverid);
  match m with
  | None => Some false
  | Some p =>
      before ← rd pdata (p - 1);
      if before =? ch_comma then
        after ← rd pdata (p + n);
        Some ((after =? ch_comma) || (p + n =? path_end) || (after =? ch_colon))
      else Some false
  end.

(** The trace that a qAI packet gets: the existing construct, the login when it
    is not in it yet, and the server's identifier. *)
Definition q_trace (cfg : config) (c : client_t) (pdata : list Z) (new_q_size : Z)
    (q_start path_end : Z) (login_in_path : bool) : option (Z * list Z) :=
  let new_q_len := path_end - q_start - 1 in
  if new_q_len >? new_q_size then Some (INERR_Q_NEWQ_BUFFER_SMALL, [])
  else
    old ← rd_range pdata (q_start + 1) new_q_len;
    let '(t1, n1) :=
      if negb (c.(c_validated) =? 0) && negb login_in_path
         && negb (bool_decide (c.(c_state) = CSTATE_COREPEER))
      then snprintf (new_q_size - new_q_len) (ch_comma :: c.(c_username))
      else ([], 0) in
    if new_q_size - (new_q_len + n1) <? 20 then Some (INERR_Q_NEWQ_BUFFER_SMALL, [])
    else
      let '(t2, n2) := snprintf (new_q_size - (new_q_len + n1)) (ch_comma :: cfg.(serverid)) in
      Some (new_q_len + n1 + n2, old ++ t1 ++ t2).

(** [q_dropcheck]: the drop reason, or the length of the new construct, with
    the text in [new_q] and [*q_replace]. *)
Definition q_dropcheck (cfg : config) (c : client_t) (pdata new_q : list Z)
    (new_q_size new_q_len q_proto q_type : Z) (q_start : option Z) (q_replace : option Z)
    (path_end : Z) : option (Z * list Z * option Z) :=
  if negb (q_proto =? cfg.(q_protocol_id)) && cfg.(disallow_other_protocol_id)
  then Some (INERR_Q_DISALLOW_PROTOCOL, new_q, q_replace)
  else if (q_type =? 88) && cfg.(disallow_unverified)
  then Some (INERR_Q_QAX, new_q, q_replace)
  else if q_type =? 90
  then Some (INERR_Q_QAZ, new_q, q_replace)
  else
    calls ← match q_start with
            | None => Some []
            | Some qs =>
                '(v, pe) ← q_callv MAX_Q_CALLS pdata (qs + 4) path_end;
                Some (q_call_spans v (pe + 1))
            end;
    mycall ← match q_start with
             | None => Some false
             | Some qs => q_mycall_in_path cfg pdata qs path_end
             end;
    if (mycall : bool) then Some (INERR_Q_QPATH_MYCALL, new_q, q_replace)
    else
      r ← q_check_calls c pdata q_type calls false;
      match r with
      | inl e => Some (e, new_q, q_replace)
      | inr login_in_path =>
          if q_type =? 73 then
            qs ← q_start;
            '(n, t) ← q_trace cfg c pdata new_q_size qs path_end login_in_path;
            Some (n, (if n <? 0 then new_q else t), Some (qs + 1))
          else Some (new_q_len, new_q, q_replace)
      end.

(** ** q_process *)

(** What the first step finds: the comma before the construct, the end of the
    path (an incomplete construct is cut off), the protocol and type characters
    (0 when there is no complete construct) and the end of the first callsign
    after the construct. *)
Record qfound := mk_qfound {
  qf_start : option Z;
  qf_path_end : Z;
  qf_proto : Z;
  qf_type : Z;
  qf_nextcall_end : Z
}.

Definition q_find (pdata : list Z) (via_start path_end : Z) : option qfound :=
  m ← memmem pdata via_start (path_end - via_start) (str ",q");
  match m with
  | None => Some (mk_qfound None path_end 0 0 0)
  | Some q_start =>
      nx ← memchr pdata (q_start + 1) (path_end - q_start - 1) ch_comma;
      match nx with
      | None => Some (mk_qfound (Some q_start) q_start 0 0 0)
      | Some q_nextcall =>
          if negb (q_nextcall - q_start =? 4)
          then Some (mk_qfound (Some q_start) q_start 0 0 0)
          else
            q_proto ← rd pdata (q_start + 2);
            q_type ← rd pdata (q_start + 3);
            q_nextcall_end ← scan pdata (q_nextcall + 1) path_end
                               (fun ch => (ch =? ch_comma) || (ch =? ch_colon));
            if q_nextcall + 1 =? q_nextcall_end
            then Some (mk_qfound (Some q_start) q_start 0 0 q_nextcall_end)
            else Some (mk_qfound (Some q_start) path_end q_proto q_type q_nextcall_end)
      end
  end.

(** [pathlen > 2 && *( *path_end-1) == 'I' && *( *path_end-2) == ','] *)
Definition q_path_ends_I (pdata : list Z) (pathlen path_end : Z) : option bool :=
  if pathlen >? 2 then
    a ← rd pdata (path_end - 1);
    if a =? 73 then b ← rd pdata (path_end - 2); Some (b =? ch_comma) else Some false
  else Some false.

(** The comma before the callsign that precedes [,I], if there is one. *)
Definition q_prev_call (pdata : list Z) (via_start path_end : Z) : option (option Z) :=
  p ← rscan pdata (path_end - 3) via_start (fun ch => ch =? ch_comma);
  x ← rd pdata p;
  Some (if x =? ch_comma then Some p else None).

(** [pathlen > 7 && strncmp( *path_end-7, ",TCPIP*", 7) == 0] *)
Definition q_ends_tcpip (pdata : list Z) (pathlen path_end : Z) : option bool :=
  if pathlen >? 7 then strncmp_eq pdata (path_end - 7) (str ",TCPIP*") else Some false.

(** [",q%c<t>,<call>"] *)
Definition q_text (proto t : Z) (call : list Z) : list Z :=
  [ch_comma; ch_q; proto; t; ch_comma] ++ call.

(** A [return snprintf(new_q, new_q_size, ...)]. *)
Definition q_ret (pdata : list Z) (size path_end : Z) (start : qptr) (repl : option Z)
    (text : list Z) : option (Z * qout) :=
  let '(t, n) := snprintf size text in Some (n, mk_qout pdata t path_end start repl).

(** A [return q_dropcheck(...)]. *)
Definition q_ret_dropcheck (cfg : config) (c : client_t) (pdata new_q : list Z)
    (size new_q_len q_proto q_type : Z) (q_start : option Z) (path_end : Z)
    (start : qptr) (repl : option Z) : option (Z * qout) :=
  '(n, t, r) ← q_dropcheck cfg c pdata new_q size new_q_len q_proto q_type q_start repl path_end;
  Some (n, mk_qout pdata t path_end start r).

(** Packets of a verified client on a client-only port that did not originate
    them: qAR, qAr and qAS, qAC are rewritten in place, [,call,I] becomes a qAo,
    and a missing construct is replaced by qAO with the login. *)
Definition q_clientonly (cfg : config) (c : client_t) (pdata : list Z) (size : Z)
    (via_start pathlen : Z) (f : qfound) : option (Z * qout) :=
  let proto := cfg.(q_protocol_id) in
  let pe := f.(qf_path_end) in
  if negb (f.(qf_proto) =? 0) then
    qs ← f.(qf_start);
    let q_type := if (f.(qf_type) =? 82) || (f.(qf_type) =? 114) then 111
                  else if (f.(qf_type) =? 83) || (f.(qf_type) =? 67) then 79
                  else f.(qf_type) in
    pdata' ← (if (f.(qf_type) =? 82) || (f.(qf_type) =? 114) || (f.(qf_type) =? 83)
                 || (f.(qf_type) =? 67)
              then wr pdata (qs + 3) q_type else Some pdata);
    q_ret_dropcheck cfg c pdata' [] size 0 f.(qf_proto) q_type (Some qs) pe (QAt (qs + 1)) None
  else
    ends_I ← q_path_ends_I pdata pathlen pe;
    prev ← (if (ends_I : bool) then q_prev_call pdata via_start pe else Some None);
    match prev with
    | Some p =>
        call ← rd_range pdata (p + 1) (pe - 2 - (p + 1));
        let '(t, n) := snprintf size (q_text proto 111 (cstr call)) in
        q_ret_dropcheck cfg c pdata t size n proto 111 f.(qf_start) p QNull None
    | None =>
        let '(t, n) := snprintf size (q_text proto 79 c.(c_username)) in
        q_ret_dropcheck cfg c pdata t size n proto 79 f.(qf_start) pe QNull None
    end.

(** Packets without a construct on an inbound port, client-only ports apart. *)
Definition q_inport_generate (cfg : config) (c : client_t) (pdata : list Z) (size : Z)
    (via_start pathlen : Z) (originated_by_client : bool) (f : qfound) : option (Z * qout) :=
  let proto := cfg.(q_protocol_id) in
  let pe := f.(qf_path_end) in
  ends_I ← q_path_ends_I pdata pathlen pe;
  if (ends_I : bool) then
    prev ← q_prev_call pdata via_start pe;
    match prev with
    | Some p =>
        call ← rd_range pdata (p + 1) (pe - 2 - (p + 1));
        if (zlen c.(c_username) =? pe - 2 - (p + 1)) && caseeq c.(c_username) call then
          let '(t, n) := snprintf size (q_text proto 82 c.(c_username)) in
          q_ret_dropcheck cfg c pdata t size n proto 82 f.(qf_start) p QNull None
        else
          let '(t, n) := snprintf size (q_text proto 114 (cstr call)) in
          q_ret_dropcheck cfg c pdata t size n proto 114 f.(qf_start) p QNull None
    | None => Some (INERR_Q_I_NO_VIACALL, mk_qout pdata [] pe QNull None)
    end
  else if originated_by_client then
    tcpip ← q_ends_tcpip pdata pathlen pe;
    q_ret pdata size pe QNull None
      ((if (tcpip : bool) then [] else str ",TCPIP*") ++ q_text 65 67 cfg.(serverid))
  else
    let '(t, n) := snprintf size (q_text proto 83 c.(c_username)) in
    q_ret_dropcheck cfg c pdata t size n proto 83 f.(qf_start) pe QNull None.

(** Packets from an inbound connection. *)
Definition q_inport (cfg : config) (c : client_t) (pdata : list Z) (size : Z)
    (via_start pathlen : Z) (originated_by_client : bool) (f : qfound) : option (Z * qout) :=
  let proto := cfg.(q_protocol_id) in
  let validated := negb (c.(c_validated) =? 0) in
  if has c.(c_flags) CLFLAGS_UDPSUBMIT then
    pe ← (if negb (f.(qf_proto) =? 0) then f.(qf_start) else Some f.(qf_path_end));
    tcpip ← q_ends_tcpip pdata pathlen pe;
    q_ret pdata size pe QNull None
      ((if (tcpip : bool) then [] else str ",TCPIP*") ++ q_text proto 85 cfg.(serverid))
  else if negb validated && originated_by_client then
    if negb (f.(qf_proto) =? 0) && (f.(qf_nextcall_end) <? f.(qf_path_end)) then
      Some (INERR_Q_NONVAL_MULTI_Q_CALLS, mk_qout pdata [] f.(qf_path_end) QNull None)
    else
      q_ret pdata size via_start QNull None (str ",TCPXX*" ++ q_text proto 88 cfg.(serverid))
  else if validated && has c.(c_flags) CLFLAGS_CLIENTONLY && originated_by_client then
    q_ret pdata size (match f.(qf_start) with Some qs => qs | None => via_start end)
      QNull None (q_text proto 67 cfg.(serverid))
  else if validated && has c.(c_flags) CLFLAGS_CLIENTONLY && negb originated_by_client then
    q_clientonly cfg c pdata size via_start pathlen f
  else if negb (f.(qf_proto) =? 0) then
    qs ← f.(qf_start);
    q_ret_dropcheck cfg c pdata [] size 0 f.(qf_proto) f.(qf_type) (Some qs) f.(qf_path_end)
      (QAt (qs + 1)) None
  else q_inport_generate cfg c pdata size via_start pathlen originated_by_client f.

(** Everything else: uplinks, core peers and clients that are not connected. *)
Definition q_outbound (cfg : config) (c : client_t) (pdata : list Z) (size : Z)
    (via_start pathlen : Z) (f : qfound) : option (Z * qout) :=
  let proto := cfg.(q_protocol_id) in
  let pe := f.(qf_path_end) in
  let existing := match f.(qf_start) with Some qs => QAt (qs + 1) | None => QNullPlus1 end in
  if (f.(qf_proto) =? 0) && has c.(c_flags) CLFLAGS_UPLINKPORT then
    ends_I ← q_path_ends_I pdata pathlen pe;
    if (ends_I : bool) then
      prev ← q_prev_call pdata via_start pe;
      match prev with
      | Some p =>
          call ← rd_range pdata (p + 1) (pe - 2 - (p + 1));
          let '(t, n) := snprintf size (q_text proto 114 (cstr call)) in
          q_ret_dropcheck cfg c pdata t size n proto 114 f.(qf_start) p QNull None
      | None => Some (INERR_Q_I_NO_VIACALL, mk_qout pdata [] pe QNull None)
      end
    else
      let '(t, n) := snprintf size (q_text proto 83 c.(c_addr_hex)) in
      q_ret_dropcheck cfg c pdata t size n proto 83 f.(qf_start) pe QNull None
  else
    q_ret_dropcheck cfg c pdata [] size 0 f.(qf_proto) f.(qf_type) f.(qf_start) pe existing None.

Definition q_process (cfg : config) (c : client_t) (pdata : list Z) (new_q_size : Z)
    (via_start path_end pathlen : Z) (originated_by_client : bool) : option (Z * qout) :=
  let proto := cfg.(q_protocol_id) in
  let validated := negb (c.(c_validated) =? 0) in
  let udpsubmit := has c.(c_flags) CLFLAGS_UDPSUBMIT in
  let inport := has c.(c_flags) CLFLAGS_INPORT in
  f ← q_find pdata via_start path_end;
  if bool_decide (f.(qf_start) = None) && originated_by_client && negb udpsubmit then
    q_ret pdata new_q_size f.(qf_path_end) QNull (Some via_start)
      (if validated then str ",TCPIP*" ++ q_text proto 67 cfg.(serverid)
       else str ",TCPXX*" ++ q_text proto 88 cfg.(serverid))
  else if validated && originated_by_client && inport && negb (f.(qf_type) =? 73)
          && negb udpsubmit then
    q_ret pdata new_q_size f.(qf_path_end) QNull (Some via_start)
      (str ",TCPIP*" ++ q_text proto 67 cfg.(serverid))
  else if bool_decide (c.(c_state) = CSTATE_CONNECTED) && inport then
    q_inport cfg c pdata new_q_size via_start pathlen originated_by_client f
  else
    q_outbound cfg c pdata new_q_size via_start pathlen f.

End WithDirectory.

(** * Lemmas *)

(** The path after a construct, as its callsigns: each one preceded by a comma,
    none empty, none containing a comma. *)
Definition join_calls (calls : list (list Z)) : list Z := concat (map (cons ch_comma) calls).
Definition call_ok (call : list Z) : Prop :=
  call <> [] /\ Forall (fun c => (c =? ch_comma) = false) call.

Arguments join_calls : simpl never.

Fixpoint call_spans (pos : Z) (calls : list (list Z)) : list (Z * Z) :=
  match calls with
  | [] => []
  | call :: t => (pos + 1, zlen call) :: call_spans (pos + 1 + zlen call) t
  end.

Lemma q_callv_join n pre calls post :
  Forall call_ok calls -> (length calls <= n)%nat ->
  let e := zlen pre + zlen (join_calls calls) in
  exists v, q_callv n (pre ++ join_calls calls ++ post) (zlen pre) e = Some (v, e) /\
    q_call_spans v (e + 1) = call_spans (zlen pre) calls /\
    (match v with b :: _ => b | [] => e + 1 end) = zlen pre + 1.
Proof.
  cbv zeta. revert n pre. induction calls as [|call calls IH]; intros n pre Hok Hn.
  - exists []. unfold join_calls. simpl. rewrite zlen_nil, Z.add_0_r.
    destruct n; simpl; [done|]. split_if; [lia|done].
  - destruct n as [|n]; simpl in Hn; [lia|].
    inversion Hok as [|? ? [Hne Hnc] Hok']; subst. clear Hok.
    destruct call as [|x call]; [done|]. inversion Hnc as [|? ? Hx Hnc']; subst.
    set (J := join_calls calls) in *. set (P1 := pre ++ [ch_comma]).
    set (P2 := P1 ++ x :: call).
    remember (pre ++ join_calls ((x :: call) :: calls) ++ post) as buf eqn:Eb.
    assert (buf = P2 ++ J ++ post) as E4
      by (rewrite Eb; unfold P2, P1, J, join_calls; simpl; rewrite <- !app_assoc; done).
    assert (buf = P1 ++ (x :: call) ++ J ++ post) as E3
      by (rewrite E4; unfold P2; rewrite <- !app_assoc; done).
    assert (buf = pre ++ [ch_comma] ++ x :: call ++ J ++ post) as E1
      by (rewrite E3; unfold P1; rewrite <- !app_assoc; done).
    pose proof (zlen_nonneg J). pose proof (zlen_nonneg call).
    assert (zlen P1 = zlen pre + 1) as HP1 by (unfold P1; rewrite zlen_app; done).
    assert (zlen P2 = zlen P1 + 1 + zlen call) as HP2
      by (unfold P2; rewrite zlen_app, zlen_cons; lia).
    assert (zlen pre + zlen (join_calls ((x :: call) :: calls)) = zlen P2 + zlen J) as ->.
    { unfold join_calls at 1. simpl. fold (join_calls calls). fold J.
      rewrite !zlen_cons, zlen_app. lia. }
    set (e := zlen P2 + zlen J) in *.
    assert (scan buf (zlen pre) e (fun c => negb (c =? ch_comma)) = Some (zlen P1)) as S1.
    { rewrite E1, scan_skip; [|by repeat constructor|rewrite zlen_cons, zlen_nil; lia].
      fold P1. apply scan_stop; [by rewrite Hx|lia]. }
    destruct (IH n P2 Hok' ltac:(lia)) as (v & Hv & Hs & Hh).
    assert (scan buf (zlen P1) e (fun c => c =? ch_comma) = Some (zlen P2)) as S2.
    { rewrite E3, scan_skip; [|done|rewrite zlen_cons; lia]. fold P2.
      unfold e, J. destruct calls as [|cl calls]; simpl.
      - unfold join_calls. simpl. rewrite zlen_nil, Z.add_0_r. apply scan_end.
      - apply scan_stop; [done|]. unfold join_calls. simpl. rewrite zlen_cons.
        pose proof (zlen_nonneg (cl ++ concat (map (cons ch_comma) calls))). lia. }
    cbn [q_callv call_spans]. destruct (zlen pre <? e) eqn:E; [|lia]. rewrite S1. simpl.
    destruct (zlen P1 =? e) eqn:E2; [lia|]. rewrite S2. simpl.
    rewrite E4. fold e in Hv. rewrite Hv. simpl.
    exists (zlen P1 :: v). split; [done|]. split; [|lia]. simpl.
    fold e in Hs, Hh. rewrite Hs, Hh. rewrite zlen_cons.
    repeat (f_equal; try lia).
Qed.

Section Acceptance.
Context `{ClientDirectory}.

Definition is_login (c : client_t) (call : list Z) : bool :=
  (zlen call =? zlen c.(c_username)) && caseeq call c.(c_username).

(** What the callsigns after the construct must satisfy: none occurs twice; the
    login is the last one when the client is connected on an inbound port; any
    other callsign is well formed and is not a verified client of this server;
    and after qAU none is the source callsign. *)
Fixpoint calls_acceptable (c : client_t) (pdata : list Z) (q_type : Z)
    (calls : list (list Z)) : Prop :=
  match calls with
  | [] => True
  | call :: rest =>
      (call ∉ rest) /\
      (if is_login c call
       then c.(c_state) = CSTATE_CONNECTED -> has c.(c_flags) CLFLAGS_INPORT = true -> rest = []
       else clientlist_check_if_validated_client call = -1 /\ check_invalid_q_callsign call = 0) /\
      (q_type = 85 -> starts_with (call ++ [ch_gt]) pdata = false) /\
      calls_acceptable c pdata q_type rest
  end.

Lemma join_calls_cons call calls :
  join_calls (call :: calls) = ch_comma :: call ++ join_calls calls.
Proof. done. Qed.

Lemma rd_range_span pre calls post :
  Forall2 (fun sp call => rd_range (pre ++ join_calls calls ++ post) sp.1 sp.2 = Some call
                          /\ sp.2 = zlen call)
          (call_spans (zlen pre) calls) calls.
Proof.
  revert pre. induction calls as [|call calls IH]; intros pre; [constructor|].
  rewrite join_calls_cons. cbn [call_spans]. apply Forall2_cons.
  - split; [|done]. cbn [fst snd].
    assert (pre ++ (ch_comma :: call ++ join_calls calls) ++ post
            = (pre ++ [ch_comma]) ++ call ++ join_calls calls ++ post) as ->
      by (rewrite <- !app_assoc; simpl; by rewrite <- !app_assoc).
    replace (zlen pre + 1) with (zlen (pre ++ [ch_comma])) by (rewrite zlen_app; done).
    apply rd_range_mid.
  - specialize (IH (pre ++ ch_comma :: call)). rewrite zlen_app, zlen_cons in IH.
    replace (zlen pre + 1 + zlen call) with (zlen pre + (1 + zlen call)) by lia.
    assert (pre ++ (ch_comma :: call ++ join_calls calls) ++ post
            = (pre ++ ch_comma :: call) ++ join_calls calls ++ post) as ->; [|exact IH].
    rewrite <- !app_assoc. simpl. by rewrite <- app_assoc.
Qed.

(** Spans that denote callsigns, whatever the packet around them. *)
Definition spans_denote (pdata : list Z) : list (Z * Z) -> list (list Z) -> Prop :=
  Forall2 (fun sp call => rd_range pdata sp.1 sp.2 = Some call /\ sp.2 = zlen call).

Lemma q_call_twice_spec pdata call spans calls :
  spans_denote pdata spans calls ->
  q_call_twice pdata call (zlen call) spans = Some (bool_decide (call ∈ calls)).
Proof.
  induction 1 as [|[b lb] cl spans calls [Hr Hl] Hs IH]; simpl in *; [done|]. subst lb.
  destruct (zlen call =? zlen cl) eqn:E.
  - apply Z.eqb_eq in E. rewrite E, Hr. simpl. unfold beq.
    destruct (decide (call = cl)) as [Hc|Hc].
    + rewrite bool_decide_eq_true_2 by done. subst.
      rewrite bool_decide_eq_true_2; [done|]. apply elem_of_cons. by left.
    + rewrite (bool_decide_eq_false_2 (call = cl)) by done. rewrite <- E, IH. f_equal. apply bool_decide_ext. rewrite elem_of_cons. tauto.
  - rewrite IH. f_equal. apply bool_decide_ext. rewrite elem_of_cons.
    split; [by right|]. intros [->|?]; [lia|done].
Qed.

(** The "callsign is also the source" test compares the first bytes of the
    packet and the [>] behind them. *)
Lemma from_src_spec pdata call :
  zlen call < zlen pdata ->
  (src ← rd_range pdata 0 (zlen call);
   if beq call src then x ← rd pdata (zlen call); Some (x =? ch_gt) else Some false)
  = Some (starts_with (call ++ [ch_gt]) pdata).
Proof.
  intros Hl. pose proof (zlen_nonneg call).
  rewrite rd_range_in by lia. simpl. unfold beq, slice. simpl. rewrite drop_0.
  replace (Z.to_nat (zlen call)) with (length call) by (unfold zlen; lia).
  destruct (decide (call = take (length call) pdata)) as [Hc|Hc];
    [rewrite bool_decide_eq_true_2 by done|rewrite bool_decide_eq_false_2 by done].
  - rewrite <- (take_drop (length call) pdata) at 1 2. rewrite <- Hc.
    assert (drop (length call) pdata <> []) as Hd.
    { intros Hd%(f_equal length). rewrite length_drop in Hd. unfold zlen in Hl. simpl in Hd. lia. }
    destruct (drop (length call) pdata) as [|y rest]; [done|].
    rewrite rd_mid. simpl. f_equal. clear.
    induction call as [|a call IH]; simpl; [by rewrite andb_true_r, Z.eqb_sym|].
    by rewrite Z.eqb_refl.
  - f_equal. destruct (starts_with (call ++ [ch_gt]) pdata) eqn:E; [|done].
    exfalso. apply Hc. apply starts_with_spec in E as [t ->].
    rewrite <- !app_assoc. by rewrite take_app_length.
Qed.

Ltac reject := eexists; split; [done|]; right; eexists; split; [done|]; split; [done|].

(** The loop over the callsigns accepts exactly the acceptable ones. *)
Lemma q_check_calls_spec c pdata q_type spans calls b :
  spans_denote pdata spans calls -> Forall (fun call => zlen call < zlen pdata) calls ->
  exists r, q_check_calls c pdata q_type spans b = Some r /\
    ((r = inr (b || existsb (is_login c) calls) /\ calls_acceptable c pdata q_type calls) \/
     (exists e, r = inl e /\ e < 0 /\ ~ calls_acceptable c pdata q_type calls)).
Proof.
  intros Hs. revert b. induction Hs as [|[a l] call spans calls [Hr Hl] Hs IH]; intros b Hlt.
  - simpl. rewrite orb_false_r. eauto 6.
  - simpl in Hr, Hl. subst l. inversion Hlt as [|? ? Hc Hlt']; subst.
    cbn [q_check_calls]. rewrite Hr. cbn [mbind option_bind].
    rewrite (q_call_twice_spec _ _ _ _ Hs). cbn [mbind option_bind].
    fold (is_login c call). rewrite (from_src_spec pdata call Hc).
    assert (bool_decide (spans = []) = bool_decide (calls = [])) as ->.
    { apply bool_decide_ext. by destruct Hs. }
    cbn [calls_acceptable existsb].
    destruct (IH (b || is_login c call) Hlt') as (r & Hr' & Hcase).
    rewrite <- orb_assoc in Hcase.
    destruct (decide (call ∈ calls)) as [Hin|Hin];
      [rewrite bool_decide_eq_true_2 by done; reject; tauto|
       rewrite bool_decide_eq_false_2 by done].
    assert (forall P : Prop, P ->
      ((if is_login c call
        then c_state c = CSTATE_CONNECTED -> has (c_flags c) CLFLAGS_INPORT = true -> calls = []
        else clientlist_check_if_validated_client call = -1 /\ check_invalid_q_callsign call = 0)
       <-> P) ->
      exists r0,
        (from_src ← (if q_type =? 85 then Some (starts_with (call ++ [ch_gt]) pdata) else Some false);
         if (from_src : bool) then Some (inl INERR_Q_QAU_PATH_CALL_IS_SRCCALL)
         else q_check_calls c pdata q_type spans (b || is_login c call)) = Some r0 /\
        ((r0 = inr (b || (is_login c call || existsb (is_login c) calls)) /\
          (call ∉ calls) /\ P /\ (q_type = 85 -> starts_with (call ++ [ch_gt]) pdata = false) /\
          calls_acceptable c pdata q_type calls) \/
         (exists e, r0 = inl e /\ e < 0 /\
          ~ ((call ∉ calls) /\ P /\ (q_type = 85 -> starts_with (call ++ [ch_gt]) pdata = false) /\
             calls_acceptable c pdata q_type calls)))) as Htail.
    { intros P HP _.
      set (st := starts_with (call ++ [ch_gt]) pdata). set (ok := negb ((q_type =? 85) && st)).
      assert (((q_type = 85 -> st = false) <-> ok = true)) as Hok
        by (unfold ok; destruct (Z.eqb_spec q_type 85), st; simpl; intuition congruence).
      assert ((if q_type =? 85 then Some st else Some false) = Some (negb ok)) as ->
        by (unfold ok; destruct (q_type =? 85), st; done).
      cbn [mbind option_bind]. destruct ok; cbn [negb]; [|reject; rewrite Hok; intuition congruence].
      rewrite Hr'. exists r. split; [done|].
      destruct Hcase as [[-> ?]|(e & -> & ? & ?)]; [left|right; exists e]; tauto. }
    destruct (is_login c call) eqn:El; cbn [negb andb].
    + destruct (bool_decide (c_state c = CSTATE_CONNECTED)
                && has (c_flags c) CLFLAGS_INPORT && negb (bool_decide (calls = []))) eqn:E3.
      { reject. rewrite !andb_true_iff, negb_true_iff, bool_decide_eq_true,
          bool_decide_eq_false in E3. tauto. }
      apply Htail; [|done]. intros H1 H2. rewrite H1, H2 in E3.
      apply negb_false_iff, bool_decide_eq_true in E3. done.
    + destruct (clientlist_check_if_validated_client call =? -1) eqn:E4; cbn [negb andb];
        [|reject; apply Z.eqb_neq in E4; tauto].
      destruct (check_invalid_q_callsign call =? 0) eqn:E5; cbn [negb andb];
        [|reject; apply Z.eqb_neq in E5; tauto].
      apply Z.eqb_eq in E4, E5. by apply Htail.
Qed.
End Acceptance.

(** ** Shape of what the algorithm returns *)

Section Shape.
Context `{ClientDirectory}.

Lemma snprintf_fits size text : zlen text < size -> snprintf size text = (text, zlen text).
Proof.
  intros. unfold snprintf. rewrite take_ge; [done|]. unfold zlen in *. lia.
Qed.

Lemma zlen_q_text p t call : zlen (q_text p t call) = 5 + zlen call.
Proof. unfold q_text. rewrite zlen_app. done. Qed.

Lemma zlen_cstr s : zlen (cstr s) <= zlen s.
Proof.
  induction s as [|c s IH]; simpl; [done|]. split_if; rewrite ?zlen_cons, ?zlen_nil.
  - pose proof (zlen_nonneg s). lia.
  - lia.
Qed.

Lemma zlen_rd_range s a n x : rd_range s a n = Some x -> zlen x = n.
Proof. intros (?&?&?&->)%rd_range_Some. by apply zlen_slice. Qed.

Lemma memmem_Some s off len needle p :
  memmem s off len needle = Some (Some p) ->
  off <= p /\ p + zlen needle <= off + len /\ off + len <= zlen s /\ 0 <= off.
Proof.
  unfold memmem. intros H'. inv_bind H'. injection H' as H'.
  apply fmap_Some in H' as (k & Hk & ->).
  apply rd_range_Some in E as (?&?&?&->).
  apply find_sub_Some in Hk as [(a & b & Hab & <-) _].
  apply (f_equal zlen) in Hab. rewrite !zlen_app, zlen_slice in Hab by lia.
  pose proof (zlen_nonneg b). unfold zlen in *. lia.
Qed.

Lemma memmem_range s off len needle m :
  memmem s off len needle = Some m -> 0 <= off /\ 0 <= len /\ off + len <= zlen s.
Proof. unfold memmem. intros H'. inv_bind H'. apply rd_range_Some in E. lia. Qed.

(** The construct [q_find] reports lies in the path, and a complete one is
    followed by a callsign. *)
Lemma q_find_spec pdata via_start path_end f :
  q_find pdata via_start path_end = Some f ->
  0 <= via_start <= qf_path_end f /\ qf_path_end f <= path_end <= zlen pdata /\
  (forall qs, qf_start f = Some qs ->
     via_start <= qs <= qf_path_end f /\ (qf_path_end f = qs \/ qs + 5 < qf_path_end f)) /\
  (qf_proto f <> 0 \/ qf_type f <> 0 ->
     exists qs, qf_start f = Some qs /\ qf_path_end f = path_end /\ qs + 5 < path_end).
Proof.
  unfold q_find. intros H'. inv_bind H'.
  pose proof (memmem_range _ _ _ _ _ E) as Hr.
  destruct x as [qs|]; [|injection H' as <-; simpl; intuition (congruence || lia)].
  apply memmem_Some in E. change (zlen (str ",q")) with 2 in E.
  inv_bind H'. destruct x as [nx|].
  2: { injection H' as <-. simpl. split; [lia|]. split; [lia|]. split; [|lia].
       intros ? [= <-]. lia. }
  apply memmem_Some in E0. change (zlen [ch_comma]) with 1 in E0.
  destruct (nx - qs =? 4) eqn:E4; simpl in H'.
  2: { injection H' as <-. simpl. split; [lia|]. split; [lia|]. split; [|lia].
       intros ? [= <-]. lia. }
  inv_bind H'. inv_bind H'. inv_bind H'. apply scan_spec in E3; [|lia].
  split_if_in H'; injection H' as <-; simpl.
  - split; [lia|]. split; [lia|]. split; [|lia]. intros ? [= <-]. lia.
  - split; [lia|]. split; [lia|]. split; [intros ? [= <-]; lia|].
    intros _. exists qs. split; [done|]. split; [done|]. lia.
Qed.

(** No comma before the digipeater path. *)
Definition no_comma_before (pdata : list Z) (via_start : Z) : Prop :=
  forall i, i < via_start -> rd pdata i <> Some ch_comma.

Lemma no_comma_take pdata via_start :
  forallb (fun c => negb (c =? ch_comma)) (take (Z.to_nat via_start) pdata) = true ->
  no_comma_before pdata via_start.
Proof.
  intros Hf i Hi Hr. pose proof (rd_Some _ _ _ Hr) as Hb. unfold rd in Hr.
  destruct (0 <=? i) eqn:E; [|done]. rewrite forallb_forall in Hf.
  specialize (Hf ch_comma). rewrite Z.eqb_refl in Hf. cut (false = true); [done|].
  apply Hf, list_elem_of_In, list_elem_of_lookup. exists (Z.to_nat i).
  rewrite lookup_take. case_decide; [done|lia].
Qed.

Lemma q_prev_call_spec pdata via_start path_end p :
  no_comma_before pdata via_start ->
  q_prev_call pdata via_start path_end = Some (Some p) -> via_start <= p <= path_end - 3.
Proof.
  unfold q_prev_call, rscan. intros Hn H'. inv_bind H'. inv_bind H'.
  apply rscan_n_spec in E as (Hr & _). destruct (x0 =? ch_comma) eqn:Ex; [|done].
  injection H' as <-. apply Z.eqb_eq in Ex. subst. split; [|lia].
  destruct (Z.ltb_spec x via_start); [|done]. exfalso. by apply (Hn x).
Qed.

Lemma q_trace_spec cfg c pdata size qs path_end b n t :
  zlen cfg.(serverid) <= 18 ->
  q_trace cfg c pdata size qs path_end b = Some (n, t) -> 0 <= n ->
  zlen t = n /\ n < size /\ path_end - qs - 1 <= n.
Proof.
  unfold q_trace. intros Hid H' Hn.
  destruct (path_end - qs - 1 >? size) eqn:E; [injection H' as <- <-; done|].
  inv_bind H'. apply zlen_rd_range in E0.
  set (L := path_end - qs - 1) in *.
  destruct (negb (c_validated c =? 0) && negb b && negb (bool_decide (c_state c = CSTATE_COREPEER))).
  - unfold snprintf at 1 in H'.
    destruct (size - (L + zlen (ch_comma :: c_username c)) <? 20) eqn:E1;
      [injection H' as <- <-; done|].
    rewrite snprintf_fits in H' by (rewrite zlen_cons; lia). injection H' as <- <-.
    rewrite take_ge by (unfold zlen in *; lia).
    pose proof (zlen_nonneg (c_username c)). pose proof (zlen_nonneg (serverid cfg)).
    rewrite !zlen_app, !zlen_cons in *. lia.
  - destruct (size - (L + 0) <? 20) eqn:E1; [injection H' as <- <-; done|].
    rewrite snprintf_fits in H' by (rewrite zlen_cons; lia). injection H' as <- <-.
    pose proof (zlen_nonneg (serverid cfg)).
    rewrite !zlen_app, !zlen_cons, ?zlen_nil in *. lia.
Qed.

Lemma q_check_calls_neg c pdata ty spans b e :
  q_check_calls c pdata ty spans b = Some (inl e) -> e < 0.
Proof.
  revert b. induction spans as [|[a l] spans IH]; intros b H'; simpl in H'; [done|].
  inv_bind H'. inv_bind H'.
  repeat (split_if_in H'; [injection H' as <-; done|]).
  inv_bind H'. split_if_in H'; [injection H' as <-; done|]. eauto.
Qed.

(** When [q_dropcheck] does not drop the packet it returns the construct it was
    given, or, for a qAI packet, the extended trace. *)
Lemma q_dropcheck_spec cfg c pdata new_q size n proto ty q_start repl pe n' t' r' :
  zlen cfg.(serverid) <= 18 ->
  q_dropcheck cfg c pdata new_q size n proto ty q_start repl pe = Some (n', t', r') -> 0 <= n' ->
  (n' = n /\ t' = new_q /\ r' = repl) \/
  (ty = 73 /\ exists qs, q_start = Some qs /\ r' = Some (qs + 1) /\ zlen t' = n' /\ n' < size /\
     pe - qs - 1 <= n').
Proof.
  unfold q_dropcheck. intros Hid H' Hn.
  repeat (split_if_in H'; [injection H' as <- <- <-; done|]).
  inv_bind H'. inv_bind H'. split_if_in H'; [injection H' as <- <- <-; done|].
  inv_bind H'. destruct x1 as [e|b].
  { injection H' as <- <- <-. apply q_check_calls_neg in E1. lia. }
  destruct (ty =? 73) eqn:E73; [|injection H' as <- <- <-; by left].
  right. split; [lia|]. inv_bind H'. inv_bind H'. destruct x2 as [m t].
  injection H' as <- <- <-. exists x1. split; [done|]. split; [done|].
  destruct (m <? 0) eqn:Em; [lia|]. by apply (q_trace_spec _ _ _ _ _ _ _ _ _ Hid E3).
Qed.

(** The bounds the callers establish: the sizes of the structure members and of
    [path_append], and the maximal length of a packet. *)
Record q_bounds (cfg : config) (c : client_t) (pdata : list Z) (size via_start path_end : Z) : Prop := {
  qb_serverid : zlen cfg.(serverid) <= CALLSIGNLEN_MAX;
  qb_username : zlen c.(c_username) <= 15;
  qb_addr_hex : zlen c.(c_addr_hex) <= 35;
  qb_size : 600 <= size;
  qb_path : path_end <= PACKETLEN_MAX;
  qb_dst : no_comma_before pdata via_start
}.

(** Where the rewritten part of the header starts. *)
Definition qo_at (o : qout) : Z := default o.(qo_path_end) o.(qo_q_replace).

(** A result that is not a drop describes a rewrite of the header: the text has
    the returned length and was not truncated, the path may only be cut, and the
    place to replace from is in the path that is left.  A new construct has a
    comma, three characters and a comma; an old one in the path that is left
    starts before the rewritten part and is followed by more than a comma. *)
Definition qout_ok (pdata : list Z) (size via_start path_end n : Z) (o : qout) : Prop :=
  n < 0 \/
  (zlen o.(qo_new_q) = n /\ n < size /\ via_start <= o.(qo_path_end) <= path_end /\
   zlen o.(qo_pdata) = zlen pdata /\
   (forall r, o.(qo_q_replace) = Some r -> via_start <= r <= o.(qo_path_end)) /\
   (o.(qo_new_q_start) = QNull -> 5 <= n) /\
   (forall a, o.(qo_new_q_start) = QAt a ->
      via_start < a /\ (a < o.(qo_path_end) -> a <= qo_at o /\ a + 4 <= qo_at o + n))).

Lemma q_ret_ok pdata0 pdata size via path_end pe repl text n o :
  5 <= zlen text < size -> via <= pe <= path_end -> zlen pdata = zlen pdata0 ->
  (forall r, repl = Some r -> via <= r <= pe) ->
  q_ret pdata size pe QNull repl text = Some (n, o) -> qout_ok pdata0 size via path_end n o.
Proof.
  intros [Ht0 Ht] Hpe Hl Hr. unfold q_ret. rewrite snprintf_fits by done.
  intros [= <- <-]. right. done.
Qed.

Lemma q_ret_dropcheck_ok cfg c pdata0 pdata new_q size n0 proto ty q_start via path_end pe start n o :
  zlen cfg.(serverid) <= 18 ->
  zlen new_q = n0 -> n0 < size -> via <= pe <= path_end -> zlen pdata = zlen pdata0 ->
  (forall qs, ty = 73 -> q_start = Some qs -> via <= qs + 1 <= pe) ->
  (start = QNull -> 5 <= n0 /\ ty <> 73) ->
  (forall a, start = QAt a -> exists qs, q_start = Some qs /\ a = qs + 1 /\ via <= qs /\ (a < pe -> qs + 5 < pe)) ->
  q_ret_dropcheck cfg c pdata new_q size n0 proto ty q_start pe start None = Some (n, o) ->
  qout_ok pdata0 size via path_end n o.
Proof.
  intros Hid Hn Hs Hpe Hl Hqs Hnew Ha H'. unfold q_ret_dropcheck in H'. inv_bind H'.
  destruct x as [[n' t'] r']. injection H' as <- <-.
  destruct (Z.ltb_spec n' 0) as [?|Hn']; [by left|]. right. unfold qo_at. simpl.
  destruct (q_dropcheck_spec _ _ _ _ _ _ _ _ _ _ _ _ _ _ Hid E Hn')
    as [(-> & -> & ->)|(Hty & qs & Hq & -> & Hz & Hlt & Hlong)].
  - repeat (split; [done|]). split; [intros ?; by apply Hnew|].
    intros a Es. destruct (Ha a Es) as (qs & _ & -> & Hv & Hc). cbn. lia.
  - repeat (split; [done|]). split; [intros r [= <-]; by apply Hqs|].
    split; [intros Es; by destruct (Hnew Es)|].
    intros a Es. destruct (Ha a Es) as (qs' & Eq & -> & Hv & Hc). simplify_eq. cbn. lia.
Qed.

(** Side conditions of [q_ret_dropcheck_ok]. *)
Ltac side :=
  intros;
  try match goal with |- context [zlen (q_text _ _ ?call)] => pose proof (zlen_nonneg call) end;
  rewrite ?zlen_q_text; first [discriminate | lia].

Lemma q_clientonly_ok cfg c pdata size via path_end pathlen f n o :
  q_bounds cfg c pdata size via path_end -> q_find pdata via path_end = Some f ->
  q_clientonly cfg c pdata size via pathlen f = Some (n, o) ->
  qout_ok pdata size via path_end n o.
Proof.
  intros [Hid Hu Hx Hs Hp Hd] Hf H'. unfold CALLSIGNLEN_MAX, PACKETLEN_MAX in *.
  apply q_find_spec in Hf as (Hv & Hpe & Hqs & Hc).
  unfold q_clientonly in H'. destruct (qf_proto f =? 0) eqn:Ep; cbn [negb] in H'.
  - inv_bind H'. inv_bind H'. destruct x0 as [p|].
    + destruct x; [|done]. apply q_prev_call_spec in E0; [|done].
      inv_bind H'. apply zlen_rd_range in E1. pose proof (zlen_cstr x).
      rewrite snprintf_fits in H' by (rewrite zlen_q_text; lia).
      eapply q_ret_dropcheck_ok; [..|exact H']; try done; side.
    + rewrite snprintf_fits in H' by (rewrite zlen_q_text; lia).
      eapply q_ret_dropcheck_ok; [..|exact H']; try done; side.
  - destruct Hc as (qs & Eqs & Epe & Hlt); [lia|]. rewrite Eqs in H'. cbn [mbind option_bind] in H'.
    specialize (Hqs qs Eqs). inv_bind H'.
    eapply q_ret_dropcheck_ok; [..|exact H']; try done; try lia.
    + split_if_in E; [|by injection E as <-]. unfold wr in E. split_if_in E; [|done].
      injection E as <-. unfold zlen. by rewrite length_insert.
    + intros ? _ [= <-]. lia.
    + intros a [= <-]. exists qs. split; [done|]. lia.
Qed.

Lemma q_inport_ok cfg c pdata size via path_end pathlen orig f n o :
  q_bounds cfg c pdata size via path_end -> q_find pdata via path_end = Some f ->
  q_inport cfg c pdata size via pathlen orig f = Some (n, o) ->
  qout_ok pdata size via path_end n o.
Proof.
  intros Hb Hf H'. pose proof Hb as [Hid Hu Hx Hs Hp Hd]. unfold CALLSIGNLEN_MAX, PACKETLEN_MAX in *.
  pose proof (zlen_nonneg (serverid cfg)).
  pose proof (q_find_spec _ _ _ _ Hf) as (Hv & Hpe & Hqs & Hc).
  unfold q_inport in H'.
  split_if_in H'.
  { inv_bind H'. inv_bind H'. eapply q_ret_ok; [..|exact H']; try done.
    - rewrite zlen_app, zlen_q_text. destruct x0; rewrite ?zlen_nil;
        [|change (zlen (str ",TCPIP*")) with 7]; lia.
    - split_if_in E; [apply Hqs in E|injection E as <-]; lia. }
  split_if_in H'.
  { split_if_in H'; [injection H' as <- <-; by left|].
    eapply q_ret_ok; [..|exact H']; try done; [|lia].
    rewrite zlen_app, zlen_q_text. change (zlen (str ",TCPXX*")) with 7. lia. }
  split_if_in H'.
  { eapply q_ret_ok; [..|exact H']; try done; [rewrite zlen_q_text; lia|].
    destruct (qf_start f) as [qs|]; [specialize (Hqs qs eq_refl)|]; lia. }
  split_if_in H'; [by eapply q_clientonly_ok|].
  split_if_in H'.
  { destruct Hc as (qs & Eqs & Epe & Hlt); [lia|]. rewrite Eqs in H'.
    cbn [mbind option_bind] in H'. specialize (Hqs qs Eqs).
    eapply q_ret_dropcheck_ok; [..|exact H']; try done; try lia.
    - intros ? _ [= <-]. lia.
    - intros a [= <-]. exists qs. split; [done|]. lia. }
  unfold q_inport_generate in H'. inv_bind H'. destruct x.
  { inv_bind H'. destruct x as [p|]; [|injection H' as <- <-; by left].
    apply q_prev_call_spec in E0; [|done].
    inv_bind H'. apply zlen_rd_range in E1. pose proof (zlen_cstr x).
    split_if_in H'; rewrite snprintf_fits in H' by (rewrite zlen_q_text; lia);
      (eapply q_ret_dropcheck_ok; [..|exact H']; try done; side). }
  destruct orig.
  { inv_bind H'. eapply q_ret_ok; [..|exact H']; try done; [|lia].
    rewrite zlen_app, zlen_q_text. destruct x; rewrite ?zlen_nil;
      [|change (zlen (str ",TCPIP*")) with 7]; lia. }
  rewrite snprintf_fits in H' by (rewrite zlen_q_text; lia).
  eapply q_ret_dropcheck_ok; [..|exact H']; try done; side.
Qed.

Lemma q_outbound_ok cfg c pdata size via path_end pathlen f n o :
  q_bounds cfg c pdata size via path_end -> q_find pdata via path_end = Some f ->
  q_outbound cfg c pdata size via pathlen f = Some (n, o) ->
  qout_ok pdata size via path_end n o.
Proof.
  intros [Hid Hu Hx Hs Hp Hd] Hf H'. unfold CALLSIGNLEN_MAX, PACKETLEN_MAX in *.
  apply q_find_spec in Hf as (Hv & Hpe & Hqs & Hc).
  unfold q_outbound in H'. split_if_in H'.
  - inv_bind H'. destruct x.
    + inv_bind H'. destruct x as [p|]; [|injection H' as <- <-; by left].
      apply q_prev_call_spec in E0; [|done].
      inv_bind H'. apply zlen_rd_range in E1. pose proof (zlen_cstr x).
      rewrite snprintf_fits in H' by (rewrite zlen_q_text; lia).
      eapply q_ret_dropcheck_ok; [..|exact H']; try done; side.
    + rewrite snprintf_fits in H' by (rewrite zlen_q_text; lia).
      eapply q_ret_dropcheck_ok; [..|exact H']; try done; side.
  - eapply q_ret_dropcheck_ok; [..|exact H']; try done; try lia.
    + intros qs Ht Eq. destruct Hc as (qs' & Eqs & Epe & Hlt); [lia|].
      specialize (Hqs qs Eq). assert (qs' = qs) by congruence. lia.
    + intros ?. destruct (qf_start f); discriminate.
    + intros a. destruct (qf_start f) as [qs|] eqn:Eq; intros [= <-].
      specialize (Hqs qs eq_refl). exists qs. split; [done|]. split; [done|]. split; [lia|].
      lia.
Qed.
Lemma q_process_ok cfg c pdata size via path_end pathlen orig n o :
  q_bounds cfg c pdata size via path_end ->
  q_process cfg c pdata size via path_end pathlen orig = Some (n, o) -> qout_ok pdata size via path_end n o.
Proof.
  intros Hb H'. unfold q_process in H'. inv_bind H'. rename x into f. pose proof Hb as [Hid Hu Hx Hs Hp Hd].
  pose proof (q_find_spec _ _ _ _ E) as (H1 & H2 & H3 & H4). pose proof (zlen_nonneg (serverid cfg)).
  assert (Hfits : forall (lit : list Z) t, zlen lit = 7 ->
    q_ret pdata size (qf_path_end f) QNull (Some via) (lit ++ q_text (q_protocol_id cfg) t (serverid cfg)) = Some (n, o) ->
    qout_ok pdata size via path_end n o).
  { intros lit t Hlit Hq. eapply q_ret_ok; [..|exact Hq]; try done; try lia.
    - rewrite zlen_app, zlen_q_text. unfold CALLSIGNLEN_MAX in *. lia.
    - intros ? [= <-]. lia. }
  split_if_in H'; [split_if_in H'; by eapply Hfits; [|exact H']|].
  split_if_in H'; [by eapply Hfits; [|exact H']|].
  split_if_in H'; [by eapply q_inport_ok|by eapply q_outbound_ok].
Qed.
End Shape.

(** ** What the new header is made of *)

Section Texts.
Context `{ClientDirectory} (cfg : config) (c : client_t) (pdata : list Z).

(** The identifiers are bytes. *)
Record q_bytes : Prop := {
  qy_serverid : bytes_ok cfg.(serverid);
  qy_username : bytes_ok c.(c_username);
  qy_addr_hex : bytes_ok c.(c_addr_hex);
  qy_proto : is_byte cfg.(q_protocol_id);
  qy_pdata : bytes_ok pdata
}.
Context (Hb : q_bytes).

(** The packet is as before, or the type of its construct was changed. *)
Definition q_kept (via path_end : Z) (pdata' : list Z) : Prop :=
  pdata' = pdata \/ exists i v, via < i < path_end /\ (v = 111 \/ v = 79) /\ pdata' = <[Z.to_nat i := v]> pdata.

Definition q_texts (via path_end : Z) (m : option (Z * qout)) : Prop :=
  forall n o, m = Some (n, o) -> bytes_ok o.(qo_new_q) /\ q_kept via path_end o.(qo_pdata).

Lemma q_text_bytes p t call : is_byte p -> is_byte t -> bytes_ok call -> bytes_ok (q_text p t call).
Proof. intros Hp Ht Hc. unfold q_text, is_byte in *. repeat (constructor; [unfold is_byte; lia|]). done. Qed.

Lemma bytes_ok_cstr s : bytes_ok s -> bytes_ok (cstr s).
Proof. induction 1 as [|x s Hx Hs IH]; cbn; [constructor|]. destruct (x =? 0); by constructor. Qed.

Lemma bytes_ok_take n s : bytes_ok s -> bytes_ok (take n s).
Proof. apply Forall_take. Qed.

Lemma bytes_ok_rd_range s a n h : bytes_ok s -> rd_range s a n = Some h -> bytes_ok h.
Proof. intros Hs Hr. apply rd_range_Some in Hr as (_ & _ & _ & ->). by apply bytes_ok_slice. Qed.

Lemma bytes_ok_comma s : bytes_ok s -> bytes_ok (ch_comma :: s).
Proof. intros Hs. by constructor. Qed.

Lemma q_texts_bind {A} via pe (m : option A) k :
  (forall x, m = Some x -> q_texts via pe (k x)) -> q_texts via pe (m ≫= k).
Proof. intros Hk n o. destruct m as [x|]; [|done]. by apply Hk. Qed.

Lemma q_texts_ret via pe size pe' start repl text :
  bytes_ok text -> q_texts via pe (q_ret pdata size pe' start repl text).
Proof. intros Ht n o. unfold q_ret, snprintf. intros [= <- <-]. split; [by apply bytes_ok_take|by left]. Qed.

Lemma q_texts_drop via pe e pe' start repl : q_texts via pe (Some (e, mk_qout pdata [] pe' start repl)).
Proof. intros n o [= <- <-]. split; [constructor|by left]. Qed.

Lemma q_trace_bytes d size qs pe b n t : bytes_ok d -> q_trace cfg c d size qs pe b = Some (n, t) -> bytes_ok t.
Proof.
  intros Hd Ht. destruct Hb. unfold q_trace, snprintf in Ht. split_if_in Ht; [injection Ht as <- <-; constructor|].
  inv_bind Ht. pose proof (bytes_ok_rd_range _ _ _ _ Hd E) as Hx.
  split_if_in Ht; split_if_in Ht; injection Ht as <- <-; repeat apply bytes_ok_app;
    try (apply bytes_ok_take, bytes_ok_comma); done || constructor.
Qed.

Lemma q_texts_dropcheck via pe d new_q size n0 proto ty q_start pe' start repl :
  bytes_ok d -> bytes_ok new_q -> q_kept via pe d ->
  q_texts via pe (q_ret_dropcheck cfg c d new_q size n0 proto ty q_start pe' start repl).
Proof.
  intros Hd Hn Hk n o H'. unfold q_ret_dropcheck in H'. inv_bind H'. destruct x as [[n' t'] r'].
  injection H' as <- <-. split; [|done]. cbn [qo_new_q]. unfold q_dropcheck in E.
  repeat (split_if_in E; [by injection E as <- <- <-|]).
  inv_bind E. inv_bind E. split_if_in E; [by injection E as <- <- <-|]. inv_bind E.
  destruct x1; [by injection E as <- <- <-|]. split_if_in E; [|by injection E as <- <- <-].
  inv_bind E. inv_bind E. destruct x2 as [m t]. injection E as <- <- <-. split_if; [done|].
  eapply q_trace_bytes; [exact Hd|eassumption].
Qed.

Lemma q_kept_bytes via pe d : q_kept via pe d -> bytes_ok d.
Proof.
  destruct Hb. intros [->|(i & v & Hi & Hv & ->)]; [done|]. apply Forall_insert; [done|].
  unfold is_byte. lia.
Qed.

(** The type of the construct changed in place. *)
Lemma retype_kept f via path_end qs d :
  (forall qs, qf_start f = Some qs ->
     via <= qs <= qf_path_end f /\ (qf_path_end f = qs \/ qs + 5 < qf_path_end f)) ->
  (qf_proto f <> 0 \/ qf_type f <> 0 ->
     exists qs, qf_start f = Some qs /\ qf_path_end f = path_end /\ qs + 5 < path_end) ->
  qf_start f = Some qs ->
  (if (qf_type f =? 82) || (qf_type f =? 114) || (qf_type f =? 83) || (qf_type f =? 67)
   then wr pdata (qs + 3) (if (qf_type f =? 82) || (qf_type f =? 114) then 111
                           else if (qf_type f =? 83) || (qf_type f =? 67) then 79 else qf_type f)
   else Some pdata) = Some d -> q_kept via path_end d.
Proof.
  intros Hqs Hc Hq Hw. destruct (_ || (qf_type f =? 67)) eqn:Et; [|injection Hw as <-; by left].
  unfold wr in Hw. split_if_in Hw; [|done]. injection Hw as <-.
  destruct Hc as (qs' & Hq' & He & Hl); [lia|]. destruct (Hqs _ Hq) as [? _]. right. eexists _, _.
  split; [|split; [|reflexivity]]; [simplify_eq; lia|]. repeat split_if; lia.
Qed.

Ltac texts_step :=
  match goal with
  | |- q_texts _ _ (mbind _ _) => apply q_texts_bind; intros
  | |- q_texts _ _ (if ?b then _ else _) => destruct b
  | |- q_texts _ _ (match ?x with Some _ => _ | None => _ end) => destruct x
  | |- q_texts _ _ (q_ret _ _ _ _ _ _) => apply q_texts_ret
  | |- q_texts _ _ (Some (_, mk_qout _ [] _ _ _)) => apply q_texts_drop
  | |- q_texts _ _ (q_ret_dropcheck _ _ _ _ _ _ _ _ _ _ _ _) => apply q_texts_dropcheck
  | |- bytes_ok (_ ++ _) => apply bytes_ok_app
  | |- bytes_ok (take _ _) => apply bytes_ok_take
  | |- bytes_ok (cstr _) => apply bytes_ok_cstr
  | |- bytes_ok (if ?b then _ else _) => destruct b
  | |- bytes_ok [] => constructor
  | H : forall p t call, _ |- bytes_ok (q_text _ _ _) => apply H; [done || (unfold is_byte in *; lia)..|]
  | H : rd_range _ _ _ = Some ?x |- bytes_ok ?x => eapply bytes_ok_rd_range; [|exact H]
  end || done.
Lemma q_process_texts size via path_end pathlen orig :
  q_texts via path_end (q_process cfg c pdata size via path_end pathlen orig).
Proof.
  pose proof Hb as [H1 H2 H3 H4 H5]. unfold q_process. apply q_texts_bind. intros f Hf.
  apply q_find_spec in Hf as (Hv & Hpe & Hqs & Hc).
  assert (forall t, 0 <= t < 256 -> bytes_ok (q_text (q_protocol_id cfg) t (serverid cfg))) as Hid
    by (intros; by apply q_text_bytes).
  assert (bytes_ok (str ",TCPIP*") /\ bytes_ok (str ",TCPXX*")) as [Hip Hxx]
    by (split; apply bytes_ok_b; reflexivity).
  assert (forall p t call, 0 <= p < 256 -> 0 <= t < 256 -> bytes_ok call -> bytes_ok (q_text p t call)) as Hqt
    by (intros; by apply q_text_bytes).
  assert (q_kept via path_end pdata) as Hkept by by left.
  unfold q_inport, q_outbound, q_clientonly, q_inport_generate, snprintf. cbv zeta.
  repeat texts_step.
  all: rename select (_ = Some x0) into Hw.
  - eapply q_kept_bytes, retype_kept; [done..|exact Hw].
  - eapply retype_kept; [done..|exact Hw].
Qed.
End Texts.

(** ** The algorithm is defined on every well-formed header *)

Section Defined.
Context `{ClientDirectory}.

(** Spans that lie in the packet, before its end. *)
Definition spans_in (pdata : list Z) (lo hi : Z) : list (Z * Z) -> Prop :=
  Forall (fun sp => lo <= sp.1 /\ 0 <= sp.2 /\ sp.1 + sp.2 <= hi /\ hi < zlen pdata).

Lemma q_callv_in n pdata p pe :
  0 <= p -> pe < zlen pdata ->
  exists v last, q_callv n pdata p pe = Some (v, last) /\ p <= last <= Z.max p pe /\
    spans_in pdata p pe (q_call_spans v (last + 1)) /\
    Forall (fun a => p <= a <= last) v.
Proof.
  intros Hp Hpe. revert p Hp. induction n as [|n IH]; intros p Hp; cbn [q_callv].
  - exists [], p. repeat split; [lia..| |]; constructor.
  - destruct (p <? pe) eqn:E; [|exists [], p; repeat split; [lia..| |]; constructor].
    destruct (scan_in pdata p pe (fun c => negb (c =? ch_comma))) as [p1 H1]; [lia..|].
    rewrite H1. cbn [mbind option_bind]. apply scan_spec in H1 as (Hp1 & _ & Hs1); [|lia].
    destruct (p1 =? pe) eqn:E1; [exists [], p1; repeat split; [lia..| |]; constructor|].
    destruct (scan_in pdata p1 pe (fun c => c =? ch_comma)) as [p2 H2]; [lia..|].
    rewrite H2. cbn [mbind option_bind]. apply scan_spec in H2 as (Hp2 & _ & Hs2); [|lia].
    assert (p1 < p2).
    { destruct (decide (p1 = p2)) as [->|]; [|lia].
      destruct Hs1 as (x & Hx & Hcx); [lia|]. destruct Hs2 as (y & Hy & Hcy); [lia|].
      rewrite Hx in Hy. injection Hy as <-. by rewrite Hcy in Hcx. }
    destruct (IH p2 ltac:(lia)) as (v & last & Hv & Hl & Hsp & Hva).
    rewrite Hv. cbn [mbind option_bind].
    exists (p1 :: v), last. split; [done|]. split; [lia|]. split.
    + cbn [q_call_spans]. constructor; cbn [fst snd].
      * destruct v as [|b v]; [|inversion Hva; subst]; repeat split; lia.
      * eapply Forall_impl; [|exact Hsp]. cbn. intros ? ?. repeat split; lia.
    + constructor; [lia|]. eapply Forall_impl; [|exact Hva]. cbn. intros. lia.
Qed.

Lemma q_call_twice_in pdata call l rest lo hi :
  0 <= lo -> spans_in pdata lo hi rest -> exists b, q_call_twice pdata call l rest = Some b.
Proof.
  intros Hlo. induction 1 as [|[a m] rest Hs _ IH]; cbn [q_call_twice]; [eauto|].
  cbn in Hs. destruct (l =? m) eqn:E; [|done]. rewrite rd_range_in by lia. cbn.
  destruct (beq _ _); eauto.
Qed.

Lemma q_check_calls_in c pdata ty spans b lo hi :
  0 <= lo -> spans_in pdata lo hi spans -> exists r, q_check_calls c pdata ty spans b = Some r.
Proof.
  intros Hlo Hs. revert b. induction Hs as [|[a l] rest Hx Hs IH]; intros b; cbn [q_check_calls];
    [eauto|]. cbn in Hx. rewrite (rd_range_in pdata a l) by lia. cbn [mbind option_bind].
  destruct (q_call_twice_in pdata (slice pdata a l) l rest lo hi) as [tw Htw]; [done..|].
  rewrite Htw. cbn [mbind option_bind]. do 4 (split_if; [eauto|]).
  assert (exists fs : bool, (if ty =? 85 then
      src ← rd_range pdata 0 l;
      if beq (slice pdata a l) src then x ← rd pdata l; Some (x =? ch_gt) else Some false
    else Some false) = Some fs) as [fs ->].
  { split_if; [|eauto]. rewrite rd_range_in by lia. cbn [mbind option_bind].
    split_if; [|eauto]. destruct (rd_in pdata l) as [y ->]; [lia|]. cbn. eauto. }
  cbn [mbind option_bind]. destruct fs; eauto.
Qed.

(** [q_dropcheck] is defined when there is no construct, and when the construct
    is complete. *)
Lemma q_dropcheck_in cfg c pdata new_q size n proto ty q_start repl pe :
  pe < zlen pdata -> (ty = 73 -> q_start <> None) ->
  (forall qs, q_start = Some qs -> 0 <= qs /\ qs + 4 <= pe) ->
  exists r, q_dropcheck cfg c pdata new_q size n proto ty q_start repl pe = Some r.
Proof.
  intros Hpe Hty Hqs. unfold q_dropcheck. do 3 (split_if; [eauto|]).
  destruct q_start as [qs|].
  - destruct (Hqs qs eq_refl) as [H0 H1].
    destruct (q_callv_in MAX_Q_CALLS pdata (qs + 4) pe) as (v & last & -> & Hl & Hsp & _); [lia..|].
    cbn [mbind option_bind].
    assert (exists m, q_mycall_in_path cfg pdata qs pe = Some m) as [m ->].
    { unfold q_mycall_in_path, memmem. rewrite rd_range_in by lia. cbn [mbind option_bind].
      destruct (find_sub (serverid cfg) _) as [k|] eqn:Ek; [|cbn; eauto].
      apply find_sub_Some in Ek as [(x & y & Hxy & Hk) _].
      apply (f_equal zlen) in Hxy. rewrite !zlen_app, zlen_slice in Hxy by lia.
      pose proof (zlen_nonneg y). pose proof (zlen_nonneg (serverid cfg)).
      assert (zlen x = Z.of_nat k) by (unfold zlen; by rewrite Hk). cbn [fmap option_fmap option_map].
      destruct (rd_in pdata (qs + 4 + Z.of_nat k - 1)) as [bf ->]; [lia|]. cbn [mbind option_bind].
      split_if; [|eauto]. destruct (rd_in pdata (qs + 4 + Z.of_nat k + zlen (serverid cfg))) as [af ->];
        [lia|]. cbn. eauto. }
    cbn [mbind option_bind]. destruct m; [eauto|].
    destruct (q_check_calls_in c pdata ty (q_call_spans v (last + 1)) false (qs + 4) pe) as [r ->]; [lia|done|].
    cbn [mbind option_bind]. destruct r as [e|b]; [eauto|]. split_if; [|eauto].
    unfold q_trace. split_if; [cbn; eauto|]. rewrite rd_range_in by lia. cbn [mbind option_bind].
    repeat match goal with |- context [snprintf ?a ?b] => destruct (snprintf a b) as [? ?] end.
    destruct (negb (c_validated c =? 0) && negb b && negb (bool_decide (c_state c = CSTATE_COREPEER)));
      split_if; cbn; eauto.
  - cbn. split_if; [|eauto]. destruct Hty; [lia|done].
Qed.

Lemma q_ret_dropcheck_in cfg c pdata new_q size n proto ty q_start pe start repl :
  pe < zlen pdata -> (ty = 73 -> q_start <> None) ->
  (forall qs, q_start = Some qs -> 0 <= qs /\ qs + 4 <= pe) ->
  exists r, q_ret_dropcheck cfg c pdata new_q size n proto ty q_start pe start repl = Some r.
Proof.
  intros Hp Ht Hq. unfold q_ret_dropcheck.
  destruct (q_dropcheck_in cfg c pdata new_q size n proto ty q_start repl pe) as [[[m t] r] ->];
    [done..|]. cbn. eauto.
Qed.

(** What the caller establishes before the algorithm runs: the path ends at the
    colon of the line, source, destination and the [>] between them take seven
    bytes at least, no comma comes before the path, and the construct, when
    there is one, is complete. *)
Record q_input (pdata : list Z) (via_start path_end : Z) : Prop := {
  qi_via : 7 <= via_start <= path_end;
  qi_end : path_end < zlen pdata;
  qi_dst : no_comma_before pdata via_start;
  qi_complete : forall f, q_find pdata via_start path_end = Some f ->
    qf_start f = None \/ qf_proto f <> 0
}.

Lemma q_find_in pdata via pe :
  0 <= via <= pe -> pe < zlen pdata -> exists f, q_find pdata via pe = Some f.
Proof.
  intros Hv Hp. unfold q_find, memchr.
  assert (memmem pdata via (pe - via) (str ",q") =
    Some ((fun k => via + Z.of_nat k) <$> find_sub (str ",q") (slice pdata via (pe - via)))) as Hm
    by (unfold memmem; rewrite rd_range_in by lia; done).
  destruct (memmem pdata via _ _) as [[qs|]|] eqn:E; [|cbn; eauto|done].
  apply memmem_Some in E. change (zlen (str ",q")) with 2 in E. cbn [mbind option_bind].
  destruct (memmem pdata (qs + 1) _ _) as [[nx|]|] eqn:E1; cbn [mbind option_bind].
  3: { unfold memmem in E1. rewrite rd_range_in in E1 by lia. done. }
  2: eauto.
  split_if; [eauto|]. apply memmem_Some in E1. change (zlen [ch_comma]) with 1 in E1.
  destruct (rd_in pdata (qs + 2)) as [a ->]; [lia|]. cbn [mbind option_bind].
  destruct (rd_in pdata (qs + 3)) as [b ->]; [lia|]. cbn [mbind option_bind].
  destruct (scan_in pdata (nx + 1) pe (fun ch => (ch =? ch_comma) || (ch =? ch_colon))) as [d ->];
    [lia..|]. cbn [mbind option_bind]. split_if; eauto.
Qed.

Lemma q_path_ends_I_in pdata n pe :
  2 <= pe < zlen pdata -> exists b, q_path_ends_I pdata n pe = Some b.
Proof.
  intros. unfold q_path_ends_I. split_if; [|eauto].
  destruct (rd_in pdata (pe - 1)) as [a ->]; [lia|]. cbn [mbind option_bind].
  split_if; [|eauto]. destruct (rd_in pdata (pe - 2)) as [b ->]; [lia|]. cbn. eauto.
Qed.

Lemma strncmp_eq_in s off lit :
  0 <= off -> off + zlen lit <= zlen s -> exists b, strncmp_eq s off lit = Some b.
Proof.
  revert off. induction lit as [|x lit IH]; intros off Ho Hl; cbn [strncmp_eq]; [eauto|].
  rewrite zlen_cons in Hl. pose proof (zlen_nonneg lit).
  destruct (rd_in s off) as [c ->]; [lia|]. cbn [mbind option_bind]. split_if; [|eauto].
  apply IH; lia.
Qed.

Lemma q_ends_tcpip_in pdata n pe :
  7 <= pe < zlen pdata -> exists b, q_ends_tcpip pdata n pe = Some b.
Proof.
  intros. unfold q_ends_tcpip. split_if; [|eauto].
  apply strncmp_eq_in; change (zlen (str ",TCPIP*")) with 7; lia.
Qed.

Lemma q_prev_call_in pdata via pe :
  7 <= via <= pe -> pe < zlen pdata -> exists r, q_prev_call pdata via pe = Some r.
Proof.
  intros. unfold q_prev_call.
  destruct (rscan_in pdata (pe - 3) via (fun ch => ch =? ch_comma)) as [p Hp]; [lia..|].
  rewrite Hp. cbn [mbind option_bind]. unfold rscan in Hp.
  apply rscan_n_spec in Hp as (Hr & _).
  destruct (rd_in pdata p) as [x ->]; [lia|]. cbn. eauto.
Qed.

(** Run the leading operation of a definedness goal, whose bounds are in the
    context. *)
Ltac defined_step :=
  cbn [mbind option_bind];
  match goal with
  | |- exists r, Some _ = Some r => eexists; reflexivity
  | |- context [q_path_ends_I ?d ?n ?pe] =>
      let b := fresh "b" in destruct (q_path_ends_I_in d n pe) as [b ->]; [lia|]; destruct b
  | |- context [q_ends_tcpip ?d ?n ?pe] =>
      let b := fresh "b" in destruct (q_ends_tcpip_in d n pe) as [b ->]; [lia|]; destruct b
  | |- exists r, q_ret_dropcheck _ _ _ _ _ _ _ _ _ _ _ _ = Some r =>
      apply q_ret_dropcheck_in; intros; simplify_eq; first [done | lia]
  | |- exists r, q_ret _ _ _ _ _ _ = Some r => unfold q_ret
  | |- context [snprintf ?a ?b] => destruct (snprintf a b) as [? ?]
  | |- context [if ?b then _ else _] => destruct b eqn:?
  end.

(** The callsign before a trailing [,I], on every path that looks for it. *)
Lemma q_prev_cases pdata via pe :
  7 <= via <= pe -> pe < zlen pdata -> no_comma_before pdata via ->
  q_prev_call pdata via pe = Some None \/
  exists p call, q_prev_call pdata via pe = Some (Some p) /\ via <= p <= pe - 3 /\
    rd_range pdata (p + 1) (pe - 2 - (p + 1)) = Some call.
Proof.
  intros Hv Hp Hn. destruct (q_prev_call_in pdata via pe) as [[p|] Hr]; [done..| |by left].
  right. pose proof (q_prev_call_spec _ _ _ _ Hn Hr).
  eexists p, _. split; [done|]. split; [done|]. apply rd_range_in; lia.
Qed.

Lemma q_clientonly_in cfg c pdata size via pe f :
  q_input pdata via pe -> q_find pdata via pe = Some f ->
  exists r, q_clientonly cfg c pdata size via pe f = Some r.
Proof.
  intros [Hv He Hn Hc] Hf. specialize (Hc f Hf). apply q_find_spec in Hf as (H1 & H2 & H3 & H4).
  unfold q_clientonly. destruct (qf_proto f =? 0) eqn:Ep; cbn [negb].
  - destruct Hc as [Hc|?]; [|lia]. rewrite Hc.
    destruct (q_path_ends_I_in pdata pe (qf_path_end f)) as [b ->]; [lia|].
    destruct (q_prev_cases pdata via (qf_path_end f)) as [Hq|(p & call & Hq & ? & Hrd)]; [lia|lia|done|..];
      destruct b; cbn [mbind option_bind]; rewrite ?Hq; cbn [mbind option_bind];
      rewrite ?Hrd; repeat defined_step.
  - destruct H4 as (qs & Eqs & Epe & Hlt); [lia|]. specialize (H3 qs Eqs). rewrite Eqs.
    cbn [mbind option_bind].
    match goal with |- context [wr pdata ?i ?v] => set (w := wr pdata i v) end.
    assert (exists d, w = Some d /\ zlen d = zlen pdata) as (d & -> & Hd).
    { unfold w, wr. split_if; [|lia]. eexists. split; [done|]. unfold zlen. by rewrite length_insert. }
    match goal with |- context [if ?b then Some d else Some pdata] =>
      assert (exists d', (if b then Some d else Some pdata) = Some d' /\ zlen d' = zlen pdata)
        as (d' & -> & Hd') by (destruct b; eauto) end.
    defined_step.
Qed.

Lemma q_inport_in cfg c pdata size via pe orig f :
  q_input pdata via pe -> q_find pdata via pe = Some f ->
  exists r, q_inport cfg c pdata size via pe orig f = Some r.
Proof.
  intros Hi Hf. pose proof Hi as [Hv He Hn Hc]. specialize (Hc f Hf).
  pose proof (q_find_spec _ _ _ _ Hf) as (H1 & H2 & H3 & H4).
  unfold q_inport. split_if.
  { destruct (qf_proto f =? 0) eqn:Ep; cbn [negb]; [repeat defined_step|].
    destruct H4 as (qs & Eqs & Epe & Hlt); [lia|]. specialize (H3 qs Eqs). rewrite Eqs.
    repeat defined_step. }
  split_if; [split_if; repeat defined_step|].
  split_if; [repeat defined_step|].
  split_if; [by apply q_clientonly_in|].
  destruct (qf_proto f =? 0) eqn:Ep; cbn [negb].
  - destruct Hc as [Hc|?]; [|lia]. unfold q_inport_generate. rewrite Hc.
    destruct (q_path_ends_I_in pdata pe (qf_path_end f)) as [b ->]; [lia|].
    destruct (q_prev_cases pdata via (qf_path_end f)) as [Hq|(p & call & Hq & ? & Hrd)]; [lia|lia|done|..];
      destruct b; cbn [mbind option_bind]; rewrite ?Hq; cbn [mbind option_bind];
      rewrite ?Hrd; repeat defined_step.
  - destruct H4 as (qs & Eqs & Epe & Hlt); [lia|]. specialize (H3 qs Eqs). rewrite Eqs.
    defined_step.
Qed.

Lemma q_outbound_in cfg c pdata size via pe f :
  q_input pdata via pe -> q_find pdata via pe = Some f ->
  exists r, q_outbound cfg c pdata size via pe f = Some r.
Proof.
  intros [Hv He Hn Hc] Hf. specialize (Hc f Hf). apply q_find_spec in Hf as (H1 & H2 & H3 & H4).
  unfold q_outbound. destruct (qf_start f) as [qs|] eqn:Eqs.
  - destruct Hc as [?|Hc]; [done|]. destruct H4 as (qs' & ? & Epe & Hlt); [by left|]. simplify_eq.
    specialize (H3 qs' eq_refl). destruct (qf_proto f =? 0) eqn:Ep; [lia|]. cbn [andb]. defined_step.
  - split_if.
    + destruct (q_path_ends_I_in pdata pe (qf_path_end f)) as [b ->]; [lia|].
      destruct (q_prev_cases pdata via (qf_path_end f)) as [Hq|(p & call & Hq & ? & Hrd)]; [lia|lia|done|..];
        destruct b; cbn [mbind option_bind]; rewrite ?Hq; cbn [mbind option_bind];
        rewrite ?Hrd; repeat defined_step.
    + apply q_ret_dropcheck_in; [lia| |done]. intros Ht. destruct H4 as (? & ? & _); [right; lia|done].
Qed.
Lemma q_process_in cfg c pdata size via pe orig :
  q_input pdata via pe -> exists n o, q_process cfg c pdata size via pe pe orig = Some (n, o).
Proof.
  intros Hi. destruct (q_find_in pdata via pe) as [f Hf]; [destruct Hi; lia..|].
  unfold q_process. rewrite Hf. cbn [mbind option_bind].
  repeat (split_if; [eexists _, _; unfold q_ret; reflexivity|]). split_if.
  - destruct (q_inport_in cfg c pdata size via pe orig f) as [[n o] E]; eauto.
  - destruct (q_outbound_in cfg c pdata size via pe f) as [[n o] E]; eauto.
Qed.
End Defined.

(** On every header whose construct is complete, the Q algorithm runs to its
    end without an access outside the packet, and unless it drops the packet it
    describes a rewrite the caller can carry out: the new text is not truncated
    and has the returned length, which fits the buffer; the path is cut, never
    extended; and the replaced part starts inside the path that is left. *)
Theorem q_process_total `{ClientDirectory} cfg c pdata size via_start path_end orig :
  q_bounds cfg c pdata size via_start path_end -> q_input pdata via_start path_end ->
  exists n o, q_process cfg c pdata size via_start path_end path_end orig = Some (n, o) /\
    qout_ok pdata size via_start path_end n o.
Proof.
  intros Hb Hi. destruct (q_process_in cfg c pdata size via_start path_end orig Hi) as (n & o & E).
  eauto using q_process_ok.
Qed.

(** ** Which packets [q_dropcheck] accepts *)

Lemma starts_with_comma sid call J :
  Forall (fun c => (c =? ch_comma) = false) sid ->
  (J = [] \/ exists J', J = ch_comma :: J') ->
  starts_with sid (call ++ J) = starts_with sid call.
Proof.
  intros Hs HJ. revert call. induction Hs as [|x sid Hx Hs IH]; intros call; [done|].
  destruct call as [|y call]; simpl.
  - destruct HJ as [->|[J' ->]]; [done|]. by rewrite Hx.
  - by rewrite IH.
Qed.

Lemma find_sub_comma sid call J :
  sid <> [] -> Forall (fun c => (c =? ch_comma) = false) sid ->
  (J = [] \/ exists J', J = ch_comma :: J') -> find_sub sid call = None ->
  find_sub sid (call ++ J) = (fun k => (length call + k)%nat) <$> find_sub sid J.
Proof.
  intros Hne Hs HJ. induction call as [|y call IH]; intros Hf.
  - simpl. by destruct (find_sub sid J).
  - cbn [find_sub] in Hf. split_if_in Hf; [done|]. apply fmap_None in Hf.
    change ((y :: call) ++ J) with (y :: (call ++ J)). cbn [find_sub].
    change (y :: call ++ J) with ((y :: call) ++ J). rewrite starts_with_comma by done.
    rewrite Heqb, IH by done. by destruct (find_sub sid J).
Qed.

(** A server identifier that is not a proper part of a callsign is found in a
    joined path exactly where it is an element of it. *)
Lemma find_sub_join sid calls :
  call_ok sid -> Forall (fun call => call <> sid -> find_sub sid call = None) calls ->
  match find_sub sid (join_calls calls) with
  | None => sid ∉ calls
  | Some k => exists cs1 cs2, calls = cs1 ++ sid :: cs2 /\ k = S (length (join_calls cs1))
  end.
Proof.
  intros [Hne Hs] Hc. induction Hc as [|call calls Hcall Hc IH].
  - destruct sid; [done|]. simpl. apply not_elem_of_nil.
  - rewrite join_calls_cons. cbn [find_sub].
    assert (starts_with sid (ch_comma :: call ++ join_calls calls) = false) as ->.
    { destruct sid as [|x sid]; [done|]. inversion Hs; subst. cbn [starts_with].
      destruct (Z.eqb_spec x ch_comma); [subst; done|done]. }
    assert (join_calls calls = [] \/ exists J', join_calls calls = ch_comma :: J') as HJ
      by (destruct calls as [|c0 cs]; [by left|right; rewrite join_calls_cons; eauto]).
    destruct (decide (call = sid)) as [->|Hn].
    + destruct (find_sub sid (sid ++ join_calls calls)) as [k|] eqn:E.
      * exists [], calls. split; [done|].
        destruct (find_sub_is_Some sid [] (join_calls calls)) as (k' & E' & Hk).
        cbn [app length] in E', Hk. rewrite E in E'. injection E' as <-. change (join_calls []) with (@nil Z). cbn in *. lia.
      * exfalso. destruct (find_sub_is_Some sid [] (join_calls calls)) as (k' & E' & _).
        cbn [app] in E'. congruence.
    + rewrite find_sub_comma by auto. destruct (find_sub sid (join_calls calls)) as [k|]; cbn.
      * destruct IH as (cs1 & cs2 & -> & ->). exists (call :: cs1), cs2.
        rewrite join_calls_cons. split; [done|]. cbn. rewrite length_app. lia.
      * rewrite elem_of_cons. intuition congruence.
Qed.

Lemma join_calls_app a b : join_calls (a ++ b) = join_calls a ++ join_calls b.
Proof. unfold join_calls. by rewrite map_app, concat_app. Qed.

Lemma q_mycall_join cfg pre calls x post :
  call_ok cfg.(serverid) ->
  Forall (fun call => call <> cfg.(serverid) -> find_sub cfg.(serverid) call = None) calls ->
  q_mycall_in_path cfg (pre ++ join_calls calls ++ x :: post) (zlen pre - 4)
    (zlen pre + zlen (join_calls calls)) = Some (bool_decide (cfg.(serverid) ∈ calls)).
Proof.
  intros Hok Hc. pose proof (find_sub_join _ _ Hok Hc) as Hj. unfold q_mycall_in_path, memmem.
  replace (zlen pre - 4 + 4) with (zlen pre) by lia.
  replace (zlen pre + zlen (join_calls calls) - (zlen pre - 4) - 4) with (zlen (join_calls calls)) by lia.
  rewrite rd_range_mid. cbn [mbind option_bind].
  destruct (find_sub (serverid cfg) (join_calls calls)) as [k|]; cbn [fmap option_fmap option_map].
  2: { by rewrite bool_decide_eq_false_2. }
  destruct Hj as (cs1 & cs2 & -> & ->). set (sid := serverid cfg) in *.
  rewrite bool_decide_eq_true_2 by (apply elem_of_app; right; apply elem_of_cons; by left).
  rewrite join_calls_app, join_calls_cons.
  set (P := pre ++ join_calls cs1).
  assert (pre ++ (join_calls cs1 ++ ch_comma :: sid ++ join_calls cs2) ++ x :: post
          = P ++ ch_comma :: sid ++ join_calls cs2 ++ x :: post) as ->
    by (unfold P; rewrite <- !app_assoc; simpl; rewrite <- !app_assoc; done).
  assert (zlen pre + Z.of_nat (S (length (join_calls cs1))) = zlen P + 1) as ->
    by (unfold P; rewrite zlen_app; unfold zlen; lia).
  replace (zlen P + 1 - 1) with (zlen P) by lia. rewrite rd_mid. cbn [mbind option_bind].
  rewrite Z.eqb_refl.
  assert (P ++ ch_comma :: sid ++ join_calls cs2 ++ x :: post
          = (P ++ ch_comma :: sid) ++ join_calls cs2 ++ x :: post) as ->
    by (rewrite <- !app_assoc; done).
  assert (zlen P + 1 + zlen sid = zlen (P ++ ch_comma :: sid)) as ->
    by (rewrite zlen_app, zlen_cons; lia).
  destruct cs2 as [|c2 cs2].
  - change (join_calls []) with (@nil Z). rewrite app_nil_l, app_nil_r, rd_mid.
    cbn [mbind option_bind].
    assert ((zlen (P ++ ch_comma :: sid) =? zlen pre + zlen (join_calls cs1 ++ ch_comma :: sid))
            = true) as ->; [|by rewrite orb_true_r].
    unfold P. apply Z.eqb_eq. rewrite <- app_assoc, !zlen_app, !zlen_cons. lia.
  - rewrite join_calls_cons. change ((ch_comma :: c2 ++ join_calls cs2) ++ x :: post)
      with (ch_comma :: (c2 ++ join_calls cs2) ++ x :: post). by rewrite rd_mid.
Qed.

(** What a packet must satisfy to get past [q_dropcheck]. *)
Definition q_acceptable `{ClientDirectory} (cfg : config) (c : client_t) (pdata : list Z)
    (proto ty : Z) (calls : list (list Z)) : Prop :=
  (proto = cfg.(q_protocol_id) \/ cfg.(disallow_other_protocol_id) = false) /\
  ~ (ty = 88 /\ cfg.(disallow_unverified) = true) /\ ty <> 90 /\
  (cfg.(serverid) ∉ calls) /\ calls_acceptable c pdata ty calls.


(** Trace packets.  When [q_dropcheck] accepts a qAI packet, the construct is
    replaced from its [q] on by the construct as it was, the login of a verified
    client that is not in it yet (core peers apart), and the identifier of this
    server; the returned length is the length of that text. *)
Theorem q_dropcheck_trace `{ClientDirectory} cfg c pre proto calls x post size n new_q repl :
  call_ok cfg.(serverid) -> Forall call_ok calls -> (length calls <= MAX_Q_CALLS)%nat ->
  Forall (fun call => call <> cfg.(serverid) -> find_sub cfg.(serverid) call = None) calls ->
  let q := [ch_q; proto; 73] in
  let pdata := (pre ++ ch_comma :: q) ++ join_calls calls ++ x :: post in
  let old := q ++ join_calls calls in
  let login := if negb (c.(c_validated) =? 0) && negb (existsb (is_login c) calls)
                  && negb (bool_decide (c.(c_state) = CSTATE_COREPEER))
               then ch_comma :: c.(c_username) else [] in
  let text := old ++ login ++ ch_comma :: cfg.(serverid) in
  zlen old + zlen login + 20 <= size -> zlen cfg.(serverid) <= CALLSIGNLEN_MAX ->
  q_acceptable cfg c pdata proto 73 calls ->
  q_dropcheck cfg c pdata new_q size n proto 73 (Some (zlen pre)) repl
    (zlen pre + 4 + zlen (join_calls calls)) = Some (zlen text, text, Some (zlen pre + 1)).
Proof.
  intros Hid Hok Hlen Hsub q pdata old login text Hsz Hsid (Hp & Hx & Hz & Hin & Hacc).
  set (pre4 := pre ++ ch_comma :: q) in *.
  assert (zlen pre4 = zlen pre + 4) as H4 by (unfold pre4, q; rewrite zlen_app; done).
  unfold q_dropcheck.
  destruct (negb (proto =? q_protocol_id cfg) && disallow_other_protocol_id cfg) eqn:E1.
  { apply andb_true_iff in E1 as [E1 E1']. destruct Hp as [?|Hp]; [lia|congruence]. }
  rewrite <- H4.
  destruct (q_callv_join MAX_Q_CALLS pre4 calls (x :: post) Hok Hlen) as (v & Hv & Hs & _).
  unfold pdata in *. cbn [Z.eqb Pos.eqb andb]. rewrite Hv. cbn [mbind option_bind]. rewrite Hs.
  replace (zlen pre) with (zlen pre4 - 4) at 1 by lia.
  rewrite q_mycall_join by done. rewrite bool_decide_eq_false_2 by done. cbn [mbind option_bind].
  destruct (q_check_calls_spec c (pre4 ++ join_calls calls ++ x :: post) 73
    (call_spans (zlen pre4) calls) calls false) as (r & Hr & Hcase).
  { apply rd_range_span. }
  { apply Forall_forall. intros call Hcall. apply in_split in Hcall as (c1 & c2 & ->).
    rewrite join_calls_app, join_calls_cons. repeat (rewrite zlen_app || rewrite zlen_cons).
    pose proof (zlen_nonneg pre4). pose proof (zlen_nonneg (join_calls c1)).
    pose proof (zlen_nonneg (join_calls c2)). pose proof (zlen_nonneg post). lia. }
  rewrite Hr. cbn [mbind option_bind].
  destruct Hcase as [[-> _]|(e & -> & _ & Hn)]; [|tauto]. rewrite orb_false_l.
  unfold q_trace. fold login.
  replace (zlen pre4 + zlen (join_calls calls) - zlen pre - 1) with (zlen old)
    by (unfold old; rewrite zlen_app; change (zlen q) with 3; lia).
  pose proof (zlen_nonneg login). pose proof (zlen_nonneg old).
  destruct (zlen old >? size) eqn:E2; [lia|].
  assert (rd_range (pre4 ++ join_calls calls ++ x :: post) (zlen pre + 1) (zlen old) = Some old) as ->.
  { assert (pre4 ++ join_calls calls ++ x :: post = (pre ++ [ch_comma]) ++ old ++ x :: post) as ->
      by (unfold pre4, old; rewrite <- !app_assoc; done).
    replace (zlen pre + 1) with (zlen (pre ++ [ch_comma])) by (rewrite zlen_app; done).
    apply rd_range_mid. }
  cbn [mbind option_bind].
  assert ((if negb (c_validated c =? 0) && negb (existsb (is_login c) calls)
              && negb (bool_decide (c_state c = CSTATE_COREPEER))
           then snprintf (size - zlen old) (ch_comma :: c_username c) else ([], 0))
          = (login, zlen login)) as ->.
  { unfold login in *. split_if; [|done]. apply snprintf_fits. lia. }
  destruct (size - (zlen old + zlen login) <? 20) eqn:E3; [lia|].
  unfold CALLSIGNLEN_MAX in *. rewrite snprintf_fits by (rewrite zlen_cons; lia).
  cbn [mbind option_bind].
  assert (zlen old + zlen login + zlen (ch_comma :: serverid cfg) = zlen text) as ->
    by (unfold text; rewrite !zlen_app; lia).
  destruct (zlen text <? 0) eqn:E4; [pose proof (zlen_nonneg text); lia|]. done.
Qed.

(** ** Two limits of the loop detection *)

(** [memmem] reports one place only: an element that merely starts with the
    server's identifier hides a later element that is the identifier. *)
Theorem q_own_id_hidden cfg pre y rest calls x post :
  call_ok cfg.(serverid) -> y <> ch_comma -> y <> ch_colon ->
  q_mycall_in_path cfg (pre ++ join_calls ((cfg.(serverid) ++ y :: rest) :: calls) ++ x :: post)
    (zlen pre - 4) (zlen pre + zlen (join_calls ((cfg.(serverid) ++ y :: rest) :: calls))) = Some false.
Proof.
  intros [Hne Hs] Hy1 Hy2. set (sid := serverid cfg) in *. rewrite join_calls_cons.
  set (tl := rest ++ join_calls calls).
  assert ((sid ++ y :: rest) ++ join_calls calls = sid ++ y :: tl) as ->
    by (unfold tl; rewrite <- app_assoc; done).
  unfold q_mycall_in_path, memmem. fold sid.
  replace (zlen pre - 4 + 4) with (zlen pre) by lia.
  set (J := ch_comma :: sid ++ y :: tl).
  replace (zlen pre + zlen J - (zlen pre - 4) - 4) with (zlen J) by lia.
  rewrite rd_range_mid. cbn [mbind option_bind].
  assert (find_sub sid J = Some 1%nat) as ->.
  { unfold J. cbn [find_sub]. assert (starts_with sid (ch_comma :: sid ++ y :: tl) = false) as ->.
    { destruct sid as [|z sid]; [done|]. inversion Hs; subst. cbn [starts_with].
      destruct (Z.eqb_spec z ch_comma); [subst; done|done]. }
    destruct (find_sub_is_Some sid [] (y :: tl)) as (k & Hk & Hk0). cbn [app length] in Hk, Hk0.
    rewrite Hk. cbn. do 2 f_equal. lia. }
  cbn [fmap option_fmap option_map]. change (Z.of_nat 1) with 1.
  replace (zlen pre + 1 - 1) with (zlen pre) by lia. unfold J.
  change ((ch_comma :: sid ++ y :: tl) ++ x :: post) with (ch_comma :: (sid ++ y :: tl) ++ x :: post).
  rewrite rd_mid. cbn [mbind option_bind]. rewrite Z.eqb_refl.
  assert (pre ++ ch_comma :: (sid ++ y :: tl) ++ x :: post
          = (pre ++ ch_comma :: sid) ++ y :: tl ++ x :: post) as ->
    by (rewrite <- !app_assoc; done).
  replace (zlen pre + 1 + zlen sid) with (zlen (pre ++ ch_comma :: sid))
    by (rewrite zlen_app, zlen_cons; lia).
  rewrite rd_mid. cbn [mbind option_bind]. f_equal.
  apply orb_false_iff. split; [apply orb_false_iff; split|]; apply Z.eqb_neq; [done| |done].
  rewrite !zlen_app, !zlen_cons, !zlen_app, zlen_cons. pose proof (zlen_nonneg tl). lia.
Qed.

(** An incomplete construct is cut off the path but stays the place the calls
    are looked for from: the length given to [memmem] is then -4. *)
Theorem q_incomplete_undefined `{ClientDirectory} cfg c pdata new_q size n proto ty qs repl :
  0 <= qs -> qs + 4 <= zlen pdata ->
  proto = cfg.(q_protocol_id) -> ty <> 88 -> ty <> 90 ->
  q_dropcheck cfg c pdata new_q size n proto ty (Some qs) repl qs = None.
Proof.
  intros H0 H1 Hp H88 H90. unfold q_dropcheck. rewrite Hp, Z.eqb_refl. cbn [negb andb].
  destruct (Z.eqb_spec ty 88); [done|]. destruct (Z.eqb_spec ty 90); [done|]. cbn [andb].
  unfold MAX_Q_CALLS. cbn [q_callv]. destruct (qs + 4 <? qs) eqn:E; [lia|].
  cbn [mbind option_bind q_call_spans]. unfold q_mycall_in_path, memmem, rd_range.
  destruct (0 <=? qs - qs - 4) eqn:E2; [lia|]. by rewrite andb_false_r.
Qed.

(** ** Instances *)

(** A directory in which one client is verified, and a packet line. *)
Definition demo_directory : ClientDirectory :=
  {| clientlist_check_if_validated_client := fun n => if beq n (str "OH2XYZ") then 7 else -1 |}.

Definition demo_line : list Z := str "OH7LZB>APRS,WIDE1-1,qAR,OH7AA-10:>hello".

Lemma q_process_total_witness :
  exists n o, @q_process demo_directory demo_cfg (demo_client "OH7AA-10" CLFLAGS_INPORT 1)
      demo_line 600 11 32 32 false = Some (n, o) /\ qout_ok demo_line 600 11 32 n o.
Proof.
  apply q_process_total.
  - split; [vm_compute; congruence..|]. by apply no_comma_take.
  - split; [vm_compute; intuition congruence|done| |].
    + by apply no_comma_take.
    + intros f Hf. right. vm_compute in Hf. injection Hf as <-. done.
Defined.


Lemma q_dropcheck_trace_witness :
  @q_dropcheck demo_directory demo_cfg (demo_client "OH7AA-10" CLFLAGS_INPORT 1)
    (str "OH7LZB>APRS,qAI,OH7LZB:>hello") [] 600 0 65 73 (Some 11) None 22
  = Some (26, str "qAI,OH7LZB,OH7AA-10,T2TEST", Some 12).
Proof.
  refine (q_dropcheck_trace (H:=demo_directory) demo_cfg (demo_client "OH7AA-10" CLFLAGS_INPORT 1)
    (str "OH7LZB>APRS") 65 [str "OH7LZB"] ch_colon (str ">hello") 600 0 [] None _ _ _ _ _ _ _).
  - split; [done|]. by repeat constructor.
  - repeat constructor; done.
  - vm_compute. lia.
  - repeat constructor; done.
  - done.
  - done.
  - unfold q_acceptable. split; [by left|]. split; [by intros [? _]|]. split; [done|].
    split; [rewrite list_elem_of_singleton; done|].
    cbn [calls_acceptable]. split; [apply not_elem_of_nil|]. split; [|done].
    vm_compute. done.
Defined.
