(* ===== verification/Callsign.v ===== *)
(** * incoming.c: the checks on callsigns and paths *)

From S2P Require Import Prelude Types ParseQc.
From Stdlib Require Import ZArith Lia Bool String.
From stdpp Require Import base tactics list numbers.
Open Scope Z_scope.

(** The loop over the callsign body: alphanumeric up to a dash.  [None] on a bad
    character, otherwise what is left from the dash on. *)
Fixpoint call_body (s : list Z) : option (list Z) :=
  match s with
  | [] => Some []
  | c :: t => if c =? ch_dash then Some s else if isalnum c then call_body t else None
  end.

(** [check_invalid_src_dst]: 0 when good for a source or a destination. *)
Definition check_invalid_src_dst (call : list Z) : Z :=
  if (zlen call <? 1) || (zlen call >? CALLSIGNLEN_MAX) then -1
  else match call_body call with
       | None => -1
       | Some [] => 0
       | Some (_ :: ssid) =>
           match ssid with
           | [] => -1
           | _ => if forallb isalnum ssid then 0 else -1
           end
       end.

(** [check_call_match]: [strncmp(call, set[i], len) == 0 && strlen(set[i]) == len] *)
Definition check_call_match (set : list (list Z)) (call : list Z) : Z :=
  if existsb (fun e => (zlen e =? zlen call) && beq call e) set then -1 else 0.

Definition check_call_prefix_match (set : list (list Z)) (call : list Z) : Z :=
  if existsb (fun e => (zlen e <=? zlen call) && starts_with e call) set then -1 else 0.

Definition MAX_TEST_CALL_LEN : Z := 32.

(** [check_call_glob_match]; [fnmatch] is the POSIX function with FNM_CASEFOLD,
    on the callsign as a C string. *)
Definition check_call_glob_match (fnmatch : list Z -> list Z -> bool) (set : list (list Z))
    (call : list Z) : Z :=
  if zlen call >? MAX_TEST_CALL_LEN then 0
  else if existsb (fun e => fnmatch e (cstr call)) set then -1 else 0.

(** [check_invalid_path_callsign] *)
Definition check_invalid_path_callsign (call : list Z) (after_q : bool) : Z :=
  let n := zlen call in
  let call := if (n >? 1) && bool_decide (rd call (n - 1) = Some ch_star)
              then take (Z.to_nat (n - 1)) call else call in
  let len := zlen call in
  if len <? 1 then -1
  else if (len >? CALLSIGNLEN_MAX) && negb ((len =? 32) && after_q) then -1
  else match call_body call with
       | None => -1
       | Some [] => 0
       | Some (_ :: ssid) =>
           if (zlen ssid >? 2) || (zlen ssid =? 0) then -1
           else if bool_decide (rd ssid 0 = Some ch_0) then -1
           else if forallb isalnum ssid then 0 else -1
       end.

(** [while ( *e != ',' && e < path_end) e++], which looks before it tests. *)
Fixpoint elem_end (n : nat) (s : list Z) (e path_end : Z) : option Z :=
  c ← rd s e;
  match n with
  | O => Some e
  | S n' => if negb (c =? ch_comma) && (e <? path_end) then elem_end n' s (e + 1) path_end else Some e
  end.

(** The loop of [check_path_calls]; every element takes a character at least. *)
Fixpoint path_calls (n : nat) (s : list Z) (p path_end calls : Z) (after_q : bool) : option Z :=
  match n with
  | O => Some calls
  | S n' =>
      if p <? path_end then
        e ← elem_end (Z.to_nat (path_end - p)) s p path_end;
        x ← rd s p;
        if (x =? ch_q) && (e - p =? 3) then path_calls n' s (e + 1) path_end (calls + 1) true
        else
          call ← rd_range s p (e - p);
          if negb (check_invalid_path_callsign call after_q =? 0) then Some (-1)
          else path_calls n' s (e + 1) path_end (calls + 1) after_q
      else Some calls
  end.

(** [check_path_calls]: the number of elements of the path, -1 when one is bad. *)
Definition check_path_calls (s : list Z) (via_start path_end : Z) : option Z :=
  path_calls (Z.to_nat (path_end - via_start)) s (via_start + 1) path_end 0 false.

(** The loop of [check_igate_calls]. *)
Fixpoint igate_calls (n : nat) (fnmatch : list Z -> list Z -> bool) (set : list (list Z))
    (s : list Z) (p path_end : Z) : option Z :=
  match n with
  | O => Some 0
  | S n' =>
      if p <? path_end then
        e ← elem_end (Z.to_nat (path_end - p)) s p path_end;
        call ← rd_range s p (e - p);
        if negb (check_call_glob_match fnmatch set call =? 0) then Some (-1)
        else igate_calls n' fnmatch set s (e + 1) path_end
      else Some 0
  end.

Definition check_igate_calls (fnmatch : list Z -> list Z -> bool) (set : list (list Z))
    (s : list Z) (q_start path_end : Z) : option Z :=
  igate_calls (Z.to_nat (path_end - q_start + 1)) fnmatch set s q_start path_end.

Definition digi_path_drop (s : list Z) (via_start via_len : Z) : option bool :=
  m1 ← memmem s via_start via_len (str ",NOGATE");
  if bool_decide (m1 = None) then
    m2 ← memmem s via_start via_len (str ",RFONLY");
    Some (negb (bool_decide (m2 = None)))
  else Some true.

(** [memcasestr(needle, haystack, haystack_end)], with the state of its scan: the
    start of the match so far and what is left of the needle.  A character that
    ends a partial match is not looked at again. *)
Fixpoint memcasestr_loop (needle np : list Z) (match_start : option Z) (hay : list Z) (hp : Z) : option Z :=
  match hay with
  | [] => None
  | h :: t =>
      let '(ms, np') :=
        match np with
        | n :: rest => if toupper h =? toupper n
                       then (Some (default hp match_start), rest) else (None, needle)
        | [] => (None, needle)
        end in
      match np', ms with
      | [], Some m => Some m
      | _, _ => memcasestr_loop needle np' ms t (hp + 1)
      end
  end.

Definition memcasestr (needle hay : list Z) : option Z := memcasestr_loop needle needle None hay 0.

(** * Properties *)

(** What a path must be: every element a good callsign, a three character element
    that starts with [q] apart; addresses of 32 characters only after it. *)
Fixpoint path_ok (after_q : bool) (calls : list (list Z)) : bool :=
  match calls with
  | [] => true
  | call :: rest =>
      match call with
      | x :: _ => if (x =? ch_q) && (zlen call =? 3) then path_ok true rest
                  else (check_invalid_path_callsign call after_q =? 0) && path_ok after_q rest
      | [] => false
      end
  end.

Lemma elem_end_spec pre call c post n path_end :
  Forall (fun x => (x =? ch_comma) = false) call -> (length call <= n)%nat ->
  zlen pre + zlen call <= path_end ->
  (c = ch_comma \/ path_end = zlen pre + zlen call) ->
  elem_end n (pre ++ call ++ c :: post) (zlen pre) path_end = Some (zlen pre + zlen call).
Proof.
  intros Hc. revert pre n. induction Hc as [|x call Hx Hc IH]; intros pre n Hn Hl Hend.
  - rewrite zlen_nil, Z.add_0_r in *. cbn [app]. destruct n as [|n]; cbn [elem_end]; rewrite rd_mid;
      cbn [mbind option_bind]; [done|].
    destruct Hend as [->| ->]; [done|]. rewrite Z.ltb_irrefl, andb_false_r. done.
  - destruct n as [|n]; [cbn in Hn; lia|]. rewrite zlen_cons in *. pose proof (zlen_nonneg call).
    cbn [elem_end]. change (pre ++ (x :: call) ++ c :: post) with (pre ++ x :: (call ++ c :: post)).
    rewrite rd_mid. cbn [mbind option_bind]. rewrite Hx.
    destruct (zlen pre <? path_end) eqn:E; [|lia]. cbn [negb andb].
    specialize (IH (pre ++ [x]) n). rewrite zlen_app, <- app_assoc in IH. cbn [app] in IH.
    change (zlen [x]) with 1 in IH. rewrite IH; [f_equal; lia|cbn in Hn; lia|lia|].
    destruct Hend as [?|?]; [by left|right; lia].
Qed.

Lemma path_calls_spec n pre calls x post k after_q :
  Forall call_ok calls -> (length calls < n)%nat ->
  path_calls n (pre ++ join_calls calls ++ x :: post) (zlen pre + 1)
    (zlen pre + zlen (join_calls calls)) k after_q
  = Some (if path_ok after_q calls then k + zlen calls else -1).
Proof.
  intros Hok. revert n pre k after_q. induction Hok as [|call calls [Hne Hnc] Hok IH]; intros n pre k after_q Hn.
  - destruct n as [|n]; [cbn in Hn; lia|]. change (join_calls []) with (@nil Z). cbn [path_calls path_ok].
    rewrite zlen_nil. destruct (zlen pre + 1 <? zlen pre + 0) eqn:E; [lia|]. f_equal. unfold zlen. cbn. lia.
  - destruct n as [|n]; [cbn in Hn; lia|]. cbn in Hn. rewrite join_calls_cons.
    set (J := join_calls calls) in *. pose proof (zlen_nonneg J).
    set (P1 := pre ++ [ch_comma]). set (P2 := P1 ++ call).
    assert (zlen P1 = zlen pre + 1) as HP1 by (unfold P1; rewrite zlen_app; done).
    assert (zlen P2 = zlen P1 + zlen call) as HP2 by (unfold P2; apply zlen_app).
    assert (0 < zlen call) as Hl by (destruct call; [done|rewrite zlen_cons; pose proof (zlen_nonneg call); lia]).
    assert (zlen (ch_comma :: call ++ J) = 1 + zlen call + zlen J) as HJ by (rewrite zlen_cons, zlen_app; lia).
    assert (pre ++ (ch_comma :: call ++ J) ++ x :: post = P1 ++ call ++ (J ++ x :: post)) as E1
      by (unfold P1; rewrite <- !app_assoc; simpl; by rewrite <- !app_assoc).
    assert (P1 ++ call ++ (J ++ x :: post) = P2 ++ J ++ x :: post) as E2
      by (unfold P2; rewrite <- !app_assoc; done).
    rewrite E1, HJ. replace (zlen pre + 1) with (zlen P1) by lia.
    replace (zlen pre + (1 + zlen call + zlen J)) with (zlen P2 + zlen J) by lia.
    cbn [path_calls path_ok]. destruct (zlen P1 <? zlen P2 + zlen J) eqn:Elt; [|lia].
    assert (elem_end (Z.to_nat (zlen P2 + zlen J - zlen P1)) (P1 ++ call ++ J ++ x :: post) (zlen P1)
              (zlen P2 + zlen J) = Some (zlen P2)) as ->.
    { rewrite HP2. unfold J. destruct calls as [|c2 calls].
      - change (join_calls []) with (@nil Z). cbn [app]. rewrite zlen_nil, Z.add_0_r.
        apply elem_end_spec; [done|unfold zlen; lia|lia|by right].
      - rewrite join_calls_cons. cbn [app]. apply elem_end_spec; [done|unfold zlen; lia| |by left].
        pose proof (zlen_nonneg (ch_comma :: c2 ++ join_calls calls)). lia. }
    cbn [mbind option_bind]. rewrite HP2. replace (zlen P1 + zlen call - zlen P1) with (zlen call) by lia.
    rewrite rd_range_mid. destruct call as [|y call]; [done|].
    assert (rd (P1 ++ (y :: call) ++ J ++ x :: post) (zlen P1) = Some y) as -> by apply rd_mid.
    cbn [mbind option_bind]. rewrite E2, <- HP2.
    assert (forall b, path_calls n (P2 ++ J ++ x :: post) (zlen P2 + 1) (zlen P2 + zlen J) (k + 1) b =
      Some (if path_ok b calls then k + zlen ((y :: call) :: calls) else -1)) as IH'.
    { intros b. unfold J. rewrite IH by lia. rewrite zlen_cons. by replace (k + 1 + zlen calls) with (k + (1 + zlen calls)) by lia. }
    destruct ((y =? ch_q) && (zlen (y :: call) =? 3)); [by rewrite IH'|].
    destruct (check_invalid_path_callsign (y :: call) after_q =? 0); cbn [negb andb]; [by rewrite IH'|done].
Qed.

Lemma join_calls_length calls :
  Forall call_ok calls -> (2 * length calls <= length (join_calls calls))%nat.
Proof.
  induction 1 as [|c cs [Hne _] _ IH]; [done|]. rewrite join_calls_cons. cbn [length].
  rewrite length_app. destruct c; [done|]. cbn [length]. lia.
Qed.

(** ** The walks stay in the packet *)

Lemma elem_end_in n s e pe :
  0 <= e <= pe -> pe < zlen s -> exists r, elem_end n s e pe = Some r /\ e <= r <= pe.
Proof.
  revert e. induction n as [|n IH]; intros e He Hs; cbn [elem_end];
    (destruct (rd_in s e) as [c ->]; [lia|]); cbn [mbind option_bind]; [exists e; split; [done|lia]|].
  destruct (_ && _) eqn:Eb; [|exists e; split; [done|lia]].
  destruct (IH (e + 1)) as (r & -> & Hr); [lia..|]. exists r. split; [done|lia].
Qed.

Lemma path_calls_in n s p pe k q :
  0 <= p -> pe < zlen s -> exists r, path_calls n s p pe k q = Some r.
Proof.
  revert p k q. induction n as [|n IH]; intros p k q Hp Hs; cbn [path_calls]; [eauto|].
  destruct (Z.ltb_spec p pe); [|eauto].
  destruct (elem_end_in (Z.to_nat (pe - p)) s p pe) as (e & -> & He); [lia..|]. cbn [mbind option_bind].
  destruct (rd_in s p) as [x ->]; [lia|]. cbn [mbind option_bind]. split_if; [apply IH; lia|].
  rewrite rd_range_in by lia. cbn [mbind option_bind]. split_if; [eauto|]. apply IH; lia.
Qed.

Lemma igate_calls_in n fnmatch set s p pe :
  0 <= p -> pe < zlen s -> exists r, igate_calls n fnmatch set s p pe = Some r.
Proof.
  revert p. induction n as [|n IH]; intros p Hp Hs; cbn [igate_calls]; [eauto|].
  destruct (Z.ltb_spec p pe); [|eauto].
  destruct (elem_end_in (Z.to_nat (pe - p)) s p pe) as (e & -> & He); [lia..|]. cbn [mbind option_bind].
  rewrite rd_range_in by lia. cbn [mbind option_bind]. split_if; [eauto|]. apply IH; lia.
Qed.

Lemma digi_path_drop_in s a n : 0 <= a -> 0 <= n -> a + n <= zlen s -> exists b, digi_path_drop s a n = Some b.
Proof.
  intros Ha Hn Hs. unfold digi_path_drop.
  destruct (memmem_in s a n (str ",NOGATE")) as [m ->]; [lia..|]. cbn [mbind option_bind]. split_if; [|eauto].
  destruct (memmem_in s a n (str ",RFONLY")) as [m' ->]; [lia..|]. cbn. eauto.
Qed.

(** C25: [check_path_calls] accepts exactly the paths all of whose elements are
    good callsigns (a trailing asterisk is allowed, a construct element is
    skipped, and the 32 digits of an IPv6 address are allowed only after it),
    and then returns their number; otherwise it returns -1.  It reads nothing
    but the path and the character behind it. *)
Theorem check_path_calls_spec pre calls x post :
  Forall call_ok calls ->
  check_path_calls (pre ++ join_calls calls ++ x :: post) (zlen pre) (zlen pre + zlen (join_calls calls))
  = Some (if path_ok false calls then zlen calls else -1).
Proof.
  intros Hok. unfold check_path_calls.
  replace (zlen pre + zlen (join_calls calls) - zlen pre) with (zlen (join_calls calls)) by lia.
  destruct calls as [|call calls].
  - change (join_calls []) with (@nil Z). done.
  - rewrite path_calls_spec; [by rewrite Z.add_0_l|done|].
    pose proof (join_calls_length _ Hok). cbn [length] in *. unfold zlen. lia.
Qed.

Lemma check_path_calls_spec_witness :
  check_path_calls (str "OH7LZB>APRS,WIDE1-1*,qAR,OH7AA-10:>hello") 11 33 = Some 3.
Proof.
  refine (check_path_calls_spec (str "OH7LZB>APRS") [str "WIDE1-1*"; str "qAR"; str "OH7AA-10"]
    ch_colon (str ">hello") _).
  repeat constructor; done.
Defined.

(** A character that breaks a partial match is not tried as the start of a new
    one: the text is there and is not found. *)
Example memcasestr_misses : memcasestr (str "filter") (str "#ffilter") = None.
Proof. reflexivity. Qed.
