(* ===== verification/ParseAprs.v ===== *)
(** * parse_aprs.c: classification of packets and their positions

    The parser looks at the information field of a packet that has already been
    accepted, sets its type bits, finds the name of an object or item, the
    recipient of a message, and the position in one of the four position
    formats.  Offsets are into [pb_data]; a read outside of it is [None].  Every
    parser returns the packet and its return code: 1 for a position, 0 for none,
    a negative drop reason. *)

From S2P Require Import Prelude Cfloat Types ParseQc Callsign.
From Stdlib Require Import ZArith Lia Bool String SpecFloat.
From stdpp Require Import base tactics list numbers.
Open Scope Z_scope.

Definition result : Type := option (pbuf_t * Z).

Definition in_range (lo hi c : Z) : bool := (lo <=? c) && (c <=? hi).

Definition valid_sym_table_compressed (c : Z) : bool :=
  (c =? ch_slash) || (c =? ch_bslash) || in_range 65 90 c || in_range 97 106 c.

Definition valid_sym_table_uncompressed (c : Z) : bool :=
  (c =? ch_slash) || (c =? ch_bslash) || in_range 65 90 c || in_range 48 57 c.

(** [filter_lat2rad] and [filter_lon2rad] *)
Definition filter_lat2rad (lat : spec_float) : spec_float :=
  to_f32 (f64_mul (to_f64 lat) (f64_div M_PI (f64_of_Z 180))).
Definition filter_lon2rad (lon : spec_float) : spec_float :=
  to_f32 (f64_mul (to_f64 lon) (f64_div M_PI (f64_of_Z 180))).

(** [lo <= x && x <= hi] on doubles. *)
Definition between (lo x hi : spec_float) : bool := SFleb lo x && SFleb x hi.

(** The position is refused: at a pole on the null meridian, at the null island
    or 90 degrees from it, or outside of the globe. *)
Definition pos_bad (lat lng : spec_float) : bool :=
  let lat := to_f64 lat in
  let lng := to_f64 lng in
  let lng0 := between (f64_dec (-1) 4) lng (f64_dec 1 4) in
  (SFltb lat (f64_dec (-899) 1) && lng0)
  || (SFltb (f64_dec 899 1) lat && lng0)
  || (between (f64_dec (-1) 4) lat (f64_dec 1 4)
      && (lng0 || between (f64_dec (-9001) 2) lng (f64_dec (-8999) 2)
          || between (f64_dec 8999 2) lng (f64_dec 9001 2)))
  || SFltb lat (f64_of_Z (-90)) || SFltb (f64_of_Z 90) lat
  || SFltb lng (f64_of_Z (-180)) || SFltb (f64_of_Z 180) lng.

Section Parser.
(** [cosf] of the C library. *)
Context (cosf : spec_float -> spec_float).

Definition pbuf_fill_pos (pb : pbuf_t) (lat lng : spec_float) (sym_table sym_code : Z) : pbuf_t * Z :=
  let pb := set_pb_symbol (sym_table, sym_code) pb in
  let pb := if ((sym_code =? ch_us) || (sym_code =? 64)) && valid_sym_table_uncompressed sym_table
            then add_type T_WX pb else pb in
  if pos_bad lat lng then (pb, 0)
  else
    let rlat := filter_lat2rad lat in
    (add_flag F_HASPOS
       (set_pb_lng (filter_lon2rad lng) (set_pb_cos_lat (cosf rlat) (set_pb_lat rlat pb))), 1).

(** ** Symbols in the destination *)

(** Table, first and last second character, and what is added to it, for each
    first character. *)
Definition get_symbol_from_dstcall_twochar (c1 c2 : Z) : option (Z * Z) :=
  let pick t lo hi base := if in_range lo hi c2 then Some (t, c2 - lo + base) else None in
  let prim := ch_slash in let alt := ch_bslash in
  if c1 =? 66 (* B *) then pick prim 66 80 33
  else if c1 =? 80 (* P *) then
    match pick prim 48 57 48 with Some r => Some r | None => pick prim 65 90 65 end
  else if c1 =? 77 (* M *) then pick prim 82 88 58
  else if c1 =? 72 (* H *) then pick prim 83 88 91
  else if c1 =? 76 (* L *) then pick prim 65 90 97
  else if c1 =? 74 (* J *) then pick prim 49 52 123
  else if c1 =? 79 (* O *) then pick alt 66 80 33
  else if c1 =? 65 (* A *) then
    match pick alt 48 57 48 with Some r => Some r | None => pick alt 65 90 65 end
  else if c1 =? 78 (* N *) then pick alt 82 88 58
  else if c1 =? 68 (* D *) then pick alt 83 88 91
  else if c1 =? 83 (* S *) then pick alt 65 90 97
  else if c1 =? 81 (* Q *) then pick alt 49 52 123
  else None.

(** The symbol, or [None] inside when the destination gives none. *)
Definition get_symbol_from_dstcall (pb : pbuf_t) : option (option (Z * Z)) :=
  let d := pb.(pb_srccall_end) + 1 in
  let len := pb.(pb_dstcall_end_or_ssid) - d in
  if len <? 5 then Some None
  else
    let sublength := if len - 3 >? 3 then 3 else len - 3 in
    b ← rd_range pb.(pb_data) d 3;
    if negb (beq b (str "GPS") || beq b (str "SPC") || beq b (str "SYM")) then Some None
    else
      c3 ← rd pb.(pb_data) (d + 3);
      c4 ← rd pb.(pb_data) (d + 4);
      c5 ← (if sublength =? 3 then rd pb.(pb_data) (d + 5) else Some 0);
      if negb (isalnum c3) || negb (isalnum c4) then Some None
      else if (sublength =? 3) && negb (isalnum c5) then Some None
      else if sublength =? 3 then
        if (c3 =? 67) || (c3 =? 69) then
          if negb (isdigit c4) then Some None
          else if negb (isdigit c5) then Some None
          else Some (Some (if c3 =? 67 then ch_slash else ch_bslash, (c4 - 48) * 10 + (c5 - 48) + 32))
        else if ((c3 =? 79) || (c3 =? 65) || (c3 =? 78) || (c3 =? 68) || (c3 =? 83) || (c3 =? 81))
                && isalnum c5
        then Some (get_symbol_from_dstcall_twochar c3 c4)
        else Some None
      else Some (get_symbol_from_dstcall_twochar c3 c4).

(** ** NMEA sentences *)

(** [if ( *p == ',') p++] and [if ( *p != ',') p++] *)
Definition over (p : Z -> bool) (s : list Z) (i : Z) : option Z :=
  c ← rd s i; Some (if p c then i + 1 else i).
Definition comma (c : Z) : bool := c =? ch_comma.
Definition not_comma (c : Z) : bool := negb (c =? ch_comma).

(** From a latitude to the longitude: over the number, a comma, the hemisphere
    and a comma. *)
Definition nmea_lngp (s : list Z) (latp body_end : Z) : option Z :=
  l0 ← scan s latp body_end comma;
  l1 ← over comma s l0;
  l2 ← over not_comma s l1;
  over comma s l2.

(** [while ( *p != ',' && p <= body_end) ++p; if ( *p == ',') ++p;] *)
Fixpoint pnts_scan (n : nat) (s : list Z) (p body_end : Z) : option Z :=
  c ← rd s p;
  match n with
  | O => Some p
  | S n' => if negb (c =? ch_comma) && (p <=? body_end) then pnts_scan n' s (p + 1) body_end else Some p
  end.
Definition pnts_field (s : list Z) (p body_end : Z) : option Z :=
  p ← pnts_scan (Z.to_nat (body_end + 1 - p)) s p body_end;
  over comma s p.

(** What the sentence is: handled (with a return code), unknown, or one with
    places to read the coordinates from. *)
Inductive nmea : Set := NmeaRet (rc : Z) | NmeaPos (latp : Z) (lngp : option Z).

Definition nmea_sentence (s : list Z) (body body_end : Z) : option nmea :=
  k ← rd_range s body 6;
  k7 ← rd_range s body 7;
  if beq k (str "GPGGA,") then
    l ← scan s (body + 6) body_end comma;
    latp ← over comma s l;
    lngp ← nmea_lngp s latp body_end;
    Some (NmeaPos latp (Some lngp))
  else if beq k (str "GPGLL,") then
    lngp ← nmea_lngp s (body + 6) body_end;
    Some (NmeaPos (body + 6) (Some lngp))
  else if beq k (str "GPRMC,") then
    l ← scan s (body + 6) body_end comma;
    l1 ← over comma s l;
    v ← rd s l1;
    if negb (v =? 65) && negb (v =? 86) then Some (NmeaRet 0)
    else
      l2 ← over not_comma s l1;
      latp ← over comma s l2;
      lngp ← nmea_lngp s latp body_end;
      Some (NmeaPos latp (Some lngp))
  else if beq k (str "GPWPL,") then Some (NmeaPos (body + 6) None)
  else if beq k7 (str "PNTS,1,") then
    if body + 55 >? body_end then Some (NmeaRet 0)
    else
      a ← rd s (body + 7);
      b ← rd s (body + 8);
      if a =? ch_comma then Some (NmeaRet 0)
      else if negb (b =? ch_comma) then Some (NmeaRet 0)
      else
        p1 ← pnts_field s (body + 9) body_end;
        p2 ← pnts_field s p1 body_end;
        p3 ← pnts_field s p2 body_end;
        latp ← pnts_field s p3 body_end;
        lngp ← nmea_lngp s latp body_end;
        Some (NmeaPos latp (Some lngp))
  else if beq k (str "GPGSA,") || beq k (str "GPVTG,") || beq k (str "GPGSV,") then Some (NmeaRet 1)
  else Some (NmeaRet 0).

(** [sscanf(p, "%<w>d%f,%c,", ...) == 3]: the degrees, the minutes and the
    hemisphere; the last comma does not count. *)
Definition nmea_coord (w : nat) (s : list Z) : option (Z * spec_float * Z) :=
  '(d, s) ← scan_d w s;
  '(f, s) ← scan_f s;
  s ← scan_lit ch_comma s;
  '(h, _) ← scan_c s;
  Some (d, f, h).

Definition nmea_degrees (d : Z) (minutes : spec_float) (neg : bool) : spec_float :=
  let x := to_f32 (f64_add (to_f64 (f32_of_Z d)) (f64_div (to_f64 minutes) (f64_of_Z 60))) in
  if neg then SFopp x else x.

Definition is_char (a b c : Z) : bool := (c =? a) || (c =? b).

Definition parse_aprs_nmea (pb : pbuf_t) (body body_end : Z) : result :=
  let s := pb.(pb_data) in
  sym ← get_symbol_from_dstcall pb;
  let '(sym_table, sym_code) := default (ch_sp, ch_sp) sym in
  k ← rd_range s body 3;
  if beq k (str "ULT") then Some (add_type T_WX pb, 1)
  else
    snt ← nmea_sentence s body body_end;
    match snt with
    | NmeaRet rc => Some (pb, rc)
    | NmeaPos _ None => Some (pb, 0)
    | NmeaPos latp (Some lngp) =>
        Some (match nmea_coord 2 (cstr (drop (Z.to_nat latp) s)),
                    nmea_coord 3 (cstr (drop (Z.to_nat lngp) s)) with
              | Some (la, lat, lac), Some (lo, lng, loc) =>
                  if negb (is_char 78 110 lac || is_char 83 115 lac) then (pb, 0)
                  else if negb (is_char 69 101 loc || is_char 87 119 loc) then (pb, 0)
                  else pbuf_fill_pos (add_type T_POSITION pb)
                         (nmea_degrees la lat (is_char 83 115 lac))
                         (nmea_degrees lo lng (is_char 87 119 loc)) sym_table sym_code
              | _, _ => (pb, 0)
              end)
    end.

(** ** MIC-E *)

Definition mice_dst_ok (i : nat) (c : Z) : bool :=
  isdigit c || (if (i <? 3)%nat then in_range 65 76 c else c =? 76) || in_range 80 90 c.

Definition mice_info_ok (b : list Z) : bool :=
  match b with
  | [b0; b1; b2; b3; b4; b5; b6; b7] =>
      in_range 38 127 b0 && in_range 38 97 b1 && in_range 28 127 b2 && in_range 28 127 b3
      && in_range 28 125 b4 && in_range 28 127 b5 && (in_range 33 123 b6 || (b6 =? 125))
      && valid_sym_table_uncompressed b7
  | _ => false
  end.

(** The digit a destination character stands for, [_] for an unused one. *)
Definition mice_translate (c : Z) : Z :=
  if in_range 65 74 c then c - (65 - 48)
  else if in_range 80 89 c then c - (80 - 48)
  else if (c =? 75) || (c =? 76) || (c =? 90) then ch_us else c.

(** The translated destination with the unused digits filled in, and the position
    ambiguity: the last test that applies counts. *)
Definition mice_fill (d : list Z) : option (list Z * Z) :=
  match d with
  | [d0; d1; d2; d3; d4; d5] =>
      let u c := c =? ch_us in
      let amb := if u d2 then 4 else if u d3 then 3 else if u d4 then 2 else if u d5 then 1 else 0 in
      if u d1 || u d0 then None
      else Some ([d0; d1; if u d2 then 51 else d2; if u d3 then 53 else d3;
                  if u d4 then 53 else d4; if u d5 then 53 else d5], amb)
  | _ => None
  end.

(** Degrees, minutes and hundredths as doubles, added from left to right. *)
Definition dmm (deg min frag : Z) : spec_float :=
  f64_add (f64_add (to_f64 (f32_of_Z deg)) (f64_div (to_f64 (f32_of_Z min)) (f64_of_Z 60)))
          (f64_div (to_f64 (f32_of_Z frag)) (f64_of_Z 6000)).

Definition mice_lng (amb deg min frag : Z) : spec_float :=
  let fdeg := to_f64 (f32_of_Z deg) in
  if amb =? 0 then to_f32 (dmm deg min frag)
  else if amb =? 1 then to_f32 (dmm deg min (u32 (frag - frag mod 10 + 5)))
  else if amb =? 2 then
    to_f32 (f64_add fdeg (f64_div (f64_add (to_f64 (f32_of_Z min)) (f64_dec 5 1)) (f64_of_Z 60)))
  else if amb =? 3 then
    to_f32 (f64_add fdeg (f64_div (to_f64 (f32_of_Z (u32 (min - min mod 10 + 5)))) (f64_of_Z 60)))
  else to_f32 (f64_add fdeg (f64_dec 5 1)).

(** [0 - x] on floats. *)
Definition f32_neg (x : spec_float) : spec_float := f32_sub (f32_of_Z 0) x.

(** Longitude degrees and minutes from the information field. *)
Definition mice_lng_deg (b0 d4 : Z) : Z :=
  let d := u32 (b0 - 28) in
  let d := if d4 >=? 80 then u32 (d + 100) else d in
  if in_range 180 189 d then d - 80 else if in_range 190 199 d then d - 190 else d.
Definition mice_lng_min (b1 : Z) : Z :=
  let m := u32 (b1 - 28) in if m >=? 60 then m - 60 else m.

Definition parse_aprs_mice (pb : pbuf_t) (body body_end : Z) : result :=
  let s := pb.(pb_data) in
  if body_end - body <? 8 then Some (pb, 0)
  else
    let d := pb.(pb_srccall_end) + 1 in
    if negb (pb.(pb_dstcall_end_or_ssid) - d =? 6) then Some (pb, 0)
    else
      dst ← rd_range s d 6;
      b ← rd_range s body 8;
      if negb (forallb (fun ic => mice_dst_ok ic.1 ic.2) (zip (seq 0 6) dst)) then Some (pb, 0)
      else if negb (mice_info_ok b) then Some (pb, 0)
      else Some
        (match mice_fill (map mice_translate dst), dst, b with
         | Some (t, amb), [_; _; _; d3; d4; d5], b0 :: b1 :: b2 :: _ :: _ :: _ :: b6 :: b7 :: _ =>
             match ('(deg, t) ← scan_u 2 t; '(mn, t) ← scan_u 2 t; '(fr, _) ← scan_u 2 t; Some (deg, mn, fr)) with
             | None => (pb, 0)
             | Some (lat_deg, lat_min, lat_min_frag) =>
                 let lat := to_f32 (dmm lat_deg lat_min lat_min_frag) in
                 let lat := if d3 <=? 76 then f32_neg lat else lat in
                 let lng := mice_lng amb (mice_lng_deg b0 d4) (mice_lng_min b1) (u32 (b2 - 28)) in
                 let lng := if d5 >=? 80 then f32_neg lng else lng in
                 pbuf_fill_pos pb lat lng b7 b6
             end
         | _, _, _ => (pb, 0)
         end).

(** ** Compressed and uncompressed positions *)

(** Four base-91 digits. *)
Definition base91 (a b c d : Z) : Z :=
  (((a - 33) * 91 + (b - 33)) * 91 + (c - 33)) * 91 + (d - 33).

Definition compressed_lat (v : Z) : spec_float :=
  f32_sub (f32_of_Z 90) (f32_div (f32_of_Z v) (f32_of_Z 380926)).
Definition compressed_lng (v : Z) : spec_float :=
  f32_add (f32_of_Z (-180)) (f32_div (f32_of_Z v) (f32_of_Z 190463)).

Definition parse_aprs_compressed (pb : pbuf_t) (body body_end : Z) : result :=
  if body_end - body <? 13 then Some (pb, 0)
  else
    b ← rd_range pb.(pb_data) body 10;
    Some (match b with
          | [sym_table; b1; b2; b3; b4; b5; b6; b7; b8; sym_code] =>
              if negb (forallb (in_range 33 123) [b1; b2; b3; b4; b5; b6; b7; b8]) then (pb, 0)
              else pbuf_fill_pos pb (compressed_lat (base91 b1 b2 b3 b4))
                     (compressed_lng (base91 b5 b6 b7 b8)) sym_table sym_code
          | _ => (pb, 0)
          end).

(** [if (posbuf[i] == ' ') posbuf[i] = v;] *)
Definition fill_space (i : nat) (v : Z) (l : list Z) : list Z :=
  if bool_decide (l !! i = Some ch_sp) then <[i := v]> l else l.

(** The spaces of position ambiguity replaced: [3] for tens, [5] elsewhere. *)
Definition unambiguous (posbuf : list Z) : list Z :=
  fill_space 16 53 (fill_space 15 53 (fill_space 13 53 (fill_space 12 51
    (fill_space 6 53 (fill_space 5 53 (fill_space 3 53 (fill_space 2 51 posbuf))))))).

(** [sscanf(posbuf, "%2u%2u.%2u%c%c%3u%2u.%2u%c%c", ...) == 10] *)
Definition scan_position (s : list Z) : option (Z * Z * Z * Z * Z * Z * Z * Z * Z * Z) :=
  '(lat_deg, s) ← scan_u 2 s; '(lat_min, s) ← scan_u 2 s; s ← scan_lit 46 s;
  '(lat_frag, s) ← scan_u 2 s; '(lat_hemi, s) ← scan_c s; '(sym_table, s) ← scan_c s;
  '(lng_deg, s) ← scan_u 3 s; '(lng_min, s) ← scan_u 2 s; s ← scan_lit 46 s;
  '(lng_frag, s) ← scan_u 2 s; '(lng_hemi, s) ← scan_c s; '(sym_code, _) ← scan_c s;
  Some (lat_deg, lat_min, lat_frag, lat_hemi, sym_table, lng_deg, lng_min, lng_frag, lng_hemi, sym_code).

Definition parse_aprs_uncompressed (pb : pbuf_t) (body body_end : Z) : result :=
  if body_end - body <? 19 then Some (pb, 0)
  else
    posbuf ← rd_range pb.(pb_data) body 19;
    Some (match scan_position (cstr (unambiguous posbuf)) with
          | None => (pb, 0)
          | Some (lat_deg, lat_min, lat_frag, lat_hemi, sym_table,
                  lng_deg, lng_min, lng_frag, lng_hemi, sym_code) =>
              let sym_table := if valid_sym_table_uncompressed sym_table then sym_table else 0 in
              let issouth := is_char 83 115 lat_hemi in
              let iswest := is_char 87 119 lng_hemi in
              if negb issouth && negb (is_char 78 110 lat_hemi) then (pb, 0)
              else if negb iswest && negb (is_char 69 101 lng_hemi) then (pb, 0)
              else if (lat_deg >? 89) || (lng_deg >? 179) then (pb, 0)
              else
                let neg x := to_f32 (f64_sub (f64_of_Z 0) (to_f64 x)) in
                let lat := to_f32 (dmm lat_deg lat_min lat_frag) in
                let lng := to_f32 (dmm lng_deg lng_min lng_frag) in
                pbuf_fill_pos pb (if issouth then neg lat else lat) (if iswest then neg lng else lng)
                  sym_table sym_code
          end).

(** The position of an object or an item: compressed or uncompressed by its first
    character. *)
Definition parse_name_pos (pb : pbuf_t) (pos body_end : Z) : result :=
  c ← rd pb.(pb_data) pos;
  if valid_sym_table_compressed c then parse_aprs_compressed pb pos body_end
  else if isdigit c then parse_aprs_uncompressed pb pos body_end
  else Some (pb, 0).

(** Index of the last character that is not a space, -1 when there is none. *)
Fixpoint last_nonspace (s : list Z) (i acc : Z) : Z :=
  match s with
  | [] => acc
  | c :: t => last_nonspace t (i + 1) (if c =? ch_sp then acc else i)
  end.

Definition parse_aprs_object (pb : pbuf_t) (body body_end : Z) : result :=
  let pb := add_type T_OBJECT pb in
  let s := pb.(pb_data) in
  kill ← rd s (body + 9);
  tz_end ← rd s (body + 16);
  name ← rd_range s body 9;
  if negb (kill =? ch_star) && negb (kill =? ch_us) then Some (pb, 0)
  else if negb (tz_end =? 122) && negb (tz_end =? 104) && negb (tz_end =? ch_slash) then Some (pb, 0)
  else if negb (forallb (in_range 32 126) name) then Some (pb, 0)
  else
    let namelen := last_nonspace name 0 (-1) in
    if namelen <? 0 then Some (pb, 0)
    else parse_name_pos (set_pb_srcname_len (namelen + 1) (set_pb_srcname body pb)) (body + 17) body_end.

(** The loop over an item name: where it stopped, [None] inside on an unprintable
    character. *)
Fixpoint item_name (n : nat) (s : list Z) (body i : Z) : option (option Z) :=
  match n with
  | O => Some (Some i)
  | S n' =>
      c ← rd s (body + i);
      if (c =? ch_bang) || (c =? ch_us) then Some (Some i)
      else if in_range 32 126 c then item_name n' s body (i + 1) else Some None
  end.

Definition parse_aprs_item (pb : pbuf_t) (body body_end : Z) : result :=
  let pb := add_type T_ITEM pb in
  let s := pb.(pb_data) in
  r ← item_name 9 s body 0;
  match r with
  | None => Some (pb, 0)
  | Some i =>
      c ← rd s (body + i);
      if negb (c =? ch_bang) && negb (c =? ch_us) then Some (pb, 0)
      else if (i <? 3) || (i >? 9) then Some (pb, 0)
      else parse_name_pos (set_pb_srcname_len i (set_pb_srcname body pb)) (body + i + 1) body_end
  end.

(** ** Messages *)

Definition disallow_msg_recipients : list (list Z) :=
  [str "javaMSG"; str "JAVATITLE"; str "JAVATITL2"; str "USERLIST"; str "KIPSS"].

(** [packettype &= ~mask] *)
Definition clear_type (mask : Z) (pb : pbuf_t) : pbuf_t :=
  set_pb_packettype (Z.ldiff pb.(pb_packettype) mask) pb.

(** [memcmp(body + off, lit, strlen(lit)) == 0] *)
Definition memcmp_lit (s : list Z) (off : Z) (lit : list Z) : option bool :=
  b ← rd_range s off (zlen lit); Some (beq b lit).

Definition telemetry_message (s : list Z) (body body_len : Z) : option bool :=
  c9 ← rd s (body + 9);
  if (c9 =? ch_colon) && (body_len >=? 16) then
    k ← rd_range s (body + 10) 5;
    Some (beq k (str "PARM.") || beq k (str "UNIT.") || beq k (str "EQNS.") || beq k (str "BITS."))
  else Some false.

(** The recipient is padded with spaces. *)
Definition preparse_aprs_message (pb : pbuf_t) (body body_len : Z) : result :=
  let s := pb.(pb_data) in
  nws1 ← memcmp_lit s body (str "NWS-");
  nws2 ← memcmp_lit s body (str "NWS_");
  sky ← memcmp_lit s body (str "SKY");
  let pb := if nws1 || nws2 || sky then add_type T_NWS pb else pb in
  telem ← telemetry_message s body body_len;
  let pb := if (telem : bool) then add_type T_TELEMETRY (clear_type T_MESSAGE pb) else pb in
  e ← scan s body (body + CALLSIGNLEN_MAX) (fun c => (c =? ch_sp) || (c =? ch_colon) || (c =? 0));
  dst ← rd_range s body (e - body);
  let pb := set_pb_dstname_len (e - body) (set_pb_dstname (Some body) pb) in
  if negb (check_call_match disallow_msg_recipients dst =? 0) then Some (pb, INERR_DIS_MSG_DST)
  else Some (pb, 0).

(** ** The information field *)

(** What comes before the recursion of a third-party packet: its drop reason or
    0, or the packet and where its own information field starts. *)
Definition parse_aprs_3rdparty (pb : pbuf_t) (info_start : Z) : option (Z + pbuf_t * Z) :=
  let s := pb.(pb_data) in
  let p := info_start + 1 in
  m ← memchr s p (pb.(pb_packet_len) - 2 - p) ch_colon;
  match m with
  | None => Some (inl 0)
  | Some body =>
      let pathlen := body - p in
      m ← memchr s p (if pathlen <? CALLSIGNLEN_MAX + 1 then pathlen else CALLSIGNLEN_MAX + 1) ch_gt;
      match m with
      | None => Some (inl 0)
      | Some src_end =>
          let path_start := src_end + 1 in
          if path_start >=? body then Some (inl INERR_INV_3RD_PARTY)
          else
            src ← rd_range s p (src_end - p);
            if negb (check_invalid_src_dst src =? 0) then Some (inl INERR_INV_SRCCALL)
            else
              dstcall_end ← scan s path_start body (fun c => (c =? ch_comma) || (c =? ch_colon));
              dst ← rd_range s path_start (dstcall_end - path_start);
              if negb (check_invalid_src_dst dst =? 0) then Some (inl INERR_INV_DSTCALL)
              else
                n ← check_path_calls s dstcall_end body;
                if n <? 2 then Some (inl INERR_INV_3RD_PARTY)
                else Some (inr (set_pb_srcname_len (src_end - p) (set_pb_srcname p pb), body + 1))
      end
  end.

(** A position after a [!] in the first 40 characters. *)
Definition parse_fallback (pb : pbuf_t) (body body_end : Z) : result :=
  m ← memchr pb.(pb_data) body (body_end - body) ch_bang;
  match m with
  | Some pos_start =>
      if pos_start - body <=? 39 then
        poschar ← rd pb.(pb_data) pos_start;
        if valid_sym_table_compressed poschar then
          if body_end - pos_start >=? 13 then parse_aprs_compressed pb pos_start body_end else Some (pb, 0)
        else if isdigit poschar then
          if body_end - pos_start >=? 19 then parse_aprs_uncompressed pb pos_start body_end else Some (pb, 0)
        else Some (pb, 0)
      else Some (pb, 0)
  | None => Some (pb, 0)
  end.

(** Position packets: the types !, =, / and @. *)
Definition parse_position_packet (pb : pbuf_t) (packettype body body_end : Z) : result :=
  if body_end - body <? 10 then Some (pb, 0)
  else
    let pb := add_type T_POSITION pb in
    let body := if (packettype =? ch_slash) || (packettype =? 64) then body + 7 else body in
    poschar ← rd pb.(pb_data) body;
    if valid_sym_table_compressed poschar then
      if body_end - body >=? 13 then parse_aprs_compressed pb body body_end else Some (pb, 0)
    else if isdigit poschar then
      if body_end - body >=? 19 then parse_aprs_uncompressed pb body body_end else Some (pb, 0)
    else Some (pb, 0).

(** The body of [parse_aprs_body]; [rec] is the call for the packet inside a
    third-party packet. *)
Definition parse_aprs_field (rec : pbuf_t -> Z -> result) (pb : pbuf_t) (info_start : Z) : result :=
  let s := pb.(pb_data) in
  let paclen := pb.(pb_packet_len) - pb.(pb_info_start) - 2 in
  if paclen <? 1 then Some (pb, 0)
  else
    packettype ← rd s info_start;
    let body := info_start + 1 in
    let body_end := pb.(pb_packet_len) - 2 in
    if (packettype =? 39) || (packettype =? 96) then
      if paclen >=? 9 then parse_aprs_mice (add_type T_POSITION pb) body body_end else Some (pb, 0)
    else if packettype =? ch_bang then
      c1 ← rd s (info_start + 1);
      if c1 =? ch_bang then Some (add_type T_WX pb, 0)
      else parse_position_packet pb packettype body body_end
    else if (packettype =? 61) || (packettype =? ch_slash) || (packettype =? 64) then
      parse_position_packet pb packettype body body_end
    else if packettype =? ch_dollar then
      if body_end - body >? 10 then parse_aprs_nmea pb body body_end else Some (pb, 0)
    else if packettype =? ch_colon then
      if paclen >=? 11 then preparse_aprs_message (add_type T_MESSAGE pb) body (paclen - 1) else Some (pb, 0)
    else if packettype =? 59 then
      if body_end - body >? 29 then parse_aprs_object pb body body_end else Some (pb, 0)
    else if packettype =? ch_gt then Some (add_type T_STATUS pb, 0)
    else if packettype =? 60 then Some (add_type T_STATCAPA pb, 0)
    else if packettype =? 63 then Some (add_type T_QUERY pb, 0)
    else if packettype =? 41 then
      if body_end - body >? 18 then parse_aprs_item pb body body_end else Some (pb, 0)
    else if packettype =? 84 then
      if body_end - body >? 18 then Some (add_type T_TELEMETRY pb, 0) else Some (pb, 0)
    else if (packettype =? ch_hash) || (packettype =? ch_star) || (packettype =? ch_us) then
      Some (add_type T_WX pb, 0)
    else if packettype =? ch_lbrace then Some (add_type T_USERDEF pb, 0)
    else if packettype =? ch_rbrace then
      let pb := add_type T_3RDPARTY pb in
      r ← parse_aprs_3rdparty pb info_start;
      match r with
      | inl rc => Some (pb, rc)
      | inr (pb, inner) => rec pb inner
      end
    else
      dx ← (if packettype =? 68 then strncmp_eq s body (str "X de ") else Some false);
      if (dx : bool) then Some (pb, INERR_DIS_DX) else parse_fallback pb body body_end.

(** [parse_aprs_body] calls itself further into the packet; [fuel] bounds the
    depth. *)
Fixpoint parse_aprs_body (fuel : nat) : pbuf_t -> Z -> result :=
  parse_aprs_field (match fuel with O => fun _ _ => None | S fuel' => parse_aprs_body fuel' end).

(** [for (i = 2; i < packet_len; i++) if (!isdigit(d[i])) break; d[i] == '>'] *)
Definition cwop_source (pb : pbuf_t) : option bool :=
  let d := pb.(pb_data) in
  d1 ← rd d 1;
  d0 ← rd d 0;
  if (d1 =? 87) && in_range 67 69 d0 then
    i ← scan d 2 pb.(pb_packet_len) (fun c => negb (isdigit c));
    c ← rd d i; Some (c =? ch_gt)
  else Some false.

(** [parse_aprs]; a packet is never nested deeper than it is long.  An
    [info_start] of 0 is the NULL pointer of a packet that has none. *)
Definition parse_aprs (pb : pbuf_t) : result :=
  if pb.(pb_info_start) =? 0 then Some (pb, 0)
  else
  let pb := set_pb_packettype T_ALL pb in
  cw ← cwop_source pb;
  let pb := if (cw : bool) then add_type T_CWOP pb else pb in
  parse_aprs_body (Z.to_nat pb.(pb_packet_len)) pb pb.(pb_info_start).

(** ** Text messages *)

Record aprs_message_t := mk_message {
  am_body : Z;
  am_body_len : Z;
  am_msgid : option Z;
  am_msgid_len : Z;
  am_is_ack : bool
}.

Definition message_zero : aprs_message_t := mk_message 0 0 None 0 false.

(** [parse_aprs_message]: the return code and the message.  [body_len] is the
    length of the whole information field at first, although [body] starts 11
    characters into it. *)
Definition parse_aprs_message (pb : pbuf_t) : option (Z * aprs_message_t) :=
  let s := pb.(pb_data) in
  if negb (has pb.(pb_packettype) T_MESSAGE) then Some (-1, message_zero)
  else
    c ← rd s (pb.(pb_info_start) + 10);
    if negb (c =? ch_colon) then Some (-2, message_zero)
    else
      let body := pb.(pb_info_start) + 11 in
      let body_len := pb.(pb_packet_len) - 2 - pb.(pb_info_start) in
      p ← rscan s (body + body_len - 1) body (fun c => c =? ch_lbrace);
      x ← rd s p;
      let am := if x =? ch_lbrace
                then mk_message body (p - body) (Some (p + 1)) (pb.(pb_packet_len) - 2 - (p + 1)) false
                else mk_message body body_len None 0 false in
      if (am.(am_msgid_len) =? 0) && (am.(am_body_len) >? 3) then
        a ← rd_range s body 3;
        if beq a (str "ack")
        then Some (0, mk_message body 0 (Some (body + 3)) (am.(am_body_len) - 3) true)
        else Some (0, am)
      else Some (0, am).
End Parser.

(** * The parser is defined on every packet of the input side *)

(** What the input side hands over: the packet ends in CR, LF and NUL, the
    information field is not empty, and the header offsets lie in the buffer. *)
Record packet_ok (pb : pbuf_t) : Prop := {
  po_info : 2 <= pb.(pb_info_start) /\ pb.(pb_info_start) + 3 <= pb.(pb_packet_len);
  po_cr : rd pb.(pb_data) (pb.(pb_packet_len) - 2) = Some 13;
  po_lf : rd pb.(pb_data) (pb.(pb_packet_len) - 1) = Some 10;
  po_nul : rd pb.(pb_data) pb.(pb_packet_len) = Some 0;
  po_dst : 0 <= pb.(pb_srccall_end) /\ pb.(pb_dstcall_end_or_ssid) <= zlen pb.(pb_data)
}.

Section Total.
Context (cosf : spec_float -> spec_float).

Abbreviation body_end pb := (pb.(pb_packet_len) - 2) (only parsing).

Lemma buffer_len pb : packet_ok pb -> body_end pb + 3 <= zlen pb.(pb_data).
Proof. intros [_ _ _ Hn _]. apply rd_Some in Hn. lia. Qed.

(** The parsers change nothing they read. *)
Lemma packet_ok_same pb pb' :
  packet_ok pb -> pb'.(pb_data) = pb.(pb_data) -> pb'.(pb_packet_len) = pb.(pb_packet_len) ->
  pb'.(pb_info_start) = pb.(pb_info_start) -> pb'.(pb_srccall_end) = pb.(pb_srccall_end) ->
  pb'.(pb_dstcall_end_or_ssid) = pb.(pb_dstcall_end_or_ssid) -> packet_ok pb'.
Proof. intros [] E1 E2 E3 E4 E5. split; rewrite ?E1, ?E2, ?E3, ?E4, ?E5; done. Qed.

(** Run the leading operation of a definedness goal. *)
Ltac read_step :=
  cbn [mbind option_bind];
  match goal with
  | |- exists r, Some _ = Some r => eexists; reflexivity
  | |- context [rd_range ?s ?a ?n] => rewrite (rd_range_in s a n) by lia
  | |- context [rd ?s ?i] =>
      let c := fresh "c" in let E := fresh "E" in
      destruct (rd_in s i) as [c E]; [lia|]; rewrite E
  | |- context [if ?b then _ else _] => destruct b eqn:?
  end.

Lemma compressed_in pb p :
  packet_ok pb -> 0 <= p -> exists r, parse_aprs_compressed cosf pb p (body_end pb) = Some r.
Proof.
  intros Hok Hp. pose proof (buffer_len pb Hok). unfold parse_aprs_compressed. repeat read_step.
Qed.

Lemma uncompressed_in pb p :
  packet_ok pb -> 0 <= p -> exists r, parse_aprs_uncompressed cosf pb p (body_end pb) = Some r.
Proof.
  intros Hok Hp. pose proof (buffer_len pb Hok). unfold parse_aprs_uncompressed. repeat read_step.
Qed.

Lemma mice_in pb p :
  packet_ok pb -> 0 <= p -> exists r, parse_aprs_mice cosf pb p (body_end pb) = Some r.
Proof.
  intros Hok Hp. pose proof (buffer_len pb Hok). destruct (po_dst pb Hok). unfold parse_aprs_mice.
  repeat read_step.
Qed.

Lemma name_pos_in pb p :
  packet_ok pb -> 0 <= p <= body_end pb -> exists r, parse_name_pos cosf pb p (body_end pb) = Some r.
Proof.
  intros Hok Hp. pose proof (buffer_len pb Hok). unfold parse_name_pos.
  repeat read_step; [apply compressed_in|apply uncompressed_in]; (done || lia).
Qed.

Lemma object_in pb p :
  packet_ok pb -> 0 <= p -> body_end pb - p > 29 ->
  exists r, parse_aprs_object cosf pb p (body_end pb) = Some r.
Proof.
  intros Hok Hp Hl. pose proof (buffer_len pb Hok). unfold parse_aprs_object.
  change (pb_data (add_type T_OBJECT pb)) with (pb_data pb).
  repeat read_step.
  match goal with |- exists r, parse_name_pos _ ?q _ _ = _ => apply (name_pos_in q) end; [|cbn; lia].
  by apply (packet_ok_same pb).
Qed.

Lemma item_name_in n s body i :
  0 <= body + i -> body + i + Z.of_nat n <= zlen s ->
  exists r, item_name n s body i = Some r /\ forall j, r = Some j -> i <= j <= i + Z.of_nat n.
Proof.
  revert i. induction n as [|n IH]; intros i H1 H2; cbn [item_name].
  - eexists. split; [done|]. intros j [= <-]. lia.
  - destruct (rd_in s (body + i)) as [c ->]; [lia|]. cbn [mbind option_bind].
    destruct ((c =? ch_bang) || (c =? ch_us)).
    { eexists. split; [done|]. intros j [= <-]. lia. }
    destruct (in_range 32 126 c); [|by eexists].
    destruct (IH (i + 1)) as (r & Hr & Hj); [lia|lia|]. exists r. split; [done|].
    intros j Hj'. specialize (Hj j Hj'). lia.
Qed.

Lemma item_in pb p :
  packet_ok pb -> 0 <= p -> body_end pb - p > 18 ->
  exists r, parse_aprs_item cosf pb p (body_end pb) = Some r.
Proof.
  intros Hok Hp Hl. pose proof (buffer_len pb Hok). unfold parse_aprs_item.
  change (pb_data (add_type T_ITEM pb)) with (pb_data pb).
  destruct (item_name_in 9 (pb_data pb) p 0) as (r & -> & Hj); [lia|lia|]. cbn [mbind option_bind].
  destruct r as [i|]; [|eauto]. specialize (Hj i eq_refl).
  repeat read_step.
  match goal with |- exists r, parse_name_pos _ ?q _ _ = _ => apply (name_pos_in q) end; [|cbn; lia].
  by apply (packet_ok_same pb).
Qed.

Lemma message_in pb p n :
  packet_ok pb -> 0 <= p -> p + 10 <= body_end pb -> p + n <= body_end pb ->
  exists r, preparse_aprs_message pb p n = Some r.
Proof.
  intros Hok Hp Hl Hn. pose proof (buffer_len pb Hok). unfold preparse_aprs_message, memcmp_lit.
  change (zlen (str "NWS-")) with 4. change (zlen (str "NWS_")) with 4. change (zlen (str "SKY")) with 3.
  rewrite !rd_range_in by lia. cbn [mbind option_bind].
  assert (exists b, telemetry_message (pb_data pb) p n = Some b) as [b ->].
  { unfold telemetry_message. repeat read_step. }
  cbn [mbind option_bind].
  set (stop := fun c => (c =? ch_sp) || (c =? ch_colon) || (c =? 0)).
  destruct (scan_in (pb_data pb) p (p + CALLSIGNLEN_MAX) stop) as [e He]; [lia|unfold CALLSIGNLEN_MAX; lia|].
  rewrite He. apply scan_spec in He as [He _]; [|unfold CALLSIGNLEN_MAX; lia].
  unfold CALLSIGNLEN_MAX in He. repeat read_step.
Qed.

Lemma memchr_in s a n c : 0 <= a -> 0 <= n -> a + n <= zlen s -> exists m, memchr s a n c = Some m.
Proof. intros. unfold memchr, memmem. rewrite rd_range_in by lia. cbn. eauto. Qed.

Lemma memchr_at s a n c p : memchr s a n c = Some (Some p) -> a <= p < a + n.
Proof. unfold memchr. intros Hm%memmem_Some. change (zlen [c]) with 1 in Hm. lia. Qed.

Lemma fallback_in pb p :
  packet_ok pb -> 0 <= p <= body_end pb -> exists r, parse_fallback cosf pb p (body_end pb) = Some r.
Proof.
  intros Hok Hp. pose proof (buffer_len pb Hok). unfold parse_fallback.
  destruct (memchr_in (pb_data pb) p (body_end pb - p) ch_bang) as [m Hm]; [lia..|].
  rewrite Hm. destruct m as [q|]; [|cbn; eauto]. apply memchr_at in Hm.
  repeat read_step; (apply compressed_in || apply uncompressed_in); (done || lia).
Qed.

Lemma position_in pb ty p :
  packet_ok pb -> 0 <= p -> exists r, parse_position_packet cosf pb ty p (body_end pb) = Some r.
Proof.
  intros Hok Hp. pose proof (buffer_len pb Hok). unfold parse_position_packet.
  change (pb_data (add_type T_POSITION pb)) with (pb_data pb).
  destruct (body_end pb - p <? 10) eqn:E; [eauto|].
  assert (packet_ok (add_type T_POSITION pb)) as Hok' by by apply (packet_ok_same pb).
  set (q := if (ty =? ch_slash) || (ty =? 64) then p + 7 else p).
  assert (0 <= q <= body_end pb) by (unfold q; destruct (_ || _); lia).
  repeat read_step; (apply (compressed_in (add_type T_POSITION pb)) ||
                     apply (uncompressed_in (add_type T_POSITION pb))); (done || lia).
Qed.

Lemma symbol_in pb : packet_ok pb -> exists r, get_symbol_from_dstcall pb = Some r.
Proof.
  intros Hok. destruct (po_dst pb Hok). unfold get_symbol_from_dstcall.
  set (len := pb_dstcall_end_or_ssid pb - (pb_srccall_end pb + 1)).
  destruct (len <? 5) eqn:E; [eauto|]. set (sub := if len - 3 >? 3 then 3 else len - 3).
  assert (sub = 3 -> 6 <= len) by (unfold sub; destruct (len - 3 >? 3) eqn:?; lia).
  clearbody sub. destruct (Z.eqb_spec sub 3); repeat read_step.
Qed.

(** The line end stops every scan for a comma. *)
Lemma over_comma_in pb p :
  packet_ok pb -> 0 <= p <= body_end pb + 2 ->
  exists q, over comma pb.(pb_data) p = Some q /\ p <= q <= Z.max p (body_end pb).
Proof.
  intros Hok Hp. pose proof (buffer_len pb Hok). destruct Hok as [_ Hcr Hlf Hnul _]. unfold over.
  destruct (rd_in (pb_data pb) p) as [c Hc]; [lia|]. rewrite Hc. cbn [mbind option_bind].
  eexists. split; [done|]. unfold comma. destruct (Z.eqb_spec c ch_comma) as [->|]; [|lia].
  destruct (decide (p < body_end pb)); [lia|]. exfalso.
  assert (p = body_end pb \/ p = pb_packet_len pb - 1 \/ p = pb_packet_len pb) as [-> |[-> | ->]] by lia;
    congruence.
Qed.

Lemma over_in q s p : 0 <= p < zlen s -> exists r, over q s p = Some r /\ p <= r <= p + 1.
Proof.
  intros Hp. unfold over. destruct (rd_in s p) as [c ->]; [lia|]. cbn. eexists. split; [done|].
  destruct (q c); lia.
Qed.

Lemma nmea_lngp_in pb p :
  packet_ok pb -> 0 <= p <= body_end pb + 1 -> exists q, nmea_lngp pb.(pb_data) p (body_end pb) = Some q.
Proof.
  intros Hok Hp. pose proof (buffer_len pb Hok). unfold nmea_lngp.
  assert (exists l0, scan (pb_data pb) p (body_end pb) comma = Some l0 /\ p <= l0 <= Z.max p (body_end pb))
    as (l0 & -> & H0).
  { destruct (scan_in (pb_data pb) p (body_end pb) comma) as [l0 E]; [lia..|]. exists l0. split; [done|].
    unfold scan in E. apply scan_n_spec in E as [E _]. lia. }
  cbn [mbind option_bind]. destruct (over_comma_in pb l0) as (l1 & -> & H1); [done|lia|].
  cbn [mbind option_bind]. destruct (over_in not_comma (pb_data pb) l1) as (l2 & -> & H2); [lia|].
  cbn [mbind option_bind]. destruct (over_comma_in pb l2) as (l3 & -> & _); [done|lia|]. eauto.
Qed.

Lemma pnts_scan_in n s p e :
  0 <= p <= e + 1 -> e + 2 <= zlen s -> exists q, pnts_scan n s p e = Some q /\ p <= q <= e + 1.
Proof.
  intros Hp He. revert p Hp. induction n as [|n IH]; intros p Hp; cbn [pnts_scan];
    destruct (rd_in s p) as [c ->]; [lia| |lia|]; cbn [mbind option_bind].
  - exists p. split; [done|lia].
  - destruct (negb (c =? ch_comma) && (p <=? e)) eqn:E; [|exists p; split; [done|lia]].
    destruct (IH (p + 1)) as (q & Hq & ?); [lia|]. exists q. split; [done|lia].
Qed.

Lemma pnts_field_in pb p :
  packet_ok pb -> 0 <= p <= body_end pb + 1 ->
  exists q, pnts_field pb.(pb_data) p (body_end pb) = Some q /\ p <= q <= body_end pb + 1.
Proof.
  intros Hok Hp. pose proof (buffer_len pb Hok). unfold pnts_field.
  destruct (pnts_scan_in (Z.to_nat (body_end pb + 1 - p)) (pb_data pb) p (body_end pb)) as (q & -> & Hq); [lia..|].
  cbn [mbind option_bind]. destruct (over_comma_in pb q) as (r & -> & Hr); [done|lia|].
  exists r. split; [done|lia].
Qed.

Lemma scan_comma_in pb p :
  packet_ok pb -> 0 <= p <= body_end pb ->
  exists q, scan pb.(pb_data) p (body_end pb) comma = Some q /\ p <= q <= body_end pb.
Proof.
  intros Hok Hp. pose proof (buffer_len pb Hok).
  destruct (scan_in (pb_data pb) p (body_end pb) comma) as [q E]; [lia..|]. exists q. split; [done|].
  apply scan_spec in E as [E _]; lia.
Qed.

Lemma nmea_sentence_in pb p :
  packet_ok pb -> 0 <= p -> body_end pb - p > 10 ->
  exists r, nmea_sentence pb.(pb_data) p (body_end pb) = Some r.
Proof.
  intros Hok Hp Hl. pose proof (buffer_len pb Hok). unfold nmea_sentence.
  rewrite !rd_range_in by lia. cbn [mbind option_bind].
  destruct (beq _ (str "GPGGA,")).
  { destruct (scan_comma_in pb (p + 6)) as (l & -> & ?); [done|lia|]. cbn [mbind option_bind].
    destruct (over_comma_in pb l) as (l1 & -> & ?); [done|lia|]. cbn [mbind option_bind].
    destruct (nmea_lngp_in pb l1) as [q ->]; [done|lia|]. cbn. eauto. }
  destruct (beq _ (str "GPGLL,")).
  { destruct (nmea_lngp_in pb (p + 6)) as [q ->]; [done|lia|]. cbn. eauto. }
  destruct (beq _ (str "GPRMC,")).
  { destruct (scan_comma_in pb (p + 6)) as (l & -> & ?); [done|lia|]. cbn [mbind option_bind].
    destruct (over_comma_in pb l) as (l1 & -> & ?); [done|lia|]. cbn [mbind option_bind].
    destruct (rd_in (pb_data pb) l1) as [v Hv]; [lia|]. rewrite Hv. cbn [mbind option_bind].
    destruct (negb (v =? 65) && negb (v =? 86)) eqn:Ev; [eauto|].
    assert (l1 < body_end pb).
    { destruct (decide (l1 = body_end pb)) as [->|]; [|lia]. rewrite (po_cr pb Hok) in Hv.
      injection Hv as <-. done. }
    destruct (over_in not_comma (pb_data pb) l1) as (l2 & -> & ?); [lia|]. cbn [mbind option_bind].
    destruct (over_comma_in pb l2) as (l3 & -> & ?); [done|lia|]. cbn [mbind option_bind].
    destruct (nmea_lngp_in pb l3) as [q ->]; [done|lia|]. cbn. eauto. }
  destruct (beq _ (str "GPWPL,")); [eauto|].
  destruct (beq _ (str "PNTS,1,")); [|destruct (_ || _); eauto].
  destruct (p + 55 >? body_end pb) eqn:E55; [eauto|].
  destruct (rd_in (pb_data pb) (p + 7)) as [a ->]; [lia|]. cbn [mbind option_bind].
  destruct (rd_in (pb_data pb) (p + 8)) as [b ->]; [lia|]. cbn [mbind option_bind].
  destruct (a =? ch_comma); [eauto|]. destruct (negb (b =? ch_comma)); [eauto|].
  destruct (pnts_field_in pb (p + 9)) as (p1 & -> & ?); [done|lia|]. cbn [mbind option_bind].
  destruct (pnts_field_in pb p1) as (p2 & -> & ?); [done|lia|]. cbn [mbind option_bind].
  destruct (pnts_field_in pb p2) as (p3 & -> & ?); [done|lia|]. cbn [mbind option_bind].
  destruct (pnts_field_in pb p3) as (p4 & -> & ?); [done|lia|]. cbn [mbind option_bind].
  destruct (nmea_lngp_in pb p4) as [q ->]; [done|lia|]. cbn. eauto.
Qed.

Lemma nmea_in pb p :
  packet_ok pb -> 0 <= p -> body_end pb - p > 10 ->
  exists r, parse_aprs_nmea cosf pb p (body_end pb) = Some r.
Proof.
  intros Hok Hp Hl. pose proof (buffer_len pb Hok). unfold parse_aprs_nmea.
  destruct (symbol_in pb Hok) as [sym ->]. cbn [mbind option_bind].
  destruct (default (ch_sp, ch_sp) sym) as [t c].
  rewrite rd_range_in by lia. cbn [mbind option_bind]. destruct (beq _ _); [eauto|].
  destruct (nmea_sentence_in pb p) as [[rc|latp [lngp|]] ->]; [done..| | |]; cbn [mbind option_bind]; eauto.
Qed.

Lemma cwop_in pb : packet_ok pb -> exists b, cwop_source pb = Some b.
Proof.
  intros Hok. pose proof (buffer_len pb Hok). destruct (po_info pb Hok). unfold cwop_source.
  destruct (rd_in (pb_data pb) 1) as [d1 ->]; [lia|]. cbn [mbind option_bind].
  destruct (rd_in (pb_data pb) 0) as [d0 ->]; [lia|]. cbn [mbind option_bind].
  destruct (_ && _); [|eauto].
  destruct (scan_in (pb_data pb) 2 (pb_packet_len pb) (fun c => negb (isdigit c))) as [i Hi]; [lia..|].
  rewrite Hi. cbn [mbind option_bind]. apply scan_spec in Hi as [Hi _]; [|lia].
  destruct (rd_in (pb_data pb) i) as [c ->]; [lia|]. cbn. eauto.
Qed.

(** Comparing with a text that has no CR stops at the line end. *)
Lemma strncmp_line pb p lit :
  packet_ok pb -> 0 <= p <= body_end pb -> 13 ∉ lit -> exists b, strncmp_eq pb.(pb_data) p lit = Some b.
Proof.
  intros Hok. pose proof (buffer_len pb Hok). revert p. induction lit as [|x lit IH]; intros p Hp Hn;
    cbn [strncmp_eq]; [eauto|]. apply not_elem_of_cons in Hn as [Hx Hn].
  destruct (rd_in (pb_data pb) p) as [c Hc]; [lia|]. rewrite Hc. cbn [mbind option_bind].
  destruct (Z.eqb_spec c x) as [->|]; [|eauto]. apply IH; [|done].
  destruct (decide (p = body_end pb)) as [->|]; [|lia]. rewrite (po_cr pb Hok) in Hc. congruence.
Qed.

(** A field that is not empty and is not a third-party packet. *)
Lemma field_in rec pb :
  packet_ok pb -> rd pb.(pb_data) pb.(pb_info_start) <> Some ch_rbrace ->
  exists r, parse_aprs_field cosf rec pb pb.(pb_info_start) = Some r.
Proof.
  intros Hok Hnb. pose proof (buffer_len pb Hok). destruct (po_info pb Hok) as [Hi0 Hi].
  assert (forall m, packet_ok (add_type m pb)) as Hadd by (intros; by apply (packet_ok_same pb)).
  set (info := pb_info_start pb) in *. unfold parse_aprs_field. fold info.
  destruct (_ <? 1) eqn:Epl; [eauto|]. destruct (rd_in (pb_data pb) info) as [ty Hty]; [lia|].
  rewrite Hty in *. cbn [mbind option_bind].
  destruct (_ || _); [destruct (_ >=? 9); [apply (mice_in (add_type T_POSITION pb)); [done|lia]|eauto]|].
  destruct (ty =? ch_bang).
  { destruct (rd_in (pb_data pb) (info + 1)) as [c1 ->]; [lia|]. cbn [mbind option_bind].
    destruct (c1 =? ch_bang); [eauto|apply position_in; [done|lia]]. }
  destruct (_ || _); [apply position_in; [done|lia]|].
  destruct (ty =? ch_dollar); [destruct (_ >? 10) eqn:E10; [apply nmea_in; [done|lia|lia]|eauto]|].
  destruct (ty =? ch_colon).
  { destruct (_ >=? 11) eqn:E11; [|eauto]. apply (message_in (add_type T_MESSAGE pb)); [done|lia|cbn; lia|cbn; lia]. }
  destruct (ty =? 59); [destruct (_ >? 29) eqn:E29; [apply object_in; [done|lia|lia]|eauto]|].
  destruct (ty =? ch_gt); [eauto|]. destruct (ty =? 60); [eauto|]. destruct (ty =? 63); [eauto|].
  destruct (ty =? 41); [destruct (_ >? 18) eqn:E18; [apply item_in; [done|lia|lia]|eauto]|].
  destruct (ty =? 84); [destruct (_ >? 18); eauto|].
  destruct (_ || _); [eauto|]. destruct (ty =? ch_lbrace); [eauto|].
  destruct (Z.eqb_spec ty ch_rbrace) as [->|]; [done|].
  assert (exists dx, (if ty =? 68 then strncmp_eq (pb_data pb) (info + 1) (str "X de ") else Some false)
    = Some dx) as [dx ->].
  { destruct (ty =? 68); [|eauto]. apply strncmp_line; [done|lia|].
    intros Hin. apply list_elem_of_In in Hin. cbn in Hin. lia. }
  cbn [mbind option_bind]. destruct dx; [eauto|apply fallback_in; [done|lia]].
Qed.
End Total.

(** The whole parser. *)
Lemma parse_aprs_in cosf pb :
  packet_ok pb -> rd pb.(pb_data) pb.(pb_info_start) <> Some ch_rbrace ->
  exists pb' rc, parse_aprs cosf pb = Some (pb', rc).
Proof.
  intros Hok Hnb. unfold parse_aprs. destruct (_ =? 0); [eauto|].
  set (pb0 := set_pb_packettype T_ALL pb).
  assert (packet_ok pb0) as Hok0 by by apply (packet_ok_same pb).
  destruct (cwop_in pb0 Hok0) as [cw ->]. cbn [mbind option_bind].
  set (pb1 := if cw then add_type T_CWOP pb0 else pb0).
  assert (packet_ok pb1) as Hok1 by (destruct cw; by apply (packet_ok_same pb)).
  assert (rd (pb_data pb1) (pb_info_start pb1) <> Some ch_rbrace) as Hnb1 by (by destruct cw).
  assert (exists r, parse_aprs_body cosf (Z.to_nat (pb_packet_len pb1)) pb1 (pb_info_start pb1) = Some r)
    as [[pb' rc] ->]; [|eauto].
  destruct (Z.to_nat (pb_packet_len pb1)); cbn [parse_aprs_body]; by apply field_in.
Qed.

(** * What parsing changes *)

(** The members no parser writes. *)
Definition header (pb : pbuf_t) :=
  (pb.(pb_origin), pb.(pb_srcname_hash), pb.(pb_srccall_hash), pb.(pb_dstname_hash), pb.(pb_dstcall_len),
   pb.(pb_entrycall_len), pb.(pb_seqnum), pb.(pb_t),
   (pb.(pb_packet_len), pb.(pb_buf_len), pb.(pb_srccall_end), pb.(pb_dstcall_end_or_ssid),
    pb.(pb_dstcall_end), pb.(pb_qconst_start), pb.(pb_info_start), pb.(pb_is_free), pb.(pb_data))).

Section Changes.
Context (cosf : spec_float -> spec_float).

(** A position was stored: it is not a refused one, and it is stored in radians
    with the cosine of the latitude. *)
Definition has_position (pb : pbuf_t) : Prop :=
  exists lat lng, pos_bad lat lng = false /\ pb.(pb_lat) = filter_lat2rad lat /\
    pb.(pb_cos_lat) = cosf (filter_lat2rad lat) /\ pb.(pb_lng) = filter_lon2rad lng.

(** The header is as before; either no position was stored and the flags are as
    before, or one was, [F_HASPOS] says so and the return code is 1. *)
Record parsed (pb : pbuf_t) (r : pbuf_t * Z) : Prop := {
  pa_header : header r.1 = header pb;
  pa_flags : (r.1.(pb_flags) = pb.(pb_flags) /\ r.1.(pb_lat) = pb.(pb_lat) /\ r.1.(pb_lng) = pb.(pb_lng)
              /\ r.1.(pb_cos_lat) = pb.(pb_cos_lat)) \/
             (r.1.(pb_flags) = Z.lor pb.(pb_flags) F_HASPOS /\ has_position r.1 /\ r.2 = 1)
}.

(** Packets that differ in type, names and symbol only. *)
Definition retyped (pb pb' : pbuf_t) : Prop :=
  header pb' = header pb /\ pb'.(pb_flags) = pb.(pb_flags) /\ pb'.(pb_lat) = pb.(pb_lat) /\
  pb'.(pb_lng) = pb.(pb_lng) /\ pb'.(pb_cos_lat) = pb.(pb_cos_lat).

Lemma retyped_refl pb : retyped pb pb.
Proof. by repeat split. Qed.
Lemma retyped_type m pb pb' : retyped pb pb' -> retyped pb (add_type m pb').
Proof. by intros (?&?&?&?&?). Qed.
Lemma retyped_clear m pb pb' : retyped pb pb' -> retyped pb (clear_type m pb').
Proof. by intros (?&?&?&?&?). Qed.
Lemma retyped_src a n pb pb' : retyped pb pb' -> retyped pb (set_pb_srcname_len n (set_pb_srcname a pb')).
Proof. by intros (?&?&?&?&?). Qed.
Lemma retyped_dst a n pb pb' : retyped pb pb' -> retyped pb (set_pb_dstname_len n (set_pb_dstname a pb')).
Proof. by intros (?&?&?&?&?). Qed.
Lemma retyped_symbol x pb pb' : retyped pb pb' -> retyped pb (set_pb_symbol x pb').
Proof. by intros (?&?&?&?&?). Qed.
Lemma retyped_parsed pb pb' rc : retyped pb pb' -> parsed pb (pb', rc).
Proof. intros (?&?&?&?&?). split; [done|]. by left. Qed.

Lemma retyped_fill pb pb' lat lng t c : retyped pb pb' -> parsed pb (pbuf_fill_pos cosf pb' lat lng t c).
Proof.
  intros Hr. unfold pbuf_fill_pos.
  set (p1 := if _ : bool then add_type T_WX _ else _).
  assert (retyped pb p1) as H1.
  { unfold p1. destruct (_ && _); [apply retyped_type|]; by apply retyped_symbol. }
  clearbody p1. destruct (pos_bad lat lng) eqn:E; [by apply retyped_parsed|]. destruct H1 as (?&Hf&?&?&?).
  split; [done|]. right. split; [cbn; by rewrite Hf|]. split; [|done]. by exists lat, lng.
Qed.

Hint Resolve retyped_refl retyped_type retyped_clear retyped_src retyped_dst retyped_symbol
  retyped_parsed retyped_fill : aprs.

(** A result, when there is one, is a parse of [pb]. *)
Definition parses (pb : pbuf_t) (m : result) : Prop := forall r, m = Some r -> parsed pb r.

Lemma parses_Some pb r : parsed pb r -> parses pb (Some r).
Proof. by intros H ? [= <-]. Qed.
Lemma parses_bind {A} pb (m : option A) k : (forall x, m = Some x -> parses pb (k x)) -> parses pb (m ≫= k).
Proof. intros H r. destruct m as [x|]; [|done]. by apply H. Qed.

(** Go through the tests of a parser down to its results. *)
Ltac parses_step :=
  first [ progress intros
        | match goal with |- parses _ (mbind _ _) => apply parses_bind end
        | match goal with |- parses _ (if ?b then _ else _) => destruct b end
        | match goal with |- parses _ (Some _) => apply parses_Some end ].
Ltac parses_auto := repeat (parses_step || case_match); simplify_eq; eauto 6 with aprs.

Lemma compressed_parsed pb0 pb p e : retyped pb0 pb -> parses pb0 (parse_aprs_compressed cosf pb p e).
Proof. intros Hr. unfold parse_aprs_compressed. parses_auto. Qed.

Lemma uncompressed_parsed pb0 pb p e : retyped pb0 pb -> parses pb0 (parse_aprs_uncompressed cosf pb p e).
Proof. intros Hr. unfold parse_aprs_uncompressed. parses_auto. Qed.

Lemma mice_parsed pb0 pb p e : retyped pb0 pb -> parses pb0 (parse_aprs_mice cosf pb p e).
Proof. intros Hr. unfold parse_aprs_mice. parses_auto. Qed.

Lemma nmea_parsed pb0 pb p e : retyped pb0 pb -> parses pb0 (parse_aprs_nmea cosf pb p e).
Proof. intros Hr. unfold parse_aprs_nmea. parses_auto. Qed.

Hint Resolve compressed_parsed uncompressed_parsed mice_parsed nmea_parsed : aprs.

Lemma name_pos_parsed pb0 pb p e : retyped pb0 pb -> parses pb0 (parse_name_pos cosf pb p e).
Proof. intros Hr. unfold parse_name_pos. parses_auto. Qed.
Hint Resolve name_pos_parsed : aprs.

Lemma object_parsed pb0 pb p e : retyped pb0 pb -> parses pb0 (parse_aprs_object cosf pb p e).
Proof. intros Hr. unfold parse_aprs_object. parses_auto. Qed.

Lemma item_parsed pb0 pb p e : retyped pb0 pb -> parses pb0 (parse_aprs_item cosf pb p e).
Proof. intros Hr. unfold parse_aprs_item. parses_auto. Qed.

Lemma message_parsed pb0 pb p n : retyped pb0 pb -> parses pb0 (preparse_aprs_message pb p n).
Proof. intros Hr. unfold preparse_aprs_message. parses_auto; auto 10 with aprs. Qed.

Lemma fallback_parsed pb0 pb p e : retyped pb0 pb -> parses pb0 (parse_fallback cosf pb p e).
Proof. intros Hr. unfold parse_fallback. parses_auto. Qed.

Lemma position_parsed pb0 pb t p e : retyped pb0 pb -> parses pb0 (parse_position_packet cosf pb t p e).
Proof. intros Hr. unfold parse_position_packet. parses_auto. Qed.
Hint Resolve object_parsed item_parsed message_parsed fallback_parsed position_parsed : aprs.

Lemma thirdparty_retyped pb0 pb p pb' q :
  retyped pb0 pb -> parse_aprs_3rdparty pb p = Some (inr (pb', q)) -> retyped pb0 pb'.
Proof.
  intros Hr H. unfold parse_aprs_3rdparty in H. repeat (inv_bind H || case_match || split_if_in H);
    simplify_eq; eauto with aprs.
Qed.

Lemma field_parsed rec pb0 pb p :
  retyped pb0 pb -> (forall pb' q, retyped pb0 pb' -> parses pb0 (rec pb' q)) ->
  parses pb0 (parse_aprs_field cosf rec pb p).
Proof.
  intros Hr Hrec. unfold parse_aprs_field.
  parses_auto. eapply Hrec, thirdparty_retyped; [|eassumption]. auto with aprs.
Qed.

Lemma body_parsed fuel pb0 pb p : retyped pb0 pb -> parses pb0 (parse_aprs_body cosf fuel pb p).
Proof.
  revert pb p. induction fuel; intros; cbn [parse_aprs_body]; by apply field_parsed.
Qed.
End Changes.

Lemma parse_aprs_parsed cosf pb r : parse_aprs cosf pb = Some r -> parsed cosf pb r.
Proof.
  intros H. unfold parse_aprs in H. destruct (_ =? 0); [injection H as <-; apply retyped_parsed, retyped_refl|].
  inv_bind H. destruct x; eapply body_parsed; try exact H;
    repeat apply retyped_type; by repeat split.
Qed.

(** A third-party packet's inner field starts after its outer one. *)
Lemma thirdparty_inside pb p pb' q :
  parse_aprs_3rdparty pb p = Some (inr (pb', q)) -> p < q <= pb.(pb_packet_len).
Proof.
  intros H. unfold parse_aprs_3rdparty in H.
  apply bind_Some in H as (m & Hm & H). destruct m as [b|]; [|done].
  assert (p + 1 <= b < pb_packet_len pb - 2).
  { unfold memchr, memmem in Hm. apply bind_Some in Hm as (h & Hh & Hm). apply rd_range_Some in Hh as (?&?&?&->).
    injection Hm as Hm. apply fmap_Some in Hm as (k & Hk & ->).
    apply find_sub_Some in Hk as [(u & v & Hs & <-) _]. apply (f_equal zlen) in Hs.
    rewrite zlen_slice, !zlen_app in Hs by lia. change (zlen [58]) with 1 in Hs.
    pose proof (zlen_nonneg v). unfold zlen in *. lia. }
  repeat (inv_bind H || case_match || split_if_in H); simplify_eq; lia.
Qed.

(** * The names of a packet lie in its buffer *)

(** A recipient is named at the start of a message, or of one inside a third-party
    packet. *)
Definition inner (pb : pbuf_t) : Prop := rd pb.(pb_data) pb.(pb_info_start) = Some ch_rbrace.
Definition message_at (pb : pbuf_t) (d : Z) : Prop :=
  inner pb \/ d = pb.(pb_info_start) + 1 /\ rd pb.(pb_data) pb.(pb_info_start) = Some ch_colon.

(** The name a packet is about, its recipient, which every message has, and, for an
    object or an item, the ten bytes the position history takes the name from. *)
Record names_ok (pb : pbuf_t) : Prop := {
  nk_src : 0 <= pb.(pb_srcname) /\ 0 <= pb.(pb_srcname_len) <= CALLSIGNLEN_MAX /\
    pb.(pb_srcname) + pb.(pb_srcname_len) <= zlen pb.(pb_data);
  nk_own : pb.(pb_srcname) = 0 -> pb.(pb_srcname_len) = pb.(pb_srccall_end);
  nk_dst : match pb.(pb_dstname) with
           | Some d => 0 <= d /\ 0 <= pb.(pb_dstname_len) <= CALLSIGNLEN_MAX /\
               d + pb.(pb_dstname_len) <= zlen pb.(pb_data) /\ message_at pb d
           | None => pb.(pb_dstname_len) = 0
           end;
  nk_msg : has pb.(pb_packettype) T_MESSAGE = true -> exists d, pb.(pb_dstname) = Some d;
  nk_room : has pb.(pb_packettype) T_OBJECT || has pb.(pb_packettype) T_ITEM = true ->
    pb.(pb_info_start) + 11 <= zlen pb.(pb_data)
}.

(** A packet the input side has just filled in: its name is its source callsign. *)
Record packet_fresh (pb : pbuf_t) : Prop := {
  pf_type : pb.(pb_packettype) = 0;
  pf_dstname : pb.(pb_dstname) = None /\ pb.(pb_dstname_len) = 0;
  pf_srcname : pb.(pb_srcname) = 0;
  pf_srcname_len : pb.(pb_srcname_len) = pb.(pb_srccall_end);
  pf_srccall_end : pb.(pb_srccall_end) <= CALLSIGNLEN_MAX /\ pb.(pb_srccall_end) <= zlen pb.(pb_data)
}.

Section Names.
Context (cosf : spec_float -> spec_float).

Definition names (m : result) : Prop := forall r, m = Some r -> names_ok r.1.

Definition plain (m : Z) : Prop := has m T_OBJECT || has m T_ITEM || has m T_MESSAGE = false.

Lemma names_type m pb : plain m -> names_ok pb -> names_ok (add_type m pb).
Proof.
  intros Hm [Hs Ho Hd Hg Hr]. unfold plain in Hm. apply orb_false_iff in Hm as [[H1 H2]%orb_false_iff H3].
  split; try done; cbn; rewrite !has_lor, ?H1, ?H2, ?H3, !orb_false_r; done.
Qed.

Lemma has_ldiff t m k : has (Z.ldiff t m) k = true -> has t k = true.
Proof.
  unfold has. rewrite !negb_true_iff, !Z.eqb_neq. intros Hk Hz. apply Hk.
  apply Z.bits_inj'. intros j _. apply (f_equal (fun x => Z.testbit x j)) in Hz.
  rewrite Z.land_spec, Z.bits_0 in *. rewrite Z.ldiff_spec.
  by destruct (Z.testbit t j), (Z.testbit k j), (Z.testbit m j).
Qed.

Lemma names_clear m pb : names_ok pb -> names_ok (clear_type m pb).
Proof.
  intros [Hs Ho Hd Hg Hr]. split; try done; cbn.
  - intros H'. by apply Hg, (has_ldiff _ m).
  - intros H'. apply Hr. apply orb_true_iff in H' as [H'|H']; apply has_ldiff in H'; rewrite H'; by rewrite ?orb_true_r.
Qed.

(** An object or an item has its name in the information field. *)
Lemma names_room m pb :
  has m T_MESSAGE = false -> names_ok pb -> pb.(pb_info_start) + 11 <= zlen pb.(pb_data) -> names_ok (add_type m pb).
Proof. intros Hm [Hs Ho Hd Hg Hr] Hi. split; try done. cbn. by rewrite has_lor, Hm, orb_false_r. Qed.

Lemma names_src a n pb :
  names_ok pb -> 0 < a -> 0 <= n <= CALLSIGNLEN_MAX -> a + n <= zlen pb.(pb_data) ->
  names_ok (set_pb_srcname_len n (set_pb_srcname a pb)).
Proof. intros [Hs Ho Hd Hg Hr] Ha Hn Hl. split; cbn; try done; lia. Qed.

(** With a recipient a packet may be a message. *)
Lemma names_dst t a n pb :
  (has t T_OBJECT || has t T_ITEM = true -> has pb.(pb_packettype) T_OBJECT || has pb.(pb_packettype) T_ITEM = true) ->
  names_ok pb -> 0 <= a -> 0 <= n <= CALLSIGNLEN_MAX -> a + n <= zlen pb.(pb_data) -> message_at pb a ->
  names_ok (set_pb_dstname_len n (set_pb_dstname (Some a) (set_pb_packettype t pb))).
Proof. intros Ht [Hs Ho Hd Hg Hr] Ha Hn Hl Hat. split; cbn; try done; [by exists a|auto]. Qed.

Lemma names_fill pb lat lng t c : names_ok pb -> names_ok (pbuf_fill_pos cosf pb lat lng t c).1.
Proof.
  intros Hk. unfold pbuf_fill_pos. set (p1 := if _ : bool then add_type T_WX _ else _).
  assert (names_ok p1) as H1.
  { unfold p1. destruct (_ && _); [apply names_type; [done|]|]; by destruct Hk. }
  clearbody p1. destruct (pos_bad lat lng); [done|]. by destruct H1.
Qed.

Lemma names_Some r : names_ok r.1 -> names (Some r).
Proof. by intros H ? [= <-]. Qed.
Lemma names_bind {A} (m : option A) k : (forall x, m = Some x -> names (k x)) -> names (m ≫= k).
Proof. intros H r. destruct m as [x|]; [|done]. by apply H. Qed.

Ltac names_step :=
  first [ progress intros
        | match goal with |- names (mbind _ _) => apply names_bind end
        | match goal with |- names (if ?b then _ else _) => destruct b eqn:? end
        | match goal with |- names (Some _) => apply names_Some; cbn [fst] end
        | match goal with |- names_ok (add_type _ _) => apply names_type; [reflexivity|] end
        | match goal with |- names_ok (clear_type _ _) => apply names_clear end
        | match goal with |- names_ok (pbuf_fill_pos _ _ _ _ _ _).1 => apply names_fill end ].
Ltac names_auto := repeat (names_step || case_match); simplify_eq; try assumption.

Lemma compressed_names pb p e : names_ok pb -> names (parse_aprs_compressed cosf pb p e).
Proof. intros Hk. unfold parse_aprs_compressed. names_auto. Qed.
Lemma uncompressed_names pb p e : names_ok pb -> names (parse_aprs_uncompressed cosf pb p e).
Proof. intros Hk. unfold parse_aprs_uncompressed. names_auto. Qed.
Lemma mice_names pb p e : names_ok pb -> names (parse_aprs_mice cosf pb p e).
Proof. intros Hk. unfold parse_aprs_mice. names_auto. Qed.
Lemma nmea_names pb p e : names_ok pb -> names (parse_aprs_nmea cosf pb p e).
Proof. intros Hk. unfold parse_aprs_nmea. names_auto. Qed.
Hint Resolve compressed_names uncompressed_names mice_names nmea_names : aprs.

Lemma name_pos_names pb p e : names_ok pb -> names (parse_name_pos cosf pb p e).
Proof. intros Hk. unfold parse_name_pos. names_auto; auto with aprs. Qed.
Lemma fallback_names pb p e : names_ok pb -> names (parse_fallback cosf pb p e).
Proof. intros Hk. unfold parse_fallback. names_auto; auto with aprs. Qed.
Lemma position_names pb t p e : names_ok pb -> names (parse_position_packet cosf pb t p e).
Proof.
  intros Hk. unfold parse_position_packet.
  assert (names_ok (add_type T_POSITION pb)) by by apply names_type. names_auto; auto with aprs.
Qed.

Lemma last_nonspace_le s i acc : acc <= i + zlen s - 1 -> last_nonspace s i acc <= i + zlen s - 1.
Proof.
  revert i acc. induction s as [|c s IH]; intros i acc Ha; cbn [last_nonspace]; [done|].
  rewrite zlen_cons in *. pose proof (zlen_nonneg s).
  replace (i + (1 + zlen s) - 1) with (i + 1 + zlen s - 1) by lia. apply IH. destruct (c =? 32); lia.
Qed.

Lemma object_names pb p e :
  names_ok pb -> 0 < p -> pb.(pb_info_start) < p -> e - p > 29 -> e <= zlen pb.(pb_data) ->
  names (parse_aprs_object cosf pb p e).
Proof.
  intros Hk Hp Hi He Hl. unfold parse_aprs_object.
  assert (names_ok (add_type T_OBJECT pb)) as Ho by (apply names_room; [done|done|lia]).
  repeat names_step; try assumption.
  pose proof (last_nonspace_le x1 0 (-1)). rename select (rd_range _ p 9 = Some x1) into Hx.
  apply rd_range_Some in Hx as (?&?&?&->). rewrite zlen_slice in * by (cbn; lia).
  change (pb_data (add_type T_OBJECT pb)) with (pb_data pb) in *.
  apply name_pos_names, names_src; cbn -[last_nonspace slice]; try done; unfold CALLSIGNLEN_MAX; lia.
Qed.

Lemma item_names pb p e :
  names_ok pb -> 0 < p -> pb.(pb_info_start) < p -> e - p > 18 -> e <= zlen pb.(pb_data) ->
  names (parse_aprs_item cosf pb p e).
Proof.
  intros Hk Hp Hi He Hl. unfold parse_aprs_item.
  assert (names_ok (add_type T_ITEM pb)) as Ho by (apply names_room; [done|done|lia]).
  apply names_bind. intros [i|] _; [|by apply names_Some]. apply names_bind. intros c _.
  repeat names_step; try assumption. apply name_pos_names, names_src; cbn; try done; unfold CALLSIGNLEN_MAX; lia.
Qed.

Lemma message_names pb p n :
  names_ok pb -> message_at pb p -> names (preparse_aprs_message (add_type T_MESSAGE pb) p n).
Proof.
  intros Hk Hat. unfold preparse_aprs_message. cbn [pb_data add_type set_pb_packettype].
  do 3 (apply names_bind; intros ? _). apply names_bind; intros tel _.
  apply names_bind; intros e He. apply names_bind; intros dst Hd. apply rd_range_Some in Hd as (?&?&?&_).
  apply scan_spec in He as (He & _); [|unfold CALLSIGNLEN_MAX; lia].
  set (p2 := if tel : bool then _ else _).
  assert (exists t, p2 = set_pb_packettype t pb /\
            (has t T_OBJECT || has t T_ITEM = true ->
             has pb.(pb_packettype) T_OBJECT || has pb.(pb_packettype) T_ITEM = true)) as (t & -> & Ht).
  { unfold p2. destruct (_ || _), tel; eexists; (split; [reflexivity|]); rewrite ?has_lor, ?orb_false_r;
      cbn -[has Z.ldiff]; intros H'; apply orb_true_iff in H' as [H'|H']; rewrite ?has_lor, ?orb_false_r in H';
      try apply has_ldiff in H'; rewrite ?has_lor, ?orb_false_r in H'; rewrite H'; by rewrite ?orb_true_r. }
  assert (names_ok (set_pb_dstname_len (e - p) (set_pb_dstname (Some p) (set_pb_packettype t pb)))) as Hdst
    by (apply names_dst; try done; lia).
  destruct (negb _); by apply names_Some.
Qed.

Lemma thirdparty_names pb p pb' q :
  names_ok pb -> 0 <= p -> parse_aprs_3rdparty pb p = Some (inr (pb', q)) -> names_ok pb'.
Proof.
  intros Hk Hp H. unfold parse_aprs_3rdparty in H.
  inv_bind H. destruct x as [b|]; [|done]. inv_bind H. destruct x as [se|]; [|done].
  rename select (memchr _ _ _ ch_gt = _) into Hm. apply memchr_Some in Hm as (_ & Hm & _).
  split_if_in H; [done|]. inv_bind H. rename select (rd_range _ _ (se - _) = _) into Hs.
  repeat (split_if_in H || inv_bind H); try done. injection H as <- <-.
  apply rd_range_Some in Hs as (?&?&?&_). destruct (_ <? _) eqn:El in Hm; apply names_src; (done || lia).
Qed.

Lemma field_names rec pb p :
  names_ok pb -> 0 <= pb.(pb_info_start) <= p -> pb.(pb_packet_len) <= zlen pb.(pb_data) ->
  inner pb \/ p = pb.(pb_info_start) ->
  (forall pb' q, names_ok pb' -> header pb' = header pb -> p < q -> inner pb' -> names (rec pb' q)) ->
  names (parse_aprs_field cosf rec pb p).
Proof.
  intros Hk Hi Hl Hat Hrec. unfold parse_aprs_field.
  repeat match goal with
  | |- names (if ?b then _ else _) => destruct b eqn:?
  | |- names (rd _ _ ≫= _) => apply names_bind; intros ? ?
  | |- names (Some _) => apply names_Some
  | |- names_ok (add_type _ _, _).1 => apply names_type; [reflexivity|]
  end; try assumption.
  - apply mice_names. by apply names_type.
  - by apply position_names.
  - by apply position_names.
  - by apply nmea_names.
  - apply message_names; [done|]. destruct Hat as [?| ->]; [by left|right]. split; [done|].
    assert (x = ch_colon) as -> by lia. done.
  - apply object_names; try done; lia.
  - apply item_names; try done; lia.
  - apply names_bind. intros [rc|[pb' q]] E; [by apply names_Some, names_type|].
    assert (names_ok (add_type T_3RDPARTY pb)) as H3 by by apply names_type.
    apply thirdparty_inside in E as Hq. assert (header pb' = header pb) as Hh
      by by destruct (thirdparty_retyped (add_type T_3RDPARTY pb) _ _ _ _ (retyped_refl _) E).
    apply Hrec; [eapply thirdparty_names; [exact H3| |exact E]; lia|done|lia|].
    unfold inner. injection Hh as _ _ _ _ _ _ _ _ _ _ _ _ _ _ -> _ ->. destruct Hat as [?| ->]; [done|].
    assert (x = ch_rbrace) as -> by lia. done.
  - apply names_bind. intros dx _. destruct dx; [by apply names_Some|by apply fallback_names].
Qed.

Lemma body_names fuel pb p :
  names_ok pb -> 0 <= pb.(pb_info_start) <= p -> pb.(pb_packet_len) <= zlen pb.(pb_data) ->
  inner pb \/ p = pb.(pb_info_start) ->
  names (parse_aprs_body cosf fuel pb p).
Proof.
  revert pb p. induction fuel as [|fuel IH]; intros pb p Hk Hi Hl Hat; cbn [parse_aprs_body]; apply field_names; try done.
  intros pb' q Hk' Hh Hq Hin. injection Hh. intros. apply IH; [done|lia|congruence|by left].
Qed.

(** Whatever a packet of the input side holds, the names found in it lie in the
    buffer. *)
Lemma parse_aprs_names pb r :
  packet_ok pb -> packet_fresh pb -> parse_aprs cosf pb = Some r -> names_ok r.1.
Proof.
  intros Hok [Ht [Hd Hdl] Hs Hsl [Hsx Hsz]] H. pose proof (buffer_len pb Hok) as Hb. destruct Hok as [Hi _ _ _ [Hp0 _]].
  unfold parse_aprs in H. destruct (_ =? 0) eqn:E0; [lia|]. inv_bind H.
  assert (forall m, plain m -> names_ok (set_pb_packettype m pb)) as Hbase.
  { intros m Hm. unfold plain in Hm. apply orb_false_iff in Hm as [Hm1 Hm2].
    split; cbn; rewrite ?Hd, ?Hm1, ?Hm2; try done; try lia. }
  destruct x; (eapply body_names; [| | | |exact H]; [apply Hbase; reflexivity || (apply names_type; [reflexivity|apply Hbase; reflexivity])|cbn; lia|cbn; lia|by right]).
Qed.
End Names.

(** C36: The parser never reads outside the packet buffer and always returns: for
    every packet with a non-empty information field that is not a third-party
    packet, whatever its bytes, [parse_aprs] gives a packet and a return code, and
    the names it found in the packet lie in the buffer. *)
Theorem parse_aprs_total cosf pb :
  packet_ok pb -> packet_fresh pb -> rd pb.(pb_data) pb.(pb_info_start) <> Some ch_rbrace ->
  exists pb' rc, parse_aprs cosf pb = Some (pb', rc) /\ names_ok pb'.
Proof.
  intros Hok Hf Hnb. destruct (parse_aprs_in cosf pb Hok Hnb) as (pb' & rc & H).
  exists pb', rc. split; [done|]. by apply (parse_aprs_names cosf pb (pb', rc)).
Qed.

(** Parsing changes the type bits, the names and the symbol of a packet, and
    stores a position only when it is an acceptable one: either [F_HASPOS] and the
    coordinates are untouched, or [F_HASPOS] is set, the return code is 1 and the
    coordinates are the radians of a latitude and longitude that are not refused. *)
Theorem parse_aprs_changes cosf pb r : parse_aprs cosf pb = Some r -> parsed cosf pb r.
Proof. apply parse_aprs_parsed. Qed.

(** * Depth of the recursion *)

Lemma if_ext {A} (b : bool) (x y y' : A) : y = y' -> (if b then x else y) = (if b then x else y').
Proof. by intros ->. Qed.
Lemma bind_ext {A B} (m : option A) (k k' : A -> option B) : (forall x, m = Some x -> k x = k' x) -> m ≫= k = m ≫= k'.
Proof. intros H. destruct m; [|done]. by apply H. Qed.

(** [parse_aprs_field] asks for the inner packet only after the outer one. *)
Lemma field_ext cosf rec1 rec2 pb p :
  (forall pb' q, pb'.(pb_packet_len) = pb.(pb_packet_len) -> p < q <= pb.(pb_packet_len) ->
     rec1 pb' q = rec2 pb' q) ->
  parse_aprs_field cosf rec1 pb p = parse_aprs_field cosf rec2 pb p.
Proof.
  intros Hr. unfold parse_aprs_field. apply if_ext, bind_ext. intros c _. repeat apply if_ext.
  match goal with |- (if ?b then _ else _) = _ => destruct b; [|reflexivity] end.
  apply bind_ext. intros [rc|[pb' q]] E; [reflexivity|].
  apply Hr; [|by apply thirdparty_inside in E].
  by destruct (thirdparty_retyped (add_type T_3RDPARTY pb) _ _ _ _ (retyped_refl _) E) as [[=]].
Qed.


(** * Positions read back *)

(** A position as a station formats it: [ddmm.hhN/dddmm.hhW-] *)
Definition print_position (lat_deg lat_min lat_frag lat_hemi sym_table
                           lng_deg lng_min lng_frag lng_hemi sym_code : Z) : list Z :=
  print_u 2 lat_deg ++ print_u 2 lat_min ++ [46] ++ print_u 2 lat_frag ++ [lat_hemi; sym_table] ++
  print_u 3 lng_deg ++ print_u 2 lng_min ++ [46] ++ print_u 2 lng_frag ++ [lng_hemi; sym_code].

(** Four base-91 digits of a number. *)
Definition print91 (v : Z) : list Z :=
  [33 + v / 91 / 91 / 91; 33 + v / 91 / 91 mod 91; 33 + v / 91 mod 91; 33 + v mod 91].

Lemma digit_printable c : exists d, 48 <= d <= 57 /\ 48 + c mod 10 = d.
Proof. exists (48 + c mod 10). pose proof (Z.mod_pos_bound c 10). lia. Qed.

Lemma cstr_nonzero s : Forall (fun c => c <> 0) s -> cstr s = s.
Proof. induction 1 as [|c s Hc _ IH]; cbn; [done|]. destruct (Z.eqb_spec c 0); [done|]. by rewrite IH. Qed.

Lemma fill_space_other i v l : l !! i <> Some ch_sp -> fill_space i v l = l.
Proof. intros H. unfold fill_space. by rewrite bool_decide_eq_false_2. Qed.

Section Positions.
Variables (a1 a2 a3 ah t o1 o2 o3 oh c : Z).
Abbreviation text := (print_position a1 a2 a3 ah t o1 o2 o3 oh c).

Hypothesis Ha1 : 0 <= a1 <= 89.
Hypothesis Ha2 : 0 <= a2 < 100.
Hypothesis Ha3 : 0 <= a3 < 100.
Hypothesis Ho1 : 0 <= o1 <= 179.
Hypothesis Ho2 : 0 <= o2 < 100.
Hypothesis Ho3 : 0 <= o3 < 100.
Hypothesis Hah : is_char 78 110 ah || is_char 83 115 ah = true.
Hypothesis Hoh : is_char 69 101 oh || is_char 87 119 oh = true.
Hypothesis Ht : t <> 0.
Hypothesis Hc : c <> 0.

Lemma scan_position_print : scan_position text = Some (a1, a2, a3, ah, t, o1, o2, o3, oh, c).
Proof.
  unfold scan_position, print_position.
  do 2 (rewrite scan_u_print by lia; cbn [mbind option_bind]). cbn [app scan_lit Z.eqb Pos.eqb].
  cbn [mbind option_bind]. rewrite scan_u_print by lia. cbn [mbind option_bind scan_c app].
  do 2 (rewrite scan_u_print by lia; cbn [mbind option_bind]). cbn [app scan_lit Z.eqb Pos.eqb].
  cbn [mbind option_bind]. rewrite scan_u_print by lia. done.
Qed.

Lemma hemi_nonzero p q r x h : is_char p q h || is_char r x h = true ->
  0 < p -> 0 < q -> 0 < r -> 0 < x -> h <> 0.
Proof. unfold is_char. lia. Qed.

(** The digits are no spaces and nothing in the text is a NUL. *)
Lemma text_kept : cstr (unambiguous text) = text.
Proof.
  assert (ah <> 0 /\ oh <> 0) as [? ?]
    by (split; [by eapply (hemi_nonzero 78 110 83 115)|by eapply (hemi_nonzero 69 101 87 119)]).
  unfold print_position. cbn [print_u app].
  repeat match goal with |- context [48 + ?x mod 10] =>
    let d := fresh "d" in destruct (digit_printable x) as (d & ? & ->) end.
  replace (unambiguous _) with [d; d0; d1; d2; 46; d3; d4; ah; t; d5; d6; d7; d8; d9; 46; d10; d11; oh; c].
  - apply cstr_nonzero. repeat constructor; lia.
  - unfold unambiguous.
    rewrite (fill_space_other 2), (fill_space_other 3), (fill_space_other 5), (fill_space_other 6),
      (fill_space_other 12), (fill_space_other 13), (fill_space_other 15), (fill_space_other 16);
      [reflexivity|cbn [lookup list_lookup]; congruence || (intros [= ?]; lia)..].
Qed.

(** The coordinates the text stands for. *)
Definition printed_lat : spec_float :=
  let x := to_f32 (dmm a1 a2 a3) in
  if is_char 83 115 ah then to_f32 (f64_sub (f64_of_Z 0) (to_f64 x)) else x.
Definition printed_lng : spec_float :=
  let x := to_f32 (dmm o1 o2 o3) in
  if is_char 87 119 oh then to_f32 (f64_sub (f64_of_Z 0) (to_f64 x)) else x.

Lemma uncompressed_text cosf pb pre post e :
  pb.(pb_data) = pre ++ text ++ post -> zlen pre + 19 <= e ->
  parse_aprs_uncompressed cosf pb (zlen pre) e =
  Some (pbuf_fill_pos cosf pb printed_lat printed_lng (if valid_sym_table_uncompressed t then t else 0) c).
Proof.
  intros Hd He. unfold parse_aprs_uncompressed.
  destruct (Z.ltb_spec (e - zlen pre) 19); [lia|]. rewrite Hd.
  change 19 with (zlen text). rewrite rd_range_mid. cbn [mbind option_bind].
  rewrite text_kept, scan_position_print. unfold printed_lat, printed_lng.
  assert (is_char 83 115 ah = true \/ is_char 78 110 ah = true) as Hl by (apply orb_true_iff in Hah; tauto).
  assert (is_char 87 119 oh = true \/ is_char 69 101 oh = true) as Hg by (apply orb_true_iff in Hoh; tauto).
  assert ((a1 >? 89) || (o1 >? 179) = false) as -> by lia.
  destruct (is_char 83 115 ah), (is_char 78 110 ah), (is_char 87 119 oh), (is_char 69 101 oh);
    cbn [negb andb]; (reflexivity || (exfalso; intuition congruence)).
Qed.
End Positions.

(** A position packet: [!] or [=], then a text that starts with [x], not a [!]. *)
Lemma position_text cosf fuel pb pre ty x post :
  pb.(pb_data) = pre ++ [ty] ++ x :: post -> pb.(pb_info_start) = zlen pre ->
  ty = 33 \/ ty = 61 -> x <> 33 -> zlen pre + 11 <= pb.(pb_packet_len) - 2 ->
  parse_aprs_body cosf fuel pb (zlen pre) =
  let pb1 := add_type T_POSITION pb in
  let e := pb.(pb_packet_len) - 2 in
  if valid_sym_table_compressed x then
    if e - (zlen pre + 1) >=? 13 then parse_aprs_compressed cosf pb1 (zlen pre + 1) e else Some (pb1, 0)
  else if isdigit x then
    if e - (zlen pre + 1) >=? 19 then parse_aprs_uncompressed cosf pb1 (zlen pre + 1) e else Some (pb1, 0)
  else Some (pb1, 0).
Proof.
  intros Hd Hi Hty Hx Hl.
  assert (parse_aprs_body cosf fuel = parse_aprs_field cosf
    match fuel with O => fun _ _ => None | S f => parse_aprs_body cosf f end) as -> by by destruct fuel.
  assert (rd (pb_data pb) (zlen pre) = Some ty) as Hr0 by (rewrite Hd; apply rd_mid).
  assert (rd (pb_data pb) (zlen pre + 1) = Some x) as Hr1.
  { rewrite Hd, app_assoc. change 1 with (zlen [ty]). rewrite <- zlen_app. apply rd_mid. }
  unfold parse_aprs_field. rewrite Hi, Hr0. destruct (Z.ltb_spec (pb_packet_len pb - zlen pre - 2) 1); [lia|].
  cbn [mbind option_bind].
  transitivity (parse_position_packet cosf pb ty (zlen pre + 1) (pb_packet_len pb - 2)).
  - destruct Hty as [-> | ->]; cbn [orb Z.eqb Pos.eqb]; [|done].
    rewrite Hr1. cbn [mbind option_bind]. by destruct (Z.eqb_spec x 33).
  - unfold parse_position_packet. destruct (Z.ltb_spec (pb_packet_len pb - 2 - (zlen pre + 1)) 10); [lia|].
    change (pb_data (add_type T_POSITION pb)) with (pb_data pb).
    destruct Hty as [-> | ->]; cbn [orb Z.eqb Pos.eqb]; by rewrite Hr1.
Qed.

(** A position printed as [ddmm.hhN/dddmm.hhW-] in a position packet is read
    back: the packet becomes a position packet with the coordinates and the symbol
    of the text, whatever comes before and after it. *)
Theorem uncompressed_roundtrip cosf fuel pb pre ty post a1 a2 a3 ah t o1 o2 o3 oh c :
  let text := print_position a1 a2 a3 ah t o1 o2 o3 oh c in
  pb.(pb_data) = pre ++ [ty] ++ text ++ post -> pb.(pb_info_start) = zlen pre -> ty = 33 \/ ty = 61 ->
  zlen pre + 20 <= pb.(pb_packet_len) - 2 ->
  0 <= a1 <= 89 -> 0 <= a2 < 100 -> 0 <= a3 < 100 ->
  0 <= o1 <= 179 -> 0 <= o2 < 100 -> 0 <= o3 < 100 ->
  is_char 78 110 ah || is_char 83 115 ah = true -> is_char 69 101 oh || is_char 87 119 oh = true ->
  valid_sym_table_uncompressed t = true -> c <> 0 ->
  parse_aprs_body cosf fuel pb pb.(pb_info_start) =
  Some (pbuf_fill_pos cosf (add_type T_POSITION pb) (printed_lat a1 a2 a3 ah) (printed_lng o1 o2 o3 oh) t c).
Proof.
  intros text Hd Hi Hty Hl Ha1 Ha2 Ha3 Ho1 Ho2 Ho3 Hah Hoh Ht Hc. rewrite Hi.
  assert (exists d w, text = d :: w /\ 48 <= d <= 57) as (d & w & Htx & Hdg).
  { unfold text, print_position. cbn [print_u app].
    destruct (digit_printable (a1 / 10)) as (d & ? & ->). eauto. }
  erewrite (position_text cosf fuel pb pre ty d); [|by rewrite Hd, Htx|done|done|lia|lia].
  cbv zeta. assert (valid_sym_table_compressed d = false) as ->
    by (unfold valid_sym_table_compressed, in_range; lia).
  assert (isdigit d = true) as -> by (unfold isdigit; lia).
  destruct (_ >=? 19) eqn:E; [|lia].
  replace (zlen pre + 1) with (zlen (pre ++ [ty])) by (rewrite zlen_app; done).
  rewrite (uncompressed_text a1 a2 a3 ah t o1 o2 o3 oh c) with (post := post); try done.
  - by rewrite Ht.
  - intros ->. done.
  - cbn. by rewrite Hd, <- app_assoc.
  - rewrite zlen_app. change (zlen [ty]) with 1. lia.
Qed.

(** Base-91 digits lie in the range the parser accepts and give the number back. *)
Lemma print91_in v : 0 <= v < 91 ^ 4 -> forallb (in_range 33 123) (print91 v) = true.
Proof.
  intros Hv. change (91 ^ 4) with 68574961 in Hv. unfold print91, in_range. cbn [forallb].
  rewrite !andb_true_iff, !Z.leb_le. repeat split; Z.to_euclidean_division_equations; lia.
Qed.

Lemma base91_print v : 0 <= v ->
  base91 (33 + v / 91 / 91 / 91) (33 + v / 91 / 91 mod 91) (33 + v / 91 mod 91) (33 + v mod 91) = v.
Proof. intros Hv. unfold base91. Z.to_euclidean_division_equations; lia. Qed.

(** A compressed position is read back: the base-91 digits of any latitude and
    longitude value in a position packet give those values. *)
Theorem compressed_roundtrip cosf fuel pb pre ty t vlat vlng c post :
  pb.(pb_data) = pre ++ [ty] ++ t :: print91 vlat ++ print91 vlng ++ c :: post ->
  pb.(pb_info_start) = zlen pre -> ty = 33 \/ ty = 61 -> zlen pre + 14 <= pb.(pb_packet_len) - 2 ->
  valid_sym_table_compressed t = true -> 0 <= vlat < 91 ^ 4 -> 0 <= vlng < 91 ^ 4 ->
  parse_aprs_body cosf fuel pb pb.(pb_info_start) =
  Some (pbuf_fill_pos cosf (add_type T_POSITION pb) (compressed_lat vlat) (compressed_lng vlng) t c).
Proof.
  intros Hd Hi Hty Hl Ht Hlat Hlng. rewrite Hi.
  erewrite (position_text cosf fuel pb pre ty t); [|by rewrite Hd|done|done| |lia].
  2:{ intros ->. done. }
  cbv zeta. rewrite Ht. destruct (_ >=? 13) eqn:E; [|lia].
  replace (zlen pre + 1) with (zlen (pre ++ [ty])) by (rewrite zlen_app; done).
  unfold parse_aprs_compressed. rewrite zlen_app. change (zlen [ty]) with 1.
  destruct (Z.ltb_spec (pb_packet_len pb - 2 - (zlen pre + 1)) 13); [lia|].
  change (pb_data (add_type T_POSITION pb)) with (pb_data pb).
  replace (pb_data pb) with ((pre ++ [ty]) ++ (t :: print91 vlat ++ print91 vlng ++ [c]) ++ post)
    by (rewrite Hd; unfold print91; by rewrite <- !app_assoc).
  change 1 with (zlen [ty]). rewrite <- zlen_app. change 10 with (zlen (t :: print91 vlat ++ print91 vlng ++ [c])).
  rewrite rd_range_mid. cbn [mbind option_bind].
  pose proof (print91_in vlat Hlat) as H1. pose proof (print91_in vlng Hlng) as H2.
  unfold print91 in *. cbn [app].
  assert (forall a b c d e f g h, forallb (in_range 33 123) [a; b; c; d] = true ->
    forallb (in_range 33 123) [e; f; g; h] = true ->
    forallb (in_range 33 123) [a; b; c; d; e; f; g; h] = true) as Hj.
  { intros. change [a; b; c0; d; e; f; g; h] with ([a; b; c0; d] ++ [e; f; g; h]). rewrite forallb_app. by rewrite H0, H3. }
  rewrite (Hj _ _ _ _ _ _ _ _ H1 H2). cbn [negb]. by rewrite !base91_print by lia.
Qed.

(** * What the code does not do *)

(** The search for a position after an exclamation mark hands the parsers the
    mark itself instead of the character after it: it never finds one. *)
Theorem parse_fallback_never cosf pb body e r : parse_fallback cosf pb body e = Some r -> r = (pb, 0).
Proof.
  unfold parse_fallback, memchr, memmem. intros H. apply bind_Some in H as (m & Hm & H).
  destruct m as [q|]; [|by simplify_eq]. apply bind_Some in Hm as (h & Hh & Hm).
  injection Hm as Hm. apply fmap_Some in Hm as (k & Hk & ->). apply rd_range_Some in Hh as (?&?&?&->).
  apply find_sub_Some in Hk as [(u & v & Hs & <-) _].
  assert (rd (pb_data pb) (body + zlen u) = Some 33) as Hr.
  { pose proof (zlen_nonneg u). pose proof (zlen_nonneg v). pose proof (f_equal zlen Hs) as Hl.
    rewrite zlen_slice, !zlen_app in Hl by lia. change (zlen [33]) with 1 in Hl.
    rewrite <- (rd_slice _ _ (e - body)), Hs by lia. apply rd_mid. }
  fold (zlen u) in H. rewrite Hr in H. cbn [mbind option_bind] in H.
  destruct (_ <=? 39); cbn in H; by simplify_eq.
Qed.

(** ** Instances *)

(** A packet of the input side, with the NUL and a few unused bytes after it. *)
Definition demo_packet (info : string) : pbuf_t :=
  let pb := demo_pbuf "N0CALL" info in
  mk_pbuf 1 0 0 0 0 F_FROM_DOWNSTR 6 4 0 0 0 1000 pb.(pb_packet_len) 300 6 11 11 19 30
    0 None (S754_zero false) (S754_zero false) (S754_zero false) (0, 0) false (pb.(pb_data) ++ repeat 0 16).

(** A constant in place of the library's cosine. *)
Definition demo_cos (x : spec_float) : spec_float := f32_of_Z 1.

Lemma demo_packet_ok : packet_ok (demo_packet "!6028.51N/02505.68E#PHG").
Proof. split; vm_compute; try reflexivity; split; discriminate. Qed.

Lemma parse_aprs_total_witness :
  exists pb' rc, parse_aprs demo_cos (demo_packet "!6028.51N/02505.68E#PHG") = Some (pb', rc) /\ names_ok pb'.
Proof.
  apply parse_aprs_total; [exact demo_packet_ok| |vm_compute; discriminate].
  split; try reflexivity; [by split|]. split; vm_compute; discriminate.
Defined.

Lemma parse_aprs_changes_witness :
  exists r, r.2 = 1 /\ has r.1.(pb_flags) F_HASPOS = true /\
    parsed demo_cos (demo_packet "!6028.51N/02505.68E#PHG") r.
Proof.
  set (p := demo_packet _). exists (default (p, 0) (parse_aprs demo_cos p)).
  split; [vm_compute; reflexivity|]. split; [vm_compute; reflexivity|].
  apply parse_aprs_changes. vm_compute. reflexivity.
Defined.


Lemma uncompressed_roundtrip_witness :
  let p := demo_packet "!6028.51N/02505.68E#PHG" in
  parse_aprs_body demo_cos 0 p p.(pb_info_start) =
  Some (pbuf_fill_pos demo_cos (add_type T_POSITION p) (printed_lat 60 28 51 78) (printed_lng 25 5 68 69) 47 35).
Proof.
  apply (uncompressed_roundtrip demo_cos 0 (demo_packet "!6028.51N/02505.68E#PHG")
           (take 30 (demo_packet "!").(pb_data)) 33 (str "PHG" ++ [13; 10] ++ repeat 0 16));
    try (vm_compute; reflexivity); try lia; vm_compute; discriminate.
Defined.

Lemma compressed_roundtrip_witness :
  let p := demo_packet "!/5L!!<*e7>7P[" in
  parse_aprs_body demo_cos 0 p p.(pb_info_start) =
  Some (pbuf_fill_pos demo_cos (add_type T_POSITION p) (compressed_lat 15427503) (compressed_lng 20427156) 47 62).
Proof.
  apply (compressed_roundtrip demo_cos 0 (demo_packet "!/5L!!<*e7>7P[")
           (take 30 (demo_packet "!").(pb_data)) 33 47 15427503 20427156 62 (str "7P[" ++ [13; 10] ++ repeat 0 16));
    try (vm_compute; reflexivity); try lia; vm_compute; discriminate.
Defined.

(** A third-party packet with an empty inner field makes the parser search -1
    bytes, an unbounded read past the packet. *)
Example thirdparty_empty_undefined :
  parse_aprs demo_cos (demo_packet "}N0CALL>APRS,TCPIP,N0CALL*:") = None.
Proof. vm_compute. reflexivity. Qed.

(** A position that is not a number passes the range checks and is stored. *)
Example nan_position_stored :
  match parse_aprs demo_cos (demo_packet "$GPGLL,60nan,N,025nan,E,1") with
  | Some (pb, rc) => rc = 1 /\ has pb.(pb_flags) F_HASPOS = true /\ pb.(pb_lat) = S754_nan
  | None => False
  end.
Proof. vm_compute. done. Qed.

(** The message text is reported 11 bytes longer than it is: with a text of two
    bytes the acknowledgement test already looks past it. *)
Example message_length_long :
  parse_aprs_message (add_type T_MESSAGE (demo_packet ":N1CALL   :hi")) =
  Some (0, mk_message 41 13 None 0 false).
Proof. vm_compute. reflexivity. Qed.

(** A brace that an earlier packet left in the buffer is taken for the separator of
    a message identifier behind the packet, whose length then is negative. *)
Example message_stale_brace :
  let pb := add_type T_MESSAGE (demo_packet ":N1CALL   :hi") in
  parse_aprs_message (set_pb_data (<[49%nat := ch_lbrace]> pb.(pb_data)) pb) =
  Some (0, mk_message 41 8 (Some 50) (-7) false).
Proof. vm_compute. reflexivity. Qed.

(** When the packet nearly fills its buffer, the search for the separator starts
    outside of it. *)
Example message_search_undefined :
  let pb := add_type T_MESSAGE (demo_packet ":N1CALL   :hi") in
  parse_aprs_message (set_pb_data (take 46 pb.(pb_data)) pb) = None.
Proof. vm_compute. reflexivity. Qed.
