(* ===== verification/Clientlist.v ===== *)
(** * clientlist.c: the directory of logged-in clients

    A hash table of the sessions on the server, shared by the worker threads.
    It answers one question, whether a callsign is logged in here with a valid
    passcode, which the Q construct algorithm and the input check ask about
    every packet.  The table is shown to implement the plain list of sessions,
    newest first; a snapshot of it is an instance of [ClientDirectory]. *)

From S2P Require Import Prelude Table Keyhash Types ParseQc.
From Stdlib Require Import ZArith Lia Bool String.
From stdpp Require Import base tactics list gmap numbers.
Open Scope Z_scope.

Definition CLIENTLIST_BUCKETS : Z := 512.

(** [struct clientlist_t]; [username] is the whole 16 byte array. *)
Record clientlist_t := mk_clientlist {
  cl_username : list Z;
  cl_username_len : Z;
  cl_validated : Z;
  cl_fd : Z;
  cl_hash : Z;
  cl_client_id : Z
}.

Definition clientlist_table := gmap Z (list clientlist_t).

(** The bucket of a hash value. *)
Definition clientlist_index (hash : Z) : Z :=
  let idx := Z.lxor hash (Z.shiftr hash 16) in
  let idx := Z.lxor idx (Z.shiftr idx 8) in
  idx mod CLIENTLIST_BUCKETS.

(** [strncpy(cl->username, name, 16); cl->username[15] = 0;] *)
Definition strncpy16 (name : list Z) : list Z :=
  <[15%nat := 0]> (take 16 (cstr name ++ repeat 0 16)).

(** [memcmp(a, b, len) == 0].  The comparison ends at the first difference: an
    array that holds a NUL differs from a longer name within its bounds. *)
Definition memcmp_eq (a b : list Z) (len : Z) : bool :=
  beq (take (Z.to_nat len) a) (take (Z.to_nat len) b).

Definition clientlist_find_id (t : clientlist_table) (username : list Z) (id : Z)
    : option clientlist_t :=
  let i := clientlist_index (keyhash username 0) in
  List.find (fun cl => cl.(cl_client_id) =? id) (bucket t i).

Definition check_if_validated_client (t : clientlist_table) (username : list Z) : Z :=
  let len := zlen username in
  let hash := keyhash username 0 in
  let i := clientlist_index hash in
  match List.find (fun cl => (cl.(cl_hash) =? hash) && memcmp_eq username cl.(cl_username) len
                        && (cl.(cl_username_len) =? len) && negb (cl.(cl_validated) =? 0))
             (bucket t i) with
  | Some cl => cl.(cl_fd)
  | None => -1
  end.

(** [clientlist_add]: the new table and the file descriptor of a verified
    session that was there under the same name, -1 when there was none. *)
Definition clientlist_add (t : clientlist_table) (c : client_t) : clientlist_table * Z :=
  let name := take (Z.to_nat c.(c_username_len)) c.(c_username) in
  let hash := keyhash name 0 in
  let i := clientlist_index hash in
  let cl := mk_clientlist (strncpy16 c.(c_username)) c.(c_username_len) c.(c_validated)
              c.(c_fd) hash c.(c_id) in
  let old_fd := check_if_validated_client t name in
  (set_bucket t i (cl :: bucket t i), old_fd).

Definition clientlist_remove (t : clientlist_table) (c : client_t) : clientlist_table :=
  let name := take (Z.to_nat c.(c_username_len)) c.(c_username) in
  let i := clientlist_index (keyhash name 0) in
  match clientlist_find_id t name c.(c_id) with
  | Some _ => set_bucket t i (unlink (fun cl => cl.(cl_client_id) =? c.(c_id)) (bucket t i))
  | None => t
  end.

(** A snapshot of the table answers the queries of the Q construct code. *)
#[export] Instance clientlist_directory (t : clientlist_table) : ClientDirectory :=
  {| clientlist_check_if_validated_client := check_if_validated_client t |}.

(** ** Specification: the list of sessions, newest first *)

Inductive session_op : Type :=
  | Login (c : client_t)
  | Logout (c : client_t).

Definition session_step (l : list client_t) (op : session_op) : list client_t :=
  match op with
  | Login c => c :: l
  | Logout c => unlink (fun s => s.(c_id) =? c.(c_id)) l
  end.

(** The verified session of a name. *)
Definition session_lookup (l : list client_t) (name : list Z) : option client_t :=
  List.find (fun s => beq s.(c_username) name && negb (s.(c_validated) =? 0)) l.

Definition clientlist_step (t : clientlist_table) (op : session_op) : clientlist_table :=
  match op with
  | Login c => (clientlist_add t c).1
  | Logout c => clientlist_remove t c
  end.

(** What login.c stores in a client: a name of at most 15 bytes without a NUL,
    and its length. *)
Definition session_ok (c : client_t) : Prop :=
  zlen c.(c_username) <= 15 /\ c.(c_username_len) = zlen c.(c_username) /\
  Forall (fun b => b <> 0) c.(c_username).

(** A client keeps the name it logged in with. *)
Definition op_ok (l : list client_t) (op : session_op) : Prop :=
  match op with
  | Login c => session_ok c
  | Logout c => session_ok c /\
      Forall (fun s => s.(c_id) = c.(c_id) -> s.(c_username) = c.(c_username)) l
  end.

Inductive session_run : list client_t -> list session_op -> list client_t -> Prop :=
  | run_nil l : session_run l [] l
  | run_cons l op ops l' :
      op_ok l op -> session_run (session_step l op) ops l' -> session_run l (op :: ops) l'.

(** * Proofs *)

Definition entry_of (c : client_t) : clientlist_t :=
  mk_clientlist (strncpy16 c.(c_username)) c.(c_username_len) c.(c_validated) c.(c_fd)
    (keyhash c.(c_username) 0) c.(c_id).

Definition in_bucket (i : Z) (c : client_t) : bool :=
  clientlist_index (keyhash c.(c_username) 0) =? i.

(** The table holds the sessions, each in its bucket, in order. *)
Definition represents (t : clientlist_table) (l : list client_t) : Prop :=
  Forall session_ok l /\
  forall i, bucket t i = map entry_of (List.filter (in_bucket i) l).

Lemma cstr_no_nul s : Forall (fun b => b <> 0) s -> cstr s = s.
Proof. induction 1 as [|b s Hb _ IH]; simpl; [done|]. destruct (b =? 0) eqn:E; [lia|]. by rewrite IH. Qed.

(** Comparing a name with the stored array decides equality of the names. *)
Lemma memcmp_username name c :
  Forall (fun b => b <> 0) name -> session_ok c ->
  memcmp_eq name (strncpy16 c.(c_username)) (zlen name) && (c.(c_username_len) =? zlen name)
  = beq c.(c_username) name.
Proof.
  intros Hn (Hl & Hle & Hu). rewrite Hle. unfold memcmp_eq, beq, strncpy16.
  rewrite cstr_no_nul by done. set (u := c_username c) in *.
  replace (Z.to_nat (zlen name)) with (length name) by (unfold zlen; lia).
  rewrite firstn_all. destruct (zlen u =? zlen name) eqn:E.
  - rewrite andb_true_r. apply Z.eqb_eq in E. apply bool_decide_ext.
    assert (length u = length name) as Hlen by (unfold zlen in E; lia).
    assert (length u <= 15)%nat by (unfold zlen in Hl; lia).
    assert (take (length name) (<[15%nat:=0]> (take 16 (u ++ repeat 0 16))) = u) as ->.
    { rewrite take_insert_ge by lia. rewrite take_take, Nat.min_l by lia.
      rewrite <- Hlen. by rewrite take_app_length. }
    split; congruence.
  - rewrite andb_false_r. symmetry. apply bool_decide_eq_false_2. intros ->. lia.
Qed.

Lemma find_map {A B} (f : A -> B) (p : B -> bool) l :
  List.find p (map f l) = f <$> List.find (fun x => p (f x)) l.
Proof. induction l as [|x l IH]; simpl; [done|]. by destruct (p (f x)). Qed.

Lemma find_filter {A} (q p : A -> bool) l :
  (forall x, x ∈ l -> p x = true -> q x = true) ->
  List.find p (List.filter q l) = List.find p l.
Proof.
  induction l as [|x l IH]; intros Hpq; simpl; [done|].
  assert (List.find p (List.filter q l) = List.find p l) as Hl
    by (apply IH; intros y Hy; apply Hpq, elem_of_cons; by right).
  destruct (q x) eqn:Eq; simpl; [by rewrite Hl|].
  destruct (p x) eqn:Ep; [|done].
  rewrite (Hpq x) in Eq; [done|apply elem_of_cons; by left|done].
Qed.

Lemma represents_lookup t l name :
  represents t l -> Forall (fun b => b <> 0) name ->
  check_if_validated_client t name = default (-1) (c_fd <$> session_lookup l name).
Proof.
  intros [Hok Hb] Hn. unfold check_if_validated_client, session_lookup.
  rewrite Hb, find_map. rewrite Forall_forall in Hok.
  rewrite find_filter.
  - rewrite (find_ext _ (fun s => beq (c_username s) name && negb (c_validated s =? 0))).
    + by destruct (List.find _ l).
    + intros s Hs%list_elem_of_In. rewrite <- memcmp_username by auto. simpl.
      destruct (c_username_len s =? zlen name) eqn:El; rewrite ?andb_false_r; [|done].
      rewrite !andb_true_r. destruct (memcmp_eq _ _ _) eqn:Em; rewrite ?andb_false_r; [|done].
      assert (beq (c_username s) name = true) as Eq
        by (rewrite <- memcmp_username by auto; by rewrite Em, El).
      apply bool_decide_eq_true in Eq. rewrite Eq, Z.eqb_refl. done.
  - intros s Hs Hp. simpl in Hp. unfold in_bucket.
    destruct (keyhash (c_username s) 0 =? keyhash name 0) eqn:E; [|done].
    apply Z.eqb_eq in E. rewrite E. apply Z.eqb_refl.
Qed.

Lemma filter_unlink_ne {A} (p q : A -> bool) l :
  (forall x, x ∈ l -> p x = true -> q x = false) -> List.filter q (unlink p l) = List.filter q l.
Proof.
  induction l as [|x l IH]; intros Hp; simpl; [done|].
  destruct (p x) eqn:E.
  - rewrite (Hp x); [done|apply elem_of_cons; by left|done].
  - simpl. rewrite IH; [done|]. intros y Hy. apply Hp, elem_of_cons. by right.
Qed.

Lemma filter_unlink_eq {A} (p q : A -> bool) l :
  (forall x, x ∈ l -> p x = true -> q x = true) ->
  List.filter q (unlink p l) = unlink p (List.filter q l).
Proof.
  induction l as [|x l IH]; intros Hp; simpl; [done|].
  assert (List.filter q (unlink p l) = unlink p (List.filter q l)) as Hl
    by (apply IH; intros y Hy; apply Hp, elem_of_cons; by right).
  destruct (p x) eqn:E; simpl.
  - rewrite (Hp x); [simpl; by rewrite E|apply elem_of_cons; by left|done].
  - destruct (q x); simpl; rewrite ?E, Hl; done.
Qed.

Lemma map_unlink {A B} (f : A -> B) (p : B -> bool) l :
  map f (unlink (fun x => p (f x)) l) = unlink p (map f l).
Proof. induction l as [|x l IH]; simpl; [done|]. destruct (p (f x)); simpl; by rewrite ?IH. Qed.

Lemma session_name c : session_ok c -> take (Z.to_nat (c_username_len c)) (c_username c) = c_username c.
Proof. intros (_ & -> & _). unfold zlen. by rewrite Nat2Z.id, firstn_all. Qed.

Lemma represents_step t l op :
  represents t l -> op_ok l op -> represents (clientlist_step t op) (session_step l op).
Proof.
  intros [Hok Hb] Hop. destruct op as [c|c]; cbn [clientlist_step session_step].
  - cbn in Hop. split; [by constructor|]. intros i. unfold clientlist_add.
    rewrite session_name by done. cbn [fst List.filter]. unfold in_bucket at 1.
    destruct (Z.eqb_spec (clientlist_index (keyhash (c_username c) 0)) i) as [<-|Hi].
    + rewrite bucket_set_eq. cbn [map]. by rewrite Hb.
    + by rewrite bucket_set_ne, Hb by done.
  - destruct Hop as [Hc Hl]. split; [by apply Forall_unlink|]. intros i.
    unfold clientlist_remove, clientlist_find_id. rewrite session_name by done.
    set (j := clientlist_index (keyhash (c_username c) 0)).
    set (p := fun cl => cl_client_id cl =? c_id c).
    assert (bucket (set_bucket t j (unlink p (bucket t j))) i =
            map entry_of (List.filter (in_bucket i) (unlink (fun s => c_id s =? c_id c) l))) as Hu.
    { rewrite Forall_forall in Hl. destruct (decide (j = i)) as [<-|Hij].
      - rewrite bucket_set_eq, Hb, <- map_unlink. f_equal. symmetry. apply filter_unlink_eq.
        intros s Hs Hid. apply Z.eqb_eq in Hid. unfold in_bucket.
        rewrite (Hl s) by (done || by apply list_elem_of_In). apply Z.eqb_refl.
      - rewrite bucket_set_ne, Hb by done. f_equal. symmetry. apply filter_unlink_ne.
        intros s Hs Hid. apply Z.eqb_eq in Hid. unfold in_bucket.
        rewrite (Hl s) by (done || by apply list_elem_of_In). by apply Z.eqb_neq. }
    destruct (List.find p (bucket t j)) eqn:E; [done|].
    rewrite <- Hu. destruct (decide (j = i)) as [<-|Hij].
    + by rewrite bucket_set_eq, unlink_none.
    + by rewrite bucket_set_ne.
Qed.

Lemma represents_empty : represents ∅ [].
Proof. split; [done|]. intros i. exact (bucket_empty i). Qed.

#[export] Hint Resolve represents_empty represents_step : aprs.

(** C34: The client list refines the plain list of sessions: after any sequence of
    logins and logouts, in which a client keeps its name while it is logged in,
    the table finds for every callsign the file descriptor of the newest verified
    session of exactly that name, and -1 when there is none. *)
Theorem clientlist_refines ops sessions name :
  session_run [] ops sessions -> Forall (fun b => b <> 0) name ->
  check_if_validated_client (fold_left clientlist_step ops ∅) name
  = default (-1) (c_fd <$> session_lookup sessions name).
Proof.
  intros Hrun Hn. apply represents_lookup; [|done].
  enough (forall t l, represents t l -> session_run l ops sessions ->
          represents (fold_left clientlist_step ops t) sessions) by eauto with aprs.
  clear Hrun. intros t l Ht Hrun. revert t Ht.
  induction Hrun as [|l op ops l' Hop _ IH]; intros t Ht; simpl; [done|].
  eauto with aprs.
Qed.

Lemma clientlist_refines_witness :
  let a := demo_client "OH7LZB" CLFLAGS_INPORT 1 in
  let b := demo_client "OH2XYZ" CLFLAGS_INPORT 0 in
  check_if_validated_client (fold_left clientlist_step [Login b; Logout b; Login a] ∅)
    (str "OH7LZB") = 5.
Proof.
  intros a b.
  refine (clientlist_refines [Login b; Logout b; Login a] [a] (str "OH7LZB") _ _);
    [|by repeat constructor].
  assert (forall c, c = a \/ c = b -> session_ok c) as Hok
    by (intros c [->| ->]; (split; [vm_compute; congruence|split; [done|by repeat constructor]])).
  constructor; [by apply Hok; right|]. constructor; [split; [by apply Hok; right|by repeat constructor]|].
  constructor; [by apply Hok; left|]. constructor.
Defined.
