(* ===== verification/ClientHeard.v ===== *)
(** * client_heard.c: which stations a client has heard

    For every client on an IGate port the server keeps two hash tables of
    callsigns: the stations heard through that client, to which messages are
    routed, and the stations that are owed one courtesy position after such a
    message.  A table is shown to be a case-insensitive finite map from
    callsigns to the time they were last heard. *)

From S2P Require Import Prelude Table Keyhash Types.
From Stdlib Require Import ZArith Lia Bool String.
From stdpp Require Import base tactics list gmap numbers.
Open Scope Z_scope.

Definition MAX_HEARD_PER_CLIENT : Z := 2000.

(** One of the two lists of a client: the buckets and the entry counter. *)
Record heard_list := mk_heard_list {
  hl_list : gmap Z (list client_heard_t);
  hl_count : Z
}.

Definition heard_index (hash : Z) : Z :=
  Z.lxor hash (Z.shiftr hash 16) mod CLIENT_HEARD_BUCKETS.

(** [h->hash == hash && call_len == h->call_len && strncasecmp(...) == 0] *)
Definition heard_match (hash : Z) (call : list Z) (h : client_heard_t) : bool :=
  (h.(h_hash) =? hash) && (zlen call =? h.(h_call_len))
  && caseeq call (take (Z.to_nat h.(h_call_len)) h.(h_callsign)).

(** [strncpy(h->callsign, call, call_len); h->callsign[9] = 0]: undefined when the
    callsign does not fit the 10 byte array. *)
Definition heard_callsign (call : list Z) : option (list Z) :=
  if zlen call <=? CALLSIGNLEN_MAX then Some call
  else if zlen call =? CALLSIGNLEN_MAX + 1 then Some (take 9 call ++ [0])
  else None.

(** [heard_list_update]; [mem] is whether the cell allocator has a cell. *)
Definition heard_list_update (mem : bool) (call : list Z) (t : Z) (l : heard_list)
    : option heard_list :=
  let hash := keyhashuc call 0 in
  let i := heard_index hash in
  let b := bucket l.(hl_list) i in
  match List.find (heard_match hash call) b with
  | Some h =>
      Some (mk_heard_list
              (set_bucket l.(hl_list) i
                 (set_h_last_heard t h :: unlink (heard_match hash call) b))
              l.(hl_count))
  | None =>
      if l.(hl_count) >=? MAX_HEARD_PER_CLIENT then Some l
      else if negb mem then Some l
      else
        s ← heard_callsign call;
        Some (mk_heard_list
                (set_bucket l.(hl_list) i (mk_heard hash (zlen call) t s :: b))
                (l.(hl_count) + 1))
  end.

(** [heard_find]: whether the callsign is there; with [drop_if_found] its entry
    is taken off the list. *)
Definition heard_find (call : list Z) (hash : Z) (drop_if_found : bool) (l : heard_list)
    : heard_list * bool :=
  let i := heard_index hash in
  let b := bucket l.(hl_list) i in
  match List.find (heard_match hash call) b with
  | Some _ =>
      (if drop_if_found
       then mk_heard_list (set_bucket l.(hl_list) i (unlink (heard_match hash call) b))
                          (l.(hl_count) - 1)
       else l, true)
  | None => (l, false)
  end.

Definition heard_buckets : nat := Z.to_nat CLIENT_HEARD_BUCKETS.

Definition heard_free_single (l : heard_list) : gmap Z (list client_heard_t) :=
  sweep heard_buckets (fun _ => []) l.(hl_list).

(** Entries are kept when they are neither older than the store time nor from
    the future; [expire_below] is an [int]. *)
Definition heard_keep (tick storetime : Z) (h : client_heard_t) : bool :=
  negb ((h.(h_last_heard) <? i32 (tick - storetime)) || (h.(h_last_heard) >? tick)).

Definition heard_expire_single (tick storetime : Z) (l : heard_list) : heard_list :=
  let t := sweep heard_buckets (List.filter (heard_keep tick storetime)) l.(hl_list) in
  mk_heard_list t (l.(hl_count) - (zlen (entries heard_buckets l.(hl_list))
                                   - zlen (entries heard_buckets t))).

(** ** The operations on a client *)

Definition c_heard_list (c : client_t) : heard_list := mk_heard_list c.(c_heard) c.(c_heard_count).
Definition c_courtesy_list (c : client_t) : heard_list :=
  mk_heard_list c.(c_courtesy) c.(c_courtesy_count).
Definition set_c_heard_list (l : heard_list) (c : client_t) : client_t :=
  set_c_heard_count l.(hl_count) (set_c_heard l.(hl_list) c).
Definition set_c_courtesy_list (l : heard_list) (c : client_t) : client_t :=
  set_c_courtesy_count l.(hl_count) (set_c_courtesy l.(hl_list) c).

Definition client_heard_update (mem : bool) (c : client_t) (pb : pbuf_t) : option client_t :=
  call ← rd_range pb.(pb_data) 0 pb.(pb_srccall_end);
  l ← heard_list_update mem call pb.(pb_t) (c_heard_list c);
  Some (set_c_heard_list l c).

Definition client_courtesy_update (mem : bool) (c : client_t) (pb : pbuf_t) : option client_t :=
  call ← rd_range pb.(pb_data) 0 pb.(pb_srccall_end);
  l ← heard_list_update mem call pb.(pb_t) (c_courtesy_list c);
  Some (set_c_courtesy_list l c).

Definition client_heard_check (c : client_t) (call : list Z) (hash : Z) : bool :=
  (heard_find call hash false (c_heard_list c)).2.

Definition client_courtesy_needed (c : client_t) (pb : pbuf_t) : option (client_t * bool) :=
  call ← rd_range pb.(pb_data) pb.(pb_srcname) pb.(pb_srcname_len);
  let '(l, found) := heard_find call pb.(pb_srcname_hash) true (c_courtesy_list c) in
  Some (set_c_courtesy_list l c, found).

Definition client_heard_free (c : client_t) : client_t :=
  set_c_courtesy_list (mk_heard_list (heard_free_single (c_courtesy_list c)) 0)
    (set_c_heard_list (mk_heard_list (heard_free_single (c_heard_list c)) 0) c).

Definition client_heard_expire (cfg : config) (tick : Z) (c : client_t) : client_t :=
  set_c_courtesy_list (heard_expire_single tick cfg.(courtesy_list_storetime) (c_courtesy_list c))
    (set_c_heard_list (heard_expire_single tick cfg.(heard_list_storetime) (c_heard_list c)) c).

(** [client_heard_json]: the callsigns of the dump, bucket by bucket. *)
Definition client_heard_json (l : heard_list) : list (list Z) :=
  map h_callsign (entries heard_buckets l.(hl_list)).

(** [client_heard_json_load] of an array of strings. *)
Definition client_heard_json_load (mem : bool) (tick : Z) (dump : list (list Z)) (l : heard_list)
    : option heard_list :=
  fold_left (fun acc call => l ← acc; heard_list_update mem call tick l) dump (Some l).

(** * The map of a list *)

Definition heard_key (h : client_heard_t) : list Z := map tolower h.(h_callsign).

(** The bucket of a key. *)
Definition key_index (k : list Z) : Z := heard_index (keyhashuc k 0).

Definition heard_map (l : heard_list) : gmap (list Z) Z :=
  view heard_key h_last_heard heard_buckets l.(hl_list).

Definition heard_entry_ok (h : client_heard_t) : Prop :=
  h.(h_hash) = keyhashuc h.(h_callsign) 0 /\ h.(h_call_len) = zlen h.(h_callsign).

Record heard_wf (l : heard_list) : Prop := {
  hw_table : table_wf heard_key key_index l.(hl_list);
  hw_entry : forall i h, h ∈ bucket l.(hl_list) i -> heard_entry_ok h;
  hw_count : l.(hl_count) = zlen (entries heard_buckets l.(hl_list))
}.

Lemma key_index_range k : 0 <= key_index k < Z.of_nat heard_buckets.
Proof. unfold key_index, heard_index. apply Z.mod_pos_bound. done. Qed.

Lemma keyhashuc_lower k : keyhashuc (map tolower k) 0 = keyhashuc k 0.
Proof.
  rewrite !keyhashuc_map. f_equal. apply map_toupper_tolower.
  induction k as [|c k IH]; [done|]. cbn. f_equal; [|done].
  unfold tolower, isupper. repeat split_if; lia.
Qed.

Lemma key_index_call call : key_index (map tolower call) = heard_index (keyhashuc call 0).
Proof. unfold key_index. by rewrite keyhashuc_lower. Qed.

(** The comparison of the source decides equality of the keys. *)
Lemma heard_match_key call h :
  heard_entry_ok h ->
  heard_match (keyhashuc call 0) call h = has_key heard_key (map tolower call) h.
Proof.
  intros [Hh Hl]. unfold heard_match, has_key, heard_key. rewrite Hh, Hl.
  replace (Z.to_nat (zlen (h_callsign h))) with (length (h_callsign h)) by (unfold zlen; lia).
  rewrite firstn_all. unfold caseeq.
  destruct (decide (map tolower (h_callsign h) = map tolower call)) as [E|E].
  - rewrite !bool_decide_eq_true_2 by done. rewrite <- (keyhashuc_lower call), <- E, keyhashuc_lower.
    apply (f_equal length) in E. rewrite !length_map in E. unfold zlen. rewrite E, !Z.eqb_refl. done.
  - rewrite !bool_decide_eq_false_2 by congruence. by rewrite andb_false_r.
Qed.

Section Laws.
Context (l : heard_list) (Hwf : heard_wf l).

Lemma heard_find_chain call :
  List.find (heard_match (keyhashuc call 0) call) (bucket l.(hl_list) (heard_index (keyhashuc call 0)))
  = chain_find heard_key (map tolower call) (bucket l.(hl_list) (key_index (map tolower call))).
Proof.
  rewrite key_index_call. apply find_ext. intros h Hh. apply heard_match_key.
  by eapply hw_entry.
Qed.

Lemma heard_unlink_chain call :
  unlink (heard_match (keyhashuc call 0) call) (bucket l.(hl_list) (heard_index (keyhashuc call 0)))
  = unlink (has_key heard_key (map tolower call)) (bucket l.(hl_list) (key_index (map tolower call))).
Proof.
  rewrite key_index_call. apply unlink_ext. intros h Hh. apply heard_match_key.
  by eapply hw_entry.
Qed.

Lemma heard_map_lookup k :
  heard_map l !! k = h_last_heard <$> chain_find heard_key k (bucket l.(hl_list) (key_index k)).
Proof. apply view_lookup; [apply key_index_range|apply Hwf]. Qed.

(** The counter is the number of callsigns on the list. *)
Lemma heard_count_size : l.(hl_count) = Z.of_nat (size (heard_map l)).
Proof.
  destruct Hwf as [Ht _ ->]. by apply (view_size _ _ key_index).
Qed.

(** Replacing the chain of a key by one whose records are well formed. *)
Lemma heard_wf_set call b' n :
  table_wf heard_key key_index (set_bucket l.(hl_list) (heard_index (keyhashuc call 0)) b') ->
  (forall h, h ∈ b' -> heard_entry_ok h) ->
  n = l.(hl_count) + zlen b' - zlen (bucket l.(hl_list) (heard_index (keyhashuc call 0))) ->
  heard_wf (mk_heard_list (set_bucket l.(hl_list) (heard_index (keyhashuc call 0)) b') n).
Proof.
  intros Ht He Hn. split; cbn [hl_list hl_count]; [done| |].
  - intros i h. destruct (decide (heard_index (keyhashuc call 0) = i)) as [<-|Hi].
    + rewrite bucket_set_eq. apply He.
    + rewrite bucket_set_ne by done. by apply Hwf.
  - rewrite zlen_entries_set by (rewrite <- key_index_call; apply key_index_range).
    destruct Hwf as [_ _ Hc]. lia.
Qed.

Lemma zlen_unlink_found call h b :
  List.find (heard_match (keyhashuc call 0) call) b = Some h ->
  zlen (unlink (heard_match (keyhashuc call 0) call) b) = zlen b - 1.
Proof.
  induction b as [|x b IH]; cbn [List.find unlink]; [done|].
  destruct (heard_match _ _ x); rewrite ?zlen_cons; [lia|]. intros Hf. specialize (IH Hf). lia.
Qed.

(** Hearing a callsign: it is on the list with the new time; a list that is
    full, or an allocator that is, leaves a new callsign out. *)
Lemma heard_update_map mem call t :
  zlen call <= CALLSIGNLEN_MAX ->
  exists l', heard_list_update mem call t l = Some l' /\ heard_wf l' /\
    heard_map l' =
      if bool_decide (is_Some (heard_map l !! map tolower call))
         || (mem && (Z.of_nat (size (heard_map l)) <? MAX_HEARD_PER_CLIENT))
      then <[map tolower call := t]> (heard_map l) else heard_map l.
Proof.
  intros Hlen. unfold heard_list_update. rewrite heard_find_chain, heard_unlink_chain.
  rewrite heard_map_lookup. set (k := map tolower call).
  assert (Hw := hw_table _ Hwf). rewrite <- key_index_call. fold k.
  destruct (chain_find heard_key k (bucket (hl_list l) (key_index k))) as [h|] eqn:E;
    cbn [fmap option_fmap option_map].
  - destruct (chain_find_Some _ _ _ _ E) as [Hin Hk].
    pose proof (view_put heard_key h_last_heard key_index heard_buckets key_index_range
                  (hl_list l) (set_h_last_heard t h) Hw) as [Hw' Hv].
    change (heard_key (set_h_last_heard t h)) with (heard_key h) in Hw', Hv. rewrite Hk in Hw', Hv.
    eexists. split; [done|]. split.
    + unfold k in *. rewrite key_index_call in *. apply heard_wf_set; [done| |].
      * intros x [->|Hx]%elem_of_cons; [by apply (hw_entry _ Hwf _ h) in Hin|].
        eapply (hw_entry _ Hwf), elem_of_sublist, unlink_sublist. done.
      * rewrite zlen_cons, <- key_index_call, <- heard_unlink_chain.
        erewrite zlen_unlink_found by (rewrite heard_find_chain, key_index_call; exact E).
        rewrite ?key_index_call. lia.
    + rewrite bool_decide_eq_true_2 by done. exact Hv.
  - rewrite bool_decide_eq_false_2 by (intros [? ?]; done). cbn [orb].
    rewrite <- heard_count_size, Z.geb_leb.
    destruct (MAX_HEARD_PER_CLIENT <=? hl_count l) eqn:Em.
    { destruct (hl_count l <? MAX_HEARD_PER_CLIENT) eqn:Em2; [lia|]. rewrite andb_false_r. eauto. }
    destruct (hl_count l <? MAX_HEARD_PER_CLIENT) eqn:Em2; [|lia].
    destruct mem; cbn [negb andb]; [|eauto].
    unfold heard_callsign. destruct (zlen call <=? CALLSIGNLEN_MAX) eqn:El; [|lia].
    cbn [mbind option_bind].
    set (h := mk_heard (keyhashuc call 0) (zlen call) t call).
    pose proof (view_put heard_key h_last_heard key_index heard_buckets key_index_range
                  (hl_list l) h Hw) as [Hw' Hv].
    change (heard_key h) with k in Hw', Hv. rewrite unlink_absent in Hw', Hv by done.
    eexists. split; [done|]. split; [|exact Hv].
    unfold k in *. rewrite key_index_call in *. apply heard_wf_set; [done| |].
    + intros x [->|Hx]%elem_of_cons; [done|]. by eapply hw_entry.
    + rewrite zlen_cons. lia.
Qed.

(** Looking for a callsign, and taking it off. *)
Lemma heard_find_map call drop :
  let r := heard_find call (keyhashuc call 0) drop l in
  heard_wf r.1 /\ r.2 = bool_decide (is_Some (heard_map l !! map tolower call)) /\
  heard_map r.1 = if (drop : bool) then delete (map tolower call) (heard_map l) else heard_map l.
Proof.
  unfold heard_find. rewrite heard_find_chain, heard_unlink_chain. rewrite heard_map_lookup.
  set (k := map tolower call). assert (Hw := hw_table _ Hwf).
  destruct (chain_find heard_key k (bucket (hl_list l) (key_index k))) as [h|] eqn:E; cbn [fst snd fmap option_fmap option_map].
  - rewrite bool_decide_eq_true_2 by done. destruct drop; [|done].
    pose proof (view_delete heard_key h_last_heard key_index heard_buckets key_index_range
                  (hl_list l) k Hw) as [Hw' Hv].
    split; [|split; [done|unfold heard_map; cbn [hl_list]; by rewrite <- key_index_call]].
    apply heard_wf_set; [by rewrite <- key_index_call| |].
    + intros x Hx. eapply (hw_entry _ Hwf), elem_of_sublist, unlink_sublist. done.
    + unfold k. rewrite <- heard_unlink_chain.
      erewrite zlen_unlink_found by (rewrite heard_find_chain; exact E). lia.
  - rewrite bool_decide_eq_false_2 by (intros [? ?]; done).
    assert (heard_map l !! k = None) as Hn by (rewrite heard_map_lookup, E; done).
    destruct drop; [|done]. by rewrite delete_id.
Qed.

(** Expiry keeps exactly the callsigns heard in the window. *)
Lemma heard_expire_map tick storetime :
  let l' := heard_expire_single tick storetime l in
  heard_wf l' /\
  heard_map l' = filter (fun kv => i32 (tick - storetime) <= kv.2 <= tick) (heard_map l).
Proof.
  destruct (view_filter heard_key h_last_heard key_index heard_buckets key_index_range
    (hl_list l) (heard_keep tick storetime)
    (fun kv => i32 (tick - storetime) <= kv.2 <= tick)) as [Hw Hv].
  - intros h. unfold heard_keep. cbn [snd]. rewrite negb_true_iff, orb_false_iff. lia.
  - apply Hwf.
  - split; [|exact Hv]. split; cbn [heard_expire_single hl_list hl_count]; [done| |].
    + intros i h. rewrite bucket_sweep. split_if; [|apply Hwf].
      intros Hh. eapply (hw_entry _ Hwf i), elem_of_sublist, filter_sublist. done.
    + destruct Hwf as [_ _ Hc]. lia.
Qed.
End Laws.

Lemma heard_free_map l : heard_wf l ->
  heard_wf (mk_heard_list (heard_free_single l) 0) /\
  heard_map (mk_heard_list (heard_free_single l) 0) = ∅.
Proof.
  intros Hwf. unfold heard_free_single.
  assert (forall j, bucket (sweep heard_buckets (fun _ => []) (hl_list l)) j = []) as Hb.
  { intros j. rewrite bucket_sweep. split_if; [done|].
    destruct (bucket (hl_list l) j) as [|h b] eqn:E; [done|]. exfalso.
    assert (key_index (heard_key h) = j) as <-
      by (apply (tw_chained _ _ _ (hw_table _ Hwf)); rewrite E; apply elem_of_cons; by left).
    pose proof (key_index_range (heard_key h)). zbool. }
  assert (entries heard_buckets (sweep heard_buckets (fun _ => []) (hl_list l)) = []) as He.
  { unfold entries. induction (seq 0 heard_buckets) as [|k ks IH]; [done|]. cbn. by rewrite Hb. }
  split.
  - split; cbn [hl_list hl_count].
    + split; intros i; rewrite Hb; [by intros a ?%elem_of_nil|constructor].
    + intros i h. rewrite Hb. by intros ?%elem_of_nil.
    + by rewrite He.
  - unfold heard_map, view. cbn [hl_list]. by rewrite He.
Qed.

Lemma heard_wf_empty : heard_wf (mk_heard_list ∅ 0).
Proof.
  split; cbn [hl_list hl_count]; [apply wf_empty| |].
  - intros i h. rewrite bucket_empty. by intros ?%elem_of_nil.
  - done.
Qed.

(** ** Specification: a finite map with a size limit *)

Inductive heard_op : Set :=
  | Hear (mem : bool) (call : list Z) (t : Z)
  | Take (call : list Z)
  | Expire (tick storetime : Z)
  | Free.

Definition heard_op_ok (op : heard_op) : Prop :=
  match op with Hear _ call _ => zlen call <= CALLSIGNLEN_MAX | _ => True end.

Definition heard_step (op : heard_op) (l : heard_list) : option heard_list :=
  match op with
  | Hear mem call t => heard_list_update mem call t l
  | Take call => Some (heard_find call (keyhashuc call 0) true l).1
  | Expire tick storetime => Some (heard_expire_single tick storetime l)
  | Free => Some (mk_heard_list (heard_free_single l) 0)
  end.

Definition heard_run (ops : list heard_op) (l : heard_list) : option heard_list :=
  fold_left (fun acc op => l ← acc; heard_step op l) ops (Some l).

(** Callsigns are compared without regard to case; a new one is left out when
    2000 are on the list or memory is short. *)
Definition heard_spec (m : gmap (list Z) Z) (op : heard_op) : gmap (list Z) Z :=
  match op with
  | Hear mem call t =>
      if bool_decide (is_Some (m !! map tolower call))
         || (mem && (Z.of_nat (size m) <? MAX_HEARD_PER_CLIENT))
      then <[map tolower call := t]> m else m
  | Take call => delete (map tolower call) m
  | Expire tick storetime => filter (fun kv => i32 (tick - storetime) <= kv.2 <= tick) m
  | Free => ∅
  end.

Lemma heard_step_spec op l :
  heard_wf l -> heard_op_ok op ->
  exists l', heard_step op l = Some l' /\ heard_wf l' /\ heard_map l' = heard_spec (heard_map l) op.
Proof.
  intros Hwf Hop. destruct op as [mem call t|call|tick st|]; cbn [heard_step heard_spec].
  - by apply heard_update_map.
  - eexists. split; [done|]. destruct (heard_find_map l Hwf call true) as (? & _ & ?). done.
  - eexists. split; [done|]. by apply heard_expire_map.
  - eexists. split; [done|]. by apply heard_free_map.
Qed.

Lemma heard_spec_size m op :
  Z.of_nat (size m) <= MAX_HEARD_PER_CLIENT -> Z.of_nat (size (heard_spec m op)) <= MAX_HEARD_PER_CLIENT.
Proof.
  intros Hm. destruct op as [mem call t|call|tick st|]; cbn [heard_spec].
  - destruct (m !! map tolower call) as [x|] eqn:E.
    + rewrite bool_decide_eq_true_2 by done. cbn [orb]. by rewrite map_size_insert_Some.
    + rewrite bool_decide_eq_false_2 by (intros [? ?]; done). cbn [orb]. destruct mem; cbn [andb]; [|done].
      split_if; [|done]. rewrite map_size_insert_None by done. lia.
  - pose proof (map_subseteq_size _ _ (delete_subseteq m (map tolower call))). lia.
  - pose proof (map_subseteq_size _ _ (map_filter_subseteq
      (fun kv => i32 (tick - st) <= kv.2 <= tick) m)). lia.
  - rewrite map_size_empty. done.
Qed.

(** A heard list refines a case-insensitive finite map with at most 2000
    keys.  Any sequence of updates, removals, expiries and resets, in which no
    callsign is longer than nine characters, is carried out without leaving the
    record of a callsign; afterwards the list answers for exactly the callsigns
    of the map, its counter is their number, and expiry has kept exactly those
    heard between the store time and now. *)
Theorem heard_refines ops :
  Forall heard_op_ok ops ->
  exists l, heard_run ops (mk_heard_list ∅ 0) = Some l /\
    let m := fold_left heard_spec ops ∅ in
    heard_map l = m /\ l.(hl_count) = Z.of_nat (size m) /\ l.(hl_count) <= MAX_HEARD_PER_CLIENT /\
    forall call, (heard_find call (keyhashuc call 0) false l).2
                 = bool_decide (is_Some (m !! map tolower call)).
Proof.
  intros Hops. unfold heard_run.
  enough (forall l, heard_wf l -> Z.of_nat (size (heard_map l)) <= MAX_HEARD_PER_CLIENT ->
    exists l', fold_left (fun acc op => l ← acc; heard_step op l) ops (Some l) = Some l' /\
      heard_wf l' /\ heard_map l' = fold_left heard_spec ops (heard_map l) /\
      Z.of_nat (size (heard_map l')) <= MAX_HEARD_PER_CLIENT) as Hgen.
  { destruct (Hgen (mk_heard_list ∅ 0) heard_wf_empty) as (l & Hl & Hwf & Hm & Hs); [done|].
    exists l. split; [done|]. replace (heard_map (mk_heard_list ∅ 0)) with (∅ : gmap (list Z) Z) in Hm
      by (symmetry; apply view_empty). cbn zeta. rewrite <- Hm, <- heard_count_size by done.
    rewrite (heard_count_size l Hwf). split; [done|]. split; [done|]. split; [done|].
    intros call. by apply heard_find_map. }
  induction Hops as [|op ops Hop _ IH]; intros l Hwf Hs; cbn [fold_left].
  - exists l. done.
  - cbn [mbind option_bind]. destruct (heard_step_spec op l Hwf Hop) as (l' & -> & Hwf' & Hm').
    rewrite <- Hm'. apply IH; [done|]. rewrite Hm'. by apply heard_spec_size.
Qed.

Lemma heard_refines_witness :
  let ops := [Hear true (str "OH7LZB-1") 1000; Hear true (str "OH2XYZ") 90;
              Expire 1010 100; Hear true (str "oh7lzb-1") 1005] in
  exists l, heard_run ops (mk_heard_list ∅ 0) = Some l /\
    heard_map l = {[ str "oh7lzb-1" := 1005 ]} /\ l.(hl_count) = 1.
Proof.
  intros ops. destruct (heard_refines ops) as (l & Hl & Hm & Hc & _);
    [repeat constructor; vm_compute; congruence|].
  exists l. split; [done|]. rewrite Hm, Hc. split; vm_compute; reflexivity.
Defined.

(** The courtesy position is sent once.  [client_courtesy_needed] answers
    whether the source of the packet is owed one, and asking again, for the same
    source in any letter case, answers no; the stations heard and the courtesies
    owed to every other station are untouched. *)
Theorem courtesy_once c pb pb2 call call2 c' b :
  heard_wf (c_courtesy_list c) ->
  rd_range pb.(pb_data) pb.(pb_srcname) pb.(pb_srcname_len) = Some call ->
  pb.(pb_srcname_hash) = keyhashuc call 0 ->
  rd_range pb2.(pb_data) pb2.(pb_srcname) pb2.(pb_srcname_len) = Some call2 ->
  pb2.(pb_srcname_hash) = keyhashuc call2 0 ->
  client_courtesy_needed c pb = Some (c', b) ->
  b = bool_decide (is_Some (heard_map (c_courtesy_list c) !! map tolower call)) /\
  c_heard_list c' = c_heard_list c /\
  option_map snd (client_courtesy_needed c' pb2) =
    Some (negb (caseeq call call2)
          && bool_decide (is_Some (heard_map (c_courtesy_list c) !! map tolower call2))).
Proof.
  intros Hwf Hr Hh Hr2 Hh2 Hc. unfold client_courtesy_needed in *. rewrite Hr in Hc.
  cbn [mbind option_bind] in Hc. rewrite Hh in Hc.
  destruct (heard_find call (keyhashuc call 0) true (c_courtesy_list c)) as [l found] eqn:E.
  injection Hc as <- <-.
  pose proof (heard_find_map _ Hwf call true) as (Hw & Hf & Hm). rewrite E in Hw, Hf, Hm. cbn in Hw, Hf, Hm.
  split; [done|]. split; [done|]. rewrite Hr2. cbn [mbind option_bind]. rewrite Hh2.
  assert (c_courtesy_list (set_c_courtesy_list l c) = l) as -> by by destruct l.
  pose proof (heard_find_map _ Hw call2 true) as (_ & Hf2 & _).
  destruct (heard_find call2 (keyhashuc call2 0) true l) as [l2 f2]. cbn in Hf2 |- *.
  rewrite Hf2, Hm. f_equal. unfold caseeq.
  destruct (decide (map tolower call = map tolower call2)) as [Eq|Eq].
  - rewrite (bool_decide_eq_true_2 (map tolower call = _)) by done. cbn [negb andb].
    by rewrite Eq, lookup_delete_eq.
  - rewrite (bool_decide_eq_false_2 (map tolower call = _)) by done. cbn.
    by rewrite lookup_delete_ne.
Qed.

(** A packet whose source name is hashed. *)
Definition demo_heard_pbuf (call : string) : pbuf_t :=
  set_pb_srcname_hash (keyhashuc (str call) 0) (demo_pbuf call ">x").

Lemma courtesy_once_witness :
  let c := demo_client "OH7AA-10" CLFLAGS_IGATE 1 in
  exists c1 c2, client_courtesy_update true c (demo_heard_pbuf "OH7LZB") = Some c1 /\
    client_courtesy_needed c1 (demo_heard_pbuf "OH7LZB") = Some (c2, true) /\
    option_map snd (client_courtesy_needed c2 (demo_heard_pbuf "oh7lzb")) = Some false.
Proof.
  intros c. destruct (client_courtesy_update true c (demo_heard_pbuf "OH7LZB")) as [c1|] eqn:E1;
    [|vm_compute in E1; done].
  assert (heard_wf (c_courtesy_list c1)) as Hwf.
  { destruct (heard_update_map (mk_heard_list ∅ 0) heard_wf_empty true (str "OH7LZB") 1000)
      as (l & Hl & Hw & _); [vm_compute; congruence|].
    unfold client_courtesy_update in E1.
    change (rd_range (pb_data (demo_heard_pbuf "OH7LZB")) 0 (pb_srccall_end (demo_heard_pbuf "OH7LZB")))
      with (Some (str "OH7LZB")) in E1. cbn [mbind option_bind] in E1.
    change (c_courtesy_list c) with (mk_heard_list ∅ 0) in E1.
    change (pb_t (demo_heard_pbuf "OH7LZB")) with 1000 in E1. rewrite Hl in E1.
    injection E1 as <-. by destruct l. }
  destruct (client_courtesy_needed c1 (demo_heard_pbuf "OH7LZB")) as [[c2 b]|] eqn:E2;
    [|vm_compute in E1; injection E1 as <-; vm_compute in E2; done].
  destruct (courtesy_once c1 (demo_heard_pbuf "OH7LZB") (demo_heard_pbuf "oh7lzb")
    (str "OH7LZB") (str "oh7lzb") c2 b Hwf eq_refl eq_refl eq_refl eq_refl E2) as (-> & _ & Hs).
  exists c1, c2. split; [done|]. rewrite E2, Hs. vm_compute in E1. injection E1 as <-.
  split; [|done]. vm_compute. reflexivity.
Defined.
