(* ===== verification/Dupecheck.v ===== *)
(** * dupecheck.c: duplicate elimination and the global packet queue

    One thread takes the packets the workers have parsed, decides which of them
    are duplicates of a packet seen in the last [dupefilter_storetime] seconds,
    numbers them and appends them to one of two global queues from which the
    workers send.  The database of seen packets also holds the forms a packet
    takes when a broken gateway mangles it.  A purger trims the queues behind
    the slowest worker. *)

From S2P Require Import Prelude Table Keyhash Types.
From Stdlib Require Import ZArith Lia Bool String.
From stdpp Require Import base tactics list gmap numbers.
Open Scope Z_scope.

Definition DUPECHECK_DB_SIZE : Z := 8192.
Definition DTYPE_SPACE_TRIM : Z := 1.
Definition DTYPE_STRIP_8BIT : Z := 2.
Definition DTYPE_CLEAR_8BIT : Z := 3.
Definition DTYPE_SPACED_8BIT : Z := 4.
Definition DTYPE_LOWDATA_STRIP : Z := 5.
Definition DTYPE_LOWDATA_SPACED : Z := 6.
Definition DTYPE_DEL_STRIP : Z := 7.
Definition DTYPE_DEL_SPACED : Z := 8.
Definition DTYPE_MAX : Z := 8.

(** [struct dupe_record_t]; [d_packet] is the [len] bytes of [packet]. *)
Record dupe_record_t := mk_dupe {
  d_hash : Z;
  d_t : Z;
  d_dtype : Z;
  d_packet : list Z
}.

Definition set_d_t (t : Z) (d : dupe_record_t) : dupe_record_t :=
  mk_dupe d.(d_hash) t d.(d_dtype) d.(d_packet).

(** The database: the chains, the number of records on the free chain, the
    gauge of records in use and the counters per kind of duplicate. *)
Record dupe_db := mk_dupe_db {
  dd_db : gmap Z (list dupe_record_t);
  dd_free : Z;
  dd_gauge : Z;
  dd_types : list Z
}.

Definition dupe_db_init : dupe_db := mk_dupe_db ∅ 0 0 (repeat 0 9).

(** ** Sequence numbers and the purger *)

(** How far [pbuf_seq] is behind [seqnum], both [uint32_t]. *)
Definition pbuf_seqnum_lag (seqnum pbuf_seq : Z) : Z :=
  if pbuf_seq =? 0 then 2000000000 else i32 (seqnum - pbuf_seq).

(** One of the two loops of [global_pbuf_purger]: the packets freed, in order,
    and those left in the queue. *)
Fixpoint purge_queue (limit expire seqnum pbuf_lag : Z) (q : list pbuf_t) (count : Z)
    : list pbuf_t * list pbuf_t :=
  match q with
  | [] => ([], [])
  | pb :: t =>
      if count >? limit then
        if pb.(pb_t) >=? expire then ([], q)
        else if pbuf_lag >=? pbuf_seqnum_lag seqnum pb.(pb_seqnum) then ([], q)
        else let '(f, r) := purge_queue limit expire seqnum pbuf_lag t (count - 1) in (pb :: f, r)
      else ([], q)
  end.

(** The global queues, their counters and the two sequence counters. *)
Record global_queues := mk_queues {
  g_queue : list pbuf_t;
  g_dupe_queue : list pbuf_t;
  g_count : Z;
  g_dupe_count : Z;
  g_seqnum : Z;
  g_dupe_seqnum : Z;
  g_count_limit : Z;
  g_dupe_count_limit : Z
}.

Definition global_queues_init : global_queues :=
  mk_queues [] [] 0 0 (u32 (-2000)) (u32 (-2000)) 5000 100.

Definition global_pbuf_purger (cfg : config) (tick : Z) (all : bool) (pbuf_lag pbuf_dupe_lag : Z)
    (g : global_queues) : global_queues * list pbuf_t :=
  let limit := if all then 0 else g.(g_count_limit) in
  let dupe_limit := if all then 0 else g.(g_dupe_count_limit) in
  let expire1 := if all then tick + 10 else tick - cfg.(pbuf_global_expiration) in
  let expire2 := if all then tick + 10 else tick - cfg.(pbuf_global_dupe_expiration) in
  let '(f1, q1) := purge_queue limit expire1 g.(g_seqnum) pbuf_lag g.(g_queue) g.(g_count) in
  let '(f2, q2) := purge_queue dupe_limit expire2 g.(g_dupe_seqnum) pbuf_dupe_lag
                     g.(g_dupe_queue) g.(g_dupe_count) in
  (mk_queues q1 q2 (g.(g_count) - zlen f1) (g.(g_dupe_count) - zlen f2)
     g.(g_seqnum) g.(g_dupe_seqnum) limit dupe_limit, f1 ++ f2).

(** ** The database *)

Definition dupe_index (hash : Z) : Z :=
  let idx := Z.lxor hash (Z.shiftr hash 13) in
  let idx := Z.lxor idx (Z.shiftr idx 26) in
  idx mod DUPECHECK_DB_SIZE.

(** [dupecheck_db_alloc]: the free chain first, then the cell allocator, which
    has a cell when [mem] holds. *)
Definition dupecheck_db_alloc (mem : bool) (db : dupe_db) : option dupe_db :=
  if db.(dd_free) >? 0 then Some (mk_dupe_db db.(dd_db) (db.(dd_free) - 1) (db.(dd_gauge) + 1) db.(dd_types))
  else if mem then Some (mk_dupe_db db.(dd_db) db.(dd_free) (db.(dd_gauge) + 1) db.(dd_types))
  else None.

Definition dupe_buckets : nat := Z.to_nat DUPECHECK_DB_SIZE.
Arguments dupe_buckets : simpl never.

Definition dupe_keep (cfg : config) (tick : Z) (d : dupe_record_t) : bool :=
  negb ((d.(d_t) <? tick - cfg.(dupefilter_storetime)) || (d.(d_t) >? tick + cfg.(dupefilter_storetime))).

(** [dupecheck_cleanup]: every record outside the window goes to the free chain. *)
Definition dupecheck_cleanup (cfg : config) (tick : Z) (db : dupe_db) : dupe_db :=
  let t := sweep dupe_buckets (List.filter (dupe_keep cfg tick)) db.(dd_db) in
  let n := zlen (entries dupe_buckets db.(dd_db)) - zlen (entries dupe_buckets t) in
  mk_dupe_db t (db.(dd_free) + n) (db.(dd_gauge) - n) db.(dd_types).

(** [dupecheck_append]: a record with the current time at the end of a chain. *)
Definition dupecheck_append (mem : bool) (tick : Z) (i hash : Z) (packet : list Z) (db : dupe_db)
    : option dupe_db :=
  db ← dupecheck_db_alloc mem db;
  Some (mk_dupe_db (set_bucket db.(dd_db) i (bucket db.(dd_db) i ++ [mk_dupe hash tick 0 packet]))
          db.(dd_free) db.(dd_gauge) db.(dd_types)).

(** Refresh the first record of a packet; [None] when the chain has none. *)
Fixpoint dupe_refresh (hash tick : Z) (s : list Z) (l : list dupe_record_t)
    : option (list dupe_record_t) :=
  match l with
  | [] => None
  | d :: t =>
      if (d.(d_hash) =? hash) && (zlen d.(d_packet) =? zlen s) && beq s d.(d_packet)
      then Some (set_d_t tick d :: t)
      else cons d <$> dupe_refresh hash tick s t
  end.

(** [dupecheck_add_buf]: a failed allocation leaves the database alone. *)
Definition dupecheck_add_buf (mem : bool) (tick : Z) (s : list Z) (dtype : Z) (db : dupe_db) : dupe_db :=
  let hash := keyhash s 0 in
  let i := dupe_index hash in
  match dupe_refresh hash tick s (bucket db.(dd_db) i) with
  | Some l => mk_dupe_db (set_bucket db.(dd_db) i l) db.(dd_free) db.(dd_gauge) db.(dd_types)
  | None =>
      match dupecheck_db_alloc mem db with
      | None => db
      | Some db =>
          mk_dupe_db (set_bucket db.(dd_db) i (bucket db.(dd_db) i ++ [mk_dupe hash tick dtype s]))
            db.(dd_free) db.(dd_gauge) db.(dd_types)
      end
  end.

(** ** Mangled forms *)

(** [while (tlen1 > 0 && ib[tlen1-1] == ' ') --tlen1;] *)
Fixpoint trim_len (n : nat) (ib : list Z) : nat :=
  match n with
  | O => O
  | S m => if nth m ib 0 =? ch_sp then trim_len m ib else n
  end.

(** The scan for 8-bit characters: the flags for DEL and low values and the
    three rewritten copies. *)
Record scan8 := mk_scan8 { s8_del : bool; s8_low : bool; s8_tb1 : list Z; s8_tb2 : list Z; s8_tb3 : list Z }.

Definition is_low (b : Z) : bool := (schar b <? 32) && (schar b >? 0).
Definition is_del (b : Z) : bool := schar b =? 127.

Definition scan8_step (s : scan8) (b : Z) : scan8 :=
  let c := Z.land (schar b) 127 in
  mk_scan8 (s.(s8_del) || is_del b) (s.(s8_low) || is_low b)
    (if negb (schar b =? c) then s.(s8_tb1) else s.(s8_tb1) ++ [c])
    (s.(s8_tb2) ++ [c])
    (s.(s8_tb3) ++ [if negb (schar b =? c) then ch_sp else c]).

(** The scans for low values and for DEL: the characters dropped, or replaced
    with spaces. *)
Definition scan_drop_step (p : Z -> bool) (s : list Z * list Z) (b : Z) : list Z * list Z :=
  if p b then (s.1, s.2 ++ [ch_sp]) else (s.1 ++ [b], s.2 ++ [b]).

Definition dupecheck_mangle_store (mem : bool) (tick : Z) (ib : list Z) (db : dupe_db) : dupe_db :=
  if zlen ib >? PACKETLEN_MAX then db
  else
    let tlen1 := trim_len (length ib) ib in
    let db := if negb (Z.of_nat tlen1 =? zlen ib)
              then dupecheck_add_buf mem tick (take tlen1 ib) DTYPE_SPACE_TRIM db else db in
    let s := fold_left scan8_step ib (mk_scan8 false false [] [] []) in
    let db := if negb (zlen s.(s8_tb1) =? zlen ib)
              then dupecheck_add_buf mem tick s.(s8_tb3) DTYPE_SPACED_8BIT
                     (dupecheck_add_buf mem tick s.(s8_tb2) DTYPE_CLEAR_8BIT
                        (dupecheck_add_buf mem tick s.(s8_tb1) DTYPE_STRIP_8BIT db))
              else db in
    let low := fold_left (scan_drop_step is_low) ib ([], []) in
    let db := if s.(s8_low) && negb (zlen low.1 =? zlen ib)
              then dupecheck_add_buf mem tick low.2 DTYPE_LOWDATA_SPACED
                     (dupecheck_add_buf mem tick low.1 DTYPE_LOWDATA_STRIP db)
              else db in
    let del := fold_left (scan_drop_step is_del) ib ([], []) in
    if s.(s8_del) && negb (zlen del.1 =? zlen ib)
    then dupecheck_add_buf mem tick del.2 DTYPE_DEL_SPACED
           (dupecheck_add_buf mem tick del.1 DTYPE_DEL_STRIP db)
    else db.

(** ** Checking a packet *)

(** What the duplicate checker tells the rest of the server about a packet: the
    history database and the filter module keep their own records of it. *)
Class PacketSinks (S : Type) := {
  sink_history : config -> bool -> Z -> pbuf_t -> S -> option S;
  sink_filter : config -> Z -> pbuf_t -> S -> option (pbuf_t * S)
}.

(** The canonical form of a packet: source and destination without the path,
    and the payload without its line end. *)
Definition dupe_addr (pb : pbuf_t) : option (list Z) :=
  rd_range pb.(pb_data) 0 pb.(pb_dstcall_end_or_ssid).
Definition dupe_data (pb : pbuf_t) : option (list Z) :=
  rd_range pb.(pb_data) pb.(pb_info_start) (pb.(pb_packet_len) - pb.(pb_info_start) - 2).

Definition dupe_match (hash expiretime : Z) (packet : list Z) (d : dupe_record_t) : bool :=
  (d.(d_hash) =? hash) && (d.(d_t) >=? expiretime) && (zlen d.(d_packet) =? zlen packet)
  && beq packet d.(d_packet).

(** [dupecheck_dupetypes[dtype]++], guarded as in the source. *)
Definition count_dtype (dtype : Z) (types : list Z) : list Z :=
  if (dtype >=? 0) && (dtype <? DTYPE_MAX)
  then alter (fun n => n + 1) (Z.to_nat dtype) types else types.

Section WithSinks.
Context {S : Type} `{PacketSinks S}.

(** [dupecheck]: the packet, [F_DUPE], 0 or -1, the database and the state of
    the filter module. *)
Definition dupecheck (cfg : config) (mem : bool) (tick : Z) (pb : pbuf_t) (db : dupe_db) (st : S)
    : option (pbuf_t * Z * dupe_db * S) :=
  addr ← dupe_addr pb;
  data ← dupe_data pb;
  let hash := keyhash data (keyhash addr 0) in
  let i := dupe_index hash in
  match List.find (dupe_match hash (tick - cfg.(dupefilter_storetime)) (addr ++ data))
             (bucket db.(dd_db) i) with
  | Some d =>
      let pb := add_flag F_DUPE pb in
      '(pb, st) ← sink_filter cfg tick pb st;
      Some (pb, F_DUPE,
            mk_dupe_db db.(dd_db) db.(dd_free) db.(dd_gauge) (count_dtype d.(d_dtype) db.(dd_types)), st)
  | None =>
      match dupecheck_append mem tick i hash (addr ++ data) db with
      | None => Some (pb, -1, db, st)
      | Some db => Some (pb, 0, dupecheck_mangle_store mem tick (addr ++ data) db, st)
      end
  end.

(** What [dupecheck_drain_worker] threads through its loop. *)
Record drain := mk_drain {
  dr_db : dupe_db;
  dr_sinks : S;
  dr_seqnum : Z;
  dr_dupe_seqnum : Z;
  dr_out : list pbuf_t;
  dr_out_dupe : list pbuf_t
}.

(** One packet: checked, recorded, numbered and appended to one of the chains. *)
Definition drain_packet (cfg : config) (mem : bool) (tick : Z) (d : drain) (pb : pbuf_t) : option drain :=
  '(pb, rc, db, st) ← dupecheck cfg mem tick pb d.(dr_db) d.(dr_sinks);
  if rc =? 0 then
    '(pb, st) ← (if cfg.(have_filtered_listeners)
                 then st ← sink_history cfg mem tick pb st; sink_filter cfg tick pb st
                 else Some (pb, st));
    let n := u32 (d.(dr_seqnum) + 1) in
    Some (mk_drain db st n d.(dr_dupe_seqnum) (d.(dr_out) ++ [set_pb_seqnum n pb]) d.(dr_out_dupe))
  else
    let n := u32 (d.(dr_dupe_seqnum) + 1) in
    Some (mk_drain db st d.(dr_seqnum) n d.(dr_out) (d.(dr_out_dupe) ++ [set_pb_seqnum n pb])).

Definition dupecheck_drain_worker (cfg : config) (mem : bool) (tick : Z) (d : drain) (incoming : list pbuf_t)
    : option drain :=
  fold_left (fun acc pb => d ← acc; drain_packet cfg mem tick d pb) incoming (Some d).

(** ** The thread *)

(** What the thread reads and takes from a worker. *)
Record worker_q := mk_worker_q {
  w_incoming : list pbuf_t;
  w_last_pbuf_seqnum : Z;
  w_last_pbuf_dupe_seqnum : Z
}.

Record dupe_thread := mk_dupe_thread {
  dt_db : dupe_db;
  dt_sinks : S;
  dt_queues : global_queues;
  dt_cleanup_tick : Z;
  dt_outcount : Z;
  dt_dupecount : Z
}.

(** The highest lag of a worker behind the end of a queue, -1 without workers. *)
Definition worker_pbuf_lag (seqnum : Z) (last : worker_q -> Z) (ws : list worker_q) : Z :=
  fold_left (fun m w => Z.max m (pbuf_seqnum_lag seqnum (last w))) ws (-1).

(** One turn of the thread's loop: every worker is drained, then the HTTP and
    the UDP worker; the chains are appended to the global queues; and when it is
    time the queues are purged and the database is cleaned. *)
Definition dupecheck_cycle (cfg : config) (mem : bool) (tick : Z) (ws : list worker_q)
    (http_worker udp_worker : option worker_q) (th : dupe_thread) : option (dupe_thread * list pbuf_t) :=
  let g := th.(dt_queues) in
  let all := map w_incoming ws ++ [from_option w_incoming [] http_worker]
             ++ [from_option w_incoming [] udp_worker] in
  d ← fold_left (fun acc l => d ← acc; dupecheck_drain_worker cfg mem tick d l) all
        (Some (mk_drain th.(dt_db) th.(dt_sinks) g.(g_seqnum) g.(g_dupe_seqnum) [] []));
  let g := mk_queues (g.(g_queue) ++ d.(dr_out)) (g.(g_dupe_queue) ++ d.(dr_out_dupe))
             (g.(g_count) + zlen d.(dr_out)) (g.(g_dupe_count) + zlen d.(dr_out_dupe))
             d.(dr_seqnum) d.(dr_dupe_seqnum) g.(g_count_limit) g.(g_dupe_count_limit) in
  let outcount := th.(dt_outcount) + zlen d.(dr_out) in
  let dupecount := th.(dt_dupecount) + zlen d.(dr_out_dupe) in
  if th.(dt_cleanup_tick) <=? tick then
    let '(g, freed) := global_pbuf_purger cfg tick false
      (worker_pbuf_lag g.(g_seqnum) w_last_pbuf_seqnum ws)
      (worker_pbuf_lag g.(g_dupe_seqnum) w_last_pbuf_dupe_seqnum ws) g in
    Some (mk_dupe_thread (dupecheck_cleanup cfg tick d.(dr_db)) d.(dr_sinks) g (tick + 10)
            outcount dupecount, freed)
  else Some (mk_dupe_thread d.(dr_db) d.(dr_sinks) g th.(dt_cleanup_tick) outcount dupecount, []).

(** [outgoing_lag_report] of a worker: the higher of its two lags. *)
Definition outgoing_lag_report (g : global_queues) (w : worker_q) : Z * Z * Z :=
  let lag1 := pbuf_seqnum_lag g.(g_seqnum) w.(w_last_pbuf_seqnum) in
  let lag2 := pbuf_seqnum_lag g.(g_dupe_seqnum) w.(w_last_pbuf_dupe_seqnum) in
  let r1 := if lag1 =? 2000000000 then 0 else lag1 in
  let r2 := if lag2 =? 2000000000 then 0 else lag2 in
  (lag1, lag2, if r1 <? r2 then r2 else r1).
End WithSinks.

(** * Mangled forms: the loops compute maps and filters *)

(** The forms under which a packet is stored besides its own: the reference for
    [dupecheck_mangle_store]. *)
Fixpoint drop_sp (s : list Z) : list Z :=
  match s with
  | [] => []
  | c :: t => if c =? ch_sp then drop_sp t else s
  end.
Definition trim_sp (s : list Z) : list Z := rev (drop_sp (rev s)).

Definition is_high (b : Z) : bool := 128 <=? b.

Definition mangled (ib : list Z) : list (list Z * Z) :=
  (if negb (zlen (trim_sp ib) =? zlen ib) then [(trim_sp ib, DTYPE_SPACE_TRIM)] else []) ++
  (if existsb is_high ib
   then [(List.filter (fun b => negb (is_high b)) ib, DTYPE_STRIP_8BIT);
         (map (fun b => b mod 128) ib, DTYPE_CLEAR_8BIT);
         (map (fun b => if is_high b then ch_sp else b) ib, DTYPE_SPACED_8BIT)] else []) ++
  (if existsb is_low ib
   then [(List.filter (fun b => negb (is_low b)) ib, DTYPE_LOWDATA_STRIP);
         (map (fun b => if is_low b then ch_sp else b) ib, DTYPE_LOWDATA_SPACED)] else []) ++
  (if existsb is_del ib
   then [(List.filter (fun b => negb (is_del b)) ib, DTYPE_DEL_STRIP);
         (map (fun b => if is_del b then ch_sp else b) ib, DTYPE_DEL_SPACED)] else []).

Lemma trim_len_spec ib : take (trim_len (length ib) ib) ib = trim_sp ib /\ (trim_len (length ib) ib <= length ib)%nat.
Proof.
  unfold trim_sp. induction ib as [|x ib IH] using rev_ind; [done|].
  rewrite length_app, Nat.add_1_r, rev_app_distr. cbn [trim_len rev app drop_sp].
  rewrite app_nth2, Nat.sub_diag by lia. cbn [nth].
  destruct (x =? ch_sp).
  - assert (forall n y, (n <= length ib)%nat -> trim_len n (ib ++ [y]) = trim_len n ib) as Ht.
    { induction n as [|n IHn]; intros y Hn; cbn [trim_len]; [done|].
      rewrite app_nth1 by lia. by rewrite IHn by lia. }
    rewrite Ht by lia. destruct IH as [IH Hle]. split; [|lia].
    rewrite take_app_le by lia. done.
  - split; [|lia]. cbn [rev]. rewrite rev_involutive.
    rewrite firstn_all2; [done|]. rewrite length_app. cbn. lia.
Qed.

Lemma byte_low7 b : is_byte b -> Z.land (schar b) 127 = b mod 128.
Proof.
  intros Hb. unfold is_byte in Hb. change 127 with (Z.ones 7). rewrite Z.land_ones by lia.
  unfold schar. split_if; [done|]. change (2 ^ 7) with 128.
  replace (b - 256) with (b + (-2) * 128) by lia. by rewrite Z.mod_add.
Qed.

Lemma byte_same b : is_byte b -> (schar b =? Z.land (schar b) 127) = negb (is_high b).
Proof.
  intros Hb. rewrite byte_low7 by done. unfold is_byte in Hb. unfold schar, is_high.
  destruct (b <? 128) eqn:E, (128 <=? b) eqn:E2; try lia; cbn.
  - rewrite Z.mod_small by lia. apply Z.eqb_refl.
  - apply Z.eqb_neq. pose proof (Z.mod_pos_bound b 128). lia.
Qed.

Lemma scan8_spec ib :
  bytes_ok ib ->
  fold_left scan8_step ib (mk_scan8 false false [] [] []) =
  mk_scan8 (existsb is_del ib) (existsb is_low ib) (List.filter (fun b => negb (is_high b)) ib)
    (map (fun b => b mod 128) ib) (map (fun b => if is_high b then ch_sp else b) ib).
Proof.
  intros Hib. induction ib as [|b ib IH] using rev_ind; [done|].
  apply Forall_app in Hib as [Hib Hb]. inversion Hb as [|? ? Hb' _]; subst.
  rewrite fold_left_app, IH by done. cbn [fold_left]. unfold scan8_step. cbn [s8_del s8_low s8_tb1 s8_tb2 s8_tb3].
  rewrite !existsb_app, filter_app, !map_app. cbn. rewrite !orb_false_r.
  rewrite !byte_same, !byte_low7, negb_involutive by done.
  unfold is_high. unfold is_byte in Hb'. destruct (128 <=? b) eqn:E; cbn; [by rewrite app_nil_r|].
  by rewrite Z.mod_small by lia.
Qed.

Lemma scan_drop_spec p ib :
  fold_left (scan_drop_step p) ib ([], []) =
  (List.filter (fun b => negb (p b)) ib, map (fun b => if p b then ch_sp else b) ib).
Proof.
  induction ib as [|b ib IH] using rev_ind; [done|].
  rewrite fold_left_app, IH, filter_app, map_app. cbn. unfold scan_drop_step.
  destruct (p b); cbn; by rewrite ?app_nil_r.
Qed.

Lemma filter_shorter {A} (p : A -> bool) l :
  negb (zlen (List.filter (fun x => negb (p x)) l) =? zlen l) = existsb p l.
Proof.
  assert (zlen (List.filter (fun x => negb (p x)) l) <= zlen l /\
          (zlen (List.filter (fun x => negb (p x)) l) = zlen l <-> existsb p l = false)) as [H1 H2].
  { induction l as [|x l [IH1 IH2]]; [done|]. cbn. destruct (p x); cbn; rewrite !zlen_cons.
    - split; [lia|]. split; [lia|done].
    - split; [lia|]. rewrite <- IH2. lia. }
  destruct (existsb p l); [|by apply negb_false_iff, Z.eqb_eq, H2].
  apply negb_true_iff, Z.eqb_neq. intros E%H2. done.
Qed.

(** [dupecheck_mangle_store] stores exactly the mangled forms, in order. *)
Lemma mangle_store_spec mem tick ib db :
  bytes_ok ib -> zlen ib <= PACKETLEN_MAX ->
  dupecheck_mangle_store mem tick ib db =
  fold_left (fun db f => dupecheck_add_buf mem tick f.1 f.2 db) (mangled ib) db.
Proof.
  intros Hib Hlen. unfold dupecheck_mangle_store, mangled.
  destruct (zlen ib >? PACKETLEN_MAX) eqn:E; [lia|].
  rewrite scan8_spec, !scan_drop_spec by done. cbn [s8_del s8_low s8_tb1 s8_tb2 s8_tb3 fst snd].
  destruct (trim_len_spec ib) as [Ht Hle]. rewrite Ht.
  assert (Z.of_nat (trim_len (length ib) ib) = zlen (trim_sp ib)) as ->
    by (rewrite <- Ht; unfold zlen; rewrite length_take; lia).
  rewrite !filter_shorter, !andb_diag, !fold_left_app.
  destruct (negb (zlen (trim_sp ib) =? zlen ib)), (existsb is_high ib), (existsb is_low ib), (existsb is_del ib);
    cbn [app fold_left fst snd]; reflexivity.
Qed.

(** * What the database remembers *)

Lemma dupe_index_range h : 0 <= dupe_index h < Z.of_nat dupe_buckets.
Proof.
  unfold dupe_index, dupe_buckets. rewrite Z2Nat.id by done. apply Z.mod_pos_bound. done.
Qed.

#[local] Opaque dupe_buckets.

(** Every record is in the chain of its hash, which is the hash of its packet,
    and no record is from the future; the gauge counts the records. *)
Record dupe_wf (tick : Z) (db : dupe_db) : Prop := {
  dw_record : forall i d, d ∈ bucket db.(dd_db) i ->
    d.(d_hash) = keyhash d.(d_packet) 0 /\ dupe_index d.(d_hash) = i /\ d.(d_t) <= tick;
  dw_gauge : db.(dd_gauge) = zlen (entries dupe_buckets db.(dd_db));
  dw_free : 0 <= db.(dd_free)
}.

(** The packet [k] was stored at [e] or later. *)
Definition seen_since (db : dupe_db) (k : list Z) (e : Z) : Prop :=
  exists d, d ∈ bucket db.(dd_db) (dupe_index (keyhash k 0)) /\ d.(d_packet) = k /\ e <= d.(d_t).

Lemma dupe_wf_mono tick tick' db : tick <= tick' -> dupe_wf tick db -> dupe_wf tick' db.
Proof.
  intros Ht [Hr Hg Hf]. split; [|done..]. intros i d Hd.
  destruct (Hr i d Hd) as (? & ? & ?). repeat split; (done || lia).
Qed.

Lemma dupe_wf_init tick : dupe_wf tick dupe_db_init.
Proof.
  split; cbn [dd_db dd_gauge dd_free dupe_db_init].
  - intros i d. rewrite bucket_empty. by intros ?%elem_of_nil.
  - by rewrite entries_empty.
  - lia.
Qed.

(** Replacing the chain of [k] by records of the same chain. *)
Lemma dupe_wf_set tick db k l f g ty :
  dupe_wf tick db ->
  (forall d, d ∈ l -> d.(d_hash) = keyhash d.(d_packet) 0 /\
     dupe_index d.(d_hash) = dupe_index (keyhash k 0) /\ d.(d_t) <= tick) ->
  g = db.(dd_gauge) + zlen l - zlen (bucket db.(dd_db) (dupe_index (keyhash k 0))) -> 0 <= f ->
  dupe_wf tick (mk_dupe_db (set_bucket db.(dd_db) (dupe_index (keyhash k 0)) l) f g ty).
Proof.
  intros [Hr Hg Hf] Hl Hn Hf'. split; cbn [dd_db dd_gauge dd_free]; [| |done].
  - intros i d. destruct (decide (dupe_index (keyhash k 0) = i)) as [<-|Hi].
    + rewrite bucket_set_eq. apply Hl.
    + rewrite bucket_set_ne by done. apply Hr.
  - rewrite zlen_entries_set by apply dupe_index_range. lia.
Qed.

Lemma seen_set db k l f g ty k' e :
  seen_since (mk_dupe_db (set_bucket db.(dd_db) (dupe_index (keyhash k 0)) l) f g ty) k' e <->
  if bool_decide (dupe_index (keyhash k' 0) = dupe_index (keyhash k 0))
  then exists d, d ∈ l /\ d.(d_packet) = k' /\ e <= d.(d_t) else seen_since db k' e.
Proof.
  unfold seen_since. cbn [dd_db]. case_bool_decide as E.
  - by rewrite E, bucket_set_eq.
  - by rewrite bucket_set_ne by congruence.
Qed.

(** Appending a record. *)
Lemma dupe_append_spec tick db k ty f g dtype :
  dupe_wf tick db -> 0 <= f -> g = db.(dd_gauge) + 1 ->
  let db' := mk_dupe_db (set_bucket db.(dd_db) (dupe_index (keyhash k 0))
    (bucket db.(dd_db) (dupe_index (keyhash k 0)) ++ [mk_dupe (keyhash k 0) tick dtype k])) f g ty in
  dupe_wf tick db' /\ forall k' e, seen_since db' k' e <-> seen_since db k' e \/ (k' = k /\ e <= tick).
Proof.
  intros Hwf Hf Hg db'. split.
  - apply dupe_wf_set; [done| | |done].
    + intros d [Hd|Hd]%elem_of_app; [by apply Hwf|]. apply list_elem_of_singleton in Hd as ->.
      cbn. repeat split; (done || lia).
    + rewrite zlen_app. change (zlen [_]) with 1. lia.
  - intros k' e. unfold db'. rewrite seen_set. case_bool_decide as E.
    + unfold seen_since. rewrite E. setoid_rewrite elem_of_app. setoid_rewrite list_elem_of_singleton.
      split.
      * intros (d & [Hd| ->] & Hp & He); [left; eauto|right]. cbn in *. done.
      * intros [(d & Hd & Hp & He)|[-> He]]; [eauto|]. eexists. split; [by right|]. done.
    + split; [by left|]. intros [?|[-> _]]; done.
Qed.

Lemma dupe_refresh_Some hash tick s l l' :
  dupe_refresh hash tick s l = Some l' ->
  exists a d b, l = a ++ d :: b /\ l' = a ++ set_d_t tick d :: b /\ d.(d_hash) = hash /\ d.(d_packet) = s.
Proof.
  revert l'. induction l as [|d l IH]; intros l'; cbn [dupe_refresh]; [done|].
  destruct (_ && _) eqn:E.
  - intros [= <-]. exists [], d, l. beq_subst. done.
  - intros (l1 & H1 & ->)%fmap_Some. destruct (IH l1 H1) as (a & d1 & b & -> & -> & ?).
    by exists (d :: a), d1, b.
Qed.

Lemma dupe_refresh_None hash tick s l :
  dupe_refresh hash tick s l = None -> forall d, d ∈ l -> d.(d_hash) = hash -> d.(d_packet) <> s.
Proof.
  induction l as [|d l IH]; cbn [dupe_refresh]; [by intros _ d ?%elem_of_nil|].
  destruct (_ && _) eqn:E; [done|]. intros H%fmap_None d' [->|Hd]%elem_of_cons; [|by apply IH].
  intros Hh Hp. rewrite Hh, Hp, !Z.eqb_refl in E. unfold beq in E. by rewrite bool_decide_eq_true_2 in E.
Qed.

(** Storing one form of a packet: everything remembered stays, and the form is
    remembered from now on. *)
Lemma add_buf_spec tick db s dtype :
  dupe_wf tick db ->
  let db' := dupecheck_add_buf true tick s dtype db in
  dupe_wf tick db' /\ forall k e, seen_since db' k e <-> seen_since db k e \/ (k = s /\ e <= tick).
Proof.
  intros Hwf. unfold dupecheck_add_buf. cbv zeta.
  destruct (dupe_refresh _ _ _ _) as [l|] eqn:E.
  - apply dupe_refresh_Some in E as (a & d & b & Hb & -> & Hh & Hp).
    assert (forall x, x ∈ a ++ d :: b -> x ∈ bucket (dd_db db) (dupe_index (keyhash s 0))) as Hin
      by (by rewrite Hb).
    assert (d.(d_t) <= tick) as Hdt by (eapply Hwf, Hin, elem_of_app; right; apply elem_of_cons; by left).
    split.
    + apply dupe_wf_set; [done| | |apply Hwf].
      * intros x [Hx|[->|Hx]%elem_of_cons]%elem_of_app.
        -- apply Hwf, Hin, elem_of_app. by left.
        -- cbn. rewrite Hp, Hh. repeat split; (done || lia).
        -- apply Hwf, Hin, elem_of_app. right. apply elem_of_cons. by right.
      * rewrite Hb, !zlen_app, !zlen_cons. lia.
    + intros k e. rewrite seen_set. case_bool_decide as E.
      * unfold seen_since. rewrite E, Hb. setoid_rewrite elem_of_app. setoid_rewrite elem_of_cons.
        split.
        -- intros (x & [Hx|[->|Hx]] & Hk & He); [left; exists x; tauto|right|left; exists x; tauto].
           cbn in Hk, He. split; [congruence|done].
        -- intros [(x & [Hx|[->|Hx]] & Hk & He)|[-> He]]; [exists x; tauto| |exists x; tauto|];
             (eexists; split; [right; by left|]); cbn; split; (done || lia).
      * split; [by left|]. intros [?|[-> _]]; done.
  - unfold dupecheck_db_alloc. destruct (dd_free db >? 0) eqn:Ef; cbn [dd_db dd_free dd_gauge dd_types];
      apply dupe_append_spec; destruct Hwf; (done || lia).
Qed.

Lemma add_bufs_spec tick forms db :
  dupe_wf tick db ->
  let db' := fold_left (fun db f => dupecheck_add_buf true tick f.1 f.2 db) forms db in
  dupe_wf tick db' /\
  forall k e, seen_since db' k e <-> seen_since db k e \/ (k ∈ map fst forms /\ e <= tick).
Proof.
  revert db. induction forms as [|f forms IH]; intros db Hwf; cbn [fold_left map].
  - split; [done|]. intros k e. rewrite elem_of_nil. tauto.
  - destruct (add_buf_spec tick db f.1 f.2 Hwf) as [Hwf1 H1].
    destruct (IH _ Hwf1) as [Hwf2 H2]. split; [done|]. intros k e. rewrite H2, H1, elem_of_cons. tauto.
Qed.

(** Every form under which a packet is remembered. *)
Definition forms (k : list Z) : list (list Z) := k :: map fst (mangled k).

(** The canonical form of a packet. *)
Definition dupe_key (pb : pbuf_t) : option (list Z) :=
  addr ← dupe_addr pb; data ← dupe_data pb; Some (addr ++ data).

(** What the input side guarantees of a packet: the header and the payload lie in
    the buffer, which holds bytes, and together they are not longer than a
    packet may be, and so do the names a position is stored under.  The hash of the header must not be 0, the value by which
    [keyhash] is told to start afresh. *)
Record dupe_input (pb : pbuf_t) : Prop := {
  di_bytes : bytes_ok pb.(pb_data);
  di_addr : 0 <= pb.(pb_dstcall_end_or_ssid) <= pb.(pb_info_start);
  di_data : pb.(pb_info_start) + 2 <= pb.(pb_packet_len) <= zlen pb.(pb_data);
  di_len : pb.(pb_packet_len) <= PACKETLEN_MAX;
  di_hash : forall addr, dupe_addr pb = Some addr -> keyhash addr 0 <> 0;
  di_src : CALLSIGNLEN_MAX <= zlen pb.(pb_data);
  di_name : has pb.(pb_packettype) T_OBJECT || has pb.(pb_packettype) T_ITEM = true ->
    pb.(pb_info_start) + 1 + (CALLSIGNLEN_MAX + 1) <= zlen pb.(pb_data);
  di_srcname : 0 <= pb.(pb_srcname) /\ 0 <= pb.(pb_srcname_len) /\
    pb.(pb_srcname) + pb.(pb_srcname_len) <= zlen pb.(pb_data)
}.

Lemma dupe_input_flag m pb : dupe_input pb -> dupe_input (add_flag m pb).
Proof. by intros []. Qed.

(** The filter module may give a packet a position it did not have. *)
Definition relocated (pb pb' : pbuf_t) : Prop :=
  pb' = pb \/ exists lat cos lng,
    pb' = add_flag F_HASPOS (set_pb_cos_lat cos (set_pb_lng lng (set_pb_lat lat pb))).

(** What the position history and the filter module promise the checker: they are
    defined on the packets of the input side and change no more than that. *)
Class SinkLaws (S : Type) `{PacketSinks S} : Prop := {
  sl_history : forall cfg mem tick pb st, dupe_input pb -> is_Some (sink_history cfg mem tick pb st);
  sl_filter : forall cfg tick pb st, dupe_input pb -> is_Some (sink_filter cfg tick pb st);
  sl_relocated : forall cfg tick pb st pb' st', sink_filter cfg tick pb st = Some (pb', st') -> relocated pb pb'
}.

Lemma dupe_key_parts pb :
  dupe_input pb ->
  exists addr data, dupe_addr pb = Some addr /\ dupe_data pb = Some data /\
    keyhash data (keyhash addr 0) = keyhash (addr ++ data) 0 /\
    bytes_ok (addr ++ data) /\ zlen (addr ++ data) <= PACKETLEN_MAX.
Proof.
  intros [Hb Ha Hd Hl Hh]. unfold dupe_addr, dupe_data in *. rewrite !rd_range_in in * by lia.
  eexists _, _. split; [done|]. split; [done|]. split; [apply keyhash_continue; by apply Hh|].
  split; [apply bytes_ok_app; by apply bytes_ok_slice|].
  rewrite zlen_app, !zlen_slice by lia. unfold PACKETLEN_MAX in *. lia.
Qed.

(** Cleaning keeps what is remembered in the window. *)
Lemma cleanup_spec cfg tick db :
  dupe_wf tick db -> 0 <= cfg.(dupefilter_storetime) ->
  dupe_wf tick (dupecheck_cleanup cfg tick db) /\
  forall k e, tick - cfg.(dupefilter_storetime) <= e ->
    seen_since (dupecheck_cleanup cfg tick db) k e <-> seen_since db k e.
Proof.
  intros [Hr Hg Hf] Hs. unfold dupecheck_cleanup, seen_since. cbn [dd_db].
  set (keep := dupe_keep cfg tick).
  assert (zlen (entries dupe_buckets (sweep dupe_buckets (List.filter keep) (dd_db db)))
          <= zlen (entries dupe_buckets (dd_db db))) as Hle.
  { unfold entries. generalize (seq 0 dupe_buckets). intros ks.
    induction ks as [|i ks IH]; [done|]. cbn [map concat].
    rewrite !zlen_app, bucket_sweep. split_if; [|lia].
    pose proof (sublist_length _ _ (filter_sublist keep (bucket (dd_db db) (Z.of_nat i)))).
    unfold zlen in *. lia. }
  split; [split; cbn [dd_db dd_gauge dd_free]|].
  - intros i d. rewrite bucket_sweep. split_if; [|apply Hr].
    intros Hd. by eapply Hr, elem_of_sublist, filter_sublist.
  - lia.
  - lia.
  - intros k e He. rewrite bucket_sweep. pose proof (dupe_index_range (keyhash k 0)) as Hi.
    split_if; [|zbool]. split.
    + intros (d & Hd & ?). exists d. split; [|done]. by eapply elem_of_sublist, filter_sublist.
    + intros (d & Hd & Hk & Ht). exists d. split; [|done]. apply list_elem_of_In, filter_In.
      split; [by apply list_elem_of_In|]. destruct (Hr _ _ Hd) as (_ & _ & Hdt).
      unfold keep, dupe_keep. apply negb_true_iff, orb_false_iff. lia.
Qed.

Section Decision.
Context {S : Type} `{SinkLaws S}.

(** One packet: what is answered, and what is remembered afterwards. *)
Lemma dupecheck_spec cfg tick pb db st :
  dupe_input pb -> dupe_wf tick db -> 0 <= cfg.(dupefilter_storetime) ->
  exists k pb' rc db' st', dupe_key pb = Some k /\
    dupecheck cfg true tick pb db st = Some (pb', rc, db', st') /\ dupe_wf tick db' /\
    ((rc = F_DUPE /\ relocated (add_flag F_DUPE pb) pb' /\
      seen_since db k (tick - cfg.(dupefilter_storetime)) /\
      (forall k' e, seen_since db' k' e <-> seen_since db k' e)) \/
     (rc = 0 /\ pb' = pb /\ ~ seen_since db k (tick - cfg.(dupefilter_storetime)) /\
      (forall k' e, seen_since db' k' e <-> seen_since db k' e \/ (k' ∈ forms k /\ e <= tick)))).
Proof.
  intros Hin Hwf Hst. destruct (dupe_key_parts pb Hin) as (addr & data & Ha & Hd & Hh & Hb & Hl).
  exists (addr ++ data). unfold dupe_key, dupecheck. rewrite Ha, Hd. cbn [mbind option_bind]. rewrite Hh.
  set (k := addr ++ data) in *. set (e0 := tick - dupefilter_storetime cfg).
  destruct (List.find _ _) as [d|] eqn:E.
  - apply find_some in E as [Hd1 Hd2]. apply list_elem_of_In in Hd1. unfold dupe_match in Hd2.
    destruct (sl_filter cfg tick (add_flag F_DUPE pb) st) as [[pb' st'] Hs]; [by apply dupe_input_flag|].
    rewrite Hs. apply sl_relocated in Hs. cbn [mbind option_bind].
    eexists _, _, _, _. split; [done|]. split; [done|]. split; [by destruct Hwf|]. left.
    split; [done|]. split; [done|]. split; [|done].
    exists d. split; [done|]. apply andb_true_iff in Hd2 as [Hd2 Hp]. apply bool_decide_eq_true in Hp.
    split; [done|]. lia.
  - assert (~ seen_since db k e0) as Hns.
    { intros (d & Hd1 & Hp & Ht). apply list_elem_of_In in Hd1.
      pose proof (find_none _ _ E _ Hd1) as Hm. apply list_elem_of_In in Hd1.
      destruct (dw_record _ _ Hwf _ _ Hd1) as (Hhd & _ & _). unfold dupe_match in Hm.
      rewrite Hhd, Hp, !Z.eqb_refl in Hm. unfold beq in Hm. rewrite bool_decide_eq_true_2 in Hm by done.
      destruct (d_t d >=? e0) eqn:Et; [done|]. lia. }
    unfold dupecheck_append, dupecheck_db_alloc.
    assert (exists f g ty, (if dd_free db >? 0
      then Some (mk_dupe_db (dd_db db) (dd_free db - 1) (dd_gauge db + 1) (dd_types db))
      else Some (mk_dupe_db (dd_db db) (dd_free db) (dd_gauge db + 1) (dd_types db)))
      = Some (mk_dupe_db (dd_db db) f g ty) /\ 0 <= f /\ g = dd_gauge db + 1) as (f & g & ty & -> & Hf & Hg).
    { destruct Hwf as [_ _ Hf]. destruct (dd_free db >? 0) eqn:Ef; eexists _, _, _; split; [done| |done|];
        split; (done || lia). }
    cbn [mbind option_bind dd_db dd_free dd_gauge dd_types].
    destruct (dupe_append_spec tick db k ty f g 0 Hwf Hf Hg) as [Hwf1 Hs1].
    rewrite mangle_store_spec by done.
    destruct (add_bufs_spec tick (mangled k) _ Hwf1) as [Hwf2 Hs2].
    eexists _, _, _, _. split; [done|]. split; [done|]. split; [exact Hwf2|]. right.
    split; [done|]. split; [done|]. split; [done|]. intros k' e. rewrite Hs2, Hs1. unfold forms.
    rewrite elem_of_cons. tauto.
Qed.

(** ** The history of the checker *)

(** What the checking thread does over time: it checks packets and, now and
    then, cleans the database. *)
Inductive dupe_event : Type :=
  | Packet (tick : Z) (pb : pbuf_t)
  | Cleanup (tick : Z).

Definition event_tick (ev : dupe_event) : Z :=
  match ev with Packet t _ | Cleanup t => t end.

(** The return codes for the packets of a history. *)
Fixpoint dupe_run (cfg : config) (evs : list dupe_event) (db : dupe_db) (st : S) : option (list Z) :=
  match evs with
  | [] => Some []
  | Cleanup t :: evs => dupe_run cfg evs (dupecheck_cleanup cfg t db) st
  | Packet t pb :: evs =>
      '(_, rc, db, st) ← dupecheck cfg true t pb db st;
      cons rc <$> dupe_run cfg evs db st
  end.

(** The specification: a packet is a duplicate when a packet that was not one
    was accepted at most [storetime] seconds ago and is known in that form.
    [acc] is the accepted packets with their times. *)
Definition spec_dupe (storetime tick : Z) (acc : list (Z * list Z)) (k : list Z) : bool :=
  existsb (fun a => (tick - storetime <=? a.1) && bool_decide (k ∈ forms a.2)) acc.

Fixpoint spec_run (storetime : Z) (evs : list dupe_event) (acc : list (Z * list Z)) : list Z :=
  match evs with
  | [] => []
  | Cleanup _ :: evs => spec_run storetime evs acc
  | Packet t pb :: evs =>
      let k := default [] (dupe_key pb) in
      if spec_dupe storetime t acc k then F_DUPE :: spec_run storetime evs acc
      else 0 :: spec_run storetime evs ((t, k) :: acc)
  end.

(** The database remembers the forms of the accepted packets, as far back as the
    window reaches. *)
Definition remembers (storetime tick : Z) (db : dupe_db) (acc : list (Z * list Z)) : Prop :=
  forall k e, tick - storetime <= e ->
    seen_since db k e <-> exists a, a ∈ acc /\ k ∈ forms a.2 /\ e <= a.1.

Fixpoint ticks_from (t0 : Z) (evs : list dupe_event) : Prop :=
  match evs with
  | [] => True
  | ev :: evs => t0 <= event_tick ev /\ ticks_from (event_tick ev) evs
  end.

Definition event_ok (ev : dupe_event) : Prop :=
  match ev with Packet _ pb => dupe_input pb | Cleanup _ => True end.

Lemma spec_dupe_seen storetime tick db acc k :
  remembers storetime tick db acc ->
  (seen_since db k (tick - storetime) <-> spec_dupe storetime tick acc k = true).
Proof.
  intros Hr. rewrite (Hr k (tick - storetime)) by lia. unfold spec_dupe. rewrite existsb_exists. split.
  - intros (a & Ha & Hk & He). exists a. split; [by apply list_elem_of_In|].
    rewrite bool_decide_eq_true_2 by done. apply andb_true_iff. split; [lia|done].
  - intros (a & Ha & Hb). apply andb_true_iff in Hb as [H1 H2]. apply bool_decide_eq_true in H2.
    exists a. split; [by apply list_elem_of_In|]. split; [done|lia].
Qed.

Lemma dupe_run_spec cfg evs t0 db st acc :
  0 <= cfg.(dupefilter_storetime) -> Forall event_ok evs -> ticks_from t0 evs ->
  dupe_wf t0 db -> remembers cfg.(dupefilter_storetime) t0 db acc ->
  dupe_run cfg evs db st = Some (spec_run cfg.(dupefilter_storetime) evs acc).
Proof.
  intros Hst. revert t0 db st acc. induction evs as [|ev evs IH]; intros t0 db st acc Hok Ht Hwf Hr; [done|].
  inversion Hok as [|? ? Hev Hok']; subst. destruct Ht as [Ht0 Ht].
  apply (dupe_wf_mono _ _ _ Ht0) in Hwf.
  assert (remembers (dupefilter_storetime cfg) (event_tick ev) db acc) as Hr'
    by (intros k e He; apply Hr; lia). clear Hr.
  destruct ev as [t pb|t]; cbn [dupe_run spec_run event_tick] in *.
  - destruct (dupecheck_spec cfg t pb db st Hev Hwf Hst) as (k & pb' & rc & db' & st' & Hk & Hd & Hwf' & Hc).
    rewrite Hd, Hk. cbn [mbind option_bind default id].
    pose proof (spec_dupe_seen _ _ _ _ k Hr') as Hs.
    destruct Hc as [(-> & _ & Hseen & Hsame)|(-> & _ & Hns & Hnew)].
    + rewrite (proj1 Hs Hseen). rewrite (IH t db' st' acc); try done.
      intros k' e He. rewrite Hsame. by apply Hr'.
    + destruct (spec_dupe _ _ _ _) eqn:E; [exfalso; by apply Hns, Hs|].
      rewrite (IH t db' st' ((t, k) :: acc)); try done.
      intros k' e He. rewrite Hnew, (Hr' k' e He). setoid_rewrite elem_of_cons. split.
      * intros [(a & Ha & Hf)|[Hf Hle]]; [exists a; tauto|]. exists (t, k). cbn. tauto.
      * intros (a & [->|Ha] & Hf & Hle); [right; done|left; eauto].
  - destruct (cleanup_spec cfg t db Hwf Hst) as [Hwf' Hsame].
    apply (IH t); [done|exact Ht|exact Hwf'|]. intros k e He. rewrite Hsame by done. by apply Hr'.
Qed.
End Decision.

(** C1: Duplicate elimination is exact.  Over any history of packets and database
    cleanings with a clock that does not run backwards, starting from an empty
    database, a packet is answered [F_DUPE] exactly when some packet accepted no
    more than [dupefilter_storetime] seconds ago had the same source,
    destination and payload, or is turned into them by trimming spaces,
    stripping, clearing or blanking 8-bit characters, or dropping or blanking
    control characters or DELs; every other packet is accepted. *)
Theorem dupecheck_history {S : Type} `{SinkLaws S} cfg evs t0 (st : S) :
  0 <= cfg.(dupefilter_storetime) -> Forall event_ok evs -> ticks_from t0 evs ->
  dupe_run cfg evs dupe_db_init st = Some (spec_run cfg.(dupefilter_storetime) evs []).
Proof.
  intros Hst Hok Ht. apply (dupe_run_spec cfg evs t0); try done; [apply dupe_wf_init|].
  intros k e He. split.
  - intros (d & Hd & _). cbn in Hd. rewrite bucket_empty in Hd. by apply elem_of_nil in Hd.
  - intros (a & Ha & _). by apply elem_of_nil in Ha.
Qed.

(** ** Order and numbering *)

(** The packets of [l], in order, each in one of two lists: renumbered, and
    possibly with a position, in [out], or renumbered, and if it was recognised
    flagged, in [dupe]. *)
Inductive routed : list pbuf_t -> list pbuf_t -> list pbuf_t -> Prop :=
  | routed_nil : routed [] [] []
  | routed_out l out dupe pb pb' n :
      relocated pb pb' ->
      routed l out dupe -> routed (l ++ [pb]) (out ++ [set_pb_seqnum n pb']) dupe
  | routed_dupe l out dupe pb pb' n :
      pb' = pb \/ relocated (add_flag F_DUPE pb) pb' ->
      routed l out dupe -> routed (l ++ [pb]) out (dupe ++ [set_pb_seqnum n pb']).

(** Consecutive [uint32_t] numbers after [s]. *)
Definition numbered (s : Z) (l : list pbuf_t) : Prop :=
  forall i pb, l !! i = Some pb -> pb.(pb_seqnum) = u32 (s + 1 + Z.of_nat i).

Lemma numbered_snoc s l pb :
  numbered s l -> pb.(pb_seqnum) = u32 (s + 1 + zlen l) -> numbered s (l ++ [pb]).
Proof.
  intros Hn Hp i x Hi. apply lookup_app_Some in Hi as [Hi|[Hle Hi]]; [by apply Hn|].
  apply list_lookup_singleton_Some in Hi as [Hi <-]. rewrite Hp. unfold zlen. do 2 f_equal. lia.
Qed.

Section Drain.
Context {S : Type} `{SinkLaws S}.

(** The invariant of the draining loop: [done] packets were handled. *)
Record drain_inv (s sd : Z) (handled : list pbuf_t) (d : @drain S) : Prop := {
  drn_routed : routed handled d.(dr_out) d.(dr_out_dupe);
  drn_out : numbered s d.(dr_out);
  drn_dupe : numbered sd d.(dr_out_dupe);
  drn_seq : d.(dr_seqnum) = u32 (s + zlen d.(dr_out));
  drn_dupe_seq : d.(dr_dupe_seqnum) = u32 (sd + zlen d.(dr_out_dupe))
}.

Lemma dupecheck_packet cfg mem tick pb db st pb' rc db' st' :
  dupecheck cfg mem tick pb db st = Some (pb', rc, db', st') ->
  (rc = 0 -> pb' = pb) /\ (pb' = pb \/ relocated (add_flag F_DUPE pb) pb').
Proof.
  unfold dupecheck. intros H'. inv_bind H'. inv_bind H'. destruct (List.find _ _).
  - inv_bind H'. destruct x1 as [pb1 st1]. injection H' as <- <- <- <-. apply sl_relocated in E1.
    split; [done|by right].
  - destruct (dupecheck_append _ _ _ _ _ _); injection H' as <- <- <- <-; split; auto.
Qed.

Lemma drain_packet_inv cfg mem tick s sd handled d pb d' :
  drain_inv s sd handled d -> drain_packet cfg mem tick d pb = Some d' ->
  drain_inv s sd (handled ++ [pb]) d'.
Proof.
  intros [Hr Ho Hd Hs Hsd] H'. unfold drain_packet in H'. inv_bind H'.
  destruct x as [[[pb' rc] db'] st']. apply dupecheck_packet in E as [E0 E1].
  assert (forall a b c, u32 (u32 (a + b) + 1) = u32 (a + 1 + b) /\ u32 (a + (b + c)) = u32 (a + b + c)) as Hu.
  { intros. rewrite u32_add_l. split; f_equal; lia. }
  destruct (rc =? 0) eqn:Erc.
  - inv_bind H'. destruct x as [pb2 st2]. rewrite E0 in E by lia.
    assert (relocated pb pb2) as Hrel.
    { destruct (have_filtered_listeners cfg); [inv_bind E; by eapply sl_relocated|]. injection E as <- <-. by left. }
    injection H' as <-. split; cbn [dr_out dr_out_dupe dr_seqnum dr_dupe_seqnum]; try done.
    + by apply routed_out.
    + apply numbered_snoc; [done|]. cbn. rewrite Hs. apply (Hu s (zlen (dr_out d)) 0).
    + rewrite zlen_app. change (zlen [_]) with 1. rewrite Hs, u32_add_l. f_equal. lia.
  - injection H' as <-. split; cbn [dr_out dr_out_dupe dr_seqnum dr_dupe_seqnum]; try done.
    + by apply routed_dupe.
    + apply numbered_snoc; [done|]. cbn. rewrite Hsd. apply (Hu sd (zlen (dr_out_dupe d)) 0).
    + rewrite zlen_app. change (zlen [_]) with 1. rewrite Hsd, u32_add_l. f_equal. lia.
Qed.

Lemma fold_option_None {A B} (f : A -> B -> option A) l :
  fold_left (fun acc x => a ← acc; f a x) l None = None.
Proof. induction l; [done|]. cbn. done. Qed.

Lemma drain_worker_inv cfg mem tick s sd incoming handled d d' :
  drain_inv s sd handled d -> dupecheck_drain_worker cfg mem tick d incoming = Some d' ->
  drain_inv s sd (handled ++ incoming) d'.
Proof.
  unfold dupecheck_drain_worker. revert handled d.
  induction incoming as [|pb l IH]; intros handled d Hi Hd; cbn [fold_left] in Hd.
  - injection Hd as <-. by rewrite app_nil_r.
  - cbn [mbind option_bind] in Hd. destruct (drain_packet cfg mem tick d pb) as [d1|] eqn:E1.
    + replace (handled ++ pb :: l) with ((handled ++ [pb]) ++ l) by (rewrite <- app_assoc; done).
      apply (IH _ d1); [by eapply drain_packet_inv|done].
    + by rewrite fold_option_None in Hd.
Qed.

Lemma drain_all_inv cfg mem tick s sd ls handled d d' :
  drain_inv s sd handled d ->
  fold_left (fun acc l => d ← acc; dupecheck_drain_worker cfg mem tick d l) ls (Some d) = Some d' ->
  drain_inv s sd (handled ++ concat ls) d'.
Proof.
  revert handled d. induction ls as [|l ls IH]; intros handled d Hi Hd; cbn [fold_left concat] in *.
  - injection Hd as <-. by rewrite app_nil_r.
  - cbn [mbind option_bind] in Hd. destruct (dupecheck_drain_worker cfg mem tick d l) as [d1|] eqn:E1.
    + rewrite app_assoc. apply (IH _ d1); [by eapply drain_worker_inv|done].
    + by rewrite fold_option_None in Hd.
Qed.
End Drain.

(** ** The purger *)

(** What is freed is a prefix of the queue, every packet of which is older than
    the limit and further behind than the slowest worker; [limit] packets stay. *)
Lemma purge_queue_spec limit expire seqnum lag q count f r :
  purge_queue limit expire seqnum lag q count = (f, r) ->
  q = f ++ r /\ Forall (fun pb => pb.(pb_t) < expire /\ lag < pbuf_seqnum_lag seqnum pb.(pb_seqnum)) f /\
  (limit <= count -> limit <= count - zlen f).
Proof.
  revert count f. induction q as [|pb q IH]; intros count f H; cbn [purge_queue] in H.
  { injection H as <- <-. split; [done|]. split; [constructor|]. rewrite zlen_nil. lia. }
  assert (forall f' r', ([], pb :: q) = (f', r') ->
    pb :: q = f' ++ r' /\
    Forall (fun pb => pb.(pb_t) < expire /\ lag < pbuf_seqnum_lag seqnum pb.(pb_seqnum)) f' /\
    (limit <= count -> limit <= count - zlen f')) as Hstop.
  { intros f' r' [= <- <-]. split; [done|]. split; [constructor|]. rewrite zlen_nil. lia. }
  destruct (count >? limit) eqn:E1; [|by apply Hstop].
  destruct (pb_t pb >=? expire) eqn:E2; [by apply Hstop|].
  destruct (lag >=? pbuf_seqnum_lag seqnum (pb_seqnum pb)) eqn:E3; [by apply Hstop|].
  destruct (purge_queue limit expire seqnum lag q (count - 1)) as [f1 r1] eqn:Ep.
  injection H as <- <-. destruct (IH _ _ Ep) as (-> & Hf & Hc). split; [done|]. split.
  - constructor; [lia|done].
  - rewrite zlen_cons. lia.
Qed.

Lemma worker_lag_le seqnum last ws w :
  w ∈ ws -> pbuf_seqnum_lag seqnum (last w) <= worker_pbuf_lag seqnum last ws.
Proof.
  unfold worker_pbuf_lag. generalize (-1) as m. induction ws as [|w0 ws IH]; intros m Hw; cbn [fold_left];
    [by apply elem_of_nil in Hw|].
  assert (forall ws m, m <= fold_left (fun m w => Z.max m (pbuf_seqnum_lag seqnum (last w))) ws m) as Hmono.
  { clear. induction ws as [|x ws IH]; intros m; cbn [fold_left]; [lia|]. specialize (IH (Z.max m (pbuf_seqnum_lag seqnum (last x)))). lia. }
  apply elem_of_cons in Hw as [->|Hw]; [|by apply IH].
  specialize (Hmono ws (Z.max m (pbuf_seqnum_lag seqnum (last w0)))). lia.
Qed.

(** A packet that some worker is at, and every packet after it, stays. *)
Lemma purge_queue_keeps limit expire seqnum lag q count f r a pb b :
  purge_queue limit expire seqnum lag q count = (f, r) ->
  q = a ++ pb :: b -> pbuf_seqnum_lag seqnum pb.(pb_seqnum) <= lag ->
  exists a', r = a' ++ pb :: b.
Proof.
  intros H Hq Hlag. destruct (purge_queue_spec _ _ _ _ _ _ _ _ H) as (Hfr & Hf & _).
  rewrite Hq in Hfr. apply app_eq_app in Hfr as (l & [[-> Hr]|[-> Hr]]).
  - destruct l as [|x l]; cbn in Hr; [by exists []|]. by exists (x :: l).
  - destruct l as [|x l]; cbn in Hr.
    + exists []. by rewrite <- Hr.
    + injection Hr as <- ->. apply Forall_app in Hf as [_ Hf]. inversion Hf; subst. lia.
Qed.

(** ** Draining is defined *)

Section Total.
Context {S : Type} `{SinkLaws S}.

Lemma drain_packet_total cfg mem tick (d : @drain S) pb :
  dupe_input pb -> exists d', drain_packet cfg mem tick d pb = Some d'.
Proof.
  intros Hpb. unfold drain_packet, dupecheck.
  destruct (dupe_key_parts pb Hpb) as (addr & data & -> & -> & _). cbn [mbind option_bind].
  destruct (List.find _ _).
  - destruct (sl_filter cfg tick (add_flag F_DUPE pb) (dr_sinks d)) as [[pb1 st1] ->]; [by apply dupe_input_flag|].
    cbn [mbind option_bind]. change (F_DUPE =? 0) with false. eauto.
  - destruct (dupecheck_append _ _ _ _ _ _); cbn [mbind option_bind]; [|eauto].
    rewrite Z.eqb_refl. destruct (have_filtered_listeners cfg); cbn [mbind option_bind]; [|eauto].
    destruct (sl_history cfg mem tick pb (dr_sinks d) Hpb) as [st1 ->]. cbn [mbind option_bind].
    destruct (sl_filter cfg tick pb st1 Hpb) as [[pb2 st2] ->]. cbn. eauto.
Qed.

Lemma fold_option_total {A B} (P : B -> Prop) (f : A -> B -> option A) l a :
  (forall a b, P b -> exists a', f a b = Some a') -> Forall P l ->
  exists a', fold_left (fun acc x => a ← acc; f a x) l (Some a) = Some a'.
Proof.
  intros Hf Hl. revert a. induction Hl as [|b l Hb Hl IH]; intros a; cbn [fold_left]; [eauto|].
  cbn [mbind option_bind]. destruct (Hf a b Hb) as [a' ->]. apply IH.
Qed.

Lemma drain_all_total cfg mem tick ls (d : @drain S) :
  Forall (Forall dupe_input) ls ->
  exists d', fold_left (fun acc l => d ← acc; dupecheck_drain_worker cfg mem tick d l) ls (Some d) = Some d'.
Proof.
  intros Hl. apply (fold_option_total (Forall dupe_input)); [|done]. intros d0 l Hl0.
  unfold dupecheck_drain_worker. apply (fold_option_total dupe_input); [|done].
  intros. by apply drain_packet_total.
Qed.
End Total.

(** The queues a turn of the thread leaves behind, as far as they are determined
    by what was appended ([out], [dupe]) and freed ([f1], [f2]). *)
Record cycle_effect (g g' : global_queues) (out dupe f1 f2 : list pbuf_t) : Prop := {
  ce_out : numbered g.(g_seqnum) out;
  ce_dupe : numbered g.(g_dupe_seqnum) dupe;
  ce_seq : g'.(g_seqnum) = u32 (g.(g_seqnum) + zlen out);
  ce_dupe_seq : g'.(g_dupe_seqnum) = u32 (g.(g_dupe_seqnum) + zlen dupe);
  ce_queue : f1 ++ g'.(g_queue) = g.(g_queue) ++ out;
  ce_dupe_queue : f2 ++ g'.(g_dupe_queue) = g.(g_dupe_queue) ++ dupe;
  ce_count : g'.(g_count) = g.(g_count) + zlen out - zlen f1;
  ce_dupe_count : g'.(g_dupe_count) = g.(g_dupe_count) + zlen dupe - zlen f2
}.

Lemma cycle_spec {S : Type} `{SinkLaws S} cfg mem tick ws http udp (th : @dupe_thread S) :
  let g := th.(dt_queues) in
  let taken := map w_incoming ws ++ [from_option w_incoming [] http] ++ [from_option w_incoming [] udp] in
  Forall (Forall dupe_input) taken ->
  0 <= g.(g_seqnum) < 2 ^ 32 -> 0 <= g.(g_dupe_seqnum) < 2 ^ 32 ->
  exists th' out dupe f1 f2,
    dupecheck_cycle cfg mem tick ws http udp th = Some (th', f1 ++ f2) /\
    routed (concat taken) out dupe /\ cycle_effect g th'.(dt_queues) out dupe f1 f2 /\
    th'.(dt_outcount) = th.(dt_outcount) + zlen out /\ th'.(dt_dupecount) = th.(dt_dupecount) + zlen dupe.
Proof.
  intros g taken Hin Hq1 Hq2. unfold dupecheck_cycle. fold g taken.
  set (d0 := mk_drain _ _ _ _ [] []).
  destruct (drain_all_total cfg mem tick taken d0 Hin) as [d Hd]. rewrite Hd. cbn [mbind option_bind].
  assert (drain_inv (g_seqnum g) (g_dupe_seqnum g) [] d0) as Hi0.
  { split; unfold d0; cbn; [constructor|done|done|..]; rewrite Z.add_0_r; symmetry; by apply u32_small. }
  destruct (drain_all_inv cfg mem tick _ _ _ _ _ _ Hi0 Hd) as [Hr Ho Hdp Hsq Hds].
  split_if.
  - destruct (global_pbuf_purger _ _ _ _ _ _) as [g' freed] eqn:Ep. unfold global_pbuf_purger in Ep.
    cbn [g_queue g_dupe_queue g_count g_dupe_count g_seqnum g_dupe_seqnum g_count_limit g_dupe_count_limit] in Ep.
    destruct (purge_queue (g_count_limit g) _ _ _ _ _) as [f1 q1] eqn:E1.
    destruct (purge_queue (g_dupe_count_limit g) _ _ _ _ _) as [f2 q2] eqn:E2.
    injection Ep as <- <-. apply purge_queue_spec in E1 as (E1 & _), E2 as (E2 & _).
    eexists _, (dr_out d), (dr_out_dupe d), f1, f2. split; [done|]. split; [exact Hr|].
    split; [|done]. by split; cbn.
  - eexists _, (dr_out d), (dr_out_dupe d), [], []. split; [done|]. split; [exact Hr|].
    split; [|done]. split; cbn; try done; rewrite zlen_nil; lia.
Qed.

(** C31: One turn of the checking thread loses, repeats and reorders nothing.  The
    packets taken from the workers, in the order they were taken, end up in the
    two global queues behind what was there, each in one of them and in order;
    the packets of each queue carry consecutive sequence numbers modulo 2^32,
    continuing after the last one given out; the counters and the statistics
    grow by what was appended; and what the purger frees is the front of a
    queue. *)
Theorem dupecheck_cycle_order {S : Type} `{SinkLaws S} cfg mem tick ws http udp (th : @dupe_thread S) :
  let g := th.(dt_queues) in
  let taken := map w_incoming ws ++ [from_option w_incoming [] http] ++ [from_option w_incoming [] udp] in
  Forall (Forall dupe_input) taken ->
  0 <= g.(g_seqnum) < 2 ^ 32 -> 0 <= g.(g_dupe_seqnum) < 2 ^ 32 ->
  exists th' out dupe f1 f2,
    dupecheck_cycle cfg mem tick ws http udp th = Some (th', f1 ++ f2) /\
    routed (concat taken) out dupe /\ cycle_effect g th'.(dt_queues) out dupe f1 f2 /\
    th'.(dt_outcount) = th.(dt_outcount) + zlen out /\ th'.(dt_dupecount) = th.(dt_dupecount) + zlen dupe.
Proof. apply cycle_spec. Qed.


(** ** Instances *)

(** Sinks that keep nothing. *)
#[local] Instance null_sinks : PacketSinks unit :=
  {| sink_history := fun _ _ _ _ st => Some st; sink_filter := fun _ _ pb st => Some (pb, st) |}.
#[local] Instance null_sinks_laws : SinkLaws unit.
Proof. split; [done|done|]. intros ? ? ? ? ? ? [= <- <-]. by left. Qed.

(** A packet and a copy of it whose payload lost its trailing space. *)
Definition demo_dupe_events : list dupe_event :=
  [Packet 1000 (demo_pbuf "OH7LZB" ">hello "); Packet 1010 (demo_pbuf "OH7LZB" ">hello");
   Cleanup 1020; Packet 1040 (demo_pbuf "OH7LZB" ">hello")].

Lemma demo_dupe_input src info :
  bytes_ok (pb_data (demo_pbuf src info)) -> zlen (str src) <= 9 -> zlen (str info) <= 400 ->
  keyhash (slice (pb_data (demo_pbuf src info)) 0 (zlen (str src) + 5)) 0 <> 0 ->
  dupe_input (demo_pbuf src info).
Proof.
  intros Hb Hs Hi Hh. unfold demo_pbuf in *. cbn in Hb.
  pose proof (zlen_nonneg (str src)). pose proof (zlen_nonneg (str info)).
  set (d := str src ++ str ">APRS,TCPIP*,qAC,T2TEST:" ++ str info ++ [13; 10]) in *.
  assert (zlen d = zlen (str src) + 24 + zlen (str info) + 2) as Hl
    by (unfold d; rewrite !zlen_app; change (zlen (str ">APRS,TCPIP*,qAC,T2TEST:")) with 24; change (zlen [13; 10]) with 2; lia).
  split; cbn -[str zlen]; unfold PACKETLEN_MAX; try done; try lia.
  - intros addr Ha. unfold dupe_addr in Ha. cbn [pb_data pb_dstcall_end_or_ssid] in Ha.
    rewrite rd_range_in in Ha by (fold d; lia). injection Ha as <-. exact Hh.
  - fold d. unfold CALLSIGNLEN_MAX. lia.
Qed.

Lemma dupecheck_history_witness :
  dupe_run demo_cfg demo_dupe_events dupe_db_init tt = Some [0; F_DUPE; 0].
Proof.
  refine (dupecheck_history demo_cfg demo_dupe_events 1000 tt _ _ _).
  - done.
  - assert (forall info, bytes_ok (pb_data (demo_pbuf "OH7LZB" info)) -> zlen (str info) <= 400 ->
      dupe_input (demo_pbuf "OH7LZB" info)) as Hin.
    { intros info Hb Hl. apply demo_dupe_input; [done|done|done|vm_compute; congruence]. }
    constructor; [|constructor; [|constructor; [done|constructor; [|constructor]]]];
      (apply Hin; [apply bytes_ok_b; vm_compute; reflexivity|vm_compute; congruence]).
  - cbn. lia.
Defined.

Definition demo_thread : @dupe_thread unit :=
  mk_dupe_thread dupe_db_init tt global_queues_init 5000 0 0.

Lemma dupecheck_cycle_order_witness :
  exists th' out dupe f1 f2,
    dupecheck_cycle demo_cfg true 1000
      [mk_worker_q [demo_pbuf "OH7LZB" ">hello"; demo_pbuf "OH7LZB" ">hello"] 0 0] None None demo_thread
      = Some (th', f1 ++ f2) /\
    routed [demo_pbuf "OH7LZB" ">hello"; demo_pbuf "OH7LZB" ">hello"] out dupe /\
    cycle_effect global_queues_init th'.(dt_queues) out dupe f1 f2 /\
    th'.(dt_outcount) = 0 + zlen out /\ th'.(dt_dupecount) = 0 + zlen dupe.
Proof.
  refine (dupecheck_cycle_order demo_cfg true 1000
    [mk_worker_q [demo_pbuf "OH7LZB" ">hello"; demo_pbuf "OH7LZB" ">hello"] 0 0] None None demo_thread
    _ _ _).
  - assert (dupe_input (demo_pbuf "OH7LZB" ">hello")) as Hin.
    { apply demo_dupe_input; [apply bytes_ok_b; vm_compute; reflexivity|done|done|vm_compute; congruence]. }
    constructor; [by constructor; [|constructor; [|constructor]]|].
    constructor; [constructor|]. constructor; [constructor|constructor].
  - vm_compute. intuition congruence.
  - vm_compute. intuition congruence.
Defined.

(** A queue of three packets, one old enough to go, and a worker at the second. *)
Definition demo_queues : global_queues :=
  mk_queues [set_pb_seqnum 5 (demo_pbuf "OH7LZB" ">a"); set_pb_seqnum 6 (demo_pbuf "OH7LZB" ">b");
             set_pb_seqnum 7 (demo_pbuf "OH7LZB" ">c")] [] 3 0 7 7 1 1.

