(* ===== verification/Historydb.v ===== *)
(** * historydb.c: the last known positions

    A hash table of the last position of every station, object and item.  The
    checking thread inserts, the filter code looks up, and a periodic pass and
    every insertion discard what is older than [lastposition_storetime].  The
    table is shown to be a finite map from names to positions that forgets an
    entry when it is too old, and only then. *)

From S2P Require Import Prelude Table Keyhash Types.
From Stdlib Require Import ZArith Lia Bool String SpecFloat.
From stdpp Require Import base tactics list gmap numbers.
Open Scope Z_scope.

Definition HISTORYDB_HASH_MODULO : Z := 8192.

(** [struct history_cell_t]; [keylen] is the length of [hc_key]. *)
Record history_cell_t := mk_cell {
  hc_arrivaltime : Z;
  hc_key : list Z;
  hc_hash1 : Z;
  hc_lat : spec_float;
  hc_coslat : spec_float;
  hc_lon : spec_float;
  hc_packettype : Z;
  hc_flags : Z
}.

(** The table, the gauge of cells and the counters. *)
Record historydb := mk_historydb {
  hd_hash : gmap Z (list history_cell_t);
  hd_cellgauge : Z;
  hd_inserts : Z;
  hd_hashmatches : Z;
  hd_keymatches : Z;
  hd_noposcount : Z;
  hd_cleaned : Z;
  hd_lookups : Z
}.

Definition historydb_zero : historydb := mk_historydb ∅ 0 0 0 0 0 0 0.

Definition history_buckets : nat := Z.to_nat HISTORYDB_HASH_MODULO.
Arguments history_buckets : simpl never.

Definition history_index (h1 : Z) : Z :=
  Z.lxor (Z.lxor h1 (Z.shiftr h1 13)) (Z.shiftr h1 26) mod HISTORYDB_HASH_MODULO.

(** ** The key of a packet *)

(** [s = strchr(buf, c); if (s) *s = 0], on a C string. *)
Fixpoint cut_at (c : Z) (s : list Z) : option (list Z) :=
  match s with
  | [] => None
  | x :: t => if x =? c then Some [] else cons x <$> cut_at c t
  end.

(** The name in an object or item, up to the character that ends it, and whether
    the packet kills it. *)
Definition name_key (pb : pbuf_t) (live : Z) : option (list Z * bool) :=
  b ← rd_range pb.(pb_data) (pb.(pb_info_start) + 1) (CALLSIGNLEN_MAX + 1);
  let keybuf := cstr b in
  Some (match cut_at live keybuf with
        | Some k => (k, false)
        | None => match cut_at ch_us keybuf with
                  | Some k => (k, true)
                  | None => (keybuf, false)
                  end
        end).

(** The key and whether it is to be removed; [None] inside when the packet is of
    no interest.  The loop meant to strip the padding of an object name stores
    spaces over spaces and stops at once, so it changes nothing. *)
Definition history_key (pb : pbuf_t) : option (option (list Z * bool)) :=
  if has pb.(pb_packettype) T_OBJECT then Some <$> name_key pb ch_star
  else if has pb.(pb_packettype) T_ITEM then Some <$> name_key pb ch_bang
  else if has pb.(pb_packettype) T_POSITION then
    b ← rd_range pb.(pb_data) 0 CALLSIGNLEN_MAX;
    let keybuf := cstr b in
    Some (Some (default keybuf (cut_at ch_gt keybuf), false))
  else Some None.

(** ** Insertion *)

Definition history_cell (h1 : Z) (key : list Z) (pb : pbuf_t) : history_cell_t :=
  mk_cell pb.(pb_t) key h1 pb.(pb_lat) pb.(pb_cos_lat) pb.(pb_lng) pb.(pb_packettype) pb.(pb_flags).

(** What the walk over a chain does: old cells are dropped, the cells of the key
    are updated, or dropped when the packet kills it. *)
Record history_scan := mk_scan {
  sc_chain : list history_cell_t;
  sc_found : bool;
  sc_freed : Z;
  sc_hashmatches : Z;
  sc_keymatches : Z
}.

Fixpoint scan_chain (expirytime h1 : Z) (key : list Z) (isdead : bool) (pb : pbuf_t)
    (l : list history_cell_t) : history_scan :=
  match l with
  | [] => mk_scan [] false 0 0 0
  | cp :: t =>
      let r := scan_chain expirytime h1 key isdead pb t in
      if cp.(hc_arrivaltime) <? expirytime then
        mk_scan r.(sc_chain) r.(sc_found) (r.(sc_freed) + 1) r.(sc_hashmatches) r.(sc_keymatches)
      else if cp.(hc_hash1) =? h1 then
        if (zlen cp.(hc_key) =? zlen key) && beq cp.(hc_key) key then
          if isdead then
            mk_scan r.(sc_chain) r.(sc_found) (r.(sc_freed) + 1) (r.(sc_hashmatches) + 1)
              (r.(sc_keymatches) + 1)
          else
            mk_scan (history_cell cp.(hc_hash1) cp.(hc_key) pb :: r.(sc_chain)) true r.(sc_freed)
              (r.(sc_hashmatches) + 1) (r.(sc_keymatches) + 1)
        else
          mk_scan (cp :: r.(sc_chain)) r.(sc_found) r.(sc_freed) (r.(sc_hashmatches) + 1)
            r.(sc_keymatches)
      else
        mk_scan (cp :: r.(sc_chain)) r.(sc_found) r.(sc_freed) r.(sc_hashmatches) r.(sc_keymatches)
  end.

(** [historydb_insert]; [mem] is whether the allocator has a cell.  The gauge is
    raised even when it has none. *)
Definition historydb_insert (cfg : config) (mem : bool) (tick : Z) (pb : pbuf_t) (db : historydb)
    : option (historydb * Z) :=
  let expirytime := tick - cfg.(lastposition_storetime) in
  if negb (has pb.(pb_flags) F_HASPOS) then
    Some (mk_historydb db.(hd_hash) db.(hd_cellgauge) db.(hd_inserts) db.(hd_hashmatches)
            db.(hd_keymatches) (db.(hd_noposcount) + 1) db.(hd_cleaned) db.(hd_lookups), -1)
  else
    ok ← history_key pb;
    match ok with
    | None => Some (db, -1)
    | Some (key, isdead) =>
        let h1 := keyhash key 0 in
        let i := history_index h1 in
        let r := scan_chain expirytime h1 key isdead pb (bucket db.(hd_hash) i) in
        let upd chain gauge :=
          mk_historydb (set_bucket db.(hd_hash) i chain) gauge (db.(hd_inserts) + 1)
            (db.(hd_hashmatches) + r.(sc_hashmatches)) (db.(hd_keymatches) + r.(sc_keymatches))
            db.(hd_noposcount) db.(hd_cleaned) db.(hd_lookups) in
        if negb r.(sc_found) && negb isdead then
          if mem
          then Some (upd (r.(sc_chain) ++ [history_cell h1 key pb])
                       (db.(hd_cellgauge) - r.(sc_freed) + 1), 1)
          else Some (upd r.(sc_chain) (db.(hd_cellgauge) - r.(sc_freed) + 1), 1)
        else Some (upd r.(sc_chain) (db.(hd_cellgauge) - r.(sc_freed)), 1)
    end.

(** [historydb_lookup]: validity is five minutes shorter than the expiration. *)
Definition historydb_lookup (cfg : config) (tick : Z) (key : list Z) (db : historydb)
    : historydb * option history_cell_t :=
  let validitytime := tick - cfg.(lastposition_storetime) + 5 * 60 in
  let h1 := keyhash key 0 in
  (mk_historydb db.(hd_hash) db.(hd_cellgauge) db.(hd_inserts) db.(hd_hashmatches) db.(hd_keymatches)
     db.(hd_noposcount) db.(hd_cleaned) (db.(hd_lookups) + 1),
   List.find (fun cp => (cp.(hc_hash1) =? h1) && (zlen cp.(hc_key) =? zlen key)
                        && beq cp.(hc_key) key && (cp.(hc_arrivaltime) >? validitytime))
     (bucket db.(hd_hash) (history_index h1))).

Definition historydb_cleanup (cfg : config) (tick : Z) (db : historydb) : historydb :=
  let keep cp := negb (cp.(hc_arrivaltime) <? tick - cfg.(lastposition_storetime)) in
  let t := sweep history_buckets (List.filter keep) db.(hd_hash) in
  let n := zlen (entries history_buckets db.(hd_hash)) - zlen (entries history_buckets t) in
  mk_historydb t (db.(hd_cellgauge) - n) db.(hd_inserts) db.(hd_hashmatches) db.(hd_keymatches)
    db.(hd_noposcount) n db.(hd_lookups).

Definition historydb_atend (db : historydb) : historydb :=
  mk_historydb (sweep history_buckets (fun _ => []) db.(hd_hash))
    (db.(hd_cellgauge) - zlen (entries history_buckets db.(hd_hash)))
    db.(hd_inserts) db.(hd_hashmatches) db.(hd_keymatches) db.(hd_noposcount) db.(hd_cleaned) db.(hd_lookups).

(** ** Dump and load *)

(** The members of the JSON object of an entry; [None] for a member that is
    missing or of the wrong type.  Reading the text is the JSON library's. *)
Record history_json := mk_json {
  j_arrivaltime : option Z;
  j_key : option (list Z);
  j_packettype : option Z;
  j_flags : option Z;
  j_lat : option spec_float;
  j_lon : option spec_float
}.

Definition historydb_dump_entry (hp : history_cell_t) : history_json :=
  mk_json (Some hp.(hc_arrivaltime)) (Some (cstr (take 9 hp.(hc_key)))) (Some hp.(hc_packettype))
    (Some hp.(hc_flags)) (Some hp.(hc_lat)) (Some hp.(hc_lon)).

Definition historydb_dump (cfg : config) (tick : Z) (db : historydb) : list history_json :=
  map historydb_dump_entry
    (List.filter (fun hp => hp.(hc_arrivaltime) >? tick - cfg.(lastposition_storetime))
       (entries history_buckets db.(hd_hash))).

Section Load.
(** [cosf] of the C library, and the conversion of a JSON number to [float]. *)
Context (cosf : spec_float -> spec_float) (to_float : spec_float -> spec_float).

(** [historydb_load_entry]: the database and 1 or 0; undefined when the key does
    not fit the 11 byte array. *)
Definition historydb_load_entry (cfg : config) (mem : bool) (tick : Z) (j : history_json) (db : historydb)
    : option (historydb * Z) :=
  match j.(j_arrivaltime), j.(j_key), j.(j_packettype), j.(j_flags), j.(j_lat), j.(j_lon) with
  | Some at_, Some key, Some ty, Some fl, Some lat, Some lon =>
      if at_ <? tick - cfg.(lastposition_storetime) then Some (db, 0)
      else if negb mem then
        Some (mk_historydb db.(hd_hash) (db.(hd_cellgauge) + 1) db.(hd_inserts) db.(hd_hashmatches)
                db.(hd_keymatches) db.(hd_noposcount) db.(hd_cleaned) db.(hd_lookups), 0)
      else if CALLSIGNLEN_MAX + 1 <? zlen key then None
      else
        let h1 := keyhash key 0 in
        let i := history_index h1 in
        let lat := to_float lat in
        let cp := mk_cell at_ key h1 lat (cosf lat) (to_float lon) ty fl in
        Some (mk_historydb (set_bucket db.(hd_hash) i (cp :: bucket db.(hd_hash) i))
                (db.(hd_cellgauge) + 1) db.(hd_inserts) db.(hd_hashmatches) db.(hd_keymatches)
                db.(hd_noposcount) db.(hd_cleaned) db.(hd_lookups), 1)
  | _, _, _, _, _, _ => Some (db, 0)
  end.

(** [historydb_load] of the entries of a file: the database and how many were
    loaded. *)
Definition historydb_load (cfg : config) (mem : bool) (tick : Z) (js : list history_json) (db : historydb)
    : option (historydb * Z) :=
  fold_left (fun acc j => '(db, ok) ← acc; '(db, r) ← historydb_load_entry cfg mem tick j db;
                          Some (db, ok + r)) js (Some (db, 0)).
End Load.

(** * The map of the database *)

Definition hist_index (k : list Z) : Z := history_index (keyhash k 0).

Lemma hist_index_range k : 0 <= hist_index k < Z.of_nat history_buckets.
Proof.
  unfold hist_index, history_index, history_buckets. rewrite Z2Nat.id by done.
  by apply Z.mod_pos_bound.
Qed.

#[local] Opaque history_buckets.

Definition hist_view (db : historydb) : gmap (list Z) history_cell_t :=
  view hc_key id history_buckets db.(hd_hash).

Definition cell_ok (c : history_cell_t) : Prop := c.(hc_hash1) = keyhash c.(hc_key) 0.

Record hist_wf (db : historydb) : Prop := {
  hi_table : table_wf hc_key hist_index db.(hd_hash);
  hi_cell : forall i c, c ∈ bucket db.(hd_hash) i -> cell_ok c;
  hi_gauge : db.(hd_cellgauge) = zlen (entries history_buckets db.(hd_hash))
}.

Lemma hist_view_lookup db k :
  hist_wf db -> hist_view db !! k = chain_find hc_key k (bucket db.(hd_hash) (hist_index k)).
Proof.
  intros [Ht _ _]. unfold hist_view. rewrite (view_lookup _ _ _ _ hist_index_range) by done.
  by destruct (chain_find _ _ _).
Qed.

Definition opt_list {A} (o : option A) : list A := match o with Some x => [x] | None => [] end.

Section Scan.
Context (expirytime : Z) (key : list Z) (isdead : bool) (pb : pbuf_t).

Let scan l := scan_chain expirytime (keyhash key 0) key isdead pb l.

(** The cell a key has after the walk. *)
Definition scanned (k : list Z) (c : history_cell_t) : option history_cell_t :=
  if c.(hc_arrivaltime) <? expirytime then None
  else if bool_decide (k = key) then
    if isdead then None else Some (history_cell (keyhash key 0) key pb)
  else Some c.

Lemma chain_find_cons (k : list Z) c l :
  chain_find hc_key k (c :: l) = if bool_decide (hc_key c = k) then Some c else chain_find hc_key k l.
Proof. done. Qed.

(** One step of the walk on a well-formed cell. *)
Lemma scan_chain_cons c l :
  cell_ok c ->
  (scan (c :: l)).(sc_chain) = opt_list (scanned c.(hc_key) c) ++ (scan l).(sc_chain) /\
  (scan (c :: l)).(sc_found) =
    (bool_decide (c.(hc_key) = key) && negb (c.(hc_arrivaltime) <? expirytime) && negb isdead)
    || (scan l).(sc_found) /\
  (scan (c :: l)).(sc_freed) =
    (match scanned c.(hc_key) c with None => 1 | _ => 0 end) + (scan l).(sc_freed).
Proof.
  intros Hc. unfold scan, scanned. cbn [scan_chain].
  destruct (hc_arrivaltime c <? expirytime).
  { cbn. rewrite andb_false_r. cbn. split; [done|]. split; [done|]. lia. }
  destruct (decide (hc_key c = key)) as [Hk|Hk].
  - rewrite !bool_decide_eq_true_2 by done. rewrite Hc, Hk, !Z.eqb_refl. unfold beq.
    rewrite bool_decide_eq_true_2 by done. destruct isdead; cbn; split; [done| |done|]; split; (done || lia).
  - rewrite !bool_decide_eq_false_2 by done.
    destruct (hc_hash1 c =? keyhash key 0); [|cbn; split; [done|]; split; (done || lia)].
    unfold beq. rewrite bool_decide_eq_false_2, andb_false_r by done.
    cbn. split; [done|]. split; (done || lia).
Qed.

Lemma scan_chain_spec l :
  Forall cell_ok l -> NoDup (map hc_key l) ->
  (forall k, chain_find hc_key k (scan l).(sc_chain) = c ← chain_find hc_key k l; scanned k c) /\
  (scan l).(sc_found) = match chain_find hc_key key l with
                        | Some c => negb (c.(hc_arrivaltime) <? expirytime) && negb isdead
                        | None => false end /\
  (forall c, c ∈ (scan l).(sc_chain) -> cell_ok c /\ hc_key c ∈ map hc_key l) /\
  NoDup (map hc_key (scan l).(sc_chain)) /\
  (scan l).(sc_freed) = zlen l - zlen (scan l).(sc_chain).
Proof.
  induction 1 as [|c l Hc Hl IH]; cbn [map]; intros Hnd.
  { split; [done|]. split; [done|]. split; [by intros c ?%elem_of_nil|]. split; [constructor|done]. }
  apply list.NoDup_cons in Hnd as [Hni Hnd]. destruct (IH Hnd) as (I1 & I2 & I3 & I4 & I5).
  destruct (scan_chain_cons c l Hc) as (-> & -> & ->).
  assert (chain_find hc_key (hc_key c) l = None) as Hcn.
  { destruct (chain_find hc_key (hc_key c) l) as [c'|] eqn:E; [|done].
    apply chain_find_Some in E as [Hin Hk]. exfalso. apply Hni. rewrite <- Hk. by apply list_elem_of_fmap_2. }
  assert (forall c', scanned (hc_key c) c = Some c' -> hc_key c' = hc_key c /\ cell_ok c') as Hsc.
  { intros c' Hs. unfold scanned in Hs. split_if_in Hs; [done|]. destruct (decide (hc_key c = key)) as [Hk|Hk].
    - rewrite bool_decide_eq_true_2 in Hs by done. destruct isdead; [done|]. by injection Hs as <-.
    - rewrite bool_decide_eq_false_2 in Hs by done. by injection Hs as <-. }
  split; [|split; [|split; [|split]]].
  - intros k. rewrite chain_find_cons. destruct (decide (hc_key c = k)) as [<-|Hk].
    + rewrite bool_decide_eq_true_2 by done. cbn [mbind option_bind].
      destruct (scanned (hc_key c) c) as [c'|] eqn:Es; cbn [opt_list app].
      * rewrite chain_find_cons. destruct (Hsc c' eq_refl) as [Hk' _]. by rewrite bool_decide_eq_true_2.
      * rewrite I1, Hcn. done.
    + rewrite bool_decide_eq_false_2 by done.
      destruct (scanned (hc_key c) c) as [c'|] eqn:Es; cbn [opt_list app]; [|by rewrite I1].
      rewrite chain_find_cons. destruct (Hsc c' eq_refl) as [Hk' _].
      rewrite bool_decide_eq_false_2 by congruence. apply I1.
  - rewrite chain_find_cons. destruct (decide (hc_key c = key)) as [Hk|Hk].
    + rewrite !bool_decide_eq_true_2 by done. cbn [andb]. rewrite I2, <- Hk, Hcn. by rewrite orb_false_r.
    + rewrite !bool_decide_eq_false_2 by done. cbn. done.
  - intros c' [Hc'|Hc']%elem_of_app.
    + destruct (scanned (hc_key c) c) as [c''|] eqn:Es; cbn in Hc'; [|by apply elem_of_nil in Hc'].
      apply list_elem_of_singleton in Hc' as ->. destruct (Hsc c'' eq_refl) as [Hk' ?].
      split; [done|]. rewrite Hk'. apply elem_of_cons. by left.
    + destruct (I3 c' Hc'). split; [done|]. apply elem_of_cons. by right.
  - destruct (scanned (hc_key c) c) as [c''|] eqn:Es; cbn [opt_list app map]; [|done].
    destruct (Hsc c'' eq_refl) as [Hk' _]. apply list.NoDup_cons. split; [|done].
    intros (c3 & Hk3 & Hin)%list_elem_of_fmap. apply Hni. destruct (I3 c3 Hin) as [_ Hm].
    by rewrite <- Hk', Hk3.
  - rewrite I5, zlen_app, zlen_cons. destruct (scanned (hc_key c) c); unfold zlen;
      cbn [opt_list length]; lia.
Qed.

(** The chain after the insertion: a key that was not found is appended. *)
Definition new_tail l : list history_cell_t :=
  if negb (scan l).(sc_found) && negb isdead then [history_cell (keyhash key 0) key pb] else [].
Definition inserted l : list history_cell_t := (scan l).(sc_chain) ++ new_tail l.

Lemma elem_of_new_tail l c : c ∈ new_tail l -> c = history_cell (keyhash key 0) key pb.
Proof.
  unfold new_tail. destruct (_ && _); [by intros ->%list_elem_of_singleton|by intros ?%elem_of_nil].
Qed.

Lemma inserted_find l k :
  Forall cell_ok l -> NoDup (map hc_key l) ->
  chain_find hc_key k (inserted l) =
    if bool_decide (k = key) then (if isdead then None else Some (history_cell (keyhash key 0) key pb))
    else c ← chain_find hc_key k l; scanned k c.
Proof.
  intros Hl Hnd. destruct (scan_chain_spec l Hl Hnd) as (I1 & I2 & _).
  unfold inserted. rewrite chain_find_app, I1. destruct (decide (k = key)) as [->|Hk].
  - rewrite bool_decide_eq_true_2 by done. unfold new_tail. rewrite I2.
    destruct (chain_find hc_key key l) as [c|]; cbn [mbind option_bind].
    + unfold scanned. rewrite bool_decide_eq_true_2 by done.
      destruct (hc_arrivaltime c <? expirytime), isdead; cbn; rewrite ?bool_decide_eq_true_2; done.
    + destruct isdead; cbn; rewrite ?bool_decide_eq_true_2; done.
  - rewrite bool_decide_eq_false_2 by done.
    assert (chain_find hc_key k (new_tail l) = None) as ->.
    { destruct (chain_find hc_key k (new_tail l)) as [c|] eqn:E; [|done].
      apply chain_find_Some in E as [->%elem_of_new_tail <-]. done. }
    by destruct (c ← _; _).
Qed.

Lemma inserted_nodup l :
  Forall cell_ok l -> NoDup (map hc_key l) -> NoDup (map hc_key (inserted l)).
Proof.
  intros Hl Hnd. destruct (scan_chain_spec l Hl Hnd) as (I1 & I2 & _ & I4 & _).
  unfold inserted. rewrite map_app. apply list.NoDup_app. split; [done|].
  unfold new_tail. rewrite I2. split.
  - intros k Hk Hk'. destruct (_ && _) eqn:Ef; [|by apply elem_of_nil in Hk'].
    apply list_elem_of_singleton in Hk' as ->. cbn in Hk.
    assert (chain_find hc_key key (sc_chain (scan l)) = None) as Hn; [|by apply chain_find_None in Hn].
    rewrite I1. destruct (chain_find hc_key key l) as [c|]; [|done]. cbn.
    unfold scanned. rewrite bool_decide_eq_true_2 by done.
    destruct (hc_arrivaltime c <? expirytime), isdead; done.
  - destruct (_ && _); cbn; [|constructor]. apply NoDup_singleton.
Qed.
End Scan.

(** What an insertion does to the map: the key gets the position, or goes away;
    every other key keeps its cell unless that is too old. *)
Lemma insert_view cfg tick pb db key isdead :
  hist_wf db -> has pb.(pb_flags) F_HASPOS = true -> history_key pb = Some (Some (key, isdead)) ->
  exists db', historydb_insert cfg true tick pb db = Some (db', 1) /\ hist_wf db' /\
    hist_view db' !! key = (if isdead then None else Some (history_cell (keyhash key 0) key pb)) /\
    forall k, k <> key -> hist_view db' !! k = hist_view db !! k \/
      (exists c, hist_view db !! k = Some c /\ hist_view db' !! k = None /\
                 c.(hc_arrivaltime) < tick - cfg.(lastposition_storetime)).
Proof.
  intros Hwf Hpos Hkey. unfold historydb_insert. rewrite Hpos, Hkey. cbn [negb mbind option_bind].
  set (expiry := tick - lastposition_storetime cfg).
  fold (hist_index key). set (l := bucket (hd_hash db) (hist_index key)).
  assert (Forall cell_ok l) as Hl by (apply Forall_forall; intros c Hc%list_elem_of_In; by eapply hi_cell).
  assert (NoDup (map hc_key l)) as Hnd by apply (hi_table _ Hwf).
  destruct (scan_chain_spec expiry key isdead pb l Hl Hnd) as (_ & _ & I3 & _ & I5).
  set (r := scan_chain expiry (keyhash key 0) key isdead pb l) in *.
  set (chain := inserted expiry key isdead pb l).
  set (db' := mk_historydb (set_bucket (hd_hash db) (hist_index key) chain)
    (hd_cellgauge db - sc_freed r + zlen (new_tail expiry key isdead pb l)) (hd_inserts db + 1)
    (hd_hashmatches db + sc_hashmatches r) (hd_keymatches db + sc_keymatches r) (hd_noposcount db) (hd_cleaned db) (hd_lookups db)).
  assert (hist_wf db') as Hwf'.
  { split; cbn [db' hd_hash hd_cellgauge].
    - apply wf_set; [apply Hwf| |by apply inserted_nodup]. intros c [Hc|Hc]%elem_of_app.
      + destruct (I3 c Hc) as [_ (c0 & -> & Hc0)%list_elem_of_fmap]. by apply (tw_chained _ _ _ (hi_table _ Hwf)).
      + by apply elem_of_new_tail in Hc as ->.
    - intros i c. destruct (decide (hist_index key = i)) as [<-|Hi].
      + rewrite bucket_set_eq. intros [Hc|Hc]%elem_of_app; [by apply I3|]. by apply elem_of_new_tail in Hc as ->.
      + rewrite bucket_set_ne by done. by apply hi_cell.
    - rewrite zlen_entries_set by apply hist_index_range. unfold chain, inserted. fold r.
      rewrite zlen_app, I5, (hi_gauge _ Hwf). fold l. lia. }
  exists db'. split; [|split; [done|]].
  { unfold db', chain, inserted, new_tail. fold r.
    destruct (negb (sc_found r) && negb isdead); rewrite ?app_nil_r; [|rewrite Z.add_0_r]; done. }
  assert (forall k, hist_view db' !! k =
    if hist_index k =? hist_index key then chain_find hc_key k chain else hist_view db !! k) as Hv.
  { intros k. rewrite !hist_view_lookup by done. cbn [db' hd_hash].
    destruct (Z.eqb_spec (hist_index k) (hist_index key)) as [E|E];
      [by rewrite E, bucket_set_eq|by rewrite bucket_set_ne by congruence]. }
  split.
  - rewrite Hv, Z.eqb_refl. unfold chain. rewrite inserted_find by done. by rewrite bool_decide_eq_true_2.
  - intros k Hk. rewrite Hv. destruct (Z.eqb_spec (hist_index k) (hist_index key)) as [E|E]; [|by left].
    unfold chain. rewrite inserted_find, bool_decide_eq_false_2 by done.
    rewrite hist_view_lookup, E by done. fold l.
    destruct (chain_find hc_key k l) as [c|]; [|by left]. cbn. unfold scanned.
    destruct (hc_arrivaltime c <? expiry) eqn:Ea; [right; exists c; repeat split; (done || lia)|left].
    by rewrite bool_decide_eq_false_2.
Qed.

(** A lookup finds the cell of the key when it is recent enough. *)
Lemma lookup_view cfg tick key db :
  hist_wf db ->
  (historydb_lookup cfg tick key db).2 =
  c ← hist_view db !! key;
  if hc_arrivaltime c >? tick - cfg.(lastposition_storetime) + 5 * 60 then Some c else None.
Proof.
  intros Hwf. unfold historydb_lookup. cbn [snd]. fold (hist_index key). rewrite hist_view_lookup by done.
  set (l := bucket (hd_hash db) (hist_index key)).
  assert (NoDup (map hc_key l)) as Hnd by apply (hi_table _ Hwf).
  assert (forall c, c ∈ l -> cell_ok c) as Hok by (intros; by eapply hi_cell). clearbody l.
  induction l as [|c l IH]; [done|]. cbn [List.find]. rewrite chain_find_cons.
  cbn [map] in Hnd. apply list.NoDup_cons in Hnd as [Hni Hnd].
  assert (cell_ok c) as Hc by (apply Hok, elem_of_cons; by left).
  destruct (decide (hc_key c = key)) as [Hk|Hk].
  - rewrite bool_decide_eq_true_2 by done. cbn [mbind option_bind].
    rewrite Hc, Hk, !Z.eqb_refl. unfold beq. rewrite bool_decide_eq_true_2 by done. cbn [andb].
    destruct (hc_arrivaltime c >? _); [done|].
    destruct (List.find _ l) as [c'|] eqn:E; [|done]. apply find_some in E as [Hin Hm].
    exfalso. apply Hni. apply andb_true_iff in Hm as [Hm _]. apply andb_true_iff in Hm as [_ Hm].
    apply bool_decide_eq_true in Hm. rewrite Hk, <- Hm. apply list_elem_of_fmap_2, list_elem_of_In. done.
  - rewrite (bool_decide_eq_false_2 (hc_key c = key)) by done. unfold beq at 1.
    rewrite (bool_decide_eq_false_2 (hc_key c = key)) by done. rewrite andb_false_r. cbn [andb].
    apply IH; [done|]. intros c' Hc'. apply Hok, elem_of_cons. by right.
Qed.

Lemma cleanup_view cfg tick db :
  hist_wf db ->
  hist_wf (historydb_cleanup cfg tick db) /\
  hist_view (historydb_cleanup cfg tick db) =
    filter (fun kc => tick - cfg.(lastposition_storetime) <= kc.2.(hc_arrivaltime)) (hist_view db).
Proof.
  intros Hwf.
  destruct (view_filter hc_key id hist_index history_buckets hist_index_range (hd_hash db)
    (fun cp => negb (hc_arrivaltime cp <? tick - lastposition_storetime cfg))
    (fun kc => tick - lastposition_storetime cfg <= hc_arrivaltime kc.2)) as [Hw Hv].
  - intros c. cbn. rewrite negb_true_iff. lia.
  - apply Hwf.
  - split; [|exact Hv]. split; cbn [historydb_cleanup hd_hash hd_cellgauge]; [done| |].
    + intros i c. rewrite bucket_sweep. split_if; [|by apply hi_cell].
      intros Hc. eapply (hi_cell _ Hwf i), elem_of_sublist, filter_sublist. done.
    + rewrite (hi_gauge _ Hwf). lia.
Qed.

(** ** Specification: a map that forgets *)

Inductive history_op : Type :=
  | Insert (tick : Z) (pb : pbuf_t)
  | Clean (tick : Z).

Definition op_tick (op : history_op) : Z := match op with Insert t _ | Clean t => t end.

(** The bytes a name is taken from are in the buffer. *)
Definition history_op_ok (op : history_op) : Prop :=
  match op with
  | Insert _ pb => has pb.(pb_flags) F_HASPOS = true -> history_key pb <> None
  | Clean _ => True
  end.

Definition history_step (cfg : config) (op : history_op) (db : historydb) : option historydb :=
  match op with
  | Insert tick pb => fst <$> historydb_insert cfg true tick pb db
  | Clean tick => Some (historydb_cleanup cfg tick db)
  end.

Definition history_run (cfg : config) (ops : list history_op) (db : historydb) : option historydb :=
  fold_left (fun acc op => db ← acc; history_step cfg op db) ops (Some db).

(** Every position ever reported and not killed since. *)
Definition history_spec (m : gmap (list Z) history_cell_t) (op : history_op)
    : gmap (list Z) history_cell_t :=
  match op with
  | Insert _ pb =>
      if has pb.(pb_flags) F_HASPOS then
        match history_key pb with
        | Some (Some (key, isdead)) =>
            if (isdead : bool) then delete key m else <[key := history_cell (keyhash key 0) key pb]> m
        | _ => m
        end
      else m
  | Clean _ => m
  end.

Fixpoint op_ticks_from (t0 : Z) (ops : list history_op) : Prop :=
  match ops with
  | [] => True
  | op :: ops => t0 <= op_tick op /\ op_ticks_from (op_tick op) ops
  end.

Fixpoint last_tick (t0 : Z) (ops : list history_op) : Z :=
  match ops with [] => t0 | op :: ops => last_tick (op_tick op) ops end.

(** The database holds only cells of the map, and all that are not too old. *)
Record hist_rel (cfg : config) (tick : Z) (db : historydb) (m : gmap (list Z) history_cell_t) : Prop := {
  hr_wf : hist_wf db;
  hr_sound : forall k c, hist_view db !! k = Some c -> m !! k = Some c;
  hr_complete : forall k c, m !! k = Some c -> tick - cfg.(lastposition_storetime) <= c.(hc_arrivaltime) ->
    hist_view db !! k = Some c
}.

Lemma hist_rel_mono cfg t t' db m : t <= t' -> hist_rel cfg t db m -> hist_rel cfg t' db m.
Proof. intros Ht [H1 H2 H3]. split; [done..|]. intros k c Hk Ha. apply H3; [done|lia]. Qed.

Lemma hist_rel_step cfg op db m :
  hist_rel cfg (op_tick op) db m -> history_op_ok op ->
  exists db', history_step cfg op db = Some db' /\ hist_rel cfg (op_tick op) db' (history_spec m op).
Proof.
  intros [Hwf Hs Hc] Hok. destruct op as [tick pb|tick]; cbn [history_step history_spec op_tick history_op_ok] in *.
  - destruct (has (pb_flags pb) F_HASPOS) eqn:Ep.
    2: { unfold historydb_insert. rewrite Ep. cbn. eexists. split; [done|]. split; [|done..].
         destruct Hwf. by split. }
    destruct (history_key pb) as [[[key isdead]|]|] eqn:Ek; [| |by destruct (Hok eq_refl)].
    2: { unfold historydb_insert. rewrite Ep, Ek. cbn. eauto using Build_hist_rel. }
    destruct (insert_view cfg tick pb db key isdead Hwf Ep Ek) as (db' & Hi & Hwf' & Hkey & Hother).
    rewrite Hi. cbn. exists db'. split; [done|]. split; [done| |].
    + intros k c Hk. destruct (decide (k = key)) as [->|Hne].
      * rewrite Hkey in Hk. destruct isdead; [done|]. injection Hk as <-. apply lookup_insert_eq.
      * assert (m !! k = Some c) as Hm.
        { apply Hs. destruct (Hother k Hne) as [E|(c' & _ & E & _)]; congruence. }
        destruct isdead; [by rewrite lookup_delete_ne|by rewrite lookup_insert_ne].
    + intros k c Hk Ha. destruct (decide (k = key)) as [->|Hne].
      * destruct isdead; [by rewrite lookup_delete_eq in Hk|]. rewrite lookup_insert_eq in Hk. congruence.
      * assert (m !! k = Some c) as Hm
          by (destruct isdead; [rewrite lookup_delete_ne in Hk by done|rewrite lookup_insert_ne in Hk by done]; done).
        specialize (Hc k c Hm Ha). destruct (Hother k Hne) as [->|(c' & E & _ & Hold)]; [done|].
        rewrite E in Hc. injection Hc as ->. lia.
  - eexists. split; [done|]. destruct (cleanup_view cfg tick db Hwf) as [Hwf' Hv]. split; [done| |].
    + intros k c. rewrite Hv. intros [Hk _]%map_lookup_filter_Some. by apply Hs.
    + intros k c Hk Ha. rewrite Hv. apply map_lookup_filter_Some. split; [by apply Hc|done].
Qed.

Lemma hist_rel_run cfg ops t0 db m :
  hist_rel cfg t0 db m -> Forall history_op_ok ops -> op_ticks_from t0 ops ->
  exists db', history_run cfg ops db = Some db' /\
    hist_rel cfg (last_tick t0 ops) db' (fold_left history_spec ops m).
Proof.
  unfold history_run. intros Hr Hok. revert t0 db m Hr.
  induction Hok as [|op ops Hop _ IH]; intros t0 db m Hr Ht; cbn [fold_left last_tick] in *; [eauto|].
  destruct Ht as [Ht0 Ht]. apply (hist_rel_mono _ _ _ _ _ Ht0) in Hr.
  destruct (hist_rel_step cfg op db m Hr Hop) as (db1 & Hd & Hr1).
  cbn [mbind option_bind]. rewrite Hd. by apply IH.
Qed.

Lemma hist_rel_zero cfg t : hist_rel cfg t historydb_zero ∅.
Proof.
  assert (hist_view historydb_zero = ∅) as Hv by apply view_empty.
  split; [split| |]; cbn [historydb_zero hd_hash hd_cellgauge].
  - apply wf_empty.
  - intros i c Hc. rewrite bucket_empty in Hc. exfalso. by apply elem_of_nil in Hc.
  - by rewrite entries_empty.
  - intros k c. by rewrite Hv.
  - intros k c. by rewrite lookup_empty.
Qed.


(** A position packet. *)
Definition demo_position (src : string) : pbuf_t :=
  add_flag F_HASPOS (add_type T_POSITION (demo_pbuf src "!6028.51N/02505.68E#")).


(** The padding of an object name is part of its key: the loop that should strip
    it leaves it in place. *)
Example object_key_padded :
  history_key (add_flag F_HASPOS (add_type T_OBJECT
    (demo_pbuf "OH7LZB" ";LEADER   *092345z4903.50N/07201.75W>")))
  = Some (Some (str "LEADER   ", false)).
Proof. reflexivity. Qed.
