(* ===== verification/Filterdb.v ===== *)
(** * filter.c: what the filter module remembers of packets

    Before a packet goes to the duplicate checker the filter module looks for
    TCPIP in its path, remembers the igates that deliver qAR packets and the
    stations that send weather without a position, and hashes the names that
    filters compare; after the check it looks up a position the packet does not
    have.  The two databases are chained tables of the same shape. *)

From S2P Require Import Prelude Table Keyhash Types ParseQc Dupecheck Historydb.
From Stdlib Require Import ZArith Lia Bool String SpecFloat.
From stdpp Require Import base tactics list gmap numbers.
Open Scope Z_scope.

(** ** Tables of callsigns *)

(** [struct filter_entrycall_t] and [struct filter_wx_t]; [len] is the length of
    the callsign. *)
Record call_entry := mk_entry {
  ce_expirytime : Z;
  ce_hash : Z;
  ce_callsign : list Z
}.

Definition set_ce_expirytime (v : Z) (f : call_entry) : call_entry := mk_entry v f.(ce_hash) f.(ce_callsign).

Record calldb := mk_calldb {
  cd_hash : gmap Z (list call_entry);
  cd_gauge : Z
}.

Definition calldb_zero : calldb := mk_calldb ∅ 0.

Definition FILTER_ENTRYCALL_HASHSIZE : Z := 2048.
Definition FILTER_WX_HASHSIZE : Z := 1024.
Definition filter_entrycall_maxage : Z := 60 * 60.
Definition filter_wx_maxage : Z := 60 * 60.

Definition entrycall_index (hash : Z) : Z :=
  Z.lxor (Z.lxor hash (Z.shiftr hash 11)) (Z.shiftr hash 22) mod FILTER_ENTRYCALL_HASHSIZE.
Definition wx_index (hash : Z) : Z :=
  Z.lxor (Z.lxor hash (Z.shiftr hash 10)) (Z.shiftr hash 20) mod FILTER_WX_HASHSIZE.

Section Calldb.
Context (index : Z -> Z) (size : nat).

Definition call_match (hash : Z) (key : list Z) (f : call_entry) : bool :=
  (f.(ce_hash) =? hash) && (zlen f.(ce_callsign) =? zlen key) && beq f.(ce_callsign) key.

(** Refresh the entry of an upper-case callsign, or put a new one at the head of
    its chain; [mem] is whether the allocator has a cell, and [early] whether
    the gauge is raised before that is known. *)
Definition call_insert (mem early : bool) (expirytime : Z) (key : list Z) (db : calldb) : calldb * bool :=
  let hash := keyhash key 0 in
  let idx := index hash in
  let b := bucket db.(cd_hash) idx in
  match List.find (call_match hash key) b with
  | Some _ =>
      (mk_calldb (set_bucket db.(cd_hash) idx (alter_first (call_match hash key) (set_ce_expirytime expirytime) b))
         db.(cd_gauge), true)
  | None =>
      if mem then (mk_calldb (set_bucket db.(cd_hash) idx (mk_entry expirytime hash key :: b)) (db.(cd_gauge) + 1), true)
      else (mk_calldb db.(cd_hash) (if early then db.(cd_gauge) + 1 else db.(cd_gauge)), false)
  end.

(** The first entry of the callsign whose expiry time is more than a minute ago. *)
Definition call_lookup (tick : Z) (key : list Z) (db : calldb) : bool :=
  let hash := keyhashuc key 0 in
  existsb (fun f => (f.(ce_hash) =? hash) && (zlen f.(ce_callsign) =? zlen key)
                    && caseeq f.(ce_callsign) key && (f.(ce_expirytime) <? tick - 60))
    (bucket db.(cd_hash) (index hash)).

Definition call_cleanup (tick : Z) (db : calldb) : calldb :=
  let t := sweep size (List.filter (fun f => negb (f.(ce_expirytime) <=? tick))) db.(cd_hash) in
  mk_calldb t (db.(cd_gauge) - (zlen (entries size db.(cd_hash)) - zlen (entries size t))).

Definition call_atend (db : calldb) : calldb :=
  mk_calldb (sweep size (fun _ => []) db.(cd_hash)) (db.(cd_gauge) - zlen (entries size db.(cd_hash))).

Definition call_dump (db : calldb) : list (Z * list Z) :=
  map (fun f => (f.(ce_expirytime), f.(ce_callsign))) (entries size db.(cd_hash)).
End Calldb.

Definition entrycall_buckets : nat := Z.to_nat FILTER_ENTRYCALL_HASHSIZE.
Definition wx_buckets : nat := Z.to_nat FILTER_WX_HASHSIZE.
Arguments entrycall_buckets : simpl never.
Arguments wx_buckets : simpl never.

(** ** Entry igates *)

(** The callsign after the Q construct in upper case, up to a comma or a colon. *)
Fixpoint entry_key (n : nat) (s : list Z) (p : Z) : option (list Z) :=
  match n with
  | O => Some []
  | S n' =>
      c ← rd s p;
      if (c =? ch_comma) || (c =? ch_colon) then Some []
      else k ← entry_key n' s (p + 1); Some (toupper c :: k)
  end.

Definition filter_entrycall_insert (mem : bool) (tick : Z) (pb : pbuf_t) (db : calldb)
    : option (pbuf_t * calldb * Z) :=
  let key := pb.(pb_qconst_start) + 4 in
  qcons ← rd pb.(pb_data) (pb.(pb_qconst_start) + 2);
  uckey ← entry_key (Z.to_nat CALLSIGNLEN_MAX) pb.(pb_data) key;
  c ← rd pb.(pb_data) (key + zlen uckey);
  if (negb (c =? ch_comma) && negb (c =? ch_colon)) || (zlen uckey <? CALLSIGNLEN_MIN) then Some (pb, db, 0)
  else
    let pb := set_pb_entrycall_len (zlen uckey) pb in
    if negb (qcons =? 114) && negb (qcons =? 82) then Some (pb, db, 0)
    else
      let '(db, ok) := call_insert entrycall_index mem false (tick + filter_entrycall_maxage) uckey db in
      Some (pb, db, if (ok : bool) then 1 else 0).

Definition filter_entrycall_lookup (tick : Z) (pb : pbuf_t) (db : calldb) : option bool :=
  key ← rd_range pb.(pb_data) (pb.(pb_qconst_start) + 4) pb.(pb_entrycall_len);
  Some (call_lookup entrycall_index tick key db).

Definition filter_entrycall_cleanup : Z -> calldb -> calldb := call_cleanup entrycall_buckets.
Definition filter_entrycall_atend : calldb -> calldb := call_atend entrycall_buckets.
Definition filter_entrycall_dump : calldb -> list (Z * list Z) := call_dump entrycall_buckets.

(** ** Weather stations *)

(** The source callsign in upper case; the loop also ends at a [>]. *)
Fixpoint wx_key (n : nat) (s : list Z) (p : Z) : option (list Z) :=
  match n with
  | O => Some []
  | S n' => c ← rd s p; if c =? ch_gt then Some [] else k ← wx_key n' s (p + 1); Some (toupper c :: k)
  end.

(** The buffer of the upper-case key is zeroed and has [CALLSIGNLEN_MAX+1] bytes,
    of which [keylen] are hashed and compared. *)
Definition filter_wx_insert (mem : bool) (tick : Z) (pb : pbuf_t) (db : calldb) : option calldb :=
  let keylen := pb.(pb_srccall_end) in
  if negb (has pb.(pb_packettype) T_WX && negb (has pb.(pb_flags) F_HASPOS)) then Some db
  else
    k ← wx_key (Z.to_nat (Z.min keylen CALLSIGNLEN_MAX)) pb.(pb_data) 0;
    uckey ← rd_range (k ++ repeat 0 (Z.to_nat (CALLSIGNLEN_MAX + 1) - length k)) 0 keylen;
    Some (call_insert wx_index mem true (tick + filter_wx_maxage) uckey db).1.

Definition filter_wx_lookup (tick : Z) (pb : pbuf_t) (db : calldb) : option bool :=
  key ← rd_range pb.(pb_data) 0 pb.(pb_srccall_end);
  Some (call_lookup wx_index tick key db).

Definition filter_wx_cleanup : Z -> calldb -> calldb := call_cleanup wx_buckets.
Definition filter_wx_atend : calldb -> calldb := call_atend wx_buckets.
Definition filter_wx_dump : calldb -> list (Z * list Z) := call_dump wx_buckets.

(** ** Searching for a text *)

(** The two nested loops of [aprsc_strnstr] over the [len] bytes at [p], for the
    text [c2 :: rest]; on a match the pointer is behind its first character. *)
Fixpoint strnstr_loop (len : nat) (s : list Z) (p c2 : Z) (rest : list Z) : option (option Z) :=
  match len with
  | O => Some None
  | S len =>
      c1 ← rd s p;
      if c1 =? 0 then Some None
      else if negb (c1 =? c2) then strnstr_loop len s (p + 1) c2 rest
      else if (len <? length rest)%nat then Some None
      else
        eq ← strncmp_eq s (p + 1) rest;
        if (eq : bool) then Some (Some (p + 1)) else strnstr_loop len s (p + 1) c2 rest
  end.

Definition aprsc_strnstr (s : list Z) (p : Z) (s2 : list Z) (len : Z) : option (option Z) :=
  match s2 with
  | c2 :: rest => if len <? 0 then None else strnstr_loop (Z.to_nat len) s p c2 rest
  | [] => None
  end.

(** ** The two hooks *)

Record filterdb := mk_filterdb {
  fd_entrycall : calldb;
  fd_wx : calldb
}.

Definition filterdb_zero : filterdb := mk_filterdb calldb_zero calldb_zero.

Definition filter_check_tcpip (pb : pbuf_t) : option pbuf_t :=
  m ← aprsc_strnstr pb.(pb_data) pb.(pb_dstcall_end) (str ",TCPIP*,")
        (pb.(pb_qconst_start) - pb.(pb_dstcall_end));
  Some (match m with Some _ => add_flag F_HAS_TCPIP pb | None => pb end).

Definition filter_keyhashes (pb : pbuf_t) : option pbuf_t :=
  src ← rd_range pb.(pb_data) 0 pb.(pb_srccall_end);
  let pb := set_pb_srccall_hash (keyhashuc src 0) pb in
  pb ← (if pb.(pb_srcname) =? 0 then Some (set_pb_srcname_hash pb.(pb_srccall_hash) pb)
        else name ← rd_range pb.(pb_data) pb.(pb_srcname) pb.(pb_srcname_len);
             Some (set_pb_srcname_hash (keyhashuc name 0) pb));
  match pb.(pb_dstname) with
  | Some d => name ← rd_range pb.(pb_data) d pb.(pb_dstname_len);
              Some (set_pb_dstname_hash (keyhashuc name 0) pb)
  | None => Some pb
  end.

Definition filter_preprocess_dupefilter (cfg : config) (mem : bool) (tick : Z) (pb : pbuf_t) (st : filterdb)
    : option (pbuf_t * filterdb) :=
  pb ← filter_check_tcpip pb;
  '(pb, st) ← (if cfg.(have_filtered_listeners) then
                 '(pb, e, _) ← filter_entrycall_insert mem tick pb st.(fd_entrycall);
                 w ← filter_wx_insert mem tick pb st.(fd_wx);
                 Some (pb, mk_filterdb e w)
               else Some (pb, st));
  pb ← filter_keyhashes pb;
  Some (pb, st).

Definition filter_postprocess_dupefilter (cfg : config) (tick : Z) (pb : pbuf_t) (db : historydb)
    : option (pbuf_t * historydb) :=
  if negb (has pb.(pb_flags) F_HASPOS) then
    name ← rd_range pb.(pb_data) pb.(pb_srcname) pb.(pb_srcname_len);
    let '(db, r) := historydb_lookup cfg tick name db in
    Some (match r with
          | Some hist =>
              add_flag F_HASPOS (set_pb_cos_lat hist.(hc_coslat) (set_pb_lng hist.(hc_lon) (set_pb_lat hist.(hc_lat) pb)))
          | None => pb
          end, db)
  else Some (pb, db).

(** * The search finds the first occurrence *)

Lemma slice_cons s p n c : rd s p = Some c -> 0 <= n -> slice s p (1 + n) = c :: slice s (p + 1) n.
Proof.
  intros Hc Hn. unfold slice, rd in *. destruct (0 <=? p) eqn:E; [|done].
  replace (Z.to_nat (p + 1)) with (S (Z.to_nat p)) by lia.
  replace (Z.to_nat (1 + n)) with (S (Z.to_nat n)) by lia. by rewrite (drop_S _ _ _ Hc).
Qed.

Lemma strncmp_eq_spec s off lit :
  0 <= off -> off + zlen lit <= zlen s ->
  strncmp_eq s off lit = Some (beq (slice s off (zlen lit)) lit).
Proof.
  revert off. induction lit as [|x lit IH]; intros off Ho Hl.
  - cbn. unfold slice. rewrite take_0. done.
  - rewrite zlen_cons in *. pose proof (zlen_nonneg lit). cbn [strncmp_eq].
    destruct (rd_in s off) as [c Hc]; [lia|]. rewrite Hc. cbn [mbind option_bind].
    rewrite (slice_cons _ _ _ _ Hc) by lia.
    destruct (Z.eqb_spec c x) as [->|Hne].
    + rewrite IH by lia. f_equal. unfold beq. apply bool_decide_ext. split; [by intros ->|by intros [=]].
    + f_equal. symmetry. apply bool_decide_eq_false_2. by intros [=].
Qed.

Lemma starts_with_slice s p n lit :
  0 <= p -> 0 <= n -> p + n <= zlen s -> zlen lit <= n ->
  starts_with lit (slice s p n) = beq (slice s p (zlen lit)) lit.
Proof.
  intros Hp Hn Hs Hl. pose proof (zlen_nonneg lit).
  assert (take (length lit) (slice s p n) = slice s p (zlen lit)) as Ht.
  { unfold slice, zlen in *. rewrite take_take. f_equal. lia. }
  destruct (starts_with lit (slice s p n)) eqn:E; symmetry.
  - apply starts_with_spec in E as [t E]. apply bool_decide_eq_true. rewrite <- Ht, E.
    by rewrite take_app_length.
  - apply bool_decide_eq_false. intros Hb. rewrite <- Hb, <- Ht in E.
    assert (starts_with (take (length lit) (slice s p n)) (slice s p n) = true); [|congruence].
    apply starts_with_spec. exists (drop (length lit) (slice s p n)). by rewrite take_drop.
Qed.

Lemma starts_with_short needle h : (length h < length needle)%nat -> starts_with needle h = false.
Proof.
  intros Hl. destruct (starts_with needle h) eqn:E; [|done].
  apply starts_with_spec in E as [t ->]. rewrite length_app in Hl. lia.
Qed.

Lemma find_sub_short needle h : (length h < length needle)%nat -> find_sub needle h = None.
Proof.
  induction h as [|x h IH]; intros Hl; cbn [find_sub]; rewrite starts_with_short by done; [done|].
  cbn in Hl. by rewrite IH by lia.
Qed.

(** A text without NULs is not found across one. *)
Lemma starts_with_cstr lit h : 0 ∉ lit -> starts_with lit (cstr h) = starts_with lit h.
Proof.
  revert h. induction lit as [|x lit IH]; intros h Hz; [done|]. apply not_elem_of_cons in Hz as [Hx Hz].
  destruct h as [|c h]; [done|]. cbn [cstr]. destruct (Z.eqb_spec c 0) as [->|].
  - cbn. destruct (Z.eqb_spec x 0); [congruence|done].
  - cbn. by rewrite IH.
Qed.

Lemma strnstr_loop_spec len s p c2 rest :
  0 <= p -> p + Z.of_nat len <= zlen s -> 0 ∉ c2 :: rest ->
  strnstr_loop len s p c2 rest =
  Some ((fun k => p + Z.of_nat k + 1) <$> find_sub (c2 :: rest) (cstr (slice s p (Z.of_nat len)))).
Proof.
  intros Hp Hl Hz. revert p Hp Hl. induction len as [|len IH]; intros p Hp Hl; cbn [strnstr_loop].
  { unfold slice. by rewrite take_0. }
  destruct (rd_in s p) as [c Hc]; [lia|]. rewrite Hc. cbn [mbind option_bind].
  replace (Z.of_nat (S len)) with (1 + Z.of_nat len) in * by lia.
  rewrite (slice_cons _ _ _ _ Hc) by lia. cbn [cstr]. destruct (Z.eqb_spec c 0); [done|].
  specialize (IH (p + 1) ltac:(lia) ltac:(lia)). set (h := slice s (p + 1) (Z.of_nat len)) in *.
  assert ((fun k => p + 1 + Z.of_nat k + 1) <$> find_sub (c2 :: rest) (cstr h)
    = (fun k => p + Z.of_nat k + 1) <$> (S <$> find_sub (c2 :: rest) (cstr h))) as Hsh.
  { destruct (find_sub _ _); cbn; [|done]. f_equal. lia. }
  cbn [find_sub starts_with]. rewrite (Z.eqb_sym c2 c).
  destruct (Z.eqb_spec c c2) as [->|Hne]; cbn [negb andb]; [|by rewrite IH, Hsh].
  assert (length (cstr h) <= len)%nat as Hlen.
  { pose proof (zlen_slice s (p + 1) (Z.of_nat len)). pose proof (zlen_cstr h). unfold h, zlen in *. lia. }
  apply not_elem_of_cons in Hz as [_ Hz].
  destruct (Nat.ltb_spec len (length rest)) as [Hs|Hs].
  - rewrite starts_with_short by lia. rewrite find_sub_short by (cbn; lia). done.
  - rewrite starts_with_cstr by done. unfold h at 1.
    rewrite strncmp_eq_spec, (starts_with_slice s (p + 1)) by (unfold zlen in *; lia).
    cbn [mbind option_bind]. destruct (beq _ _); [cbn; f_equal; f_equal; lia|]. by rewrite IH, Hsh.
Qed.

(** [aprsc_strnstr] is a search for the text: among the bytes of the buffer
    before the first NUL it finds the first occurrence of a text, pointing behind
    its first character, and nothing when there is none. *)
Theorem aprsc_strnstr_search s p c2 rest len :
  0 <= p -> 0 <= len -> p + len <= zlen s -> 0 ∉ c2 :: rest ->
  aprsc_strnstr s p (c2 :: rest) len =
  Some ((fun k => p + Z.of_nat k + 1) <$> find_sub (c2 :: rest) (cstr (slice s p len))).
Proof.
  intros Hp Hl Hs Hz. unfold aprsc_strnstr. destruct (Z.ltb_spec len 0); [lia|].
  rewrite strnstr_loop_spec by (rewrite ?Z2Nat.id by lia; done || lia). by rewrite Z2Nat.id by lia.
Qed.

(** * The tables as maps *)

Section Maps.
Context (index : Z -> Z) (n : nat) (Hindex : forall h, 0 <= index h < Z.of_nat n).

Definition call_index (k : list Z) : Z := index (keyhash k 0).
Definition call_view (db : calldb) : gmap (list Z) Z := view ce_callsign ce_expirytime n db.(cd_hash).

(** Entries carry their hash and are in upper case; the gauge counts them. *)
Definition entry_ok (f : call_entry) : Prop :=
  f.(ce_hash) = keyhash f.(ce_callsign) 0 /\ map toupper f.(ce_callsign) = f.(ce_callsign).

Record calldb_wf (db : calldb) : Prop := {
  cw_table : table_wf ce_callsign call_index db.(cd_hash);
  cw_entry : forall i f, f ∈ bucket db.(cd_hash) i -> entry_ok f;
  cw_gauge : db.(cd_gauge) = zlen (entries n db.(cd_hash))
}.

Lemma calldb_wf_zero : calldb_wf calldb_zero.
Proof.
  split; cbn [calldb_zero cd_hash cd_gauge]; [apply wf_empty| |by rewrite entries_empty].
  intros i f Hf. rewrite bucket_empty in Hf. by apply elem_of_nil in Hf.
Qed.

Lemma call_match_key key f : entry_ok f -> call_match (keyhash key 0) key f = has_key ce_callsign key f.
Proof.
  intros [Hh _]. unfold call_match, has_key, beq. rewrite Hh.
  destruct (decide (ce_callsign f = key)) as [->|Hne].
  - rewrite !bool_decide_eq_true_2, !Z.eqb_refl by done. done.
  - rewrite !bool_decide_eq_false_2 by done. by rewrite andb_false_r.
Qed.

(** Replacing the chain of a key. *)
Lemma calldb_wf_set db key b g :
  calldb_wf db -> table_wf ce_callsign call_index (set_bucket db.(cd_hash) (call_index key) b) ->
  (forall f, f ∈ b -> entry_ok f) ->
  g = db.(cd_gauge) + zlen b - zlen (bucket db.(cd_hash) (call_index key)) ->
  calldb_wf (mk_calldb (set_bucket db.(cd_hash) (call_index key) b) g).
Proof.
  intros [_ He Hg] Ht Hb ->. split; cbn [cd_hash cd_gauge]; [done| |].
  - intros i f. destruct (decide (call_index key = i)) as [<-|Hi];
      [rewrite bucket_set_eq; apply Hb|rewrite bucket_set_ne by done; apply He].
  - rewrite zlen_entries_set by apply Hindex. lia.
Qed.

(** Inserting refreshes the expiry time of the callsign. *)
Lemma call_insert_map early e key db :
  calldb_wf db -> map toupper key = key ->
  let r := call_insert index true early e key db in
  calldb_wf r.1 /\ call_view r.1 = <[key := e]> (call_view db) /\ r.2 = true.
Proof.
  intros Hwf Hu. unfold call_insert. fold (call_index key).
  assert (forall f, f ∈ bucket (cd_hash db) (call_index key) ->
    call_match (keyhash key 0) key f = has_key ce_callsign key f) as Hm
    by (intros f Hf; by eapply call_match_key, cw_entry).
  rewrite (find_ext _ _ _ Hm), (alter_first_ext _ _ _ _ Hm). assert (Hw := cw_table _ Hwf).
  change (List.find (has_key ce_callsign key) (bucket (cd_hash db) (call_index key)))
    with (chain_find ce_callsign key (bucket (cd_hash db) (call_index key))).
  destruct (chain_find ce_callsign key (bucket (cd_hash db) (call_index key))) as [f|] eqn:E; cbn [fst snd].
  - destruct (view_alter ce_callsign ce_expirytime call_index n ltac:(intros; apply Hindex)
      (cd_hash db) key (set_ce_expirytime e) f ltac:(done) Hw E) as [Hw' Hv].
    split; [|split; [exact Hv|done]]. apply calldb_wf_set; [done|done| |rewrite zlen_alter_first; lia].
    intros x Hx. apply elem_of_alter_first in Hx as [Hx|(y & Hy & _ & ->)];
      [by eapply cw_entry|]. by apply (cw_entry _ Hwf) in Hy as [??].
  - set (f := mk_entry e (keyhash key 0) key).
    destruct (view_put ce_callsign ce_expirytime call_index n ltac:(intros; apply Hindex)
      (cd_hash db) f Hw) as [Hw' Hv]. cbn [f ce_callsign ce_expirytime] in Hw', Hv.
    rewrite (unlink_absent ce_callsign key) in Hw', Hv by done.
    split; [|split; [exact Hv|done]]. apply calldb_wf_set; [done|done| |rewrite zlen_cons; lia].
    intros x [->|Hx]%elem_of_cons; [done|by eapply cw_entry].
Qed.

(** Cleaning drops what has expired. *)
Lemma call_cleanup_map tick db :
  calldb_wf db ->
  calldb_wf (call_cleanup n tick db) /\
  call_view (call_cleanup n tick db) = filter (fun kv => tick < kv.2) (call_view db).
Proof.
  intros [Hw He Hg].
  destruct (view_filter ce_callsign ce_expirytime call_index n ltac:(intros; apply Hindex) (cd_hash db)
    (fun f => negb (ce_expirytime f <=? tick)) (fun kv => tick < kv.2)) as [Hw' Hv]; [|done|].
  { intros f. cbn [snd]. rewrite negb_true_iff. lia. }
  split; [|exact Hv]. split; cbn [call_cleanup cd_hash cd_gauge]; [done| |lia].
  intros i f. rewrite bucket_sweep. split_if; [|apply He]. intros Hf.
  eapply He, elem_of_sublist, filter_sublist. done.
Qed.

Lemma toupper_tolower a b : toupper a = a -> (tolower a = tolower b <-> a = toupper b).
Proof. unfold toupper, tolower, islower, isupper. intros H. repeat (split_if_in H || split_if); lia. Qed.

Lemma caseeq_upper a b : map toupper a = a -> caseeq a b = bool_decide (a = map toupper b).
Proof.
  intros Ha. unfold caseeq. apply bool_decide_ext. revert b. induction a as [|x a IH]; intros [|y b]; cbn; try done.
  injection Ha as Hx Ha. split; intros [= H1 H2]; f_equal;
    try (by apply (toupper_tolower x y)); by apply IH.
Qed.

(** Looking a callsign up, in any case, answers whether it expired over a minute
    ago. *)
Lemma call_lookup_map tick key db :
  calldb_wf db ->
  call_lookup index tick key db =
  match call_view db !! map toupper key with Some e => e <? tick - 60 | None => false end.
Proof.
  intros Hwf. unfold call_lookup, call_view. rewrite (view_lookup _ _ call_index n) by (try apply Hwf; intros; apply Hindex).
  rewrite keyhashuc_map. fold (call_index (map toupper key)). set (b := bucket _ _).
  assert (forall f, f ∈ b -> entry_ok f) as He by (intros f Hf; by eapply cw_entry).
  pose proof (tw_nodup _ _ _ (cw_table _ Hwf) (call_index (map toupper key))) as Hnd. fold b in Hnd.
  induction b as [|f b IH]; [done|]. cbn [map] in Hnd. apply list.NoDup_cons in Hnd as [Hf Hnd].
  cbn [existsb]. rewrite IH by (try done; intros g Hg; apply He, elem_of_cons; by right).
  destruct (He f) as [Hh Hu]; [apply elem_of_cons; by left|]. rewrite (caseeq_upper _ _ Hu), Hh.
  unfold chain_find. cbn [List.find].
  destruct (decide (ce_callsign f = map toupper key)) as [Heq|Hne].
  - rewrite !bool_decide_eq_true_2 by done. rewrite Heq, !Z.eqb_refl. unfold zlen. rewrite length_map, Z.eqb_refl.
    cbn [andb fmap option_fmap option_map].
    destruct (List.find _ b) as [g|] eqn:Eg; cbn; [|by rewrite orb_false_r].
    exfalso. apply Hf. rewrite Heq. fold (chain_find ce_callsign (map toupper key) b) in Eg.
    apply chain_find_Some in Eg as [Hg <-]. by apply list_elem_of_fmap_2.
  - rewrite !bool_decide_eq_false_2 by done. by rewrite andb_false_r.
Qed.

Lemma call_view_size db : calldb_wf db -> db.(cd_gauge) = Z.of_nat (size (call_view db)).
Proof. intros [Hw _ ->]. by apply (view_size _ _ call_index). Qed.
End Maps.

(** * What the preparation of a packet does *)

Definition is_sep (c : Z) : bool := (c =? ch_comma) || (c =? ch_colon).

Fixpoint before_sep (s : list Z) : list Z :=
  match s with
  | [] => []
  | c :: t => if is_sep c then [] else c :: before_sep t
  end.

(** The entry station: the callsign after the Q construct, when it has an
    acceptable length. *)
Definition entry_call (pb : pbuf_t) : option (list Z) :=
  let call := before_sep (drop (Z.to_nat (pb.(pb_qconst_start) + 4)) pb.(pb_data)) in
  if (CALLSIGNLEN_MIN <=? zlen call) && (zlen call <=? CALLSIGNLEN_MAX) then Some call else None.

Definition q_type_r (pb : pbuf_t) : bool :=
  match rd pb.(pb_data) (pb.(pb_qconst_start) + 2) with Some q => (q =? 114) || (q =? 82) | None => false end.

(** The igate a packet shows to be one, and the weather station it shows. *)
Definition igate_of (pb : pbuf_t) : option (list Z) :=
  call ← entry_call pb; if q_type_r pb then Some (map toupper call) else None.
Definition weather_of (pb : pbuf_t) : option (list Z) :=
  if has pb.(pb_packettype) T_WX && negb (has pb.(pb_flags) F_HASPOS)
  then Some (map toupper (slice pb.(pb_data) 0 pb.(pb_srccall_end))) else None.

Definition tcpip_in_path (pb : pbuf_t) : bool :=
  bool_decide (is_Some (find_sub (str ",TCPIP*,")
    (cstr (slice pb.(pb_data) pb.(pb_dstcall_end) (pb.(pb_qconst_start) - pb.(pb_dstcall_end)))))).

(** The packet with its flag, its entry station and its hashes. *)
Definition preprocessed (cfg : config) (pb : pbuf_t) : pbuf_t :=
  let pb1 := if tcpip_in_path pb then add_flag F_HAS_TCPIP pb else pb in
  let pb2 := if cfg.(have_filtered_listeners)
             then match entry_call pb with Some call => set_pb_entrycall_len (zlen call) pb1 | None => pb1 end
             else pb1 in
  let pb3 := set_pb_srcname_hash (keyhashuc (slice pb.(pb_data) pb.(pb_srcname) pb.(pb_srcname_len)) 0)
               (set_pb_srccall_hash (keyhashuc (slice pb.(pb_data) 0 pb.(pb_srccall_end)) 0) pb2) in
  match pb.(pb_dstname) with
  | Some d => set_pb_dstname_hash (keyhashuc (slice pb.(pb_data) d pb.(pb_dstname_len)) 0) pb3
  | None => pb3
  end.

(** What the input side guarantees: the Q construct lies in the header, the names
    in the buffer, and the source callsign is one. *)
Record pre_ok (pb : pbuf_t) : Prop := {
  pk_path : 0 <= pb.(pb_dstcall_end) <= pb.(pb_qconst_start);
  pk_colon : pb.(pb_qconst_start) + 4 < pb.(pb_info_start) /\
    rd pb.(pb_data) (pb.(pb_info_start) - 1) = Some ch_colon;
  pk_src : 0 <= pb.(pb_srccall_end) <= CALLSIGNLEN_MAX /\ pb.(pb_srccall_end) <= zlen pb.(pb_data);
  pk_gt : ch_gt ∉ slice pb.(pb_data) 0 pb.(pb_srccall_end);
  pk_name : 0 <= pb.(pb_srcname) /\ 0 <= pb.(pb_srcname_len) /\
    pb.(pb_srcname) + pb.(pb_srcname_len) <= zlen pb.(pb_data) /\
    (pb.(pb_srcname) = 0 -> pb.(pb_srcname_len) = pb.(pb_srccall_end));
  pk_dst : match pb.(pb_dstname) with
           | Some d => 0 <= d /\ 0 <= pb.(pb_dstname_len) /\ d + pb.(pb_dstname_len) <= zlen pb.(pb_data)
           | None => True
           end
}.

Lemma drop_rd s p c : rd s p = Some c -> drop (Z.to_nat p) s = c :: drop (Z.to_nat (p + 1)) s.
Proof.
  unfold rd. destruct (0 <=? p) eqn:E; [|done]. intros H. rewrite (drop_S _ _ _ H).
  by replace (Z.to_nat (p + 1)) with (S (Z.to_nat p)) by lia.
Qed.

(** There is a separator at [q]: the text before the first one from [p] on. *)
Lemma before_sep_spec s p q :
  0 <= p <= q -> rd s q = Some ch_colon ->
  let call := before_sep (drop (Z.to_nat p) s) in
  (exists c, rd s (p + zlen call) = Some c /\ is_sep c = true) /\
  (forall j, 0 <= j < zlen call -> exists c, rd s (p + j) = Some c /\ is_sep c = false).
Proof.
  intros Hp Hq. remember (Z.to_nat (q - p)) as d eqn:Hd. revert p Hp Hd.
  induction d as [|d IH]; intros p Hp Hd.
  - replace p with q in * by lia. rewrite (drop_rd _ _ _ Hq). split.
    + exists ch_colon. cbn. by rewrite Z.add_0_r.
    + intros j Hj. change (0 <= j < 0) in Hj. lia.
  - destruct (rd_in s p) as [c Hc]; [apply rd_Some in Hq; lia|]. rewrite (drop_rd _ _ _ Hc). cbn [before_sep].
    destruct (is_sep c) eqn:Es; [split; [cbn; rewrite Z.add_0_r; eauto|intros j Hj; change (0 <= j < 0) in Hj; lia]|].
    destruct (IH (p + 1) ltac:(lia) ltac:(lia)) as [H1 H2]. cbv zeta. rewrite zlen_cons. split.
    + by rewrite Z.add_assoc.
    + intros j Hj. destruct (decide (j = 0)) as [->|]; [rewrite Z.add_0_r; eauto|].
      replace (p + j) with (p + 1 + (j - 1)) by lia. apply H2. lia.
Qed.

Lemma entry_key_spec n s p q :
  0 <= p <= q -> rd s q = Some ch_colon ->
  entry_key n s p = Some (map toupper (take n (before_sep (drop (Z.to_nat p) s)))).
Proof.
  intros Hp Hq. revert p Hp. induction n as [|n IH]; intros p Hp; cbn [entry_key]; [by rewrite take_0|].
  destruct (rd_in s p) as [c Hc]; [apply rd_Some in Hq; lia|]. rewrite Hc. cbn [mbind option_bind].
  rewrite (drop_rd _ _ _ Hc). cbn [before_sep]. fold (is_sep c). destruct (is_sep c) eqn:Es; [done|].
  assert (p <> q) by (intros ->; rewrite Hq in Hc; by injection Hc as <-).
  rewrite IH by lia. done.
Qed.

Lemma wx_key_spec n s p :
  0 <= p -> p + Z.of_nat n <= zlen s -> ch_gt ∉ slice s p (Z.of_nat n) ->
  wx_key n s p = Some (map toupper (slice s p (Z.of_nat n))).
Proof.
  revert p. induction n as [|n IH]; intros p Hp Hl Hg; cbn [wx_key]; [unfold slice; by rewrite take_0|].
  destruct (rd_in s p) as [c Hc]; [lia|]. rewrite Hc. cbn [mbind option_bind].
  replace (Z.of_nat (S n)) with (1 + Z.of_nat n) in * by lia.
  rewrite (slice_cons _ _ _ _ Hc) in * by lia. apply not_elem_of_cons in Hg as [Hg0 Hg].
  destruct (Z.eqb_spec c ch_gt); [congruence|]. by rewrite IH by (done || lia).
Qed.

Lemma is_sep_negb c : negb (c =? ch_comma) && negb (c =? ch_colon) = negb (is_sep c).
Proof. unfold is_sep. by rewrite negb_orb. Qed.

Lemma entrycall_insert_spec mem tick pb db :
  pre_ok pb ->
  exists rc, filter_entrycall_insert mem tick pb db =
  Some (match entry_call pb with Some call => set_pb_entrycall_len (zlen call) pb | None => pb end,
        match igate_of pb with
        | Some call => (call_insert entrycall_index mem false (tick + filter_entrycall_maxage) call db).1
        | None => db
        end, rc).
Proof.
  intros [Hp [Hc Hcolon] _ _ _ _]. unfold filter_entrycall_insert, igate_of, q_type_r, entry_call.
  set (p := pb_qconst_start pb + 4) in *. set (call := before_sep (drop (Z.to_nat p) (pb_data pb))).
  destruct (rd_in (pb_data pb) (pb_qconst_start pb + 2)) as [qc ->]; [apply rd_Some in Hcolon; lia|].
  cbn [mbind option_bind].
  rewrite (entry_key_spec _ _ p (pb_info_start pb - 1)) by (done || lia). cbn [mbind option_bind].
  destruct (before_sep_spec (pb_data pb) p (pb_info_start pb - 1)) as [(c & Hr & Hs) Hb]; [lia|done|].
  fold call in Hr, Hb |- *. pose proof (zlen_nonneg call). unfold CALLSIGNLEN_MAX, CALLSIGNLEN_MIN in *.
  assert (zlen (map toupper (take (Z.to_nat 9) call)) = Z.min 9 (zlen call)) as ->
    by (unfold zlen; rewrite length_map, length_take; lia).
  destruct (Z.leb_spec (zlen call) 9) as [Hle|Hgt].
  - replace (Z.min 9 (zlen call)) with (zlen call) by lia. rewrite Hr. cbn [mbind option_bind].
    rewrite is_sep_negb, Hs. cbn [negb orb]. rewrite andb_true_r.
    destruct (Z.ltb_spec (zlen call) 3), (Z.leb_spec 3 (zlen call)); try lia; cbn [mbind option_bind]; [eauto|].
    rewrite <- negb_orb. destruct ((qc =? 114) || (qc =? 82)); cbn [negb]; [|eauto].
    rewrite firstn_all2 by (unfold zlen in *; lia).
    destruct (call_insert _ _ _ _ _ _) as [db' ok]. eauto.
  - replace (Z.min 9 (zlen call)) with 9 by lia. destruct (Hb 9) as (c' & -> & Hs'); [lia|].
    cbn [mbind option_bind]. rewrite is_sep_negb, Hs'. cbn [negb orb]. rewrite andb_false_r. eauto.
Qed.

Lemma wx_insert_spec mem tick pb db :
  pre_ok pb ->
  filter_wx_insert mem tick pb db =
  Some (match weather_of pb with
        | Some call => (call_insert wx_index mem true (tick + filter_wx_maxage) call db).1
        | None => db
        end).
Proof.
  intros [_ _ [Hs1 Hs2] Hg _ _]. unfold filter_wx_insert, weather_of. destruct (_ && _); cbn [negb]; [|done].
  rewrite Z.min_l by lia. unfold CALLSIGNLEN_MAX in *.
  rewrite wx_key_spec; rewrite ?Z2Nat.id by lia; [|lia|lia|done]. cbn [mbind option_bind].
  set (k := map toupper _). assert (zlen k = pb_srccall_end pb) as Hk.
  { unfold k, zlen. rewrite length_map. apply zlen_slice; lia. }
  rewrite rd_range_in.
  - cbn [mbind option_bind]. unfold slice at 1. rewrite <- Hk. unfold zlen. rewrite Nat2Z.id, drop_0, take_app_length. done.
  - lia.
  - lia.
  - rewrite zlen_app. pose proof (zlen_nonneg (repeat 0 (Z.to_nat (9 + 1) - length k))). lia.
Qed.

Lemma check_tcpip_spec pb :
  pre_ok pb -> filter_check_tcpip pb = Some (if tcpip_in_path pb then add_flag F_HAS_TCPIP pb else pb).
Proof.
  intros [Hp [Hc Hcolon] _ _ _ _]. apply rd_Some in Hcolon. unfold filter_check_tcpip, tcpip_in_path, aprsc_strnstr.
  destruct (Z.ltb_spec (pb_qconst_start pb - pb_dstcall_end pb) 0); [lia|].
  change (str ",TCPIP*,") with (44 :: str "TCPIP*,"). cbn [str].
  rewrite strnstr_loop_spec; rewrite ?Z2Nat.id by lia; [|lia|lia|].
  - cbn [mbind option_bind]. set (f := find_sub _ _). by destruct f.
  - intros Hz. apply list_elem_of_In in Hz. cbn in Hz. intuition discriminate.
Qed.

Lemma keyhashes_spec pb :
  pre_ok pb ->
  filter_keyhashes pb =
  let pb3 := set_pb_srcname_hash (keyhashuc (slice pb.(pb_data) pb.(pb_srcname) pb.(pb_srcname_len)) 0)
               (set_pb_srccall_hash (keyhashuc (slice pb.(pb_data) 0 pb.(pb_srccall_end)) 0) pb) in
  Some (match pb.(pb_dstname) with
        | Some d => set_pb_dstname_hash (keyhashuc (slice pb.(pb_data) d pb.(pb_dstname_len)) 0) pb3
        | None => pb3
        end).
Proof.
  intros [_ _ [Hs Hl] _ (Hn1 & Hn2 & Hn3 & Hn4) Hd]. unfold filter_keyhashes.
  rewrite rd_range_in by lia. cbn [mbind option_bind].
  set (h := keyhashuc (slice (pb_data pb) 0 (pb_srccall_end pb)) 0).
  assert ((if pb_srcname (set_pb_srccall_hash h pb) =? 0
           then Some (set_pb_srcname_hash (pb_srccall_hash (set_pb_srccall_hash h pb)) (set_pb_srccall_hash h pb))
           else name ← rd_range (pb_data (set_pb_srccall_hash h pb)) (pb_srcname (set_pb_srccall_hash h pb))
                         (pb_srcname_len (set_pb_srccall_hash h pb));
                Some (set_pb_srcname_hash (keyhashuc name 0) (set_pb_srccall_hash h pb)))
    = Some (set_pb_srcname_hash (keyhashuc (slice (pb_data pb) (pb_srcname pb) (pb_srcname_len pb)) 0)
              (set_pb_srccall_hash h pb))) as ->.
  { change (pb_srcname (set_pb_srccall_hash h pb)) with (pb_srcname pb).
    destruct (Z.eqb_spec (pb_srcname pb) 0) as [E|E]; [by rewrite E, Hn4|].
    rewrite rd_range_in by (cbn; lia). done. }
  cbn [mbind option_bind]. cbv zeta.
  change (pb_dstname (set_pb_srcname_hash _ (set_pb_srccall_hash h pb))) with (pb_dstname pb).
  destruct (pb_dstname pb) as [d|]; [|done]. rewrite rd_range_in by (cbn; tauto). done.
Qed.

(** The databases after a packet. *)
Definition filterdb_put (mem : bool) (tick : Z) (pb : pbuf_t) (st : filterdb) : filterdb :=
  mk_filterdb
    (match igate_of pb with
     | Some call => (call_insert entrycall_index mem false (tick + filter_entrycall_maxage) call st.(fd_entrycall)).1
     | None => st.(fd_entrycall) end)
    (match weather_of pb with
     | Some call => (call_insert wx_index mem true (tick + filter_wx_maxage) call st.(fd_wx)).1
     | None => st.(fd_wx) end).

Lemma preprocess_spec cfg mem tick pb st :
  pre_ok pb ->
  filter_preprocess_dupefilter cfg mem tick pb st =
  Some (preprocessed cfg pb, if cfg.(have_filtered_listeners) then filterdb_put mem tick pb st else st).
Proof.
  intros Hok. unfold filter_preprocess_dupefilter. rewrite check_tcpip_spec by done. cbn [mbind option_bind].
  unfold preprocessed. set (pb1 := if tcpip_in_path pb then _ else pb).
  assert (pre_ok pb1) as Hok1 by (unfold pb1; destruct (tcpip_in_path pb); [by destruct Hok|done]).
  assert (entry_call pb1 = entry_call pb /\ igate_of pb1 = igate_of pb /\ weather_of pb1 = weather_of pb) as (H1 & H2 & H3).
  { unfold pb1. destruct (tcpip_in_path pb); [|done]. repeat split. unfold weather_of, add_flag.
    cbn [set_pb_flags pb_packettype pb_flags pb_data pb_srccall_end]. by rewrite has_lor, orb_false_r. }
  destruct (have_filtered_listeners cfg); cbn [mbind option_bind].
  - destruct (entrycall_insert_spec mem tick pb1 (fd_entrycall st) Hok1) as [rc ->]. cbn [mbind option_bind].
    rewrite H1, H2. set (pb2 := match entry_call pb with Some _ => _ | None => pb1 end).
    assert (pre_ok pb2) as Hok2 by (unfold pb2; destruct (entry_call pb); [by destruct Hok1|done]).
    assert (weather_of pb2 = weather_of pb) as H4 by (rewrite <- H3; unfold pb2; by destruct (entry_call pb)).
    rewrite wx_insert_spec by done. cbn [mbind option_bind]. rewrite keyhashes_spec by done. rewrite H4.
    unfold pb2, pb1. by destruct (entry_call pb), (tcpip_in_path pb).
  - rewrite keyhashes_spec by done. unfold pb1. by destruct (tcpip_in_path pb).
Qed.

(** Before the duplicate check a packet gets exactly its [F_HAS_TCPIP] flag,
    when TCPIP* is in the path before the Q construct, the length of its entry
    station's callsign, and the case-insensitive hashes of its source callsign,
    of the name it is about and of its recipient; nothing is read outside of the
    buffer. *)
Theorem preprocess_effect cfg mem tick pb st :
  pre_ok pb -> exists st', filter_preprocess_dupefilter cfg mem tick pb st = Some (preprocessed cfg pb, st').
Proof. intros Hok. rewrite preprocess_spec by done. eauto. Qed.

(** ** Over a history *)

Inductive filter_event : Type :=
  | FPacket (tick : Z) (pb : pbuf_t)
  | FClean (tick : Z).

Definition filter_step (cfg : config) (st : filterdb) (ev : filter_event) : option filterdb :=
  match ev with
  | FPacket tick pb => snd <$> filter_preprocess_dupefilter cfg true tick pb st
  | FClean tick => Some (mk_filterdb (filter_entrycall_cleanup tick st.(fd_entrycall)) (filter_wx_cleanup tick st.(fd_wx)))
  end.

Definition filter_run (cfg : config) (evs : list filter_event) : option filterdb :=
  fold_left (fun acc ev => st ← acc; filter_step cfg st ev) evs (Some filterdb_zero).

(** Specification: the expiry times of the igates and of the weather stations. *)
Definition seen (maxage tick : Z) (call : option (list Z)) (m : gmap (list Z) Z) : gmap (list Z) Z :=
  match call with Some call => <[call := tick + maxage]> m | None => m end.

Definition igate_spec (m : gmap (list Z) Z) (ev : filter_event) : gmap (list Z) Z :=
  match ev with
  | FPacket tick pb => seen filter_entrycall_maxage tick (igate_of pb) m
  | FClean tick => filter (fun kv => tick < kv.2) m
  end.
Definition weather_spec (m : gmap (list Z) Z) (ev : filter_event) : gmap (list Z) Z :=
  match ev with
  | FPacket tick pb => seen filter_wx_maxage tick (weather_of pb) m
  | FClean tick => filter (fun kv => tick < kv.2) m
  end.

Definition filter_event_ok (ev : filter_event) : Prop :=
  match ev with FPacket _ pb => pre_ok pb | FClean _ => True end.

Lemma entrycall_range h : 0 <= entrycall_index h < Z.of_nat entrycall_buckets.
Proof. apply Z.mod_pos_bound. done. Qed.
Lemma wx_range h : 0 <= wx_index h < Z.of_nat wx_buckets.
Proof. apply Z.mod_pos_bound. done. Qed.

Record filterdb_rel (st : filterdb) (mi mw : gmap (list Z) Z) : Prop := {
  fr_igate_wf : calldb_wf entrycall_index entrycall_buckets st.(fd_entrycall);
  fr_wx_wf : calldb_wf wx_index wx_buckets st.(fd_wx);
  fr_igate : call_view entrycall_buckets st.(fd_entrycall) = mi;
  fr_wx : call_view wx_buckets st.(fd_wx) = mw
}.

Lemma toupper_map_idemp k : map toupper (map toupper k) = map toupper k.
Proof.
  rewrite map_map. apply map_ext. intros c. unfold toupper, islower. repeat split_if; lia.
Qed.

Lemma seen_insert index n early maxage tick k db :
  (forall h, 0 <= index h < Z.of_nat n) -> calldb_wf index n db -> map toupper k = k ->
  let db' := (call_insert index true early (tick + maxage) k db).1 in
  calldb_wf index n db' /\ call_view n db' = <[k := tick + maxage]> (call_view n db).
Proof. intros Hi Hw Hk. by destruct (call_insert_map index n Hi early (tick + maxage) k db Hw Hk) as (? & ? & _). Qed.

Lemma filter_step_rel cfg st mi mw ev :
  cfg.(have_filtered_listeners) = true -> filterdb_rel st mi mw -> filter_event_ok ev ->
  exists st', filter_step cfg st ev = Some st' /\ filterdb_rel st' (igate_spec mi ev) (weather_spec mw ev).
Proof.
  intros Hf [Hi Hw <- <-] Hok. destruct ev as [tick pb|tick]; cbn [filter_step igate_spec weather_spec].
  - rewrite preprocess_spec, Hf by done. eexists. split; [done|]. unfold filterdb_put, seen.
    assert (forall k, igate_of pb = Some k -> map toupper k = k) as Hui.
    { unfold igate_of. intros k Hk. inv_bind Hk. destruct (q_type_r pb); [|done]. injection Hk as <-. apply toupper_map_idemp. }
    assert (forall k, weather_of pb = Some k -> map toupper k = k) as Huw.
    { unfold weather_of. intros k Hk. destruct (_ && _); [|done]. injection Hk as <-. apply toupper_map_idemp. }
    destruct (igate_of pb) as [k|], (weather_of pb) as [k'|];
      try (destruct (seen_insert entrycall_index entrycall_buckets false filter_entrycall_maxage tick k
             (fd_entrycall st) entrycall_range Hi (Hui _ eq_refl)) as [? ?]);
      try (destruct (seen_insert wx_index wx_buckets true filter_wx_maxage tick k'
             (fd_wx st) wx_range Hw (Huw _ eq_refl)) as [? ?]); by split.
  - eexists. split; [done|].
    destruct (call_cleanup_map entrycall_index entrycall_buckets entrycall_range tick (fd_entrycall st) Hi).
    destruct (call_cleanup_map wx_index wx_buckets wx_range tick (fd_wx st) Hw). by split.
Qed.

Lemma filterdb_rel_zero : filterdb_rel filterdb_zero ∅ ∅.
Proof. split; cbn [filterdb_zero fd_entrycall fd_wx]; try apply calldb_wf_zero; apply view_empty. Qed.

Lemma filter_run_rel cfg evs st mi mw :
  cfg.(have_filtered_listeners) = true -> filterdb_rel st mi mw -> Forall filter_event_ok evs ->
  exists st', fold_left (fun acc ev => st ← acc; filter_step cfg st ev) evs (Some st) = Some st' /\
    filterdb_rel st' (fold_left igate_spec evs mi) (fold_left weather_spec evs mw).
Proof.
  intros Hf. revert st mi mw. induction evs as [|ev evs IH]; intros st mi mw Hr Hok; cbn [fold_left]; [eauto|].
  inversion Hok as [|? ? Hev Hevs]; subst.
  destruct (filter_step_rel cfg st mi mw ev Hf Hr Hev) as (st1 & E & Hr1). cbn [mbind option_bind]. rewrite E. by apply IH.
Qed.

(** The databases of igates and of weather stations are maps from callsigns,
    without regard to case, to expiry times: after any sequence of packets and
    cleanings a packet's igate and its weather station are there with an hour
    added to the time they were last seen, what had expired at a cleaning is
    gone, the gauges count the entries, and a lookup answers yes for the entries
    that expired more than a minute ago. *)
Theorem filterdb_refines cfg evs :
  cfg.(have_filtered_listeners) = true -> Forall filter_event_ok evs ->
  let mi := fold_left igate_spec evs ∅ in
  let mw := fold_left weather_spec evs ∅ in
  exists st, filter_run cfg evs = Some st /\
    st.(fd_entrycall).(cd_gauge) = Z.of_nat (size mi) /\ st.(fd_wx).(cd_gauge) = Z.of_nat (size mw) /\
    forall tick call,
      call_lookup entrycall_index tick call st.(fd_entrycall) =
        match mi !! map toupper call with Some e => e <? tick - 60 | None => false end /\
      call_lookup wx_index tick call st.(fd_wx) =
        match mw !! map toupper call with Some e => e <? tick - 60 | None => false end.
Proof.
  intros Hf Hok mi mw. destruct (filter_run_rel cfg evs filterdb_zero ∅ ∅ Hf filterdb_rel_zero Hok) as (st & Hr & [Hi Hw E1 E2]).
  exists st. split; [done|]. unfold mi, mw. rewrite <- E1, <- E2.
  split; [by apply (call_view_size entrycall_index)|].
  split; [by apply (call_view_size wx_index)|]. intros tick call.
  split; apply call_lookup_map; done || apply entrycall_range || apply wx_range.
Qed.

(** * The sinks of the duplicate checker *)

#[export] Instance historydb_sinks : PacketSinks historydb := {|
  sink_history := fun cfg mem tick pb db => fst <$> historydb_insert cfg mem tick pb db;
  sink_filter := filter_postprocess_dupefilter
|}.

#[export] Instance historydb_sink_laws : SinkLaws historydb.
Proof.
  split.
  - intros cfg mem tick pb db Hi. cbn. unfold historydb_insert.
    destruct (negb _); [by eexists|].
    assert (is_Some (history_key pb)) as [k ->].
    { destruct Hi as [Hb Ha Hd _ _ Hs Hn _]. unfold history_key, name_key, CALLSIGNLEN_MAX in *.
      destruct (has (pb_packettype pb) T_OBJECT), (has (pb_packettype pb) T_ITEM), (has (pb_packettype pb) T_POSITION);
        cbn [orb] in Hn; rewrite ?rd_range_in by lia; by eexists. }
    cbn [mbind option_bind]. destruct k as [[key dead]|]; [|by eexists]. repeat split_if; by eexists.
  - intros cfg tick pb db Hi. cbn. unfold filter_postprocess_dupefilter.
    destruct (negb _); [|by eexists]. rewrite rd_range_in by (destruct Hi as [_ _ _ _ _ _ _ (?&?&?)]; lia). by eexists.
  - intros cfg tick pb db pb' db' H. cbn in H. unfold filter_postprocess_dupefilter in H.
    destruct (negb _); [|injection H as <- <-; by left]. inv_bind H.
    destruct (historydb_lookup _ _ _ _) as [db1 [hist|]]; injection H as <- <-; [|by left]. right. eauto.
Qed.

(** * Instances *)

(** A packet of the input side that an igate delivered. *)
Definition demo_gated (info : string) : pbuf_t :=
  let d := str "OH7LZB>APRS,OH7AA-1*,qAR,OH7AA:" ++ str info ++ [13; 10; 0] in
  mk_pbuf 1 0 0 0 (Z.lor T_ALL T_WX) F_FROM_DOWNSTR 6 4 0 0 0 1000 (zlen d - 1) 300 6 11 11 21 31
    0 None (S754_zero false) (S754_zero false) (S754_zero false) (0, 0) false d.

Lemma demo_gated_ok : pre_ok (demo_gated "_10090556c220").
Proof.
  split; try (vm_compute; intuition congruence).
  intros H. apply list_elem_of_In in H. vm_compute in H. intuition discriminate.
Qed.

Lemma aprsc_strnstr_search_witness :
  aprsc_strnstr (str "APRS,TCPIP*,qAC") 4 (str ",TCPIP*,") 8 = Some (Some 5).
Proof.
  refine (eq_trans (aprsc_strnstr_search (str "APRS,TCPIP*,qAC") 4 44 (str "TCPIP*,") 8 _ _ _ _) _);
    try (vm_compute; (reflexivity || discriminate)).
  intros H. apply list_elem_of_In in H. vm_compute in H. intuition discriminate.
Defined.

Lemma preprocess_effect_witness :
  exists st', filter_preprocess_dupefilter demo_cfg true 1000 (demo_gated "_10090556c220") filterdb_zero =
    Some (preprocessed demo_cfg (demo_gated "_10090556c220"), st').
Proof. apply preprocess_effect. exact demo_gated_ok. Defined.

Lemma filterdb_refines_witness :
  exists st, filter_run demo_cfg [FPacket 1000 (demo_gated "_10090556c220"); FClean 1060] = Some st /\
    st.(fd_entrycall).(cd_gauge) = 1 /\ st.(fd_wx).(cd_gauge) = 1.
Proof.
  destruct (filterdb_refines demo_cfg [FPacket 1000 (demo_gated "_10090556c220"); FClean 1060]) as (st & Hr & H1 & H2 & _).
  - reflexivity.
  - constructor; [exact demo_gated_ok|]. constructor; [exact I|constructor].
  - exists st. split; [exact Hr|]. split; [rewrite H1|rewrite H2]; vm_compute; reflexivity.
Defined.

(** * The validity test is the wrong way round *)

(** A lookup right after a packet of the igate does not find it: the entry is
    found only once it has expired, and by then the next cleaning removes it. *)
Theorem entrycall_lookup_fresh index n (Hindex : forall h, 0 <= index h < Z.of_nat n) early tick tick' key db :
  calldb_wf index n db -> map toupper key = key -> tick' <= tick + filter_entrycall_maxage + 60 ->
  call_lookup index tick' key (call_insert index true early (tick + filter_entrycall_maxage) key db).1 = false.
Proof.
  intros Hw Hk Ht.
  destruct (call_insert_map index n Hindex early (tick + filter_entrycall_maxage) key db Hw Hk) as (Hw' & Hv & _).
  rewrite (call_lookup_map index n Hindex) by done. rewrite Hk, Hv, lookup_insert_eq. lia.
Qed.
