(* ===== verification/Messaging.v ===== *)
(** * messaging.c: messages of the server to a client

    A client may send messages to SERVER; the server acknowledges them and
    answers.  The answers are packets of the server's own, formatted with
    [printf] into a buffer of [PACKETLEN_MAX] bytes and written to the client. *)

From S2P Require Import Prelude Types ParseQc ParseAprs.
From Stdlib Require Import ZArith Lia Bool String.
From stdpp Require Import base tactics list numbers.
Open Scope Z_scope.

(** What the packet path asks of the rest of a worker: the cells of the packet
    buffer arenas, writing to a client, the filter commands, the random numbers
    and the accounting of received and sent packets, for the port of the client's
    transport. *)
Class ServerOps (W : Type) := {
  op_cellmallocmany : Z -> nat -> W -> list pbuf_t * W;
  op_write : client_t -> list Z -> W -> W * Z;
  op_filter_commands : client_t -> bool -> list Z -> Z -> W -> W * Z;
  op_filter_s : client_t -> W -> list Z;
  op_random : W -> Z * W;
  op_account_rx : client_t -> Z -> Z -> Z -> Z -> Z -> W -> W;
  op_account_tx : client_t -> Z -> Z -> W -> W
}.

(** [%-<w>s] *)
Definition pad_right (w : nat) (s : list Z) : list Z := s ++ repeat ch_sp (w - length s).

Definition APRSC_TOCALL : list Z := str "APSC20".

(** [%.*s]: the bytes up to a NUL, at most [n] of them; a negative precision is
    taken as none. *)
Fixpoint prec_str (n : nat) (s : list Z) (off : Z) : option (list Z) :=
  match n with
  | O => Some []
  | S n => c ← rd s off; if c =? 0 then Some [] else t ← prec_str n s (off + 1); Some (c :: t)
  end.

Definition percent_s (s : list Z) (off n : Z) : option (list Z) :=
  prec_str (if n <? 0 then S (length s) else Z.to_nat n) s off.

Section Messaging.
Context {W : Type} `{ServerOps W}.

(** [client_printf] (worker.c): a text that does not fit is not written. *)
Definition client_printf (c : client_t) (text : list Z) (x : W) : W * Z :=
  if zlen text >=? PACKETLEN_MAX then (x, -1) else op_write c text x.

(** The character for a random number. *)
Definition msgid_char (r : Z) : Z :=
  let c := r mod (2 * 26 + 10) in
  if c <? 10 then c + 48 else if c <? 26 + 10 then c - 10 + 97 else c - 36 + 65.

(** [messaging_generate_msgid] with a buffer for [n] characters and a NUL. *)
Fixpoint messaging_generate_msgid (n : nat) (x : W) : list Z * W :=
  match n with
  | O => ([], x)
  | S n =>
      let '(r, x) := op_random x in
      let '(id, x) := messaging_generate_msgid n x in (msgid_char r :: id, x)
  end.

Definition server_header (cfg : config) : list Z :=
  str "SERVER>" ++ APRSC_TOCALL ++ str ",TCPIP*,qAZ," ++ cfg.(serverid) ++ str "::".

(** The line of an acknowledgement and of a message. *)
Definition ack_text (cfg : config) (dst msgid : list Z) : list Z :=
  server_header cfg ++ pad_right 9 dst ++ str ":ack" ++ msgid ++ [13; 10].
Definition message_text (cfg : config) (dst text msgid : list Z) : list Z :=
  server_header cfg ++ pad_right 9 dst ++ [ch_colon] ++ text ++ [ch_lbrace] ++ msgid ++ [13; 10].

Definition messaging_ack (cfg : config) (c : client_t) (pb : pbuf_t) (am : aprs_message_t) (x : W)
    : option (W * Z) :=
  src ← percent_s pb.(pb_data) pb.(pb_srcname) pb.(pb_srcname_len);
  id ← (match am.(am_msgid) with
        | Some p => percent_s pb.(pb_data) p am.(am_msgid_len)
        | None => Some []
        end);
  Some (client_printf c (ack_text cfg src id) x).

(** [messaging_message_client] with an already formatted text, which is cut to the
    buffer. *)
Definition messaging_message_client (cfg : config) (c : client_t) (text : list Z) (x : W) : W * Z :=
  let '(s, _) := snprintf PACKETLEN_MAX text in
  let '(msgid, x) := messaging_generate_msgid 4 x in
  client_printf c (message_text cfg c.(c_username) s msgid) x.
End Messaging.

(** * Lemmas *)

(** Message identifiers are four letters and digits, and so never contain the
    brace that separates them from the text. *)
Lemma msgid_char_alnum r : 0 <= r -> isalnum (msgid_char r) = true.
Proof.
  intros Hr. unfold msgid_char, isalnum, isalpha, isdigit, isupper, islower.
  pose proof (Z.mod_pos_bound r (2 * 26 + 10) ltac:(lia)). repeat split_if; lia.
Qed.
