(* ===== verification/Incoming.v ===== *)
(** * incoming.c: the input side of a worker

    Every line a client sends comes to [incoming_handler], which parses it with
    [incoming_parse]: the header is checked, the Q construct algorithm rewrites
    it, the packet is copied to a packet buffer with its new header, parsed and
    put on the worker's queue for the duplicate checker.  A refused packet gives
    its buffer back. *)

From S2P Require Import Prelude Keyhash Types ParseQc Callsign ParseAprs ClientHeard Dupecheck Historydb.
From S2P Require Import Filterdb Messaging.
From Stdlib Require Import ZArith Lia Bool String SpecFloat.
From stdpp Require Import base tactics list gmap numbers.
Open Scope Z_scope.

(** ** Packet buffers *)

(** The three sizes of buffers and how many are fetched from the arena at once. *)
Inductive pool_class : Set := PoolSmall | PoolMedium | PoolLarge.

Definition pool_len (k : pool_class) : Z :=
  match k with
  | PoolSmall => PACKETLEN_MAX_SMALL
  | PoolMedium => PACKETLEN_MAX_MEDIUM
  | PoolLarge => PACKETLEN_MAX_LARGE
  end.

Definition pool_bunch (k : pool_class) : nat :=
  match k with PoolSmall => 2000 | PoolMedium => 2000 | PoolLarge => 50 end.

(** The smallest class that holds [len] bytes. *)
Definition pool_for (len : Z) : option pool_class :=
  if len <=? PACKETLEN_MAX_SMALL then Some PoolSmall
  else if len <=? PACKETLEN_MAX_MEDIUM then Some PoolMedium
  else if len <=? PACKETLEN_MAX_LARGE then Some PoolLarge
  else None.

(** The queues of a worker the input side uses: the free buffers, the packets not
    yet handed over, and the packets handed over to the duplicate checker. *)
Record worker_t := mk_worker {
  w_free_small : list pbuf_t;
  w_free_medium : list pbuf_t;
  w_free_large : list pbuf_t;
  w_incoming_local : list pbuf_t;
  w_incoming_local_count : Z;
  w_pbuf_incoming : list pbuf_t;
  w_pbuf_incoming_count : Z
}.

Definition w_pool (k : pool_class) (w : worker_t) : list pbuf_t :=
  match k with
  | PoolSmall => w.(w_free_small)
  | PoolMedium => w.(w_free_medium)
  | PoolLarge => w.(w_free_large)
  end.

Definition set_w_pool (k : pool_class) (l : list pbuf_t) (w : worker_t) : worker_t :=
  mk_worker (match k with PoolSmall => l | _ => w.(w_free_small) end)
    (match k with PoolMedium => l | _ => w.(w_free_medium) end)
    (match k with PoolLarge => l | _ => w.(w_free_large) end)
    w.(w_incoming_local) w.(w_incoming_local_count) w.(w_pbuf_incoming) w.(w_pbuf_incoming_count).

(** [pbuf_free] to the pool of the worker: a buffer of unknown size is only
    reported. *)
Definition pbuf_free (pb : pbuf_t) (w : worker_t) : worker_t :=
  if pb.(pb_buf_len) =? PACKETLEN_MAX_SMALL then set_w_pool PoolSmall (pb :: w.(w_free_small)) w
  else if pb.(pb_buf_len) =? PACKETLEN_MAX_MEDIUM then set_w_pool PoolMedium (pb :: w.(w_free_medium)) w
  else if pb.(pb_buf_len) =? PACKETLEN_MAX_LARGE then set_w_pool PoolLarge (pb :: w.(w_free_large)) w
  else w.

(** [memcpy(d + off, src, zlen src)] *)
Definition blit (d : list Z) (off : Z) (src : list Z) : option (list Z) :=
  if (0 <=? off) && (off + zlen src <=? zlen d)
  then Some (take (Z.to_nat off) d ++ src ++ drop (Z.to_nat (off + zlen src)) d) else None.

Section Incoming.
Context {W : Type} `{ServerOps W} `{ClientDirectory}.

Definition pbuf_get (len : Z) (w : worker_t) (x : W) : option pbuf_t * worker_t * W :=
  match pool_for len with
  | None => (None, w, x)
  | Some k =>
      match w_pool k w with
      | pb :: rest => (Some (pbuf_zero (pool_len k) pb.(pb_data)), set_w_pool k rest w, x)
      | [] =>
          let '(cells, x) := op_cellmallocmany (pool_len k) (pool_bunch k) x in
          match cells with
          | [] => (None, w, x)
          | pb :: rest =>
              (Some (pbuf_zero (pool_len k) pb.(pb_data)),
               set_w_pool k (fold_left (fun pool c => set_pb_buf_len (pool_len k) (set_pb_is_free false c) :: pool)
                               rest (w_pool k w)) w, x)
          end
      end
  end.

(** [incoming_flush]; [locked] is whether the lock was obtained. *)
Definition incoming_flush (locked : bool) (w : worker_t) : worker_t :=
  if locked then
    mk_worker w.(w_free_small) w.(w_free_medium) w.(w_free_large) [] 0
      (w.(w_pbuf_incoming) ++ w.(w_incoming_local)) (w.(w_pbuf_incoming_count) + w.(w_incoming_local_count))
  else w.

(** ** Quirks mode *)

(** [while ( *p == ' ' && p < e) p++;] *)
Fixpoint skip_sp (n : nat) (s : list Z) (p e : Z) : option Z :=
  c ← rd s p;
  match n with
  | O => Some p
  | S n => if (c =? ch_sp) && (p <? e) then skip_sp n s (p + 1) e else Some p
  end.

(** The loop that copies the path; [np] is what has been copied. *)
Fixpoint quirk_path (n : nat) (s : list Z) (p e : Z) (np : list Z) : option (Z + Z * list Z) :=
  match n with
  | O => None
  | S n =>
      if p <? e then
        c ← rd s p;
        if c =? ch_colon then Some (inr (p, np))
        else
          q ← scan s p e (fun c => (c =? ch_comma) || (c =? ch_colon) || (c =? ch_sp));
          elem ← rd_range s p (q - p);
          r ← scan s q e (fun c => negb (c =? ch_sp));
          d ← rd s r;
          if (r <? e) && (d =? ch_comma) then quirk_path n s (r + 1) e (np ++ elem ++ [ch_comma])
          else if d =? ch_colon then quirk_path n s r e (np ++ elem)
          else Some (inl INERR_INV_PATH_CALL)
      else Some (inr (p, np))
  end.

(** The rewritten packet, or the reason to drop it.  Every character is copied
    once, so [quirked] holds what [len] allows. *)
Definition quirk (s : list Z) (len : Z) : option (Z + list Z) :=
  p0 ← scan s 0 len (fun c => negb ((c =? ch_sp) || (c =? 0)));
  if p0 =? len then Some (inl INERR_EMPTY)
  else
    p1 ← scan s p0 len (fun c => (c =? ch_gt) || (c =? ch_sp));
    src ← rd_range s p0 (p1 - p0);
    p2 ← skip_sp (Z.to_nat (len - p1)) s p1 len;
    c ← rd s p2;
    if negb (c =? ch_gt) then Some (inl INERR_NO_DST)
    else
      r ← quirk_path (Z.to_nat (len + 2)) s p2 len src;
      match r with
      | inl e => Some (inl e)
      | inr (p, np) =>
          rest ← rd_range s p (len - p);
          if zlen (np ++ rest) + 1 <=? PACKETLEN_MAX + 2 then Some (inr (np ++ rest)) else None
      end.

(** ** Messages to the server *)

Definition incoming_server_message (cfg : config) (c : client_t) (pb : pbuf_t) (x : W) : option (W * Z) :=
  '(e, am) ← parse_aprs_message pb;
  if negb (e =? 0) then Some (x, 0)
  else if am.(am_is_ack) then Some (x, 0)
  else
    '(x, e) ← (match am.(am_msgid) with
               | Some _ => messaging_ack cfg c pb am x
               | None => Some (x, 0)
               end);
    if e <? 0 then Some (x, e)
    else
      q ← strncasecmp_eq pb.(pb_data) am.(am_body) (str "filter?");
      if (q : bool) then
        Some (messaging_message_client cfg c (str "filter " ++ op_filter_s c x ++ str " active") x)
      else
        f ← strncasecmp_eq pb.(pb_data) am.(am_body) (str "filter");
        if (f : bool) then
          Some (op_filter_commands c true (drop (Z.to_nat am.(am_body)) pb.(pb_data)) am.(am_body_len) x)
        else Some (messaging_message_client cfg c (str "Unknown command") x).

(** ** The packet path *)

Definition client_loc_update (c : client_t) (pb : pbuf_t) : client_t :=
  set_c_loc_known true (set_c_cos_lat pb.(pb_cos_lat) (set_c_lng pb.(pb_lng) (set_c_lat pb.(pb_lat) c))).

Definition disallow_srccalls : list (list Z) := [str "N0CALL"; str "NOCALL"; str "SERVER"].

(** The lists of the configuration file, when there are any. *)
Record globs := mk_globs {
  disallow_srccall_glob : option (list (list Z));
  disallow_igate_glob : option (list (list Z))
}.

Context (cosf : spec_float -> spec_float) (fnmatch : list Z -> list Z -> bool).

(** What the checks find out about the header: offsets into the line. *)
Record header_t := mk_header {
  h_path_end : Z;
  h_src_end : Z;
  h_dstcall_end_or_ssid : Z;
  h_dstcall_end : Z;
  h_originated : bool
}.

(** The third-party packet came over the Internet before. *)
Definition party_3rd_ip (s : list Z) (data len : Z) : option bool :=
  c ← rd s (data + 1);
  if c =? ch_rbrace then
    m ← memchr s (data + 2) (len - data - 2) ch_colon;
    match m with
    | Some hdr_end =>
        m1 ← memmem s (data + 2) (hdr_end - (data + 2)) (str ",TCPIP");
        m2 ← memmem s (data + 2) (hdr_end - (data + 2)) (str ",TCPXX");
        Some (negb (bool_decide (m1 = None)) || negb (bool_decide (m2 = None)))
    | None => Some false
    end
  else Some false.

(** The checks of the header before the Q construct is processed: the reason to
    drop the packet, or the header. *)
Definition check_header (g : globs) (c : client_t) (s : list Z) (len : Z) : option (Z + header_t) :=
  if len <? PACKETLEN_MIN - 2 then Some (inl INERR_SHORT_PACKET)
  else
  m ← memchr s 0 len ch_colon;
  match m with
  | None => Some (inl INERR_NO_COLON)
  | Some path_end =>
  m ← memchr s 0 (if path_end <? CALLSIGNLEN_MAX + 1 then path_end else CALLSIGNLEN_MAX + 1) ch_gt;
  match m with
  | None => Some (inl INERR_NO_DST)
  | Some src_end =>
  let path_start := src_end + 1 in
  if path_start >=? len then Some (inl INERR_NO_PATH)
  else
  src ← rd_range s 0 src_end;
  if negb (check_invalid_src_dst src =? 0) then Some (inl INERR_INV_SRCCALL)
  else if negb (check_call_prefix_match disallow_srccalls src =? 0) then Some (inl INERR_DIS_SRCCALL)
  else if match g.(disallow_srccall_glob) with
          | Some set => negb (check_call_glob_match fnmatch set src =? 0)
          | None => false
          end then Some (inl INERR_DIS_SRCCALL)
  else if path_end + 1 >=? len then Some (inl INERR_NO_BODY)
  else
  ssid ← scan s path_start path_end (fun c => (c =? ch_dash) || (c =? ch_comma) || (c =? ch_colon));
  dstcall_end ← scan s ssid path_end (fun c => (c =? ch_comma) || (c =? ch_colon));
  dst ← rd_range s path_start (dstcall_end - path_start);
  if negb (check_invalid_src_dst dst =? 0) then Some (inl INERR_INV_DSTCALL)
  else
  let originated := (zlen c.(c_username) =? src_end) && beq c.(c_username) src in
  nogate ← digi_path_drop s dstcall_end (path_end - dstcall_end);
  if (nogate : bool) then Some (inl INERR_NOGATE)
  else
  calls ← check_path_calls s dstcall_end path_end;
  if calls =? -1 then Some (inl INERR_INV_PATH_CALL)
  else
  party ← party_3rd_ip s path_end len;
  if (party : bool) then Some (inl INERR_3RD_PARTY_IP)
  else Some (inr (mk_header path_end src_end ssid dstcall_end originated))
  end
  end.

(** Where a packet comes from: its flag, or the code to return without
    forwarding it. *)
Definition classify (c : client_t) : Z + Z :=
  if bool_decide (c.(c_state) = CSTATE_COREPEER) || has c.(c_flags) CLFLAGS_UPLINKPORT then inr F_FROM_UPSTR
  else if has c.(c_flags) CLFLAGS_DUPEFEED then inl 0
  else if has c.(c_flags) CLFLAGS_INPORT then inr F_FROM_DOWNSTR
  else inl INERR_CLASS_FAIL.

(** The Q construct in the new header: behind the comma when it is appended, at
    its old place when it was there, [None] when it is neither. *)
Definition qconst_at (o : qout) (n p : Z) : option Z :=
  match o.(qo_new_q_start) with
  | QNull => if n >? 0 then Some (p + 1) else None
  | QAt a => if (a >? 0) && (a <? o.(qo_path_end)) then Some a else None
  | QNullPlus1 => None
  end.

(** The packet copied into its buffer: the header up to where it is changed, the
    new text, the rest of the packet and CRLF with a NUL.  When there is no
    construct the copying stops and the buffer is given back. *)
Definition fill_pbuf (c : client_t) (tick flags : Z) (h : header_t) (len n : Z) (o : qout) (pb : pbuf_t)
    : option (pbuf_t + pbuf_t) :=
  let s := o.(qo_pdata) in
  let p := match o.(qo_q_replace) with Some r => r | None => o.(qo_path_end) end in
  hdr ← rd_range s 0 p;
  d ← blit pb.(pb_data) 0 hdr;
  match qconst_at o n p with
  | None => Some (inl (set_pb_data d pb))
  | Some qc =>
      d ← blit d p o.(qo_new_q);
      rest ← rd_range s h.(h_path_end) (len - h.(h_path_end));
      d ← blit d (p + n) rest;
      let e := p + n + zlen rest in
      d ← blit d e [13; 10; 0];
      Some (inr (mk_pbuf c.(c_id) 0 0 0 0 flags h.(h_src_end) (h.(h_dstcall_end) - h.(h_src_end) - 1) 0 0 0 tick
                   (e + 2) pb.(pb_buf_len) h.(h_src_end) h.(h_dstcall_end_or_ssid) h.(h_dstcall_end) qc (p + n + 1)
                   0 None pb.(pb_lat) pb.(pb_lng) pb.(pb_cos_lat) pb.(pb_symbol) pb.(pb_is_free) d))
  end.

(** What a call changes: the worker, the client, the filter databases and the
    rest. *)
Record in_state := mk_in {
  in_worker : worker_t;
  in_client : client_t;
  in_filter : filterdb;
  in_ops : W
}.

Definition set_in_worker (w : worker_t) (st : in_state) : in_state :=
  mk_in w st.(in_client) st.(in_filter) st.(in_ops).

(** [free_pb_ret:] *)
Definition free_ret (pb : pbuf_t) (rc : Z) (st : in_state) : in_state * Z :=
  (set_in_worker (pbuf_free pb st.(in_worker)) st, rc).

Definition enqueue (pb : pbuf_t) (w : worker_t) : worker_t :=
  mk_worker w.(w_free_small) w.(w_free_medium) w.(w_free_large)
    (w.(w_incoming_local) ++ [pb]) (w.(w_incoming_local_count) + 1) w.(w_pbuf_incoming) w.(w_pbuf_incoming_count).

(** A message to SERVER. *)
Definition to_server (pb : pbuf_t) (rc : Z) : option bool :=
  if (rc =? 0) && has pb.(pb_packettype) T_MESSAGE && (pb.(pb_dstname_len) =? 6) then
    d ← pb.(pb_dstname);
    strncasecmp_eq pb.(pb_data) d (str "server")
  else Some false.

(** From the parsed packet on; [via_tcpxx] is whether the path had [,TCPXX]. *)
Definition dispatch (cfg : config) (mem : bool) (tick : Z) (h : header_t) (via_tcpxx : bool) (pb : pbuf_t) (rc : Z)
    (st : in_state) : option (in_state * Z) :=
  if rc <? 0 then Some (free_ret pb rc st)
  else
    srv ← to_server pb rc;
    if (srv : bool) then
      if negb h.(h_originated) then Some (free_ret pb rc st)
      else
        '(x, rc) ← incoming_server_message cfg st.(in_client) pb st.(in_ops);
        Some (free_ret pb rc (mk_in st.(in_worker) st.(in_client) st.(in_filter) x))
    else if has pb.(pb_packettype) T_QUERY then Some (free_ret pb INERR_GENERAL_QUERY st)
    else
      let c := if h.(h_originated) && has pb.(pb_packettype) T_POSITION
               then client_loc_update st.(in_client) pb else st.(in_client) in
      let st := mk_in st.(in_worker) c st.(in_filter) st.(in_ops) in
      if cfg.(disallow_unverified) && (c.(c_validated) =? 0) then Some (free_ret pb INERR_DISALLOW_UNVERIFIED st)
      else if cfg.(disallow_unverified) && via_tcpxx then Some (free_ret pb INERR_DISALLOW_UNVERIFIED_PATH st)
      else
        '(pb, f) ← filter_preprocess_dupefilter cfg mem tick pb st.(in_filter);
        c ← (if has c.(c_flags) CLFLAGS_IGATE then client_heard_update mem c pb else Some c);
        Some (mk_in (enqueue pb st.(in_worker)) c f st.(in_ops), rc).

(** From the rewritten header on. *)
Definition forward (cfg : config) (mem : bool) (tick : Z) (h : header_t) (len n : Z) (o : qout) (st : in_state)
    : option (in_state * Z) :=
  let s := o.(qo_pdata) in
  let c := st.(in_client) in
  let new_len := match o.(qo_q_replace) with
                 | Some r => len + n - (o.(qo_path_end) - r) + 3
                 | None => len + n + 3
                 end in
  if new_len >? PACKETLEN_MAX_LARGE then Some (st, INERR_LONG_PACKET)
  else
    let '(opb, w, x) := pbuf_get new_len st.(in_worker) st.(in_ops) in
    let st := mk_in w c st.(in_filter) x in
    match opb with
    | None => Some (st, INERR_OUT_OF_PBUFS)
    | Some pb =>
        match classify c with
        | inl rc => Some (free_ret pb rc st)
        | inr flag =>
            src ← rd_range s 0 h.(h_src_end);
            let looped := negb h.(h_originated) && negb (clientlist_check_if_validated_client src =? -1) in
            let flags := if looped then Z.lor flag F_DUPE else flag in
            r ← fill_pbuf c tick flags h len n o pb;
            match r with
            | inl pb => Some (free_ret pb INERR_Q_BUG st)
            | inr pb =>
                '(pb, rc) ← parse_aprs cosf pb;
                xx ← memmem s h.(h_dstcall_end) (h.(h_path_end) - h.(h_dstcall_end)) (str ",TCPXX");
                dispatch cfg mem tick h (negb (bool_decide (xx = None))) pb rc st
            end
        end
    end.

(** The Q construct names an igate that is not allowed. *)
Definition igate_disallowed (g : globs) (o : qout) : option bool :=
  match g.(disallow_igate_glob), o.(qo_new_q_start) with
  | Some set, QAt a =>
      if (0 <=? a) && (a <? o.(qo_path_end)) then
        r ← check_igate_calls fnmatch set o.(qo_pdata) a o.(qo_path_end); Some (r =? -1)
      else Some false
  | _, _ => Some false
  end.

Definition PATH_APPEND_LEN : Z := 600.

(** The line without the quirks. *)
Definition incoming_line (cfg : config) (g : globs) (mem : bool) (tick : Z) (s : list Z) (len : Z) (st : in_state)
    : option (in_state * Z) :=
  r ← check_header g st.(in_client) s len;
  match r with
  | inl e => Some (st, e)
  | inr h =>
      '(n, o) ← q_process cfg st.(in_client) s PATH_APPEND_LEN h.(h_dstcall_end) h.(h_path_end) h.(h_path_end)
                  h.(h_originated);
      if n <? 0 then Some (st, n)
      else
        bad ← igate_disallowed g o;
        if (bad : bool) then Some (st, INERR_DIS_IGATECALL)
        else forward cfg mem tick h len n o st
  end.

Definition incoming_parse (cfg : config) (g : globs) (mem : bool) (tick : Z) (s : list Z) (len : Z) (st : in_state)
    : option (in_state * Z) :=
  if st.(in_client).(c_quirks_mode) then
    r ← quirk s len;
    match r with
    | inl e => Some (st, e)
    | inr np => incoming_line cfg g mem tick (np ++ [0]) (zlen np) st
    end
  else incoming_line cfg g mem tick s len st.

Definition IPPROTO_UDP : Z := 17.

Definition incoming_handler (cfg : config) (g : globs) (mem : bool) (tick l4proto : Z) (s : list Z) (len : Z)
    (st : in_state) : option (in_state * Z) :=
  let account e (st : in_state) :=
    (mk_in st.(in_worker) st.(in_client) st.(in_filter)
       (op_account_rx st.(in_client) l4proto 0 1 (if e <? 0 then e else 0) 0 st.(in_ops)), 0) in
  if len >? PACKETLEN_MAX - 2 then Some (account INERR_LONG_PACKET st)
  else
    c ← rd s 0;
    if c =? ch_hash then
      if negb (l4proto =? IPPROTO_UDP) && has st.(in_client).(c_flags) CLFLAGS_USERFILTEROK then
        line ← rd_range s 0 len;
        match memcasestr (str "filter") line with
        | Some p =>
            let '(x, rc) := op_filter_commands st.(in_client) false (drop (Z.to_nat p) s) (len - p) st.(in_ops) in
            Some (mk_in st.(in_worker) st.(in_client) st.(in_filter) x, rc)
        | None => Some (st, 0)
        end
      else Some (st, 0)
    else
      '(st, e) ← incoming_parse cfg g mem tick s len st;
      Some (account e st).
End Incoming.

(** * Lemmas *)

(** ** Callsigns *)

Lemma call_body_chars s r :
  call_body s = Some r -> exists a, s = a ++ r /\ Forall (fun c => isalnum c = true) a /\
    match r with [] => True | c :: _ => c = ch_dash end.
Proof.
  revert r. induction s as [|c s IH]; intros r; cbn [call_body]; [intros [= <-]; by exists []|].
  destruct (Z.eqb_spec c ch_dash) as [->|]; [intros [= <-]; by exists []|].
  destruct (isalnum c) eqn:Ec; [|done]. intros (a & -> & Ha & Hr)%IH. exists (c :: a).
  split; [done|]. split; [by constructor|done].
Qed.

(** A good source or destination callsign has one to nine letters, digits and
    dashes. *)
Lemma src_dst_chars call :
  check_invalid_src_dst call = 0 ->
  1 <= zlen call <= CALLSIGNLEN_MAX /\ Forall (fun c => isalnum c = true \/ c = ch_dash) call.
Proof.
  unfold check_invalid_src_dst. destruct (_ || _) eqn:E; [done|]. split; [lia|].
  destruct (call_body call) as [r|] eqn:Eb; [|done]. apply call_body_chars in Eb as (a & -> & Ha & Hr).
  apply Forall_app. split; [eapply Forall_impl; [|exact Ha]; cbn; tauto|].
  destruct r as [|c ssid]; [constructor|]. constructor; [tauto|]. destruct ssid as [|c2 t]; [constructor|].
  destruct (forallb isalnum (c2 :: t)) eqn:Ef; [|done]. apply Forall_forall. intros x Hx.
  rewrite forallb_forall in Ef. left. by apply Ef.
Qed.

Lemma isalnum_not_comma c : isalnum c = true \/ c = ch_dash -> c <> ch_comma /\ c <> ch_gt /\ c <> 0.
Proof. unfold isalnum, isalpha, isdigit, isupper, islower. lia. Qed.

(** ** The header *)

(** Where the parts of an accepted header are. *)
Record header_ok (s : list Z) (len : Z) (h : header_t) : Prop := {
  ho_src : 1 <= h.(h_src_end) <= CALLSIGNLEN_MAX;
  ho_dst : h.(h_src_end) + 1 <= h.(h_dstcall_end_or_ssid) <= h.(h_dstcall_end);
  ho_dst_len : h.(h_src_end) + 1 < h.(h_dstcall_end);
  ho_path : h.(h_dstcall_end) <= h.(h_path_end) /\ h.(h_path_end) + 1 < len;
  ho_colon : rd s h.(h_path_end) = Some ch_colon;
  ho_src_gt : ch_gt ∉ slice s 0 h.(h_src_end);
  ho_comma : no_comma_before s h.(h_dstcall_end)
}.

(** What the checks let through. *)
Record admitted (fnmatch : list Z -> list Z -> bool) (g : globs) (c : client_t) (s : list Z) (len : Z)
    (h : header_t) : Prop := {
  ad_src : check_invalid_src_dst (slice s 0 h.(h_src_end)) = 0;
  ad_dst : check_invalid_src_dst (slice s (h.(h_src_end) + 1) (h.(h_dstcall_end) - (h.(h_src_end) + 1))) = 0;
  ad_disallowed : check_call_prefix_match disallow_srccalls (slice s 0 h.(h_src_end)) = 0;
  ad_glob : forall set, g.(disallow_srccall_glob) = Some set ->
    check_call_glob_match fnmatch set (slice s 0 h.(h_src_end)) = 0;
  ad_nogate : digi_path_drop s h.(h_dstcall_end) (h.(h_path_end) - h.(h_dstcall_end)) = Some false;
  ad_calls : exists n, check_path_calls s h.(h_dstcall_end) h.(h_path_end) = Some n /\ n <> -1;
  ad_party : party_3rd_ip s h.(h_path_end) len = Some false;
  ad_login : h.(h_originated) = beq c.(c_username) (slice s 0 h.(h_src_end))
}.

Lemma rd_slice_elem s a n x : 0 <= a -> 0 <= n -> a + n <= zlen s -> x ∈ slice s a n -> exists i, a <= i < a + n /\ rd s i = Some x.
Proof.
  intros Ha Hn Hs Hx. apply list_elem_of_lookup in Hx as [k Hk]. exists (a + Z.of_nat k).
  pose proof (lookup_lt_Some _ _ _ Hk) as Hlt. pose proof (zlen_slice s a n Ha Hn Hs) as Hz. unfold zlen in Hz.
  split; [lia|]. rewrite <- (rd_slice s a n) by lia. unfold rd. destruct (0 <=? Z.of_nat k) eqn:E; [|lia].
  by rewrite Nat2Z.id.
Qed.

Lemma check_header_ok fnmatch g c s len h :
  check_header fnmatch g c s len = Some (inr h) -> header_ok s len h /\ admitted fnmatch g c s len h.
Proof.
  unfold check_header. intros H. split_if_in H; [done|].
  inv_bind H. destruct x as [pe|]; [|done]. inv_bind H. destruct x as [se|]; [|done].
  split_if_in H; [done|]. inv_bind H. rename x into src.
  split_if_in H; [done|]. split_if_in H; [done|].
  destruct (match disallow_srccall_glob g with Some _ => _ | None => false end) eqn:Eg; [done|].
  split_if_in H; [done|]. inv_bind H. rename x into ssid. inv_bind H. rename x into de. inv_bind H. rename x into dst.
  split_if_in H; [done|]. inv_bind H. split_if_in H; [done|]. inv_bind H. rename x0 into calls.
  split_if_in H; [done|]. inv_bind H. split_if_in H; [done|]. injection H as <-.
  subst. apply memchr_Some in E as (_ & Hpe & Hls & Hcol & _). apply memchr_Some in E0 as (_ & Hse & _ & Hgt & Hfirst).
  assert (se < pe) by (split_if_in Hse; lia).
  apply rd_range_Some in E1 as (_ & _ & Hs1 & ->).
  apply negb_false_iff, Z.eqb_eq in Heqb1. destruct (src_dst_chars _ Heqb1) as [Hl1 Hc1].
  rewrite zlen_slice in Hl1 by lia.
  apply scan_spec in E2 as (Hss & Hns & _); [|lia]. apply scan_spec in E3 as (Hde & Hnd & _); [|lia].
  apply rd_range_Some in E4 as (_ & _ & Hs2 & ->).
  apply negb_false_iff, Z.eqb_eq in Heqb4. destruct (src_dst_chars _ Heqb4) as [Hl2 Hc2].
  rewrite zlen_slice in Hl2 by lia.
  assert (forall i, 0 <= i < se -> forall ch, rd s i = Some ch -> isalnum ch = true \/ ch = ch_dash) as Hsrc.
  { intros i Hi ch Hr. rewrite Forall_forall in Hc1. apply Hc1. change i with (0 + i) in Hr. rewrite <- (rd_slice s 0 se i) in Hr by lia.
    unfold rd in Hr. destruct (0 <=? i) eqn:Ei; [|done]. by apply list_elem_of_In, list_elem_of_lookup; eauto. }
  split; split; cbn [h_src_end h_dstcall_end_or_ssid h_dstcall_end h_path_end h_originated]; try done; try lia.
  - intros Hin. apply rd_slice_elem in Hin as (i & Hi & Hr); [|lia..]. apply Hsrc in Hr; [|lia].
    by apply isalnum_not_comma in Hr as (?&?&?).
  - intros i Hi Hr. destruct (decide (i < 0)) as [|Hi0]; [apply rd_Some in Hr; lia|].
    destruct (Z.lt_total i se) as [Hlt|[->|Hgt']].
    + apply Hsrc in Hr; [|lia]. by apply isalnum_not_comma in Hr as (?&?&?).
    + congruence.
    + destruct (Z.lt_ge_cases i ssid) as [Hlt|Hge]; [apply (Hns i) in Hr; [done|lia]|apply (Hnd i) in Hr; [done|lia]].
  - intros set Hset. rewrite Hset in Eg. by apply negb_false_iff, Z.eqb_eq in Eg.
  - exists calls. split; [done|lia].
  - rewrite <- zlen_slice with (s := s) (a := 0) (n := se) at 1 by lia. unfold beq.
    destruct (decide (c_username c = slice s 0 se)) as [->|Hne].
    + by rewrite !bool_decide_eq_true_2, Z.eqb_refl by done.
    + rewrite !bool_decide_eq_false_2 by done. by rewrite andb_false_r.
Qed.

(** ** Buffers *)

Lemma blit_app a d b :
  zlen b <= zlen d -> blit (a ++ d) (zlen a) b = Some ((a ++ b) ++ drop (length b) d).
Proof.
  intros Hb. unfold blit. rewrite zlen_app. pose proof (zlen_nonneg a).
  destruct (_ && _) eqn:E; [|zbool]. f_equal. unfold zlen. rewrite Nat2Z.id, take_app_length, <- app_assoc.
  do 2 f_equal. replace (Z.to_nat _) with (length a + length b)%nat by lia. by rewrite drop_app_add.
Qed.

Lemma blit_at a d b off :
  off = zlen a -> zlen b <= zlen d -> blit (a ++ d) off b = Some ((a ++ b) ++ drop (length b) d).
Proof. intros ->. apply blit_app. Qed.

(** A buffer of a pool: its data has room for one byte more than a packet. *)
Definition buffer_ok (k : pool_class) (pb : pbuf_t) : Prop :=
  pb.(pb_buf_len) = pool_len k /\ zlen pb.(pb_data) = pool_len k + 1 /\ bytes_ok pb.(pb_data).

Definition worker_ok (w : worker_t) : Prop := forall k, Forall (buffer_ok k) (w_pool k w).

Definition free_count (w : worker_t) : Z :=
  zlen w.(w_free_small) + zlen w.(w_free_medium) + zlen w.(w_free_large).

(** The arenas hand out cells of the size asked for. *)
Class ServerLaws (W : Type) `{ServerOps W} : Prop := {
  sv_cells : forall len n x cells x', 0 <= len -> op_cellmallocmany len n x = (cells, x') ->
    Forall (fun c => zlen c.(pb_data) = len + 1 /\ bytes_ok c.(pb_data)) cells
}.

(** The queues are as before. *)
Definition same_queues (w w' : worker_t) : Prop :=
  w'.(w_incoming_local) = w.(w_incoming_local) /\ w'.(w_incoming_local_count) = w.(w_incoming_local_count) /\
  w'.(w_pbuf_incoming) = w.(w_pbuf_incoming) /\ w'.(w_pbuf_incoming_count) = w.(w_pbuf_incoming_count).

Lemma w_pool_set k k' l w : w_pool k' (set_w_pool k l w) = match k, k' with
  | PoolSmall, PoolSmall | PoolMedium, PoolMedium | PoolLarge, PoolLarge => l
  | _, _ => w_pool k' w end.
Proof. by destruct k, k'. Qed.

Lemma worker_ok_set k l w : worker_ok w -> Forall (buffer_ok k) l -> worker_ok (set_w_pool k l w).
Proof. intros Hw Hl k'. specialize (Hw k'). rewrite w_pool_set. by destruct k, k'. Qed.

Lemma free_count_set k l w : free_count (set_w_pool k l w) = free_count w + zlen l - zlen (w_pool k w).
Proof. unfold free_count. destruct k; cbn; lia. Qed.

Lemma pbuf_free_spec k pb w :
  worker_ok w -> buffer_ok k pb ->
  worker_ok (pbuf_free pb w) /\ free_count (pbuf_free pb w) = free_count w + 1 /\ same_queues w (pbuf_free pb w).
Proof.
  intros Hw Hb.
  assert (pbuf_free pb w = set_w_pool k (pb :: w_pool k w) w) as ->.
  { destruct Hb as [Hl _]. unfold pbuf_free. rewrite Hl. by destruct k. }
  split; [apply worker_ok_set; [done|by constructor]|]. split; [rewrite free_count_set, zlen_cons; lia|].
  by destruct k.
Qed.

Lemma pool_len_nonneg k : 0 <= pool_len k.
Proof. by destruct k. Qed.

Lemma pool_for_len len k : pool_for len = Some k -> len <= pool_len k.
Proof. unfold pool_for. repeat split_if; intros [= <-]; cbn; lia. Qed.

Lemma zlen_pbuf_zero n d : zlen (pb_data (pbuf_zero n d)) = zlen d.
Proof. cbn. by destruct d. Qed.

Lemma pbuf_zero_ok k d : zlen d = pool_len k + 1 -> bytes_ok d -> buffer_ok k (pbuf_zero (pool_len k) d).
Proof.
  intros Hd Hb. split; [done|]. split; [by rewrite zlen_pbuf_zero|]. cbn. destruct Hb; [constructor|].
  constructor; [unfold is_byte; lia|done].
Qed.

Section Buffers.
Context {W : Type} `{ServerLaws W}.

(** How the buffers of a worker came and went: [taken] were taken out of the
    pools and [n] came from an arena. *)
Definition balanced (w w' : worker_t) (x : W) (taken : Z) : Prop :=
  exists n, 0 <= n /\ free_count w' + taken = free_count w + n /\
    (n = 0 \/ exists k cells x', op_cellmallocmany (pool_len k) (pool_bunch k) x = (cells, x') /\ n = zlen cells).

Lemma pbuf_get_spec len w x opb w' x' :
  worker_ok w -> pbuf_get len w x = (opb, w', x') ->
  worker_ok w' /\ same_queues w w' /\
  match opb with
  | Some pb => exists k d, pool_for len = Some k /\ buffer_ok k pb /\ pb = pbuf_zero (pool_len k) d /\ balanced w w' x 1
  | None => balanced w w' x 0
  end.
Proof.
  intros Hw Hg. unfold pbuf_get in Hg.
  assert (forall y, y = w -> balanced w y x 0) as Hsame by (intros ? ->; exists 0; split; [lia|]; split; [lia|by left]).
  destruct (pool_for len) as [k|] eqn:Ek; [|injection Hg as <- <- <-; split; [done|]; split; [done|by apply Hsame]].
  destruct (w_pool k w) as [|pb rest] eqn:Ep.
  - destruct (op_cellmallocmany (pool_len k) (pool_bunch k) x) as [cells x1] eqn:Ec.
    pose proof (sv_cells _ _ _ _ _ (pool_len_nonneg k) Ec) as Hc.
    destruct cells as [|pb rest]; injection Hg as <- <- <-; [split; [done|]; split; [done|by apply Hsame]|].
    inversion Hc as [|? ? [Hd Hb] Hrest]; subst.
    set (f := fun pool c => set_pb_buf_len (pool_len k) (set_pb_is_free false c) :: pool).
    assert (forall l acc, Forall (fun c => zlen (pb_data c) = pool_len k + 1 /\ bytes_ok (pb_data c)) l ->
      Forall (buffer_ok k) acc ->
      Forall (buffer_ok k) (fold_left f l acc) /\ zlen (fold_left f l acc) = zlen l + zlen acc) as Hf.
    { induction l as [|c l IH]; intros acc Hl Ha; [done|]. inversion Hl as [|? ? [? ?] ?]; subst. cbn [fold_left].
      destruct (IH (f acc c)) as [Hi1 Hi2]; [done|by constructor|]. split; [done|].
      rewrite Hi2. unfold f. rewrite !zlen_cons. lia. }
    destruct (Hf rest [] Hrest ltac:(constructor)) as [Hf1 Hf2].
    split; [by apply worker_ok_set|]. split; [by destruct k|]. exists k, (pb_data pb).
    split; [done|]. split; [by apply pbuf_zero_ok|]. split; [done|].
    exists (zlen (pb :: rest)). split; [apply zlen_nonneg|]. split; [|right; eauto].
    rewrite free_count_set, Ep, Hf2, zlen_cons. change (zlen []) with 0. lia.
  - injection Hg as <- <- <-. pose proof (Hw k) as Hk. rewrite Ep in Hk. inversion Hk as [|? ? [Hl [Hd Hb]] Hrest]; subst.
    split; [by apply worker_ok_set|]. split; [by destruct k|]. exists k, (pb_data pb).
    split; [done|]. split; [by apply pbuf_zero_ok|]. split; [done|].
    exists 0. split; [lia|]. split; [|by left]. rewrite free_count_set, Ep, zlen_cons. lia.
Qed.
End Buffers.

(** ** The packet in its buffer *)

Section Fill.
Context (s : list Z) (len : Z) (h : header_t) (n : Z) (o : qout) (k : pool_class) (pb : pbuf_t).
Context (Hh : header_ok s len h) (Hlen : len < zlen s) (Hs : bytes_ok s).
Context (Hq : qout_ok s PATH_APPEND_LEN h.(h_dstcall_end) h.(h_path_end) n o) (Hn : 0 <= n).
Context (Hkept : q_kept s h.(h_dstcall_end) h.(h_path_end) o.(qo_pdata)) (Hnew : bytes_ok o.(qo_new_q)).
Context (Hpb : buffer_ok k pb).

Abbreviation p := (qo_at o).
Abbreviation pe := (h.(h_path_end)).

Context (Hroom : match o.(qo_q_replace) with
                 | Some r => len + n - (o.(qo_path_end) - r) + 3
                 | None => len + n + 3
                 end <= pool_len k).

(** The new packet: the header, the new part of it, and the rest of the line. *)
Definition new_packet : list Z := slice o.(qo_pdata) 0 p ++ o.(qo_new_q) ++ slice s pe (len - pe).

Lemma fill_geometry :
  zlen o.(qo_new_q) = n /\ h.(h_dstcall_end) <= p <= pe /\ zlen o.(qo_pdata) = zlen s /\
  p + n + (len - pe) + 3 <= pool_len k /\ 3 <= h.(h_dstcall_end) /\ 2 <= len - pe.
Proof.
  destruct Hq as [?|(H1 & H2 & H3 & H4 & H5 & _)]; [lia|]. destruct Hh as [Hsrc Hdst Hdl [Hp1 Hp2] _ _ _].
  split; [done|]. unfold qo_at, default.
  destruct (qo_q_replace o) as [r|]; cbn; [specialize (H5 r eq_refl)|]; split; lia.
Qed.

Lemma kept_rd i : i <= h.(h_dstcall_end) \/ pe <= i -> rd o.(qo_pdata) i = rd s i.
Proof.
  intros Hi. destruct Hkept as [->|(j & v & Hj & _ & ->)]; [done|]. unfold rd.
  destruct (0 <=? i) eqn:E; [|done]. apply list_lookup_insert_ne. destruct Hh as [Hsrc Hdst _ _ _ _ _]. lia.
Qed.

Lemma kept_slice a m : 0 <= a -> 0 <= m -> a + m <= h.(h_dstcall_end) + 1 \/ pe <= a -> slice o.(qo_pdata) a m = slice s a m.
Proof.
  intros Ha Hm Hi. unfold slice. apply list_eq. intros i. rewrite !lookup_take, !lookup_drop. case_decide; [|done].
  pose proof (kept_rd (a + Z.of_nat i) ltac:(lia)) as Hr. unfold rd in Hr.
  destruct (0 <=? a + Z.of_nat i) eqn:E; [|lia]. by replace (Z.to_nat a + i)%nat with (Z.to_nat (a + Z.of_nat i)) by lia.
Qed.

Lemma kept_bytes : bytes_ok o.(qo_pdata).
Proof.
  destruct Hkept as [->|(j & v & _ & Hv & ->)]; [done|]. apply Forall_insert; [done|]. unfold is_byte. lia.
Qed.

Lemma zlen_new_packet : zlen new_packet = p + n + (len - pe).
Proof.
  pose proof fill_geometry as (H1 & H2 & H3 & H4 & H5 & H6). destruct Hh as [_ _ _ [? ?] _ _ _].
  unfold new_packet. rewrite !zlen_app, !zlen_slice by lia. lia.
Qed.

(** The buffer after the copying, or after what of it was done. *)
Lemma fill_pbuf_spec c tick flags :
  exists tail,
    fill_pbuf c tick flags h len n o pb = Some
      (match qconst_at o n p with
       | None => inl (set_pb_data (slice o.(qo_pdata) 0 p ++ drop (Z.to_nat p) pb.(pb_data)) pb)
       | Some qc =>
           inr (mk_pbuf c.(c_id) 0 0 0 0 flags h.(h_src_end) (h.(h_dstcall_end) - h.(h_src_end) - 1) 0 0 0 tick
                  (p + n + (len - pe) + 2) pb.(pb_buf_len) h.(h_src_end) h.(h_dstcall_end_or_ssid) h.(h_dstcall_end)
                  qc (p + n + 1) 0 None pb.(pb_lat) pb.(pb_lng) pb.(pb_cos_lat) pb.(pb_symbol) pb.(pb_is_free)
                  (new_packet ++ [13; 10; 0] ++ tail))
       end) /\
    zlen (new_packet ++ [13; 10; 0] ++ tail) = pool_len k + 1 /\ bytes_ok tail.
Proof.
  pose proof fill_geometry as (H1 & H2 & H3 & H4 & H5 & H6). destruct Hpb as (_ & Hd & Hb).
  pose proof (ho_path _ _ _ Hh) as [Hp1 Hp2].
  set (d := pb_data pb) in *. set (hdr := slice (qo_pdata o) 0 p). set (rest := slice s pe (len - pe)).
  assert (zlen hdr = p) as Zh by (apply zlen_slice; lia).
  assert (zlen rest = len - pe) as Zr by (apply zlen_slice; lia).
  set (t1 := drop (length hdr) d). set (t2 := drop (length (qo_new_q o)) t1).
  set (t3 := drop (length rest) t2). set (t4 := drop 3 t3). exists t4.
  assert (forall (a l : list Z), zlen (drop (length a) l) = Z.max 0 (zlen l - zlen a)) as Zd
    by (intros; unfold zlen; rewrite length_drop; lia).
  assert (zlen t1 = zlen d - p) as Z1 by (unfold t1; rewrite Zd; lia).
  assert (zlen t2 = zlen t1 - n) as Z2 by (unfold t2; rewrite Zd; lia).
  assert (zlen t3 = zlen t2 - (len - pe)) as Z3 by (unfold t3; rewrite Zd; lia).
  assert (zlen t4 = zlen t3 - 3) as Z4 by (unfold t4; change 3%nat with (length [13; 10; 0]); rewrite Zd; change (zlen [13; 10; 0]) with 3; lia).
  split; [|split].
  - unfold fill_pbuf. fold p. change (match qo_q_replace o with Some r => r | None => qo_path_end o end) with p.
    rewrite (rd_range_in _ 0) by lia. fold hdr. cbn [mbind option_bind]. fold d.
    rewrite (blit_at [] d hdr 0 eq_refl ltac:(lia) : blit d 0 hdr = _). cbn [mbind option_bind app]. fold t1.
    assert (drop (Z.to_nat p) d = t1) as -> by (rewrite <- Zh; unfold t1, zlen; by rewrite Nat2Z.id).
    destruct (qconst_at o n p) as [qc|]; [|done].
    rewrite (blit_at hdr t1) by (done || lia). cbn [mbind option_bind]. fold t2.
    rewrite (rd_range_in _ pe) by lia. rewrite kept_slice by lia. fold rest. cbn [mbind option_bind].
    rewrite (blit_at (hdr ++ qo_new_q o) t2) by (rewrite ?zlen_app; lia). cbn [mbind option_bind]. fold t3.
    rewrite (blit_at ((hdr ++ qo_new_q o) ++ rest) t3) by (rewrite ?zlen_app; change (zlen [13; 10; 0]) with 3; lia).
    cbn [mbind option_bind]. change (length [13; 10; 0]) with 3%nat. fold t4. rewrite Zr. unfold new_packet.
    fold hdr rest. by rewrite <- !app_assoc.
  - rewrite !zlen_app, zlen_new_packet. change (zlen [13; 10; 0]) with 3. lia.
  - unfold t4, t3, t2, t1. by repeat apply Forall_drop.
Qed.

(** The filled buffer: the text of the packet with CRLF and a NUL, and the offsets
    of its parts. *)
Record filled (c : client_t) (tick flags : Z) (pb0 : pbuf_t) : Prop := {
  fl_buffer : buffer_ok k pb0;
  fl_packet : packet_ok pb0;
  fl_fresh : packet_fresh pb0;
  fl_text : slice pb0.(pb_data) 0 (pb0.(pb_packet_len) - 2) = new_packet;
  fl_len : pb0.(pb_packet_len) < pool_len k;
  fl_src : pb0.(pb_srccall_end) = h.(h_src_end);
  fl_dst : pb0.(pb_dstcall_end) = h.(h_dstcall_end) /\ pb0.(pb_dstcall_end_or_ssid) = h.(h_dstcall_end_or_ssid);
  fl_info : pb0.(pb_info_start) = p + n + 1 /\ pb0.(pb_packet_len) = p + n + (len - pe) + 2;
  fl_colon : rd pb0.(pb_data) (pb0.(pb_info_start) - 1) = Some ch_colon;
  fl_first : rd pb0.(pb_data) pb0.(pb_info_start) = rd s (pe + 1);
  fl_qconst : h.(h_dstcall_end) < pb0.(pb_qconst_start) /\ pb0.(pb_qconst_start) + 4 < pb0.(pb_info_start);
  fl_gt : ch_gt ∉ slice pb0.(pb_data) 0 pb0.(pb_srccall_end);
  fl_meta : pb0.(pb_t) = tick /\ pb0.(pb_origin) = c.(c_id) /\ pb0.(pb_flags) = flags;
  fl_lens : pb0.(pb_dstcall_len) = h.(h_dstcall_end) - h.(h_src_end) - 1 /\ pb0.(pb_entrycall_len) = 0
}.

Lemma qconst_bounds qc : qconst_at o n p = Some qc -> h.(h_dstcall_end) < qc /\ qc + 4 < p + n + 1.
Proof.
  pose proof fill_geometry as (_ & H2 & _). destruct Hq as [?|(_ & _ & _ & _ & _ & H6 & H7)]; [lia|].
  unfold qconst_at. destruct (qo_new_q_start o) as [|a|]; [| |done].
  - specialize (H6 eq_refl). split_if; [|done]. intros [= <-]. lia.
  - destruct (H7 a eq_refl) as [Ha Ha']. destruct (_ && _) eqn:E; [|done]. intros [= <-]. lia.
Qed.

(** The header up to the destination callsign is the line's. *)
Lemma new_packet_head a m : 0 <= a -> 0 <= m -> a + m <= h.(h_dstcall_end) -> slice new_packet a m = slice s a m.
Proof.
  pose proof fill_geometry as (_ & H2 & H3 & _). intros Ha Hm Hi. unfold new_packet.
  destruct Hh as [_ _ _ [? ?] _ _ _].
  rewrite slice_app_l by (rewrite ?zlen_slice; lia). rewrite slice_slice by lia. apply kept_slice; lia.
Qed.

(** The information field is the line's. *)
Lemma new_packet_tail m : 0 <= m <= len - pe -> slice new_packet (p + n + m) (len - pe - m) = slice s (pe + m) (len - pe - m).
Proof.
  pose proof fill_geometry as (H1 & H2 & H3 & _ & H5 & _). intros Hm. unfold new_packet.
  destruct Hh as [_ _ _ [? ?] _ _ _].
  rewrite app_assoc, slice_app_r by (rewrite ?zlen_app, ?zlen_slice; lia).
  rewrite zlen_app, zlen_slice, slice_slice by lia. f_equal; lia.
Qed.

Lemma new_packet_rest i : 0 <= i < len - pe -> rd new_packet (p + n + i) = rd s (pe + i).
Proof.
  intros Hi. pose proof fill_geometry as (H1 & H2 & H3 & _ & H5 & H6). destruct Hh as [_ _ _ [? ?] _ _ _].
  unfold new_packet. rewrite app_assoc, rd_app_r by (rewrite zlen_app, zlen_slice; lia).
  rewrite zlen_app, zlen_slice, rd_slice by lia. f_equal. lia.
Qed.

Lemma new_packet_bytes : bytes_ok new_packet.
Proof.
  unfold new_packet, bytes_ok. rewrite !Forall_app.
  split; [apply bytes_ok_slice, kept_bytes|]. split; [done|by apply bytes_ok_slice].
Qed.

Lemma fill_pbuf_filled c tick flags r :
  fill_pbuf c tick flags h len n o pb = Some r ->
  match r with inl pb0 => buffer_ok k pb0 | inr pb0 => filled c tick flags pb0 end.
Proof.
  intros Hr. destruct (fill_pbuf_spec c tick flags) as (tail & Hf & Hz & Ht). rewrite Hf in Hr. apply (inj Some) in Hr. subst r.
  pose proof fill_geometry as (H1 & H2 & H3 & H4 & H5 & H6). pose proof zlen_new_packet as Zn.
  pose proof Hh as [Hs1 Hs2 Hs3 [Hp1 Hp2] _ Hgt _]. destruct Hpb as (Hb1 & Hb2 & Hb3).
  destruct (qconst_at o n p) as [qc|] eqn:Eq.
  - apply qconst_bounds in Eq as [Hq1 Hq2]. set (data := new_packet ++ [13; 10; 0] ++ tail) in *.
    assert (forall i, 0 <= i < 3 -> rd data (p + n + (len - pe) + i) = rd [13; 10; 0] i) as Hrd.
    { intros i Hi. unfold data. rewrite rd_app_r by lia. replace (_ - zlen new_packet) with i by lia.
      by apply rd_app_l. }
    assert (forall a m, 0 <= a -> 0 <= m -> a + m <= h_dstcall_end h -> slice data a m = slice s a m) as Hhead.
    { intros a m Ha Hm Hi. unfold data. rewrite slice_app_l by lia. by apply new_packet_head. }
    assert (bytes_ok data) as Hdata.
    { unfold data, bytes_ok. rewrite !Forall_app. split; [apply new_packet_bytes|]. split; [|done].
      by apply bytes_ok_b. }
    assert (slice data 0 (p + n + (len - pe)) = new_packet) as Htext.
    { unfold data. rewrite slice_app_l by lia. unfold slice. rewrite drop_0. apply firstn_all2. unfold zlen in *. lia. }
    assert (forall i, 0 <= i < len - pe -> rd data (p + n + i) = rd s (pe + i)) as Hcol
      by (intros i Hi; unfold data; rewrite rd_app_l by lia; by apply new_packet_rest).
    clearbody data. split; cbn; try done; try lia.
    + split; cbn; [lia|rewrite <- (Hrd 0 ltac:(lia) : _ = Some 13)|rewrite <- (Hrd 1 ltac:(lia) : _ = Some 10)
        |rewrite <- (Hrd 2 ltac:(lia) : _ = Some 0)|lia]; apply (f_equal (rd data)); lia.
    + split; cbn; done || lia.
    + rewrite <- Htext. f_equal. lia.
    + rewrite <- (ho_colon _ _ _ Hh), <- (Z.add_0_r pe), <- Hcol by lia. f_equal. lia.
    + by rewrite <- Hcol by lia.
    + rewrite Hhead by lia. done.
  - assert (zlen (slice (qo_pdata o) 0 p) = p) as Zh by (apply zlen_slice; lia).
    split; [done|]. cbn. split.
    + rewrite zlen_app, Zh. unfold zlen in *. rewrite length_drop. lia.
    + apply Forall_app. split; [apply bytes_ok_slice, kept_bytes|by apply Forall_drop].
Qed.
End Fill.

(** ** The packet for the duplicate checker *)

(** What the next stages rely on; the checker also needs a header whose hash is
    not 0. *)
Record queue_ok (pb : pbuf_t) : Prop := {
  qk_packet : packet_ok pb;
  qk_pre : pre_ok pb;
  qk_names : names_ok pb;
  qk_path : 0 <= pb.(pb_dstcall_len) /\ pb.(pb_srccall_end) + 1 + pb.(pb_dstcall_len) < pb.(pb_qconst_start);
  qk_entry : 0 <= pb.(pb_entrycall_len) <= CALLSIGNLEN_MAX /\
    pb.(pb_qconst_start) + 4 + pb.(pb_entrycall_len) < pb.(pb_info_start);
  qk_dupe : (forall addr, dupe_addr pb = Some addr -> keyhash addr 0 <> 0) -> dupe_input pb
}.

(** The callsign at the entry is before the colon. *)
Lemma entry_call_range pb call :
  pre_ok pb -> entry_call pb = Some call ->
  zlen call <= CALLSIGNLEN_MAX /\ pb.(pb_qconst_start) + 4 + zlen call < pb.(pb_info_start).
Proof.
  intros [H1 [H2 H2'] _ _ _ _] Hc. unfold entry_call in Hc.
  destruct (before_sep_spec pb.(pb_data) (pb.(pb_qconst_start) + 4) (pb.(pb_info_start) - 1)) as [_ Hb]; [lia|done|].
  set (w := before_sep _) in *. destruct (_ && _) eqn:E; [|done]. injection Hc as <-. split; [lia|].
  destruct (Z.lt_ge_cases (pb.(pb_info_start) - 1) (pb.(pb_qconst_start) + 4 + zlen w)) as [Hlt|]; [|lia].
  destruct (Hb (pb.(pb_info_start) - 1 - (pb.(pb_qconst_start) + 4))) as (x & Hx & Hs); [lia|].
  replace (_ + (_ - _)) with (pb.(pb_info_start) - 1) in Hx by lia. rewrite H2' in Hx. by injection Hx as <-.
Qed.

Lemma preprocessed_ok cfg pb : queue_ok pb -> queue_ok (preprocessed cfg pb).
Proof.
  intros [H1 H2 H3 H5 H6 H4]. pose proof (entry_call_range pb) as He. unfold preprocessed.
  destruct (tcpip_in_path pb), (have_filtered_listeners cfg), (entry_call pb) as [w|];
    destruct (pb_dstname pb) as [d|] eqn:Ed;
    (split; [by destruct H1|by destruct H2|by destruct H3|done|cbn|intros Hk; by destruct (H4 Hk)]);
    done || (pose proof (zlen_nonneg w); specialize (He _ H2 eq_refl); lia).
Qed.

Lemma preprocessed_header cfg pb :
  let pb' := preprocessed cfg pb in
  pb'.(pb_data) = pb.(pb_data) /\ pb'.(pb_packet_len) = pb.(pb_packet_len) /\
  pb'.(pb_srccall_end) = pb.(pb_srccall_end) /\ pb'.(pb_dstcall_end) = pb.(pb_dstcall_end) /\
  pb'.(pb_info_start) = pb.(pb_info_start) /\ pb'.(pb_t) = pb.(pb_t) /\ pb'.(pb_origin) = pb.(pb_origin) /\
  pb'.(pb_buf_len) = pb.(pb_buf_len) /\ pb'.(pb_packettype) = pb.(pb_packettype).
Proof.
  unfold preprocessed.
  by destruct (tcpip_in_path pb), (have_filtered_listeners cfg), (entry_call pb), (pb_dstname pb).
Qed.

Lemma pool_len_bound k : 100 <= pool_len k <= PACKETLEN_MAX.
Proof. by destruct k. Qed.

Section Parsed.
Context (cosf : spec_float -> spec_float) (s : list Z) (len : Z) (h : header_t) (n : Z) (o : qout) (k : pool_class)
  (c : client_t) (tick flags : Z) (pb0 pb1 : pbuf_t) (rc : Z).
Context (Hh : header_ok s len h) (Hf : filled s len h n o k c tick flags pb0)
  (Hp : parse_aprs cosf pb0 = Some (pb1, rc)).

Lemma parsed_header : header pb1 = header pb0.
Proof. exact (pa_header _ _ _ (parse_aprs_parsed cosf pb0 _ Hp)). Qed.

Lemma parsed_buffer : buffer_ok k pb1.
Proof.
  destruct Hf as [(H1 & H2 & H3) _ _ _ _ _ _ _ _ _ _ _ _ _]. pose proof parsed_header as Hd. injection Hd as E.
  split; [congruence|]. split; congruence.
Qed.

Lemma parsed_ok : queue_ok pb1.
Proof.
  pose proof (parse_aprs_names cosf pb0 (pb1, rc) (fl_packet _ _ _ _ _ _ _ _ _ _ Hf) (fl_fresh _ _ _ _ _ _ _ _ _ _ Hf) Hp) as Hn.
  destruct Hf as [(Hb1 & Hb2 & Hb3) Hpk _ _ Hl Hsrc [Hd1 Hd2] [Hi1 Hi2] Hc _ [Hq1 Hq2] Hgt _ [He1 He2]].
  destruct Hh as [Hs1 Hs2 Hs3 [Hs4 Hs5] _ _ _]. pose proof (pool_len_bound k) as Hk.
  pose proof parsed_header as E. unfold header in E. injection E as _ _ _ _ Ea Eb _ _ E1 E2 E3 E4 E5 E6 E7 _ E8.
  assert (packet_ok pb1) as Hpk1 by by apply (packet_ok_same pb0).
  cbn in Hn. unfold CALLSIGNLEN_MAX, PACKETLEN_MAX in *.
  split; [done| |done|rewrite Ea, E3, E6; lia|unfold CALLSIGNLEN_MAX; rewrite Eb, E6, E7; lia|].
  - destruct Hn as [N1 N2 N3 N5 N4]. split; rewrite ?E8, ?E7, ?E6, ?E5, ?E3; unfold CALLSIGNLEN_MAX; try done; try lia.
    + rewrite E8, E3 in *. split; [|split; [|split]]; try done; lia.
    + destruct (pb_dstname pb1); [|done]. rewrite E8 in N3. tauto.
  - intros Hhash. destruct Hn as [N1 N2 N3 N5 N4]. destruct Hpk as [P1 P2 P3 P4 P5].
    split; unfold PACKETLEN_MAX, CALLSIGNLEN_MAX; rewrite ?E8, ?E7, ?E4, ?E1; try done; try lia.
    + rewrite E7, E8 in N4. intros Ho. specialize (N4 Ho). lia.
    + rewrite E8 in N1; tauto.
Qed.
End Parsed.

(** ** The course of a call *)

Section Course.
Context {W : Type} `{ServerLaws W} `{ClientDirectory}.
Context (cosf : spec_float -> spec_float) (fnmatch : list Z -> list Z -> bool).
Context (cfg : config) (g : globs) (mem : bool) (tick : Z).

(** The rules for unverified clients. *)
Definition verified_ok (c : client_t) (via_tcpxx : bool) : Prop :=
  cfg.(disallow_unverified) = true -> c.(c_validated) <> 0 /\ via_tcpxx = false.

(** A packet is queued as the filter module returns it, or its buffer is free. *)
Lemma dispatch_cases h xx pb rc (st st' : in_state) rc' :
  dispatch cfg mem tick h xx pb rc st = Some (st', rc') ->
  st'.(in_worker) = pbuf_free pb st.(in_worker) \/
  (rc' = rc /\ 0 <= rc /\ has pb.(pb_packettype) T_QUERY = false /\ to_server pb rc = Some false /\
   verified_ok st.(in_client) xx /\
   exists pb', filter_preprocess_dupefilter cfg mem tick pb st.(in_filter) = Some (pb', st'.(in_filter)) /\
     st'.(in_worker) = enqueue pb' st.(in_worker)).
Proof.
  unfold dispatch. intros H3. split_if_in H3; [injection H3 as <- <-; by left|].
  inv_bind H3. destruct x.
  { split_if_in H3; [injection H3 as <- <-; by left|]. inv_bind H3. destruct x. injection H3 as <- <-. by left. }
  destruct (has (pb_packettype pb) T_QUERY) eqn:Eq; [injection H3 as <- <-; by left|].
  cbn [in_worker in_client in_filter in_ops] in H3.
  set (c := if h_originated h && _ then _ else _) in H3.
  assert (c_validated c = c_validated (in_client st)) as Hv by (unfold c; destruct (_ && _); done).
  rewrite Hv in H3.
  destruct (disallow_unverified cfg && (c_validated (in_client st) =? 0)) eqn:E1; [injection H3 as <- <-; by left|].
  destruct (disallow_unverified cfg && xx) eqn:E2; [injection H3 as <- <-; by left|].
  inv_bind H3. destruct x as [pb' f]. inv_bind H3. injection H3 as <- <-.
  right. split; [done|]. split; [lia|]. do 2 (split; [done|]). split.
  - intros Hd. rewrite Hd in *. destruct xx; [done|]. split; [|done]. cbn in E1. lia.
  - exists pb'. by split.
Qed.

(** The way of a packet from its header to the queue. *)
Inductive queued (c : client_t) (f f' : filterdb) (s : list Z) (len rc : Z) (pb2 : pbuf_t) : Prop :=
| Queued h n o k flag flags pb pb0 pb1 xx
  (Qheader : check_header fnmatch g c s len = Some (inr h))
  (Qq : q_process cfg c s PATH_APPEND_LEN h.(h_dstcall_end) h.(h_path_end) h.(h_path_end) h.(h_originated) = Some (n, o))
  (Qn : 0 <= n)
  (Qigate : igate_disallowed fnmatch g o = Some false)
  (Qroom : match o.(qo_q_replace) with
           | Some r => len + n - (o.(qo_path_end) - r) + 3
           | None => len + n + 3
           end <= pool_len k)
  (Qclass : classify c = inr flag)
  (Qflags : flags = flag \/ flags = Z.lor flag F_DUPE)
  (Qbuffer : buffer_ok k pb)
  (Qfree : pb.(pb_is_free) = false)
  (Qfill : fill_pbuf c tick flags h len n o pb = Some (inr pb0))
  (Qparse : parse_aprs cosf pb0 = Some (pb1, rc))
  (Qtcpxx : memmem o.(qo_pdata) h.(h_dstcall_end) (h.(h_path_end) - h.(h_dstcall_end)) (str ",TCPXX") = Some xx)
  (Qrc : 0 <= rc)
  (Qquery : has pb1.(pb_packettype) T_QUERY = false)
  (Qserver : to_server pb1 rc = Some false)
  (Qverified : verified_ok c (negb (bool_decide (xx = None))))
  (Qpre : filter_preprocess_dupefilter cfg mem tick pb1 f = Some (pb2, f')).

(** What the configuration, the login and the reader of the socket guarantee. *)
Record line_ok (c : client_t) (s : list Z) (len : Z) : Prop := {
  lk_serverid : zlen cfg.(serverid) <= CALLSIGNLEN_MAX;
  lk_username : zlen c.(c_username) <= 15;
  lk_addr_hex : zlen c.(c_addr_hex) <= 35;
  lk_bytes : q_bytes cfg c s;
  lk_len : 0 <= len < zlen s
}.

Section Line.
Context (c : client_t) (s : list Z) (len : Z) (Hl : line_ok c s len) (Hmax : len <= PACKETLEN_MAX + 1).

Lemma line_q h n o :
  check_header fnmatch g c s len = Some (inr h) ->
  q_process cfg c s PATH_APPEND_LEN h.(h_dstcall_end) h.(h_path_end) h.(h_path_end) h.(h_originated) = Some (n, o) ->
  header_ok s len h /\ qout_ok s PATH_APPEND_LEN h.(h_dstcall_end) h.(h_path_end) n o /\
  bytes_ok o.(qo_new_q) /\ q_kept s h.(h_dstcall_end) h.(h_path_end) o.(qo_pdata).
Proof.
  intros Hc Hq. apply check_header_ok in Hc as [Hh _]. destruct Hl as [L1 L2 L3 L4 [_ L5]]. split; [done|]. split.
  - eapply q_process_ok; [|exact Hq]. destruct Hh. split; try done. lia.
  - exact (q_process_texts cfg c s L4 _ _ _ _ _ _ _ Hq).
Qed.

Lemma fill_free h n o flags pb pb0 :
  fill_pbuf c tick flags h len n o pb = Some (inr pb0) -> pb0.(pb_is_free) = pb.(pb_is_free).
Proof.
  intros Hf. unfold fill_pbuf in Hf. inv_bind Hf. inv_bind Hf. destruct (qconst_at _ _ _); [|done].
  do 4 inv_bind Hf. by injection Hf as <-.
Qed.

Lemma queued_filled f f' rc pb2 :
  queued c f f' s len rc pb2 ->
  exists h n o k flags pb0 pb1,
    check_header fnmatch g c s len = Some (inr h) /\ header_ok s len h /\
    (0 <= n /\ qout_ok s PATH_APPEND_LEN h.(h_dstcall_end) h.(h_path_end) n o /\
     q_kept s h.(h_dstcall_end) h.(h_path_end) o.(qo_pdata) /\
     match o.(qo_q_replace) with
     | Some r => len + n - (o.(qo_path_end) - r) + 3
     | None => len + n + 3
     end <= pool_len k) /\
    filled s len h n o k c tick flags pb0 /\ header pb1 = header pb0 /\ queue_ok pb1 /\
    (has pb1.(pb_packettype) T_QUERY = false /\ pb0.(pb_is_free) = false) /\ pb2 = preprocessed cfg pb1.
Proof.
  intros [h n o k flag flags pb pb0 pb1 xx]. destruct (line_q h n o Qheader Qq) as (Hh & Hq & Hn & Hk).
  destruct Hl as [_ _ _ [_ _ _ _ Lb] [_ L5]].
  pose proof (fill_pbuf_filled s len h n o k pb Hh L5 Lb Hq Qn Hk Hn Qbuffer Qroom c tick flags _ Qfill) as Hf. cbn in Hf.
  pose proof (parsed_ok cosf s len h n o k c tick flags pb0 pb1 rc Hh Hf Qparse) as Hok.
  pose proof (parsed_header cosf pb0 pb1 rc Qparse) as Hp.
  rewrite (preprocess_spec cfg mem tick pb1 f (qk_pre _ Hok)) in Qpre. injection Qpre as <- _.
  exists h, n, o, k, flags, pb0, pb1. apply fill_free in Qfill. by rewrite Qfill.
Qed.

(** What a call does to the queues and the pools: nothing is queued and a buffer
    that was taken is back, or one packet is queued in a buffer that was taken. *)
Definition outcome (st st' : in_state (W := W)) (rc : Z) : Prop :=
  worker_ok st'.(in_worker) /\
  ((same_queues st.(in_worker) st'.(in_worker) /\ balanced st.(in_worker) st'.(in_worker) st.(in_ops) 0) \/
   (exists w1 pb, same_queues st.(in_worker) w1 /\ balanced st.(in_worker) w1 st.(in_ops) 1 /\
      st'.(in_worker) = enqueue pb w1 /\ queued c st.(in_filter) st'.(in_filter) s len rc pb)).

Lemma balanced_back w w1 w2 (x : W) : balanced w w1 x 1 -> free_count w2 = free_count w1 + 1 -> balanced w w2 x 0.
Proof. intros (m & Hm & He & Hc) Hf. exists m. split; [done|]. split; [lia|done]. Qed.

Lemma outcome_none (st : in_state) rc : worker_ok st.(in_worker) -> outcome st st rc.
Proof. intros Hw. split; [done|]. left. split; [done|]. exists 0. split; [lia|]. split; [lia|by left]. Qed.

Lemma outcome_freed (st st' : in_state) w1 k pb rc :
  worker_ok w1 -> same_queues st.(in_worker) w1 -> balanced st.(in_worker) w1 st.(in_ops) 1 -> buffer_ok k pb ->
  st'.(in_worker) = pbuf_free pb w1 -> outcome st st' rc.
Proof.
  intros Hw Hs Hb Hk He. destruct (pbuf_free_spec k pb w1 Hw Hk) as (H1' & H2' & H3'). unfold outcome. rewrite He.
  split; [done|]. left. split; [|by eapply balanced_back].
  destruct Hs as (?&?&?&?), H3' as (?&?&?&?). repeat split; congruence.
Qed.

Lemma forward_cases h n o (st st' : in_state) rc :
  st.(in_client) = c -> worker_ok st.(in_worker) -> check_header fnmatch g c s len = Some (inr h) ->
  q_process cfg c s PATH_APPEND_LEN h.(h_dstcall_end) h.(h_path_end) h.(h_path_end) h.(h_originated) = Some (n, o) ->
  0 <= n -> igate_disallowed fnmatch g o = Some false ->
  forward cosf cfg mem tick h len n o st = Some (st', rc) -> outcome st st' rc.
Proof.
  intros Hc Hw Hh Hq Hn Hi Hf. pose proof (line_q h n o Hh Hq) as (Hho & Hqo & Hnew & Hkept).
  pose proof Hl as [_ _ _ [_ _ _ _ Lb] [_ L5]]. unfold forward in Hf.
  set (new_len := match qo_q_replace o with Some _ => _ | None => _ end) in Hf.
  split_if_in Hf; [injection Hf as <- <-; by apply outcome_none|].
  destruct (pbuf_get new_len (in_worker st) (in_ops st)) as [[opb w1] x1] eqn:Eg.
  destruct (pbuf_get_spec _ _ _ _ _ _ Hw Eg) as (Hw1 & Hs1 & Hb1).
  destruct opb as [pb|]; [|injection Hf as <- <-; split; [done|]; by left].
  destruct Hb1 as (k & d & Hk%pool_for_len & Hbuf & -> & Hbal).
  destruct (classify (in_client st)) as [e|flag] eqn:Ec;
    [injection Hf as <- <-; by apply (outcome_freed st _ w1 k _ _ Hw1 Hs1 Hbal Hbuf)|].
  inv_bind Hf. rename x into src. set (flags := if _ && _ then _ else _) in Hf.
  inv_bind Hf. rename x into r. rewrite Hc in *.
  pose proof (fill_pbuf_filled s len h n o k _ Hho L5 Lb Hqo Hn Hkept Hnew Hbuf Hk c tick flags _ E0) as Hfl.
  destruct r as [pb0|pb0]; [injection Hf as <- <-; by apply (outcome_freed st _ w1 k _ _ Hw1 Hs1 Hbal Hfl)|].
  inv_bind Hf. destruct x as [pb1 rc1]. inv_bind Hf. rename x into xx.
  pose proof (parsed_buffer cosf s len h n o k c tick flags pb0 pb1 rc1 Hfl E1) as Hbuf1.
  apply dispatch_cases in Hf as [Hf|(-> & Hrc & Hty & Hsv & Hv & pb2 & Hpre & He)];
    [by apply (outcome_freed st _ w1 k _ _ Hw1 Hs1 Hbal Hbuf1)|].
  cbn [in_worker in_client in_filter] in *. unfold outcome. rewrite He. split; [by intros []; apply (Hw1)|].
  right. exists w1, pb2. do 3 (split; [done|]).
  apply (Queued c _ _ s len rc1 pb2 h n o k flag flags (pbuf_zero (pool_len k) d) pb0 pb1 xx); try done.
  unfold flags. destruct (_ && _); tauto.
Qed.

Lemma line_cases (st st' : in_state) rc :
  st.(in_client) = c -> worker_ok st.(in_worker) ->
  incoming_line cosf fnmatch cfg g mem tick s len st = Some (st', rc) -> outcome st st' rc.
Proof.
  intros Hc Hw Hf. unfold incoming_line in Hf. rewrite Hc in Hf. inv_bind Hf.
  destruct x as [e|h]; [injection Hf as <- <-; by apply outcome_none|]. inv_bind Hf. destruct x as [n o].
  split_if_in Hf; [injection Hf as <- <-; by apply outcome_none|]. inv_bind Hf.
  destruct x; [injection Hf as <- <-; by apply outcome_none|].
  eapply forward_cases; try done. lia.
Qed.
End Line.
End Course.

(** ** Quirks mode only removes spaces *)

Definition nosp (l : list Z) : list Z := filter (fun c => c <> ch_sp) l.

Lemma nosp_app a b : nosp (a ++ b) = nosp a ++ nosp b.
Proof. apply list.filter_app. Qed.

Lemma nosp_spaces l : Forall (fun c => c = ch_sp) l -> nosp l = [].
Proof. induction 1 as [|x l -> Hl IH]; [done|]. unfold nosp in *. by rewrite list.filter_cons_False by tauto. Qed.

Lemma nosp_same l : Forall (fun c => c <> ch_sp) l -> nosp l = l.
Proof.
  induction 1 as [|x l Hx Hl IH]; [done|]. unfold nosp in *. rewrite list.filter_cons_True by done. by rewrite IH.
Qed.

Lemma nosp_bytes l : bytes_ok l -> bytes_ok (nosp l).
Proof.
  intros Hl. apply list.Forall_forall. intros x [_ Hx]%list_elem_of_filter. by apply (proj1 (list.Forall_forall is_byte l) Hl).
Qed.

Lemma zlen_nosp l : zlen (nosp l) <= zlen l.
Proof. unfold zlen, nosp. pose proof (length_filter (fun c => c <> ch_sp) l). lia. Qed.

Lemma nosp_slice s p q r :
  0 <= p <= q -> q <= r -> nosp (slice s p (r - p)) = nosp (slice s p (q - p)) ++ nosp (slice s q (r - q)).
Proof.
  intros Hp Hq. replace (r - p) with ((q - p) + (r - q)) by lia. rewrite slice_add, nosp_app by lia.
  by replace (p + (q - p)) with q by lia.
Qed.

(** The loop copies the path without its spaces. *)
Lemma quirk_path_nosp n s p e np q np' :
  0 <= p <= e -> e <= zlen s -> quirk_path n s p e np = Some (inr (q, np')) ->
  p <= q <= e /\ np' = np ++ nosp (slice s p (q - p)) /\ (q < e -> rd s q = Some ch_colon).
Proof.
  intros Hp He. revert p np Hp. induction n as [|n IH]; intros p np Hp Hq; cbn [quirk_path] in Hq; [done|].
  assert (forall q', q' = p -> np = np ++ nosp (slice s p (q' - p))) as Hdone
    by (intros ? ->; by rewrite Z.sub_diag, app_nil_r).
  split_if_in Hq; [|injection Hq as <- <-; split; [lia|]; split; [by apply Hdone|lia]].
  inv_bind Hq. destruct (Z.eqb_spec x ch_colon) as [->|];
    [injection Hq as <- <-; split; [lia|]; split; [by apply Hdone|done]|].
  inv_bind Hq. rename x0 into r. inv_bind Hq. rename x0 into el. inv_bind Hq. rename x0 into t. inv_bind Hq.
  apply scan_spec in E0 as (Hr & Hns & _); [|lia]. apply rd_range_Some in E1 as (_ & _ & _ & ->).
  apply scan_spec in E2 as (Ht & Hsp & _); [|lia].
  assert (nosp (slice s p (t - p)) = slice s p (r - p)) as Hel.
  { rewrite (nosp_slice s p r t) by lia. rewrite nosp_same, nosp_spaces, app_nil_r; [done| |].
    - apply Forall_slice; [lia|]. intros i c Hi Hc. specialize (Hsp i c ltac:(lia) Hc). lia.
    - apply Forall_slice; [lia|]. intros i c Hi Hc. specialize (Hns i c ltac:(lia) Hc). lia. }
  destruct ((t <? e) && (x0 =? ch_comma)) eqn:E4.
  - apply IH in Hq as (Hq & -> & Hc); [|lia]. split; [lia|]. split; [|done].
    rewrite (nosp_slice s p t q), (nosp_slice s t (t + 1) q), Hel by lia.
    replace (t + 1 - t) with (1 + 0) by lia. rewrite (slice_cons _ _ _ _ E3) by lia.
    assert (x0 = ch_comma) as -> by lia. by rewrite <- !app_assoc.
  - split_if_in Hq; [|done]. apply IH in Hq as (Hq & -> & Hc); [|lia]. split; [lia|]. split; [|done].
    rewrite (nosp_slice s p t q), Hel by lia. by rewrite <- app_assoc.
Qed.

Lemma skip_sp_spec n s p e q :
  skip_sp n s p e = Some q ->
  p <= q <= p + Z.of_nat n /\ forall i c, p <= i < q -> rd s i = Some c -> c = ch_sp.
Proof.
  revert p. induction n as [|n IH]; intros p Hq; cbn [skip_sp] in Hq; inv_bind Hq.
  { injection Hq as <-. split; [lia|]. intros; lia. }
  destruct (_ && _) eqn:Eb in Hq; [|injection Hq as <-; split; [lia|]; intros; lia].
  apply IH in Hq as [Hq Hs]. split; [lia|]. intros i c Hi Hc. destruct (decide (i = p)) as [->|].
  - assert (x = c) as <- by congruence. lia.
  - apply (Hs i); [lia|done].
Qed.

Lemma quirk_spec s len np :
  0 <= len <= zlen s -> quirk s len = Some (inr np) ->
  exists a q, 0 <= a <= q /\ q <= len /\ Forall (fun c => c = ch_sp \/ c = 0) (slice s 0 a) /\
    np = nosp (slice s a (q - a)) ++ slice s q (len - q) /\ (q < len -> rd s q = Some ch_colon) /\
    zlen np <= PACKETLEN_MAX + 1.
Proof.
  intros Hlen Hq. unfold quirk in Hq. inv_bind Hq. rename x into a. split_if_in Hq; [done|].
  inv_bind Hq. rename x into p1. inv_bind Hq. rename x into src. inv_bind Hq. rename x into p2. inv_bind Hq.
  split_if_in Hq; [done|]. inv_bind Hq. destruct x0 as [e|[q np1]]; [done|]. inv_bind Hq. rename x0 into rest.
  split_if_in Hq; [|done]. injection Hq as <-.
  apply scan_spec in E as (Ha & Hlead & _); [|lia]. apply scan_spec in E0 as (Hp1 & Hns & _); [|lia].
  apply rd_range_Some in E1 as (_ & _ & _ & ->). apply skip_sp_spec in E2 as (Hp2 & Hsp).
  apply quirk_path_nosp in E4 as (Hq & -> & Hc); [|lia..]. apply rd_range_Some in E5 as (_ & _ & _ & ->).
  exists a, q. split; [lia|]. split; [lia|]. split; [|split; [|split; [done|lia]]].
  - apply Forall_slice; [lia|]. intros i c Hi Hr. specialize (Hlead i c ltac:(lia) Hr). lia.
  - rewrite (nosp_slice s a p1 q), (nosp_slice s p1 p2 q) by lia.
    rewrite (nosp_same (slice s a (p1 - a))), (nosp_spaces (slice s p1 (p2 - p1))); [done|..];
      (apply Forall_slice; [lia|]); intros i c Hi Hr; [apply (Hsp i); [lia|done]|].
    specialize (Hns i c ltac:(lia) Hr). lia.
Qed.

(** ** A line of a client *)

Section Handler.
Context {W : Type} `{ServerLaws W} `{ClientDirectory}.
Context (cosf : spec_float -> spec_float) (fnmatch : list Z -> list Z -> bool).
Context (cfg : config) (g : globs) (mem : bool) (tick : Z).

(** The line that is parsed. *)
Definition parsed_line (c : client_t) (s : list Z) (len : Z) (s' : list Z) (len' : Z) : Prop :=
  if c.(c_quirks_mode) then exists np, quirk s len = Some (inr np) /\ s' = np ++ [0] /\ len' = zlen np
  else s' = s /\ len' = len.

Lemma parsed_line_ok c s len s' len' :
  line_ok cfg c s len -> len <= PACKETLEN_MAX - 2 -> parsed_line c s len s' len' ->
  line_ok cfg c s' len' /\ len' <= PACKETLEN_MAX + 1.
Proof.
  intros [L1 L2 L3 [B1 B2 B3 B4 B5] L5] Hmax Hp. unfold parsed_line in Hp. destruct (c_quirks_mode c).
  - destruct Hp as (np & Hq & -> & ->). apply quirk_spec in Hq as (a & q & _ & _ & _ & -> & _ & Hz); [|lia].
    split; [|done]. split; try done.
    + split; try done. unfold bytes_ok. rewrite !Forall_app. split; [split|].
      * by apply nosp_bytes, bytes_ok_slice.
      * by apply bytes_ok_slice.
      * by apply bytes_ok_b.
    + rewrite (zlen_app _ [0]). change (zlen [0]) with 1. set (np := _ ++ slice s q _). pose proof (zlen_nonneg np). lia.
  - destruct Hp as [-> ->]. split; [done|lia].
Qed.

(** A line leaves the queues alone and loses no buffer, or it is queued. *)
Definition handled (s : list Z) (len : Z) (st st' : in_state (W := W)) : Prop :=
  worker_ok st'.(in_worker) /\
  ((same_queues st.(in_worker) st'.(in_worker) /\ balanced st.(in_worker) st'.(in_worker) st.(in_ops) 0) \/
   (exists s' len' rc w1 pb, len <= PACKETLEN_MAX - 2 /\ rd s 0 <> Some ch_hash /\
      parsed_line st.(in_client) s len s' len' /\
      same_queues st.(in_worker) w1 /\ balanced st.(in_worker) w1 st.(in_ops) 1 /\
      st'.(in_worker) = enqueue pb w1 /\
      queued cosf fnmatch cfg g mem tick st.(in_client) st.(in_filter) st'.(in_filter) s' len' rc pb)).

Lemma handled_none s len (st st' : in_state) :
  worker_ok st.(in_worker) -> st'.(in_worker) = st.(in_worker) -> handled s len st st'.
Proof. 
  intros Hw He. unfold handled. rewrite He. split; [done|]. left. split; [done|]. exists 0. split; [lia|]. split; [lia|by left].
Qed.

(** [incoming_parse] on a line of the right length. *)
Lemma parse_cases s len (st st' : in_state) rc :
  line_ok cfg st.(in_client) s len -> worker_ok st.(in_worker) -> len <= PACKETLEN_MAX - 2 ->
  incoming_parse cosf fnmatch cfg g mem tick s len st = Some (st', rc) ->
  worker_ok st'.(in_worker) /\
  ((same_queues st.(in_worker) st'.(in_worker) /\ balanced st.(in_worker) st'.(in_worker) st.(in_ops) 0) \/
   (exists s' len' w1 pb, parsed_line st.(in_client) s len s' len' /\
      same_queues st.(in_worker) w1 /\ balanced st.(in_worker) w1 st.(in_ops) 1 /\
      st'.(in_worker) = enqueue pb w1 /\
      queued cosf fnmatch cfg g mem tick st.(in_client) st.(in_filter) st'.(in_filter) s' len' rc pb)).
Proof.
  intros Hl Hw Hmax E0.
  assert (exists s' len', parsed_line (in_client st) s len s' len' /\
    incoming_line cosf fnmatch cfg g mem tick s' len' st = Some (st', rc) \/ st' = st) as (s' & len' & [[Hp Hi]| ->]).
  { unfold incoming_parse in E0. unfold parsed_line. destruct (c_quirks_mode (in_client st)); [|exists s, len; by left].
    inv_bind E0. destruct x as [?|np]; [injection E0 as <- <-; exists s, len; by right|].
    exists (np ++ [0]), (zlen np). left. split; [|done]. by exists np. }
  2: { split; [done|]. left. split; [done|]. exists 0. split; [lia|]. split; [lia|by left]. }
  destruct (parsed_line_ok _ _ _ _ _ Hl Hmax Hp) as [Hl' Hmax'].
  apply line_cases with (c := in_client st) in Hi as [Hw1 [Hnone|(w1 & pb & H1' & H2' & H3' & H4')]]; try done.
  - split; [done|by left].
  - split; [done|]. right. by exists s', len', w1, pb.
Qed.

Lemma handler_cases l4proto s len (st st' : in_state) rc :
  line_ok cfg st.(in_client) s len -> worker_ok st.(in_worker) ->
  incoming_handler cosf fnmatch cfg g mem tick l4proto s len st = Some (st', rc) -> handled s len st st'.
Proof.
  intros Hl Hw Hf. unfold incoming_handler in Hf. split_if_in Hf; [injection Hf as <- _; by apply handled_none|].
  inv_bind Hf. destruct (Z.eqb_spec x ch_hash) as [->|Hx].
  { split_if_in Hf; [|injection Hf as <- _; by apply handled_none]. inv_bind Hf.
    destruct (memcasestr _ _); [|injection Hf as <- _; by apply handled_none].
    destruct (op_filter_commands _ _ _ _ _). injection Hf as <- _. by apply handled_none. }
  inv_bind Hf. destruct x0 as [st1 e]. injection Hf as <- _.
  apply parse_cases in E0 as [Hw1 [Hn|(s' & len' & w1 & pb & Hq)]]; [split; [done|by left]| |done|done|lia].
  split; [done|]. right. exists s', len', e, w1, pb. split; [lia|]. split; [congruence|]. done.
Qed.

Lemma handled_queued s len (st st' : in_state) pb :
  handled s len st st' -> st'.(in_worker).(w_incoming_local) = st.(in_worker).(w_incoming_local) ++ [pb] ->
  rd s 0 <> Some ch_hash /\ len <= PACKETLEN_MAX - 2 /\
  exists s' len' rc, parsed_line st.(in_client) s len s' len' /\
    queued cosf fnmatch cfg g mem tick st.(in_client) st.(in_filter) st'.(in_filter) s' len' rc pb.
Proof.
  intros [_ [[Hs _]|(s' & len' & rc & w1 & pb' & H1' & H2' & H3' & (Hq & _) & _ & Hw & Hu)]] He.
  - destruct Hs as (Hs & _). rewrite Hs in He. apply (f_equal length) in He. rewrite length_app in He. cbn in He. lia.
  - rewrite Hw in He. cbn in He. rewrite Hq in He. apply app_inv_head in He as [= ->]. split; [done|]. split; [done|]. eauto.
Qed.

(** The parts of the new packet that are the line's. *)
Lemma queued_text c f f' s len rc pb :
  line_ok cfg c s len -> len <= PACKETLEN_MAX + 1 ->
  queued cosf fnmatch cfg g mem tick c f f' s len rc pb ->
  exists h, check_header fnmatch g c s len = Some (inr h) /\
    slice pb.(pb_data) 0 pb.(pb_dstcall_end) = slice s 0 h.(h_dstcall_end) /\
    pb.(pb_srccall_end) = h.(h_src_end) /\ pb.(pb_dstcall_end) = h.(h_dstcall_end) /\
    slice pb.(pb_data) (pb.(pb_info_start) - 1) (pb.(pb_packet_len) - 2 - (pb.(pb_info_start) - 1))
      = slice s h.(h_path_end) (len - h.(h_path_end)).
Proof.
  intros Hl Hm Hu. pose proof (lk_len _ _ _ _ Hl) as [_ L5].
  apply queued_filled in Hu as (h & n & o & k & flags & pb0 & pb1 & Hc & Hh & (Hn & Hq & Hk & Hr) & Hf & E & _ & _ & ->); [|done..].
  exists h. split; [done|]. destruct (preprocessed_header cfg pb1) as (-> & -> & -> & -> & -> & _).
  unfold header in E. injection E as _ _ _ _ _ _ _ _ -> _ -> _ -> _ -> _ ->.
  destruct Hf as [_ _ _ Ht _ Hs [Hd _] [Hi1 Hi2] _ _ _ _ _].
  pose proof (fill_geometry s len h n o k Hh Hq Hn Hr) as (G1 & G2 & G3 & _ & G5 & G6). pose proof Hh as [_ _ _ [P1 P2] _ _ _].
  assert (forall a m, 0 <= a -> 0 <= m -> a + m <= qo_at o + n + (len - h_path_end h) ->
    slice (pb_data pb0) a m = slice (new_packet s len h o) a m) as Hsl.
  { intros a m Ha Hm0 Ham. rewrite <- Ht, slice_slice by lia. done. }
  split; [|split; [done|]; split; [done|]].
  - rewrite Hd, Hsl by lia. by rewrite (new_packet_head s len h n o k) by (done || lia).
  - rewrite Hi1, Hi2, Hsl by lia.
    assert (slice (new_packet s len h o) (qo_at o + n + 0) (len - h_path_end h - 0) =
      slice s (h_path_end h + 0) (len - h_path_end h - 0)) as Hta by (apply (new_packet_tail s len h n o k); done || lia).
    rewrite !Z.add_0_r, Z.sub_0_r in Hta. rewrite <- Hta. f_equal; lia.
Qed.
End Handler.

(** ** Every read is inside its buffer *)

Section Defined.
Context {W : Type} `{ServerLaws W} `{ClientDirectory}.
Context (cosf : spec_float -> spec_float) (fnmatch : list Z -> list Z -> bool).
Context (cfg : config) (g : globs) (mem : bool) (tick : Z).

Lemma party_3rd_ip_in s data len :
  0 <= data -> data + 1 < len -> len < zlen s -> exists b, party_3rd_ip s data len = Some b.
Proof.
  intros Hd Hl Hs. unfold party_3rd_ip. destruct (rd_in s (data + 1)) as [x ->]; [lia|]. cbn [mbind option_bind].
  split_if; [|eauto]. destruct (memchr_in s (data + 2) (len - data - 2) ch_colon) as [m Hm]; [lia..|].
  rewrite Hm. cbn [mbind option_bind]. destruct m as [e|]; [|eauto]. apply memchr_at in Hm.
  destruct (memmem_in s (data + 2) (e - (data + 2)) (str ",TCPIP")) as [m1 ->]; [lia..|].
  destruct (memmem_in s (data + 2) (e - (data + 2)) (str ",TCPXX")) as [m2 ->]; [lia..|]. cbn. eauto.
Qed.

Lemma check_header_in c s len : 0 <= len < zlen s -> exists r, check_header fnmatch g c s len = Some r.
Proof.
  intros Hl. unfold check_header. split_if; [eauto|].
  destruct (memchr_in s 0 len ch_colon) as [m Hm]; [lia..|]. rewrite Hm. cbn [mbind option_bind].
  destruct m as [pe|]; [|eauto]. apply memchr_at in Hm. unfold CALLSIGNLEN_MAX.
  set (lim := if pe <? 9 + 1 then _ else _). assert (0 <= lim <= pe) as Hlim by (unfold lim; split_if; lia).
  destruct (memchr_in s 0 lim ch_gt) as [m2 Hm2]; [lia..|]. rewrite Hm2. cbn [mbind option_bind].
  destruct m2 as [se|]; [|eauto]. apply memchr_at in Hm2. split_if; [eauto|].
  rewrite rd_range_in by lia. cbn [mbind option_bind]. do 2 (split_if; [eauto|]).
  destruct (match disallow_srccall_glob g with Some _ => _ | None => _ end); [eauto|]. split_if; [eauto|].
  set (f := fun x => _ || _ || _). destruct (scan_in s (se + 1) pe f) as [ss Hss]; [lia..|].
  rewrite Hss. cbn [mbind option_bind]. apply scan_spec in Hss as [Hss _]; [|lia].
  set (f2 := fun x => _ || _). destruct (scan_in s ss pe f2) as [de Hde]; [lia..|].
  rewrite Hde. cbn [mbind option_bind]. apply scan_spec in Hde as [Hde _]; [|lia].
  rewrite rd_range_in by lia. cbn [mbind option_bind]. split_if; [eauto|].
  destruct (digi_path_drop_in s de (pe - de)) as [b ->]; [lia..|]. cbn [mbind option_bind]. destruct b; [eauto|].
  destruct (path_calls_in (Z.to_nat (pe - de)) s (de + 1) pe 0 false) as [r Hr]; [lia..|].
  unfold check_path_calls. rewrite Hr. cbn [mbind option_bind]. split_if; [eauto|].
  destruct (party_3rd_ip_in s pe len) as [b ->]; [lia..|]. cbn. destruct b; eauto.
Qed.

(** The test for a message to the server is defined, and says no unless the
    information field is a message or a third-party packet. *)
Lemma to_server_in pb rc :
  names_ok pb -> exists b, to_server pb rc = Some b /\ (b = true -> exists d, message_at pb d).
Proof.
  intros [_ _ Hd _]. unfold to_server. destruct (_ && _ && _) eqn:E; [|exists false; split; [done|discriminate]].
  destruct (pb_dstname pb) as [d|]; [|lia]. destruct Hd as (H1' & H2' & H3' & H4'). cbn [mbind option_bind].
  destruct (strncasecmp_in (pb_data pb) d (str "server")) as [b ->]; [lia|change (zlen (str "server")) with 6; lia|].
  exists b. split; [done|eauto].
Qed.

Lemma heard_update_in c pb : pre_ok pb -> exists c', client_heard_update mem c pb = Some c'.
Proof.
  intros [_ _ [Hs Hl] _ _ _]. unfold client_heard_update. rewrite rd_range_in by lia. cbn [mbind option_bind].
  unfold heard_list_update. destruct (List.find _ _); [cbn; eauto|]. split_if; [cbn; eauto|].
  destruct mem; cbn [negb]; [|cbn; eauto]. unfold heard_callsign. rewrite zlen_slice by lia.
  split_if; [cbn; eauto|lia].
Qed.

(** The message handler of the server is not needed for this packet. *)
Lemma dispatch_in h xx pb rc (st : in_state (W := W)) :
  queue_ok pb -> (forall d, message_at pb d -> h.(h_originated) = false) ->
  exists r, dispatch cfg mem tick h xx pb rc st = Some r.
Proof.
  intros Hok Hm. pose proof Hok as [_ Hpre Hn _]. unfold dispatch. split_if; [eauto|].
  destruct (to_server_in pb rc Hn) as (b & -> & Hb). cbn [mbind option_bind].
  destruct b; [destruct (Hb eq_refl) as [d Hd]; rewrite (Hm d Hd); cbn [negb]; by eexists|].
  destruct (has _ T_QUERY); [by eexists|].
  cbn [in_worker in_client in_filter in_ops]. set (c := if h_originated h && _ then _ else _).
  destruct (disallow_unverified cfg && (_ =? 0)); [by eexists|]. destruct (disallow_unverified cfg && xx); [by eexists|].
  rewrite preprocess_spec by done. cbn [mbind option_bind]. destruct (has _ CLFLAGS_IGATE); [|by eexists].
  destruct (heard_update_in c _ (qk_pre _ (preprocessed_ok cfg pb Hok))) as [c' ->]. by eexists.
Qed.

(** Lines on which every step is defined: the Q construct is complete, and the
    packet is neither a third-party packet nor a message from the client. *)
Definition plain_line (c : client_t) (s : list Z) (len : Z) : Prop :=
  forall h, check_header fnmatch g c s len = Some (inr h) ->
    q_input s h.(h_dstcall_end) h.(h_path_end) /\
    rd s (h.(h_path_end) + 1) <> Some ch_rbrace /\
    (rd s (h.(h_path_end) + 1) = Some ch_colon -> h.(h_originated) = false).

Section PlainLine.
Context (c : client_t) (s : list Z) (len : Z) (Hl : line_ok cfg c s len) (Hmax : len <= PACKETLEN_MAX + 1).

Lemma forward_in h n o (st : in_state (W := W)) :
  st.(in_client) = c -> worker_ok st.(in_worker) -> check_header fnmatch g c s len = Some (inr h) ->
  q_process cfg c s PATH_APPEND_LEN h.(h_dstcall_end) h.(h_path_end) h.(h_path_end) h.(h_originated) = Some (n, o) ->
  0 <= n -> rd s (h.(h_path_end) + 1) <> Some ch_rbrace ->
  (rd s (h.(h_path_end) + 1) = Some ch_colon -> h.(h_originated) = false) ->
  exists r, forward cosf cfg mem tick h len n o st = Some r.
Proof.
  intros Hc Hw Hh Hq Hn Hb Hm. pose proof (line_q fnmatch cfg g c s len Hl Hmax h n o Hh Hq) as (Hho & Hqo & Hnew & Hkept).
  pose proof Hl as [_ _ _ [_ _ _ _ Lb] [_ L5]]. unfold forward.
  set (new_len := match qo_q_replace o with Some _ => _ | None => _ end). split_if; [eauto|].
  destruct (pbuf_get new_len (in_worker st) (in_ops st)) as [[opb w1] x1] eqn:Eg.
  destruct (pbuf_get_spec _ _ _ _ _ _ Hw Eg) as (Hw1 & Hs1 & Hb1). destruct opb as [pb|]; [|eauto].
  destruct Hb1 as (k & d & Hk%pool_for_len & Hbuf & -> & Hbal). rewrite Hc.
  destruct (classify c); [eauto|].
  pose proof (fill_geometry s len h n o k Hho Hqo Hn Hk) as (G1 & G2 & G3 & G4 & G5 & G6).
  pose proof Hho as [Hs1' Hs2' Hs3' [Hp1 Hp2] _ _ _]. rewrite rd_range_in by lia. cbn [mbind option_bind].
  set (flags := if _ && _ then _ else _).
  destruct (fill_pbuf_spec s len h n o k _ Hho L5 Hqo Hn Hkept Hbuf Hk c tick flags) as (tail & Hfill & _).
  pose proof (fill_pbuf_filled s len h n o k _ Hho L5 Lb Hqo Hn Hkept Hnew Hbuf Hk c tick flags _ Hfill) as Hfl.
  rewrite Hfill. cbn [mbind option_bind]. destruct (qconst_at o n (qo_at o)) as [qc|]; [|eauto].
  destruct (parse_aprs_in cosf _ (fl_packet _ _ _ _ _ _ _ _ _ _ Hfl)) as (pb1 & rc & Hparse);
    [by rewrite (fl_first _ _ _ _ _ _ _ _ _ _ Hfl)|].
  rewrite Hparse. cbn [mbind option_bind].
  destruct (memmem_in (qo_pdata o) (h_dstcall_end h) (h_path_end h - h_dstcall_end h) (str ",TCPXX")) as [xx ->]; [lia..|].
  cbn [mbind option_bind]. apply dispatch_in; [exact (parsed_ok _ _ _ _ _ _ _ _ _ _ _ _ _ Hho Hfl Hparse)|].
  pose proof (parsed_header _ _ _ _ Hparse) as E. unfold header in E. injection E as _ _ _ _ _ _ _ _ _ _ _ _ _ _ E1 _ E2.
  assert (rd (pb_data pb1) (pb_info_start pb1) = rd s (h_path_end h + 1)) as Hfirst
    by (rewrite E1, E2; exact (fl_first _ _ _ _ _ _ _ _ _ _ Hfl)).
  intros d0 Hd. unfold message_at, inner in Hd. rewrite Hfirst in Hd.
  destruct Hd as [Hd|[_ Hd]]; [done|by apply Hm].
Qed.

Lemma igate_disallowed_in h n o :
  check_header fnmatch g c s len = Some (inr h) ->
  qout_ok s PATH_APPEND_LEN h.(h_dstcall_end) h.(h_path_end) n o -> 0 <= n ->
  exists b, igate_disallowed fnmatch g o = Some b.
Proof.
  intros Hh Hq Hn. destruct Hq as [|(_ & _ & Hpe & Hz & _)]; [lia|]. apply check_header_ok in Hh as [Hh _].
  destruct Hh as [_ _ _ [_ Hp] _ _ _]. pose proof (lk_len _ _ _ _ Hl) as [_ L5].
  unfold igate_disallowed. destruct (disallow_igate_glob g) as [set|]; [|eauto].
  destruct (qo_new_q_start o) as [|a|]; [eauto| |eauto]. destruct (_ && _) eqn:E; [|eauto].
  unfold check_igate_calls.
  destruct (igate_calls_in (Z.to_nat (qo_path_end o - a + 1)) fnmatch set (qo_pdata o) a (qo_path_end o)) as [r ->]; [lia..|].
  cbn. eauto.
Qed.

Lemma line_in (st : in_state (W := W)) :
  st.(in_client) = c -> worker_ok st.(in_worker) -> plain_line c s len ->
  exists r, incoming_line cosf fnmatch cfg g mem tick s len st = Some r.
Proof.
  intros Hc Hw Hp. unfold incoming_line. rewrite Hc.
  destruct (check_header_in c s len (lk_len _ _ _ _ Hl)) as [[e|h] Hh]; rewrite Hh; cbn [mbind option_bind]; [eauto|].
  destruct (Hp h Hh) as (Hq & Hb & Hm).
  destruct (q_process_in cfg c s PATH_APPEND_LEN _ _ h.(h_originated) Hq) as (n & o & Ho). rewrite Ho. cbn [mbind option_bind].
  split_if; [eauto|].
  destruct (line_q fnmatch cfg g c s len Hl Hmax h n o Hh Ho) as (_ & Hqo & _).
  destruct (igate_disallowed_in h n o Hh Hqo ltac:(lia)) as [b ->]. cbn [mbind option_bind]. destruct b; [eauto|].
  apply forward_in; try done. lia.
Qed.
End PlainLine.
End Defined.

(** The copying of quirks mode is defined, and fits its buffer. *)
Lemma quirk_path_in n s p e np :
  0 <= p <= e -> e < zlen s -> e - p < Z.of_nat n -> exists r, quirk_path n s p e np = Some r.
Proof.
  revert p np. induction n as [|n IH]; intros p np Hp He Hn; cbn [quirk_path]; [lia|].
  destruct (Z.ltb_spec p e); [|eauto]. destruct (rd_in s p) as [c Hc]; [lia|]. rewrite Hc. cbn [mbind option_bind].
  destruct (Z.eqb_spec c ch_colon); [eauto|].
  set (f := fun x => _ || _ || _). destruct (scan_in s p e f) as [r Hr]; [lia..|].
  rewrite Hr. cbn [mbind option_bind]. apply scan_spec in Hr as [Hr _]; [|lia]. rewrite rd_range_in by lia. cbn [mbind option_bind].
  set (f2 := fun x => negb _). destruct (scan_in s r e f2) as [t Ht]; [lia..|]. rewrite Ht. cbn [mbind option_bind].
  apply scan_spec in Ht as [Ht _]; [|lia]. destruct (rd_in s t) as [d Hd]; [lia|]. rewrite Hd. cbn [mbind option_bind].
  destruct (_ && _) eqn:E; [apply IH; lia|]. destruct (Z.eqb_spec d ch_colon); [|eauto].
  assert (t <> p) by congruence. apply IH; lia.
Qed.

Lemma skip_sp_in n s p e : 0 <= p -> p + Z.of_nat n < zlen s -> exists q, skip_sp n s p e = Some q.
Proof.
  revert p. induction n as [|n IH]; intros p Hp Hs; cbn [skip_sp]; (destruct (rd_in s p) as [c ->]; [lia|]);
    cbn [mbind option_bind]; [eauto|]. destruct (_ && _); [apply IH; lia|eauto].
Qed.

Lemma quirk_in s len : 0 <= len < zlen s -> len <= PACKETLEN_MAX -> exists r, quirk s len = Some r.
Proof.
  intros Hl Hm. unfold quirk.
  set (f := fun x => negb _). destruct (scan_in s 0 len f) as [a Ha]; [lia..|]. rewrite Ha. cbn [mbind option_bind].
  apply scan_spec in Ha as [Ha _]; [|lia]. split_if; [eauto|].
  set (f2 := fun x => _ || _). destruct (scan_in s a len f2) as [p1 Hp1]; [lia..|]. rewrite Hp1. cbn [mbind option_bind].
  apply scan_spec in Hp1 as [Hp1 _]; [|lia]. rewrite rd_range_in by lia. cbn [mbind option_bind].
  destruct (skip_sp_in (Z.to_nat (len - p1)) s p1 len) as [p2 Hp2]; [lia..|]. rewrite Hp2. cbn [mbind option_bind].
  apply skip_sp_spec in Hp2 as [Hp2 _]. destruct (rd_in s p2) as [c ->]; [lia|]. cbn [mbind option_bind]. split_if; [eauto|].
  destruct (quirk_path_in (Z.to_nat (len + 2)) s p2 len (slice s a (p1 - a))) as [r Hr]; [lia..|]. rewrite Hr. cbn [mbind option_bind].
  destruct r as [e|[q np]]; [eauto|]. apply quirk_path_nosp in Hr as (Hq & -> & _); [|lia..].
  rewrite rd_range_in by lia. cbn [mbind option_bind]. split_if; [eauto|]. pose proof (zlen_nosp (slice s p2 (q - p2))) as Hz.
  rewrite !zlen_app, !zlen_slice in * by lia. unfold PACKETLEN_MAX in *. lia.
Qed.

(** * The input side *)

Section Claims.
Context {W : Type} `{ServerLaws W} `{ClientDirectory}.
Context (cosf : spec_float -> spec_float) (fnmatch : list Z -> list Z -> bool).
Context (cfg : config) (g : globs) (mem : bool) (tick l4proto : Z).

(** A line either leaves the worker's queues as they are, or exactly one
    packet is appended to the local queue, and its count is raised; the packets
    already handed over are not touched.  The new packet satisfies what the later
    stages rely on: the parser's, the filter module's and the duplicate checker's
    preconditions; it carries the time and the client it came from, and fits its
    buffer with CRLF and NUL. *)
Theorem incoming_queues s len (st st' : in_state) rc :
  line_ok cfg st.(in_client) s len -> worker_ok st.(in_worker) ->
  incoming_handler cosf fnmatch cfg g mem tick l4proto s len st = Some (st', rc) ->
  let w := st.(in_worker) in
  let w' := st'.(in_worker) in
  same_queues w w' \/
  exists pb,
    w'.(w_incoming_local) = w.(w_incoming_local) ++ [pb] /\
    w'.(w_incoming_local_count) = w.(w_incoming_local_count) + 1 /\
    w'.(w_pbuf_incoming) = w.(w_pbuf_incoming) /\ w'.(w_pbuf_incoming_count) = w.(w_pbuf_incoming_count) /\
    queue_ok pb /\ pb.(pb_t) = tick /\ pb.(pb_origin) = st.(in_client).(c_id) /\
    exists k, pb.(pb_buf_len) = pool_len k /\ pb.(pb_packet_len) < pool_len k.
Proof.
  intros Hl Hw Hf. apply handler_cases in Hf as [_ [[Hs _]|Hu]]; [by left| |done..].
  destruct Hu as (s' & len' & e & w1 & pb & H1' & _ & H3' & (Q1 & Q2 & Q3 & Q4) & _ & Hw' & Hu).
  cbv zeta. right. exists pb. rewrite Hw'. cbn. rewrite Q1, Q2, Q3, Q4. do 4 (split; [done|]).
  destruct (parsed_line_ok cfg _ _ _ _ _ Hl H1' H3') as [Hl' Hm'].
  apply queued_filled in Hu as (h & n & o & k & flags & pb0 & pb1 & _ & _ & _ & Hfl & E & Hok & _ & ->); [|done..].
  split; [by apply preprocessed_ok|]. destruct (preprocessed_header cfg pb1) as (_ & -> & _ & _ & _ & -> & -> & -> & _).
  destruct Hfl as [(Hb & _) _ _ _ Hlen _ _ _ _ _ _ _ (T1 & T2 & _)]. unfold header in E. injection E as -> _ _ _ _ _ _ -> -> -> _.
  split; [done|]. split; [done|]. by exists k.
Qed.

(** A queued packet is the client's line with only the path between the
    destination callsign and the colon rewritten: the source and destination
    callsigns and the information field are the line's, byte for byte (in quirks
    mode, of the line without the spaces of its header). *)
Theorem incoming_text s len (st st' : in_state) rc pb :
  line_ok cfg st.(in_client) s len -> worker_ok st.(in_worker) ->
  incoming_handler cosf fnmatch cfg g mem tick l4proto s len st = Some (st', rc) ->
  st'.(in_worker).(w_incoming_local) = st.(in_worker).(w_incoming_local) ++ [pb] ->
  exists s' len' h,
    parsed_line st.(in_client) s len s' len' /\
    check_header fnmatch g st.(in_client) s' len' = Some (inr h) /\
    slice pb.(pb_data) 0 pb.(pb_dstcall_end) = slice s' 0 h.(h_dstcall_end) /\
    pb.(pb_srccall_end) = h.(h_src_end) /\ pb.(pb_dstcall_end) = h.(h_dstcall_end) /\
    slice pb.(pb_data) (pb.(pb_info_start) - 1) (pb.(pb_packet_len) - 2 - (pb.(pb_info_start) - 1))
      = slice s' h.(h_path_end) (len' - h.(h_path_end)).
Proof.
  intros Hl Hw Hf Hq. apply handler_cases in Hf; [|done..].
  destruct (handled_queued _ _ _ _ _ _ _ _ _ _ _ Hf Hq) as (_ & Hm & s' & len' & rc' & Hp & Hu).
  destruct (parsed_line_ok cfg _ _ _ _ _ Hl Hm Hp) as [Hl' Hm'].
  apply queued_text in Hu as (h & Hu); [|done..]. by exists s', len', h.
Qed.

(** C30: What is forwarded has passed every check: the line is not a comment and
    not too long, both callsigns are valid, the source is neither one of the
    disallowed calls nor matched by the administrator's list, the path has no
    marker against gating and only valid elements, no third-party packet comes
    back from the Internet, the Q construct names no refused igate, the packet is
    no general query, and when unverified logins are refused, the client is
    validated and the path has no TCPXX. *)
Theorem incoming_policy s len (st st' : in_state) rc pb :
  line_ok cfg st.(in_client) s len -> worker_ok st.(in_worker) ->
  incoming_handler cosf fnmatch cfg g mem tick l4proto s len st = Some (st', rc) ->
  st'.(in_worker).(w_incoming_local) = st.(in_worker).(w_incoming_local) ++ [pb] ->
  rd s 0 <> Some ch_hash /\ len <= PACKETLEN_MAX - 2 /\ has pb.(pb_packettype) T_QUERY = false /\
  exists s' len' h n o flag,
    parsed_line st.(in_client) s len s' len' /\
    admitted fnmatch g st.(in_client) s' len' h /\
    q_process cfg st.(in_client) s' PATH_APPEND_LEN h.(h_dstcall_end) h.(h_path_end) h.(h_path_end) h.(h_originated)
      = Some (n, o) /\ 0 <= n /\ igate_disallowed fnmatch g o = Some false /\
    classify st.(in_client) = inr flag /\
    (cfg.(disallow_unverified) = true ->
       st.(in_client).(c_validated) <> 0 /\
       memmem o.(qo_pdata) h.(h_dstcall_end) (h.(h_path_end) - h.(h_dstcall_end)) (str ",TCPXX") = Some None).
Proof.
  intros Hl Hw Hf Hq. apply handler_cases in Hf; [|done..].
  destruct (handled_queued _ _ _ _ _ _ _ _ _ _ _ Hf Hq) as (Hc & Hm & s' & len' & rc' & Hp & Hu).
  destruct (parsed_line_ok cfg _ _ _ _ _ Hl Hm Hp) as [Hl' Hm']. split; [done|]. split; [done|].
  split.
  - apply queued_filled in Hu as (_ & _ & _ & _ & _ & pb0 & pb1 & _ & _ & _ & _ & _ & _ & [Hq1 _] & ->); [|done..].
    destruct (preprocessed_header cfg pb1) as (_ & _ & _ & _ & _ & _ & _ & _ & ->). done.
  - destruct Hu as [h n o k flag flags pb_ pb0 pb1 xx]. destruct (check_header_ok _ _ _ _ _ _ Qheader) as [Hh Had].
    exists s', len', h, n, o, flag. do 6 (split; [done|]). intros Hd. destruct (Qverified Hd) as [Hv Hx].
    split; [done|]. rewrite Qtcpxx. f_equal. by apply negb_false_iff, bool_decide_eq_true in Hx.
Qed.

(** No packet buffer is lost or freed twice: the buffers in the free pools and
    the packets in the local queue after a line are those before it, and the cells
    an arena handed out during the call when a pool was empty; every buffer in a
    pool has the size of the pool. *)
Theorem incoming_buffers s len (st st' : in_state) rc :
  line_ok cfg st.(in_client) s len -> worker_ok st.(in_worker) ->
  incoming_handler cosf fnmatch cfg g mem tick l4proto s len st = Some (st', rc) ->
  let w := st.(in_worker) in
  let w' := st'.(in_worker) in
  worker_ok w' /\
  exists n,
    free_count w' + zlen w'.(w_incoming_local) = free_count w + zlen w.(w_incoming_local) + n /\
    (n = 0 \/ exists k cells x', op_cellmallocmany (pool_len k) (pool_bunch k) st.(in_ops) = (cells, x') /\ n = zlen cells).
Proof.
  intros Hl Hw Hf. apply handler_cases in Hf as [Hw' Hu]; [|done..]. split; [done|].
  destruct Hu as [[(Q1 & _) (n & Hn & He & Hc)]|(s' & len' & e & w1 & pb & _ & _ & _ & (Q1 & _) & (n & Hn & He & Hc) & -> & _)];
    exists n; (split; [|done]).
  - rewrite Q1. lia.
  - cbn. rewrite Q1, zlen_app. change (zlen [pb]) with 1. change (free_count (enqueue pb w1)) with (free_count w1). lia.
Qed.

Lemma parse_total s len (st : in_state (W := W)) :
  line_ok cfg st.(in_client) s len -> worker_ok st.(in_worker) -> len <= PACKETLEN_MAX - 2 ->
  (forall s' len', parsed_line st.(in_client) s len s' len' -> plain_line fnmatch g st.(in_client) s' len') ->
  exists st' rc, incoming_parse cosf fnmatch cfg g mem tick s len st = Some (st', rc).
Proof.
  intros Hl Hw Hmax Hp. pose proof (lk_len _ _ _ _ Hl) as L5.
  unfold incoming_parse, parsed_line in *. destruct (c_quirks_mode (in_client st)) eqn:Eq.
  - destruct (quirk_in s len) as [[e|np] Hq]; [unfold PACKETLEN_MAX in *; lia..| |]; rewrite Hq; cbn [mbind option_bind]; [by eexists _, _|].
    assert (parsed_line (in_client st) s len (np ++ [0]) (zlen np)) as Hpl by (unfold parsed_line; rewrite Eq; by exists np).
    destruct (parsed_line_ok cfg _ _ _ _ _ Hl Hmax Hpl) as [Hl' Hm'].
    destruct (line_in cosf fnmatch cfg g mem tick _ _ _ Hl' Hm' st eq_refl Hw) as [[st' rc] ->]; [by apply Hp; exists np|].
    by eexists _, _.
  - destruct (line_in cosf fnmatch cfg g mem tick _ _ _ Hl ltac:(lia) st eq_refl Hw) as [[st' rc] ->]; [by apply Hp|].
    by eexists _, _.
Qed.

(** C33: The input side is defined on every line of a client, whatever its bytes:
    no step of the header checks, the Q construct algorithm, the copying, the
    parser and the filter databases reads or writes outside its buffer, and each
    loop ends.  Excepted are the lines whose Q construct is incomplete, third-party
    packets, and messages by the client itself, which may be for the server. *)
Theorem incoming_total s len (st : in_state (W := W)) :
  line_ok cfg st.(in_client) s len -> worker_ok st.(in_worker) ->
  (forall s' len', parsed_line st.(in_client) s len s' len' -> plain_line fnmatch g st.(in_client) s' len') ->
  exists st' rc, incoming_handler cosf fnmatch cfg g mem tick l4proto s len st = Some (st', rc).
Proof.
  intros Hl Hw Hp. pose proof (lk_len _ _ _ _ Hl) as L5. unfold incoming_handler. cbv zeta.
  destruct (Z.gtb_spec len (PACKETLEN_MAX - 2)) as [|Hmax]; [by eexists _, _|].
  destruct (rd_in s 0) as [x ->]; [lia|]. cbn [mbind option_bind]. destruct (x =? ch_hash).
  { destruct (_ && _); [|by eexists _, _]. rewrite rd_range_in by lia. cbn [mbind option_bind].
    destruct (memcasestr _ _); [|by eexists _, _]. destruct (op_filter_commands _ _ _ _ _). by eexists _, _. }
  destruct (parse_total s len st Hl Hw Hmax Hp) as (st' & rc & ->). by eexists _, _.
Qed.
End Claims.

(** In quirks mode a line is changed by removing leading spaces and NULs and
    the spaces of its header, and in nothing else: from the colon on it is copied
    byte for byte. *)
Theorem quirk_effect s len np :
  0 <= len <= zlen s -> quirk s len = Some (inr np) ->
  exists lead hdr body, slice s 0 len = lead ++ hdr ++ body /\
    Forall (fun c => c = ch_sp \/ c = 0) lead /\ np = nosp hdr ++ body /\
    match body with [] => True | c :: _ => c = ch_colon end.
Proof.
  intros Hlen Hq. apply quirk_spec in Hq as (a & q & Ha & Hq & Hlead & -> & Hc & _); [|done].
  exists (slice s 0 a), (slice s a (q - a)), (slice s q (len - q)). split; [|split; [done|split; [done|]]].
  - replace len with (a + ((q - a) + (len - q))) at 1 by lia. rewrite !slice_add by lia. do 3 f_equal. lia.
  - destruct (Z.eq_dec q len) as [->|]; [by rewrite Z.sub_diag|].
    replace (len - q) with (1 + (len - q - 1)) by lia. by rewrite (slice_cons _ _ _ _ (Hc ltac:(lia))) by lia.
Qed.

(** ** Instances *)

(** A server whose arenas have three cells left. *)
#[local] Instance demo_server : ServerOps unit := {|
  op_cellmallocmany := fun len n x => (repeat (pbuf_zero 0 (repeat 0 (Z.to_nat (len + 1)))) 3, x);
  op_write := fun c text x => (x, 0);
  op_filter_commands := fun c in_msg text len x => (x, 0);
  op_filter_s := fun c x => [];
  op_random := fun x => (4, x);
  op_account_rx := fun c l4proto bytes packets err dupes x => x;
  op_account_tx := fun c bytes packets x => x
|}.

#[local] Instance demo_server_laws : ServerLaws unit.
Proof.
  split. intros len n x cells x' Hlen [= <- <-].
  assert (forall m, bytes_ok (repeat 0 m)) as Hb
    by (intros m; induction m; [constructor|constructor; [unfold is_byte; lia|done]]).
  assert (zlen (repeat 0 (Z.to_nat (len + 1))) = len + 1) as Hz by (unfold zlen; rewrite repeat_length; lia).
  repeat constructor; try (rewrite zlen_pbuf_zero; exact Hz); cbn; destruct (Hb (Z.to_nat (len + 1)));
    repeat constructor; unfold is_byte; done || lia.
Qed.

Definition demo_worker : worker_t := mk_worker [] [] [] [] 0 [] 0.

Definition demo_state : in_state (W := unit) :=
  mk_in demo_worker (demo_client "OH7AA-10" CLFLAGS_INPORT 1) filterdb_zero tt.

Definition no_globs : globs := mk_globs None None.

(** A position of a station that an igate heard. *)
Definition demo_input : list Z := str "OH7LZB>APRS,WIDE1-1,qAR,OH7AA-10:!6028.51N/02505.68E#PHG" ++ [0].

Definition demo_run : option (in_state (W := unit) * Z) :=
  @incoming_handler unit demo_server demo_directory demo_cos (fun _ _ => false) demo_cfg no_globs true 1000 6
    demo_input (zlen demo_input - 1) demo_state.

Strategy expand [demo_run].

Example demo_run_text :
  match demo_run with
  | Some (st, rc) =>
      match st.(in_worker).(w_incoming_local) with
      | [pb] => rc = 0 /\ cstr pb.(pb_data) = str "OH7LZB>APRS,WIDE1-1,qAR,OH7AA-10:!6028.51N/02505.68E#PHG" ++ [13; 10] /\
          has pb.(pb_flags) F_HASPOS = true
      | _ => False
      end
  | None => False
  end.
Proof. vm_compute. done. Qed.

Lemma demo_line_ok : line_ok demo_cfg demo_state.(in_client) demo_input (zlen demo_input - 1).
Proof.
  split; try (vm_compute; congruence); [|split; vm_compute; congruence].
  split; try (apply bytes_ok_b; vm_compute; reflexivity). split; vm_compute; congruence.
Qed.

Lemma demo_worker_ok : worker_ok demo_state.(in_worker).
Proof. by intros []; constructor. Qed.

Lemma incoming_queues_witness :
  match demo_run with
  | Some (st', _) =>
      zlen st'.(in_worker).(w_incoming_local) = 1 /\
      (same_queues demo_worker st'.(in_worker) \/
       exists pb, st'.(in_worker).(w_incoming_local) = [] ++ [pb] /\ queue_ok pb /\ pb.(pb_t) = 1000 /\ pb.(pb_origin) = 1)
  | None => False
  end.
Proof.
  assert (match demo_run with Some (st', _) => zlen st'.(in_worker).(w_incoming_local) = 1 | None => False end) as Hv
    by (vm_compute; reflexivity).
  destruct demo_run as [[st' rc]|] eqn:E; [unfold demo_run in E|destruct Hv]. split; [exact Hv|].
  destruct (incoming_queues _ _ _ _ _ _ _ _ _ demo_state _ _ demo_line_ok demo_worker_ok E)
    as [?|(pb & H1 & _ & _ & _ & H5 & H6 & H7 & _)]; [by left|right]. exists pb. exact (conj H1 (conj H5 (conj H6 H7))).
Defined.

Lemma incoming_text_witness :
  match demo_run with
  | Some (st', _) =>
      match st'.(in_worker).(w_incoming_local) with
      | [pb] => exists s' len' h,
          parsed_line demo_state.(in_client) demo_input (zlen demo_input - 1) s' len' /\
          slice pb.(pb_data) 0 pb.(pb_dstcall_end) = slice s' 0 h.(h_dstcall_end)
      | _ => False
      end
  | None => False
  end.
Proof.
  assert (match demo_run with Some (st', _) => length st'.(in_worker).(w_incoming_local) = 1%nat | None => False end) as Hv
    by (vm_compute; reflexivity).
  destruct demo_run as [[st' rc]|] eqn:E; [unfold demo_run in E|destruct Hv].
  destruct (w_incoming_local (in_worker st')) as [|pb [|]] eqn:El; try discriminate Hv.
  destruct (incoming_text _ _ _ _ _ _ _ _ _ demo_state _ _ pb demo_line_ok demo_worker_ok E El)
    as (s' & len' & h & H1 & _ & H3 & _). exists s', len', h. exact (conj H1 H3).
Defined.

Lemma incoming_policy_witness :
  match demo_run with
  | Some (st', _) =>
      match st'.(in_worker).(w_incoming_local) with
      | [pb] => has pb.(pb_packettype) T_QUERY = false /\
          exists s' len' h, parsed_line demo_state.(in_client) demo_input (zlen demo_input - 1) s' len' /\
            admitted (fun _ _ => false) no_globs demo_state.(in_client) s' len' h
      | _ => False
      end
  | None => False
  end.
Proof.
  assert (match demo_run with Some (st', _) => length st'.(in_worker).(w_incoming_local) = 1%nat | None => False end) as Hv
    by (vm_compute; reflexivity).
  destruct demo_run as [[st' rc]|] eqn:E; [unfold demo_run in E|destruct Hv].
  destruct (w_incoming_local (in_worker st')) as [|pb [|]] eqn:El; try discriminate Hv.
  destruct (incoming_policy _ _ _ _ _ _ _ _ _ demo_state _ _ pb demo_line_ok demo_worker_ok E El)
    as (_ & _ & H3 & s' & len' & h & n & o & flag & H4 & H5 & _). split; [exact H3|]. exists s', len', h. exact (conj H4 H5).
Defined.

Lemma incoming_buffers_witness :
  match demo_run with
  | Some (st', _) =>
      worker_ok st'.(in_worker) /\ free_count st'.(in_worker) = 2 /\
      exists n, free_count st'.(in_worker) + zlen st'.(in_worker).(w_incoming_local) = 0 + 0 + n
  | None => False
  end.
Proof.
  assert (match demo_run with Some (st', _) => free_count st'.(in_worker) = 2 | None => False end) as Hv
    by (vm_compute; reflexivity).
  destruct demo_run as [[st' rc]|] eqn:E; [unfold demo_run in E|destruct Hv].
  destruct (incoming_buffers _ _ _ _ _ _ _ _ _ demo_state _ _ demo_line_ok demo_worker_ok E) as (H1 & n & H2 & _).
  split; [exact H1|]. split; [exact Hv|]. exists n. exact H2.
Defined.

Lemma incoming_total_witness : exists st' rc, demo_run = Some (st', rc).
Proof.
  apply incoming_total; [exact demo_line_ok|exact demo_worker_ok|].
  intros s' len' [-> ->] h Hh. vm_compute in Hh. injection Hh as <-.
  split; [|split; [vm_compute; discriminate|reflexivity]].
  split; [vm_compute; intuition congruence|done|by apply no_comma_take|].
  intros f Hf. right. vm_compute in Hf. injection Hf as <-. done.
Defined.

Lemma quirk_effect_witness :
  exists lead hdr body, str " OH7LZB >APRS ,WIDE1-1 : hi" = lead ++ hdr ++ body /\
    str "OH7LZB>APRS,WIDE1-1: hi" = nosp hdr ++ body.
Proof.
  destruct (quirk_effect (str " OH7LZB >APRS ,WIDE1-1 : hi" ++ [0]) 27 (str "OH7LZB>APRS,WIDE1-1: hi"))
    as (lead & hdr & body & H1 & _ & H3 & _); [vm_compute; split; congruence|vm_compute; reflexivity|].
  by exists lead, hdr, body.
Defined.
