(* ===== verification/Buffers.v ===== *)
(** * incoming.c and worker.c: the memory of the packet buffers

    Incoming.v has the buffers a worker holds as values.  Here they are cells, by
    address: three arenas of Cellmalloc.v, one for each size of buffers, and for each
    worker three lists of free buffers, linked through the first word of the cells,
    which is the word the arenas use for their own lists.  [p->next] is accessed as
    a word of the arena the code takes the buffer to be from, and the fields of the
    header as those of any cell; an access outside of that is [None]. *)

From S2P Require Import Prelude Cellmalloc Types Incoming.
From Stdlib Require Import ZArith Lia Bool.
From stdpp Require Import base tactics list numbers gmap.
Open Scope Z_scope.

(** ** Data *)

#[export] Instance pool_class_eq : EqDecision pool_class.
Proof. solve_decision. Defined.

(** A variable for each of the three sizes. *)
Definition upd {A} (k : pool_class) (v : A) (f : pool_class -> A) (k' : pool_class) : A :=
  if bool_decide (k' = k) then v else f k'.

(** The fields of a buffer's header the pools use. *)
Record pbuf_hdr := mk_hdr { h_buf_len : Z; h_is_free : bool }.

(** [pbuf_cells_small], [pbuf_cells_medium] and [pbuf_cells_large], and the headers of
    the cells, which are zero until they are written. *)
Record pmem := mk_pmem { pbuf_cells : pool_class -> cells; hdrs : gmap Z pbuf_hdr }.

(** [pbuf_free_small], [pbuf_free_medium] and [pbuf_free_large] of a worker. *)
Definition heads : Type := pool_class -> Z.

Definition set_arena (k : pool_class) (c : cells) (m : pmem) : pmem := mk_pmem (upd k c m.(pbuf_cells)) m.(hdrs).

Definition link (m : pmem) (k : pool_class) (p : Z) : option Z := (m.(pbuf_cells) k).(next) !! p.

Definition set_link (k : pool_class) (p v : Z) (m : pmem) : option pmem :=
  let c := m.(pbuf_cells) k in
  h ← set_next p v c.(next); Some (set_arena k (mk_cells c.(ca) h c.(calls)) m).

Definition is_cell (m : pmem) (p : Z) : bool :=
  bool_decide (is_Some (link m PoolSmall p) \/ is_Some (link m PoolMedium p) \/ is_Some (link m PoolLarge p)).

Definition hdr_at (m : pmem) (p : Z) : pbuf_hdr := default (mk_hdr 0 false) (m.(hdrs) !! p).

Definition get_hdr (p : Z) (m : pmem) : option pbuf_hdr := if is_cell m p then Some (hdr_at m p) else None.

Definition set_hdr (p : Z) (h : pbuf_hdr) (m : pmem) : option pmem :=
  if is_cell m p then Some (mk_pmem m.(pbuf_cells) (<[p := h]> m.(hdrs))) else None.

(** The [switch] on [buf_len]. *)
Definition class_of_len (buf_len : Z) : option pool_class :=
  if buf_len =? PACKETLEN_MAX_SMALL then Some PoolSmall
  else if buf_len =? PACKETLEN_MAX_MEDIUM then Some PoolMedium
  else if buf_len =? PACKETLEN_MAX_LARGE then Some PoolLarge
  else None.

(** ** Operations *)

Section Buffers.
(** The answers to the calls of [mmap] made for each arena; [sizeof(struct pbuf_t)]
    and its alignment; and [pbuf_cells_kb]. *)
Variable mmap : pool_class -> nat -> option Z.
Variables (pbuf_size pbuf_align pbuf_cells_kb : Z).

Definition pbuf_init : option pmem :=
  let arena k := cellinit (mmap k) 0 (pbuf_size + pool_len k) pbuf_align false pbuf_cells_kb 0 in
  small ← arena PoolSmall;
  medium ← arena PoolMedium;
  large ← arena PoolLarge;
  Some (mk_pmem (fun k => match k with PoolSmall => small | PoolMedium => medium | PoolLarge => large end) ∅).

(** [memset(pb, 0, sizeof( *pb )); pb->buf_len = len;] *)
Definition zero_buffer (k : pool_class) (p : Z) (m : pmem) : option pmem :=
  m ← set_link k p 0 m; set_hdr p (mk_hdr (pool_len k) false) m.

(** The loop of [pbuf_get] that puts the cells of a bunch on the worker's list. *)
Fixpoint stock_pool (k : pool_class) (l : list Z) (head : Z) (m : pmem) : option (Z * pmem) :=
  match l with
  | [] => Some (head, m)
  | p :: l =>
      m ← set_link k p head m;
      m ← set_hdr p (mk_hdr (pool_len k) false) m;
      stock_pool k l p m
  end.

(** [pbuf_get]: the address of the buffer, 0 when there is none. *)
Definition pbuf_get_cell (len : Z) (self : heads) (m : pmem) : option (Z * heads * pmem) :=
  match pool_for len with
  | None => Some (0, self, m)
  | Some k =>
      let pb := self k in
      if negb (pb =? 0) then
        n ← link m k pb;
        m ← zero_buffer k pb m;
        Some (pb, upd k n self, m)
      else
        '(c, allocarray) ← cellmallocmany (mmap k) (pool_bunch k) (m.(pbuf_cells) k);
        let m := set_arena k c m in
        match allocarray with
        | [] => Some (0, self, m)
        | pb :: rest =>
            '(head, m) ← stock_pool k rest (self k) m;
            m ← zero_buffer k pb m;
            Some (pb, upd k head self, m)
        end
  end.

(** [pbuf_free] with a worker: a buffer of unknown size is only reported. *)
Definition pbuf_free_local (self : heads) (p : Z) (m : pmem) : option (heads * pmem) :=
  h ← get_hdr p m;
  match class_of_len h.(h_buf_len) with
  | Some k => m ← set_link k p (self k) m; Some (upd k p self, m)
  | None => Some (self, m)
  end.

(** [pbuf_free] without one. *)
Definition pbuf_free_global (p : Z) (m : pmem) : option pmem :=
  h ← get_hdr p m;
  match class_of_len h.(h_buf_len) with
  | Some k => c ← cellfree p (m.(pbuf_cells) k); Some (set_arena k c m)
  | None => Some m
  end.

(** The loop of [pbuf_free_many]: the buffers are marked and sorted by size. *)
Fixpoint sort_buffers (ps : list Z) (acc : pool_class -> list Z) (m : pmem) : option ((pool_class -> list Z) * pmem) :=
  match ps with
  | [] => Some (acc, m)
  | p :: ps =>
      h ← get_hdr p m;
      m ← set_hdr p (mk_hdr h.(h_buf_len) true) m;
      sort_buffers ps (match class_of_len h.(h_buf_len) with Some k => upd k (acc k ++ [p]) acc | None => acc end) m
  end.

Definition give_back (k : pool_class) (l : list Z) (m : pmem) : option pmem :=
  if zlen l >? 0 then c ← cellfreemany l (m.(pbuf_cells) k); Some (set_arena k c m) else Some m.

Definition pbuf_free_many (array : list Z) (m : pmem) : option pmem :=
  '(sorted, m) ← sort_buffers array (fun _ => []) m;
  m ← give_back PoolSmall (sorted PoolSmall) m;
  m ← give_back PoolMedium (sorted PoolMedium) m;
  give_back PoolLarge (sorted PoolLarge) m.

(** One of the loops of [worker_free_buffers]; [None] when it does not end. *)
Fixpoint drain_pool (n : nat) (k : pool_class) (p : Z) (m : pmem) : option pmem :=
  if p =? 0 then Some m
  else
    match n with
    | O => None
    | S n => pn ← link m k p; m ← pbuf_free_global p m; drain_pool n k pn m
    end.

(** There is no longer list than there are cells. *)
Definition drain_list (k : pool_class) (p : Z) (m : pmem) : option pmem := drain_pool (size (m.(pbuf_cells) k).(next)) k p m.

Definition worker_free_buffers (self : heads) (m : pmem) : option pmem :=
  m ← drain_list PoolSmall (self PoolSmall) m;
  m ← drain_list PoolMedium (self PoolMedium) m;
  drain_list PoolLarge (self PoolLarge) m.

(** ** The threads *)

(** The workers that are running, with the pseudo-workers of the UDP and HTTP
    inputs, and the memory they share. *)
Record bufsys := mk_bufsys { bs_mem : pmem; bs_workers : list heads }.

Inductive buf_op : Set :=
  | WorkerStart
  | WorkerEnd (i : nat)
  | Get (i : nat) (len : Z)
  | Release (i : nat) (p : Z)
  | Purge (ps : list Z)
  | Link (p v : Z).

(** An operation, with the address [pbuf_get] returned.  [Link] is the owner of a
    buffer putting it on a queue. *)
Definition buf_exec (op : buf_op) (s : bufsys) : option (bufsys * Z) :=
  let '(mk_bufsys m ws) := s in
  match op with
  | WorkerStart => Some (mk_bufsys m (ws ++ [fun _ => 0]), 0)
  | WorkerEnd i => w ← ws !! i; m ← worker_free_buffers w m; Some (mk_bufsys m (delete i ws), 0)
  | Get i len => w ← ws !! i; '(p, w, m) ← pbuf_get_cell len w m; Some (mk_bufsys m (<[i := w]> ws), p)
  | Release i p => w ← ws !! i; '(w, m) ← pbuf_free_local w p m; Some (mk_bufsys m (<[i := w]> ws), 0)
  | Purge ps => m ← pbuf_free_many ps m; Some (mk_bufsys m ws, 0)
  | Link p v => h ← get_hdr p m; k ← class_of_len h.(h_buf_len); m ← set_link k p v m; Some (mk_bufsys m ws, 0)
  end.

(** The workers there are, and the buffers in use, are what operations apply to. *)
Definition buf_given (op : buf_op) : list Z :=
  match op with Release _ p | Link p _ => [p] | Purge ps => ps | _ => [] end.

Definition buf_freed (op : buf_op) : list Z :=
  match op with Release _ p => [p] | Purge ps => ps | _ => [] end.

Definition buf_allowed (op : buf_op) (s : bufsys) (used : list Z) : Prop :=
  buf_given op ⊆+ used /\
  match op with WorkerEnd i | Get i _ | Release i _ => (i < length s.(bs_workers))%nat | _ => True end.

(** The buffers in use after an operation that returned [p]. *)
Definition used_after (op : buf_op) (p : Z) (used used' : list Z) : Prop :=
  Permutation ((if p =? 0 then [] else [p]) ++ used) (buf_freed op ++ used').

Inductive buf_reach : bufsys -> list Z -> Prop :=
  | buf_reach_init m : pbuf_init = Some m -> buf_reach (mk_bufsys m []) []
  | buf_reach_step op s used s' p used' :
      buf_reach s used -> buf_allowed op s used -> buf_exec op s = Some (s', p) -> used_after op p used used' ->
      buf_reach s' used'.

(** ** The cells and their owners *)

Definition pbuf_increment (k : pool_class) : Z :=
  let size := pbuf_size + pool_len k in
  if size mod pbuf_align =? 0 then size else size + (pbuf_align - size mod pbuf_align).

(** Mappings do not overlap, whichever arena they are for. *)
Record mmaps_ok : Prop := {
  ms_each : forall k, mmap_ok (mmap k) (pbuf_cells_kb * 1024) pbuf_align;
  ms_apart : forall k k' i j b c, k <> k' -> mmap k i = Some b -> mmap k' j = Some c ->
    b + pbuf_cells_kb * 1024 <= c \/ c + pbuf_cells_kb * 1024 <= b
}.

Hypotheses (Hmm : mmaps_ok) (Hsize : 0 <= pbuf_size) (Halign : 0 < pbuf_align) (Hkb : 0 <= pbuf_cells_kb).

(** The cells of each arena that are not free in it. *)
Definition mem_inv (m : pmem) (L : pool_class -> list Z) : Prop :=
  forall k, Cellmalloc.config (m.(pbuf_cells) k).(ca) =
              (pbuf_size + pool_len k, pbuf_align, pbuf_increment k, false, 0, pbuf_cells_kb * 1024) /\
    exists fl, arena_inv (mmap k) (m.(pbuf_cells) k) fl (L k).

(** The memory of the cells [L] is as it was. *)
Definition same_on (L : pool_class -> list Z) (m m' : pmem) : Prop :=
  forall k p, p ∈ L k -> link m' k p = link m k p /\ hdr_at m' p = hdr_at m p.

Lemma upd_eq {A} k (v : A) f : upd k v f k = v.
Proof. unfold upd. by rewrite bool_decide_eq_true_2. Qed.

Lemma upd_ne {A} k k' (v : A) f : k' <> k -> upd k v f k' = f k'.
Proof. intros H. unfold upd. by rewrite bool_decide_eq_false_2. Qed.

(** The variable of the size [k], and the others. *)
Ltac upd_cases k' k := destruct (decide (k' = k)) as [->|]; [rewrite ?upd_eq|rewrite ?upd_ne by done].

Lemma same_on_trans L m1 m2 m3 : same_on L m1 m2 -> same_on L m2 m3 -> same_on L m1 m3.
Proof. intros H1 H2 k p Hp. destruct (H1 k p Hp), (H2 k p Hp). split; congruence. Qed.

Lemma same_on_weaken L L' m m' : (forall k, L k ⊆ L' k) -> same_on L' m m' -> same_on L m m'.
Proof. intros HL H k p Hp. by apply H, HL. Qed.

Lemma mem_inv_perm m L L' : (forall k, L k ≡ₚ L' k) -> mem_inv m L -> mem_inv m L'.
Proof. intros HL H k. destruct (H k) as (Hc & fl & Hi). split; [done|]. exists fl. eapply inv_perm; [apply HL|done]. Qed.

Lemma mem_inv_cell m L k p : mem_inv m L -> p ∈ L k -> is_Some (link m k p) /\ 0 < p.
Proof.
  intros H Hp. destruct (H k) as (_ & fl & Hi). assert (p ∈ fl ++ L k) as Hp' by (apply elem_of_app; by right).
  split; [|by eapply inv_pos]. pose proof (ai_mem _ _ _ _ Hi) as Hm. rewrite list.Forall_forall in Hm. by apply Hm.
Qed.

Lemma mem_inv_NoDup m L k : mem_inv m L -> base.NoDup (L k).
Proof. intros H. destruct (H k) as (_ & fl & Hi). apply inv_NoDup in Hi. by apply list.NoDup_app in Hi as (_ & _ & Hi). Qed.

(** Where a cell lies. *)
Lemma mem_inv_place m L k p : mem_inv m L -> p ∈ L k ->
  exists i b, mmap k i = Some b /\ b <= p /\ p + pbuf_increment k <= b + pbuf_cells_kb * 1024.
Proof.
  intros H Hp. destruct (H k) as (Hc & fl & Hi). unfold Cellmalloc.config in Hc. injection Hc as _ _ E3 _ _ E6.
  pose proof (ai_in _ _ _ _ Hi) as Hin. rewrite list.Forall_forall in Hin. rewrite E3, E6 in Hin.
  destruct (Hin p) as (_ & b & Hb & Hle); [apply elem_of_app; by right|].
  pose proof (ai_blocks _ _ _ _ Hi) as Hbl. rewrite list.Forall_forall in Hbl. destruct (Hbl _ Hb) as (i & _ & Hm).
  by exists i, b.
Qed.

Lemma pbuf_increment_size k : pbuf_size + pool_len k <= pbuf_increment k.
Proof.
  unfold pbuf_increment. destruct (_ =? _); [lia|]. pose proof (Z.mod_pos_bound (pbuf_size + pool_len k) _ Halign). lia.
Qed.

Lemma pool_len_pos k : 0 < pool_len k.
Proof. by destruct k. Qed.

(** Buffers do not overlap, of one size or of two. *)
Lemma cells_apart m L k k' p q : mem_inv m L -> p ∈ L k -> q ∈ L k' -> (k, p) <> (k', q) ->
  p + pbuf_size + pool_len k <= q \/ q + pbuf_size + pool_len k' <= p.
Proof.
  intros H Hp Hq Hne. pose proof (pbuf_increment_size k) as Hk. pose proof (pbuf_increment_size k') as Hk'.
  destruct (decide (k = k')) as [<-|E].
  - destruct (H k) as (Hc & fl & Hi). unfold Cellmalloc.config in Hc. injection Hc as _ _ E3 _ _ _.
    pose proof (ai_apart _ _ _ _ Hi) as Ha. apply apart_app in Ha as (_ & Ha & _). rewrite E3 in Ha.
    rewrite list_elem_of_In in Hp, Hq.
    destruct (ForallOrdPairs_In Ha p q Hp Hq) as [->|[Hpq|Hpq]]; [done|unfold apart in Hpq; lia|unfold apart in Hpq; lia].
  - destruct (mem_inv_place _ _ _ _ H Hp) as (i & b & Hb & ?), (mem_inv_place _ _ _ _ H Hq) as (j & c & Hc & ?).
    destruct (ms_apart Hmm k k' i j b c E Hb Hc); lia.
Qed.

Lemma cells_differ m L k k' p : mem_inv m L -> p ∈ L k -> p ∈ L k' -> k = k'.
Proof.
  intros H Hp Hq. destruct (decide (k = k')) as [|E]; [done|]. pose proof (pool_len_pos k). pose proof (pool_len_pos k').
  destruct (cells_apart m L k k' p p H Hp Hq); [congruence|lia|lia].
Qed.

(** Only the buffer [p] of the size [k] was written to. *)
Definition wrote (k : pool_class) (p : Z) (m m' : pmem) : Prop :=
  (forall k' q, (k', q) <> (k, p) -> link m' k' q = link m k' q) /\ (forall q, q <> p -> hdr_at m' q = hdr_at m q).

(** A buffer that is not among [R]. *)
Definition outside (p : Z) (R : pool_class -> list Z) : Prop := forall k, p ∉ R k.

Lemma wrote_trans k p m1 m2 m3 : wrote k p m1 m2 -> wrote k p m2 m3 -> wrote k p m1 m3.
Proof.
  intros [A1 B1] [A2 B2]. split; [intros k' q Hq; by rewrite A2, A1|intros q Hq; by rewrite B2, B1].
Qed.

Lemma wrote_same k p m m' R : wrote k p m m' -> outside p R -> same_on R m m'.
Proof.
  intros [A B] Ho k' q Hq. assert (q <> p) as Hne by (intros ->; by apply (Ho k')). split; [apply A|by apply B].
  intros E. injection E as _ E. done.
Qed.

(** A buffer of [L] that is not among the others of its size in [R] is outside of [R]. *)
Lemma outside_intro m L R k p :
  mem_inv m L -> p ∈ L k -> (forall k', R k' ⊆ L k') -> p ∉ R k -> outside p R.
Proof. intros H Hp HR Hn k' Hk'. assert (k = k') as -> by (eapply cells_differ; [done|done|by apply HR]). done. Qed.

Lemma set_arena_cells k c m k' : pbuf_cells (set_arena k c m) k' = upd k c m.(pbuf_cells) k'.
Proof. done. Qed.

Lemma set_link_spec m L k p v : mem_inv m L -> p ∈ L k ->
  exists m', set_link k p v m = Some m' /\ mem_inv m' L /\ wrote k p m m' /\ link m' k p = Some v /\ hdr_at m' p = hdr_at m p.
Proof.
  intros H Hp. destruct (mem_inv_cell _ _ _ _ H Hp) as [Hs _]. destruct (H k) as (Hc & fl & Hi).
  destruct (exec_spec (mmap k) (Store p v) _ _ _ Hi) as (c & out & fl' & E & Hst & _ & Hinv & _).
  { by apply singleton_submseteq_l. }
  cbn [exec] in E. unfold set_link. rewrite set_next_ok in E |- * by done. cbn [mbind option_bind] in E |- *.
  injection E as <- <-. eexists. split; [reflexivity|]. unfold wrote, link. split; [|split; [split|split]].
  - intros k'. rewrite set_arena_cells. upd_cases k' k.
    + split; [exact Hc|]. exists fl'. apply Hinv. unfold in_use. reflexivity.
    + apply H.
  - intros k' q Hq. rewrite set_arena_cells. upd_cases k' k.
    + cbn. apply lookup_insert_ne. congruence.
    + done.
  - done.
  - rewrite set_arena_cells, upd_eq. cbn. apply lookup_insert_eq.
  - done.
Qed.

Lemma is_cell_true m L k p : mem_inv m L -> p ∈ L k -> is_cell m p = true.
Proof. intros H Hp. destruct (mem_inv_cell _ _ _ _ H Hp) as [Hs _]. apply bool_decide_eq_true_2. destruct k; tauto. Qed.

Lemma get_hdr_spec m L k p : mem_inv m L -> p ∈ L k -> get_hdr p m = Some (hdr_at m p).
Proof. intros H Hp. unfold get_hdr. by rewrite (is_cell_true _ _ _ _ H Hp). Qed.

Lemma set_hdr_spec m L k p h : mem_inv m L -> p ∈ L k ->
  exists m', set_hdr p h m = Some m' /\ mem_inv m' L /\ wrote k p m m' /\ link m' k p = link m k p /\ hdr_at m' p = h.
Proof.
  intros H Hp. unfold set_hdr. rewrite (is_cell_true _ _ _ _ H Hp). eexists. split; [reflexivity|].
  split; [exact H|]. unfold wrote, hdr_at, link. cbn. split; [split; [done|]|split; [done|by rewrite lookup_insert_eq]].
  intros q Hq. by rewrite lookup_insert_ne.
Qed.

(** ** The lists of a worker *)

Definition pool_ok (m : pmem) (k : pool_class) (p : Z) (g : list Z) : Prop :=
  chain (m.(pbuf_cells) k).(next) p g /\ Forall (fun q => h_buf_len (hdr_at m q) = pool_len k) g.

Lemma pool_ok_frame m m' L k p g : same_on L m m' -> g ⊆ L k -> pool_ok m k p g -> pool_ok m' k p g.
Proof.
  intros Hs Hg [Hc Hl]. split.
  - eapply chain_frame; [|exact Hc]. intros x Hx. apply (Hs k x). by apply Hg.
  - rewrite list.Forall_forall in Hl |- *. intros q Hq. destruct (Hs k q (Hg _ Hq)) as [_ ->]. by apply Hl.
Qed.

Lemma pool_ok_push m k p q g :
  p <> 0 -> link m k p = Some q -> h_buf_len (hdr_at m p) = pool_len k -> pool_ok m k q g -> pool_ok m k p (p :: g).
Proof. intros Hp Hk Hl [Hc HF]. split; [|by constructor]. split; [done|]. split; [done|]. by exists q. Qed.

Lemma zero_buffer_spec m L k p : mem_inv m L -> p ∈ L k ->
  exists m', zero_buffer k p m = Some m' /\ mem_inv m' L /\ wrote k p m m' /\ hdr_at m' p = mk_hdr (pool_len k) false.
Proof.
  intros H Hp. unfold zero_buffer. destruct (set_link_spec m L k p 0 H Hp) as (m1 & -> & H1 & W1 & _). cbn [mbind option_bind].
  destruct (set_hdr_spec m1 L k p (mk_hdr (pool_len k) false) H1 Hp) as (m2 & -> & H2 & W2 & _ & Hh). exists m2.
  split; [done|]. split; [done|]. split; [by eapply wrote_trans|done].
Qed.

Lemma stock_pool_spec l m L R k head g :
  mem_inv m L -> l ⊆ L k -> g ⊆ L k -> base.NoDup (l ++ g) -> (forall p, p ∈ l -> outside p R) -> pool_ok m k head g ->
  exists head' m', stock_pool k l head m = Some (head', m') /\ mem_inv m' L /\ same_on R m m' /\ pool_ok m' k head' (rev l ++ g).
Proof.
  revert m head g. induction l as [|p l IH]; intros m head g H Hl Hg Hnd Ho Hp; cbn [stock_pool].
  { by exists head, m. }
  cbn [app] in Hnd. apply list.NoDup_cons in Hnd as [Hpl Hnd].
  assert (p ∈ L k) as HpL by (apply Hl; apply list_elem_of_here).
  destruct (set_link_spec m L k p head H HpL) as (m1 & -> & H1 & W1 & Hk & _). cbn [mbind option_bind].
  destruct (set_hdr_spec m1 L k p (mk_hdr (pool_len k) false) H1 HpL) as (m2 & -> & H2 & W2 & Hk2 & Hh2).
  cbn [mbind option_bind]. pose proof (wrote_trans _ _ _ _ _ W1 W2) as W. assert (p <> 0) as Hp0 by (pose proof (mem_inv_cell _ _ _ _ H HpL); lia).
  assert (same_on (upd k g (fun _ => [])) m m2) as Hs.
  { eapply wrote_same; [exact W|]. intros k'. unfold upd. destruct (bool_decide (k' = k)); set_solver. }
  destruct (IH m2 p (p :: g)) as (head' & m' & E & H' & S' & P'); try done.
  - set_solver.
  - set_solver.
  - rewrite <- Permutation_middle. by constructor.
  - intros q Hq. apply Ho. by apply list_elem_of_further.
  - apply (pool_ok_push _ _ _ head); [done|by rewrite Hk2|by rewrite Hh2|]. eapply pool_ok_frame; [exact Hs| |done]. by rewrite upd_eq.
  - exists head', m'. split; [done|]. split; [done|]. split.
    + eapply same_on_trans; [|exact S']. eapply wrote_same; [exact W|]. apply Ho, list_elem_of_here.
    + cbn [rev]. by rewrite <- app_assoc.
Qed.

(** ** Taking a buffer *)

Definition heads_ok (m : pmem) (self : heads) (g : pool_class -> list Z) : Prop := forall k, pool_ok m k (self k) (g k).

Lemma heads_ok_frame m m' self g : same_on g m m' -> heads_ok m self g -> heads_ok m' self g.
Proof. intros Hs H k. by eapply pool_ok_frame. Qed.

(** One list of the three changed. *)
Lemma heads_ok_upd m m' self g k p l :
  same_on g m m' -> heads_ok m self g -> pool_ok m' k p l -> heads_ok m' (upd k p self) (upd k l g).
Proof.
  intros Hs H Hp k'. upd_cases k' k; [done|].
  by eapply heads_ok_frame.
Qed.

Lemma set_arena_inv m L k c fl live :
  mem_inv m L -> keeps [] (m.(pbuf_cells) k) c -> arena_inv (mmap k) c fl live -> mem_inv (set_arena k c m) (upd k live L).
Proof.
  intros H [Hc _] Hi k'. rewrite set_arena_cells. destruct (decide (k' = k)) as [->|Hk].
  - rewrite !upd_eq, Hc. split; [apply H|by exists fl].
  - rewrite !upd_ne by done. apply H.
Qed.

Lemma set_arena_same m k c R : keeps (R k) (m.(pbuf_cells) k) c -> same_on R m (set_arena k c m).
Proof.
  intros [_ Hk] k' p Hp. unfold link. rewrite set_arena_cells. split; [|done].
  upd_cases k' k; [by apply Hk|done].
Qed.

Lemma keeps_nil live s s' : keeps live s s' -> keeps [] s s'.
Proof. apply keeps_weaken. set_solver. Qed.

(** What [pbuf_get] leaves: a buffer that is new to all, or none. *)
Definition got (len : Z) (R : pool_class -> list Z) (m' : pmem) (g' : pool_class -> list Z) (p : Z) : Prop :=
  (p = 0 /\ mem_inv m' (fun k => g' k ++ R k) /\
    (PACKETLEN_MAX_LARGE < len \/ exists k, pool_for len = Some k /\ exhausted (mmap k) (m'.(pbuf_cells) k))) \/
  (0 < p /\ exists k, pool_for len = Some k /\ hdr_at m' p = mk_hdr (pool_len k) false /\
    mem_inv m' (fun k' => g' k' ++ upd k (p :: R k) R k')).

Lemma get_from_pool m self g R k len p l :
  mem_inv m (fun k => g k ++ R k) -> heads_ok m self g -> pool_for len = Some k -> g k = p :: l ->
  exists n m', link m k (self k) = Some n /\ self k = p /\ zero_buffer k p m = Some m' /\
    heads_ok m' (upd k n self) (upd k l g) /\ same_on R m m' /\ got len R m' (upd k l g) p.
Proof.
  intros H Hw Hk Hg. destruct (Hw k) as [Hc Hl]. rewrite Hg in Hc, Hl. destruct Hc as (E & Hp0 & n & Hn & Hc).
  apply Forall_cons_1 in Hl as [_ Hl]. pose proof (mem_inv_NoDup _ _ k H) as Hnd. cbn beta in Hnd. rewrite Hg in Hnd.
  apply list.NoDup_cons in Hnd as [Hpn Hnd]. assert (p ∈ g k ++ R k) as HpL by (rewrite Hg; apply list_elem_of_here).
  destruct (zero_buffer_spec m _ k p H HpL) as (m' & Ez & H' & W & Hh). exists n, m'.
  rewrite E. split; [exact Hn|]. split; [done|]. split; [done|].
  assert (outside p (upd k l g)) as Ho1.
  { eapply (outside_intro m _ _ k); [exact H|done| |rewrite upd_eq; set_solver].
    intros k'. destruct (decide (k' = k)) as [->|Hne]; [rewrite upd_eq, Hg|rewrite upd_ne by done]; set_solver. }
  assert (outside p R) as Ho2 by (eapply (outside_intro m _ _ k); [exact H|done|set_solver|set_solver]).
  split; [|split; [by eapply wrote_same|]].
  - eapply heads_ok_frame; [by eapply wrote_same|]. apply (heads_ok_upd m m); [done|done|by split].
  - right. split; [apply (mem_inv_cell m _ k p H HpL)|]. exists k. split; [done|]. split; [done|].
    eapply mem_inv_perm; [|exact H']. intros k'. cbn beta. destruct (decide (k' = k)) as [->|Hne].
    + rewrite !upd_eq, Hg. cbn. apply Permutation_middle.
    + by rewrite !upd_ne by done.
Qed.

Lemma pool_bunch_pos k : (0 < pool_bunch k)%nat.
Proof. apply Nat.ltb_lt. by destruct k. Qed.

(** The worker's list is empty, and a bunch comes from the arena. *)
Lemma get_from_arena m self g R k len :
  mem_inv m (fun k => g k ++ R k) -> heads_ok m self g -> pool_for len = Some k -> self k = 0 ->
  exists c l, cellmallocmany (mmap k) (pool_bunch k) (m.(pbuf_cells) k) = Some (c, l) /\
    match l with
    | [] => heads_ok (set_arena k c m) self g /\ same_on R m (set_arena k c m) /\ got len R (set_arena k c m) g 0
    | p :: rest => exists head m1 m2, stock_pool k rest (self k) (set_arena k c m) = Some (head, m1) /\
        zero_buffer k p m1 = Some m2 /\ heads_ok m2 (upd k head self) (upd k (rev rest) g) /\ same_on R m m2 /\
        got len R m2 (upd k (rev rest) g) p
    end.
Proof.
  intros H Hw Hk Hs0. destruct (H k) as (_ & fl & Hi).
  destruct (cellmallocmany_spec (mmap k) (pool_bunch k) _ _ _ Hi) as (c & l & new & fl' & E & K & _ & Hi' & _ & Hex).
  exists c, l. split; [done|]. pose proof (set_arena_inv m _ k c _ _ H (keeps_nil _ _ _ K) Hi') as H1.
  assert (same_on (fun k => g k ++ R k) m (set_arena k c m)) as S1 by (by apply set_arena_same).
  assert (same_on R m (set_arena k c m)) as SR by (eapply same_on_weaken; [|exact S1]; set_solver).
  assert (heads_ok (set_arena k c m) self g) as Hw1.
  { eapply heads_ok_frame; [|exact Hw]. eapply same_on_weaken; [|exact S1]. set_solver. }
  assert (g k = []) as Hg by (apply (chain_head _ _ _ (proj1 (Hw k))), Hs0).
  destruct l as [|p rest].
  { split; [done|]. split; [done|]. left. split; [done|]. split.
    - eapply mem_inv_perm; [|exact H1]. intros k'. by upd_cases k' k.
    - right. exists k. split; [done|]. rewrite set_arena_cells, upd_eq. apply Hex. apply pool_bunch_pos. }
  set (L := upd k ((p :: rest) ++ g k ++ R k) (fun k => g k ++ R k)) in *.
  assert (L k = p :: rest ++ R k) as EL by (unfold L; rewrite upd_eq, Hg; done).
  assert (forall k', g k' ++ R k' ⊆ L k') as HL.
  { intros k'. unfold L. upd_cases k' k; set_solver. }
  pose proof (mem_inv_NoDup _ _ k H1) as Hnd. rewrite EL in Hnd. apply list.NoDup_cons in Hnd as [Hpn Hnd].
  apply list.NoDup_app in Hnd as (Hnr & Hdr & _).
  assert (forall q, q ∈ p :: rest -> outside q R) as HoR.
  { intros q Hq. apply (outside_intro (set_arena k c m) L R k q H1); [rewrite EL; set_solver|set_solver|set_solver]. }
  assert (forall q, q ∈ p :: rest -> outside q g) as HoG.
  { intros q Hq. apply (outside_intro (set_arena k c m) L g k q H1); [rewrite EL; set_solver|set_solver|rewrite Hg; set_solver]. }
  destruct (stock_pool_spec rest (set_arena k c m) L (fun k => g k ++ R k) k (self k) (g k) H1) as (head & m1 & Es & H2 & S2 & P2).
  { rewrite EL. set_solver. } { rewrite Hg. set_solver. } { by rewrite Hg, app_nil_r. }
  { intros q Hq k'. rewrite elem_of_app. intros [Hx|Hx]; [apply (HoG q ltac:(set_solver) k' Hx)|apply (HoR q ltac:(set_solver) k' Hx)]. }
  { apply Hw1. }
  rewrite Hg, app_nil_r in P2.
  destruct (zero_buffer_spec m1 L k p H2) as (m2 & Ez & H3 & W & Hh); [rewrite EL; set_solver|].
  exists head, m1, m2. split; [done|]. split; [done|].
  assert (same_on g m1 m2) as Sg by (eapply wrote_same; [done|apply HoG; set_solver]). split; [|split].
  - eapply heads_ok_upd; [|exact Hw1|].
    + eapply same_on_trans; [|exact Sg]. eapply same_on_weaken; [|exact S2]. set_solver.
    + eapply (pool_ok_frame m1 m2 (upd k rest (fun _ => []))); [| |exact P2].
      * eapply wrote_same; [exact W|]. intros k'. upd_cases k' k; set_solver.
      * rewrite upd_eq. intros x. by rewrite list_elem_of_In, <- in_rev, list_elem_of_In.
  - eapply same_on_trans; [exact SR|]. eapply same_on_trans; [eapply same_on_weaken; [|exact S2]; set_solver|].
    eapply wrote_same; [done|apply HoR; set_solver].
  - right. split; [by apply (mem_inv_cell m1 L k p H2); rewrite EL; set_solver|]. exists k. split; [done|]. split; [done|].
    eapply mem_inv_perm; [|exact H3]. intros k'. destruct (decide (k' = k)) as [->|Hne].
    + rewrite EL, !upd_eq. rewrite <- Permutation_middle. constructor. apply Permutation_app_tail, Permutation_rev.
    + unfold L. by rewrite !upd_ne by done.
Qed.

Lemma pbuf_get_cell_spec len m self g R :
  mem_inv m (fun k => g k ++ R k) -> heads_ok m self g ->
  exists p self' m' g', pbuf_get_cell len self m = Some (p, self', m') /\ heads_ok m' self' g' /\ same_on R m m' /\
    got len R m' g' p.
Proof.
  intros H Hw. unfold pbuf_get_cell. destruct (pool_for len) as [k|] eqn:Ek.
  2: { exists 0, self, m, g. split; [done|]. split; [done|]. split; [done|]. left. split; [done|]. split; [done|]. left.
       unfold pool_for in Ek. repeat split_if_in Ek; try done. lia. }
  destruct (Z.eqb_spec (self k) 0) as [E0|E0]; cbn [negb].
  - destruct (get_from_arena m self g R k len H Hw Ek E0) as (c & l & E & Hl). rewrite E. cbn [mbind option_bind].
    destruct l as [|p rest]; [destruct Hl as (? & ? & ?); by eexists _, _, _, g|].
    destruct Hl as (head & m1 & m2 & Es & Ez & Hl). rewrite Es. cbn [mbind option_bind]. rewrite Ez. by eexists _, _, _, _.
  - destruct (g k) as [|p l] eqn:Eg; [destruct E0; apply (chain_head _ _ _ (proj1 (Hw k))); done|].
    destruct (get_from_pool m self g R k len p l H Hw Ek Eg) as (n & m' & En & Ep & Ez & Hl). rewrite En. cbn [mbind option_bind].
    rewrite Ep, Ez. by eexists _, _, _, _.
Qed.

(** ** Giving buffers back *)

Definition class_at (m : pmem) (p : Z) : option pool_class := class_of_len (h_buf_len (hdr_at m p)).

Lemma class_of_pool_len k : class_of_len (pool_len k) = Some k.
Proof. by destruct k. Qed.

Lemma class_of_len_inv n k : class_of_len n = Some k -> n = pool_len k.
Proof. unfold class_of_len. intros E. repeat split_if_in E; try done; injection E as <-; cbn; lia. Qed.

Lemma pbuf_free_local_spec m self g R k p :
  mem_inv m (fun k' => g k' ++ upd k (p :: R k) R k') -> heads_ok m self g -> class_at m p = Some k ->
  exists m', pbuf_free_local self p m = Some (upd k p self, m') /\ heads_ok m' (upd k p self) (upd k (p :: g k) g) /\
    same_on R m m' /\ mem_inv m' (fun k' => upd k (p :: g k) g k' ++ R k').
Proof.
  intros H Hw Hc. assert (p ∈ g k ++ upd k (p :: R k) R k) as Hp by (rewrite upd_eq; set_solver).
  pose proof (mem_inv_NoDup _ _ k H) as Hnd. cbn beta in Hnd. rewrite upd_eq in Hnd.
  rewrite <- Permutation_middle in Hnd. apply list.NoDup_cons in Hnd as [Hpn _].
  assert (outside p (fun k' => g k' ++ R k')) as Ho.
  { eapply (outside_intro m _ _ k); [exact H|done| |done]. intros k'.
    upd_cases k' k; set_solver. }
  unfold pbuf_free_local. rewrite (get_hdr_spec _ _ _ _ H Hp). cbn [mbind option_bind]. unfold class_at in Hc. rewrite Hc.
  destruct (set_link_spec m _ k p (self k) H Hp) as (m' & -> & H' & W & Hk & Hh). cbn [mbind option_bind].
  exists m'. split; [done|]. assert (same_on g m m') as Sg by (eapply wrote_same; [done|]; intros k'; specialize (Ho k'); set_solver).
  split; [|split].
  - eapply heads_ok_upd; [done|done|]. apply (pool_ok_push _ _ _ (self k)); [pose proof (mem_inv_cell _ _ _ _ H Hp); lia|done| |].
    + rewrite Hh. by apply class_of_len_inv.
    + by eapply heads_ok_frame.
  - eapply wrote_same; [done|]. intros k'. specialize (Ho k'). set_solver.
  - eapply mem_inv_perm; [|exact H']. intros k'. cbn beta. destruct (decide (k' = k)) as [->|Hne].
    + rewrite !upd_eq. symmetry. apply Permutation_middle.
    + by rewrite !upd_ne by done.
Qed.

(** A list of cells goes back to its arena. *)
Lemma give_back_spec m L k l : mem_inv m (upd k (l ++ L k) L) ->
  exists c, cellfreemany l (m.(pbuf_cells) k) = Some c /\ mem_inv (set_arena k c m) L /\ same_on L m (set_arena k c m).
Proof.
  intros H. destruct (H k) as (_ & fl & Hi). rewrite upd_eq in Hi.
  destruct (cellfreemany_spec (mmap k) l _ fl (L k) Hi) as (c & E & K & Hi'). exists c. split; [done|].
  split; [|by apply set_arena_same]. pose proof (set_arena_inv m _ k c _ _ H (keeps_nil _ _ _ K) Hi') as H1.
  eapply mem_inv_perm; [|exact H1]. intros k'.
  by upd_cases k' k.
Qed.

Lemma give_back_many m L k l : mem_inv m (upd k (l ++ L k) L) ->
  exists m', give_back k l m = Some m' /\ mem_inv m' L /\ same_on L m m'.
Proof.
  intros H. unfold give_back. destruct (Z.gtb_spec (zlen l) 0) as [E|E].
  - destruct (give_back_spec m L k l H) as (c & -> & H'). by eexists.
  - destruct l as [|x l]; [|rewrite zlen_cons in E; pose proof (zlen_nonneg l); lia]. exists m. split; [done|]. split; [|done].
    eapply mem_inv_perm; [|exact H]. intros k'. by upd_cases k' k.
Qed.

Lemma pbuf_free_global_spec m L k p : mem_inv m (upd k (p :: L k) L) -> class_at m p = Some k ->
  exists m', pbuf_free_global p m = Some m' /\ mem_inv m' L /\ same_on L m m'.
Proof.
  intros H Hc. unfold pbuf_free_global. rewrite (get_hdr_spec m _ k p H) by (rewrite upd_eq; set_solver).
  cbn [mbind option_bind]. unfold class_at in Hc. rewrite Hc. destruct (give_back_spec m L k [p] H) as (c & E & H').
  cbn [cellfreemany] in E. destruct (cellfree p (pbuf_cells m k)) as [c'|]; [|done]. cbn [mbind option_bind] in E |- *.
  injection E as ->. by eexists.
Qed.

Lemma drain_pool_spec l n m L k p :
  mem_inv m (upd k (l ++ L k) L) -> pool_ok m k p l -> (length l <= n)%nat ->
  exists m', drain_pool n k p m = Some m' /\ mem_inv m' L /\ same_on L m m'.
Proof.
  revert n m p. induction l as [|x l IH]; intros n m p H [Hc Hl] Hn.
  { exists m. cbn in Hc. subst p. split; [by destruct n|]. split; [|done]. eapply mem_inv_perm; [|exact H]. intros k'.
    by upd_cases k' k. }
  destruct Hc as (-> & Hx & pn & Hpn & Hc). apply Forall_cons_1 in Hl as [Hx' Hl]. destruct n as [|n]; [cbn in Hn; lia|].
  cbn [drain_pool]. destruct (Z.eqb_spec x 0); [done|]. unfold link. rewrite Hpn. cbn [mbind option_bind].
  destruct (pbuf_free_global_spec m (upd k (l ++ L k) L) k x) as (m1 & -> & H1 & S1).
  { eapply mem_inv_perm; [|exact H]. intros k'. by upd_cases k' k. }
  { unfold class_at. rewrite Hx'. apply class_of_pool_len. }
  cbn [mbind option_bind]. destruct (IH n m1 pn H1) as (m' & E & H' & S'); [|cbn in Hn; lia|].
  - eapply pool_ok_frame; [exact S1| |by split]. rewrite upd_eq. set_solver.
  - exists m'. split; [done|]. split; [done|]. eapply same_on_trans; [|exact S']. eapply same_on_weaken; [|exact S1].
    intros k'. upd_cases k' k; set_solver.
Qed.

(** A list without repetitions is not longer than there are cells. *)
Lemma list_in_map (l : list Z) (h : gmap Z Z) : base.NoDup l -> (forall x, x ∈ l -> is_Some (h !! x)) -> (length l <= size h)%nat.
Proof.
  intros Hnd Hl. rewrite <- size_dom, <- (size_list_to_set (C := gset Z) l) by done. apply subseteq_size.
  intros x. rewrite elem_of_list_to_set, elem_of_dom. apply Hl.
Qed.

Lemma drain_spec m self g R k :
  mem_inv m (fun k' => g k' ++ R k') -> heads_ok m self g ->
  exists m', drain_list k (self k) m = Some m' /\ heads_ok m' (upd k 0 self) (upd k [] g) /\
    mem_inv m' (fun k' => upd k [] g k' ++ R k') /\ same_on R m m'.
Proof.
  intros H Hw. unfold drain_list. destruct (drain_pool_spec (g k) (size (next (pbuf_cells m k))) m (fun k' => upd k [] g k' ++ R k') k (self k))
    as (m' & E & H' & S').
  - eapply mem_inv_perm; [|exact H]. intros k'. cbn beta.
    by upd_cases k' k.
  - apply Hw.
  - apply list_in_map.
    + pose proof (mem_inv_NoDup _ _ k H) as Hnd. by apply list.NoDup_app in Hnd as (Hnd & _).
    + intros x Hx. apply (mem_inv_cell m _ k x H). set_solver.
  - exists m'. split; [done|]. split; [|split; [done|eapply same_on_weaken; [|exact S']; set_solver]].
    apply (heads_ok_frame m); [eapply same_on_weaken; [|exact S']; set_solver|].
    apply (heads_ok_upd m m); [done|done|]. by split.
Qed.

Lemma worker_free_buffers_spec m self g R :
  mem_inv m (fun k => g k ++ R k) -> heads_ok m self g ->
  exists m', worker_free_buffers self m = Some m' /\ mem_inv m' R /\ same_on R m m'.
Proof.
  intros H Hw. unfold worker_free_buffers.
  destruct (drain_spec m self g R PoolSmall H Hw) as (m1 & -> & W1 & H1 & S1). cbn [mbind option_bind].
  destruct (drain_spec m1 _ _ R PoolMedium H1 W1) as (m2 & E2 & W2 & H2 & S2). rewrite upd_ne in E2 by done. rewrite E2. cbn [mbind option_bind].
  destruct (drain_spec m2 _ _ R PoolLarge H2 W2) as (m3 & E3 & W3 & H3 & S3). rewrite !upd_ne in E3 by done. exists m3.
  split; [done|]. split; [|by eapply same_on_trans, same_on_trans]. eapply mem_inv_perm; [|exact H3]. by intros [].
Qed.

(** [m'] differs from [m] in marks only. *)
Definition same_lens (m m' : pmem) : Prop := forall q, h_buf_len (hdr_at m' q) = h_buf_len (hdr_at m q).

(** The buffers of a size among [ps]. *)
Definition of_class (m : pmem) (k : pool_class) (ps : list Z) : list Z := filter (fun p => class_at m p = Some k) ps.

Lemma of_class_ext m m' k ps :
  (forall p, p ∈ ps -> h_buf_len (hdr_at m' p) = h_buf_len (hdr_at m p)) -> of_class m' k ps = of_class m k ps.
Proof.
  intros H. unfold of_class. induction ps as [|p ps IH]; [done|]. rewrite !filter_cons.
  assert (class_at m' p = class_at m p) as -> by (unfold class_at; by rewrite (H p) by apply list_elem_of_here).
  rewrite IH; [done|]. intros q Hq. apply H. by apply list_elem_of_further.
Qed.

Lemma of_class_cons m k k' p ps : class_at m p = Some k -> of_class m k' (p :: ps) = upd k (p :: of_class m k ps) (fun k' => of_class m k' ps) k'.
Proof.
  intros Hc. unfold of_class at 1. rewrite filter_cons, Hc. upd_cases k' k; [by rewrite decide_True|].
  rewrite decide_False; [done|]. congruence.
Qed.

Lemma of_class_elem m k ps p : p ∈ of_class m k ps <-> class_at m p = Some k /\ p ∈ ps.
Proof. unfold of_class. by rewrite list_elem_of_filter. Qed.

Lemma sort_buffers_spec ps m L R acc :
  mem_inv m L -> (forall p, p ∈ ps -> exists k, class_at m p = Some k /\ p ∈ L k) -> (forall p, p ∈ ps -> outside p R) ->
  exists acc' m', sort_buffers ps acc m = Some (acc', m') /\ mem_inv m' L /\ same_on R m m' /\ same_lens m m' /\
    forall k, acc' k = acc k ++ of_class m k ps.
Proof.
  revert m acc. induction ps as [|p ps IH]; intros m acc H Hps Ho; cbn [sort_buffers].
  { exists acc, m. split; [done|]. split; [done|]. split; [done|]. split; [done|]. intros k. by rewrite app_nil_r. }
  destruct (Hps p (list_elem_of_here _ _)) as (k & Hk & Hp). rewrite (get_hdr_spec m L k p H Hp). cbn [mbind option_bind].
  destruct (set_hdr_spec m L k p (mk_hdr (h_buf_len (hdr_at m p)) true) H Hp) as (m1 & -> & H1 & W & _ & Hh). cbn [mbind option_bind].
  assert (same_lens m m1) as Hs.
  { intros q. destruct (decide (q = p)) as [->|Hq]; [by rewrite Hh|by rewrite (proj2 W)]. }
  assert (forall k' l, of_class m1 k' l = of_class m k' l) as Hf by (intros k' l; by apply of_class_ext).
  destruct (IH m1 (match class_of_len (h_buf_len (hdr_at m p)) with Some k => upd k (acc k ++ [p]) acc | None => acc end) H1)
    as (acc' & m' & E & H' & S' & L' & A').
  { intros q Hq. destruct (Hps q) as (k' & Hk' & Hq'); [by apply list_elem_of_further|]. exists k'. split; [|done].
    unfold class_at. by rewrite Hs. }
  { intros q Hq. apply Ho. by apply list_elem_of_further. }
  exists acc', m'. split; [done|]. split; [done|]. split; [|split].
  - eapply same_on_trans; [|exact S']. eapply wrote_same; [done|]. apply Ho, list_elem_of_here.
  - intros q. by rewrite L', Hs.
  - intros k'. unfold class_at in Hk. rewrite A', Hf, Hk, (of_class_cons m k) by done. upd_cases k' k; [|done]. by rewrite <- app_assoc.
Qed.

Lemma pbuf_free_many_spec m ps R :
  mem_inv m (fun k => of_class m k ps ++ R k) -> Forall (fun p => is_Some (class_at m p)) ps ->
  exists m', pbuf_free_many ps m = Some m' /\ mem_inv m' R /\ same_on R m m'.
Proof.
  intros H Hps. rewrite list.Forall_forall in Hps.
  assert (forall p, p ∈ ps -> exists k, class_at m p = Some k /\ p ∈ of_class m k ps) as Hin.
  { intros p Hp. destruct (Hps p Hp) as [k Hk]. exists k. split; [done|]. by apply of_class_elem. }
  unfold pbuf_free_many. destruct (sort_buffers_spec ps m _ R (fun _ => []) H) as (sorted & m1 & -> & H1 & S1 & _ & A).
  { intros p Hp. destruct (Hin p Hp) as (k & Hk & Hp'). exists k. split; [done|]. set_solver. }
  { intros p Hp. destruct (Hin p Hp) as (k & Hk & Hp'). apply (outside_intro m _ R k p H); [set_solver|set_solver|].
    pose proof (mem_inv_NoDup _ _ k H) as Hnd. apply list.NoDup_app in Hnd as (_ & Hd & _). by apply Hd. }
  cbn [mbind option_bind]. rewrite !A. cbn [app].
  destruct (give_back_many m1 (upd PoolSmall (R PoolSmall) (fun k => of_class m k ps ++ R k)) PoolSmall (of_class m PoolSmall ps))
    as (m2 & -> & H2 & S2); [eapply mem_inv_perm; [|exact H1]; by intros []|]. cbn [mbind option_bind].
  destruct (give_back_many m2 (upd PoolLarge (of_class m PoolLarge ps ++ R PoolLarge) R) PoolMedium (of_class m PoolMedium ps))
    as (m3 & -> & H3 & S3); [eapply mem_inv_perm; [|exact H2]; by intros []|]. cbn [mbind option_bind].
  destruct (give_back_many m3 R PoolLarge (of_class m PoolLarge ps))
    as (m4 & -> & H4 & S4); [eapply mem_inv_perm; [|exact H3]; by intros []|].
  exists m4. split; [done|]. split; [done|]. eapply same_on_trans; [exact S1|].
  eapply same_on_trans; [eapply same_on_weaken; [|exact S2]|eapply same_on_trans; [eapply same_on_weaken; [|exact S3]|exact S4]].
  - intros []; cbn; set_solver.
  - intros []; cbn; set_solver.
Qed.

(** ** The system *)

(** The buffers on the lists of the workers. *)
Definition pooled (k : pool_class) (gs : list (pool_class -> list Z)) : list Z := concat (map (fun g => g k) gs).

(** Every cell that is not free in its arena is on the list of one worker or in use. *)
Record sys_inv (s : bufsys) (used : list Z) (gs : list (pool_class -> list Z)) : Prop := {
  si_mem : mem_inv s.(bs_mem) (fun k => pooled k gs ++ of_class s.(bs_mem) k used);
  si_workers : Forall2 (heads_ok s.(bs_mem)) s.(bs_workers) gs;
  si_used : Forall (fun p => is_Some (class_at s.(bs_mem) p)) used
}.

Lemma pooled_perm k gs gs' : gs ≡ₚ gs' -> pooled k gs ≡ₚ pooled k gs'.
Proof.
  unfold pooled. induction 1 as [|g gs gs' _ IH|g g' gs|gs1 gs2 gs3 _ IH1 _ IH2]; cbn; [done|by rewrite IH| |by rewrite IH1].
  rewrite !app_assoc. apply Permutation_app_tail, Permutation_app_comm.
Qed.

Lemma pooled_at k gs i g : gs !! i = Some g -> pooled k gs ≡ₚ g k ++ pooled k (delete i gs).
Proof. intros Hi. by rewrite (pooled_perm k _ _ (delete_Permutation _ _ _ Hi)). Qed.

Lemma pooled_insert k gs i g : (i < length gs)%nat -> pooled k (<[i := g]> gs) ≡ₚ g k ++ pooled k (delete i gs).
Proof.
  intros Hi. rewrite (pooled_at k _ i g) by (by apply list_lookup_insert_eq). apply Permutation_app_head, reflexive_eq. f_equal.
  rewrite !delete_take_drop, take_insert_ge, drop_insert_lt by lia. done.
Qed.

Lemma pooled_in k gs g : g ∈ gs -> g k ⊆ pooled k gs.
Proof. intros [i Hi]%list_elem_of_lookup x Hx. rewrite (pooled_at k gs i g Hi). set_solver. Qed.

Lemma Forall2_around {A B} (P : A -> B -> Prop) l k i x y :
  length l = length k -> (i < length l)%nat -> Forall2 P (delete i l) (delete i k) -> P x y -> Forall2 P (<[i := x]> l) (<[i := y]> k).
Proof.
  intros Hlen Hi HF Hp. rewrite !delete_take_drop in HF. rewrite !insert_take_drop by lia.
  assert (length (take i l) = length (take i k)) as Ht by (rewrite !length_take; lia).
  apply Forall2_app_inv in HF as [H1 H2]; [|done]. by apply Forall2_app, Forall2_cons.
Qed.

Lemma workers_frame m m' R ws gs :
  same_on R m m' -> (forall k, pooled k gs ⊆ R k) -> Forall2 (heads_ok m) ws gs -> Forall2 (heads_ok m') ws gs.
Proof.
  intros Hs HR HF. assert (forall g, g ∈ gs -> forall k, g k ⊆ R k) as Hg.
  { intros g Hg k x Hx. eapply HR, pooled_in; done. }
  clear HR. induction HF as [|w g ws gs Hw HF IH]; constructor.
  - eapply heads_ok_frame; [|done]. eapply same_on_weaken; [|done]. apply Hg. set_solver.
  - apply IH. intros g' Hg'. apply Hg. set_solver.
Qed.

(** What an operation answers: [pbuf_get] a buffer that is not in use, of the size for
    the packet and with a clean header, or none when no size is large enough or there
    is no memory for the arena. *)
Definition answer (op : buf_op) (s' : bufsys) (p : Z) (used : list Z) : Prop :=
  match op with
  | Get i len =>
      (p = 0 /\ (PACKETLEN_MAX_LARGE < len \/ exists k, pool_for len = Some k /\ exhausted (mmap k) (s'.(bs_mem).(pbuf_cells) k))) \/
      (0 < p /\ p ∉ used /\ exists k, pool_for len = Some k /\ hdr_at s'.(bs_mem) p = mk_hdr (pool_len k) false)
  | _ => p = 0
  end.

(** The buffers in use the operation was not given are as they were. *)
Definition kept (op : buf_op) (s s' : bufsys) (used : list Z) : Prop :=
  forall q k, q ∈ used -> q ∉ buf_given op -> class_at s.(bs_mem) q = Some k ->
    link s'.(bs_mem) k q = link s.(bs_mem) k q /\ hdr_at s'.(bs_mem) q = hdr_at s.(bs_mem) q.

Definition op_spec (op : buf_op) (s : bufsys) (used : list Z) : Prop :=
  exists s' p gs', buf_exec op s = Some (s', p) /\ answer op s' p used /\ kept op s s' used /\
    forall used', used_after op p used used' -> sys_inv s' used' gs'.

Lemma sys_inv_perm s used used' gs : used ≡ₚ used' -> sys_inv s used gs -> sys_inv s used' gs.
Proof.
  intros HP [H1 H2 H3]. split; [|done|by rewrite <- HP]. eapply mem_inv_perm; [|exact H1]. intros k. cbn beta.
  apply Permutation_app_head. unfold of_class. by rewrite HP.
Qed.

Lemma at_worker s used gs i : sys_inv s used gs -> (i < length s.(bs_workers))%nat ->
  exists w g, s.(bs_workers) !! i = Some w /\ gs !! i = Some g /\ heads_ok s.(bs_mem) w g /\
    length s.(bs_workers) = length gs /\ Forall2 (heads_ok s.(bs_mem)) (delete i s.(bs_workers)) (delete i gs) /\
    mem_inv s.(bs_mem) (fun k => g k ++ pooled k (delete i gs) ++ of_class s.(bs_mem) k used).
Proof.
  intros [H1 H2 H3] Hi. destruct (lookup_lt_is_Some_2 _ _ Hi) as [w Hw].
  destruct (Forall2_lookup_l _ _ _ _ _ H2 Hw) as (g & Hg & Hok). exists w, g. split; [done|]. split; [done|]. split; [done|].
  split; [by eapply Forall2_length|]. split; [by apply Forall2_delete|]. eapply mem_inv_perm; [|exact H1]. intros k. cbn beta.
  by rewrite (pooled_at k gs i g Hg), <- app_assoc.
Qed.

(** The buffers in use are among those that did not change. *)
Lemma used_kept m m' R ps q k :
  same_on R m m' -> (forall k, of_class m k ps ⊆ R k) -> q ∈ ps -> class_at m q = Some k ->
  link m' k q = link m k q /\ hdr_at m' q = hdr_at m q.
Proof. intros Hs HR Hq Hk. apply Hs, HR. by apply of_class_elem. Qed.

Lemma used_classes m m' R ps :
  same_on R m m' -> (forall k, of_class m k ps ⊆ R k) -> Forall (fun p => is_Some (class_at m p)) ps ->
  (forall k, of_class m' k ps = of_class m k ps) /\ Forall (fun p => is_Some (class_at m' p)) ps.
Proof.
  intros Hs HR HF. rewrite list.Forall_forall in HF.
  assert (forall p, p ∈ ps -> hdr_at m' p = hdr_at m p) as Hh.
  { intros p Hp. destruct (HF p Hp) as [k Hk]. by apply (used_kept m m' R ps p k). }
  split; [intros k; apply of_class_ext; intros p Hp; by rewrite Hh|].
  apply list.Forall_forall. intros p Hp. unfold class_at. rewrite Hh by done. by apply HF.
Qed.

(** The state after a worker's operation. *)
Lemma sys_put m m' ws gs i w' g' R used :
  length ws = length gs -> (i < length ws)%nat -> Forall2 (heads_ok m) (delete i ws) (delete i gs) ->
  same_on R m m' -> (forall k, pooled k (delete i gs) ⊆ R k) -> heads_ok m' w' g' ->
  mem_inv m' (fun k => g' k ++ pooled k (delete i gs) ++ of_class m' k used) -> Forall (fun p => is_Some (class_at m' p)) used ->
  sys_inv (mk_bufsys m' (<[i := w']> ws)) used (<[i := g']> gs).
Proof.
  intros Hlen Hi HF Hs HR Hw H Hu. split; cbn; [| |done].
  - eapply mem_inv_perm; [|exact H]. intros k. cbn beta. rewrite pooled_insert by lia. by rewrite app_assoc.
  - apply Forall2_around; [done|done| |done]. by eapply workers_frame.
Qed.

Lemma start_spec s used gs : sys_inv s used gs -> op_spec WorkerStart s used.
Proof.
  intros [H1 H2 H3]. destruct s as [m ws]. cbn in *. eexists _, _, (gs ++ [fun _ => []]). split; [reflexivity|].
  split; [done|]. split; [done|]. intros used' Hu. unfold used_after in Hu. cbn in Hu. eapply sys_inv_perm; [exact Hu|]. split; cbn; [| |done].
  - eapply mem_inv_perm; [|exact H1]. intros k. unfold pooled. rewrite map_app, concat_app. cbn. by rewrite !app_nil_r.
  - apply Forall2_app; [done|]. constructor; [|constructor]. intros k. by split.
Qed.

Lemma end_spec s used gs i : sys_inv s used gs -> (i < length s.(bs_workers))%nat -> op_spec (WorkerEnd i) s used.
Proof.
  intros H Hi. destruct (at_worker s used gs i H Hi) as (w & g & Ew & Eg & Hw & Hlen & HF & Hm).
  destruct H as [_ _ H3]. destruct s as [m ws]. cbn in *.
  destruct (worker_free_buffers_spec m w g _ Hm Hw) as (m' & E & H' & S').
  destruct (used_classes m m' _ used S') as [Hc Hu']; [set_solver|done|].
  unfold op_spec. cbn [buf_exec]. rewrite Ew. cbn [mbind option_bind]. rewrite E. cbn [mbind option_bind].
  eexists _, _, (delete i gs). split; [reflexivity|]. split; [done|]. split.
  - intros q k Hq _ Hk. eapply (used_kept m m' _ used); [exact S'|set_solver|done|done].
  - intros used' Hu. unfold used_after in Hu. cbn in Hu. eapply sys_inv_perm; [exact Hu|]. split; cbn; [| |done].
    + eapply mem_inv_perm; [|exact H']. intros k. cbn beta. by rewrite Hc.
    + eapply workers_frame; [exact S'|set_solver|done].
Qed.

Lemma get_spec s used gs i len : sys_inv s used gs -> (i < length s.(bs_workers))%nat -> op_spec (Get i len) s used.
Proof.
  intros H Hi. destruct (at_worker s used gs i H Hi) as (w & g & Ew & Eg & Hw & Hlen & HF & Hm).
  destruct H as [_ _ H3]. destruct s as [m ws]. cbn in *.
  destruct (pbuf_get_cell_spec len m w g _ Hm Hw) as (p & w' & m' & g' & E & Hw' & S' & Hgot).
  destruct (used_classes m m' _ used S') as [Hc Hu']; [set_solver|done|].
  unfold op_spec. cbn [buf_exec]. rewrite Ew. cbn [mbind option_bind]. rewrite E. cbn [mbind option_bind].
  eexists _, _, (<[i := g']> gs). split; [reflexivity|]. split; [|split].
  - destruct Hgot as [(-> & _ & Hex)|(Hp & k & Hk & Hh & Hmm')]; [by left|]. right. split; [done|]. split; [|by exists k].
    intros Hin. assert (class_at m' p = Some k) as Hcl by (unfold class_at; rewrite Hh; apply class_of_pool_len).
    pose proof (mem_inv_NoDup _ _ k Hmm') as Hnd. cbn beta in Hnd. rewrite upd_eq in Hnd.
    apply list.NoDup_app in Hnd as (_ & _ & [Hn _]%list.NoDup_cons). apply Hn. rewrite <- Hc. apply elem_of_app. right.
    by apply of_class_elem.
  - intros q k Hq _ Hk. eapply (used_kept m m' _ used); [exact S'|set_solver|done|done].
  - intros used' Hu. eapply sys_inv_perm; [exact Hu|].
    destruct Hgot as [(-> & Hm' & _)|(Hp & k & Hk & Hh & Hm')]; cbn [Z.eqb app].
    + eapply sys_put; [done|done|done|exact S'|set_solver|done| |done]. eapply mem_inv_perm; [|exact Hm']. intros k. cbn beta. by rewrite Hc.
    + destruct (Z.eqb_spec p 0); [lia|]. assert (class_at m' p = Some k) as Hcl by (unfold class_at; rewrite Hh; apply class_of_pool_len).
      eapply sys_put; [done|done|done|exact S'|set_solver|done| |by constructor].
      eapply mem_inv_perm; [|exact Hm']. intros k'. cbn [app]. rewrite (of_class_cons m' k) by done. upd_cases k' k; rewrite Hc; [|done].
      apply Permutation_app_head, Permutation_middle.
Qed.

Lemma release_spec s used gs i p :
  sys_inv s used gs -> (i < length s.(bs_workers))%nat -> [p] ⊆+ used -> op_spec (Release i p) s used.
Proof.
  intros H Hi [used0 Hperm]%submseteq_Permutation. cbn [app] in Hperm. apply (sys_inv_perm _ _ _ _ Hperm) in H.
  destruct (at_worker s _ gs i H Hi) as (w & g & Ew & Eg & Hw & Hlen & HF & Hm).
  destruct H as [_ _ H3]. destruct s as [m ws]. cbn [bs_mem bs_workers] in *. apply Forall_cons_1 in H3 as [[k Hk] H3].
  destruct (pbuf_free_local_spec m w g (fun k => pooled k (delete i gs) ++ of_class m k used0) k p) as (m' & E & Hw' & S' & H').
  { eapply mem_inv_perm; [|exact Hm]. intros k'. cbn beta. rewrite (of_class_cons m k) by done. upd_cases k' k; [|done].
    apply Permutation_app_head. symmetry. apply Permutation_middle. }
  { done. } { done. }
  destruct (used_classes m m' _ used0 S') as [Hc Hu']; [set_solver|done|].
  unfold op_spec. cbn [buf_exec]. rewrite Ew. cbn [mbind option_bind]. rewrite E. cbn [mbind option_bind].
  eexists _, _, _. split; [reflexivity|]. split; [done|]. split.
  - intros q k' Hq Hn Hk'. eapply (used_kept m m' _ used0); [exact S'|set_solver| |done]. rewrite Hperm in Hq. cbn in Hn. set_solver.
  - intros used' Hu. unfold used_after in Hu. cbn in Hu. rewrite Hperm in Hu. apply Permutation_cons_inv in Hu.
    eapply sys_inv_perm; [exact Hu|]. eapply sys_put; [done|done|done|exact S'|set_solver|exact Hw'| |done].
    eapply mem_inv_perm; [|exact H']. intros k'. cbn beta. by rewrite Hc.
Qed.

Lemma purge_spec s used gs ps : sys_inv s used gs -> ps ⊆+ used -> op_spec (Purge ps) s used.
Proof.
  intros H [used0 Hperm]%submseteq_Permutation. apply (sys_inv_perm _ _ _ _ Hperm) in H. destruct H as [H1 H2 H3].
  destruct s as [m ws]. cbn [bs_mem bs_workers] in *. apply Forall_app in H3 as [Hps H3].
  destruct (pbuf_free_many_spec m ps (fun k => pooled k gs ++ of_class m k used0)) as (m' & E & H' & S').
  { eapply mem_inv_perm; [|exact H1]. intros k. cbn beta. unfold of_class at 1. rewrite filter_app, !app_assoc.
    apply Permutation_app_tail, Permutation_app_comm. }
  { done. }
  destruct (used_classes m m' _ used0 S') as [Hc Hu']; [set_solver|done|].
  unfold op_spec. cbn [buf_exec]. rewrite E. cbn [mbind option_bind].
  eexists _, _, gs. split; [reflexivity|]. split; [done|]. split.
  - intros q k' Hq Hn Hk'. eapply (used_kept m m' _ used0); [exact S'|set_solver| |done]. rewrite Hperm in Hq. cbn in Hn. set_solver.
  - intros used' Hu. unfold used_after in Hu. cbn in Hu. rewrite Hperm in Hu. apply Permutation_app_inv_l in Hu.
    eapply sys_inv_perm; [exact Hu|]. split; cbn; [| |done].
    + eapply mem_inv_perm; [|exact H']. intros k'. cbn beta. by rewrite Hc.
    + eapply workers_frame; [exact S'|set_solver|done].
Qed.

Lemma link_spec s used gs p v : sys_inv s used gs -> [p] ⊆+ used -> op_spec (Link p v) s used.
Proof.
  intros [H1 H2 H3] Hp%singleton_submseteq_l. destruct s as [m ws]. cbn [bs_mem bs_workers] in *.
  rewrite list.Forall_forall in H3. destruct (H3 p Hp) as [k Hk].
  assert (p ∈ of_class m k used) as Hpk by (by apply of_class_elem).
  assert (p ∈ pooled k gs ++ of_class m k used) as HpL by set_solver.
  destruct (set_link_spec m _ k p v H1 HpL) as (m' & E & H' & W & _ & Hh).
  assert (forall q, hdr_at m' q = hdr_at m q) as Hall by (intros q; destruct (decide (q = p)) as [->|Hq]; [done|by apply W]).
  unfold op_spec. cbn [buf_exec]. rewrite (get_hdr_spec m _ k p H1 HpL). cbn [mbind option_bind]. unfold class_at in Hk. rewrite Hk.
  cbn [mbind option_bind]. rewrite E. cbn [mbind option_bind]. eexists _, _, gs. split; [reflexivity|]. split; [done|]. split.
  - intros q k' Hq Hn _. cbn in Hn |- *. split; [|done]. apply W. intros Eq. injection Eq as _ ->. set_solver.
  - intros used' Hu. unfold used_after in Hu. cbn in Hu. eapply sys_inv_perm; [exact Hu|]. split; cbn.
    + eapply mem_inv_perm; [|exact H']. intros k'. cbn beta. rewrite (of_class_ext m m'); [done|]. intros q _. by rewrite Hall.
    + eapply (workers_frame m m' (fun k => pooled k gs)); [|done|done]. eapply wrote_same; [exact W|].
      eapply (outside_intro m _ _ k); [exact H1|done|set_solver|]. pose proof (mem_inv_NoDup _ _ k H1) as Hnd.
      cbn beta in Hnd. apply list.NoDup_app in Hnd as (_ & Hd & _). intros Hx. by apply (Hd _ Hx).
    + apply list.Forall_forall. intros q Hq. unfold class_at. rewrite Hall. by apply H3.
Qed.

Lemma exec_op_spec op s used gs : sys_inv s used gs -> buf_allowed op s used -> op_spec op s used.
Proof.
  intros H [Hg Hi]. destruct op; cbn in Hg, Hi.
  - by eapply start_spec.
  - by eapply end_spec.
  - by eapply get_spec.
  - by eapply release_spec.
  - by eapply purge_spec.
  - by eapply link_spec.
Qed.

Lemma init_inv m : pbuf_init = Some m -> sys_inv (mk_bufsys m []) [] [].
Proof.
  assert (forall k, exists c, cellinit (mmap k) 0 (pbuf_size + pool_len k) pbuf_align false pbuf_cells_kb 0 = Some c /\
    Cellmalloc.config c.(ca) = (pbuf_size + pool_len k, pbuf_align, pbuf_increment k, false, 0, pbuf_cells_kb * 1024) /\
    exists fl, arena_inv (mmap k) c fl []) as Hk.
  { intros k. eexists. split; [reflexivity|]. split; [reflexivity|]. apply reach_inv.
    eapply (reach_init (mmap k) 0 _ pbuf_align false pbuf_cells_kb 0); [|done|done|done|apply Hmm|reflexivity].
    pose proof (pool_len_pos k). lia. }
  unfold pbuf_init. destruct (Hk PoolSmall) as (c1 & -> & H1), (Hk PoolMedium) as (c2 & -> & H2), (Hk PoolLarge) as (c3 & -> & H3).
  cbn [mbind option_bind]. intros E. injection E as <-. split; [|constructor|constructor]. by intros [].
Qed.

Lemma reach_sys_inv s used : buf_reach s used -> exists gs, sys_inv s used gs.
Proof.
  induction 1 as [m Hm|op s used s' p used' _ [gs IH] Ha E Hu]; [exists []; by apply init_inv|].
  destruct (exec_op_spec op s used gs IH Ha) as (s1 & p1 & gs' & E1 & _ & _ & H). rewrite E in E1. injection E1 as <- <-.
  exists gs'. by apply H.
Qed.

(** Buffers in use are distinct and do not overlap. *)
Lemma used_apart s used gs p q : sys_inv s used gs -> p ∈ used -> q ∈ used -> p <> q ->
  p + pbuf_size + h_buf_len (hdr_at s.(bs_mem) p) <= q \/ q + pbuf_size + h_buf_len (hdr_at s.(bs_mem) q) <= p.
Proof.
  intros [H1 _ H3] Hp Hq Hne. rewrite list.Forall_forall in H3. destruct (H3 p Hp) as [k Hk], (H3 q Hq) as [k' Hk'].
  rewrite (class_of_len_inv _ _ Hk), (class_of_len_inv _ _ Hk'). eapply cells_apart; [exact H1| | |congruence].
  - apply elem_of_app. right. by apply of_class_elem.
  - apply elem_of_app. right. by apply of_class_elem.
Qed.

Lemma status_spec s used gs k : sys_inv s used gs ->
  base.NoDup (free_cells (s.(bs_mem).(pbuf_cells) k) ++ pooled k gs ++ of_class s.(bs_mem) k used) /\
  cellstatus (s.(bs_mem).(pbuf_cells) k) =
    (zlen (free_cells (s.(bs_mem).(pbuf_cells) k)) + zlen (pooled k gs) + zlen (of_class s.(bs_mem) k used),
     zlen (free_cells (s.(bs_mem).(pbuf_cells) k))).
Proof.
  intros [H1 _ _]. destruct (H1 k) as (_ & fl & Hi). rewrite (free_cells_inv _ _ _ _ Hi). split; [by eapply inv_NoDup|].
  unfold cellstatus. rewrite (ai_count _ _ _ _ Hi), <- (ai_total _ _ _ _ Hi), zlen_app. f_equal. lia.
Qed.

Lemma used_NoDup s used gs : sys_inv s used gs -> base.NoDup used.
Proof.
  intros [H1 _ H3]. assert (forall k, base.NoDup (of_class (bs_mem s) k used)) as Hk.
  { intros k. pose proof (mem_inv_NoDup _ _ k H1) as Hnd. by apply list.NoDup_app in Hnd as (_ & _ & Hnd). }
  clear H1. induction H3 as [|p used [k Hp] H3 IH]; [constructor|].
  pose proof (Hk k) as Hpk. rewrite (of_class_cons _ k), upd_eq in Hpk by done. apply list.NoDup_cons in Hpk as [Hn _].
  constructor; [intros Hin; by apply Hn, of_class_elem|]. apply IH. intros k'. specialize (Hk k').
  rewrite (of_class_cons _ k) in Hk by done. upd_cases k' k; [rewrite upd_eq in Hk; by apply list.NoDup_cons in Hk as [_ Hk]|by rewrite upd_ne in Hk].
Qed.

(** C24: The memory of the packets is safe, over any history of the threads: as long
    as they give back and write to only buffers they have, [pbuf_get], [pbuf_free],
    [pbuf_free_many] and [worker_free_buffers] return without an access outside of
    the cells and leave every other buffer in use as it was; [pbuf_get] answers with
    a buffer that is not in use, of the size for the packet, unless there is none or
    no memory.  No two buffers in use overlap.  Every cell is free in the arena of its
    size, on the list of one worker, or in use, once, and when the workers have ended
    and no packet is left all cells are back in their arenas. *)
Theorem packet_memory_safe s used :
  buf_reach s used ->
  base.NoDup used /\
  (forall p q, p ∈ used -> q ∈ used -> p <> q ->
    p + pbuf_size + h_buf_len (hdr_at s.(bs_mem) p) <= q \/ q + pbuf_size + h_buf_len (hdr_at s.(bs_mem) q) <= p) /\
  (exists gs, Forall2 (heads_ok s.(bs_mem)) s.(bs_workers) gs /\
    forall k, let free := free_cells (s.(bs_mem).(pbuf_cells) k) in
      base.NoDup (free ++ pooled k gs ++ of_class s.(bs_mem) k used) /\
      cellstatus (s.(bs_mem).(pbuf_cells) k) = (zlen free + zlen (pooled k gs) + zlen (of_class s.(bs_mem) k used), zlen free)) /\
  (s.(bs_workers) = [] -> used = [] ->
    forall k, fst (cellstatus (s.(bs_mem).(pbuf_cells) k)) = snd (cellstatus (s.(bs_mem).(pbuf_cells) k))) /\
  forall op, buf_allowed op s used -> exists s' p, buf_exec op s = Some (s', p) /\ answer op s' p used /\ kept op s s' used.
Proof.
  intros [gs H]%reach_sys_inv. split; [by eapply used_NoDup|]. split; [intros p q; by eapply used_apart|].
  split; [exists gs; split; [apply H|]; intros k; by apply status_spec|]. split.
  - intros Hw -> k. destruct (status_spec s [] gs k H) as [_ ->]. destruct (si_workers _ _ _ H); [cbn; unfold zlen; cbn; lia|done].
  - intros op Ha. destruct (exec_op_spec op s used gs H Ha) as (s' & p & gs' & E & A & K & _). by exists s', p.
Qed.
End Buffers.

(** Blocks of 4096 bytes, for the three arenas in turn. *)
Definition demo_mmaps (k : pool_class) (n : nat) : option Z :=
  Some (4096 * (3 * Z.of_nat n + match k with PoolSmall => 1 | PoolMedium => 2 | PoolLarge => 3 end)).

Lemma demo_mmaps_ok : mmaps_ok demo_mmaps 8 4.
Proof.
  split; [intros k; split|]; unfold demo_mmaps.
  - intros i b E. injection E as <-. destruct k; lia.
  - intros i b E. injection E as <-. apply Z.divide_mul_l. by exists 512.
  - intros i j b c Hij E1 E2. injection E1 as <-. injection E2 as <-. destruct k; lia.
  - intros k k' i j b c Hk E1 E2. injection E1 as <-. injection E2 as <-. destruct k, k'; try done; lia.
Qed.

Definition demo_start : option bufsys :=
  m ← pbuf_init demo_mmaps 136 8 4; '(s, _) ← buf_exec demo_mmaps WorkerStart (mk_bufsys m []); Some s.

(** A worker takes a buffer for a packet of 60 bytes, which brings a bunch to its list,
    and gives it back. *)
Lemma packet_memory_safe_witness :
  exists s, buf_reach demo_mmaps 136 8 4 s [4096] /\ cellstatus (s.(bs_mem).(pbuf_cells) PoolSmall) = (2006, 6) /\
    exists s', buf_exec demo_mmaps (Release 0 4096) s = Some (s', 0) /\ kept (Release 0 4096) s s' [4096].
Proof.
  destruct demo_start as [s0|] eqn:E0; [|vm_compute in E0; discriminate].
  assert (buf_reach demo_mmaps 136 8 4 s0 []) as H0.
  { unfold demo_start in E0. destruct (pbuf_init demo_mmaps 136 8 4) as [m|] eqn:Em; [|discriminate].
    cbn [mbind option_bind buf_exec] in E0. injection E0 as <-.
    eapply (buf_reach_step _ _ _ _ WorkerStart); [by apply buf_reach_init|split; [apply submseteq_nil_l|done]|reflexivity|].
    unfold used_after. reflexivity. }
  assert (length s0.(bs_workers) = 1%nat) as Hw by (vm_compute in E0; injection E0 as <-; reflexivity).
  assert ((s ← demo_start; '(s, p) ← buf_exec demo_mmaps (Get 0 60) s; Some (p, cellstatus (pbuf_cells (bs_mem s) PoolSmall), length (bs_workers s)))
    = Some (4096, (2006, 6), 1%nat)) as E1 by (vm_compute; reflexivity).
  rewrite E0 in E1. cbn [mbind option_bind] in E1.
  destruct (buf_exec demo_mmaps (Get 0 60) s0) as [[s p]|] eqn:E; [|discriminate]. cbn [mbind option_bind] in E1.
  apply (inj Some) in E1. apply pair_equal_spec in E1 as [[-> Hs]%pair_equal_spec Hl]. exists s.
  assert (buf_reach demo_mmaps 136 8 4 s [4096]) as H1.
  { eapply buf_reach_step; [exact H0| |exact E|unfold used_after; reflexivity]. split; [apply submseteq_nil_l|rewrite Hw; lia]. }
  split; [exact H1|]. split; [exact Hs|].
  destruct (packet_memory_safe demo_mmaps 136 8 4 demo_mmaps_ok ltac:(lia) ltac:(lia) ltac:(lia) s [4096] H1) as (_ & _ & _ & _ & Hop).
  destruct (Hop (Release 0 4096)) as (s' & p & E' & Ha & K); [split; [done|rewrite Hl; lia]|]. cbn in Ha. subst p.
  exists s'. split; [exact E'|exact K].
Defined.
