(* ===== verification/Filter.v ===== *)
(** * filter.c: matching packets against the filters of a client

    Every client has four chains of filters: negative and positive ones, of the
    server's defaults and of the user.  [filter_process] decides for one packet
    and one client; [filter_process_one] is one filter's answer, 1 for a match. *)

From S2P Require Import Prelude Table Keyhash Types Cfloat ParseQc ParseAprs ClientHeard Historydb Filterdb Messaging.
From Stdlib Require Import ZArith Lia Bool String SpecFloat.
From stdpp Require Import base tactics list gmap numbers.
Open Scope Z_scope.

(** ** Filters *)

Definition WildCard : Z := 128.
Definition NegationFlag : Z := 64.
Definition LengthMask : Z := 15.

(** A callsign pattern: the C string in its ten bytes, and its length with the
    two flags, as the [int8_t] it is. *)
Record filter_refcallsign_t := mk_refcallsign {
  rc_callsign : list Z;
  rc_reflen : Z
}.

(** The last union of [filter_head_t]: the parts of an s-filter, a callsign, or the
    array of callsigns. *)
Inductive filter_names : Type :=
  | NoNames
  | Lens (len2s len2 len3s len3 : Z)
  | RefCallsign (r : filter_refcallsign_t)
  | RefCallsigns (r : list filter_refcallsign_t).

(** [f_text] is the text of the filter: in the built-in buffer [f_textbuf], or in a
    buffer of its own when [f_heap].  The members that share their place have one field each: [f_latS] is also
    [f_coslat], [f_lonW] also [f_dist], [f_numnames] also [len1s] and [f_bitflags]
    also [len1].  Every type of filter uses one of the two. *)
Record filter_t := mk_filter {
  f_text : list Z;
  f_textbuf : list Z;
  f_heap : bool;
  f_latN : spec_float;
  f_lonE : spec_float;
  f_latS : spec_float;
  f_lonW : spec_float;
  f_hist_age : Z;
  f_type : Z;
  f_negation : bool;
  f_numnames : Z;
  f_bitflags : Z;
  f_names : filter_names
}.

Abbreviation f_coslat := f_latS (only parsing).
Abbreviation f_dist := f_lonW (only parsing).
Abbreviation f_len1s := f_numnames (only parsing).
Abbreviation f_len1 := f_bitflags (only parsing).

(** The cache of a position that was looked up. *)
Definition set_f_cache (numnames hist_age : Z) (pos : option (spec_float * spec_float * spec_float)) (f : filter_t)
    : filter_t :=
  let '(lat, lon, coslat) := default (f.(f_latN), f.(f_lonE), f.(f_coslat)) pos in
  mk_filter f.(f_text) f.(f_textbuf) f.(f_heap) lat lon coslat f.(f_dist) hist_age f.(f_type) f.(f_negation) numnames f.(f_bitflags) f.(f_names).

Inductive MatchEnum : Set := MatchExact | MatchPrefix | MatchWild.

Definition QC_C : Z := 1.
Definition QC_X : Z := 2.
Definition QC_U : Z := 4.
Definition QC_o : Z := 8.
Definition QC_O : Z := 16.
Definition QC_S : Z := 32.
Definition QC_r : Z := 64.
Definition QC_R : Z := 128.
Definition QC_Z : Z := 256.
Definition QC_I : Z := 512.
Definition QC_AnalyticsI : Z := 2048.

Definition HIST_LOOKUP_INTERVAL : Z := 10.

(** [f->h.negation ? 2 : 1] *)
Definition hit (f : filter_t) : Z := if f.(f_negation) then 2 else 1.

(** ** Callsign sets *)

(** [strncasecmp(a, b, n) == 0] of two arrays that are zero behind their strings. *)
Fixpoint strncasecmp_pad (a b : list Z) (n : nat) : bool :=
  match n with
  | O => true
  | S n =>
      let x := hd 0 a in
      let y := hd 0 b in
      (tolower x =? tolower y) && ((x =? 0) || strncasecmp_pad (tl a) (tl b) n)
  end.

(** Whether a pattern matches the key. *)
Definition ref_matches (wildok : MatchEnum) (key : list Z) (keylen : Z) (r : filter_refcallsign_t) : bool :=
  let len := Z.land r.(rc_reflen) LengthMask in
  match wildok with
  | MatchExact => (len =? keylen) && strncasecmp_pad key r.(rc_callsign) (Z.to_nat len)
  | MatchPrefix =>
      negb ((len >? keylen) || (len =? 0)) && strncasecmp_pad key r.(rc_callsign) (Z.to_nat len)
  | MatchWild =>
      negb ((len >? keylen) || (len =? 0)) && strncasecmp_pad key r.(rc_callsign) (Z.to_nat len)
      && (has r.(rc_reflen) WildCard || (len =? keylen))
  end.

(** The loop over the [n] patterns from index [i] on. *)
Fixpoint match_refs (n : nat) (wildok : MatchEnum) (key : list Z) (keylen : Z) (refs : list filter_refcallsign_t)
    (i : nat) : option Z :=
  match n with
  | O => Some 0
  | S n =>
      r ← refs !! i;
      if ref_matches wildok key keylen r then Some (if has r.(rc_reflen) NegationFlag then 2 else 1)
      else match_refs n wildok key keylen refs (S i)
  end.

Definition filter_match_on_callsignset (key : list Z) (keylen : Z) (f : filter_t) (wildok : MatchEnum) : option Z :=
  match f.(f_names) with
  | RefCallsigns refs => match_refs (Z.to_nat f.(f_numnames)) wildok key keylen refs 0
  | _ => None
  end.

(** [memcpy(ref.callsign, data+off, i)] and the zeros behind it. *)
Definition ref_key (data : list Z) (off i : Z) : option (list Z) :=
  if i <=? CALLSIGNLEN_MAX + 1 then rd_range data off i else None.

Definition clip_call (i : Z) : Z := if i >? CALLSIGNLEN_MAX then CALLSIGNLEN_MAX else i.

(** ** Distances *)

Definition f32_mul := SFmul 24 128.
Definition f32_sqrt := SFsqrt 24 128.

Section Process.
Context (sinf : spec_float -> spec_float) (atan2f : spec_float -> spec_float -> spec_float).
Context (cfg : config) (tick : Z).

Definition maidenhead_km_distance (lat1 coslat1 lon1 lat2 coslat2 lon2 : spec_float) : spec_float :=
  let half d := to_f32 (f64_mul (to_f64 d) (f64_dec 5 1)) in
  let sindlat2 := sinf (half (f32_sub lat1 lat2)) in
  let sindlon2 := sinf (half (f32_sub lon1 lon2)) in
  let a := f32_add (f32_mul sindlat2 sindlat2) (f32_mul (f32_mul (f32_mul coslat1 coslat2) sindlon2) sindlon2) in
  let c := to_f32 (f64_mul (f64_of_Z 2)
             (to_f64 (atan2f (f32_sqrt a) (f32_sqrt (to_f32 (f64_sub (f64_of_Z 1) (to_f64 a))))))) in
  to_f32 (f64_mul (f64_div (f64_mul (f64_dec 1112 1) (f64_of_Z 180)) M_PI) (to_f64 c)).

(** The packet is nearer to the centre than [f_dist]. *)
Definition in_range (lat1 coslat1 lon1 : spec_float) (pb : pbuf_t) (f : filter_t) : bool :=
  SFltb (maidenhead_km_distance lat1 coslat1 lon1 pb.(pb_lat) pb.(pb_cos_lat) pb.(pb_lng)) f.(f_dist).

(** ** The types of filters *)

Definition filter_process_one_a (pb : pbuf_t) (f : filter_t) : Z :=
  if negb (has pb.(pb_flags) F_HASPOS) then 0
  else if SFleb pb.(pb_lat) f.(f_latN) && SFleb f.(f_latS) pb.(pb_lat)
          && SFleb pb.(pb_lng) f.(f_lonE) && SFleb f.(f_lonW) pb.(pb_lng) then hit f
  else 0.

(** The two filters on the source callsign, and for a packet that is about
    another station but no object, on that station. *)
Definition filter_process_src (wildok : MatchEnum) (pb : pbuf_t) (f : filter_t) : option Z :=
  let i := clip_call pb.(pb_srccall_end) in
  key ← ref_key pb.(pb_data) 0 i;
  r ← filter_match_on_callsignset key i f wildok;
  if (r =? 0) && negb (pb.(pb_srcname) =? 0) && negb (has pb.(pb_packettype) (Z.lor T_OBJECT T_ITEM)) then
    let i := clip_call pb.(pb_srcname_len) in
    key ← ref_key pb.(pb_data) pb.(pb_srcname) i;
    filter_match_on_callsignset key i f wildok
  else Some r.

Definition filter_process_one_b : pbuf_t -> filter_t -> option Z := filter_process_src MatchWild.
Definition filter_process_one_p : pbuf_t -> filter_t -> option Z := filter_process_src MatchPrefix.

(** [for (i = 0; i+d <= q && i <= CALLSIGNLEN_MAX; ++i) if (d[i] == ',') break;] *)
Fixpoint via_end (n : nat) (s : list Z) (d q i : Z) : option Z :=
  match n with
  | O => Some i
  | S n =>
      if i + d <=? q then
        c ← rd s (d + i);
        if c =? ch_comma then Some i else via_end n s d q (i + 1)
      else Some i
  end.

Definition via_len (s : list Z) (d q : Z) : option Z := via_end (Z.to_nat (CALLSIGNLEN_MAX + 1)) s d q 0.

(** [if ( *d == ',') ++d;] *)
Definition over_comma_sep (s : list Z) (d : Z) : option Z :=
  c ← rd s d; Some (if c =? ch_comma then d + 1 else d).

(** The search for the digipeater among at most [n] callsigns: where it starts,
    its length without and with the asterisk, and the rounds that are left. *)
Fixpoint digi_find (n : nat) (s : list Z) (d q : Z) (f : filter_t) : option (option (Z * Z * Z * nat)) :=
  if d <? q then
    match n with
    | O => Some None
    | S n =>
        d ← over_comma_sep s d;
        i ← via_len s d q;
        last ← rd s (d + i - 1);
        let cl := if last =? ch_star then i - 1 else i in
        let cl := clip_call cl in
        key ← ref_key s d cl;
        rc ← filter_match_on_callsignset key cl f MatchWild;
        if rc =? 1 then Some (Some (d, cl, i, n)) else digi_find n s (d + i) q f
    end
  else Some None.

(** A later callsign has an asterisk. *)
Fixpoint digi_star (n : nat) (s : list Z) (d q : Z) : option Z :=
  if d <? q then
    match n with
    | O => Some 0
    | S n =>
        d ← over_comma_sep s d;
        i ← via_len s d q;
        last ← rd s (d + i - 1);
        if last =? ch_star then Some 1 else digi_star n s (d + i) q
    end
  else Some 0.

Definition filter_process_one_d (pb : pbuf_t) (f : filter_t) : option Z :=
  let s := pb.(pb_data) in
  let d := pb.(pb_srccall_end) + 1 + pb.(pb_dstcall_len) + 1 in
  let q := pb.(pb_qconst_start) - 1 in
  r ← digi_find 10 s d q f;
  match r with
  | None => Some 0
  | Some (d, cl, i, n) =>
      c ← rd s (d + cl);
      if c =? ch_star then Some 1 else digi_star n s (d + i) q
  end.

Definition filter_process_one_e (pb : pbuf_t) (f : filter_t) : option Z :=
  let i := pb.(pb_entrycall_len) in
  if i <? 1 then Some 0
  else
    key ← ref_key pb.(pb_data) (pb.(pb_qconst_start) + 4) i;
    filter_match_on_callsignset key i f MatchWild.

Definition filter_process_one_g (pb : pbuf_t) (f : filter_t) : option Z :=
  if negb (has pb.(pb_packettype) T_MESSAGE) then Some 0
  else
    let i := pb.(pb_dstname_len) in
    if i <? 1 then Some 0
    else
      d ← pb.(pb_dstname);
      key ← ref_key pb.(pb_data) d i;
      filter_match_on_callsignset key i f MatchWild.

Definition filter_process_one_o (pb : pbuf_t) (f : filter_t) : option Z :=
  if negb (has pb.(pb_packettype) (Z.lor T_OBJECT T_ITEM)) then Some 0
  else
    let i := pb.(pb_srcname_len) in
    if (i <? 1) || (i >? CALLSIGNLEN_MAX) then Some 0
    else
      key ← ref_key pb.(pb_data) pb.(pb_srcname) i;
      filter_match_on_callsignset key i f MatchWild.

Definition filter_process_one_u (pb : pbuf_t) (f : filter_t) : option Z :=
  let i := clip_call pb.(pb_dstcall_len) in
  key ← ref_key pb.(pb_data) (pb.(pb_srccall_end) + 1) i;
  filter_match_on_callsignset key i f MatchWild.

(** The flag of the letter of a Q construct; the letters are C X U o O S r R Z I. *)
Definition qc_mask (c : Z) : Z :=
  if c =? 67 then QC_C else if c =? 88 then QC_X else if c =? 85 then QC_U else if c =? 111 then QC_o
  else if c =? 79 then QC_O else if c =? 83 then QC_S else if c =? 114 then QC_r else if c =? 82 then QC_R
  else if c =? 90 then QC_Z else if c =? 73 then QC_I else 0.

Definition filter_process_one_q (db : filterdb) (pb : pbuf_t) (f : filter_t) : option Z :=
  e ← rd pb.(pb_data) (pb.(pb_qconst_start) + 2);
  let mask := qc_mask e in
  if mask =? 0 then Some 0
  else if has f.(f_bitflags) mask then Some 1
  else if has f.(f_bitflags) QC_AnalyticsI then
    found ← filter_entrycall_lookup tick pb db.(fd_entrycall);
    Some (if (found : bool) then 1 else 0)
  else Some 0.

Definition filter_process_one_r (pb : pbuf_t) (f : filter_t) : Z :=
  if negb (has pb.(pb_flags) F_HASPOS) then 0
  else if in_range f.(f_latN) f.(f_coslat) f.(f_lonE) pb f then hit f else 0.

(** [memchr(f->h.text+off, c, len) != NULL]; the text ends with its NUL. *)
Definition text_has (f : filter_t) (off len c : Z) : option bool :=
  m ← memchr (f.(f_text) ++ [0]) off len c; Some (negb (bool_decide (m = None))).

Definition filter_process_one_s (pb : pbuf_t) (f : filter_t) : option Z :=
  let symtable := if pb.(pb_symbol).1 =? ch_slash then ch_slash else ch_bslash in
  let symcode := pb.(pb_symbol).2 in
  let symolay := if pb.(pb_symbol).1 =? symtable then 0 else pb.(pb_symbol).1 in
  match f.(f_names) with
  | Lens len2s len2 len3s len3 =>
      pri ← (if negb (f.(f_len1) =? 0) && (symtable =? ch_slash) then text_has f f.(f_len1s) f.(f_len1) symcode
             else Some false);
      if (pri : bool) then Some (hit f)
      else if negb (len3 =? 0) then
        over ← text_has f len3s len3 symolay;
        if negb over then Some 0
        else
          alt ← text_has f len2s len2 symcode;
          Some (if negb alt then 0 else hit f)
      else if negb (len2 =? 0) && (symtable =? ch_bslash) then
        alt ← text_has f len2s len2 symcode; Some (if (alt : bool) then hit f else 0)
      else Some 0
  | _ => None
  end.

(** The cached position is out of date. *)
Definition cache_stale (f : filter_t) : bool :=
  (f.(f_hist_age) <? tick) || (f.(f_hist_age) >? tick + HIST_LOOKUP_INTERVAL).

Definition cell_pos (h : history_cell_t) : spec_float * spec_float * spec_float :=
  (h.(hc_lat), h.(hc_lon), h.(hc_coslat)).

(** The answer when the centre is the position in the cache. *)
Definition cached_range (pb : pbuf_t) (f : filter_t) : Z :=
  if f.(f_numnames) =? 0 then 0
  else if in_range f.(f_latN) f.(f_coslat) f.(f_lonE) pb f then hit f else 0.

Definition ref_callsign (f : filter_t) : option (list Z) :=
  match f.(f_names) with
  | RefCallsign r => rd_range (r.(rc_callsign) ++ repeat 0 10) 0 r.(rc_reflen)
  | _ => None
  end.

Definition filter_process_one_f (pb : pbuf_t) (f : filter_t) (hdb : historydb) : option (Z * filter_t * historydb) :=
  if negb (has pb.(pb_flags) F_HASPOS) then Some (0, f, hdb)
  else if cache_stale f then
    call ← ref_callsign f;
    let '(hdb, h) := historydb_lookup cfg tick call hdb in
    match h with
    | None => Some (0, set_f_cache 0 (tick + HIST_LOOKUP_INTERVAL) None f, hdb)
    | Some h =>
        let f := set_f_cache 1 (tick + HIST_LOOKUP_INTERVAL) (Some (cell_pos h)) f in
        Some (cached_range pb f, f, hdb)
    end
  else Some (cached_range pb f, f, hdb).

Definition filter_process_one_m (c : client_t) (pb : pbuf_t) (f : filter_t) (hdb : historydb)
    : option (Z * filter_t * historydb) :=
  if negb (has pb.(pb_flags) F_HASPOS) then Some (0, f, hdb)
  else if c.(c_loc_known) then
    Some (if in_range c.(c_lat) c.(c_cos_lat) c.(c_lng) pb f then hit f else 0, f, hdb)
  else if bool_decide (c.(c_username) = []) then Some (0, f, hdb)
  else if cache_stale f then
    let '(hdb, h) := historydb_lookup cfg tick c.(c_username) hdb in
    match h with
    | None => Some (0, set_f_cache 0 (tick + HIST_LOOKUP_INTERVAL / 2) None f, hdb)
    | Some h =>
        let f := set_f_cache 1 (tick + HIST_LOOKUP_INTERVAL) (Some (cell_pos h)) f in
        Some (cached_range pb f, f, hdb)
    end
  else Some (cached_range pb f, f, hdb).

Definition filter_process_one_t (db : filterdb) (pb : pbuf_t) (f : filter_t) (hdb : historydb)
    : option (Z * filter_t * historydb) :=
  let rc := has pb.(pb_packettype) f.(f_bitflags) in
  rc ← (if negb rc && has f.(f_bitflags) T_WX && has pb.(pb_flags) F_HASPOS
        then filter_wx_lookup tick pb db.(fd_wx) else Some rc);
  if rc && (f.(f_type) =? 84) then
    if negb (has pb.(pb_flags) F_HASPOS) then Some (0, f, hdb)
    else if cache_stale f then
      call ← ref_callsign f;
      let '(hdb, h) := historydb_lookup cfg tick call hdb in
      match h with
      | None => Some (0, set_f_cache 0 f.(f_hist_age) None f, hdb)
      | Some h =>
          let f := set_f_cache 1 (tick + HIST_LOOKUP_INTERVAL) (Some (cell_pos h)) f in
          Some (cached_range pb f, f, hdb)
      end
    else Some (cached_range pb f, f, hdb)
  else
    let n := if (rc : bool) then 1 else 0 in
    Some (if f.(f_negation) then n + n else n, f, hdb).

Definition filter_process_one (c : client_t) (db : filterdb) (pb : pbuf_t) (f : filter_t) (hdb : historydb)
    : option (Z * filter_t * historydb) :=
  let pure (r : option Z) := rc ← r; Some (rc, f, hdb) in
  let t := tolower f.(f_type) in
  if t =? 97 then pure (Some (filter_process_one_a pb f))
  else if t =? 98 then pure (filter_process_one_b pb f)
  else if t =? 100 then pure (filter_process_one_d pb f)
  else if t =? 101 then pure (filter_process_one_e pb f)
  else if t =? 102 then filter_process_one_f pb f hdb
  else if t =? 103 then pure (filter_process_one_g pb f)
  else if t =? 109 then filter_process_one_m c pb f hdb
  else if t =? 111 then pure (filter_process_one_o pb f)
  else if t =? 112 then pure (filter_process_one_p pb f)
  else if t =? 113 then pure (filter_process_one_q db pb f)
  else if t =? 114 then pure (Some (filter_process_one_r pb f))
  else if t =? 115 then pure (filter_process_one_s pb f)
  else if t =? 116 then filter_process_one_t db pb f hdb
  else if t =? 117 then pure (filter_process_one_u pb f)
  else pure (Some (-1)).

(** ** The four chains *)

Record client_filters := mk_client_filters {
  negdefaultfilters : list filter_t;
  posdefaultfilters : list filter_t;
  neguserfilters : list filter_t;
  posuserfilters : list filter_t;
  cf_filter_s : list Z;
  cf_warned : bool
}.

(** A chain of the server's filters up to the first match: the chain with its
    caches, and the answer of that filter. *)
Fixpoint default_chain (c : client_t) (db : filterdb) (pb : pbuf_t) (fs : list filter_t) (hdb : historydb)
    : option (list filter_t * historydb * Z) :=
  match fs with
  | [] => Some ([], hdb, 0)
  | f :: rest =>
      '(rc, f, hdb) ← filter_process_one c db pb f hdb;
      if rc >? 0 then Some (f :: rest, hdb, rc)
      else
        '(rest, hdb, rc) ← default_chain c db pb rest hdb;
        Some (f :: rest, hdb, rc)
  end.

Context {W : Type} `{ServerOps W}.

(** [client_bad_filter_notify]: one warning per client. *)
Definition client_bad_filter_notify (c : client_t) (text : list Z) (warned : bool) (x : W) : bool * W * Z :=
  if warned then (true, x, 0)
  else
    let '(x, rc) := client_printf c (str "# Warning: Bad filter: " ++ text ++ [13; 10]) x in (true, x, rc).

(** A chain of the user's filters: a filter of unknown type is reported. *)
Fixpoint user_chain (c : client_t) (db : filterdb) (pb : pbuf_t) (fs : list filter_t) (hdb : historydb)
    (warned : bool) (x : W) : option (list filter_t * historydb * bool * W * Z) :=
  match fs with
  | [] => Some ([], hdb, warned, x, 0)
  | f :: rest =>
      '(rc, f, hdb) ← filter_process_one c db pb f hdb;
      let '(warned, x, rc) := if rc <? 0 then client_bad_filter_notify c f.(f_text) warned x else (warned, x, rc) in
      if negb (rc =? 0) then Some (f :: rest, hdb, warned, x, rc)
      else
        '(rest, hdb, warned, x, rc) ← user_chain c db pb rest hdb warned x;
        Some (f :: rest, hdb, warned, x, rc)
  end.

(** What is sent to an igate besides its filters: messages to itself and to the
    stations it heard, the next position of their senders, and packets of heard
    stations that are on the Internet. *)
Definition igate_support (mem : bool) (c : client_t) (pb : pbuf_t) : option (client_t * bool) :=
  if negb (has c.(c_flags) CLFLAGS_IGATE) then Some (c, false)
  else
    gate ← (if has pb.(pb_packettype) T_MESSAGE then
              d ← pb.(pb_dstname);
              dst ← rd_range pb.(pb_data) d pb.(pb_dstname_len);
              Some (((pb.(pb_dstname_len) =? c.(c_username_len)) && beq dst c.(c_username))
                    || client_heard_check c dst pb.(pb_dstname_hash))
            else Some false);
    if (gate : bool) then c ← client_courtesy_update mem c pb; Some (c, true)
    else
      '(c, courtesy) ← (if has pb.(pb_packettype) (Z.lor T_POSITION (Z.lor T_OBJECT T_ITEM))
                        then client_courtesy_needed c pb else Some (c, false));
      if (courtesy : bool) then Some (c, true)
      else if has pb.(pb_flags) F_HAS_TCPIP then
        src ← rd_range pb.(pb_data) 0 pb.(pb_srccall_end);
        Some (c, client_heard_check c src pb.(pb_srccall_hash))
      else Some (c, false).

(** What a call may change. *)
Record filter_state := mk_filter_state {
  fs_client : client_t;
  fs_filters : client_filters;
  fs_history : historydb;
  fs_ops : W
}.

Definition filter_process (mem : bool) (db : filterdb) (pb : pbuf_t) (st : filter_state)
    : option (filter_state * Z) :=
  '(c, gate) ← igate_support mem st.(fs_client) pb;
  let cf := st.(fs_filters) in
  if (gate : bool) then Some (mk_filter_state c cf st.(fs_history) st.(fs_ops), 1)
  else
    '(nd, hdb, rc) ← default_chain c db pb cf.(negdefaultfilters) st.(fs_history);
    let cf := mk_client_filters nd cf.(posdefaultfilters) cf.(neguserfilters) cf.(posuserfilters)
                cf.(cf_filter_s) cf.(cf_warned) in
    if rc >? 0 then Some (mk_filter_state c cf hdb st.(fs_ops), 0)
    else
      '(pd, hdb, rc) ← default_chain c db pb cf.(posdefaultfilters) hdb;
      let cf := mk_client_filters nd pd cf.(neguserfilters) cf.(posuserfilters) cf.(cf_filter_s) cf.(cf_warned) in
      if rc >? 0 then Some (mk_filter_state c cf hdb st.(fs_ops), rc)
      else
        '(nu, hdb, warned, x, rc) ← user_chain c db pb cf.(neguserfilters) hdb cf.(cf_warned) st.(fs_ops);
        let cf := mk_client_filters nd pd nu cf.(posuserfilters) cf.(cf_filter_s) warned in
        if rc <? 0 then Some (mk_filter_state c cf hdb x, rc)
        else if rc >? 0 then Some (mk_filter_state c cf hdb x, 0)
        else
          '(pu, hdb, warned, x, rc) ← user_chain c db pb cf.(posuserfilters) hdb warned x;
          Some (mk_filter_state c (mk_client_filters nd pd nu pu cf.(cf_filter_s) warned) hdb x, rc).
End Process.
