(* ===== verification/FilterParse.v ===== *)
(** * filter.c: reading filters, and the filter commands of a client *)

From S2P Require Import Prelude Table Keyhash Types Cfloat Cfgfile ParseQc ParseAprs ClientHeard Historydb Filterdb.
From S2P Require Import Messaging Filter.
From Stdlib Require Import ZArith Lia Bool String SpecFloat.
From stdpp Require Import base tactics list gmap numbers.
Open Scope Z_scope.

(** The size of the built-in text buffer: 512 bytes less the 64 of the head. *)
Definition FILT_TEXTBUFSIZE : Z := 448.

Definition f32_zero : spec_float := S754_zero false.

(** [memset(&f0, 0, sizeof(f0)); f0.h.type = type;] *)
Definition zero_filter (type : Z) : filter_t :=
  mk_filter [] [] false f32_zero f32_zero f32_zero f32_zero 0 type false 0 0 NoNames.

(** ** Callsign sets *)

Definition skip_minus (s : list Z) : list Z :=
  match s with c :: t => if c =? ch_dash then t else s | [] => [] end.

(** The text up to a slash, and what is behind the slash. *)
Fixpoint cut_slash (s : list Z) : list Z * list Z :=
  match s with
  | [] => ([], [])
  | c :: t => if c =? ch_slash then ([], t) else let '(a, r) := cut_slash t in (c :: a, r)
  end.

(** A pattern: asterisks make it a wildcard, and at most nine other characters are
    kept. *)
Definition make_ref (piece : list Z) (negation : bool) : filter_refcallsign_t :=
  let call := take (Z.to_nat CALLSIGNLEN_MAX) (List.filter (fun c => negb (c =? ch_star)) piece) in
  let reflen := zlen call in
  let reflen := if existsb (fun c => c =? ch_star) piece then i8 (Z.lor reflen WildCard) else reflen in
  let reflen := if negation then i8 (Z.lor reflen NegationFlag) else reflen in
  mk_refcallsign call reflen.

(** The patterns of a text; [None] when one has an asterisk and may not. *)
Fixpoint parse_refs (n : nat) (wildok : MatchEnum) (negation : bool) (s : list Z)
    : option (list filter_refcallsign_t) :=
  match n, s with
  | O, _ | _, [] => Some []
  | S n, _ =>
      let '(piece, rest) := cut_slash s in
      if existsb (fun c => c =? ch_star) piece && negb (match wildok with MatchWild => true | _ => false end) then None
      else r ← parse_refs n wildok negation rest; Some (make_ref piece negation :: r)
  end.

(** The text and the built-in buffer of a filter that is extended: the new text is
    appended to the buffer when the length of the old text allows it, which is
    undefined when the buffer is too small; the length is that of the text, which
    need not be in the buffer any more.  Otherwise both go to a new allocation. *)
Definition extend_text (filt0 : list Z) (ff : filter_t) : option (list Z * list Z * bool) :=
  let text := ff.(f_textbuf) ++ [ch_sp] ++ filt0 in
  if zlen ff.(f_text) + zlen filt0 + 2 <=? FILT_TEXTBUFSIZE then
    if zlen text <? FILT_TEXTBUFSIZE
    then Some (if ff.(f_heap) then ff.(f_text) else text, text, ff.(f_heap)) else None
  else if zlen text + 1 <=? zlen ff.(f_text) + zlen filt0 + 2 then Some (text, ff.(f_textbuf), true) else None.

(** [filter_parse_one_callsignset]: an error, the last filter of the chain with
    more patterns when it is of the same type, or the new filter. *)
Definition filter_parse_one_callsignset (filt0 : list Z) (f0 : filter_t) (ff : option filter_t) (wildok : MatchEnum)
    : option (Z + bool * filter_t) :=
  let s := (cut_slash (skip_minus filt0)).2 in
  if bool_decide (s = []) then Some (inl (-1))
  else
    match parse_refs (length s) wildok f0.(f_negation) s with
    | None => Some (inl (-1))
    | Some refs =>
        let fresh := Some (inr (false, mk_filter f0.(f_text) f0.(f_textbuf) f0.(f_heap) f0.(f_latN) f0.(f_lonE) f0.(f_latS) f0.(f_lonW)
                                  f0.(f_hist_age) f0.(f_type) f0.(f_negation) (i16 (zlen refs)) f0.(f_bitflags)
                                  (RefCallsigns refs))) in
        match ff with
        | Some ff =>
            if ff.(f_type) =? f0.(f_type) then
              match ff.(f_names) with
              | RefCallsigns old =>
                  let refs := take (Z.to_nat ff.(f_numnames)) old ++ refs in
                  '(text, textbuf, heap) ← extend_text filt0 ff;
                  Some (inr (true, mk_filter text textbuf heap ff.(f_latN) ff.(f_lonE) ff.(f_latS) ff.(f_lonW) ff.(f_hist_age)
                               ff.(f_type) ff.(f_negation) (i16 (zlen refs)) ff.(f_bitflags) (RefCallsigns refs)))
              | _ => None
              end
            else fresh
        | None => fresh
        end
    end.

(** ** Symbols *)

(** [while ( *s && *s != '/') s++;] from offset [p] *)
Fixpoint to_slash (s : list Z) : Z :=
  match s with
  | c :: t => if c =? ch_slash then 0 else 1 + to_slash t
  | [] => 0
  end.

Definition filter_parse_one_s (filt0 : list Z) (f0 : filter_t) : Z + filter_t :=
  let from p := drop (Z.to_nat p) filt0 in
  let p := if bool_decide (rd filt0 0 = Some ch_dash) then 1 else 0 in
  let p := match rd filt0 p with Some c => if (c =? 115) || (c =? 83) then p + 1 else p | None => p end in
  if negb (bool_decide (rd filt0 p = Some ch_slash)) then inl (-1)
  else
    let len1 := p + 1 in
    let len2 := len1 + to_slash (from len1) in
    let made len2s l2 len3s l3 :=
      inr (mk_filter f0.(f_text) f0.(f_textbuf) f0.(f_heap) f0.(f_latN) f0.(f_lonE) f0.(f_latS) f0.(f_lonW) f0.(f_hist_age)
             f0.(f_type) f0.(f_negation) len1 (len2 - len1) (Lens len2s l2 len3s l3)) in
    if bool_decide (from len2 = []) then made 0 0 0 0
    else
      let len3 := len2 + 1 in
      let len4 := len3 + to_slash (from len3) in
      if bool_decide (from len4 = []) then made len3 (len4 - len3) 0 0
      else
        let len5 := len4 + 1 in
        let len6 := zlen filt0 in
        if (len6 - len5 >? 0) && (len4 - len3 =? 0) then inl (-1)
        else made len3 (len4 - len3) len5 (len6 - len5).

(** ** Numbers *)

(** [-lim < x && x < lim] with a [double] limit in hundredths *)
Definition within (lim : Z) (x : spec_float) : bool :=
  SFltb (f64_dec (- lim) 2) (to_f64 x) && SFltb (to_f64 x) (f64_dec lim 2).

(** [f_dist < 0.1] *)
Definition too_near (x : spec_float) : bool := SFltb (to_f64 x) (f64_dec 1 1).

(** [/%f] *)
Definition scan_slash_f (s : list Z) : option (spec_float * list Z) := t ← scan_lit ch_slash s; scan_f t.

(** [/%9[^/]/%f] *)
Definition scan_call_dist (s : list Z) : option (list Z * spec_float * list Z) :=
  t ← scan_lit ch_slash s;
  let n := Z.to_nat (Z.min CALLSIGNLEN_MAX (to_slash t)) in
  if (n =? 0)%nat then None
  else '(dist, rest) ← scan_slash_f (drop n t); Some (take n t, dist, rest).

Definition set_f_pos (latN lonE latS lonW : spec_float) (f : filter_t) : filter_t :=
  mk_filter f.(f_text) f.(f_textbuf) f.(f_heap) latN lonE latS lonW f.(f_hist_age) f.(f_type) f.(f_negation) f.(f_numnames)
    f.(f_bitflags) f.(f_names).

Definition set_f_ref (call : list Z) (f : filter_t) : filter_t :=
  mk_filter f.(f_text) f.(f_textbuf) f.(f_heap) f.(f_latN) f.(f_lonE) f.(f_latS) f.(f_lonW) f.(f_hist_age) f.(f_type)
    f.(f_negation) 0 f.(f_bitflags) (RefCallsign (mk_refcallsign call (zlen call))).

Definition set_f_type (type bitflags : Z) (f : filter_t) : filter_t :=
  mk_filter f.(f_text) f.(f_textbuf) f.(f_heap) f.(f_latN) f.(f_lonE) f.(f_latS) f.(f_lonW) f.(f_hist_age) type f.(f_negation)
    f.(f_numnames) bitflags f.(f_names).

Definition set_f_text (text textbuf : list Z) (heap : bool) (f : filter_t) : filter_t :=
  mk_filter text textbuf heap f.(f_latN) f.(f_lonE) f.(f_latS) f.(f_lonW) f.(f_hist_age) f.(f_type) f.(f_negation)
    f.(f_numnames) f.(f_bitflags) f.(f_names).

(** a/latN/lonW/latS/lonE *)
Definition parse_a (s : list Z) (f0 : filter_t) : Z + filter_t :=
  match '(latN, s) ← scan_slash_f s; '(lonW, s) ← scan_slash_f s; '(latS, s) ← scan_slash_f s;
        '(lonE, s) ← scan_slash_f s;
        if match s with [] => true | c :: _ => c =? ch_slash end then Some (latN, lonW, latS, lonE) else None with
  | None => inl (-1)
  | Some (latN, lonW, latS, lonE) =>
      if negb (within 9001 latN) || negb (within 18001 lonW) || negb (within 9001 latS) || negb (within 18001 lonE)
      then inl (-2)
      else if SFltb latN latS || SFltb lonE lonW then inl (-3)
      else inr (set_f_pos (filter_lat2rad latN) (filter_lon2rad lonE) (filter_lat2rad latS) (filter_lon2rad lonW) f0)
  end.

(** f/call/dist *)
Definition parse_f (s : list Z) (f0 : filter_t) : Z + filter_t :=
  match scan_call_dist s with
  | Some (call, dist, _) =>
      if too_near dist then inl (-1)
      else inr (set_f_ref call (set_f_pos f0.(f_latN) f0.(f_lonE) f0.(f_latS) dist f0))
  | None => inl (-1)
  end.

(** m/dist *)
Definition parse_m (s : list Z) (f0 : filter_t) : Z + filter_t :=
  match scan_slash_f s with
  | Some (dist, _) => if too_near dist then inl (-1) else inr (set_f_pos f0.(f_latN) f0.(f_lonE) f0.(f_latS) dist f0)
  | None => inl (-1)
  end.

(** r/lat/lon/dist *)
Definition parse_r (cosf : spec_float -> spec_float) (s : list Z) (f0 : filter_t) : Z + filter_t :=
  match '(lat, s) ← scan_slash_f s; '(lon, s) ← scan_slash_f s; '(dist, s) ← scan_slash_f s; Some (lat, lon, dist) with
  | None => inl (-1)
  | Some (lat, lon, dist) =>
      if too_near dist then inl (-1)
      else if negb (within 9001 lat) || negb (within 18001 lon) then inl (-2)
      else let lat := filter_lat2rad lat in inr (set_f_pos lat (filter_lon2rad lon) (cosf lat) dist f0)
  end.

(** The letters of q/con and of t/types; what is left starts at the slash. *)
Fixpoint parse_letters (mask : Z -> option Z) (s : list Z) (bits : Z) : option (Z * list Z) :=
  match s with
  | [] => Some (bits, [])
  | c :: t => if c =? ch_slash then Some (bits, s)
              else m ← mask c; parse_letters mask t (Z.lor bits m)
  end.

Definition q_letter (c : Z) : option Z := if qc_mask c =? 0 then None else Some (qc_mask c).

(** q/con/ana *)
Definition parse_q (s : list Z) (f0 : filter_t) : Z + filter_t :=
  match t ← scan_lit ch_slash s;
        '(bits, r) ← parse_letters q_letter t 0;
        match r with
        | [] => Some bits
        | _ :: r =>
            let '(bits, r) := match r with
                              | c :: u => if (c =? 105) || (c =? 73) then (Z.lor bits QC_AnalyticsI, u) else (bits, r)
                              | [] => (bits, r)
                              end in
            if bool_decide (r = []) then Some bits else None
        end with
  | Some bits => inr (set_f_type 113 bits f0)
  | None => inl (-1)
  end.

(** The types: c i m n o p q s t u w in both cases, and the asterisk. *)
Definition t_letter (c : Z) : option Z :=
  let c := tolower c in
  if c =? ch_star then Some (Z.lnot T_CWOP)
  else if c =? 99 then Some T_CWOP else if c =? 105 then Some T_ITEM else if c =? 109 then Some T_MESSAGE
  else if c =? 110 then Some T_NWS else if c =? 111 then Some T_OBJECT else if c =? 112 then Some T_POSITION
  else if c =? 113 then Some T_QUERY else if c =? 115 then Some T_STATUS else if c =? 116 then Some T_TELEMETRY
  else if c =? 117 then Some T_USERDEF else if c =? 119 then Some T_WX else None.

(** t/types or t/types/call/km *)
Definition parse_t (s : list Z) (f0 : filter_t) : Z + filter_t :=
  match t ← scan_lit ch_slash s; parse_letters t_letter t 0 with
  | None => inl (-1)
  | Some (bits, r) =>
      if (1 <? zlen r) then
        match scan_call_dist r with
        | Some (call, dist, rest) =>
            if negb (bool_decide (rest = [])) || too_near dist || (zlen call <? CALLSIGNLEN_MIN) then inl (-1)
            else inr (set_f_type 84 bits (set_f_ref call (set_f_pos f0.(f_latN) f0.(f_lonE) f0.(f_latS) dist f0)))
        | None => inl (-1)
        end
      else inr (set_f_type 116 bits f0)
  end.

(** ** One filter *)

(** The letters of the filters; [strchr] also finds the NUL of an empty text. *)
Definition filter_code_ok (c : Z) : bool := existsb (fun x => x =? c) (str "abdefgmopqrstuABDEFGMOPQRSTU" ++ [0]).

Definition lift_new (r : Z + filter_t) : option (Z + bool * filter_t) :=
  Some (match r with inl e => inl e | inr f => inr (false, f) end).

(** The switch of [filter_parse]; [ff] is the last filter of the chain. *)
Definition parse_item (cosf : spec_float -> spec_float) (filt0 : list Z) (ff : option filter_t)
    : option (Z + bool * filter_t) :=
  let filt := skip_minus filt0 in
  let type := hd 0 filt in
  let f0 := zero_filter type in
  if negb (filter_code_ok type) then Some (inl (-1))
  else
    let t := tolower type in
    if t =? 97 then lift_new (parse_a (tl filt) f0)
    else if t =? 102 then lift_new (parse_f (tl filt) f0)
    else if t =? 109 then lift_new (parse_m (tl filt) f0)
    else if t =? 112 then filter_parse_one_callsignset filt0 f0 ff MatchPrefix
    else if t =? 113 then lift_new (parse_q (tl filt) f0)
    else if t =? 114 then lift_new (parse_r cosf (tl filt) f0)
    else if t =? 115 then lift_new (filter_parse_one_s filt0 f0)
    else if t =? 116 then lift_new (parse_t (tl filt) f0)
    else if t =? 0 then lift_new (inr f0)
    else filter_parse_one_callsignset filt0 f0 ff MatchWild.

(** The text of a new filter. *)
Definition store_text (filt0 : list Z) (f : filter_t) : filter_t :=
  if zlen filt0 <? FILT_TEXTBUFSIZE then set_f_text filt0 filt0 false f else set_f_text filt0 [] true f.

(** Appending to a chain, or replacing its last filter. *)
Definition add_filter (extended : bool) (f : filter_t) (chain : list filter_t) : list filter_t :=
  if extended then take (length chain - 1) chain ++ [f] else chain ++ [f].

Definition last_filter (chain : list filter_t) : option filter_t := chain !! (length chain - 1)%nat.

(** The chain a filter belongs to. *)
Definition chain_of (is_user neg : bool) (cf : client_filters) : list filter_t :=
  match is_user, neg with
  | true, true => cf.(neguserfilters)
  | true, false => cf.(posuserfilters)
  | false, true => cf.(negdefaultfilters)
  | false, false => cf.(posdefaultfilters)
  end.

Definition set_chain (is_user neg : bool) (l : list filter_t) (cf : client_filters) : client_filters :=
  mk_client_filters
    (if negb is_user && neg then l else cf.(negdefaultfilters))
    (if negb is_user && negb neg then l else cf.(posdefaultfilters))
    (if is_user && neg then l else cf.(neguserfilters))
    (if is_user && negb neg then l else cf.(posuserfilters))
    cf.(cf_filter_s) cf.(cf_warned).

Definition negative (filt0 : list Z) : bool := bool_decide (rd filt0 0 = Some ch_dash).

(** [filter_parse] for a client; [mem] is whether there is a cell, [gauge] counts
    the filters of all clients. *)
Definition filter_parse (cosf : spec_float -> spec_float) (mem : bool) (flags : Z) (filt0 : list Z) (is_user : bool)
    (cf : client_filters) (gauge : Z) : option (client_filters * Z * Z) :=
  if is_user && negb (has flags CLFLAGS_USERFILTEROK) then Some (cf, gauge, -1)
  else
    let neg := negative filt0 in
    let chain := chain_of is_user neg cf in
    r ← parse_item cosf filt0 (last_filter chain);
    match r with
    | inl e => Some (cf, gauge, e)
    | inr (true, f) => Some (set_chain is_user neg (add_filter true f chain) cf, gauge, 0)
    | inr (false, f) =>
        if mem then Some (set_chain is_user neg (add_filter false (store_text filt0 f) chain) cf, gauge + 1, 0)
        else Some (cf, gauge, -1)
    end.

(** [filter_parse] without a client, which checks a filter of the configuration. *)
Definition filter_check (cosf : spec_float -> spec_float) (filt0 : list Z) : option Z :=
  r ← parse_item cosf filt0 None; Some (match r with inl e => e | inr _ => 0 end).

(** [filter_free]: what is left of the gauge. *)
Definition filter_free (chain : list filter_t) (gauge : Z) : Z := gauge - zlen chain.

(** ** The filter command *)

Definition FILTER_S_SIZE : Z := 256.

Definition iscntrl (c : Z) : bool := (c <? 32) || (c =? 127).

Definition sanitize_ascii_string (s : list Z) : list Z :=
  map (fun c => if iscntrl c || negb (c <? 128) then ch_us else c) s.

Section Commands.
Context {W : Type} `{ServerOps W}.
Context (cosf : spec_float -> spec_float) (cfg : config) (mem : bool).

Definition filter_command_reply (c : client_t) (in_message : bool) (text : list Z) (x : W) : W * Z :=
  let '(s, _) := snprintf PACKETLEN_MAX text in
  if in_message then messaging_message_client cfg c s x
  else client_printf c (str "# " ++ s ++ [13; 10]) x.

(** The texts of two chains, each followed by a space. *)
Definition filter_texts (fs : list filter_t) : list Z := concat (map (fun f => f.(f_text) ++ [ch_sp]) fs).

Fixpoint parse_filters (flags : Z) (args : list (list Z)) (cf : client_filters) (gauge : Z)
    : option (client_filters * Z) :=
  match args with
  | [] => Some (cf, gauge)
  | a :: rest =>
      '(cf, gauge, _) ← filter_parse cosf mem flags a true cf gauge;
      parse_filters flags rest cf gauge
  end.

(** The user's filters are dropped. *)
Definition drop_user (cf : client_filters) : client_filters :=
  mk_client_filters cf.(negdefaultfilters) cf.(posdefaultfilters) [] [] cf.(cf_filter_s) cf.(cf_warned).

Definition set_filter_s (s : list Z) (cf : client_filters) : client_filters :=
  mk_client_filters cf.(negdefaultfilters) cf.(posdefaultfilters) cf.(neguserfilters) cf.(posuserfilters) s
    cf.(cf_warned).

(** [s] is the buffer from the word [filter] on, [len] the length of the line from
    there. *)
Definition filter_commands (c : client_t) (in_message : bool) (s : list Z) (len : Z) (cf : client_filters) (gauge : Z)
    (x : W) : option (client_filters * Z * W * Z) :=
  let len := len - 6 in
  ch ← rd s 6;
  if (ch =? 63) && (len =? 1) then
    let '(x, rc) := op_write c (str "# filters: " ++ filter_texts cf.(neguserfilters)
                                ++ filter_texts cf.(posuserfilters) ++ [13; 10]) x in
    Some (cf, gauge, x, rc)
  else if negb (ch =? ch_sp) then
    let '(x, rc) := filter_command_reply c in_message
                      (str "Filter: Bad input, no space character after filter command") x in
    Some (cf, gauge, x, rc)
  else
    let len := len - 1 in
    let freed := filter_free cf.(posuserfilters) (filter_free cf.(neguserfilters) gauge) in
    dflt ← strncasecmp_eq s 7 (str "default");
    if dflt && (len =? 7) then
      let '(x, rc) := filter_command_reply c in_message (str "User filters reset to default") x in
      Some (drop_user cf, freed, x, rc)
    else
      b ← rd_range s 7 len;
      let b := cstr b in
      let filter_s := sanitize_ascii_string (take (Z.to_nat (FILTER_S_SIZE - 1)) b) in
      '(cf, gauge) ← parse_filters c.(c_flags) (parse_args b) (set_filter_s filter_s (drop_user cf)) freed;
      let '(x, rc) := filter_command_reply c in_message (str "filter " ++ filter_s ++ str " active") x in
      Some (cf, gauge, x, rc).
End Commands.
