(* ===== verification/FilterSpec.v ===== *)
(** * What filters mean, and that the server decides as they mean

    The specification side of filter.c: lists of callsign patterns, the names of a
    packet each type of filter looks at, and the decision the four chains make
    together, with the invariant of the filters of a client. *)

From S2P Require Import Prelude Table Keyhash Types Cfloat Cfgfile ParseQc ParseAprs ClientHeard Historydb Filterdb.
From S2P Require Import Messaging Dupecheck Incoming Filter FilterParse.
From Stdlib Require Import ZArith Lia Bool String SpecFloat.
From stdpp Require Import base tactics list gmap numbers.
Open Scope Z_scope.

(** ** Patterns *)

(** A callsign, or the first characters of one and an asterisk. *)
Record pattern := mk_pattern { pt_call : list Z; pt_wild : bool }.

Definition pattern_text (p : pattern) : list Z := p.(pt_call) ++ if p.(pt_wild) then [ch_star] else [].

Record pattern_ok (p : pattern) : Prop := {
  pt_len : 1 <= zlen p.(pt_call) <= CALLSIGNLEN_MAX;
  pt_chars : Forall (fun c => c <> 0 /\ c <> ch_slash /\ c <> ch_star) p.(pt_call)
}.

(** The pattern is the key, or, where that is allowed, the start of it; letter
    case does not matter. *)
Definition pattern_matches (wildok : MatchEnum) (key : list Z) (p : pattern) : bool :=
  starts_with (map tolower p.(pt_call)) (map tolower key) &&
  match wildok with
  | MatchExact => zlen p.(pt_call) =? zlen key
  | MatchPrefix => true
  | MatchWild => p.(pt_wild) || (zlen p.(pt_call) =? zlen key)
  end.

(** The stored form of a pattern. *)
Definition pattern_ref (p : pattern) : filter_refcallsign_t :=
  mk_refcallsign p.(pt_call) (if p.(pt_wild) then i8 (Z.lor (zlen p.(pt_call)) WildCard) else zlen p.(pt_call)).

Lemma ref_flags n (w : bool) :
  0 <= n <= CALLSIGNLEN_MAX ->
  let r := if w then i8 (Z.lor n WildCard) else n in
  Z.land r LengthMask = n /\ has r WildCard = w /\ has r NegationFlag = false.
Proof.
  unfold CALLSIGNLEN_MAX. intros Hn. rewrite <- (Z2Nat.id n) by lia.
  assert (Z.to_nat n < 10)%nat as Hk by lia. revert Hk. generalize (Z.to_nat n) as k. intros k Hk.
  do 10 (destruct k as [|k]; [destruct w; vm_compute; auto|]). lia.
Qed.

Lemma existsb_false {A} (P : A -> bool) l : Forall (fun x => P x = false) l -> existsb P l = false.
Proof. induction 1 as [|x l Hx _ IH]; cbn; [done|]. by rewrite Hx. Qed.

Lemma filter_all {A} (P : A -> bool) l : Forall (fun x => P x = true) l -> List.filter P l = l.
Proof. induction 1 as [|x l Hx _ IH]; cbn; [done|]. by rewrite Hx, IH. Qed.

Lemma make_ref_pattern p : pattern_ok p -> make_ref (pattern_text p) false = pattern_ref p.
Proof.
  intros [Hl Hc]. unfold make_ref, pattern_text, pattern_ref.
  assert (List.filter (fun c => negb (c =? ch_star)) (pt_call p) = pt_call p) as Hf
    by (apply filter_all; eapply Forall_impl; [|exact Hc]; cbn; lia).
  assert (existsb (fun c => c =? ch_star) (pt_call p) = false) as He
    by (apply existsb_false; eapply Forall_impl; [|exact Hc]; cbn; lia).
  rewrite List.filter_app, existsb_app, Hf, He.
  assert (take (Z.to_nat CALLSIGNLEN_MAX) (pt_call p) = pt_call p) as Ht
    by (apply firstn_all2; unfold zlen, CALLSIGNLEN_MAX in *; lia).
  destruct (pt_wild p); cbn [List.filter existsb negb orb Z.eqb]; [|rewrite app_nil_r]; cbn; rewrite ?app_nil_r, Ht; done.
Qed.

(** Comparing with a callsign without NULs looks at all of it. *)
Lemma strncasecmp_pad_spec a b :
  Forall (fun c => c <> 0) b -> strncasecmp_pad a b (length b) = starts_with (map tolower b) (map tolower a).
Proof.
  intros Hb. revert a. induction Hb as [|y b Hy _ IH]; intros a; cbn [length strncasecmp_pad map starts_with]; [done|].
  assert (tolower y <> 0) as Hy' by (unfold tolower, isupper; split_if; lia).
  destruct a as [|x a]; cbn [hd tl map].
  - change (tolower 0) with 0. destruct (Z.eqb_spec 0 (tolower y)); [lia|done].
  - rewrite IH, Z.eqb_sym. destruct (Z.eqb_spec (tolower y) (tolower x)) as [E|]; cbn [andb]; [|done].
    destruct (Z.eqb_spec x 0) as [->|]; cbn [orb]; [by change (tolower 0) with 0 in E|done].
Qed.

Lemma starts_with_len n h : starts_with n h = true -> zlen n <= zlen h.
Proof. intros H. apply starts_with_spec in H as [t ->]. rewrite zlen_app. pose proof (zlen_nonneg t). lia. Qed.

Lemma zlen_map {A B} (f : A -> B) l : zlen (map f l) = zlen l.
Proof. unfold zlen. by rewrite length_map. Qed.

Lemma ref_matches_pattern wildok key p :
  pattern_ok p -> ref_matches wildok key (zlen key) (pattern_ref p) = pattern_matches wildok key p.
Proof.
  intros [Hl Hc]. unfold ref_matches, pattern_matches, pattern_ref. cbn [rc_reflen rc_callsign].
  destruct (ref_flags (zlen (pt_call p)) (pt_wild p)) as (H1 & H2 & _); [lia|]. cbv zeta in H1, H2. rewrite H1, H2.
  assert (Z.to_nat (zlen (pt_call p)) = length (pt_call p)) as -> by (unfold zlen; lia).
  rewrite strncasecmp_pad_spec by (eapply Forall_impl; [|exact Hc]; cbn; tauto).
  destruct (starts_with (map tolower (pt_call p)) (map tolower key)) eqn:E;
    [|destruct wildok; by rewrite ?andb_false_r].
  apply starts_with_len in E. rewrite !zlen_map in E.
  destruct wildok; cbn [andb]; rewrite ?andb_true_r; try done;
    destruct (Z.gtb_spec (zlen (pt_call p)) (zlen key)), (Z.eqb_spec (zlen (pt_call p)) 0); done || lia.
Qed.

Lemma match_refs_patterns wildok key ps pre :
  Forall pattern_ok ps ->
  match_refs (length ps) wildok key (zlen key) (pre ++ map pattern_ref ps) (length pre) =
  Some (if existsb (pattern_matches wildok key) ps then 1 else 0).
Proof.
  intros Hps. revert pre. induction Hps as [|p ps Hp _ IH]; intros pre; cbn [length match_refs map existsb]; [done|].
  rewrite list_lookup_middle by done. cbn [mbind option_bind]. rewrite ref_matches_pattern by done.
  destruct (pattern_matches wildok key p); cbn [orb].
  - destruct (ref_flags (zlen (pt_call p)) (pt_wild p)) as (_ & _ & H3); [destruct Hp; lia|]. cbn [pattern_ref rc_reflen].
    cbv zeta in H3. by rewrite H3.
  - specialize (IH (pre ++ [pattern_ref p])). rewrite <- app_assoc, length_app in IH. cbn in IH.
    by rewrite Nat.add_1_r in IH.
Qed.

(** A filter of letter [t] on the patterns [ps]. *)
Record set_filter (t : Z) (ps : list pattern) (f : filter_t) : Prop := {
  sf_type : f.(f_type) = t;
  sf_names : f.(f_names) = RefCallsigns (map pattern_ref ps);
  sf_num : f.(f_numnames) = zlen ps;
  sf_neg : f.(f_negation) = false;
  sf_pats : Forall pattern_ok ps
}.

Lemma set_filter_match t ps f wildok key :
  set_filter t ps f ->
  filter_match_on_callsignset key (zlen key) f wildok =
  Some (if existsb (pattern_matches wildok key) ps then 1 else 0).
Proof.
  intros [_ Hn Hnum _ Hp]. unfold filter_match_on_callsignset. rewrite Hn, Hnum. unfold zlen at 1.
  rewrite Nat2Z.id. by apply (match_refs_patterns wildok key ps []).
Qed.

(** ** The text of a filter on callsigns *)

(** [b/OH7LZB/OH2*], with a dash before it when it is a negative filter. *)
Definition set_text (neg : bool) (t : Z) (ps : list pattern) : list Z :=
  (if neg then [ch_dash] else []) ++ t :: concat (map (fun p => ch_slash :: pattern_text p) ps).

(** The letters of these filters; prefix filters have no asterisks. *)
Definition set_letter (t : Z) (ps : list pattern) : bool :=
  let l := tolower t in
  existsb (fun x => x =? l) (str "bdegou") || ((l =? 112) && forallb (fun p => negb p.(pt_wild)) ps).

Lemma pattern_text_chars p : pattern_ok p -> Forall (fun c => c <> ch_slash) (pattern_text p).
Proof.
  intros [_ Hc]. unfold pattern_text. apply Forall_app. split; [eapply Forall_impl; [|exact Hc]; cbn; tauto|].
  destruct (pt_wild p); by repeat constructor.
Qed.

Lemma pattern_text_star p : pattern_ok p -> existsb (fun c => c =? ch_star) (pattern_text p) = pt_wild p.
Proof.
  intros [_ Hc]. unfold pattern_text. rewrite existsb_app, existsb_false by (eapply Forall_impl; [|exact Hc]; cbn; lia).
  by destruct (pt_wild p).
Qed.

Lemma cut_slash_word w rest : Forall (fun c => c <> ch_slash) w -> cut_slash (w ++ ch_slash :: rest) = (w, rest).
Proof.
  induction 1 as [|c w Hc _ IH]; cbn [app cut_slash]; [done|]. destruct (Z.eqb_spec c ch_slash); [done|]. by rewrite IH.
Qed.
Lemma cut_slash_end w : Forall (fun c => c <> ch_slash) w -> cut_slash w = (w, []).
Proof. induction 1 as [|c w Hc _ IH]; cbn [cut_slash]; [done|]. destruct (Z.eqb_spec c ch_slash); [done|]. by rewrite IH. Qed.

(** The patterns behind the first slash. *)
Definition set_body (ps : list pattern) : list Z := (cut_slash (concat (map (fun p => ch_slash :: pattern_text p) ps))).2.

Lemma set_body_cons p ps : set_body (p :: ps) = pattern_text p ++ concat (map (fun p => ch_slash :: pattern_text p) ps).
Proof. done. Qed.

Lemma parse_refs_set wildok n p ps :
  Forall pattern_ok (p :: ps) ->
  (match wildok with MatchWild => true | _ => forallb (fun p => negb p.(pt_wild)) (p :: ps) end) = true ->
  (length (set_body (p :: ps)) <= n)%nat ->
  parse_refs n wildok false (set_body (p :: ps)) = Some (map pattern_ref (p :: ps)).
Proof.
  revert n p. induction ps as [|q ps IH]; intros n p Hps Hw Hn; rewrite set_body_cons in *;
    apply Forall_cons_1 in Hps as [Hp Hps]; pose proof (pattern_text_chars p Hp) as Hc;
    (assert (exists c t, pattern_text p = c :: t) as (c & t & Et)
       by (destruct Hp as [Hl _]; unfold pattern_text; destruct (pt_call p); [rewrite zlen_nil in Hl; lia|by do 2 eexists]));
    (destruct n as [|n]; [rewrite Et in Hn; cbn in Hn; lia|]);
    (assert (existsb (fun c => c =? ch_star) (pattern_text p) && negb match wildok with MatchWild => true | _ => false end
             = false) as Hstar
       by (rewrite pattern_text_star by done; destruct wildok; [..|by rewrite andb_false_r];
           cbn [forallb] in Hw; apply andb_true_iff in Hw as [Hw _]; by destruct (pt_wild p))).
  - cbn [concat map]. rewrite app_nil_r. pose proof (cut_slash_end _ Hc) as Hcut. rewrite Et in Hcut |- *.
    cbn [parse_refs]. rewrite Hcut, <- Et, Hstar, make_ref_pattern by done. by destruct n.
  - cbn [concat map] in *.
    pose proof (cut_slash_word _ (pattern_text q ++ concat (map (fun p => ch_slash :: pattern_text p) ps)) Hc) as Hcut.
    rewrite Et in Hcut |- *. cbn [parse_refs app] in *. rewrite Hcut, <- Et, Hstar.
    rewrite <- set_body_cons, IH; [|done| |].
    + cbn [mbind option_bind map]. by rewrite make_ref_pattern.
    + destruct wildok; [..|done]; cbn [forallb] in Hw |- *; apply andb_true_iff in Hw; tauto.
    + rewrite Et in Hn. cbn in Hn. rewrite length_app in Hn. cbn [length] in Hn. rewrite set_body_cons. lia.
Qed.

(** What the parser does with such a text, in terms of the loop over patterns. *)
Lemma parse_item_set cosf neg t ps ff :
  set_letter t ps = true ->
  exists wildok,
    (match wildok with MatchWild => true | _ => forallb (fun p => negb p.(pt_wild)) ps end) = true /\
    parse_item cosf (set_text neg t ps) ff =
      filter_parse_one_callsignset (set_text neg t ps) (zero_filter t) ff wildok /\
    (cut_slash (skip_minus (set_text neg t ps))).2 = set_body ps.
Proof.
  intros Ht. unfold set_letter in Ht.
  assert (t = 66 \/ t = 98 \/ t = 68 \/ t = 100 \/ t = 69 \/ t = 101 \/ t = 71 \/ t = 103 \/ t = 79 \/ t = 111 \/
          t = 85 \/ t = 117 \/ (t = 80 \/ t = 112) /\ forallb (fun p => negb (pt_wild p)) ps = true) as H.
  { change (str "bdegou") with [98; 100; 101; 103; 111; 117] in Ht. cbn [existsb] in Ht.
    apply orb_true_iff in Ht as [Ht|[Ht ->]%andb_true_iff]; unfold tolower, isupper in Ht; split_if_in Ht; lia. }
  unfold set_text, set_body. set (b := concat _).
  assert (forall c, c <> ch_slash -> (cut_slash (c :: b)).2 = (cut_slash b).2) as Hcut.
  { intros c Hc. cbn [cut_slash]. destruct (Z.eqb_spec c ch_slash); [done|]. by destruct (cut_slash b). }
  repeat (destruct H as [->|H]; [exists MatchWild; destruct neg; (split; [done|split; [done|by apply Hcut]])|]).
  destruct H as [[->| ->] Hw]; exists MatchPrefix; destruct neg; (split; [done|split; [done|by apply Hcut]]).
Qed.

(** The text is in the built-in buffer. *)
Definition in_buffer (f : filter_t) : Prop := f.(f_text) = f.(f_textbuf) /\ f.(f_heap) = false.

Section SetParse.
Context (cosf : spec_float -> spec_float) (neg : bool) (t : Z) (ps : list pattern).
Context (Ht : set_letter t ps = true) (Hne : ps <> []) (Hps : Forall pattern_ok ps).

Lemma set_body_nonempty : set_body ps <> [].
Proof.
  destruct ps as [|p qs]; [done|]. rewrite set_body_cons. apply Forall_cons_1 in Hps as [[Hl _] _]. unfold pattern_text.
  destruct (pt_call p); [rewrite zlen_nil in Hl; lia|done].
Qed.

Lemma parse_refs_all wildok :
  (match wildok with MatchWild => true | _ => forallb (fun p => negb p.(pt_wild)) ps end) = true ->
  parse_refs (length (set_body ps)) wildok false (set_body ps) = Some (map pattern_ref ps).
Proof. destruct ps as [|p qs]; [done|]. intros Hw. by apply parse_refs_set. Qed.

Lemma zlen_refs (l : list pattern) : zlen (map pattern_ref l) = zlen l.
Proof. unfold zlen. by rewrite length_map. Qed.

Lemma i16_small z : 0 <= z < 2 ^ 15 -> i16 z = z.
Proof. intros Hz. unfold i16. rewrite Z.mod_small; lia. Qed.

Lemma parse_item_fresh ff :
  zlen ps < 2 ^ 15 -> (forall f, ff = Some f -> f.(f_type) <> t) ->
  exists f, parse_item cosf (set_text neg t ps) ff = Some (inr (false, f)) /\ set_filter t ps f.
Proof.
  intros Hz Hff. destruct (parse_item_set cosf neg t ps ff Ht) as (w & Hw & -> & Hb).
  unfold filter_parse_one_callsignset. rewrite Hb.
  rewrite bool_decide_eq_false_2 by exact set_body_nonempty. cbn [f_negation zero_filter].
  rewrite parse_refs_all by done. rewrite zlen_refs, i16_small by (split; [apply zlen_nonneg|done]).
  destruct ff as [ff|]; [|by eexists].
  destruct (Z.eqb_spec (f_type ff) (f_type (zero_filter t))) as [E|]; [by destruct (Hff ff)|by eexists].
Qed.

Lemma extend_text_in filt f :
  in_buffer f -> exists text buf heap, extend_text filt f = Some (text, buf, heap).
Proof.
  intros [E _]. unfold extend_text. rewrite E, !zlen_app.
  change (zlen [ch_sp]) with 1. repeat split_if; try lia; by do 3 eexists.
Qed.

Lemma parse_item_more ps0 f0 :
  set_filter t ps0 f0 -> in_buffer f0 -> zlen (ps0 ++ ps) < 2 ^ 15 ->
  exists f, parse_item cosf (set_text neg t ps) (Some f0) = Some (inr (true, f)) /\ set_filter t (ps0 ++ ps) f.
Proof.
  intros [Ht0 Hn0 Hz0 Hg0 Hp0] Htext Hz. destruct (parse_item_set cosf neg t ps (Some f0) Ht) as (w & Hw & -> & Hb).
  unfold filter_parse_one_callsignset. rewrite Hb.
  rewrite bool_decide_eq_false_2 by exact set_body_nonempty. cbn [f_negation zero_filter f_type].
  rewrite parse_refs_all by done. rewrite Ht0, Z.eqb_refl, Hn0, Hz0.
  destruct (extend_text_in (set_text neg t ps) f0 Htext) as (text & buf & heap & ->). cbn [mbind option_bind].
  eexists. split; [reflexivity|].
  assert (take (Z.to_nat (zlen ps0)) (map pattern_ref ps0) = map pattern_ref ps0) as ->
    by (apply firstn_all2; rewrite length_map; unfold zlen; lia).
  rewrite <- map_app, zlen_refs, i16_small by (split; [apply zlen_nonneg|done]).
  split; try done. by apply Forall_app.
Qed.
End SetParse.

Lemma set_text_negative neg t ps : set_letter t ps = true -> negative (set_text neg t ps) = neg.
Proof.
  intros Ht. unfold negative, set_text. destruct neg; [done|]. apply bool_decide_eq_false_2. intros [= ->]. done.
Qed.

Lemma store_text_set t ps text f : set_filter t ps f -> set_filter t ps (store_text text f).
Proof. intros [H1 H2 H3 H4 H5]. unfold store_text. split_if; by split. Qed.

(** Filters on callsigns mean what is written: for every letter and list of
    patterns, a client's filter of the text [b/call/call*] is appended to the chain the
    sign asks for and counted, keeps its text, and from then on matches a
    callsign exactly when one of the patterns is the callsign, or a first part of it where
    that is allowed, in any letter case. *)
Theorem set_filter_roundtrip cosf flags is_user neg t ps cf gauge :
  (is_user = true -> has flags CLFLAGS_USERFILTEROK = true) ->
  set_letter t ps = true -> ps <> [] -> Forall pattern_ok ps -> zlen ps < 2 ^ 15 ->
  (forall f, last_filter (chain_of is_user neg cf) = Some f -> f.(f_type) <> t) ->
  exists f,
    filter_parse cosf true flags (set_text neg t ps) is_user cf gauge =
      Some (set_chain is_user neg (chain_of is_user neg cf ++ [f]) cf, gauge + 1, 0) /\
    f.(f_text) = set_text neg t ps /\ f.(f_type) = t /\
    forall wildok key, filter_match_on_callsignset key (zlen key) f wildok =
      Some (if existsb (pattern_matches wildok key) ps then 1 else 0).
Proof.
  intros Hok Ht Hne Hps Hz Hff. unfold filter_parse.
  destruct (is_user && negb (has flags CLFLAGS_USERFILTEROK)) eqn:E.
  { apply andb_true_iff in E as [E1 E2]. by rewrite Hok in E2. }
  rewrite set_text_negative by done.
  destruct (parse_item_fresh cosf neg t ps Ht Hne Hps _ Hz Hff) as (f & -> & Hf). cbn [mbind option_bind].
  eexists. split; [reflexivity|]. apply (store_text_set _ _ (set_text neg t ps)) in Hf.
  split; [by unfold store_text; split_if|]. split; [by destruct Hf|]. intros wildok key. by apply (set_filter_match t).
Qed.

(** A second filter of the same letter extends the last one of the chain instead
    of being added: the chain keeps its length, the gauge its value, and the
    filter then matches what either text matched. *)
Theorem set_filter_extends cosf flags is_user neg t ps0 ps cf gauge chain f0 :
  (is_user = true -> has flags CLFLAGS_USERFILTEROK = true) ->
  set_letter t ps = true -> ps <> [] -> Forall pattern_ok ps -> zlen (ps0 ++ ps) < 2 ^ 15 ->
  chain_of is_user neg cf = chain ++ [f0] -> set_filter t ps0 f0 -> in_buffer f0 ->
  exists f,
    filter_parse cosf true flags (set_text neg t ps) is_user cf gauge =
      Some (set_chain is_user neg (chain ++ [f]) cf, gauge, 0) /\
    forall wildok key, filter_match_on_callsignset key (zlen key) f wildok =
      Some (if existsb (pattern_matches wildok key) ps0 || existsb (pattern_matches wildok key) ps then 1 else 0).
Proof.
  intros Hok Ht Hne Hps Hz Hch Hf0 Htext. unfold filter_parse.
  destruct (is_user && negb (has flags CLFLAGS_USERFILTEROK)) eqn:E.
  { apply andb_true_iff in E as [E1 E2]. by rewrite Hok in E2. }
  rewrite set_text_negative by done. rewrite Hch.
  assert (last_filter (chain ++ [f0]) = Some f0) as ->.
  { unfold last_filter. rewrite length_app, list_lookup_middle; [done|cbn; lia]. }
  destruct (parse_item_more cosf neg t ps Ht Hne Hps ps0 f0 Hf0 Htext Hz) as (f & -> & Hf). cbn [mbind option_bind].
  exists f. unfold add_filter. rewrite length_app, Nat.add_sub, take_app_length. split; [done|].
  intros wildok key. rewrite (set_filter_match t (ps0 ++ ps)) by done. by rewrite existsb_app.
Qed.

(** ** The names in a packet *)

Definition src_call (pb : pbuf_t) : list Z := slice pb.(pb_data) 0 pb.(pb_srccall_end).
Definition src_name (pb : pbuf_t) : list Z := slice pb.(pb_data) pb.(pb_srcname) pb.(pb_srcname_len).
Definition is_object (pb : pbuf_t) : bool := has pb.(pb_packettype) (Z.lor T_OBJECT T_ITEM).

(** The names a filter of a letter looks at: the sender and, inside a third-party
    packet, the station that sent it, the igate, the recipient of a message, the
    object, the destination callsign. *)
Definition looks_at (t : Z) (pb : pbuf_t) : list (list Z) :=
  let l := tolower t in
  if (l =? 98) || (l =? 112) then
    src_call pb :: if negb (pb.(pb_srcname) =? 0) && negb (is_object pb) then [src_name pb] else []
  else if l =? 101 then
    if pb.(pb_entrycall_len) <? 1 then [] else [slice pb.(pb_data) (pb.(pb_qconst_start) + 4) pb.(pb_entrycall_len)]
  else if l =? 103 then
    match pb.(pb_dstname) with
    | Some d => if has pb.(pb_packettype) T_MESSAGE && (0 <? pb.(pb_dstname_len))
                then [slice pb.(pb_data) d pb.(pb_dstname_len)] else []
    | None => []
    end
  else if l =? 111 then
    if is_object pb && (0 <? pb.(pb_srcname_len)) then [src_name pb] else []
  else [slice pb.(pb_data) (pb.(pb_srccall_end) + 1) (Z.min pb.(pb_dstcall_len) CALLSIGNLEN_MAX)].

Definition match_mode (t : Z) : MatchEnum := if tolower t =? 112 then MatchPrefix else MatchWild.

Section Names.
Context (pb : pbuf_t) (Hq : queue_ok pb).

(** The header, its names and the information field lie in the buffer. *)
Lemma queue_bounds :
  0 <= pb.(pb_srccall_end) <= CALLSIGNLEN_MAX /\ 0 <= pb.(pb_dstcall_len) /\
  pb.(pb_srccall_end) + 1 + pb.(pb_dstcall_len) < pb.(pb_qconst_start) /\
  pb.(pb_qconst_start) + 4 < pb.(pb_info_start) <= zlen pb.(pb_data).
Proof.
  destruct Hq as [_ [H1 [H2 H3] [H4 _] _ _ _] _ H5 _ _]. apply rd_Some in H3. lia.
Qed.

Context (t : Z) (ps : list pattern) (f : filter_t) (Hf : set_filter t ps f).

(** A key taken from the buffer is matched like a pattern says. *)
Lemma match_at off n wildok :
  0 <= off -> 0 <= n <= CALLSIGNLEN_MAX -> off + n <= zlen pb.(pb_data) ->
  (key ← ref_key pb.(pb_data) off n; filter_match_on_callsignset key n f wildok) =
  Some (if existsb (pattern_matches wildok (slice pb.(pb_data) off n)) ps then 1 else 0).
Proof.
  intros Ho Hn Hl. unfold ref_key. destruct (Z.leb_spec n (CALLSIGNLEN_MAX + 1)); [|lia].
  rewrite rd_range_in by lia. cbn [mbind option_bind].
  rewrite <- (set_filter_match t ps f) by done. by rewrite zlen_slice by lia.
Qed.

Lemma clip_small n : n <= CALLSIGNLEN_MAX -> clip_call n = n.
Proof. intros Hn. unfold clip_call. split_if; [lia|done]. Qed.
Lemma clip_min n : clip_call n = Z.min n CALLSIGNLEN_MAX.
Proof. unfold clip_call. split_if; lia. Qed.

Lemma src_matches wildok :
  filter_process_src wildok pb f =
  Some (if existsb (fun name => existsb (pattern_matches wildok name) ps)
             (src_call pb :: if negb (pb.(pb_srcname) =? 0) && negb (is_object pb) then [src_name pb] else [])
        then 1 else 0).
Proof.
  pose proof queue_bounds as (H1 & H2 & H3 & H4). destruct (qk_names _ Hq) as [[Hs1 [Hs2 Hs3]] _ _ _ _].
  unfold filter_process_src. rewrite !clip_small by lia. cbn [existsb].
  assert (forall {A B} (m : option A) (g : A -> option B) (k : B -> option Z),
            (key ← m; r ← g key; k r) = (r ← (key ← m; g key); k r)) as Hassoc by (by intros ? ? [x|]).
  rewrite Hassoc. rewrite (match_at 0), (match_at (pb_srcname pb)) by lia. fold (src_call pb). cbn [mbind option_bind].
  destruct (existsb _ ps); cbn [Z.eqb andb orb]; [done|].
  unfold is_object. destruct (negb (pb_srcname pb =? 0) && _); cbn [existsb]; [|done]. by rewrite orb_false_r.
Qed.

Lemma set_filter_looks sinf atan2f cfg tick c db hdb :
  existsb (fun x => x =? tolower t) (str "begopu") = true ->
  filter_process_one sinf atan2f cfg tick c db pb f hdb =
  Some (if existsb (fun name => existsb (pattern_matches (match_mode t) name) ps) (looks_at t pb) then 1 else 0, f, hdb).
Proof.
  intros Hl. unfold filter_process_one, looks_at, match_mode. rewrite (sf_type _ _ _ Hf). generalize dependent (tolower t).
  intros l Hl. change (str "begopu") with [98; 101; 103; 111; 112; 117] in Hl. cbn [existsb] in Hl.
  pose proof queue_bounds as (H1 & H2 & H3 & H4).
  destruct (qk_names _ Hq) as [[Hs1 [Hs2 Hs3]] _ Hd _ _], (qk_entry _ Hq) as [He1 He2].
  assert (l = 98 \/ l = 101 \/ l = 103 \/ l = 111 \/ l = 112 \/ l = 117) as H by lia. clear Hl.
  repeat destruct H as [->|H]; [..|subst l]; cbn [Z.eqb Pos.eqb orb].
  - unfold filter_process_one_b. by rewrite src_matches.
  - unfold filter_process_one_e. split_if; [done|]. rewrite match_at by lia. cbn [existsb mbind option_bind].
    by rewrite orb_false_r.
  - unfold filter_process_one_g. destruct (has (pb_packettype pb) T_MESSAGE); [|by destruct (pb_dstname pb)].
    cbn [negb andb]. destruct (pb_dstname pb) as [d|].
    + destruct Hd as (D1 & D2 & D3 & _).
      destruct (Z.ltb_spec (pb_dstname_len pb) 1), (Z.ltb_spec 0 (pb_dstname_len pb)); [lia|done| |lia].
      cbn [mbind option_bind]. rewrite match_at by lia. cbn [existsb mbind option_bind]. by rewrite orb_false_r.
    + by rewrite Hd.
  - unfold filter_process_one_o, is_object. destruct (has (pb_packettype pb) _); [|done]. cbn [negb andb].
    destruct (Z.ltb_spec (pb_srcname_len pb) 1), (Z.ltb_spec 0 (pb_srcname_len pb)); [lia|done| |lia].
    cbn [orb]. split_if; [lia|]. rewrite match_at by lia. cbn [existsb mbind option_bind]. by rewrite orb_false_r.
  - unfold filter_process_one_p. by rewrite src_matches.
  - unfold filter_process_one_u. rewrite clip_min, match_at by lia. cbn [existsb mbind option_bind]. by rewrite orb_false_r.
Qed.
End Names.

(** Each filter on callsigns looks at its own part of a packet: for every packet
    of the queue, a filter of letter [b], [e], [g], [o], [p] or [u] answers 1 exactly
    when one of its patterns matches one of the names [looks_at] gives, and 0
    otherwise, without changing anything. *)
Theorem set_filter_meaning sinf atan2f cfg tick c db pb t ps f hdb :
  queue_ok pb -> set_filter t ps f -> existsb (fun x => x =? tolower t) (str "begopu") = true ->
  filter_process_one sinf atan2f cfg tick c db pb f hdb =
  Some (if existsb (fun name => existsb (pattern_matches (match_mode t) name) ps) (looks_at t pb) then 1 else 0, f, hdb).
Proof. intros Hq Hf Hl. by apply set_filter_looks. Qed.

(** ** Digipeaters *)

(** A callsign of the path, with an asterisk when it was used up to there. *)
Record hop := mk_hop { hp_call : list Z; hp_star : bool }.

Definition hop_text (h : hop) : list Z := h.(hp_call) ++ if h.(hp_star) then [ch_star] else [].
Definition path_text (hs : list hop) : list Z := concat (map (fun h => hop_text h ++ [ch_comma]) hs).

Record hop_ok (h : hop) : Prop := {
  hp_len : 1 <= zlen h.(hp_call) <= CALLSIGNLEN_MAX;
  hp_chars : Forall (fun c => c <> ch_comma /\ c <> ch_star) h.(hp_call)
}.

Definition hop_matches (ps : list pattern) (h : hop) : bool := existsb (pattern_matches MatchWild h.(hp_call)) ps.

(** The first digipeater that matches, or one behind it, has an asterisk. *)
Fixpoint digi_wanted (n : nat) (ps : list pattern) (hs : list hop) : bool :=
  match n, hs with
  | S n, h :: t => if hop_matches ps h then hp_star h || existsb hp_star (take n t) else digi_wanted n ps t
  | _, _ => false
  end.

(** Which is that one that matches, or one behind it, was used. *)
Lemma digi_wanted_spec n ps hs :
  digi_wanted n ps hs = true <->
  exists a h b, take n hs = a ++ h :: b /\ hop_matches ps h = true /\ existsb hp_star (h :: b) = true.
Proof.
  revert hs. induction n as [|n IH]; intros [|h t]; cbn [digi_wanted].
  1,2,3: split; [done|]. 1,2,3: intros ([|? ?] & ? & ? & ? & _); done.
  rewrite firstn_cons. destruct (hop_matches ps h) eqn:E.
  - split; [intros H; by exists [], h, (take n t)|].
    intros ([|x a] & k & b & Hab & Hk & Hs); cbn in Hab; simplify_eq; [done|].
    cbn [existsb] in Hs. match goal with H : take n t = _ |- _ => rewrite H end.
    rewrite existsb_app. cbn [existsb]. rewrite Hs. by rewrite !orb_true_r.
  - rewrite IH. split.
    + intros (a & k & b & Hab & Hk). exists (h :: a), k, b. by rewrite Hab.
    + intros ([|x a] & k & b & Hab & Hk & Hs); cbn in Hab; simplify_eq; [congruence|by exists a, k, b].
Qed.

Lemma via_end_at n s d q i l :
  i <= l -> l - i <= Z.of_nat n -> d + l <= q -> 0 <= d + i ->
  (forall j, i <= j < l -> exists c, rd s (d + j) = Some c /\ c <> ch_comma) -> rd s (d + l) = Some ch_comma ->
  via_end n s d q i = Some l.
Proof.
  revert i. induction n as [|n IH]; intros i Hi Hn Hq Hd Hc Hl; cbn [via_end]; [f_equal; lia|].
  split_if; [|lia]. destruct (Z.eq_dec i l) as [->|Hne].
  - rewrite Hl. cbn [mbind option_bind]. by rewrite Z.eqb_refl.
  - destruct (Hc i) as (c & Hrd & Hcc); [lia|]. rewrite Hrd. cbn [mbind option_bind].
    destruct (Z.eqb_spec c ch_comma); [done|]. apply IH; try done; try lia. intros j Hj. apply Hc. lia.
Qed.

(** One callsign of a path that starts at [zlen pre]. *)
Section Hop.
Context (pre : list Z) (h : hop) (rest : list Z) (Hh : hop_ok h).
Abbreviation s := (pre ++ hop_text h ++ ch_comma :: rest).
Abbreviation l := (zlen (hop_text h)).

Lemma hop_len : l = zlen h.(hp_call) + (if h.(hp_star) then 1 else 0) /\ 1 <= l <= CALLSIGNLEN_MAX + 1.
Proof.
  destruct Hh as [Hl _]. unfold hop_text, CALLSIGNLEN_MAX in *. rewrite zlen_app.
  destruct (hp_star h); [change (zlen [ch_star]) with 1|rewrite zlen_nil]; lia.
Qed.

Lemma hop_rd j : 0 <= j < l -> rd s (zlen pre + j) = rd (hop_text h) j.
Proof. intros Hj. rewrite rd_app_r, rd_app_l by lia. f_equal. lia. Qed.

Lemma hop_char j c : rd (hop_text h) j = Some c -> c <> ch_comma.
Proof.
  intros Hr. apply rd_Some in Hr as Hi. unfold rd in Hr. destruct (0 <=? j); [|done]. apply list_elem_of_lookup_2 in Hr.
  destruct Hh as [_ Hc]. unfold hop_text in Hr. apply elem_of_app in Hr as [Hr|Hr].
  - rewrite list.Forall_forall in Hc. by apply Hc.
  - destruct (hp_star h); [|by apply not_elem_of_nil in Hr]. by apply list_elem_of_singleton in Hr as ->.
Qed.

Lemma hop_comma : over_comma_sep s (zlen pre) = Some (zlen pre).
Proof.
  pose proof hop_len as [_ Hl]. destruct (rd_in (hop_text h) 0) as [c Hc]; [lia|].
  unfold over_comma_sep. rewrite <- (Z.add_0_r (zlen pre)) at 1. rewrite hop_rd, Hc by lia. cbn [mbind option_bind].
  apply hop_char in Hc. by destruct (Z.eqb_spec c ch_comma).
Qed.

Lemma hop_via q : zlen pre + l <= q -> via_len s (zlen pre) q = Some l.
Proof.
  intros Hq. pose proof hop_len as [_ Hl]. pose proof (zlen_nonneg pre). unfold via_len. apply via_end_at; [lia..| |].
  - intros j Hj. rewrite hop_rd by lia. destruct (rd_in (hop_text h) j) as [c Hc]; [lia|].
    exists c. split; [done|by apply hop_char in Hc].
  - rewrite rd_app_r, rd_app_r by lia. by replace (_ - _ - _) with 0 by lia.
Qed.

Lemma hop_last : exists c, rd s (zlen pre + l - 1) = Some c /\ (c =? ch_star) = hp_star h.
Proof.
  pose proof hop_len as [Hl Hl']. replace (zlen pre + l - 1) with (zlen pre + (l - 1)) by lia. rewrite hop_rd by lia.
  unfold hop_text in *. destruct Hh as [Hc1 Hc2]. destruct (hp_star h).
  - exists ch_star. split; [|done]. rewrite Hl. change (if true then 1 else 0) with 1.
    rewrite rd_app_r by lia. by replace (_ - _) with 0 by lia.
  - rewrite app_nil_r in *. destruct (rd_in (hp_call h) (zlen (hp_call h) - 1)) as [c Hc]; [lia|].
    exists c. split; [done|]. unfold rd in Hc. destruct (0 <=? _); [|done]. apply list_elem_of_lookup_2 in Hc.
    rewrite list.Forall_forall in Hc2. specialize (Hc2 _ Hc). lia.
Qed.

Lemma hop_key : ref_key s (zlen pre) (zlen h.(hp_call)) = Some h.(hp_call).
Proof.
  destruct Hh as [Hl _]. unfold ref_key. split_if; [|lia]. unfold hop_text. rewrite <- app_assoc. apply rd_range_mid.
Qed.

Lemma hop_star : exists c, rd s (zlen pre + zlen h.(hp_call)) = Some c /\ (c =? ch_star) = hp_star h.
Proof.
  exists (if hp_star h then ch_star else ch_comma). unfold hop_text. rewrite <- app_assoc, (app_assoc pre), <- zlen_app.
  destruct (hp_star h); cbn [app]; by rewrite rd_mid.
Qed.
End Hop.

(** A path from offset [zlen pre] on; [p] is there or at the comma before. *)
Definition at_hop (pre : list Z) (p : Z) : Prop :=
  p = zlen pre \/ p = zlen pre - 1 /\ rd pre p = Some ch_comma.

Lemma path_text_cons h hs rest :
  path_text (h :: hs) ++ rest = hop_text h ++ ch_comma :: path_text hs ++ rest.
Proof. unfold path_text. cbn [map concat]. by rewrite <- !app_assoc. Qed.

Lemma over_comma_at pre h rest p :
  hop_ok h -> at_hop pre p -> over_comma_sep (pre ++ hop_text h ++ ch_comma :: rest) p = Some (zlen pre).
Proof.
  intros Hh [->|[-> Hc]]; [by apply hop_comma|]. unfold over_comma_sep. apply rd_Some in Hc as Hi.
  rewrite rd_app_l, Hc by lia. cbn. f_equal. lia.
Qed.

Lemma at_hop_next pre h : at_hop (pre ++ hop_text h ++ [ch_comma]) (zlen pre + zlen (hop_text h)).
Proof.
  right. rewrite !zlen_app. change (zlen [ch_comma]) with 1. split; [lia|].
  rewrite app_assoc, <- zlen_app. apply rd_mid.
Qed.

Lemma path_shift (pre : list Z) h (rest : list Z) :
  pre ++ hop_text h ++ ch_comma :: rest = (pre ++ hop_text h ++ [ch_comma]) ++ rest.
Proof. by rewrite <- !app_assoc. Qed.

Lemma zlen_path_cons h hs : zlen (path_text (h :: hs)) = zlen (hop_text h) + 1 + zlen (path_text hs).
Proof. rewrite <- (app_nil_r (path_text (h :: hs))), path_text_cons, zlen_app, zlen_cons, app_nil_r. lia. Qed.

Lemma digi_star_path n hs pre post p :
  Forall hop_ok hs -> at_hop pre p ->
  digi_star n (pre ++ path_text hs ++ post) p (zlen pre + zlen (path_text hs) - 1) =
  Some (if existsb hp_star (take n hs) then 1 else 0).
Proof.
  intros Hhs. revert n pre p. induction Hhs as [|h hs Hh Hhs IH]; intros n pre p Hp.
  - change (zlen (path_text [])) with 0. rewrite take_nil. destruct n; cbn [digi_star existsb];
      (destruct (Z.ltb_spec p (zlen pre + 0 - 1)); [|done]; destruct Hp as [|[? _]]; lia).
  - pose proof (hop_len h Hh) as [_ Hl]. rewrite path_text_cons, zlen_path_cons. set (q := zlen pre + _ - 1).
    pose proof (zlen_nonneg (path_text hs)).
    assert (p < q) as Hpq by (unfold q; destruct Hp as [|[? _]]; lia).
    destruct n as [|n]; cbn [digi_star]; (destruct (Z.ltb_spec p q); [|lia]); [done|].
    rewrite over_comma_at by done. cbn [mbind option_bind]. rewrite hop_via by (done || unfold q; lia). cbn [mbind option_bind].
    destruct (hop_last pre h (path_text hs ++ post) Hh) as (c & -> & Hc). cbn [mbind option_bind existsb firstn]. rewrite Hc.
    destruct (hp_star h); [done|]. cbn [orb]. rewrite path_shift.
    rewrite <- (IH n (pre ++ hop_text h ++ [ch_comma]) (zlen pre + zlen (hop_text h))) by apply at_hop_next.
    f_equal. unfold q. rewrite !zlen_app. change (zlen [ch_comma]) with 1. lia.
Qed.

Section Digi.
Context (t : Z) (ps : list pattern) (f : filter_t) (Hf : set_filter t ps f).

Lemma digi_find_path n hs pre post p :
  Forall hop_ok hs -> at_hop pre p ->
  let s := pre ++ path_text hs ++ post in
  let q := zlen pre + zlen (path_text hs) - 1 in
  (r ← digi_find n s p q f;
   match r with
   | None => Some 0
   | Some (d, cl, i, n) => c ← rd s (d + cl); if c =? ch_star then Some 1 else digi_star n s (d + i) q
   end) = Some (if digi_wanted n ps hs then 1 else 0).
Proof.
  intros Hhs. revert n pre p. induction Hhs as [|h hs Hh Hhs IH]; intros n pre p Hp s q.
  - subst s q. change (zlen (path_text [])) with 0. destruct n; cbn [digi_find digi_wanted];
      (destruct (Z.ltb_spec p (zlen pre + 0 - 1)); [|done]; destruct Hp as [|[? _]]; lia).
  - pose proof (hop_len h Hh) as [Hl0 Hl]. subst s q. rewrite path_text_cons, zlen_path_cons. set (q := zlen pre + _ - 1).
    pose proof (zlen_nonneg (path_text hs)).
    assert (p < q) as Hpq by (unfold q; destruct Hp as [|[? _]]; lia).
    destruct n as [|n]; cbn [digi_find digi_wanted]; (destruct (Z.ltb_spec p q); [|lia]); [done|].
    rewrite over_comma_at by done. cbn [mbind option_bind]. rewrite hop_via by (done || unfold q; lia). cbn [mbind option_bind].
    destruct (hop_last pre h (path_text hs ++ post) Hh) as (c & -> & Hc). cbn [mbind option_bind]. rewrite Hc.
    assert ((if hp_star h then zlen (hop_text h) - 1 else zlen (hop_text h)) = zlen (hp_call h)) as ->
      by (destruct (hp_star h); lia).
    destruct Hh as [Hc1 Hc2]. rewrite clip_small by lia. rewrite hop_key by done. cbn [mbind option_bind].
    rewrite (set_filter_match t ps) by done. fold (hop_matches ps h). cbn [mbind option_bind].
    assert (q = zlen (pre ++ hop_text h ++ [ch_comma]) + zlen (path_text hs) - 1) as Hq
      by (unfold q; rewrite !zlen_app; change (zlen [ch_comma]) with 1; lia).
    destruct (hop_matches ps h); cbn [Z.eqb Pos.eqb mbind option_bind].
    + destruct (hop_star pre h (path_text hs ++ post)) as (c' & -> & Hc'). cbn [mbind option_bind]. rewrite Hc'.
      destruct (hp_star h); [done|]. cbn [orb]. rewrite path_shift, Hq. by apply digi_star_path, at_hop_next.
    + rewrite path_shift, Hq. by apply IH, at_hop_next.
Qed.
End Digi.

Lemma slice_split s a n :
  0 <= a -> 0 <= n -> a + n <= zlen s -> s = slice s 0 a ++ slice s a n ++ slice s (a + n) (zlen s - (a + n)).
Proof.
  intros Ha Hn Hl. rewrite <- slice_add by lia. rewrite <- (Z.add_0_l a) at 2. rewrite <- slice_add by lia.
  unfold slice. rewrite drop_0. symmetry. apply firstn_all2. unfold zlen in *. lia.
Qed.

(** A digipeater filter asks for packets that passed a digipeater: of a packet
    whose path has callsigns up to the Q construct it answers 1 exactly when one of the
    first ten matches a pattern and that one or one behind it has the
    asterisk, and 0 otherwise. *)
Theorem digi_filter_meaning sinf atan2f cfg tick c db pb t ps f hdb hs :
  queue_ok pb -> set_filter t ps f -> tolower t = 100 -> Forall hop_ok hs ->
  let d := pb.(pb_srccall_end) + 1 + pb.(pb_dstcall_len) + 1 in
  slice pb.(pb_data) d (pb.(pb_qconst_start) - d) = path_text hs ->
  exists r, filter_process_one sinf atan2f cfg tick c db pb f hdb = Some (r, f, hdb) /\ (r = 0 \/ r = 1) /\
    (r = 1 <-> exists a h b, take 10 hs = a ++ h :: b /\ hop_matches ps h = true /\ existsb hp_star (h :: b) = true).
Proof.
  intros Hq Hf Ht Hhs d Hpath. pose proof (queue_bounds pb Hq) as (H1 & H2 & H3 & H4).
  exists (if digi_wanted 10 ps hs then 1 else 0). rewrite <- digi_wanted_spec.
  split; [|destruct (digi_wanted 10 ps hs); split; lia || by auto].
  unfold filter_process_one. rewrite (sf_type _ _ _ Hf), Ht. cbn [Z.eqb Pos.eqb].
  unfold filter_process_one_d. fold d.
  pose proof (slice_split pb.(pb_data) d (pb.(pb_qconst_start) - d)) as Hs.
  rewrite Hpath in Hs. specialize (Hs ltac:(lia) ltac:(lia) ltac:(lia)).
  set (pre := slice (pb_data pb) 0 d) in Hs. set (post := slice _ _ _) in Hs.
  assert (zlen pre = d) as Hd by (apply zlen_slice; lia).
  assert (pb.(pb_qconst_start) - 1 = zlen pre + zlen (path_text hs) - 1) as ->
    by (rewrite <- Hpath, zlen_slice, Hd; lia).
  rewrite Hs. rewrite (digi_find_path t ps f Hf 10 hs pre post d) by (done || by left). done.
Qed.

(** ** What an igate gets besides its filters *)

(** The hashes the duplicate checker's thread and the igates rely on. *)
Record hashes_ok (pb : pbuf_t) : Prop := {
  hk_name : pb.(pb_srcname_hash) = keyhashuc (src_name pb) 0;
  hk_src : pb.(pb_srccall_hash) = keyhashuc (src_call pb) 0;
  hk_dst : forall d, pb.(pb_dstname) = Some d ->
    pb.(pb_dstname_hash) = keyhashuc (slice pb.(pb_data) d pb.(pb_dstname_len)) 0
}.

Lemma preprocessed_hashes cfg pb : hashes_ok (preprocessed cfg pb).
Proof.
  unfold preprocessed.
  destruct (tcpip_in_path pb), (have_filtered_listeners cfg), (entry_call pb), (pb_dstname pb) eqn:E; split; try done;
    intros d Hd; cbn in Hd; rewrite E in Hd; by simplify_eq.
Qed.

Record client_wf (c : client_t) : Prop := {
  cw_heard : heard_wf (c_heard_list c);
  cw_courtesy : heard_wf (c_courtesy_list c);
  cw_name : c.(c_username_len) = zlen c.(c_username)
}.

Definition recipient (pb : pbuf_t) : list Z :=
  match pb.(pb_dstname) with Some d => slice pb.(pb_data) d pb.(pb_dstname_len) | None => [] end.
Definition heard (c : client_t) (call : list Z) : bool :=
  bool_decide (is_Some (heard_map (c_heard_list c) !! map tolower call)).
Definition owed (c : client_t) (call : list Z) : bool :=
  bool_decide (is_Some (heard_map (c_courtesy_list c) !! map tolower call)).

(** Messages to itself and to stations it heard, a courtesy position, and what
    stations it heard send over the Internet. *)
Definition gated (c : client_t) (pb : pbuf_t) : bool :=
  has c.(c_flags) CLFLAGS_IGATE &&
  (has pb.(pb_packettype) T_MESSAGE && (beq (recipient pb) c.(c_username) || heard c (recipient pb))
   || has pb.(pb_packettype) (Z.lor T_POSITION (Z.lor T_OBJECT T_ITEM)) && owed c (src_name pb)
   || has pb.(pb_flags) F_HAS_TCPIP && heard c (src_call pb)).

Lemma heard_check c call : client_wf c -> client_heard_check c call (keyhashuc call 0) = heard c call.
Proof. intros [Hh _ _]. by destruct (heard_find_map _ Hh call false) as (_ & ? & _). Qed.

Section Gate.
Context (mem : bool) (c : client_t) (pb : pbuf_t) (Hq : queue_ok pb) (Hk : hashes_ok pb) (Hc : client_wf c).

Lemma src_call_in : rd_range pb.(pb_data) 0 pb.(pb_srccall_end) = Some (src_call pb).
Proof. pose proof (queue_bounds pb Hq). apply rd_range_in; lia. Qed.

Lemma src_name_in : rd_range pb.(pb_data) pb.(pb_srcname) pb.(pb_srcname_len) = Some (src_name pb).
Proof. destruct (qk_names _ Hq) as [? _ _ _ _]. apply rd_range_in; lia. Qed.

(** The courtesy list of the client changes and nothing else of it. *)
Definition courtesy_changed (c c' : client_t) : Prop :=
  exists l, heard_wf l /\ c' = set_c_courtesy_list l c.

Lemma courtesy_wf c' : courtesy_changed c c' -> client_wf c'.
Proof. intros (l & Hl & ->). destruct Hc. split; try done. by destruct l. Qed.

Lemma courtesy_refl : courtesy_changed c c.
Proof. exists (c_courtesy_list c). split; [by destruct Hc|by destruct c]. Qed.

Lemma courtesy_update_in : exists c', client_courtesy_update mem c pb = Some c' /\ courtesy_changed c c'.
Proof.
  unfold client_courtesy_update. rewrite src_call_in. cbn [mbind option_bind].
  destruct (heard_update_map _ (cw_courtesy _ Hc) mem (src_call pb) pb.(pb_t)) as (l & -> & Hl & _).
  { pose proof (queue_bounds pb Hq). unfold src_call. rewrite zlen_slice; lia. }
  eexists. split; [done|]. by exists l.
Qed.

Lemma courtesy_needed_in :
  exists c', client_courtesy_needed c pb = Some (c', owed c (src_name pb)) /\ courtesy_changed c c'.
Proof.
  unfold client_courtesy_needed. rewrite src_name_in. cbn [mbind option_bind]. rewrite (hk_name _ Hk).
  destruct (heard_find_map _ (cw_courtesy _ Hc) (src_name pb) true) as (Hw & Hf & _).
  destruct (heard_find _ _ _ _) as [l b]. cbn in Hw, Hf. subst b. eexists. split; [done|]. by exists l.
Qed.

Lemma tcpip_gate c' :
  courtesy_changed c c' ->
  (if has pb.(pb_flags) F_HAS_TCPIP then
     src ← rd_range pb.(pb_data) 0 pb.(pb_srccall_end); Some (c', client_heard_check c' src pb.(pb_srccall_hash))
   else Some (c', false)) = Some (c', has pb.(pb_flags) F_HAS_TCPIP && heard c (src_call pb)).
Proof.
  intros Hch. destruct (has _ F_HAS_TCPIP); [|done]. rewrite src_call_in. cbn [mbind option_bind]. rewrite (hk_src _ Hk).
  rewrite heard_check by by apply courtesy_wf. by destruct Hch as (l & _ & ->).
Qed.

Lemma recipient_in :
  has pb.(pb_packettype) T_MESSAGE = true ->
  exists d, pb.(pb_dstname) = Some d /\ rd_range pb.(pb_data) d pb.(pb_dstname_len) = Some (recipient pb) /\
    zlen (recipient pb) = pb.(pb_dstname_len).
Proof.
  intros Hm. destruct (qk_names _ Hq) as [_ _ Hd Hmsg _]. destruct (Hmsg Hm) as [d Ed]. exists d. unfold recipient.
  rewrite Ed in *. destruct Hd as (?&?&?&_). rewrite rd_range_in, zlen_slice by lia. done.
Qed.

Lemma igate_support_spec :
  exists c', igate_support mem c pb = Some (c', gated c pb) /\ courtesy_changed c c'.
Proof.
  unfold igate_support, gated. destruct (has (c_flags c) CLFLAGS_IGATE); [|exists c; split; [done|apply courtesy_refl]].
  cbn [negb andb].
  set (m := has (pb_packettype pb) T_MESSAGE && (beq (recipient pb) (c_username c) || heard c (recipient pb))).
  match goal with |- context [mbind _ (if has (pb_packettype pb) T_MESSAGE then ?g else Some false)] =>
    assert ((if has (pb_packettype pb) T_MESSAGE then g else Some false) = Some m) as -> end.
  { unfold m. destruct (has _ T_MESSAGE) eqn:Em; [|done]. destruct (recipient_in Em) as (d & Ed & Hr & Hz).
    rewrite Ed. cbn [mbind option_bind]. rewrite Hr. cbn [mbind option_bind andb]. rewrite (hk_dst _ Hk d Ed).
    apply rd_range_Some in Hr as (_ & _ & _ & <-). rewrite heard_check by done. rewrite (cw_name _ Hc), <- Hz.
    unfold beq. destruct (decide (recipient pb = c_username c)) as [->|Hn]; [by rewrite Z.eqb_refl|].
    rewrite bool_decide_eq_false_2 by done. by rewrite andb_false_r. }
  cbn [mbind option_bind]. destruct m.
  { destruct courtesy_update_in as (c' & -> & Hch). by exists c'. }
  cbn [orb]. destruct (has (pb_packettype pb) (Z.lor T_POSITION _)); cbn [andb orb].
  - destruct courtesy_needed_in as (c' & -> & Hch). cbn [mbind option_bind]. exists c'. split; [|done].
    destruct (owed c (src_name pb)); [done|]. by apply tcpip_gate.
  - cbn [mbind option_bind]. exists c. split; [apply tcpip_gate|]; apply courtesy_refl.
Qed.
End Gate.

(** ** Well-formed filters *)

Definition set_type (t : Z) : bool := existsb (fun x => x =? tolower t) (str "bdegopu").

(** [memchr] over a part of the text stays in it. *)
Definition in_text (f : filter_t) (off len : Z) : Prop := 0 <= off /\ 0 <= len /\ off + len <= zlen f.(f_text) + 1.

(** What the type of a filter says about its other members. *)
Definition parts_ok (f : filter_t) : Prop :=
  if set_type f.(f_type) then exists refs, f.(f_names) = RefCallsigns refs /\ f.(f_numnames) <= zlen refs
  else if (tolower f.(f_type) =? 102) || (f.(f_type) =? 84) then
    exists r, f.(f_names) = RefCallsign r /\ 0 <= r.(rc_reflen) <= CALLSIGNLEN_MAX
  else if tolower f.(f_type) =? 115 then
    exists s2 l2 s3 l3, f.(f_names) = Lens s2 l2 s3 l3 /\ in_text f f.(f_len1s) f.(f_len1) /\ in_text f s2 l2 /\ in_text f s3 l3
  else True.

Record filter_ok (f : filter_t) : Prop := {
  fo_type : filter_code_ok f.(f_type) = true;
  fo_neg : f.(f_negation) = false;
  fo_parts : parts_ok f
}.

(** The cache of a filter on a looked-up position changes and nothing else of it. *)
Definition cache_changed (f f' : filter_t) : Prop :=
  f' = f \/ existsb (fun x => x =? tolower f.(f_type)) (str "fmt") = true /\ exists n a p, f' = set_f_cache n a p f.

Lemma cache_changed_ok f f' : filter_ok f -> cache_changed f f' -> filter_ok f'.
Proof.
  intros [Ht Hn Hp] [->|(Hl & n & a & p & ->)]; [done|].
  change (str "fmt") with [102; 109; 116] in Hl. unfold set_f_cache. destruct (default _ p) as [[la lo] co].
  split; try done. unfold parts_ok, set_type in *. cbn [f_type f_names f_numnames f_bitflags f_text] in *.
  change (str "bdegopu") with [98; 100; 101; 103; 111; 112; 117] in *. cbn [existsb] in *.
  destruct (_ || _) eqn:E in Hp; [lia|]. rewrite E. destruct (_ || _) in Hp |- *; [done|].
  destruct (Z.eqb_spec (tolower (f_type f)) 115) as [E'|]; [lia|done].
Qed.

Section ProcessOne.
Context (sinf : spec_float -> spec_float) (atan2f : spec_float -> spec_float -> spec_float) (cfg : config) (tick : Z).
Context (c : client_t) (db : filterdb) (pb : pbuf_t).

(** The database with given entries. *)
Definition hdb_of (t : gmap Z (list history_cell_t)) : historydb := mk_historydb t 0 0 0 0 0 0 0.

(** The answer of a filter, when the positions of stations are those of [t]. *)
Definition answer (t : gmap Z (list history_cell_t)) (f : filter_t) : Z :=
  match filter_process_one sinf atan2f cfg tick c db pb f (hdb_of t) with Some (r, _, _) => r | None => 0 end.

Lemma match_refs_in n wildok key keylen refs i :
  (i + n <= length refs)%nat -> exists r, match_refs n wildok key keylen refs i = Some r /\ 0 <= r.
Proof.
  revert i. induction n as [|n IH]; intros i Hi; cbn [match_refs]; [by exists 0|].
  destruct (lookup_lt_is_Some_2 refs i) as [x ->]; [lia|]. cbn [mbind option_bind]. split_if; [|apply IH; lia].
  eexists. split; [reflexivity|]. split_if; lia.
Qed.

(** A filter on callsigns, at any time. *)
Definition total (m : option Z) : Prop := exists r, m = Some r /\ 0 <= r.

Lemma total_Some r : 0 <= r -> total (Some r).
Proof. by exists r. Qed.

Lemma hit_nonneg f : 0 <= hit f.
Proof. unfold hit. split_if; lia. Qed.

Ltac tot := apply total_Some; try lia; repeat (split_if || apply hit_nonneg); try lia.

Section Set_.
Context (f : filter_t) (Hf : filter_ok f) (Hs : set_type f.(f_type) = true).

Lemma callsignset_in key keylen wildok : total (filter_match_on_callsignset key keylen f wildok).
Proof.
  destruct Hf as [_ _ Hp]. unfold parts_ok in Hp. rewrite Hs in Hp. destruct Hp as (refs & Hr & Hn).
  unfold filter_match_on_callsignset. rewrite Hr. apply match_refs_in. unfold zlen in Hn. lia.
Qed.

Context (Hq : queue_ok pb).

Lemma key_in off n wildok :
  0 <= off -> 0 <= n <= CALLSIGNLEN_MAX -> off + n <= zlen pb.(pb_data) ->
  total (key ← ref_key pb.(pb_data) off n; filter_match_on_callsignset key n f wildok).
Proof.
  intros Ho Hn Hl. unfold ref_key. split_if; [|lia]. rewrite rd_range_in by lia. apply callsignset_in.
Qed.

Lemma bind_assoc {A B C} (m : option A) (g : A -> option B) (k : B -> option C) :
  (x ← m; r ← g x; k r) = (r ← (x ← m; g x); k r).
Proof. by destruct m. Qed.

Lemma src_in wildok : total (filter_process_src wildok pb f).
Proof.
  pose proof (queue_bounds pb Hq) as (H1 & H2 & H3 & H4). destruct (qk_names _ Hq) as [[Hs1 [Hs2 Hs3]] _ _ _ _].
  unfold filter_process_src. rewrite !clip_small by lia. rewrite bind_assoc.
  destruct (key_in 0 (pb_srccall_end pb) wildok) as (r & -> & ?); [lia..|]. cbn [mbind option_bind].
  split_if; [apply key_in; lia|tot].
Qed.

Lemma via_end_in n d q i :
  0 <= d + i <= q + 1 -> q < zlen pb.(pb_data) ->
  exists r, via_end n pb.(pb_data) d q i = Some r /\ i <= r <= i + Z.of_nat n /\ d + r <= q + 1 /\
    (r = i -> n = 0%nat \/ d + i = q + 1 \/ rd pb.(pb_data) (d + i) = Some ch_comma).
Proof.
  revert i. induction n as [|n IH]; intros i Hi Hl; cbn [via_end].
  - exists i. split; [done|]. split; [lia|]. split; [lia|]. by left.
  - split_if; [|exists i; split; [done|]; split; [lia|]; split; [lia|]; right; left; lia].
    destruct (rd_in (pb_data pb) (d + i)) as [x Hx]; [lia|]. rewrite Hx. cbn [mbind option_bind].
    destruct (Z.eqb_spec x ch_comma) as [->|].
    + exists i. split; [done|]. split; [lia|]. split; [lia|]. by right; right.
    + destruct (IH (i + 1)) as (r & -> & ? & ? & _); [lia|done|]. exists r. split; [done|]. split; [lia|]. split; [done|lia].
Qed.

(** One callsign of whatever is between the destination and the Q construct. *)
Lemma via_step d q :
  1 <= d < q -> q < zlen pb.(pb_data) ->
  exists d' i last, over_comma_sep pb.(pb_data) d = Some d' /\ via_len pb.(pb_data) d' q = Some i /\
    rd pb.(pb_data) (d' + i - 1) = Some last /\ d <= d' /\ 0 <= i <= CALLSIGNLEN_MAX + 1 /\ d' + i <= q + 1 /\
    (i = 0 -> last <> ch_star).
Proof.
  intros Hd Hl. unfold over_comma_sep, via_len. destruct (rd_in (pb_data pb) d) as [x Hx]; [lia|].
  rewrite Hx. cbn [mbind option_bind]. set (d' := if x =? ch_comma then d + 1 else d).
  assert (d <= d' <= q) as Hd' by (unfold d'; split_if; lia).
  destruct (via_end_in (Z.to_nat (CALLSIGNLEN_MAX + 1)) d' q 0) as (i & Hi & Hi1 & Hi2 & Hi0); [lia|done|].
  rewrite Z2Nat.id in Hi1 by done.
  destruct (rd_in (pb_data pb) (d' + i - 1)) as [y Hy]; [lia|].
  exists d', i, y. repeat split; try done; try lia.
  intros ->. destruct Hi0 as [?|[?|Hcomma]]; [done|done|lia|]. rewrite Z.add_0_r in *.
  unfold d' in *. destruct (Z.eqb_spec x ch_comma) as [->|].
  - replace (d + 1 - 1) with d in Hy by lia. rewrite Hx in Hy. by injection Hy as <-.
  - rewrite Hx in Hcomma. congruence.
Qed.

Lemma digi_star_in n d q : 1 <= d -> q < zlen pb.(pb_data) -> total (digi_star n pb.(pb_data) d q).
Proof.
  revert d. induction n as [|n IH]; intros d Hd Hl; cbn [digi_star];
    (destruct (Z.ltb_spec d q); [|tot]); [tot|].
  destruct (via_step d q) as (d' & i & y & -> & Hv & Hy & ? & ? & ? & _); [lia|done|]. cbn [mbind option_bind].
  rewrite Hv. cbn [mbind option_bind]. rewrite Hy. cbn [mbind option_bind]. split_if; [tot|]. apply IH; lia.
Qed.

Lemma digi_in n d q :
  1 <= d -> q < zlen pb.(pb_data) ->
  exists r, digi_find n pb.(pb_data) d q f = Some r /\
    forall d' cl i n', r = Some (d', cl, i, n') -> 1 <= d' /\ 0 <= cl <= i /\ 0 <= i /\ d' + cl <= q + 1.
Proof.
  revert d. induction n as [|n IH]; intros d Hd Hl; cbn [digi_find];
    (destruct (Z.ltb_spec d q); [|by eexists]); [by eexists|].
  destruct (via_step d q) as (d' & i & y & -> & Hv & Hy & Hd' & Hi & Hdi & Hy0); [lia|done|]. cbn [mbind option_bind].
  rewrite Hv. cbn [mbind option_bind]. rewrite Hy. cbn [mbind option_bind].
  set (cl := clip_call _). assert (0 <= cl <= CALLSIGNLEN_MAX /\ cl <= i) as [Hcl Hcl'].
  { unfold cl. rewrite clip_min. unfold CALLSIGNLEN_MAX in *. destruct (Z.eqb_spec y ch_star); lia. }
  clearbody cl. rewrite bind_assoc. destruct (key_in d' cl MatchWild) as (r & -> & _); [lia..|]. cbn [mbind option_bind].
  split_if; [|apply IH; lia]. eexists. split; [done|]. intros ? ? ? ? [= <- <- <- _]. lia.
Qed.

Lemma d_in : total (filter_process_one_d pb f).
Proof.
  pose proof (queue_bounds pb Hq) as (H1 & H2 & H3 & H4). unfold filter_process_one_d.
  set (d := _ + 1). assert (1 <= d) as Hd by (unfold d; lia).
  destruct (digi_in 10 d (pb_qconst_start pb - 1)) as ([[[[d' cl] i] n]|] & -> & Hr); [done|lia| |tot].
  cbn [mbind option_bind]. destruct (Hr d' cl i n eq_refl) as (? & ? & ? & ?).
  destruct (rd_in (pb_data pb) (d' + cl)) as [x ->]; [lia|]. cbn [mbind option_bind].
  split_if; [tot|]. apply digi_star_in; lia.
Qed.

Lemma e_in : total (filter_process_one_e pb f).
Proof.
  pose proof (queue_bounds pb Hq). destruct (qk_entry _ Hq). unfold filter_process_one_e.
  split_if; [tot|]. apply key_in; lia.
Qed.

Lemma g_in : total (filter_process_one_g pb f).
Proof.
  unfold filter_process_one_g. destruct (has _ T_MESSAGE) eqn:E; [|tot].
  destruct (qk_names _ Hq) as [_ _ Hd Hm _]. destruct (Hm E) as [d Ed]. rewrite Ed in *. cbn [negb].
  split_if; [tot|]. apply key_in; lia.
Qed.

Lemma o_in : total (filter_process_one_o pb f).
Proof.
  destruct (qk_names _ Hq) as [[Hs1 [Hs2 Hs3]] _ _ _ _]. unfold filter_process_one_o.
  split_if; [tot|]. split_if; [tot|]. apply key_in; lia.
Qed.

Lemma u_in : total (filter_process_one_u pb f).
Proof.
  pose proof (queue_bounds pb Hq). unfold filter_process_one_u. rewrite clip_min. apply key_in; lia.
Qed.
End Set_.

Context (Hq : queue_ok pb).

Lemma q_in f : total (filter_process_one_q tick db pb f).
Proof.
  pose proof (queue_bounds pb Hq). destruct (qk_entry _ Hq). unfold filter_process_one_q.
  destruct (rd_in (pb_data pb) (pb_qconst_start pb + 2)) as [e ->]; [lia|]. cbn [mbind option_bind].
  repeat (split_if; [tot|]). split_if; [|tot].
  unfold filter_entrycall_lookup. rewrite rd_range_in by lia. tot.
Qed.

Lemma text_has_in f off len ch : in_text f off len -> exists b, text_has f off len ch = Some b.
Proof.
  intros (H1 & H2 & H3). unfold text_has, memchr, memmem.
  rewrite rd_range_in by (rewrite ?zlen_app; change (zlen [0]) with 1; lia). by eexists.
Qed.

Lemma s_in f : filter_ok f -> tolower f.(f_type) = 115 -> total (filter_process_one_s pb f).
Proof.
  intros [_ _ Hp] Ht. unfold parts_ok, set_type in Hp. rewrite Ht in Hp. cbn in Hp.
  destruct (Z.eqb_spec (f_type f) 84) as [E|]; [by rewrite E in Ht|].
  destruct Hp as (s2 & l2 & s3 & l3 & Hn & H1 & H2 & H3). unfold filter_process_one_s. rewrite Hn.
  set (code := (pb_symbol pb).2). clearbody code.
  destruct (text_has_in f _ _ code H1) as [b1 E1], (text_has_in f _ _ code H2) as [b2 E2].
  match goal with |- total (mbind _ ?m) => assert (exists b, m = Some b) as [b ->] by (destruct (negb _ && _); by eexists) end.
  cbn [mbind option_bind]. destruct b; [tot|]. destruct (negb (l3 =? 0)).
  - match goal with |- context [text_has f s3 l3 ?x] => destruct (text_has_in f _ _ x H3) as [b3 ->] end.
    cbn [mbind option_bind]. destruct (negb b3); [tot|]. rewrite E2. tot.
  - destruct (negb _ && _); [|tot]. rewrite E2. tot.
Qed.

(** A step of a filter that may look up a position: defined, and its answer depends
    on the entries of the database only. *)
Definition uniform (t : gmap Z (list history_cell_t)) (f : filter_t) (m : historydb -> option (Z * filter_t * historydb)) : Prop :=
  exists r f', cache_changed f f' /\ (0 <= r \/ f.(f_type) = 0) /\
    forall hdb, hdb.(hd_hash) = t -> exists hdb', m hdb = Some (r, f', hdb') /\ hdb'.(hd_hash) = t.

Lemma uniform_same t f r : 0 <= r \/ f.(f_type) = 0 -> uniform t f (fun hdb => Some (r, f, hdb)).
Proof. intros Hr. exists r, f. split; [by left|]. split; [done|]. intros hdb Hh. by exists hdb. Qed.

Lemma uniform_pure t f m : total m -> uniform t f (fun hdb => rc ← m; Some (rc, f, hdb)).
Proof. intros (r & -> & Hr). apply uniform_same. by left. Qed.

(** A lookup, the answer with the position found or without one. *)
Lemma uniform_lookup t f call (none : Z * filter_t) (some : history_cell_t -> Z * filter_t) :
  cache_changed f none.2 -> (forall h, cache_changed f (some h).2) -> 0 <= none.1 -> (forall h, 0 <= (some h).1) ->
  uniform t f (fun hdb => let '(hdb, h) := historydb_lookup cfg tick call hdb in
    match h with
    | None => Some (none.1, none.2, hdb)
    | Some h => Some ((some h).1, (some h).2, hdb)
    end).
Proof.
  intros Hn Hs Hn0 Hs0. destruct (historydb_lookup cfg tick call (hdb_of t)).2 as [h|] eqn:E.
  - exists (some h).1, (some h).2. split; [done|]. split; [by left|]. intros hdb Hh. eexists.
    unfold historydb_lookup in *. cbn in E. rewrite Hh, E. split; [reflexivity|done].
  - exists none.1, none.2. split; [done|]. split; [by left|]. intros hdb Hh. eexists.
    unfold historydb_lookup in *. cbn in E. rewrite Hh, E. split; [reflexivity|done].
Qed.

Lemma cache_set f n a p :
  existsb (fun x => x =? tolower f.(f_type)) (str "fmt") = true -> cache_changed f (set_f_cache n a p f).
Proof. intros Hl. right. split; [done|]. by exists n, a, p. Qed.

Lemma cached_nonneg f : 0 <= cached_range sinf atan2f pb f.
Proof. unfold cached_range. repeat (split_if || apply hit_nonneg); lia. Qed.

Ltac same := left; repeat (split_if || apply hit_nonneg || apply cached_nonneg); try lia.

Section Position.
Context (f : filter_t) (Hl : existsb (fun x => x =? tolower f.(f_type)) (str "fmt") = true).

(** With the cache filled from the position found. *)
Lemma uniform_position t call n a :
  uniform t f (fun hdb => let '(hdb, h) := historydb_lookup cfg tick call hdb in
    match h with
    | None => Some (0, set_f_cache n a None f, hdb)
    | Some h =>
        let f := set_f_cache 1 (tick + HIST_LOOKUP_INTERVAL) (Some (cell_pos h)) f in
        Some (cached_range sinf atan2f pb f, f, hdb)
    end).
Proof.
  apply (uniform_lookup t f call (0, set_f_cache n a None f)
           (fun h => let f := set_f_cache 1 (tick + HIST_LOOKUP_INTERVAL) (Some (cell_pos h)) f in
                     (cached_range sinf atan2f pb f, f))); intros; (by apply cache_set) || (by apply cached_nonneg) || done.
Qed.

Lemma ref_callsign_in :
  filter_ok f -> (tolower f.(f_type) =? 102) || (f.(f_type) =? 84) = true -> exists call, ref_callsign f = Some call.
Proof.
  intros [_ _ Hp] Ht. unfold parts_ok in Hp. rewrite Ht in Hp.
  destruct (set_type (f_type f)) eqn:E.
  { unfold set_type in E. change (str "bdegopu") with [98; 100; 101; 103; 111; 112; 117] in E. cbn [existsb] in E.
    apply orb_true_iff in Ht as [Ht|Ht]; [lia|]. apply Z.eqb_eq in Ht. by rewrite Ht in E. }
  destruct Hp as (r & Hr & Hlen). unfold ref_callsign. rewrite Hr. unfold CALLSIGNLEN_MAX in Hlen.
  rewrite rd_range_in; [by eexists|lia|lia|]. rewrite zlen_app. pose proof (zlen_nonneg (rc_callsign r)).
  change (zlen (repeat 0 10)) with 10. lia.
Qed.

Lemma f_uniform t :
  filter_ok f -> tolower f.(f_type) = 102 -> uniform t f (filter_process_one_f sinf atan2f cfg tick pb f).
Proof.
  intros Hf Ht. unfold filter_process_one_f. destruct (has _ F_HASPOS); [|apply uniform_same; same]. cbn [negb].
  destruct (cache_stale tick f); [|apply uniform_same; same].
  destruct ref_callsign_in as [call ->]; [done|by rewrite Ht|]. apply uniform_position.
Qed.

Lemma m_uniform t : uniform t f (filter_process_one_m sinf atan2f cfg tick c pb f).
Proof.
  unfold filter_process_one_m. destruct (has _ F_HASPOS); [|apply uniform_same; same]. cbn [negb].
  destruct (c_loc_known c); [apply uniform_same; same|]. destruct (bool_decide _); [apply uniform_same; same|].
  destruct (cache_stale tick f); [|apply uniform_same; same]. apply uniform_position.
Qed.

Lemma t_uniform t : filter_ok f -> uniform t f (filter_process_one_t sinf atan2f cfg tick db pb f).
Proof.
  intros Hf. unfold filter_process_one_t. pose proof (queue_bounds pb Hq).
  match goal with |- context [mbind _ ?m] =>
    match m with context [filter_wx_lookup] => assert (exists b, m = Some b) as [b ->] end end.
  { destruct (_ && _); [|by eexists]. unfold filter_wx_lookup. rewrite rd_range_in by lia. by eexists. }
  cbn [mbind option_bind]. destruct (b && (f_type f =? 84)) eqn:E; [|apply uniform_same; same].
  destruct (has _ F_HASPOS); [|apply uniform_same; same]. cbn [negb]. destruct (cache_stale tick f); [|apply uniform_same; same].
  apply andb_true_iff in E as [_ E]. destruct ref_callsign_in as [call ->]; [done|by rewrite E, orb_true_r|].
  apply uniform_position.
Qed.
End Position.

Lemma code_known t :
  filter_code_ok t = true -> existsb (fun x => x =? tolower t) (str "abdefgmopqrstu") = false -> t = 0.
Proof.
  unfold filter_code_ok.
  change (str "abdefgmopqrstuABDEFGMOPQRSTU" ++ [0]) with
    [97; 98; 100; 101; 102; 103; 109; 111; 112; 113; 114; 115; 116; 117;
     65; 66; 68; 69; 70; 71; 77; 79; 80; 81; 82; 83; 84; 85; 0].
  change (str "abdefgmopqrstu") with [97; 98; 100; 101; 102; 103; 109; 111; 112; 113; 114; 115; 116; 117].
  cbn [existsb]. unfold tolower, isupper. split_if; lia.
Qed.

Lemma process_one_uniform t f : filter_ok f -> uniform t f (filter_process_one sinf atan2f cfg tick c db pb f).
Proof.
  intros Hf. unfold filter_process_one.
  pose proof (fun H => uniform_pure t f _ (src_in f Hf H Hq MatchWild)) as Hb.
  pose proof (fun H => uniform_pure t f _ (src_in f Hf H Hq MatchPrefix)) as Hp.
  pose proof (fun H => uniform_pure t f _ (d_in f Hf H Hq)) as Hd.
  pose proof (fun H => uniform_pure t f _ (e_in f Hf H Hq)) as He.
  pose proof (fun H => uniform_pure t f _ (g_in f Hf H Hq)) as Hg.
  pose proof (fun H => uniform_pure t f _ (o_in f Hf H Hq)) as Ho.
  pose proof (fun H => uniform_pure t f _ (u_in f Hf H Hq)) as Hu.
  pose proof (fun H => uniform_pure t f _ (s_in f Hf H)) as Hs.
  pose proof (fun H => f_uniform f H t Hf) as Hff. pose proof (fun H => m_uniform f H t) as Hm.
  pose proof (fun H => t_uniform f H t Hf) as Ht.
  assert (existsb (fun x => x =? tolower (f_type f)) (str "abdefgmopqrstu") = false -> f_type f = 0) as Hz.
  { destruct Hf as [Hcode _ _]. by apply code_known. }
  unfold set_type in *. generalize dependent (tolower (f_type f)). intros l Hb Hp Hd He Hg Ho Hu Hs Hff Hm Ht Hz.
  repeat match goal with
  | |- uniform _ _ (fun hdb => if ?b then _ else _) =>
      let E := fresh in destruct b eqn:E; [apply Z.eqb_eq in E; subst l; clear -Hb Hp Hd He Hg Ho Hu Hs Hff Hm Ht Hq Hf|]
  end; first [by apply Hb | by apply Hp | by apply Hd | by apply He | by apply Hg | by apply Ho | by apply Hu
    | by apply Hs | by apply (Hff eq_refl) | by apply Hm | by apply Ht | apply uniform_pure, q_in
    | apply uniform_pure, total_Some; unfold filter_process_one_a, filter_process_one_r; repeat (split_if || apply hit_nonneg); lia
    | apply uniform_same; right; apply Hz; change (str _) with [97; 98; 100; 101; 102; 103; 109; 111; 112; 113; 114; 115; 116; 117]; cbn [existsb]; lia].
Qed.

Lemma process_one_spec f hdb :
  filter_ok f ->
  exists f' hdb', filter_process_one sinf atan2f cfg tick c db pb f hdb = Some (answer hdb.(hd_hash) f, f', hdb') /\
    hdb'.(hd_hash) = hdb.(hd_hash) /\ cache_changed f f'.
Proof.
  intros Hf. destruct (process_one_uniform hdb.(hd_hash) f Hf) as (r & f' & Hc & _ & Hu). unfold answer.
  destruct (Hu hdb eq_refl) as (hdb' & -> & Hh). destruct (Hu (hdb_of (hd_hash hdb)) eq_refl) as (hdb2 & -> & _).
  by exists f', hdb'.
Qed.

(** ** The chains *)

Definition matches (t : gmap Z (list history_cell_t)) (f : filter_t) : bool := answer t f >? 0.

Lemma default_chain_spec fs hdb :
  Forall filter_ok fs ->
  exists fs' hdb' rc, default_chain sinf atan2f cfg tick c db pb fs hdb = Some (fs', hdb', rc) /\
    (rc >? 0) = existsb (matches hdb.(hd_hash)) fs /\ hdb'.(hd_hash) = hdb.(hd_hash) /\ Forall2 cache_changed fs fs'.
Proof.
  intros Hfs. revert hdb. induction Hfs as [|f fs Hf _ IH]; intros hdb; cbn [default_chain existsb].
  { by exists [], hdb, 0. }
  destruct (process_one_spec f hdb Hf) as (f' & hdb' & -> & Hh & Hc). cbn [mbind option_bind]. unfold matches at 1.
  assert (Forall2 cache_changed fs fs) as Hrefl by (apply Forall_Forall2_diag, Forall_true; intros x; by left).
  destruct (answer (hd_hash hdb) f >? 0) eqn:E.
  - exists (f' :: fs), hdb', (answer (hd_hash hdb) f). repeat split; try done. by constructor.
  - destruct (IH hdb') as (fs' & hdb2 & rc & -> & Hrc & Hh2 & Hfs'). rewrite Hh in *.
    exists (f' :: fs'), hdb2, rc. repeat split; try done. by constructor.
Qed.

Context {W : Type} `{ServerOps W}.

(** Among filters of known types none is reported. *)
Definition known (f : filter_t) : Prop := f.(f_type) <> 0.

Lemma answer_known t f : filter_ok f -> known f -> 0 <= answer t f.
Proof.
  intros Hf Hk. destruct (process_one_uniform t f Hf) as (r & f' & _ & [Hr|Hz] & Hu); [|by destruct Hk].
  unfold answer. by destruct (Hu (hdb_of t) eq_refl) as (hdb' & -> & _).
Qed.

Lemma user_chain_spec fs hdb warned (x : W) :
  Forall filter_ok fs -> Forall known fs ->
  exists fs' hdb' rc, user_chain sinf atan2f cfg tick c db pb fs hdb warned x = Some (fs', hdb', warned, x, rc) /\
    0 <= rc /\ (rc >? 0) = existsb (matches hdb.(hd_hash)) fs /\ hdb'.(hd_hash) = hdb.(hd_hash) /\
    Forall2 cache_changed fs fs'.
Proof.
  intros Hfs. revert hdb. induction Hfs as [|f fs Hf _ IH]; intros hdb Hk; cbn [user_chain existsb].
  { by exists [], hdb, 0. }
  apply Forall_cons_1 in Hk as [Hkf Hk].
  destruct (process_one_spec f hdb Hf) as (f' & hdb' & -> & Hh & Hc). cbn [mbind option_bind]. unfold matches at 1.
  pose proof (answer_known (hd_hash hdb) f Hf Hkf) as Hpos.
  assert (Forall2 cache_changed fs fs) as Hrefl by (apply Forall_Forall2_diag, Forall_true; intros y; by left).
  destruct (Z.ltb_spec (answer (hd_hash hdb) f) 0); [lia|].
  destruct (Z.eqb_spec (answer (hd_hash hdb) f) 0) as [E|E]; cbn [negb].
  - destruct (IH hdb' Hk) as (fs' & hdb2 & rc & -> & Hrc0 & Hrc & Hh2 & Hfs'). rewrite Hh in *. rewrite E.
    exists (f' :: fs'), hdb2, rc. repeat split; try done. by constructor.
  - exists (f' :: fs), hdb', (answer (hd_hash hdb) f). rewrite (proj2 (Z.gtb_lt _ 0)) by lia. repeat split; try done. by constructor.
Qed.
End ProcessOne.

(** The answers do not depend on the courtesy list. *)
Lemma answer_courtesy sinf atan2f cfg tick c c' db pb t f :
  courtesy_changed c c' -> answer sinf atan2f cfg tick c' db pb t f = answer sinf atan2f cfg tick c db pb t f.
Proof. intros (l & _ & ->). done. Qed.

(** ** The decision *)

Record filters_ok (cf : client_filters) : Prop := {
  cf_nd : Forall filter_ok cf.(negdefaultfilters);
  cf_pd : Forall filter_ok cf.(posdefaultfilters);
  cf_nu : Forall filter_ok cf.(neguserfilters);
  cf_pu : Forall filter_ok cf.(posuserfilters)
}.

Section Decision.
Context (sinf : spec_float -> spec_float) (atan2f : spec_float -> spec_float -> spec_float) (cfg : config) (tick : Z).
Context {W : Type} `{ServerOps W}.

(** A negative filter of the server's stops a packet, then a positive one passes it,
    then the user's negative filters stop it and the positive ones pass it. *)
Definition passes (c : client_t) (db : filterdb) (pb : pbuf_t) (t : gmap Z (list history_cell_t)) (cf : client_filters) : bool :=
  let any := existsb (matches sinf atan2f cfg tick c db pb t) in
  gated c pb ||
  negb (any cf.(negdefaultfilters)) &&
  (any cf.(posdefaultfilters) || negb (any cf.(neguserfilters)) && any cf.(posuserfilters)).

Record filters_cached (cf cf' : client_filters) : Prop := {
  cc_nd : Forall2 cache_changed cf.(negdefaultfilters) cf'.(negdefaultfilters);
  cc_pd : Forall2 cache_changed cf.(posdefaultfilters) cf'.(posdefaultfilters);
  cc_nu : Forall2 cache_changed cf.(neguserfilters) cf'.(neguserfilters);
  cc_pu : Forall2 cache_changed cf.(posuserfilters) cf'.(posuserfilters);
  cc_text : cf'.(cf_filter_s) = cf.(cf_filter_s) /\ cf'.(cf_warned) = cf.(cf_warned)
}.

Lemma cache_refl fs : Forall2 cache_changed fs fs.
Proof. apply Forall_Forall2_diag, Forall_true. intros f. by left. Qed.
Hint Resolve cache_refl : core.

Lemma filter_process_spec mem db pb (st : filter_state (W := W)) :
  queue_ok pb -> hashes_ok pb -> client_wf st.(fs_client) -> filters_ok st.(fs_filters) ->
  Forall known st.(fs_filters).(neguserfilters) -> Forall known st.(fs_filters).(posuserfilters) ->
  exists st' rc,
    filter_process sinf atan2f cfg tick mem db pb st = Some (st', rc) /\ 0 <= rc /\
    (rc >? 0) = passes st.(fs_client) db pb st.(fs_history).(hd_hash) st.(fs_filters) /\
    courtesy_changed st.(fs_client) st'.(fs_client) /\ filters_cached st.(fs_filters) st'.(fs_filters) /\
    st'.(fs_history).(hd_hash) = st.(fs_history).(hd_hash) /\ st'.(fs_ops) = st.(fs_ops).
Proof.
  intros Hq Hk Hc [Hnd Hpd Hnu Hpu] Hkn Hkp. unfold filter_process, passes. destruct st as [c cf hdb x]. cbn in *.
  destruct (igate_support_spec mem c pb Hq Hk Hc) as (c' & -> & Hch). cbn [mbind option_bind].
  destruct (gated c pb).
  { do 2 eexists. split; [reflexivity|]. repeat split; done || apply cache_refl. }
  assert (forall t f, answer sinf atan2f cfg tick c' db pb t f = answer sinf atan2f cfg tick c db pb t f) as Ha
    by (intros; by apply answer_courtesy).
  assert (forall t fs, existsb (matches sinf atan2f cfg tick c' db pb t) fs = existsb (matches sinf atan2f cfg tick c db pb t) fs) as Hm.
  { intros t fs. induction fs as [|f fs IH]; cbn; [done|]. unfold matches at 1 3. by rewrite Ha, IH. }
  destruct (default_chain_spec sinf atan2f cfg tick c' db pb Hq _ hdb Hnd) as (nd & h1 & r1 & -> & Hr1 & Hh1 & Hc1).
  rewrite Hm in Hr1. cbn [mbind option_bind orb]. rewrite Hr1.
  destruct (existsb _ (negdefaultfilters cf)).
  { do 2 eexists. split; [reflexivity|]. repeat split; cbn; done || apply cache_refl. }
  destruct (default_chain_spec sinf atan2f cfg tick c' db pb Hq _ h1 Hpd) as (pd & h2 & r2 & -> & Hr2 & Hh2 & Hc2).
  rewrite Hm, Hh1 in Hr2. rewrite Hh1 in Hh2. cbn [mbind option_bind orb negb andb]. rewrite Hr2.
  destruct (existsb _ (posdefaultfilters cf)).
  { do 2 eexists. split; [reflexivity|]. repeat split; cbn; done || apply cache_refl || lia. }
  destruct (user_chain_spec sinf atan2f cfg tick c' db pb Hq _ h2 (cf_warned cf) x Hnu Hkn)
    as (nu & h3 & r3 & -> & Hr30 & Hr3 & Hh3 & Hc3).
  rewrite Hm, Hh2 in Hr3. rewrite Hh2 in Hh3. cbn [mbind option_bind orb negb andb].
  destruct (Z.ltb_spec r3 0); [lia|]. rewrite Hr3.
  destruct (existsb _ (neguserfilters cf)).
  { do 2 eexists. split; [reflexivity|]. repeat split; cbn; done || apply cache_refl. }
  destruct (user_chain_spec sinf atan2f cfg tick c' db pb Hq _ h3 (cf_warned cf) x Hpu Hkp)
    as (pu & h4 & r4 & -> & Hr40 & Hr4 & Hh4 & Hc4).
  rewrite Hm, Hh3 in Hr4. rewrite Hh3 in Hh4. cbn [mbind option_bind orb negb andb].
  do 2 eexists. split; [reflexivity|]. repeat split; cbn; done.
Qed.

End Decision.

(** ** The parser makes well-formed filters *)

Lemma i16_le z : 0 <= z -> i16 z <= z.
Proof. intros Hz. unfold i16. pose proof (Z.mod_le (z + 2 ^ 15) (2 ^ 16)). lia. Qed.

Lemma to_slash_range s : 0 <= to_slash s <= zlen s.
Proof.
  induction s as [|c s IH]; cbn [to_slash]; [done|]. rewrite zlen_cons. pose proof (zlen_nonneg s). split_if; lia.
Qed.

Lemma scan_call_len s call dist rest : scan_call_dist s = Some (call, dist, rest) -> zlen call <= CALLSIGNLEN_MAX.
Proof.
  intros H. unfold scan_call_dist in H. inv_bind H. split_if_in H; [done|]. inv_bind H. destruct x0 as [d r].
  injection H as <- _ _. unfold zlen. rewrite length_take. unfold CALLSIGNLEN_MAX. lia.
Qed.

(** What a type asks for when it is none of those with names. *)
Lemma parts_other f :
  set_type f.(f_type) = false -> tolower f.(f_type) <> 102 -> f.(f_type) <> 84 -> tolower f.(f_type) <> 115 -> parts_ok f.
Proof.
  intros H1 H2 H3 H4. unfold parts_ok. rewrite H1. destruct (Z.eqb_spec (tolower (f_type f)) 102); [done|].
  destruct (Z.eqb_spec (f_type f) 84); [done|]. by destruct (Z.eqb_spec (tolower (f_type f)) 115).
Qed.

Lemma parts_text f text buf heap :
  tolower f.(f_type) <> 115 -> parts_ok f -> parts_ok (set_f_text text buf heap f).
Proof.
  intros Ht. unfold parts_ok. cbn [f_type f_names f_numnames set_f_text].
  by destruct (Z.eqb_spec (tolower (f_type f)) 115).
Qed.

Lemma store_text_ok filt0 f : tolower f.(f_type) <> 115 -> filter_ok f -> filter_ok (store_text filt0 f).
Proof. intros Ht [H1 H2 H3]. unfold store_text. split_if; (split; [done|done|by apply parts_text]). Qed.

Section ParseOk.
Context (cosf : spec_float -> spec_float) (filt0 : list Z) (type : Z).
Context (Hcode : filter_code_ok type = true).
Abbreviation f0 := (zero_filter type).

Lemma set_type_of l : tolower type = l -> set_type type = existsb (fun x => x =? l) (str "bdegopu").
Proof. by intros <-. Qed.

(** A filter that keeps its letter and has no names. *)
Definition nameless (f : filter_t) : Prop := filter_ok f /\ tolower f.(f_type) <> 115.

Lemma plain_ok l f :
  tolower type = l -> existsb (fun x => x =? l) (str "amr") = true -> f.(f_type) = type -> f.(f_negation) = false ->
  filter_ok f.
Proof.
  intros Hl Ha Ht Hn. change (str "amr") with [97; 109; 114] in Ha. cbn [existsb] in Ha.
  split; [by rewrite Ht|done|]. apply parts_other; rewrite Ht; rewrite ?Hl.
  - rewrite (set_type_of l) by done. change (str "bdegopu") with [98; 100; 101; 103; 111; 112; 117]. cbn [existsb]. lia.
  - lia.
  - intros ->. change (tolower 84) with 116 in Hl. lia.
  - lia.
Qed.

Lemma parse_a_ok s f : tolower type = 97 -> parse_a s f0 = inr f -> nameless f.
Proof.
  intros Hl H. unfold parse_a in H. destruct (_ ≫= _) as [[[[a b] e] g]|]; [|done].
  repeat (split_if_in H; [discriminate H|]). injection H as <-. split; [by apply (plain_ok 97)|by cbn; rewrite Hl].
Qed.

Lemma parse_m_ok s f : tolower type = 109 -> parse_m s f0 = inr f -> nameless f.
Proof.
  intros Hl H. unfold parse_m in H. destruct (scan_slash_f s) as [[d r]|]; [|done].
  split_if_in H; [done|]. injection H as <-. split; [by apply (plain_ok 109)|by cbn; rewrite Hl].
Qed.

Lemma parse_r_ok s f : tolower type = 114 -> parse_r cosf s f0 = inr f -> nameless f.
Proof.
  intros Hl H. unfold parse_r in H. destruct (_ ≫= _) as [[[a b] e]|]; [|done].
  repeat (split_if_in H; [discriminate H|]). injection H as <-. split; [by apply (plain_ok 114)|by cbn; rewrite Hl].
Qed.

Lemma parse_f_ok s f : tolower type = 102 -> parse_f s f0 = inr f -> nameless f.
Proof.
  intros Hl H. unfold parse_f in H. destruct (scan_call_dist s) as [[[call d] r]|] eqn:E; [|done].
  split_if_in H; [done|]. injection H as <-. apply scan_call_len in E. split; [|by cbn; rewrite Hl].
  split; [done|done|]. unfold parts_ok. cbn [f_type set_f_ref set_f_pos zero_filter]. rewrite (set_type_of 102), Hl by done. cbn.
  eexists. split; [done|]. cbn. split; [apply zlen_nonneg|done].
Qed.

Lemma parse_q_ok s f : parse_q s f0 = inr f -> nameless f.
Proof.
  intros H. unfold parse_q in H. destruct (_ ≫= _); [|done]. injection H as <-. split; [|done].
  split; [done|done|]. by apply parts_other.
Qed.

Lemma parse_t_ok s f : parse_t s f0 = inr f -> nameless f.
Proof.
  intros H. unfold parse_t in H. destruct (_ ≫= _) as [[bits r]|]; [|done].
  split_if_in H; [|injection H as <-; split; [|done]; split; [done|done|by apply parts_other]].
  destruct (scan_call_dist r) as [[[call d] u]|] eqn:E; [|done]. split_if_in H; [done|]. injection H as <-.
  apply scan_call_len in E. split; [|done]. split; [done|done|]. eexists. split; [done|]. cbn. split; [apply zlen_nonneg|done].
Qed.

Lemma drop_slash p : 0 <= p <= zlen filt0 -> 0 <= to_slash (drop (Z.to_nat p) filt0) <= zlen filt0 - p.
Proof. intros Hp. pose proof (to_slash_range (drop (Z.to_nat p) filt0)) as H. unfold zlen in *. rewrite length_drop in H. lia. Qed.

Lemma drop_nonempty p : 0 <= p -> drop (Z.to_nat p) filt0 <> [] -> p < zlen filt0.
Proof.
  intros Hp Hd. destruct (Z.lt_ge_cases p (zlen filt0)); [done|]. destruct Hd. apply drop_ge. unfold zlen in *. lia.
Qed.

Lemma s_made len1s len1 s2 l2 s3 l3 :
  tolower type = 115 ->
  (forall f, f.(f_text) = filt0 -> in_text f len1s len1 /\ in_text f s2 l2 /\ in_text f s3 l3) ->
  filter_ok (store_text filt0
    (mk_filter f0.(f_text) f0.(f_textbuf) f0.(f_heap) f0.(f_latN) f0.(f_lonE) f0.(f_latS) f0.(f_lonW) f0.(f_hist_age)
       f0.(f_type) f0.(f_negation) len1s len1 (Lens s2 l2 s3 l3))).
Proof.
  intros Hl Hin. unfold store_text. set (g := mk_filter _ _ _ _ _ _ _ _ _ _ _ _ _).
  assert (forall buf heap, filter_ok (set_f_text filt0 buf heap g)) as H; [|split_if; apply H].
  intros buf heap. split; [done|done|]. unfold parts_ok. cbn [f_type set_f_text g zero_filter].
  rewrite (set_type_of 115), Hl by done. change (existsb _ _) with false. cbn [orb Z.eqb Pos.eqb].
  destruct (Z.eqb_spec type 84) as [E|]; [by rewrite E in Hl|].
  exists s2, l2, s3, l3. split; [done|]. by apply (Hin (set_f_text filt0 buf heap g)).
Qed.

Lemma parse_s_ok f : tolower type = 115 -> filter_parse_one_s filt0 f0 = inr f -> filter_ok (store_text filt0 f).
Proof.
  intros Hl H. unfold filter_parse_one_s in H. set (p := match rd filt0 _ with Some _ => _ | None => _ end) in H.
  destruct (bool_decide (rd filt0 p = Some ch_slash)) eqn:E; [|done]. cbn [negb] in H.
  apply bool_decide_eq_true in E. apply rd_Some in E. clearbody p.
  pose proof (drop_slash (p + 1) ltac:(lia)) as H1. set (len2 := p + 1 + _) in *.
  case_bool_decide as E2.
  { injection H as <-. apply s_made; [done|]. intros g Hg. unfold in_text. rewrite Hg. lia. }
  apply drop_nonempty in E2; [|lia]. pose proof (drop_slash (len2 + 1) ltac:(lia)) as H2. set (len4 := len2 + 1 + _) in *.
  case_bool_decide as E4.
  { injection H as <-. apply s_made; [done|]. intros g Hg. unfold in_text. rewrite Hg. lia. }
  apply drop_nonempty in E4; [|lia]. split_if_in H; [done|]. injection H as <-.
  apply s_made; [done|]. intros g Hg. unfold in_text. rewrite Hg. lia.
Qed.

Lemma set_type_not_s t : set_type t = true -> tolower t <> 115.
Proof. unfold set_type. change (str _) with [98; 100; 101; 103; 111; 112; 117]. cbn [existsb]. lia. Qed.

Lemma set_ok ff wildok e f :
  set_type type = true -> (forall f, ff = Some f -> filter_ok f) ->
  filter_parse_one_callsignset filt0 f0 ff wildok = Some (inr (e, f)) -> filter_ok f /\ f.(f_type) = type.
Proof.
  intros Hs Hff H. unfold filter_parse_one_callsignset in H. split_if_in H; [done|].
  destruct (parse_refs _ _ _ _) as [refs|]; [|done].
  assert (forall g e f, g = Some (inr (false, mk_filter f0.(f_text) f0.(f_textbuf) f0.(f_heap) f0.(f_latN) f0.(f_lonE) f0.(f_latS) f0.(f_lonW)
            f0.(f_hist_age) f0.(f_type) f0.(f_negation) (i16 (zlen refs)) f0.(f_bitflags) (RefCallsigns refs))) ->
          g = Some (inr (e, f)) :> option (Z + bool * filter_t) -> filter_ok f /\ f.(f_type) = type) as Hfresh.
  { intros g e' f' -> [= _ <-]. split; [|done]. split; [done|done|]. unfold parts_ok. cbn [f_type zero_filter]. rewrite Hs.
    exists refs. split; [done|]. cbn. apply i16_le, zlen_nonneg. }
  destruct ff as [ff|]; [|by eapply Hfresh].
  destruct (Z.eqb_spec (f_type ff) (f_type f0)) as [Et|]; [|by eapply Hfresh].
  destruct (f_names ff) as [| | |old]; try done. inv_bind H. destruct x as [[text buf] heap]. injection H as _ <-.
  destruct (Hff ff eq_refl) as [F1 F2 F3]. split; [|done]. split; [done|done|].
  unfold parts_ok. cbn [f_type f_names f_numnames]. rewrite Et. cbn [f_type zero_filter]. rewrite Hs.
  eexists. split; [done|]. apply i16_le, zlen_nonneg.
Qed.
End ParseOk.

Lemma code_set t :
  filter_code_ok t = true -> existsb (fun x => x =? tolower t) [0; 97; 102; 109; 112; 113; 114; 115; 116] = false ->
  set_type t = true.
Proof.
  intros Hc Hn. destruct (existsb (fun x => x =? tolower t) (str "abdefgmopqrstu")) eqn:E.
  - unfold set_type. change (str "abdefgmopqrstu") with [97; 98; 100; 101; 102; 103; 109; 111; 112; 113; 114; 115; 116; 117] in E.
    change (str _) with [98; 100; 101; 103; 111; 112; 117]. cbn [existsb] in *. lia.
  - apply code_known in E as ->; done.
Qed.

(** Whatever the text: a new filter is well formed with its text, and one that is extended
    stays so. *)
Lemma parse_item_ok cosf filt0 ff e f :
  (forall f, ff = Some f -> filter_ok f) -> parse_item cosf filt0 ff = Some (inr (e, f)) ->
  if (e : bool) then filter_ok f else filter_ok (store_text filt0 f).
Proof.
  intros Hff H. unfold parse_item in H. set (type := hd 0 (skip_minus filt0)) in H. set (s := tl _) in H.
  destruct (filter_code_ok type) eqn:Hcode; [|done]. cbn [negb] in H. clearbody type s.
  assert (forall r, lift_new r = Some (inr (e, f)) ->
            (forall g, r = inr g -> filter_ok (store_text filt0 g)) ->
            if e then filter_ok f else filter_ok (store_text filt0 f)) as Hnew
    by (intros [z|g] [= <- <-] Hg; by apply Hg).
  assert (forall g, nameless g -> filter_ok (store_text filt0 g)) as Hst by (intros g [? ?]; by apply store_text_ok).
  repeat match type of H with
  | (if ?b then _ else _) = _ => let E := fresh "E" in destruct b eqn:E; [apply Z.eqb_eq in E|]
  end.
  - apply (Hnew _ H). intros g Hg. by eapply Hst, parse_a_ok.
  - apply (Hnew _ H). intros g Hg. by eapply Hst, parse_f_ok.
  - apply (Hnew _ H). intros g Hg. by eapply Hst, parse_m_ok.
  - eapply set_ok in H as [Hf Ht]; [|done|by unfold set_type; rewrite E2|done]. destruct e; [done|].
    apply store_text_ok; [|done]. rewrite Ht, E2. done.
  - apply (Hnew _ H). intros g Hg. by eapply Hst, parse_q_ok.
  - apply (Hnew _ H). intros g Hg. by eapply Hst, parse_r_ok.
  - apply (Hnew _ H). intros g Hg. by eapply parse_s_ok.
  - apply (Hnew _ H). intros g Hg. by eapply Hst, parse_t_ok.
  - apply (Hnew _ H). intros g [= <-]. apply Hst. split; [split; [done|done|]|by cbn; rewrite E7].
    apply parts_other; cbn; unfold set_type; rewrite ?E7; try done. intros ->. done.
  - assert (set_type type = true) as Hs by (apply code_set; [done|]; cbn [existsb]; lia).
    eapply set_ok in H as [Hf Ht]; [|done|done|done]. destruct e; [done|].
    apply store_text_ok; [|done]. rewrite Ht. by apply set_type_not_s.
Qed.

(** ** The filters of a client *)

Definition filter_count (cf : client_filters) : Z :=
  zlen cf.(negdefaultfilters) + zlen cf.(posdefaultfilters) + zlen cf.(neguserfilters) + zlen cf.(posuserfilters).

Lemma chain_of_ok is_user neg cf : filters_ok cf -> Forall filter_ok (chain_of is_user neg cf).
Proof. intros [H1 H2 H3 H4]. by destruct is_user, neg. Qed.

Lemma set_chain_ok is_user neg l cf : filters_ok cf -> Forall filter_ok l -> filters_ok (set_chain is_user neg l cf).
Proof. intros [H1 H2 H3 H4] Hl. by destruct is_user, neg. Qed.

Lemma set_chain_count is_user neg l cf :
  filter_count (set_chain is_user neg l cf) = filter_count cf - zlen (chain_of is_user neg cf) + zlen l.
Proof. unfold filter_count. destruct is_user, neg; cbn; lia. Qed.

Lemma last_filter_ok chain f : Forall filter_ok chain -> last_filter chain = Some f -> filter_ok f.
Proof. intros Hc Hl. by eapply Forall_lookup_1. Qed.

Lemma parse_item_extends cosf filt0 f : parse_item cosf filt0 None <> Some (inr (true, f)).
Proof.
  unfold parse_item, filter_parse_one_callsignset, lift_new. intros H.
  repeat match type of H with context [match ?x with _ => _ end] => destruct x; try discriminate H end.
Qed.

Lemma add_filter_ok (e : bool) f chain :
  Forall filter_ok chain -> filter_ok f -> (e = true -> chain <> []) ->
  Forall filter_ok (add_filter e f chain) /\ zlen (add_filter e f chain) = zlen chain + if e then 0 else 1.
Proof.
  intros Hc Hf He. unfold add_filter. destruct e; (split; [apply Forall_app; split; [by try apply Forall_take|by constructor]|]);
    rewrite zlen_app; change (zlen [f]) with 1; [|lia].
  unfold zlen. rewrite length_take. destruct chain; [by destruct (He eq_refl)|]. cbn. lia.
Qed.

Lemma filter_parse_keeps cosf mem flags filt0 is_user cf gauge cf' gauge' rc :
  filters_ok cf -> filter_parse cosf mem flags filt0 is_user cf gauge = Some (cf', gauge', rc) ->
  filters_ok cf' /\ gauge' - filter_count cf' = gauge - filter_count cf /\ (rc <> 0 -> cf' = cf) /\
  cf'.(cf_filter_s) = cf.(cf_filter_s) /\
  (is_user = true -> cf'.(negdefaultfilters) = cf.(negdefaultfilters) /\ cf'.(posdefaultfilters) = cf.(posdefaultfilters)).
Proof.
  intros Hcf H. unfold filter_parse in H. split_if_in H.
  { injection H as <- <- _. done. }
  set (neg := negative filt0) in H. pose proof (chain_of_ok is_user neg cf Hcf) as Hch.
  destruct (parse_item _ _ _) as [[z|[e f]]|] eqn:E; [|..|done]; cbn [mbind option_bind] in H.
  { injection H as <- <- _. done. }
  assert (e = true -> chain_of is_user neg cf <> []) as Hne.
  { intros -> Hn. rewrite Hn in E. by eapply parse_item_extends. }
  pose proof (parse_item_ok cosf filt0 _ e f (fun g Hg => last_filter_ok _ g Hch Hg) E) as Hok.
  assert (forall g, filter_ok g -> filters_ok (set_chain is_user neg (add_filter e g (chain_of is_user neg cf)) cf) /\
            filter_count (set_chain is_user neg (add_filter e g (chain_of is_user neg cf)) cf) = filter_count cf + if e then 0 else 1)
    as Hadd.
  { intros g Hg. destruct (add_filter_ok e g (chain_of is_user neg cf) Hch Hg Hne) as [Ha Hz].
    split; [by apply set_chain_ok|]. rewrite set_chain_count, Hz. lia. }
  assert (forall l, is_user = true -> negdefaultfilters (set_chain is_user neg l cf) = negdefaultfilters cf /\
            posdefaultfilters (set_chain is_user neg l cf) = posdefaultfilters cf) as Hdef by (by intros l ->).
  destruct e.
  - injection H as <- <- <-. destruct (Hadd f Hok) as [Ha Hz]. split; [done|].
    split; [etrans; [exact (f_equal (Z.sub _) Hz)|lia]|]. split; [done|]. split; [done|]. by apply Hdef.
  - destruct mem; injection H as <- <- <-; [|done].
    destruct (Hadd _ Hok) as [Ha Hz]. split; [done|].
    split; [etrans; [exact (f_equal (Z.sub _) Hz)|lia]|]. split; [done|]. split; [done|]. by apply Hdef.
Qed.


(** ** The filter command *)

(** The same server's filters, warning and status text. *)
Definition same_defaults (cf cf' : client_filters) : Prop :=
  cf'.(negdefaultfilters) = cf.(negdefaultfilters) /\ cf'.(posdefaultfilters) = cf.(posdefaultfilters).

Lemma parse_filters_keeps cosf mem flags args cf gauge cf' gauge' :
  filters_ok cf -> parse_filters cosf mem flags args cf gauge = Some (cf', gauge') ->
  filters_ok cf' /\ gauge' - filter_count cf' = gauge - filter_count cf /\ same_defaults cf cf'.
Proof.
  revert cf gauge. induction args as [|a args IH]; intros cf gauge Hcf H; cbn [parse_filters] in H.
  { injection H as <- <-. done. }
  inv_bind H. destruct x as [[cf1 g1] rc]. apply filter_parse_keeps in E as (H1 & H2 & _ & _ & H3); [|done].
  apply IH in H as (H4 & H5 & H6 & H7); [|done]. destruct (H3 eq_refl) as [H8 H9].
  split; [done|]. split; [lia|]. split; congruence.
Qed.

(** The gauge is only counted on. *)
Lemma filter_parse_shift cosf mem flags filt0 is_user cf g k :
  filter_parse cosf mem flags filt0 is_user cf (g + k) =
  '(cf', g', rc) ← filter_parse cosf mem flags filt0 is_user cf g; Some (cf', g' + k, rc).
Proof.
  unfold filter_parse. split_if; [done|]. destruct (parse_item _ _ _) as [[z|[[] f]]|]; cbn [mbind option_bind]; try done.
  destruct mem; [|done]. cbn [mbind option_bind]. do 3 f_equal. lia.
Qed.

Lemma parse_filters_shift cosf mem flags args cf g k :
  parse_filters cosf mem flags args cf (g + k) =
  '(cf', g') ← parse_filters cosf mem flags args cf g; Some (cf', g' + k).
Proof.
  revert cf g. induction args as [|a args IH]; intros cf g; cbn [parse_filters]; [done|].
  rewrite filter_parse_shift. destruct (filter_parse _ _ _ _ _ _ _) as [[[cf1 g1] rc]|]; cbn [mbind option_bind]; [|done].
  apply IH.
Qed.

Lemma drop_user_ok cf : filters_ok cf -> filters_ok (drop_user cf).
Proof. intros [H1 H2 H3 H4]. by split. Qed.

Section Commands.
Context {W : Type} {ops : ServerOps W}.
Context (cosf : spec_float -> spec_float) (cfg : config) (mem : bool).

(** A filter command of a client, whatever its text, leaves the filters of the
    client well formed, the server's chains as they were and the gauge in step with the
    number of filters; and when it defines filters it replaces the user's filters: what was
    defined before has no influence on the filters there are afterwards, nor on
    the reply. *)
Theorem filter_command_replaces c in_message s len cf gauge (x : W) cf' gauge' x' rc :
  filters_ok cf ->
  filter_commands cosf cfg mem c in_message s len cf gauge x = Some (cf', gauge', x', rc) ->
  filters_ok cf' /\ same_defaults cf cf' /\ gauge' - filter_count cf' = gauge - filter_count cf /\
  (rd s 6 = Some ch_sp -> forall cf0 gauge0, same_defaults cf cf0 ->
     cf0.(cf_filter_s) = cf.(cf_filter_s) -> cf0.(cf_warned) = cf.(cf_warned) ->
     exists gauge1, filter_commands cosf cfg mem c in_message s len cf0 gauge0 x = Some (cf', gauge1, x', rc)).
Proof.
  intros Hcf H. unfold filter_commands in H. destruct (rd s 6) as [ch|] eqn:Ech; [|done]. cbn [mbind option_bind] in H.
  split_if_in H.
  { destruct (op_write _ _ _) as [y r]. injection H as <- <- _ _. repeat split; try done; try apply Hcf. intros [= ->]. lia. }
  split_if_in H.
  { destruct (filter_command_reply _ _ _ _ _) as [y r]. injection H as <- <- _ _. repeat split; try done; try apply Hcf.
    intros [= ->]. lia. }
  inv_bind H. rename E into Edef.
  assert (filter_free (posuserfilters cf) (filter_free (neguserfilters cf) gauge) - filter_count (drop_user cf)
          = gauge - filter_count cf) as Hfree by (unfold filter_free, filter_count; cbn; change (@zlen filter_t []) with 0; lia).
  assert (forall cf0, same_defaults cf cf0 -> cf0.(cf_filter_s) = cf.(cf_filter_s) -> cf0.(cf_warned) = cf.(cf_warned) ->
            drop_user cf0 = drop_user cf) as Hdrop by (intros cf0 [E1 E2] E3 E4; unfold drop_user; congruence).
  destruct (x0 && _) eqn:Ed.
  { destruct (filter_command_reply _ _ _ _ _) as [y r] eqn:Er. injection H as <- <- <- <-.
    split; [by apply drop_user_ok|]. split; [done|]. split; [done|]. intros _ cf0 g0 Hd Hs Hw. unfold filter_commands.
    rewrite Ech. cbn [mbind option_bind]. rewrite Heqb, Heqb0, Edef. cbn [mbind option_bind].
    rewrite Ed, Er, (Hdrop cf0) by done. by eexists. }
  inv_bind H. inv_bind H. destruct x2 as [cf1 g1]. destruct (filter_command_reply _ _ _ _ _) as [y r] eqn:Er.
  injection H as <- <- <- <-. apply parse_filters_keeps in E0 as Hk; [|by destruct (drop_user_ok cf Hcf)].
  destruct Hk as (Hk1 & Hk2 & Hk3). split; [done|]. split; [done|]. split; [by rewrite <- Hfree|].
  intros _ cf0 g0 Hd Hs Hw. unfold filter_commands. rewrite Ech. cbn [mbind option_bind].
  rewrite Heqb, Heqb0, Edef. cbn [mbind option_bind]. rewrite Ed, E. cbn [mbind option_bind]. rewrite (Hdrop cf0) by done.
  match type of E0 with parse_filters _ _ _ _ _ ?g = _ =>
    match goal with |- context [parse_filters _ _ _ _ _ ?h] => replace h with (g + (h - g)) by lia end end.
  rewrite parse_filters_shift, E0. cbn [mbind option_bind]. rewrite Er. by eexists.
Qed.
End Commands.

(** * Concrete runs *)

Definition no_filters : client_filters := mk_client_filters [] [] [] [] [] false.
Definition demo_patterns : list pattern := [mk_pattern (str "OH7LZB") false; mk_pattern (str "OH2") true].

Lemma pattern_ok_b p :
  (1 <=? zlen p.(pt_call)) && (zlen p.(pt_call) <=? CALLSIGNLEN_MAX)
  && forallb (fun c => negb (c =? 0) && negb (c =? ch_slash) && negb (c =? ch_star)) p.(pt_call) = true -> pattern_ok p.
Proof.
  intros H. apply andb_true_iff in H as [H1 H2]. split; [lia|]. apply list.Forall_forall. intros c Hc.
  rewrite forallb_forall in H2. apply list_elem_of_In, H2 in Hc. lia.
Qed.

Lemma demo_patterns_ok : Forall pattern_ok demo_patterns.
Proof. do 2 (constructor; [apply pattern_ok_b; reflexivity|]). constructor. Qed.

Lemma set_filter_roundtrip_witness :
  str "-b/OH7LZB/OH2*" = set_text true 98 demo_patterns /\
  exists f,
    filter_parse (fun x => x) true CLFLAGS_USERFILTEROK (str "-b/OH7LZB/OH2*") true no_filters 7 =
      Some (set_chain true true [f] no_filters, 8, 0) /\
    filter_match_on_callsignset (str "oh2rdg-7") 8 f MatchWild = Some 1 /\
    filter_match_on_callsignset (str "OH7LZB-9") 8 f MatchWild = Some 0.
Proof.
  split; [reflexivity|].
  destruct (set_filter_roundtrip (fun x => x) CLFLAGS_USERFILTEROK true true 98 demo_patterns no_filters 7)
    as (f & Hp & _ & _ & Hm); try reflexivity; try discriminate; [exact demo_patterns_ok|].
  exists f. split; [exact Hp|].
  split; [rewrite (Hm MatchWild (str "oh2rdg-7") : filter_match_on_callsignset _ 8 f _ = _)
         |rewrite (Hm MatchWild (str "OH7LZB-9") : filter_match_on_callsignset _ 8 f _ = _)]; vm_compute; reflexivity.
Defined.

Definition demo_filter (text : string) : filter_t :=
  match filter_parse (fun x => x) true CLFLAGS_USERFILTEROK (str text) true no_filters 0 with
  | Some (cf, _, _) => hd (zero_filter 0) (posuserfilters cf)
  | None => zero_filter 0
  end.

Lemma demo_filter_set : set_filter 98 demo_patterns (demo_filter "b/OH7LZB/OH2*").
Proof. split; try (vm_compute; reflexivity). exact demo_patterns_ok. Qed.

Definition with_filters (fs : list filter_t) : client_filters := mk_client_filters [] [] [] fs [] false.

Lemma set_filter_extends_witness :
  exists f,
    filter_parse (fun x => x) true CLFLAGS_USERFILTEROK (str "b/N0CALL") true
      (with_filters [demo_filter "b/OH7LZB/OH2*"]) 1 = Some (with_filters [f], 1, 0) /\
    filter_match_on_callsignset (str "n0call") 6 f MatchWild = Some 1.
Proof.
  destruct (set_filter_extends (fun x => x) CLFLAGS_USERFILTEROK true false 98 demo_patterns
              [mk_pattern (str "N0CALL") false] (with_filters [demo_filter "b/OH7LZB/OH2*"]) 1 []
              (demo_filter "b/OH7LZB/OH2*")) as (f & Hp & Hm);
    try (vm_compute; reflexivity); try discriminate.
  - constructor; [apply pattern_ok_b; reflexivity|constructor].
  - exact demo_filter_set.
  - by split; vm_compute.
  - exists f. split; [exact Hp|]. rewrite (Hm MatchWild (str "n0call") : filter_match_on_callsignset _ 6 f _ = _).
    vm_compute. reflexivity.
Defined.

(** The packet of an igate, ready for the filters. *)
Definition demo_ready : pbuf_t := preprocessed demo_cfg (demo_gated "_10090556c220").

Lemma demo_ready_ok : queue_ok demo_ready.
Proof.
  apply preprocessed_ok. split.
  - split; vm_compute; intuition congruence.
  - exact demo_gated_ok.
  - split; try (vm_compute; intuition congruence).
  - vm_compute. intuition congruence.
  - vm_compute. intuition congruence.
  - intros Hk. split; [apply bytes_ok_b; vm_compute; reflexivity|vm_compute; intuition congruence..|exact Hk| | |];
      vm_compute; intuition congruence.
Qed.

Lemma set_filter_meaning_witness :
  filter_process_one (fun x => x) (fun x _ => x) demo_cfg 1000 (demo_client "N1CALL" 0 1) filterdb_zero demo_ready
    (demo_filter "b/OH7LZB/OH2*") historydb_zero = Some (1, demo_filter "b/OH7LZB/OH2*", historydb_zero).
Proof.
  rewrite (set_filter_meaning (fun x => x) (fun x _ => x) demo_cfg 1000 (demo_client "N1CALL" 0 1) filterdb_zero
             demo_ready 98 demo_patterns (demo_filter "b/OH7LZB/OH2*") historydb_zero demo_ready_ok demo_filter_set eq_refl).
  reflexivity.
Defined.

Lemma demo_digi_set : set_filter 100 [mk_pattern (str "OH7AA") true] (demo_filter "d/OH7AA*").
Proof. split; try (vm_compute; reflexivity). constructor; [apply pattern_ok_b; reflexivity|constructor]. Qed.

Lemma digi_filter_meaning_witness :
  exists r, filter_process_one (fun x => x) (fun x _ => x) demo_cfg 1000 (demo_client "N1CALL" 0 1) filterdb_zero demo_ready
    (demo_filter "d/OH7AA*") historydb_zero = Some (r, demo_filter "d/OH7AA*", historydb_zero) /\ r = 1.
Proof.
  destruct (digi_filter_meaning (fun x => x) (fun x _ => x) demo_cfg 1000 (demo_client "N1CALL" 0 1) filterdb_zero
             demo_ready 100 [mk_pattern (str "OH7AA") true] (demo_filter "d/OH7AA*") historydb_zero
             [mk_hop (str "OH7AA-1") true] demo_ready_ok demo_digi_set) as (r & Hp & _ & Hr).
  - reflexivity.
  - constructor; [|constructor]. split; [vm_compute; intuition discriminate|].
    repeat (constructor; [vm_compute; intuition discriminate|]). constructor.
  - vm_compute. reflexivity.
  - exists r. split; [exact Hp|]. apply Hr. exists [], (mk_hop (str "OH7AA-1") true), [].
    vm_compute. repeat split; reflexivity.
Defined.

Lemma no_filters_ok : filters_ok no_filters.
Proof. split; constructor. Qed.


Lemma demo_filter_ok : filter_ok (demo_filter "b/OH7LZB/OH2*").
Proof. split; try (vm_compute; reflexivity). eexists. split; [vm_compute; reflexivity|]. vm_compute. congruence. Qed.

Lemma demo_with_ok : filters_ok (with_filters [demo_filter "b/OH7LZB/OH2*"]).
Proof. split; try constructor; [exact demo_filter_ok|constructor]. Qed.

Definition demo_fstate : filter_state (W := unit) :=
  mk_filter_state (demo_client "N1CALL" CLFLAGS_IGATE 1)
    (mk_client_filters [] [] [] [demo_filter "b/OH7LZB/OH2*"] [] false) historydb_zero tt.


(** The command with its NUL. *)
Definition demo_command : list Z := str "filter b/OH7LZB -p/OH2" ++ [0].

Lemma filter_command_replaces_witness :
  match @filter_commands unit demo_server (fun x => x) demo_cfg true (demo_client "N1CALL" CLFLAGS_USERFILTEROK 1) false
          demo_command 22 (with_filters [demo_filter "b/OH7LZB/OH2*"]) 1 tt with
  | Some (cf, gauge, _, _) =>
      filters_ok cf /\ filter_count cf = 2 /\ gauge = 2 /\
      exists gauge1, @filter_commands unit demo_server (fun x => x) demo_cfg true (demo_client "N1CALL" CLFLAGS_USERFILTEROK 1)
        false demo_command 22 no_filters 0 tt = Some (cf, gauge1, tt, 0)
  | None => False
  end.
Proof.
  destruct (filter_commands _ _ _ _ _ _ _ _ _ _) as [[[[cf gauge] []] rc]|] eqn:E; [|vm_compute in E; discriminate E].
  destruct (@filter_command_replaces unit demo_server _ _ _ _ _ _ _ _ _ _ _ _ _ _ demo_with_ok E) as (H1 & _ & H2 & H3).
  split; [exact H1|]. assert (rc = 0) as -> by (vm_compute in E; injection E; congruence).
  destruct (H3 eq_refl no_filters 0 (conj eq_refl eq_refl) eq_refl eq_refl) as [g Hg].
  vm_compute in E. injection E as <- <-. split; [vm_compute; reflexivity|]. split; [vm_compute; reflexivity|].
  exists g. exact Hg.
Defined.
