(* ===== verification/FilterText.v ===== *)
(** * filter.c: where the texts of the filters are kept

    A filter keeps its text in a buffer of 448 bytes inside its cell.  A filter of
    callsigns that is written in several parts is extended in place, and the code decides by the
    length of the text, wherever that is, whether the next part still fits in the buffer.  This
    file says for which commands every write stays inside the buffer, and has a
    command for which one does not. *)

From S2P Require Import Prelude Types Cfloat Cfgfile ParseAprs Filter FilterParse FilterSpec.
From Stdlib Require Import ZArith Lia Bool String.
From stdpp Require Import base tactics list.
Open Scope Z_scope.

(** The bytes the words of a command take, each with a separator. *)
Definition words_size (args : list (list Z)) : Z := foldr (fun a n => zlen a + 1 + n) 0 args.

(** A text in the built-in buffer, [k] bytes at most with its NUL. *)
Definition fits (k : Z) (f : filter_t) : Prop := in_buffer f /\ zlen f.(f_text) + 1 <= k.

(** The chains of the user, or of the port. *)
Definition chains_fit (u : bool) (k : Z) (cf : client_filters) : Prop :=
  forall neg, Forall (fits k) (chain_of u neg cf).

Lemma words_size_nonneg args : 0 <= words_size args.
Proof. induction args as [|a args IH]; cbn; [lia|]. pose proof (zlen_nonneg a). fold (words_size args). lia. Qed.

Lemma fits_le k k' f : fits k f -> k <= k' -> fits k' f.
Proof. intros [H1 H2] Hk. split; [done|lia]. Qed.

Lemma store_text_fits filt0 f : zlen filt0 + 1 <= FILT_TEXTBUFSIZE -> fits (zlen filt0 + 1) (store_text filt0 f).
Proof. intros H. unfold store_text. rewrite (proj2 (Z.ltb_lt _ _)) by lia. by repeat split. Qed.

(** Within the buffer, extending appends in place. *)
Lemma extend_text_fits k filt0 f :
  fits k f -> k + zlen filt0 + 1 <= FILT_TEXTBUFSIZE ->
  exists text, extend_text filt0 f = Some (text, text, false) /\ zlen text + 1 <= k + zlen filt0 + 1.
Proof.
  intros [[E Hh] Hk] Hb. unfold extend_text. rewrite Hh, E in *.
  rewrite (proj2 (Z.leb_le _ _)) by lia. rewrite !zlen_app. change (zlen [ch_sp]) with 1.
  rewrite (proj2 (Z.ltb_lt _ _)) by lia. eexists. split; [done|]. rewrite !zlen_app. change (zlen [ch_sp]) with 1. lia.
Qed.

(** Callsign filters: an error, a new filter, or an extension within the buffer. *)
Lemma callsignset_fits k filt0 type ff wildok :
  set_type type = true -> (forall f, ff = Some f -> filter_ok f /\ fits k f) ->
  k + zlen filt0 + 1 <= FILT_TEXTBUFSIZE ->
  exists r, filter_parse_one_callsignset filt0 (zero_filter type) ff wildok = Some r /\
    forall f, r = inr (true, f) -> fits (k + zlen filt0 + 1) f.
Proof.
  intros Hs Hff Hb. unfold filter_parse_one_callsignset. case_bool_decide; [by eexists|].
  destruct (parse_refs _ _ _ _) as [refs|]; [|by eexists].
  destruct ff as [ff|]; [|by eexists].
  destruct (Z.eqb_spec (f_type ff) (f_type (zero_filter type))) as [Et|]; [|by eexists].
  destruct (Hff ff eq_refl) as [[_ _ Hp] Hk]. unfold parts_ok in Hp. rewrite Et in Hp. cbn [f_type zero_filter] in Hp.
  rewrite Hs in Hp. destruct Hp as (old & -> & _).
  destruct (extend_text_fits k filt0 ff Hk Hb) as (text & -> & Hl). cbn [mbind option_bind].
  eexists. split; [done|]. intros f [= <-]. by repeat split.
Qed.

Lemma parse_item_fits cosf k filt0 ff :
  (forall f, ff = Some f -> filter_ok f /\ fits k f) -> k + zlen filt0 + 1 <= FILT_TEXTBUFSIZE ->
  exists r, parse_item cosf filt0 ff = Some r /\ forall f, r = inr (true, f) -> fits (k + zlen filt0 + 1) f.
Proof.
  intros Hff Hb. unfold parse_item. set (type := hd 0 _). set (s := tl _).
  destruct (filter_code_ok type) eqn:Hcode; [|by eexists]. cbn [negb].
  assert (forall r, exists r', lift_new r = Some r' /\ forall f, r' = inr (true, f) -> fits (k + zlen filt0 + 1) f) as Hnew
    by (intros [z|g]; by eexists).
  repeat match goal with
  | |- exists r, (if ?b then _ else _) = _ /\ _ => let E := fresh "E" in destruct b eqn:E; [apply Z.eqb_eq in E|]
  end; try apply Hnew.
  - apply callsignset_fits; [|done|done]. by unfold set_type; rewrite E2.
  - apply callsignset_fits; [|done|done]. apply code_set; [done|]. cbn [existsb]. lia.
Qed.

Lemma chains_fit_set u k neg l cf : chains_fit u k cf -> Forall (fits k) l -> chains_fit u k (set_chain u neg l cf).
Proof. intros H Hl []; destruct u, neg; try exact Hl; try exact (H true); exact (H false). Qed.

Lemma chains_fit_le u k k' cf : chains_fit u k cf -> k <= k' -> chains_fit u k' cf.
Proof. intros H Hk neg. eapply Forall_impl; [apply (H neg)|]. intros f Hf. by eapply fits_le. Qed.

Lemma filter_parse_fits u cosf mem flags k filt0 cf gauge :
  filters_ok cf -> chains_fit u k cf -> 0 <= k -> k + zlen filt0 + 1 <= FILT_TEXTBUFSIZE ->
  exists cf' gauge' rc,
    filter_parse cosf mem flags filt0 u cf gauge = Some (cf', gauge', rc) /\ chains_fit u (k + zlen filt0 + 1) cf'.
Proof.
  intros Hok Hcf Hk Hb. pose proof (zlen_nonneg filt0) as Hz.
  assert (chains_fit u (k + zlen filt0 + 1) cf) as Hcf' by (apply (chains_fit_le u k); [done|lia]).
  unfold filter_parse. split_if; [by do 3 eexists|]. set (neg := negative filt0).
  destruct (parse_item_fits cosf k filt0 (last_filter (chain_of u neg cf))) as (r & -> & Hr); [|done|].
  { intros f Hf. split; [by eapply last_filter_ok; [apply chain_of_ok|]|]. eapply Forall_lookup_1; [apply (Hcf neg)|exact Hf]. }
  assert (forall e f, fits (k + zlen filt0 + 1) f ->
            chains_fit u (k + zlen filt0 + 1) (set_chain u neg (add_filter e f (chain_of u neg cf)) cf)) as Hadd.
  { intros e f Hf. apply chains_fit_set; [done|]. unfold add_filter.
    destruct e; apply Forall_app; (split; [try apply Forall_take; apply (Hcf' neg)|by constructor]). }
  cbn [mbind option_bind]. destruct r as [z|[[] f]]; [by do 3 eexists| |].
  - do 3 eexists. split; [done|]. by apply Hadd, Hr.
  - destruct mem; do 3 eexists; (split; [done|]); [|done]. apply Hadd.
    eapply fits_le; [apply store_text_fits|]; lia.
Qed.

Lemma parse_filters_fit cosf mem flags args k cf gauge :
  filters_ok cf -> chains_fit true k cf -> 0 <= k -> k + words_size args <= FILT_TEXTBUFSIZE ->
  exists cf' gauge', parse_filters cosf mem flags args cf gauge = Some (cf', gauge') /\
    chains_fit true (k + words_size args) cf'.
Proof.
  revert k cf gauge. induction args as [|a args IH]; intros k cf gauge Hok Hcf Hk Hb; cbn [parse_filters].
  { do 2 eexists. split; [done|]. apply (chains_fit_le true k); [done|]. cbn. lia. }
  cbn [words_size foldr] in *. fold (words_size args) in *. pose proof (words_size_nonneg args). pose proof (zlen_nonneg a).
  destruct (filter_parse_fits true cosf mem flags k a cf gauge) as (cf1 & g1 & rc & E & H1); [done|done|lia|lia|].
  rewrite E. cbn [mbind option_bind]. apply filter_parse_keeps in E as (Hok1 & _); [|done].
  replace (k + (zlen a + 1 + words_size args)) with (k + zlen a + 1 + words_size args) by lia.
  apply IH; try done; lia.
Qed.

(** C40: The filters of a command whose words take 448 bytes at most, separators
    counted, are read without a write outside the text buffer of a filter, whatever the
    words are: every part that extends a filter is appended within the buffer, and
    the text of every filter of the user is in the buffer afterwards, its NUL included. *)
Theorem filter_text_fits cosf mem flags args cf gauge :
  filters_ok cf -> words_size args <= FILT_TEXTBUFSIZE ->
  exists cf' gauge',
    parse_filters cosf mem flags args (drop_user cf) gauge = Some (cf', gauge') /\
    forall f, f ∈ cf'.(neguserfilters) ++ cf'.(posuserfilters) ->
      f.(f_text) = f.(f_textbuf) /\ f.(f_heap) = false /\ zlen f.(f_textbuf) + 1 <= FILT_TEXTBUFSIZE.
Proof.
  intros Hok Hb. destruct (parse_filters_fit cosf mem flags args 0 (drop_user cf) gauge) as (cf' & g' & E & H);
    [by apply drop_user_ok|by intros []; constructor|lia|lia|].
  exists cf', g'. split; [done|]. intros f Hf.
  assert (fits (0 + words_size args) f) as [[E1 E2] Hl].
  { apply elem_of_app in Hf as [Hf|Hf]; [apply (Forall_forall (fits (0 + words_size args)) _) with (2 := Hf), (H true)
    |apply (Forall_forall (fits (0 + words_size args)) _) with (2 := Hf), (H false)]. }
  rewrite <- E1. repeat split; try done. lia.
Qed.

(** The words of [b/OH7LZB -p/OH2 b/N0CALL]. *)
Definition demo_words : list (list Z) := parse_args (str "b/OH7LZB -p/OH2 b/N0CALL").

Lemma filter_text_fits_witness :
  exists cf' gauge',
    parse_filters (fun x => x) true CLFLAGS_USERFILTEROK demo_words (drop_user no_filters) 0 = Some (cf', gauge') /\
    Forall (fun f => zlen f.(f_textbuf) + 1 <= FILT_TEXTBUFSIZE) cf'.(posuserfilters).
Proof.
  destruct (filter_text_fits (fun x => x) true CLFLAGS_USERFILTEROK demo_words no_filters 0 no_filters_ok)
    as (cf' & g' & E & H); [vm_compute; discriminate|].
  exists cf', g'. split; [exact E|]. apply Forall_forall. intros f Hf. apply H, elem_of_app. right. exact Hf.
Defined.

(** One long callsign and five short ones: the second word moves the text to an
    allocation of its own and the third to another one, without the second.  The length of that
    text stays, so each of the last three words is found to fit and is appended to
    the buffer, the last one past its end. *)
Definition long_words : list (list Z) := parse_args (str "b/" ++ repeat 65 437 ++ str " b/AAAAAA b/A b/B b/C b/D").

Example filter_text_overflow :
  words_size long_words = 465 /\
  parse_filters (fun x => x) true CLFLAGS_USERFILTEROK long_words no_filters 0 = None.
Proof. split; vm_compute; reflexivity. Qed.
