(* ===== verification/Outgoing.v ===== *)
(** * outgoing.c: sending the packets of the global queues to the clients

    A worker keeps its clients in lists by class.  For every packet behind its place in
    a global queue it walks the lists: duplicates go to the clients of duplicate feeds,
    packets of clients to the uplinks and peers, and everything that is no
    duplicate to the other clients that want it.

    A client is known by the address of its structure; the lists share the
    structures, which are in one store.  Writing to a client may close the connection,
    which frees the structure: [client_write] then returns less than -2. *)

From S2P Require Import Prelude Table Keyhash Types Cfloat ParseQc ParseAprs ClientHeard Historydb Filterdb Messaging.
From S2P Require Import Dupecheck Incoming Filter FilterParse FilterSpec.
From Stdlib Require Import ZArith Lia Bool String SpecFloat.
From stdpp Require Import base tactics list gmap numbers.
Open Scope Z_scope.

(** ** The clients of a worker *)

Record out_client := mk_out_client { oc_client : client_t; oc_filters : client_filters }.

Inductive client_class : Set := ClassRo | ClassUps | ClassDupe | ClassOther.

#[export] Instance client_class_eq_dec : EqDecision client_class.
Proof. solve_decision. Defined.

Section State.
Context {W : Type}.

Record out_state := mk_out {
  os_clients : list Z;
  os_dupe : list Z;
  os_ro : list Z;
  os_ups : list Z;
  os_other : list Z;
  os_store : gmap Z out_client;
  os_history : historydb;
  os_drops : Z;
  os_seqnum : Z;
  os_dupe_seqnum : Z;
  os_ops : W
}.

Definition set_os_ops (x : W) (st : out_state) : out_state :=
  mk_out st.(os_clients) st.(os_dupe) st.(os_ro) st.(os_ups) st.(os_other) st.(os_store) st.(os_history) st.(os_drops)
    st.(os_seqnum) st.(os_dupe_seqnum) x.

Definition set_os_client (id : Z) (oc : out_client) (h : historydb) (x : W) (st : out_state) : out_state :=
  mk_out st.(os_clients) st.(os_dupe) st.(os_ro) st.(os_ups) st.(os_other) (<[id := oc]> st.(os_store)) h st.(os_drops)
    st.(os_seqnum) st.(os_dupe_seqnum) x.

(** What [client_close] does to the lists: the structure is unlinked and freed. *)
Definition unlink_client (id : Z) (st : out_state) : out_state :=
  let rm := List.filter (fun x => negb (x =? id)) in
  mk_out (rm st.(os_clients)) (rm st.(os_dupe)) (rm st.(os_ro)) (rm st.(os_ups)) (rm st.(os_other))
    (delete id st.(os_store)) st.(os_history) st.(os_drops) st.(os_seqnum) st.(os_dupe_seqnum) st.(os_ops).

Definition count_drop (st : out_state) : out_state :=
  mk_out st.(os_clients) st.(os_dupe) st.(os_ro) st.(os_ups) st.(os_other) st.(os_store) st.(os_history)
    (st.(os_drops) + 1) st.(os_seqnum) st.(os_dupe_seqnum) st.(os_ops).

Definition set_os_seqnum (dupe : bool) (n : Z) (st : out_state) : out_state :=
  mk_out st.(os_clients) st.(os_dupe) st.(os_ro) st.(os_ups) st.(os_other) st.(os_store) st.(os_history) st.(os_drops)
    (if dupe then st.(os_seqnum) else n) (if dupe then n else st.(os_dupe_seqnum)) st.(os_ops).
End State.
Arguments out_state : clear implicits.

(** The class of a client, as [worker_classify_client] decides it. *)
Definition client_class_of (c : client_t) : option client_class :=
  if has c.(c_flags) CLFLAGS_PORT_RO then Some ClassRo
  else if bool_decide (c.(c_state) = CSTATE_COREPEER) || has c.(c_flags) CLFLAGS_UPLINKPORT then Some ClassUps
  else if has c.(c_flags) CLFLAGS_DUPEFEED then Some ClassDupe
  else if has c.(c_flags) CLFLAGS_INPORT then Some ClassOther
  else None.

Definition class_list {W} (k : client_class) (st : out_state W) : list Z :=
  match k with ClassRo => st.(os_ro) | ClassUps => st.(os_ups) | ClassDupe => st.(os_dupe) | ClassOther => st.(os_other) end.

Definition worker_classify_client {W} (id : Z) (c : client_t) (st : out_state W) : out_state W :=
  let put k l := if bool_decide (client_class_of c = Some k) then id :: l else l in
  mk_out st.(os_clients) (put ClassDupe st.(os_dupe)) (put ClassRo st.(os_ro)) (put ClassUps st.(os_ups))
    (put ClassOther st.(os_other)) st.(os_store) st.(os_history) st.(os_drops) st.(os_seqnum) st.(os_dupe_seqnum)
    st.(os_ops).

(** ** Sending a packet *)

Section Outgoing.
Context {W : Type} `{ServerOps W}.
Context (sinf : spec_float -> spec_float) (atan2f : spec_float -> spec_float -> spec_float).
Context (cfg : config) (tick : Z) (mem : bool) (db : filterdb).

(** The connection is gone when a write returns less than -2. *)
Definition write_closed (rc : Z) : bool := rc <? -2.

Definition send_single (id : Z) (data : list Z) (st : out_state W) : option (out_state W) :=
  oc ← st.(os_store) !! id;
  let x := op_account_tx oc.(oc_client) 0 1 st.(os_ops) in
  let '(x, rc) := op_write oc.(oc_client) data x in
  let st := set_os_ops x st in
  Some (if write_closed rc then unlink_client id st else st).

(** A loop over a list of clients, which remembers the next one before the body. *)
Fixpoint for_clients (body : Z -> out_state W -> option (out_state W)) (ids : list Z) (st : out_state W)
    : option (out_state W) :=
  match ids with
  | [] => Some st
  | id :: rest => st ← body id st; for_clients body rest st
  end.

(** The body of the loop over the uplinks and peers. *)
Definition ups_single (pb : pbuf_t) (data : list Z) (id : Z) (st : out_state W) : option (out_state W) :=
  if negb (id =? pb.(pb_origin)) then send_single id data st else Some st.

(** The body of the loop over the other clients. *)
Definition other_single (pb : pbuf_t) (data : list Z) (id : Z) (st : out_state W) : option (out_state W) :=
  oc ← st.(os_store) !! id;
  '(st, rc) ← (if has oc.(oc_client).(c_flags) CLFLAGS_FULLFEED then Some (st, 1)
               else
                 '(fs, rc) ← filter_process sinf atan2f cfg tick mem db pb
                               (mk_filter_state oc.(oc_client) oc.(oc_filters) st.(os_history) st.(os_ops));
                 Some (set_os_client id (mk_out_client fs.(fs_client) fs.(fs_filters)) fs.(fs_history) fs.(fs_ops) st, rc));
  if rc <? 1 then Some (if write_closed rc then unlink_client id st else st)
  else if id =? pb.(pb_origin) then Some st
  else if oc.(oc_client).(c_no_tx) then Some st
  else send_single id data st.

(** [dup], a tab and the packet, in a buffer of [PACKETLEN_MAX + 7] bytes. *)
Definition dupe_text (data : list Z) : option (list Z) :=
  let s := str "dup" ++ [9] ++ data in
  if zlen s <=? PACKETLEN_MAX + 7 then Some s else None.

Definition process_outgoing_single (pb : pbuf_t) (st : out_state W) : option (out_state W) :=
  data ← rd_range pb.(pb_data) 0 pb.(pb_packet_len);
  if has pb.(pb_flags) F_DUPE then
    st ← (if bool_decide (st.(os_dupe) = []) then Some st
          else s ← dupe_text data; for_clients (fun id => send_single id s) st.(os_dupe) st);
    if existsb (fun id => id =? pb.(pb_origin)) st.(os_clients) then
      oc ← st.(os_store) !! pb.(pb_origin);
      Some (set_os_ops (op_account_rx oc.(oc_client) (-1) 0 0 0 1 st.(os_ops)) st)
    else Some st
  else
    st ← (if has pb.(pb_flags) F_FROM_DOWNSTR then for_clients (ups_single pb data) st.(os_ups) st else Some st);
    for_clients (other_single pb data) st.(os_other) st.

(** A packet from the future or too old is not sent. *)
Definition too_new (pb : pbuf_t) : bool := pb.(pb_t) >? tick + 2.
Definition too_old (pb : pbuf_t) : bool := tick - pb.(pb_t) >? 5.

(** One of the two loops of [process_outgoing], over what is behind the worker's place in
    the queue; the first one counts what it drops.  [None] is also [abort], for a
    packet that was freed. *)
Fixpoint process_queue (dupe : bool) (q : list pbuf_t) (st : out_state W) : option (out_state W) :=
  match q with
  | [] => Some st
  | pb :: rest =>
      st ← (if pb.(pb_is_free) then None
            else if too_new pb || too_old pb then Some (if dupe then st else count_drop st)
            else process_outgoing_single pb st);
      process_queue dupe rest (set_os_seqnum dupe pb.(pb_seqnum) st)
  end.

Definition process_outgoing (q dupe_q : list pbuf_t) (st : out_state W) : option (out_state W) :=
  st ← process_queue false q st; process_queue true dupe_q st.
End Outgoing.

(** * Who gets a packet *)

(** The writes a worker made, in order: the client and the text.  Accounting is not
    one. *)
Class OutLaws (W : Type) `{ServerOps W} := {
  op_log : W -> list (Z * list Z);
  op_write_log : forall c text x, op_log (op_write c text x).1 = op_log x ++ [(c.(c_id), text)];
  op_tx_log : forall c b p x, op_log (op_account_tx c b p x) = op_log x;
  op_rx_log : forall c a b e d g x, op_log (op_account_rx c a b e d g x) = op_log x
}.

(** A client with what the filters need. *)
Record out_client_ok (id : Z) (oc : out_client) : Prop := {
  ok_id : oc.(oc_client).(c_id) = id;
  ok_client : client_wf oc.(oc_client);
  ok_filters : filters_ok oc.(oc_filters);
  ok_neg : Forall known oc.(oc_filters).(neguserfilters);
  ok_pos : Forall known oc.(oc_filters).(posuserfilters)
}.

Record out_wf {W} (st : out_state W) : Prop := {
  ow_store : forall id, id ∈ st.(os_clients) -> exists oc, st.(os_store) !! id = Some oc /\ out_client_ok id oc;
  ow_class : forall k, NoDup (class_list k st) /\ forall id, id ∈ class_list k st -> id ∈ st.(os_clients);
  ow_disjoint : forall k k' id, id ∈ class_list k st -> id ∈ class_list k' st -> k = k'
}.

Section Recipients.
Context {W : Type}.
Context (sinf : spec_float -> spec_float) (atan2f : spec_float -> spec_float -> spec_float).
Context (cfg : config) (tick : Z) (db : filterdb).

(** The other clients that want a packet: not its sender, no client that was found
    broken, and all of it or what passes the filters. *)
Definition wants_packet (st : out_state W) (pb : pbuf_t) (id : Z) : bool :=
  match st.(os_store) !! id with
  | Some oc =>
      negb (id =? pb.(pb_origin)) && negb oc.(oc_client).(c_no_tx) &&
      (has oc.(oc_client).(c_flags) CLFLAGS_FULLFEED
       || passes sinf atan2f cfg tick oc.(oc_client) db pb st.(os_history).(hd_hash) oc.(oc_filters))
  | None => false
  end.

Definition recipients (st : out_state W) (pb : pbuf_t) : list Z :=
  if has pb.(pb_flags) F_DUPE then st.(os_dupe)
  else (if has pb.(pb_flags) F_FROM_DOWNSTR then List.filter (fun id => negb (id =? pb.(pb_origin))) st.(os_ups) else [])
       ++ List.filter (wants_packet st pb) st.(os_other).

Definition sent_text (pb : pbuf_t) : list Z :=
  (if has pb.(pb_flags) F_DUPE then str "dup" ++ [9] else []) ++ slice pb.(pb_data) 0 pb.(pb_packet_len).
End Recipients.

(** * The loops *)

Section Loops.
Context {W : Type} {ops : ServerOps W} {laws : OutLaws W}.
Context (sinf : spec_float -> spec_float) (atan2f : spec_float -> spec_float -> spec_float).
Context (cfg : config) (tick : Z) (mem : bool) (db : filterdb).

(** Writing to this client never ends its connection. *)
Definition stable (id : Z) : Prop := forall c text (x : W), c.(c_id) = id -> write_closed (op_write c text x).2 = false.

Definition seqnum_of (dupe : bool) (st : out_state W) : Z := if dupe then st.(os_dupe_seqnum) else st.(os_seqnum).

(** What may have changed when the clients [ids] were written to: their
    structures, and those whose connection ended are gone. *)
Record touched (ids : list Z) (keep : Z -> bool) (st st' : out_state W) : Prop := {
  tc_wf : out_wf st';
  tc_hash : st'.(os_history).(hd_hash) = st.(os_history).(hd_hash);
  tc_drops : st'.(os_drops) = st.(os_drops);
  tc_seqnum : forall d, seqnum_of d st' = seqnum_of d st;
  tc_keep : forall id, id ∉ ids \/ stable id -> keep id = true;
  tc_clients : st'.(os_clients) = List.filter keep st.(os_clients);
  tc_class : forall k, class_list k st' = List.filter keep (class_list k st);
  tc_store : forall id, id ∉ ids -> st'.(os_store) !! id = st.(os_store) !! id;
  tc_flags : forall id oc, st.(os_store) !! id = Some oc -> keep id = true -> exists oc', st'.(os_store) !! id = Some oc' /\
    oc'.(oc_client).(c_flags) = oc.(oc_client).(c_flags) /\ oc'.(oc_client).(c_no_tx) = oc.(oc_client).(c_no_tx)
}.

Lemma filter_true {A} (l : list A) : List.filter (fun _ => true) l = l.
Proof. apply filter_all, Forall_true. done. Qed.

Lemma filter_twice {A} (p q : A -> bool) l : List.filter q (List.filter p l) = List.filter (fun x => p x && q x) l.
Proof.
  induction l as [|x l IH]; cbn; [done|]. destruct (p x); cbn; [|done]. by destruct (q x); rewrite IH.
Qed.

Lemma elem_filter {A} (p : A -> bool) l x : x ∈ List.filter p l <-> x ∈ l /\ p x = true.
Proof. rewrite !list_elem_of_In. apply List.filter_In. Qed.

Lemma touched_refl st : out_wf st -> touched [] (fun _ => true) st st.
Proof. intros Hw. split; try done; intros; rewrite ?filter_true; eauto. Qed.

Lemma touched_trans a b k1 k2 st st1 st2 :
  touched a k1 st st1 -> touched b k2 st1 st2 -> touched (a ++ b) (fun id => k1 id && k2 id) st st2.
Proof.
  intros [A1 A2 A3 A9 A4 A5 A6 A7 A8] [B1 B2 B3 B9 B4 B5 B6 B7 B8]. split; [done|congruence|congruence|congruence|..].
  - intros id Hid. rewrite A4, B4; [done|..]; destruct Hid as [Hid|]; auto; left; intros Hi; apply Hid, elem_of_app; auto.
  - by rewrite B5, A5, filter_twice.
  - intros k. by rewrite B6, A6, filter_twice.
  - intros id Hid. rewrite B7, A7; [done|..]; intros Hi; apply Hid, elem_of_app; auto.
  - intros id oc Hoc Hk. apply andb_true_iff in Hk as [Hk1 Hk2]. destruct (A8 id oc Hoc Hk1) as (oc1 & H1 & H2 & H3).
    destruct (B8 id oc1 H1 Hk2) as (oc2 & ? & ? & ?). exists oc2. split; [done|]. split; congruence.
Qed.

(** Unlinking keeps the lists in order. *)
Lemma unlink_touched id st :
  out_wf st -> ~ stable id -> touched [id] (fun x => negb (x =? id)) st (unlink_client id st).
Proof.
  intros [H1 H2 H3] Hs.
  assert (forall k, class_list k (unlink_client id st) = List.filter (fun x => negb (x =? id)) (class_list k st)) as Hcl
    by by intros [].
  split; try done.
  - split; cbn [os_clients os_store unlink_client os_ups os_other].
    + intros j Hj. apply elem_filter in Hj as [Hj Hne]. rewrite lookup_delete_ne by lia. by apply H1.
    + intros k. destruct (H2 k) as [Hn Hc]. rewrite Hcl. split; [apply base.NoDup_ListNoDup, List.NoDup_filter, base.NoDup_ListNoDup, Hn|].
      intros j Hj. apply elem_filter in Hj as [Hj ?]. apply elem_filter. auto.
    + intros k k' j Hj Ho. rewrite Hcl in Hj, Ho. apply elem_filter in Hj as [Hj _], Ho as [Ho _]. by apply (H3 k k' j).
  - intros j [Hj|Hj]; [|destruct (Z.eqb_spec j id) as [->|]; done].
    destruct (Z.eqb_spec j id) as [->|]; [|done]. destruct Hj. by apply list_elem_of_singleton.
  - intros j Hj. cbn. apply lookup_delete_ne. intros ->. destruct Hj. by apply list_elem_of_singleton.
  - intros j oc Hoc Hk. exists oc. cbn. rewrite lookup_delete_ne by lia. done.
Qed.

Lemma ops_touched x st : out_wf st -> touched [] (fun _ => true) st (set_os_ops x st).
Proof.
  intros Hw. split; try done; intros; rewrite ?filter_true; try done.
  - by destruct Hw as [H1 H2 H3].
  - cbn. eauto.
Qed.

(** A client whose structure changed but for its flags. *)
Lemma client_touched id oc oc' h x st :
  out_wf st -> st.(os_store) !! id = Some oc -> out_client_ok id oc' -> h.(hd_hash) = st.(os_history).(hd_hash) ->
  oc'.(oc_client).(c_flags) = oc.(oc_client).(c_flags) -> oc'.(oc_client).(c_no_tx) = oc.(oc_client).(c_no_tx) ->
  touched [id] (fun _ => true) st (set_os_client id oc' h x st).
Proof.
  intros Hw Hoc Hok Hh Hf Ht. split; try done; intros; rewrite ?filter_true; try done.
  - destruct Hw as [H1 H2 H3]. split; try done. intros j Hj. cbn. destruct (decide (j = id)) as [->|Hne].
    + exists oc'. by rewrite lookup_insert_eq.
    + rewrite lookup_insert_ne by done. by apply H1.
  - cbn. apply lookup_insert_ne. intros <-. by match goal with H : _ ∉ _ |- _ => destruct H; apply list_elem_of_singleton end.
  - cbn. destruct (decide (id = id0)) as [<-|Hne].
    + exists oc'. rewrite lookup_insert_eq. simplify_eq. done.
    + rewrite lookup_insert_ne by done. eauto.
Qed.

(** A step for one client, which writes [data] to it if [w]. *)
Definition one_step (id : Z) (data : list Z) (w : bool) (st : out_state W) (r : option (out_state W)) : Prop :=
  exists st' keep, r = Some st' /\ touched [id] keep st st' /\
    op_log st'.(os_ops) = op_log st.(os_ops) ++ if w then [(id, data)] else [].

Lemma touched_more a b k st st' : touched a k st st' -> (forall id, id ∈ a -> id ∈ b) -> touched b k st st'.
Proof.
  intros [T1 T2 T3 T9 T4 T5 T6 T7 T8] Hab. split; try done.
  - intros id [Hi|Hi]; apply T4; auto.
  - intros id Hi. apply T7. auto.
Qed.

Lemma one_step_none id data st : out_wf st -> one_step id data false st (Some st).
Proof.
  intros Hw. exists st, (fun _ => true). split; [done|]. split; [|by rewrite app_nil_r].
  eapply touched_more; [by apply touched_refl|]. by intros ? ?%elem_of_nil.
Qed.

Lemma send_single_spec id data st :
  out_wf st -> id ∈ st.(os_clients) -> one_step id data true st (send_single id data st).
Proof.
  intros Hw Hid. destruct (ow_store _ Hw id Hid) as (oc & Hoc & Hok). unfold send_single. rewrite Hoc. cbn [mbind option_bind].
  set (x := op_account_tx _ _ _ _). destruct (op_write (oc_client oc) data x) as [y rc] eqn:Ew.
  assert (op_log y = op_log (os_ops st) ++ [(id, data)]) as Hlog.
  { pose proof (op_write_log (oc_client oc) data x) as Hl. rewrite Ew in Hl. cbn in Hl. rewrite Hl, (ok_id _ _ Hok).
    unfold x. by rewrite op_tx_log. }
  pose proof (ops_touched y st Hw) as Ht. destruct (write_closed rc) eqn:Ec.
  - assert (~ stable id) as Hs.
    { intros Hs. specialize (Hs (oc_client oc) data x (ok_id _ _ Hok)). rewrite Ew in Hs. cbn in Hs. congruence. }
    exists (unlink_client id (set_os_ops y st)), (fun j => true && negb (j =? id)). split; [done|]. split; [|done].
    eapply touched_more; [eapply touched_trans; [exact Ht|apply unlink_touched; [by destruct Ht|done]]|done].
  - exists (set_os_ops y st), (fun _ => true). split; [done|]. split; [|done].
    eapply touched_more; [exact Ht|]. by intros ? ?%elem_of_nil.
Qed.

Lemma ups_single_spec pb data id st :
  out_wf st -> id ∈ st.(os_clients) -> one_step id data (negb (id =? pb.(pb_origin))) st (ups_single pb data id st).
Proof.
  intros Hw Hid. unfold ups_single. destruct (id =? pb_origin pb); [by apply one_step_none|by apply send_single_spec].
Qed.

Lemma known_cached fs fs' : Forall2 cache_changed fs fs' -> Forall known fs -> Forall known fs'.
Proof.
  induction 1 as [|f f' fs fs' Hc _ IH]; intros Hk; [done|]. apply Forall_cons_1 in Hk as [Hf Hk].
  constructor; [|by apply IH]. destruct Hc as [->|(_ & n & a & p & ->)]; [done|]. unfold set_f_cache.
  by destruct (default _ p) as [[? ?] ?].
Qed.

Lemma ok_cached fs fs' : Forall2 cache_changed fs fs' -> Forall filter_ok fs -> Forall filter_ok fs'.
Proof.
  induction 1 as [|f f' fs fs' Hc _ IH]; intros Hk; [done|]. apply Forall_cons_1 in Hk as [Hf Hk].
  constructor; [|by apply IH]. by eapply cache_changed_ok.
Qed.

Lemma out_client_ok_filtered id oc c' cf' :
  out_client_ok id oc -> courtesy_changed oc.(oc_client) c' -> filters_cached oc.(oc_filters) cf' ->
  out_client_ok id (mk_out_client c' cf') /\ c'.(c_flags) = oc.(oc_client).(c_flags) /\
  c'.(c_no_tx) = oc.(oc_client).(c_no_tx).
Proof.
  intros [H1 H2 H3 H4 H5] Hc [F1 F2 F3 F4 _]. pose proof (courtesy_wf _ H2 _ Hc) as Hw. destruct Hc as (l & Hl & ->).
  split; [|done]. split; cbn; try done; try by eapply known_cached.
  destruct H3. split; by eapply ok_cached.
Qed.

Lemma other_single_spec pb data id st :
  queue_ok pb -> hashes_ok pb -> out_wf st -> id ∈ st.(os_clients) ->
  one_step id data (wants_packet sinf atan2f cfg tick db st pb id) st
    (other_single sinf atan2f cfg tick mem db pb data id st).
Proof.
  intros Hq Hk Hw Hid. destruct (ow_store _ Hw id Hid) as (oc & Hoc & Hok). unfold other_single, wants_packet.
  rewrite Hoc. cbn [mbind option_bind].
  destruct (has (c_flags (oc_client oc)) CLFLAGS_FULLFEED); cbn [mbind option_bind orb].
  { change (1 <? 1) with false. cbv iota. destruct (id =? pb_origin pb); [by apply one_step_none|].
    destruct (c_no_tx (oc_client oc)); [by apply one_step_none|]. by apply send_single_spec. }
  pose proof Hok as [H1 H2 H3 H4 H5].
  destruct (filter_process_spec sinf atan2f cfg tick mem db pb
              (mk_filter_state (oc_client oc) (oc_filters oc) (os_history st) (os_ops st)) Hq Hk H2 H3 H4 H5)
    as (fs & rc & -> & Hrc0 & Hrc & Hcc & Hfc & Hh & Hx). cbn [fs_client fs_filters fs_history fs_ops] in *.
  cbn [mbind option_bind]. rewrite <- Hrc, Hx.
  destruct (out_client_ok_filtered id oc _ _ Hok Hcc Hfc) as (Hok' & Hf' & Ht').
  pose proof (client_touched id oc _ (fs_history fs) (os_ops st) st Hw Hoc Hok' Hh Hf' Ht') as Ht.
  set (st1 := set_os_client id _ _ _ st) in *.
  assert (forall w r, one_step id data w st1 r -> one_step id data w st r) as Hstep.
  { intros w r (st2 & k2 & -> & Ht2 & Hl2). exists st2, (fun j => true && k2 j). split; [done|]. split; [|exact Hl2].
    eapply touched_more; [by eapply touched_trans|]. by intros j [?|?]%elem_of_app. }
  assert (id ∈ os_clients st1) as Hid1 by done. assert (out_wf st1) as Hw1 by by destruct Ht. clearbody st1.
  destruct (Z.ltb_spec rc 1) as [Hlt|Hge].
  - assert (write_closed rc = false) as -> by (unfold write_closed; lia).
    assert ((rc >? 0) = false) as -> by lia. rewrite andb_false_r. by apply Hstep, one_step_none.
  - assert ((rc >? 0) = true) as -> by lia. rewrite andb_true_r. apply Hstep.
    destruct (id =? pb_origin pb); [by apply one_step_none|].
    destruct (c_no_tx (oc_client oc)); [by apply one_step_none|]. by apply send_single_spec.
Qed.

(** A loop over different clients: each is served as the state before the loop says. *)
Lemma for_clients_spec body data (w : out_state W -> Z -> bool) ids st :
  (forall st id, out_wf st -> id ∈ st.(os_clients) -> one_step id data (w st id) st (body id st)) ->
  (forall st st' id, st'.(os_store) !! id = st.(os_store) !! id ->
     st'.(os_history).(hd_hash) = st.(os_history).(hd_hash) -> w st' id = w st id) ->
  out_wf st -> NoDup ids -> (forall id, id ∈ ids -> id ∈ st.(os_clients)) ->
  exists st' keep, for_clients body ids st = Some st' /\ touched ids keep st st' /\
    op_log st'.(os_ops) = op_log st.(os_ops) ++ map (fun id => (id, data)) (List.filter (w st) ids).
Proof.
  intros Hbody Hw. revert st. induction ids as [|id ids IH]; intros st Hwf Hnd Hin; cbn [for_clients].
  { exists st, (fun _ => true). split; [done|]. split; [by apply touched_refl|]. by rewrite app_nil_r. }
  apply list.NoDup_cons in Hnd as [Hni Hnd].
  destruct (Hbody st id Hwf) as (st1 & k1 & -> & Ht1 & Hl1); [apply Hin, elem_of_cons; by left|]. cbn [mbind option_bind].
  assert (forall j, j ∈ ids -> j ∉ [id]) as Hne by (intros j Hj ->%list_elem_of_singleton; done).
  destruct (IH st1) as (st2 & k2 & -> & Ht2 & Hl2); [by destruct Ht1|done| |].
  { intros j Hj. rewrite (tc_clients _ _ _ _ Ht1). apply elem_filter. split; [apply Hin, elem_of_cons; by right|].
    apply (tc_keep _ _ _ _ Ht1). left. auto. }
  exists st2, (fun j => k1 j && k2 j). split; [done|]. split; [exact (touched_trans [id] ids k1 k2 st st1 st2 Ht1 Ht2)|].
  rewrite Hl2, Hl1. cbn [List.filter].
  assert (List.filter (w st1) ids = List.filter (w st) ids) as ->.
  { clear IH Hl2 Ht2 Hin Hni Hnd. induction ids as [|j ids IHl]; cbn; [done|].
    rewrite (Hw st st1 j); [|apply (tc_store _ _ _ _ Ht1), Hne, elem_of_cons; by left|by destruct Ht1].
    rewrite IHl; [done|]. intros i Hi. apply Hne, elem_of_cons. by right. }
  destruct (w st id); cbn [map app]; by rewrite <- app_assoc || rewrite app_nil_r.
Qed.

Lemma wants_packet_local pb (st st' : out_state W) id :
  st'.(os_store) !! id = st.(os_store) !! id -> st'.(os_history).(hd_hash) = st.(os_history).(hd_hash) ->
  wants_packet sinf atan2f cfg tick db st' pb id = wants_packet sinf atan2f cfg tick db st pb id.
Proof. intros E1 E2. unfold wants_packet. by rewrite E1, E2. Qed.

Lemma class_in k (st : out_state W) : out_wf st -> forall id, id ∈ class_list k st -> id ∈ st.(os_clients).
Proof. intros Hw. apply (ow_class _ Hw k). Qed.

(** A packet that a worker may send: it was queued, its text fits. *)
Record sendable (pb : pbuf_t) : Prop := {
  sd_queue : queue_ok pb;
  sd_hash : hashes_ok pb;
  sd_len : 0 <= pb.(pb_packet_len) <= PACKETLEN_MAX /\ pb.(pb_packet_len) <= zlen pb.(pb_data);
  sd_free : pb.(pb_is_free) = false
}.

Section Packet.
Context (pb : pbuf_t) (st : out_state W) (Hp : sendable pb) (Hw : out_wf st).

Abbreviation text := (slice pb.(pb_data) 0 pb.(pb_packet_len)).

Lemma dupe_spec :
  has pb.(pb_flags) F_DUPE = true ->
  exists st' ids keep, process_outgoing_single sinf atan2f cfg tick mem db pb st = Some st' /\ touched ids keep st st' /\
    op_log st'.(os_ops) = op_log st.(os_ops) ++ map (fun id => (id, (str "dup" ++ [9]) ++ text)) st.(os_dupe).
Proof.
  intros Hdupe. destruct Hp as [_ _ [Hl1 Hl2] _]. unfold process_outgoing_single. rewrite rd_range_in, Hdupe by lia.
  cbn [mbind option_bind]. assert (zlen text = pb.(pb_packet_len)) as Hd by (apply zlen_slice; lia).
  assert (dupe_text text = Some ((str "dup" ++ [9]) ++ text)) as Hs.
  { unfold dupe_text. rewrite app_assoc, zlen_app. change (zlen (str "dup" ++ [9])) with 4. split_if; [done|lia]. }
  set (s := (str "dup" ++ [9]) ++ text) in *.
  destruct (for_clients_spec (fun id => send_single id s) s (fun _ _ => true) (os_dupe st) st) as (st1 & keep & Hf & Ht & Hlog);
    try done; [intros; by apply send_single_spec|apply (ow_class _ Hw ClassDupe)|apply (class_in ClassDupe st Hw)|].
  rewrite filter_true in Hlog.
  match goal with |- context [mbind _ (if bool_decide (os_dupe st = []) then _ else ?m)] =>
    assert ((if bool_decide (os_dupe st = []) then Some st else m) = Some st1) as -> end.
  { case_bool_decide as E; [rewrite E in Hf; by injection Hf as <-|]. by rewrite Hs. }
  cbn [mbind option_bind]. destruct (existsb _ (os_clients st1)) eqn:Ex; [|by eexists _, _, _].
  apply existsb_exists in Ex as (id & Hid & Heq). apply Z.eqb_eq in Heq as ->. apply list_elem_of_In in Hid.
  destruct (ow_store _ (tc_wf _ _ _ _ Ht) _ Hid) as (oc & -> & _). cbn [mbind option_bind].
  eexists _, _, _. split; [reflexivity|]. split; [eapply touched_trans; [exact Ht|apply ops_touched; by destruct Ht]|].
  cbn [os_ops set_os_ops]. by rewrite op_rx_log.
Qed.

(** The loop over the uplinks and peers, and the clients of the other loop. *)
Lemma ups_spec :
  exists st1 keep,
    (if has pb.(pb_flags) F_FROM_DOWNSTR then for_clients (ups_single pb text) st.(os_ups) st else Some st) = Some st1 /\
    touched st.(os_ups) keep st st1 /\ st1.(os_other) = st.(os_other) /\
    (forall id, id ∈ st.(os_other) -> st1.(os_store) !! id = st.(os_store) !! id) /\
    op_log st1.(os_ops) = op_log st.(os_ops) ++ map (fun id => (id, text))
      (if has pb.(pb_flags) F_FROM_DOWNSTR then List.filter (fun id => negb (id =? pb.(pb_origin))) st.(os_ups) else []).
Proof.
  assert (forall id, id ∈ os_other st -> id ∉ os_ups st) as Hdis by (intros id Ho Hu; by pose proof (ow_disjoint _ Hw ClassOther ClassUps id Ho Hu)).
  destruct (has _ F_FROM_DOWNSTR).
  - destruct (for_clients_spec (ups_single pb text) text (fun _ id => negb (id =? pb_origin pb)) (os_ups st) st)
      as (st1 & keep & Hf & Ht & Hlog); try done;
      [intros; by apply ups_single_spec|apply (ow_class _ Hw ClassUps)|apply (class_in ClassUps st Hw)|].
    exists st1, keep. split; [done|]. split; [done|]. split; [|split; [|done]].
    + pose proof (tc_class _ _ _ _ Ht ClassOther) as Hc. cbn in Hc. rewrite Hc. apply filter_all, list.Forall_forall.
      intros id Hid. apply (tc_keep _ _ _ _ Ht). left. auto.
    + intros id Hid. apply (tc_store _ _ _ _ Ht). auto.
  - exists st, (fun _ => true). split; [done|]. rewrite app_nil_r. split; [|done].
    eapply touched_more; [by apply touched_refl|]. by intros ? ?%elem_of_nil.
Qed.

Lemma plain_spec :
  has pb.(pb_flags) F_DUPE = false ->
  exists st' ids keep, process_outgoing_single sinf atan2f cfg tick mem db pb st = Some st' /\ touched ids keep st st' /\
    op_log st'.(os_ops) = op_log st.(os_ops) ++ map (fun id => (id, text)) (recipients sinf atan2f cfg tick db st pb).
Proof.
  intros Hdupe. destruct Hp as [Hq Hk [Hl1 Hl2] _]. unfold process_outgoing_single, recipients. rewrite Hdupe.
  rewrite rd_range_in by lia. cbn [mbind option_bind].
  destruct ups_spec as (st1 & k1 & -> & Ht1 & Ho & Hs & Hlog1). cbn [mbind option_bind].
  pose proof (tc_wf _ _ _ _ Ht1) as Hw1.
  destruct (for_clients_spec (other_single sinf atan2f cfg tick mem db pb text) text
              (fun st => wants_packet sinf atan2f cfg tick db st pb) (os_other st1) st1) as (st2 & k2 & -> & Ht2 & Hlog2).
  - intros. by apply other_single_spec.
  - intros. by apply wants_packet_local.
  - done.
  - apply (ow_class _ Hw1 ClassOther).
  - apply (class_in ClassOther st1 Hw1).
  - eexists st2, _, _. split; [done|]. split; [by eapply touched_trans|]. rewrite Hlog2, Hlog1, Ho, map_app, <- app_assoc.
    rewrite (filter_ext_in (wants_packet sinf atan2f cfg tick db st1 pb) (wants_packet sinf atan2f cfg tick db st pb)); [done|].
    intros id Hid. apply list_elem_of_In, Hs in Hid. apply wants_packet_local; [done|by destruct Ht1].
Qed.

Lemma single_spec :
  exists st' ids keep, process_outgoing_single sinf atan2f cfg tick mem db pb st = Some st' /\ touched ids keep st st' /\
    op_log st'.(os_ops) = op_log st.(os_ops) ++
      map (fun id => (id, sent_text pb)) (recipients sinf atan2f cfg tick db st pb).
Proof.
  unfold sent_text. destruct (has (pb_flags pb) F_DUPE) eqn:E; [|by apply plain_spec].
  unfold recipients. rewrite E. by apply dupe_spec.
Qed.
End Packet.
End Loops.

(** * A queue of packets *)

Section Queue.
Context {W : Type} {ops : ServerOps W} {laws : OutLaws W}.
Context (sinf : spec_float -> spec_float) (atan2f : spec_float -> spec_float -> spec_float).
Context (cfg : config) (tick : Z) (mem : bool) (db : filterdb).

(** A client that takes everything. *)
Definition takes_all (id : Z) (st : out_state W) : Prop :=
  id ∈ st.(os_other) /\ exists oc, st.(os_store) !! id = Some oc /\
    has oc.(oc_client).(c_flags) CLFLAGS_FULLFEED = true /\ oc.(oc_client).(c_no_tx) = false.

Lemma takes_all_kept id ids keep st st' : stable id -> touched ids keep st st' -> takes_all id st -> takes_all id st'.
Proof.
  intros Hs Ht (Hi & oc & Hoc & Hf & Hn). assert (keep id = true) as Hk by (apply (tc_keep _ _ _ _ Ht); by right).
  split.
  - pose proof (tc_class _ _ _ _ Ht ClassOther) as Hc. cbn in Hc. rewrite Hc. by apply elem_filter.
  - destruct (tc_flags _ _ _ _ Ht id oc Hoc Hk) as (oc' & ? & E1 & E2). exists oc'. by rewrite E1, E2.
Qed.

(** The part of a log that is about one client. *)
Definition log_of (id : Z) (l : list (Z * list Z)) : list (list Z) := map snd (List.filter (fun e => e.1 =? id) l).

Lemma log_of_app id a b : log_of id (a ++ b) = log_of id a ++ log_of id b.
Proof. unfold log_of. by rewrite List.filter_app, map_app. Qed.

Lemma log_of_not id ids (t : list Z) : id ∉ ids -> log_of id (map (fun i => (i, t)) ids) = [].
Proof.
  intros Hi. unfold log_of. induction ids as [|j ids IH]; cbn; [done|].
  destruct (Z.eqb_spec j id) as [->|]; [destruct Hi; apply elem_of_cons; by left|].
  apply IH. intros ?. apply Hi, elem_of_cons. by right.
Qed.

Lemma log_of_once id ids (t : list Z) : NoDup ids -> id ∈ ids -> log_of id (map (fun i => (i, t)) ids) = [t].
Proof.
  intros Hn. induction ids as [|j ids IH]; intros Hi; [by apply elem_of_nil in Hi|].
  apply list.NoDup_cons in Hn as [Hj Hn]. change (map _ (j :: ids)) with ([(j, t)] ++ map (fun i => (i, t)) ids).
  rewrite log_of_app. apply elem_of_cons in Hi as [->|Hi].
  - rewrite (log_of_not j) by done. unfold log_of. cbn. by rewrite Z.eqb_refl.
  - rewrite IH by done. unfold log_of. cbn. destruct (Z.eqb_spec j id) as [->|]; done.
Qed.

(** Sent to a client that takes everything: what is no duplicate and not its own. *)
Lemma log_of_recipients pb st id :
  out_wf st -> takes_all id st ->
  log_of id (map (fun i => (i, sent_text pb)) (recipients sinf atan2f cfg tick db st pb)) =
  if has pb.(pb_flags) F_DUPE || (id =? pb.(pb_origin)) then [] else [sent_text pb].
Proof.
  intros Hw (Hi & oc & Hoc & Hf & Hn). unfold recipients.
  destruct (has (pb_flags pb) F_DUPE); cbn [orb].
  { apply log_of_not. intros Hd. by pose proof (ow_disjoint _ Hw ClassDupe ClassOther id Hd Hi). }
  rewrite map_app, log_of_app, log_of_not; [cbn [app]|].
  - assert (wants_packet sinf atan2f cfg tick db st pb id = negb (id =? pb_origin pb)) as Hwp
      by (unfold wants_packet; rewrite Hoc, Hf, Hn; cbn; by rewrite !andb_true_r).
    destruct (Z.eqb_spec id (pb_origin pb)) as [Eo|Eo].
    + apply log_of_not. intros Hin. apply elem_filter in Hin as [_ Hin]. by rewrite Hwp in Hin.
    + apply log_of_once; [|by apply elem_filter; rewrite Hwp].
      apply base.NoDup_ListNoDup, List.NoDup_filter, base.NoDup_ListNoDup, (ow_class _ Hw ClassOther).
  - intros Hu. destruct (has _ F_FROM_DOWNSTR); [|by apply elem_of_nil in Hu]. apply elem_filter in Hu as [Hu _].
    by pose proof (ow_disjoint _ Hw ClassUps ClassOther id Hu Hi).
Qed.

Definition in_window (pb : pbuf_t) : bool := negb (too_new tick pb || too_old tick pb).

Lemma same_lists_wf (st st' : out_state W) :
  st'.(os_clients) = st.(os_clients) -> (forall k, class_list k st' = class_list k st) -> st'.(os_store) = st.(os_store) ->
  out_wf st -> out_wf st'.
Proof.
  intros E1 E2 E3 [H1 H2 H3]. split.
  - rewrite E1, E3. done.
  - intros k. rewrite E1, E2. apply H2.
  - intros k k' id. rewrite !E2. apply H3.
Qed.

Lemma last_indep {A} (x : A) l d d' : List.last (x :: l) d = List.last (x :: l) d'.
Proof. revert x. induction l as [|y l IH]; intros x; [done|]. apply (IH y). Qed.

Lemma queue_spec dupe q st id :
  Forall sendable q -> out_wf st -> takes_all id st -> stable id ->
  exists st' new, process_queue sinf atan2f cfg tick mem db dupe q st = Some st' /\ out_wf st' /\ takes_all id st' /\
    op_log st'.(os_ops) = op_log st.(os_ops) ++ new /\
    log_of id new = map sent_text (List.filter (fun pb => in_window pb && negb (has pb.(pb_flags) F_DUPE || (id =? pb.(pb_origin)))) q) /\
    st'.(os_drops) = st.(os_drops) + (if dupe then 0 else zlen (List.filter (fun pb => negb (in_window pb)) q)) /\
    seqnum_of dupe st' = List.last (map pb_seqnum q) (seqnum_of dupe st) /\
    seqnum_of (negb dupe) st' = seqnum_of (negb dupe) st.
Proof.
  intros Hq. revert st. induction Hq as [|pb q Hpb _ IH]; intros st Hw Ht Hs; cbn [process_queue].
  { exists st, []. rewrite app_nil_r. repeat (split; [done|]). split; [destruct dupe; cbn [List.filter]; rewrite ?zlen_nil; lia|done]. }
  assert (forall d (st0 st1 : out_state W), seqnum_of d st1 = List.last (map pb_seqnum q) (seqnum_of d (set_os_seqnum d (pb_seqnum pb) st0)) ->
            seqnum_of d st1 = List.last (map pb_seqnum (pb :: q)) (seqnum_of d st)) as Hlast.
  { intros d st0 st1 ->. destruct q as [|p2 q]; [by destruct d|]. exact (last_indep (pb_seqnum p2) (map pb_seqnum q) _ _). }
  rewrite (sd_free _ Hpb). cbn [List.filter].
  destruct (too_new tick pb || too_old tick pb) eqn:Ew;
    (assert (in_window pb = negb (too_new tick pb || too_old tick pb)) as Hwin by done; rewrite Ew in Hwin; rewrite Hwin);
    cbn [negb andb].
  - cbn [mbind option_bind]. set (st1 := set_os_seqnum _ _ _).
    assert (out_wf st1) as Hw1 by (apply (same_lists_wf st); destruct dupe; done).
    destruct (IH st1 Hw1) as (st' & new & -> & ? & ? & Hl & ? & Hd & Hsq & Hsq'); [by destruct dupe|done|].
    exists st', new. repeat (split; [done|]). split; [rewrite Hl; by destruct dupe|]. split; [done|].
    split; [unfold st1 in Hd; destruct dupe; cbn [os_drops count_drop set_os_seqnum] in Hd; rewrite ?zlen_cons; lia|]. split; [by apply (Hlast _ _ _ Hsq)|].
    rewrite Hsq'. by destruct dupe.
  - destruct (single_spec sinf atan2f cfg tick mem db pb st Hpb Hw) as (st0 & ids & keep & -> & Htc & Hl0).
    cbn [mbind option_bind]. set (st1 := set_os_seqnum _ _ _).
    assert (out_wf st1) as Hw1 by (apply (same_lists_wf st0); destruct dupe; try done; by destruct Htc).
    assert (takes_all id st1) as Ht1 by (apply (takes_all_kept id ids keep st st0 Hs Htc) in Ht; by destruct dupe).
    destruct (IH st1 Hw1 Ht1 Hs) as (st' & new & -> & ? & ? & Hl & Hlo & Hd & Hsq & Hsq').
    eexists st', (_ ++ new). repeat (split; [done|]).
    split; [rewrite Hl; unfold st1; cbn [os_ops set_os_seqnum]; rewrite Hl0, <- app_assoc; reflexivity|].
    split; [|split; [|split; [by apply (Hlast _ _ _ Hsq)|]]].
    + rewrite log_of_app, Hlo, log_of_recipients by done. destruct (_ || (id =? _)); cbn [negb]; done.
    + pose proof (tc_drops _ _ _ _ Htc). unfold st1 in Hd. destruct dupe; cbn [os_drops set_os_seqnum] in Hd; lia.
    + rewrite Hsq', <- (tc_seqnum _ _ _ _ Htc). by destruct dupe.
Qed.
End Queue.

(** * Properties *)

Section Claims.
Context {W : Type} {ops : ServerOps W} {laws : OutLaws W}.
Context (sinf : spec_float -> spec_float) (atan2f : spec_float -> spec_float -> spec_float).
Context (cfg : config) (tick : Z) (mem : bool) (db : filterdb).

(** C4: A packet goes to exactly the clients that should get it, once, in the order of
    the lists: a duplicate, marked as one, to the duplicate feeds; any other packet as
    it is, to the uplinks and peers when a client sent it, and to the other
    clients that take everything or whose filters let it through, but never back
    to where it came from, nor to a client found broken.  This holds whichever
    writes fail and end connections on the way, and leaves the lists of the
    worker in order. *)
Theorem outgoing_recipients pb (st : out_state W) :
  sendable pb -> out_wf st ->
  exists st', process_outgoing_single sinf atan2f cfg tick mem db pb st = Some st' /\ out_wf st' /\
    op_log st'.(os_ops) = op_log st.(os_ops) ++
      map (fun id => (id, sent_text pb)) (recipients sinf atan2f cfg tick db st pb) /\
    (has pb.(pb_flags) F_DUPE = false -> pb.(pb_origin) ∉ recipients sinf atan2f cfg tick db st pb).
Proof.
  intros Hp Hw. destruct (single_spec sinf atan2f cfg tick mem db pb st Hp Hw) as (st' & ids & keep & H1 & H2 & H3).
  exists st'. split; [done|]. split; [by destruct H2|]. split; [done|]. intros Hd Hin. unfold recipients in Hin.
  rewrite Hd in Hin. apply elem_of_app in Hin as [Hin|Hin].
  - destruct (has _ F_FROM_DOWNSTR); [|by apply elem_of_nil in Hin]. apply elem_filter in Hin as [_ Hin].
    by rewrite Z.eqb_refl in Hin.
  - apply elem_filter in Hin as [_ Hin]. unfold wants_packet in Hin. destruct (_ !! _); [|done].
    by rewrite Z.eqb_refl in Hin.
Qed.

Lemma outgoing_spec q dupe_q (st : out_state W) id :
  Forall sendable q -> Forall sendable dupe_q -> out_wf st -> takes_all id st -> stable id ->
  exists st' new, process_outgoing sinf atan2f cfg tick mem db q dupe_q st = Some st' /\ out_wf st' /\ takes_all id st' /\
    op_log st'.(os_ops) = op_log st.(os_ops) ++ new /\
    log_of id new =
      map sent_text (List.filter (fun pb => in_window tick pb && negb (has pb.(pb_flags) F_DUPE || (id =? pb.(pb_origin))))
                       (q ++ dupe_q)) /\
    st'.(os_drops) = st.(os_drops) + zlen (List.filter (fun pb => negb (in_window tick pb)) q) /\
    st'.(os_seqnum) = List.last (map pb_seqnum q) st.(os_seqnum) /\
    st'.(os_dupe_seqnum) = List.last (map pb_seqnum dupe_q) st.(os_dupe_seqnum).
Proof.
  intros Hq Hd Hw Ht Hs. unfold process_outgoing.
  destruct (queue_spec sinf atan2f cfg tick mem db false q st id Hq Hw Ht Hs)
    as (st1 & new1 & -> & Hw1 & Ht1 & Hl1 & Hlo1 & Hd1 & Hs1 & Hs1'). cbn [mbind option_bind].
  destruct (queue_spec sinf atan2f cfg tick mem db true dupe_q st1 id Hd Hw1 Ht1 Hs)
    as (st2 & new2 & -> & Hw2 & Ht2 & Hl2 & Hlo2 & Hd2 & Hs2 & Hs2').
  exists st2, (new1 ++ new2). repeat (split; [done|]). rewrite log_of_app, Hlo1, Hlo2, List.filter_app, map_app.
  split; [by rewrite Hl2, Hl1, <- app_assoc|]. split; [done|]. cbn [seqnum_of negb] in *. split; [lia|].
  split; [by rewrite Hs2'|by rewrite Hs2, Hs1'].
Qed.

(** C12: Nothing queued is lost on the way to a client that takes everything: when a
    worker has gone over the packets behind its place in the two queues, such a
    client, as long as its connection lasts, was sent exactly the packets that were
    no duplicates, not its own and from the last five seconds, in the order of
    the queues; the others are counted, and the worker's place is
    behind the last packet of each queue, so that the next turn repeats none. *)
Theorem outgoing_complete q dupe_q (st : out_state W) id :
  Forall sendable q -> Forall sendable dupe_q -> out_wf st -> takes_all id st -> stable id ->
  exists st' new, process_outgoing sinf atan2f cfg tick mem db q dupe_q st = Some st' /\ out_wf st' /\ takes_all id st' /\
    op_log st'.(os_ops) = op_log st.(os_ops) ++ new /\
    log_of id new =
      map sent_text (List.filter (fun pb => in_window tick pb && negb (has pb.(pb_flags) F_DUPE || (id =? pb.(pb_origin))))
                       (q ++ dupe_q)) /\
    st'.(os_drops) = st.(os_drops) + zlen (List.filter (fun pb => negb (in_window tick pb)) q) /\
    st'.(os_seqnum) = List.last (map pb_seqnum q) st.(os_seqnum) /\
    st'.(os_dupe_seqnum) = List.last (map pb_seqnum dupe_q) st.(os_dupe_seqnum).
Proof. apply outgoing_spec. Qed.
End Claims.

(** * Concrete runs *)

(** A server that remembers what it wrote. *)
#[local] Instance demo_net : ServerOps (list (Z * list Z)) := {|
  op_cellmallocmany := fun len n x => ([], x);
  op_write := fun c text x => (x ++ [(c.(c_id), text)], if c.(c_id) =? 3 then -9 else zlen text);
  op_filter_commands := fun c in_msg text len x => (x, 0);
  op_filter_s := fun c x => [];
  op_random := fun x => (4, x);
  op_account_rx := fun c l4proto bytes packets err dupes x => x;
  op_account_tx := fun c bytes packets x => x
|}.

#[local] Instance demo_net_laws : OutLaws (list (Z * list Z)).
Proof. by refine (Build_OutLaws _ _ (fun x => x) _ _ _). Defined.

Definition demo_peer (id flags : Z) : out_client :=
  mk_out_client
    (mk_client id 5 CSTATE_CONNECTED flags 1 (str "N1CALL") 6 (str "7F000001")
       false false false ∅ ∅ 0 0 (S754_zero false) (S754_zero false) (S754_zero false))
    (with_filters [demo_filter "b/OH7LZB/OH2*"]).

(** Client 2 is an uplink, 3 and 4 have filters, 5 takes everything; writing to 3
    fails. *)
Definition demo_out : out_state (list (Z * list Z)) :=
  mk_out [5; 4; 3; 2] [] [] [2] [5; 4; 3]
    (<[2 := demo_peer 2 CLFLAGS_UPLINKPORT]> (<[3 := demo_peer 3 CLFLAGS_INPORT]> (<[4 := demo_peer 4 CLFLAGS_INPORT]>
      (<[5 := demo_peer 5 (Z.lor CLFLAGS_INPORT CLFLAGS_FULLFEED)]> ∅))))
    historydb_zero 0 0 0 [].

Lemma demo_peer_ok id flags : out_client_ok id (demo_peer id flags).
Proof.
  split; cbn; try done; [split; try exact heard_wf_empty; reflexivity|exact demo_with_ok|].
  constructor; [vm_compute; discriminate|constructor].
Qed.

Lemma demo_out_wf : out_wf demo_out.
Proof.
  split.
  - intros id Hid. apply list_elem_of_In in Hid. cbn in Hid.
    repeat destruct Hid as [<-|Hid]; [..|done]; (eexists; split; [vm_compute; reflexivity|apply demo_peer_ok]).
  - intros k. split; [apply (bool_decide_unpack _); destruct k; vm_compute; exact I|].
    intros id Hid. destruct k; apply list_elem_of_In in Hid; cbn in Hid; apply list_elem_of_In; cbn; tauto.
  - intros k k' id H1 H2. apply list_elem_of_In in H1, H2. destruct k, k'; cbn in H1, H2; try done; lia.
Qed.

Lemma demo_ready_sendable : sendable demo_ready.
Proof. split; [exact demo_ready_ok|exact (preprocessed_hashes demo_cfg _)|vm_compute; intuition congruence|reflexivity]. Qed.

Lemma outgoing_recipients_witness :
  exists st', process_outgoing_single (fun x => x) (fun x _ => x) demo_cfg 1000 true filterdb_zero demo_ready demo_out = Some st' /\
    map fst st'.(os_ops) = [2; 5; 4; 3].
Proof.
  destruct (outgoing_recipients (fun x => x) (fun x _ => x) demo_cfg 1000 true filterdb_zero demo_ready demo_out
              demo_ready_sendable demo_out_wf) as (st' & H1 & _ & H2 & _).
  exists st'. split; [exact H1|]. change (op_log (os_ops st')) with (os_ops st') in H2. rewrite H2. vm_compute. reflexivity.
Defined.

Lemma outgoing_complete_witness :
  exists st' new, process_outgoing (fun x => x) (fun x _ => x) demo_cfg 1002 true filterdb_zero [demo_ready] [] demo_out =
      Some st' /\ st'.(os_ops) = [] ++ new /\ length (log_of 5 new) = 1%nat.
Proof.
  destruct (outgoing_complete (fun x => x) (fun x _ => x) demo_cfg 1002 true filterdb_zero [demo_ready] [] demo_out 5)
    as (st' & new & H1 & _ & _ & H2 & H3 & _).
  - constructor; [exact demo_ready_sendable|constructor].
  - constructor.
  - exact demo_out_wf.
  - split; [apply list_elem_of_In; cbn; tauto|]. eexists. split; [vm_compute; reflexivity|]. split; vm_compute; reflexivity.
  - intros c text x Hc. cbn. rewrite Hc. cbn. unfold write_closed. pose proof (zlen_nonneg text). lia.
  - exists st', new. split; [exact H1|]. split; [exact H2|]. rewrite H3. vm_compute. reflexivity.
Defined.
