(* ===== verification/Login.v ===== *)
(** * login.c: the login of a client

    Until it has logged in, the lines of a client go to [login_handler]: the name is
    checked, options set the application, the UDP port and the filters, and a
    passcode verifies the client.  A client that is logged in is put in the class
    list of its worker, so that packets flow to it, and in the list of clients, where
    an older verified session of the same name is found and disconnected.

    The check of a TLS certificate is a parameter: not asked for, passed, or failed
    with a message. *)

From S2P Require Import Prelude Types Cfloat Cfgfile Passcode ParseQc Callsign ParseAprs Clientlist ClientHeard Messaging.
From S2P Require Import Incoming Filter FilterParse Outgoing.
From Stdlib Require Import ZArith Lia Bool String SpecFloat.
From stdpp Require Import base tactics list gmap numbers.
Open Scope Z_scope.

(** ** Data *)

Definition VALIDATED_WEAK : Z := 1.
Definition VALIDATED_STRONG : Z := 3.
Definition APP_NAME_SIZE : Z := 32.

Definition disallow_login_usernames : list (list Z) := [str "pass"].
Definition quirks_mode_blacklist : list (list Z) := [str "HR-IXPWIND"; str "HR-IXP-WIND"; str "IXP-WIND"; str "Oww/"].
Definition igate_tx_blacklist : list (list Z) := [str "GW1000"].

(** The members of the client that logging in changes. *)
Record login_t (W : Type) := mk_login {
  lg_client : client_t;
  lg_filters : client_filters;
  lg_app_name : list Z;
  lg_app_version : list Z;
  lg_failed_cmds : Z;
  lg_udp_port : Z;
  lg_udpclient : bool;
  lg_gauge : Z;
  lg_ops : W
}.
Arguments mk_login {W} _ _ _ _ _ _ _ _ _.
Arguments lg_client {W} _.
Arguments lg_filters {W} _.
Arguments lg_app_name {W} _.
Arguments lg_app_version {W} _.
Arguments lg_failed_cmds {W} _.
Arguments lg_udp_port {W} _.
Arguments lg_udpclient {W} _.
Arguments lg_gauge {W} _.
Arguments lg_ops {W} _.

Definition set_lg_client {W} (c : client_t) (l : login_t W) : login_t W :=
  mk_login c l.(lg_filters) l.(lg_app_name) l.(lg_app_version) l.(lg_failed_cmds) l.(lg_udp_port) l.(lg_udpclient) l.(lg_gauge) l.(lg_ops).
Definition set_lg_filters {W} (cf : client_filters) (gauge : Z) (l : login_t W) : login_t W :=
  mk_login l.(lg_client) cf l.(lg_app_name) l.(lg_app_version) l.(lg_failed_cmds) l.(lg_udp_port) l.(lg_udpclient) gauge l.(lg_ops).
Definition set_lg_app {W} (name version : list Z) (l : login_t W) : login_t W :=
  mk_login l.(lg_client) l.(lg_filters) name version l.(lg_failed_cmds) l.(lg_udp_port) l.(lg_udpclient) l.(lg_gauge) l.(lg_ops).
Definition set_lg_failed {W} (n : Z) (l : login_t W) : login_t W :=
  mk_login l.(lg_client) l.(lg_filters) l.(lg_app_name) l.(lg_app_version) (i8 n) l.(lg_udp_port) l.(lg_udpclient) l.(lg_gauge) l.(lg_ops).
Definition set_lg_udp_port {W} (n : Z) (l : login_t W) : login_t W :=
  mk_login l.(lg_client) l.(lg_filters) l.(lg_app_name) l.(lg_app_version) l.(lg_failed_cmds) n l.(lg_udpclient) l.(lg_gauge) l.(lg_ops).
Definition set_lg_ops {W} (x : W) (l : login_t W) : login_t W :=
  mk_login l.(lg_client) l.(lg_filters) l.(lg_app_name) l.(lg_app_version) l.(lg_failed_cmds) l.(lg_udp_port) l.(lg_udpclient) l.(lg_gauge) x.

Definition set_c_login (state : CStateEnum) (validated : Z) (username : list Z) (quirks no_tx : bool) (x : client_t) : client_t :=
  mk_client x.(c_id) x.(c_fd) state x.(c_flags) validated username (zlen username) x.(c_addr_hex) quirks no_tx
    x.(c_loc_known) x.(c_heard) x.(c_courtesy) x.(c_heard_count) x.(c_courtesy_count) x.(c_lat) x.(c_lng) x.(c_cos_lat).
Definition set_c_username (name : list Z) (x : client_t) : client_t :=
  set_c_login x.(c_state) x.(c_validated) name x.(c_quirks_mode) x.(c_no_tx) x.
Definition set_c_app (quirks no_tx : bool) (x : client_t) : client_t :=
  set_c_login x.(c_state) x.(c_validated) x.(c_username) quirks no_tx x.
Definition set_c_validated (v : Z) (x : client_t) : client_t :=
  set_c_login x.(c_state) v x.(c_username) x.(c_quirks_mode) x.(c_no_tx) x.
Definition set_c_state (s : CStateEnum) (x : client_t) : client_t :=
  set_c_login s x.(c_validated) x.(c_username) x.(c_quirks_mode) x.(c_no_tx) x.

(** ** Words *)

(** [parse_args_noshell] (config.c): words between spaces, at most 255. *)
Fixpoint words_from (n : nat) (s : list Z) : list (list Z) :=
  match n with
  | O => []
  | S n => match skip_space s with
           | [] => []
           | s => let '(w, rest) := word s in w :: words_from n (tl rest)
           end
  end.

Definition parse_args_noshell (s : list Z) : list (list Z) := words_from 255 s.

Definition prefixmatch (haystack needle : list Z) : bool := starts_with needle haystack.

(** [strcasestr(haystack, needle) != NULL] *)
Definition strcasestr (haystack needle : list Z) : bool :=
  match find_sub (map tolower needle) (map tolower haystack) with Some _ => true | None => false end.

Section Login.
Context {W : Type} `{ServerOps W}.
Context (cfg : config) (quirks_mode : bool) (fnmatch : list Z -> list Z -> bool) (disallow_login_glob : list (list Z)).
Context (cosf : spec_float -> spec_float) (mem : bool).

(** [client_printf(self, c, text)] *)
Definition say (text : list Z) (l : login_t W) : login_t W * Z :=
  let '(x, rc) := client_printf l.(lg_client) (text ++ [13; 10]) l.(lg_ops) in (set_lg_ops x l, rc).

(** The message for a name that is refused. *)
Definition refused_username (name : list Z) : option (list Z) :=
  if existsb (caseeq name) disallow_login_usernames then Some (str "# Login by user not allowed")
  else if negb (bool_decide (disallow_login_glob = [])) && negb (check_call_glob_match fnmatch disallow_login_glob name =? 0)
  then Some (str "# Login by user not allowed")
  else if negb (check_invalid_q_callsign name =? 0) then Some (str "# Invalid username format, not allowed")
  else if caseeq name cfg.(serverid) then Some (str "# Login by user not allowed (our serverid)")
  else None.

(** [login_set_app_name] *)
Definition login_set_app_name (name ver : list Z) (l : login_t W) : login_t W :=
  let cut s := sanitize_ascii_string (take (Z.to_nat (APP_NAME_SIZE - 1)) s) in
  let name := cut name in
  let l := set_lg_app name (cut ver) l in
  let no_tx := l.(lg_client).(c_no_tx) || existsb (prefixmatch name) igate_tx_blacklist in
  let quirks := quirks_mode || existsb (prefixmatch name) quirks_mode_blacklist in
  set_lg_client (set_c_app quirks no_tx l.(lg_client)) l.

(** [login_setup_udp_feed]; the addresses are not modelled. *)
Definition login_setup_udp_feed (port : Z) (l : login_t W) : login_t W * Z :=
  if l.(lg_udpclient) then (set_lg_udp_port port l, 0) else (l, -1).

(** What the options come to: all were read, with the last passcode; the client is
    gone; or the login is refused. *)
Inductive opt_result : Type :=
  | OptDone (l : login_t W) (pass : option (list Z))
  | OptGone (l : login_t W) (rc : Z)
  | OptFailed (l : login_t W) (rc : Z).

(** The filters behind a filter command; [fs] is the text for the status page. *)
Fixpoint login_filters (args : list (list Z)) (fs : list Z) (non_first : bool) (pass : option (list Z)) (l : login_t W)
    : option opt_result :=
  match args with
  | [] => Some (OptDone l pass)
  | a :: args =>
      let fits := zlen fs + zlen a + 2 <? FILTER_S_SIZE in
      let fs := if fits then fs ++ (if non_first then [ch_sp] else []) ++ a else fs in
      let l := if fits then set_lg_filters (set_filter_s fs l.(lg_filters)) l.(lg_gauge) l else l in
      '(cf, gauge, rc) ← filter_parse cosf mem l.(lg_client).(c_flags) a true l.(lg_filters) l.(lg_gauge);
      let l := set_lg_filters cf gauge l in
      if rc =? 0 then login_filters args fs (non_first || fits) pass l
      else
        let '(l, rc) := say (str "# Parse errors on filter spec: '" ++ a ++ str "'") l in
        if rc <? -2 then Some (OptGone l rc) else login_filters args fs (non_first || fits) pass l
  end.

(** The loop over the options. *)
Fixpoint login_options (args : list (list Z)) (pass : option (list Z)) (l : login_t W) : option opt_result :=
  match args with
  | [] => Some (OptDone l pass)
  | a :: args =>
      if caseeq a (str "pass") then
        match args with
        | [] => Some (OptDone l pass)
        | p :: args => login_options args (Some p) l
        end
      else if caseeq a (str "vers") then
        match args with
        | [] => Some (OptDone l pass)
        | name :: args =>
            let ver := hd [] args in
            let ver_missing := bool_decide (args = []) || caseeq ver (str "filter") in
            let l := login_set_app_name name ver l in
            if ver_missing && negb l.(lg_client).(c_quirks_mode) then
              let '(l, rc) := say (str "# Invalid login: software name and version are not separated by a space") l in
              Some (OptFailed l rc)
            else match args with [] => Some (OptDone l pass) | _ :: args => login_options args pass l end
        end
      else if caseeq a (str "udp") then
        match args with
        | [] => Some (OptDone l pass)
        | p :: args =>
            port ← atoi p;
            if (port <? 1024) || (port >? 65535) then Some (OptDone l pass)
            else
              let '(l, rc) := login_setup_udp_feed port l in
              if rc =? 0 then login_options args pass l
              else
                let '(l, rc) := say (str "# No UDP service available on this port") l in
                if rc <? -2 then Some (OptGone l rc) else login_options args pass l
        end
      else if strcasestr a (str "filter") then
        if negb (has l.(lg_client).(c_flags) CLFLAGS_USERFILTEROK) then
          let '(l, rc) := say (str "# No user-specified filters on this port") l in
          Some (if rc <? -2 then OptGone l rc else OptDone l pass)
        else login_filters args [] false pass l
      else login_options args pass l
  end.

(** ** The handler *)

(** How a line ends: it is no login; the client is gone; the login failed; or it
    succeeded. *)
Inductive outcome : Type :=
  | Ignored (l : login_t W)
  | Gone (l : login_t W) (rc : Z)
  | Failed (l : login_t W) (rc : Z)
  | LoggedIn (l : login_t W).

(** The certificate of a TLS client: not asked for, or checked, with the message of a
    failed check. *)
Inductive cert_check : Type := NoCert | CertOk | CertFailed (message : list Z).

Definition validated_str (v : Z) : list Z := if v =? 0 then str "unverified" else str "verified".

(** The passcode decides unless a certificate was checked. *)
Definition check_passcode (ssl_validated : bool) (pass : option (list Z)) (c : client_t) : option Z :=
  match pass with
  | Some p =>
      if negb ssl_validated then
        given ← atoi p;
        Some (if (given >=? 0) && (given =? aprs_passcode c.(c_username)) then VALIDATED_WEAK else c.(c_validated))
      else Some c.(c_validated)
  | None => Some c.(c_validated)
  end.

(** The answer to a login. *)
Definition logresp_text (name : list Z) (validated : Z) : list Z :=
  str "# logresp " ++ name ++ [ch_sp] ++ validated_str validated ++ str ", server " ++ cfg.(serverid).

(** From the options to the answer. *)
Definition login_finish (opts : list (list Z)) (name : list Z) (ssl_validated : bool) (l : login_t W) : option outcome :=
  r ← login_options opts None l;
  match r with
  | OptGone l rc => Some (Gone l rc)
  | OptFailed l rc => Some (Failed l rc)
  | OptDone l pass =>
      v ← check_passcode ssl_validated pass l.(lg_client);
      let l := set_lg_client (set_c_validated v l.(lg_client)) l in
      let l := set_lg_filters (set_filter_s (sanitize_ascii_string l.(lg_filters).(cf_filter_s)) l.(lg_filters)) l.(lg_gauge) l in
      let '(l, rc) := say (logresp_text name v) l in
      Some (if rc <? -2 then Gone l rc else LoggedIn l)
  end.

(** The checks before the options.  When a certificate is refused and the message
    about it ends the connection, the C code goes on with the client that was
    freed, unless the message failed with -1: [None]. *)
Definition login_line (cert : cert_check) (s : list Z) (l : login_t W) : option outcome :=
  let argv := parse_args_noshell (cstr s) in
  let fail text l := let '(l, rc) := say text l in Some (Failed l rc) in
  match argv with
  | [] => Some (Ignored l)
  | cmd :: args =>
      if bool_decide (rd cmd 0 = Some ch_hash) then Some (Ignored l)
      else match args with
      | [] => fail (str "# Invalid login string, too few arguments") l
      | name :: opts =>
          if negb (caseeq cmd (str "user")) then
            let n := if caseeq cmd (str "GET") then 10 else l.(lg_failed_cmds) in
            fail (str "# Invalid login command") (set_lg_failed (n + 1) l)
          else if zlen name >? CALLSIGNLEN_MAX then fail (str "# Invalid username format") l
          else
            let l := set_lg_client (set_c_username name l.(lg_client)) l in
            match refused_username name with
            | Some text => fail text l
            | None =>
                match cert with
                | NoCert => login_finish opts name false l
                | CertOk => login_finish opts name true (set_lg_client (set_c_validated VALIDATED_STRONG l.(lg_client)) l)
                | CertFailed message =>
                    let '(l, rc) := say message l in
                    if rc <? -2 then None else Some (Failed (set_lg_failed 10 l) (if rc =? -1 then -1 else 0))
                end
            end
      end
  end.

(** The worker and the list of clients around a login. *)
Record login_world := mk_world {
  wo_login : login_t W;
  wo_worker : out_state W;
  wo_table : clientlist_table;
  wo_shutdown : list Z;
  wo_connected : bool;
  wo_closed : bool
}.

(** The structure of the client, in the worker's store. *)
Definition store_client (l : login_t W) (st : out_state W) : out_state W :=
  set_os_client l.(lg_client).(c_id) (mk_out_client l.(lg_client) l.(lg_filters)) st.(os_history) l.(lg_ops) st.

(** [worker_mark_client_connected] and the entry in the list of clients. *)
Definition connect (l : login_t W) (w : login_world) : login_world :=
  let c := set_c_state CSTATE_CONNECTED l.(lg_client) in
  let l := set_lg_client c l in
  let '(table, old_fd) := clientlist_add w.(wo_table) c in
  mk_world l (worker_classify_client c.(c_id) c (store_client l w.(wo_worker))) table
    (if negb (c.(c_validated) =? 0) && negb (old_fd =? -1) then w.(wo_shutdown) ++ [old_fd] else w.(wo_shutdown))
    true false.

(** The client is closed. *)
Definition disconnect (l : login_t W) (w : login_world) : login_world :=
  mk_world l (unlink_client l.(lg_client).(c_id) (store_client l w.(wo_worker))) w.(wo_table) w.(wo_shutdown) w.(wo_connected) true.

Definition login_handler (cert : cert_check) (s : list Z) (w : login_world) : option (login_world * Z) :=
  r ← login_line cert s w.(wo_login);
  Some (match r with
        | Ignored l => (mk_world l (store_client l w.(wo_worker)) w.(wo_table) w.(wo_shutdown) w.(wo_connected) w.(wo_closed), 0)
        | Gone l rc => (disconnect l w, rc)
        | LoggedIn l => (connect l w, 0)
        | Failed l rc =>
            if rc <? -2 then (disconnect l w, rc)
            else
              let l := set_lg_failed (l.(lg_failed_cmds) + 1) l in
              if l.(lg_failed_cmds) >=? 3 then (disconnect l w, -3)
              else (mk_world l (store_client l w.(wo_worker)) w.(wo_table) w.(wo_shutdown) w.(wo_connected) w.(wo_closed), rc)
        end).

(** ** Uploads over HTTP and UDP *)

(** The passcode options of [http_udp_upload_login]. *)
Fixpoint upload_options (args : list (list Z)) (name : list Z) (validated : Z) : option Z :=
  match args with
  | [] => Some validated
  | a :: args =>
      if caseeq a (str "pass") then
        match args with
        | [] => Some validated
        | p :: args =>
            given ← atoi p;
            upload_options args name (if (given >=? 0) && (given =? aprs_passcode name) then 1 else validated)
        end
      else if caseeq a (str "vers") then
        match args with _ :: _ :: args => upload_options args name validated | _ => Some validated end
      else upload_options args name validated
  end.

(** -1 when the name is refused, otherwise whether the passcode is right. *)
Definition http_udp_upload_login (s : list Z) : option (Z * option (list Z)) :=
  match parse_args_noshell s with
  | cmd :: name :: opts =>
      if negb (caseeq cmd (str "user")) then Some (-1, None)
      else if zlen name >? CALLSIGNLEN_MAX then Some (-1, Some name)
      else if existsb (caseeq name) disallow_login_usernames then Some (-1, Some name)
      else if negb (bool_decide (disallow_login_glob = [])) && negb (check_call_glob_match fnmatch disallow_login_glob name =? 0)
      then Some (-1, Some name)
      else if negb (check_invalid_q_callsign name =? 0) then Some (-1, Some name)
      else v ← upload_options opts name 0; Some (v, Some name)
  | _ => Some (-1, None)
  end.
End Login.
