(* ===== verification/LoginSpec.v ===== *)
(** * Logging in: who gets in, and what becomes of those who do not *)

From S2P Require Import Prelude Types Cfloat Cfgfile Passcode ParseQc Callsign ParseAprs Clientlist ClientHeard Messaging.
From S2P Require Import Historydb Incoming Filter FilterParse FilterSpec FilterText Outgoing Login.
From Stdlib Require Import ZArith Lia Bool String SpecFloat.
From stdpp Require Import base tactics list gmap numbers.
Open Scope Z_scope.

(** ** Words *)

Lemma skip_space_in s c : c ∈ skip_space s -> c ∈ s.
Proof.
  induction s as [|d s IH]; cbn [skip_space]; [done|]. split_if; [|done]. intros H. right. by apply IH.
Qed.

Lemma word_in s c : (c ∈ (word s).1 -> c ∈ s) /\ (c ∈ (word s).2 -> c ∈ s).
Proof.
  induction s as [|d s [IH1 IH2]]; cbn [word]; [done|]. split_if; [by split; [intros ?%elem_of_nil|]|].
  destruct (word s) as [w r]. cbn [fst snd] in *. split; [|by right; apply IH2].
  intros [->|H]%elem_of_cons; [by left|]. right. by apply IH1.
Qed.

(** The words of a line are made of its characters. *)
Lemma words_from_in n s w c : w ∈ words_from n s -> c ∈ w -> c ∈ s.
Proof.
  revert s. induction n as [|n IH]; intros s; cbn [words_from]; [by intros ?%elem_of_nil|].
  destruct (skip_space s) as [|d t] eqn:E; [by intros ?%elem_of_nil|].
  destruct (word (d :: t)) as [v r] eqn:Ew. destruct (word_in (d :: t) c) as [H1 H2]. rewrite Ew in H1, H2.
  intros [->|Hw]%elem_of_cons Hc; apply skip_space_in; rewrite E; [by apply H1|]. apply H2.
  specialize (IH _ Hw Hc). cbn [snd]. destruct r; [done|]. by right.
Qed.

Lemma cstr_no_zero s : 0 ∉ cstr s.
Proof. induction s as [|c s IH]; cbn [cstr]; [by intros ?%elem_of_nil|]. split_if; [by intros ?%elem_of_nil|].
  intros [E|H]%elem_of_cons; [lia|done]. Qed.

Lemma line_word_nul s w : w ∈ parse_args_noshell (cstr s) -> Forall (fun b => b <> 0) w.
Proof.
  intros Hw. apply list.Forall_forall. intros c Hc ->. apply (cstr_no_zero s). by eapply words_from_in.
Qed.

(** Words written with a space between them. *)
Fixpoint unwords (ws : list (list Z)) : list Z :=
  match ws with
  | [] => []
  | [w] => w
  | w :: ws => w ++ [ch_sp] ++ unwords ws
  end.

Definition word_ok (w : list Z) : Prop := w <> [] /\ Forall (fun c => isspace c = false /\ c <> 0) w.

Definition word_ok_b (w : list Z) : bool :=
  match w with [] => false | _ => forallb (fun c => negb (isspace c) && negb (c =? 0)) w end.

Lemma word_ok_b_ok w : word_ok_b w = true -> word_ok w.
Proof.
  intros H. destruct w as [|c w]; [done|]. split; [done|]. apply Forall_forall. intros d Hd.
  unfold word_ok_b in H. rewrite forallb_forall in H. specialize (H d Hd). destruct (isspace d); [done|]. lia.
Qed.

Lemma skip_space_word w t : word_ok w -> skip_space (w ++ t) = w ++ t.
Proof. intros [Hne Hw]. destruct w as [|c w]; [done|]. inversion_clear Hw as [|? ? [H _]]. cbn. by rewrite H. Qed.

Lemma word_word w t : Forall (fun c => isspace c = false /\ c <> 0) w -> word (w ++ ch_sp :: t) = (w, ch_sp :: t).
Proof. induction 1 as [|c w [H _] Hw IH]; [done|]. cbn [app word]. by rewrite H, IH. Qed.

Lemma word_last w : Forall (fun c => isspace c = false /\ c <> 0) w -> word w = (w, []).
Proof. induction 1 as [|c w [H _] Hw IH]; [done|]. cbn [app word]. by rewrite H, IH. Qed.

Lemma words_from_unwords ws n : (length ws <= n)%nat -> Forall word_ok ws -> words_from n (unwords ws) = ws.
Proof.
  intros Hn Hws. revert n Hn. induction Hws as [|w ws Hw Hws IH]; intros n Hn; [by destruct n|].
  destruct n as [|n]; [cbn in Hn; lia|]. cbn in Hn. destruct Hw as [Hne Hw].
  assert (word_ok w) as Hok by done. cbn [words_from]. destruct ws as [|v ws].
  - cbn [unwords]. rewrite <- (app_nil_r w) at 1. rewrite skip_space_word, app_nil_r by done. destruct w as [|c w]; [done|].
    rewrite word_last by done. cbn [tl]. f_equal. by destruct n.
  - change (unwords (w :: v :: ws)) with (w ++ ch_sp :: unwords (v :: ws)). rewrite skip_space_word by done.
    destruct w as [|c w]; [done|]. cbn [app]. rewrite app_comm_cons, word_word by done. cbn [tl]. f_equal. apply IH. lia.
Qed.

Lemma unwords_nul ws : Forall word_ok ws -> Forall (fun c => c <> 0) (unwords ws).
Proof.
  induction 1 as [|w ws [_ Hw] Hws IH]; [constructor|].
  assert (Forall (fun c => c <> 0) w) as Hn by (eapply list.Forall_impl; [exact Hw|]; by intros c []).
  destruct ws; [done|]. change (unwords _) with (w ++ ch_sp :: unwords (l :: ws)).
  apply Forall_app. split; [done|]. by constructor.
Qed.

(** Reading what was written. *)
Lemma parse_unwords ws :
  (length ws <= 255)%nat -> Forall word_ok ws -> parse_args_noshell (cstr (unwords ws)) = ws.
Proof.
  intros Hn Hws. rewrite cstr_nul_free by by apply unwords_nul. by apply words_from_unwords.
Qed.

(** ** Options *)

Definition opt_login {W} (r : opt_result (W := W)) : login_t W :=
  match r with OptDone l _ => l | OptGone l _ => l | OptFailed l _ => l end.

(** Who the client is. *)
Definition identity (c : client_t) : Z * Z * CStateEnum * Z * Z * list Z * Z :=
  (c.(c_id), c.(c_fd), c.(c_state), c.(c_flags), c.(c_validated), c.(c_username), c.(c_username_len)).

Record kept {W} (l l' : login_t W) : Prop := {
  k_identity : zlen l.(lg_client).(c_username) = l.(lg_client).(c_username_len) ->
               identity l'.(lg_client) = identity l.(lg_client);
  k_failed : l'.(lg_failed_cmds) = l.(lg_failed_cmds);
  k_filters : filters_ok l.(lg_filters) -> filters_ok l'.(lg_filters)
}.

#[export] Instance kept_preorder {W} : PreOrder (@kept W).
Proof.
  split; [by split|]. intros a b c [A1 A2 A3] [B1 B2 B3]. split; [|congruence|auto].
  intros Hl. specialize (A1 Hl). rewrite B1; [done|]. unfold identity in A1. simplify_eq. congruence.
Qed.

(** A passcode among the options. *)
Definition pass_option (opts : list (list Z)) (p : list Z) : Prop :=
  exists pre q post, opts = pre ++ q :: p :: post /\ caseeq q (str "pass") = true.

Lemma pass_option_app pre opts p : pass_option opts p -> pass_option (pre ++ opts) p.
Proof. intros (a & q & post & -> & H). exists (pre ++ a), q, post. by rewrite app_assoc. Qed.

(** What becomes of a client while its options are read: only the filters, the application,
    the UDP port and what was sent change, the passcode that is found is one of the
    options, and a client that is gone is reported as such. *)
Definition opt_fine {W} (args : list (list Z)) (pass : option (list Z)) (l : login_t W) (r : opt_result (W := W)) : Prop :=
  kept l (opt_login r) /\
  match r with
  | OptDone _ p => forall q, p = Some q -> pass = Some q \/ pass_option args q
  | OptGone _ rc => rc < -2
  | OptFailed _ _ => True
  end.

Lemma opt_fine_trans {W} args pass (l l1 : login_t W) r : kept l l1 -> opt_fine args pass l1 r -> opt_fine args pass l r.
Proof. intros H1 [H2 H3]. split; [by etrans|done]. Qed.

Lemma opt_fine_app {W} pre args pass (l : login_t W) r : opt_fine args pass l r -> opt_fine (pre ++ args) pass l r.
Proof.
  intros [H1 H2]. split; [done|]. destruct r; try done. intros q Hq. destruct (H2 q Hq) as [?|Hp]; [by left|].
  right. by apply pass_option_app.
Qed.

Lemma opt_fine_done {W} args pass (l l1 : login_t W) : kept l l1 -> opt_fine args pass l (OptDone l1 pass).
Proof. intros H1. split; [done|]. intros q ->. by left. Qed.

Section Options.
Context {W : Type} `{ServerOps W}.
Context (cfg : config) (quirks_mode : bool) (fnmatch : list Z -> list Z -> bool) (disallow_login_glob : list (list Z)).
Context (cosf : spec_float -> spec_float) (mem : bool).

Lemma say_kept text l : kept l (say text l).1.
Proof. unfold say. destruct (client_printf _ _ _) as [x rc]. by split. Qed.

Lemma say_filters text l : (say text l).1.(lg_filters) = l.(lg_filters).
Proof. unfold say. by destruct (client_printf _ _ _) as [x rc]. Qed.

Lemma app_name_kept name ver (l : login_t W) : kept l (login_set_app_name quirks_mode name ver l).
Proof. split; [|done|done]. intros Hl. unfold identity. cbn. by rewrite Hl. Qed.

Lemma udp_kept port (l : login_t W) : kept l (login_setup_udp_feed port l).1.
Proof. unfold login_setup_udp_feed. by destruct (lg_udpclient l). Qed.

Lemma filters_text_kept fs gauge (l : login_t W) : kept l (set_lg_filters (set_filter_s fs l.(lg_filters)) gauge l).
Proof. split; [done|done|]. by intros []. Qed.

(** The state in which the words behind a filter command are read. *)
Definition noted (fits : bool) (fs : list Z) (l : login_t W) : login_t W :=
  if fits then set_lg_filters (set_filter_s fs l.(lg_filters)) l.(lg_gauge) l else l.

Lemma noted_kept fits fs l : kept l (noted fits fs l).
Proof. destruct fits; [apply filters_text_kept|done]. Qed.

Lemma parse_kept a (l : login_t W) cf gauge rc :
  filter_parse cosf mem l.(lg_client).(c_flags) a true l.(lg_filters) l.(lg_gauge) = Some (cf, gauge, rc) ->
  kept l (set_lg_filters cf gauge l).
Proof. intros E. split; [done|done|]. intros Hok. by apply filter_parse_keeps in E as []. Qed.

Lemma login_filters_fine args opts fs nf pass l r :
  login_filters cosf mem args fs nf pass l = Some r -> opt_fine opts pass l r.
Proof.
  revert fs nf l. induction args as [|a args IH]; intros fs nf l E; cbn [login_filters] in E.
  { injection E as <-. by apply opt_fine_done. }
  set (fits := _ <? _) in E. set (fs' := if fits then _ else fs) in E.
  change (if fits then _ else l) with (noted fits fs' l) in E. clearbody fits fs'.
  inv_bind E. destruct x as [[cf g] rc]. apply parse_kept in E0.
  apply (opt_fine_trans _ _ _ (noted fits fs' l)); [apply noted_kept|]. apply (opt_fine_trans _ _ _ _ _ E0).
  set (l1 := set_lg_filters cf g _) in *. clearbody l1. split_if_in E; [by eapply IH|].
  pose proof (say_kept (str "# Parse errors on filter spec: '" ++ a ++ str "'") l1) as H2.
  destruct (say _ l1) as [l2 rc2]. apply (opt_fine_trans _ _ _ _ _ H2). split_if_in E; [|by eapply IH].
  injection E as <-. split; [done|lia].
Qed.

Lemma login_options_fine args pass l r :
  login_options quirks_mode cosf mem args pass l = Some r -> opt_fine args pass l r.
Proof.
  remember (length args) as n eqn:Hn. revert args pass l Hn.
  induction (lt_wf n) as [n _ IH]. intros args pass l -> E.
  assert (forall pre rest pass l, args = pre ++ rest -> pre <> [] ->
            login_options quirks_mode cosf mem rest pass l = Some r -> opt_fine rest pass l r) as Hrest.
  { intros pre rest pass' l1 -> Hne. eapply IH; [|done]. rewrite length_app. destruct pre; [done|cbn; lia]. }
  assert (forall l1 : login_t W, kept l l1 -> Some (OptDone l1 pass) = Some r -> opt_fine args pass l r) as Hdone
    by (intros l1 H1 [= <-]; by apply opt_fine_done).
  clear IH. destruct args as [|a args]; cbn [login_options] in E; [by eapply Hdone|].
  destruct (caseeq a (str "pass")) eqn:Ea.
  { destruct args as [|p args]; [by eapply Hdone|]. apply (Hrest [a; p]) in E as [H1 H2]; try done. split; [done|].
    destruct r; try done. intros q Hq. right. destruct (H2 q Hq) as [[= ->]|Hp]; [by exists [], a, args|].
    by apply (pass_option_app [a; p]). }
  destruct (caseeq a (str "vers")).
  { destruct args as [|name args]; [by eapply Hdone|]. set (ver := hd [] args) in E.
    apply (opt_fine_trans _ _ _ _ _ (app_name_kept name ver l)). set (l1 := login_set_app_name _ _ _ _) in *. split_if_in E.
    - pose proof (say_kept (str "# Invalid login: software name and version are not separated by a space") l1) as H2.
      destruct (say _ l1) as [l2 rc]. injection E as <-. by split.
    - destruct args as [|v args]; [injection E as <-; by apply opt_fine_done|].
      apply (opt_fine_app [a; name; v]). by apply (Hrest [a; name; v]). }
  destruct (caseeq a (str "udp")).
  { destruct args as [|p args]; [by eapply Hdone|]. inv_bind E. split_if_in E; [by eapply Hdone|].
    pose proof (udp_kept x l) as H1. destruct (login_setup_udp_feed x l) as [l1 rc]. apply (opt_fine_trans _ _ _ _ _ H1).
    apply (opt_fine_app [a; p]). split_if_in E; [by apply (Hrest [a; p])|].
    pose proof (say_kept (str "# No UDP service available on this port") l1) as H2. destruct (say _ l1) as [l2 rc2].
    apply (opt_fine_trans _ _ _ _ _ H2). split_if_in E; [|by apply (Hrest [a; p])]. injection E as <-. split; [done|lia]. }
  destruct (strcasestr a (str "filter")); [|by apply (opt_fine_app [a]), (Hrest [a])].
  split_if_in E; [|by eapply login_filters_fine].
  pose proof (say_kept (str "# No user-specified filters on this port") l) as H1. destruct (say _ l) as [l1 rc].
  destruct (Z.ltb_spec rc (-2)); injection E as <-; [by split|by apply opt_fine_done].
Qed.

(** Room for the filters among the words that are left. *)
Record room (k : Z) (args : list (list Z)) (l : login_t W) : Prop := {
  ro_ok : filters_ok l.(lg_filters);
  ro_fits : chains_fit true k l.(lg_filters);
  ro_pos : 0 <= k;
  ro_size : k + words_size args <= FILT_TEXTBUFSIZE
}.

Lemma room_kept k args l l' : room k args l -> kept l l' -> l'.(lg_filters) = l.(lg_filters) -> room k args l'.
Proof. intros [R1 R2 R3 R4] [_ _ K] E. split; try done; [by apply K|by rewrite E]. Qed.

Lemma words_size_app a b : words_size (a ++ b) = words_size a + words_size b.
Proof. induction a as [|x a IH]; [done|]. cbn [app words_size foldr] in *. fold (words_size (a ++ b)) (words_size a). lia. Qed.

Lemma room_rest k pre args l : room k (pre ++ args) l -> room k args l.
Proof. intros [R1 R2 R3 R4]. rewrite words_size_app in R4. pose proof (words_size_nonneg pre). split; try done. lia. Qed.

Lemma set_filter_s_fits k fs cf : chains_fit true k cf -> chains_fit true k (set_filter_s fs cf).
Proof. intros Hf []; [exact (Hf true)|exact (Hf false)]. Qed.

Lemma room_noted k args fits fs l : room k args l -> room k args (noted fits fs l).
Proof.
  intros [R1 R2 R3 R4]. destruct fits; [|done]. split; try done; by destruct R1.
Qed.

Lemma login_filters_total k args fs nf pass l :
  room k args l ->
  exists r, login_filters cosf mem args fs nf pass l = Some r /\ chains_fit true (k + words_size args) (opt_login r).(lg_filters).
Proof.
  revert k fs nf l. induction args as [|a args IH]; intros k fs nf l R; cbn [login_filters].
  { eexists. split; [done|]. destruct R as [_ R _ _]. cbn. by rewrite Z.add_0_r. }
  set (fits := _ <? _). set (fs' := if fits then _ else fs). change (if fits then _ else l) with (noted fits fs' l).
  clearbody fits fs'. apply (room_noted _ _ fits fs') in R. set (l1 := noted fits fs' l) in *. clearbody l1.
  destruct R as [R1 R2 R3 R4]. cbn [words_size foldr] in R4 |- *. fold (words_size args) in *.
  pose proof (words_size_nonneg args). pose proof (zlen_nonneg a).
  destruct (filter_parse_fits true cosf mem (c_flags (lg_client l1)) k a (lg_filters l1) (lg_gauge l1))
    as (cf & g & rc & E & Hf); [done|done|lia|lia|].
  rewrite E. cbn [mbind option_bind]. apply filter_parse_keeps in E as (Hok & _); [|done].
  replace (k + (zlen a + 1 + words_size args)) with (k + zlen a + 1 + words_size args) by lia.
  assert (room (k + zlen a + 1) args (set_lg_filters cf g l1)) as R by (split; try done; lia).
  split_if; [by apply IH|]. set (l2 := set_lg_filters cf g l1) in *.
  pose proof (say_kept (str "# Parse errors on filter spec: '" ++ a ++ str "'") l2) as Hk.
  pose proof (say_filters (str "# Parse errors on filter spec: '" ++ a ++ str "'") l2) as Hl.
  destruct (say _ l2) as [l3 rc3]. cbn [fst] in Hk, Hl. split_if; [|by apply IH; eapply room_kept].
  eexists. split; [done|]. cbn [opt_login]. rewrite Hl. apply (chains_fit_le true (k + zlen a + 1)); [done|lia].
Qed.

(** [atoi] has a value. *)
Definition numeral (w : list Z) : Prop := is_Some (atoi w).

Lemma login_options_total k args pass l :
  room k args l -> Forall numeral args ->
  exists r, login_options quirks_mode cosf mem args pass l = Some r /\
    chains_fit true (k + words_size args) (opt_login r).(lg_filters).
Proof.
  remember (length args) as n eqn:Hn. revert args pass l Hn. induction (lt_wf n) as [n _ IH]. intros args pass l -> R Hnum.
  assert (forall pre rest pass l, args = pre ++ rest -> pre <> [] -> room k args l ->
            exists r, login_options quirks_mode cosf mem rest pass l = Some r /\
              chains_fit true (k + words_size args) (opt_login r).(lg_filters)) as Hrest.
  { intros pre rest pass' l1 -> Hne R1. apply room_rest in R1. apply Forall_app in Hnum as [_ Hnum].
    destruct (IH (length rest)) with (args := rest) (pass := pass') (l := l1) as (r & E & Hf); try done.
    { rewrite length_app. destruct pre; [done|cbn; lia]. }
    exists r. split; [done|]. eapply chains_fit_le; [exact Hf|]. rewrite words_size_app. pose proof (words_size_nonneg pre). lia. }
  clear IH. assert (forall r l1, opt_login r = l1 -> room k args l1 ->
     exists r', Some r = Some r' /\ chains_fit true (k + words_size args) (opt_login r').(lg_filters)) as Hdone.
  { intros r l1 <- [_ R1 _ _]. eexists. split; [done|]. eapply chains_fit_le; [exact R1|]. pose proof (words_size_nonneg args). lia. }
  destruct args as [|a args]; cbn [login_options]; [by eapply Hdone|].
  assert (forall text l, room k (a :: args) l -> room k (a :: args) (say text l).1) as Hsay
    by (intros text l1 R1; eapply room_kept; [done|apply say_kept|apply say_filters]).
  destruct (caseeq a (str "pass")).
  { destruct args as [|p args]; [by eapply Hdone|]. by apply (Hrest [a; p]). }
  destruct (caseeq a (str "vers")).
  { destruct args as [|name args]; [by eapply Hdone|]. set (ver := hd [] args).
    assert (room k (a :: name :: args) (login_set_app_name quirks_mode name ver l)) as R1
      by (eapply room_kept; [done|apply app_name_kept|done]).
    set (l1 := login_set_app_name _ _ _ _) in *. clearbody l1. split_if.
    - specialize (Hsay (str "# Invalid login: software name and version are not separated by a space") l1 R1).
      destruct (say _ l1) as [l2 rc]. by eapply Hdone.
    - destruct args as [|v args]; [by eapply Hdone|]. by apply (Hrest [a; name; v]). }
  destruct (caseeq a (str "udp")).
  { destruct args as [|p args]; [by eapply Hdone|]. apply list.Forall_cons_1 in Hnum as [_ Hnum].
    apply list.Forall_cons_1 in Hnum as [[port Ep] _]. rewrite Ep. cbn [mbind option_bind]. split_if; [by eapply Hdone|].
    assert (room k (a :: p :: args) (login_setup_udp_feed port l).1) as R1.
    { eapply room_kept; [done|apply udp_kept|]. unfold login_setup_udp_feed. by destruct (lg_udpclient l). }
    destruct (login_setup_udp_feed port l) as [l1 rc]. cbn [fst] in R1. split_if; [by apply (Hrest [a; p])|].
    specialize (Hsay (str "# No UDP service available on this port") l1 R1). destruct (say _ l1) as [l2 rc2].
    split_if; [by eapply Hdone|by apply (Hrest [a; p])]. }
  destruct (strcasestr a (str "filter")); [|by apply (Hrest [a])]. split_if.
  - specialize (Hsay (str "# No user-specified filters on this port") l R). destruct (say _ l) as [l1 rc].
    split_if; by eapply Hdone.
  - apply (room_rest k [a]) in R as R1. destruct (login_filters_total k args [] false pass l R1) as (r & -> & Hf).
    eexists. split; [done|]. eapply chains_fit_le; [exact Hf|]. cbn [words_size foldr]. fold (words_size args).
    pose proof (zlen_nonneg a). lia.
Qed.
End Options.

(** ** Lines *)

Definition outcome_login {W} (o : outcome (W := W)) : login_t W :=
  match o with Ignored l => l | Gone l _ => l | Failed l _ => l | LoggedIn l => l end.

(** The words of a line. *)
Definition line_words (s : list Z) : list (list Z) := parse_args_noshell (cstr s).

(** A line that is no attempt: nothing, or a comment. *)
Definition no_attempt (s : list Z) : bool :=
  match line_words s with [] => true | cmd :: _ => bool_decide (rd cmd 0 = Some ch_hash) end.

(** What verifies a client: a certificate that was checked, or the passcode of its name. *)
Definition grants (cert : cert_check) (opts : list (list Z)) (name : list Z) (v0 v : Z) : Prop :=
  match cert with
  | CertOk => v = VALIDATED_STRONG
  | NoCert => v = v0 \/ (v = VALIDATED_WEAK /\ exists p, pass_option opts p /\ atoi p = Some (aprs_passcode name))
  | CertFailed _ => False
  end.

Section Lines.
Context {W : Type} {ops : ServerOps W}.
Context (cfg : config) (quirks_mode : bool) (fnmatch : list Z -> list Z -> bool) (disallow_login_glob : list (list Z)).
Context (cosf : spec_float -> spec_float) (mem : bool).

(** The client that is let in. *)
Definition admitted (cert : cert_check) (s : list Z) (l l' : login_t W) : Prop :=
  exists cmd name opts v,
    line_words s = cmd :: name :: opts /\ caseeq cmd (str "user") = true /\ zlen name <= CALLSIGNLEN_MAX /\
    refused_username cfg fnmatch disallow_login_glob name = None /\
    identity l'.(lg_client) = identity (set_c_validated v (set_c_username name l.(lg_client))) /\
    grants cert opts name l.(lg_client).(c_validated) v.

Lemma login_finish_fine opts name ssl (l : login_t W) o :
  zlen l.(lg_client).(c_username) = l.(lg_client).(c_username_len) ->
  login_finish cfg quirks_mode cosf mem opts name ssl l = Some o ->
  (outcome_login o).(lg_failed_cmds) = l.(lg_failed_cmds) /\
  (filters_ok l.(lg_filters) -> filters_ok (outcome_login o).(lg_filters)) /\
  match o with
  | Ignored _ => False
  | Gone _ rc => rc < -2
  | Failed _ _ => True
  | LoggedIn l' => exists v, identity l'.(lg_client) = identity (set_c_validated v l.(lg_client)) /\
      (v = l.(lg_client).(c_validated) \/
       (v = VALIDATED_WEAK /\ ssl = false /\
        exists p, pass_option opts p /\ atoi p = Some (aprs_passcode l.(lg_client).(c_username))))
  end.
Proof.
  intros Hl E. unfold login_finish in E. inv_bind E. apply login_options_fine in E0 as [Hk Hr].
  destruct x as [l1 pass|l1 rc|l1 rc]; cbn [opt_login] in Hk.
  2-3: injection E as <-; destruct Hk as [_ K2 K3]; cbn [outcome_login]; done.
  inv_bind E. rename x into v. destruct Hk as [K1 K2 K3]. specialize (K1 Hl). unfold identity in K1. injection K1 as I1 I2 I3 I4 I5 I6 I7.
  assert (v = c_validated (lg_client l) \/ v = VALIDATED_WEAK /\ ssl = false /\
          exists p, pass_option opts p /\ atoi p = Some (aprs_passcode (c_username (lg_client l)))) as Hv.
  { unfold check_passcode in E0. rewrite I5, I6 in E0. destruct pass as [p|]; [|injection E0 as <-; by left].
    destruct ssl; cbn [negb] in E0; [injection E0 as <-; by left|]. inv_bind E0. injection E0 as <-.
    destruct ((x >=? 0) && _) eqn:Ex; [|by left]. right. split; [done|]. split; [done|]. exists p.
    destruct (Hr p eq_refl) as [|Hp]; [done|]. split; [done|]. rewrite E1. f_equal. lia. }
  set (l2 := set_lg_filters _ _ _) in E. pose proof (say_kept (str "# logresp " ++ name ++ [ch_sp] ++ validated_str v ++
    str ", server " ++ serverid cfg) l2) as [K4 K5 K6]. destruct (say _ l2) as [l3 rc]. cbn [fst] in K4, K5, K6.
  assert (filters_ok (lg_filters l) -> filters_ok (lg_filters l3)) as Hf
    by (intros Hok; apply K6; destruct (K3 Hok); by split).
  assert (lg_failed_cmds l3 = lg_failed_cmds l) as Hfc by (rewrite K5; exact K2).
  destruct (Z.ltb_spec rc (-2)); injection E as <-; cbn [outcome_login]; [done|].
  split; [done|]. split; [done|]. exists v. split; [|done]. rewrite K4 by done.
  unfold identity. cbn. by rewrite I1, I2, I3, I4, I6.
Qed.

(** What a line does to a client that is not in yet. *)
Definition line_fine (cert : cert_check) (s : list Z) (l : login_t W) (o : outcome (W := W)) : Prop :=
  (filters_ok l.(lg_filters) -> filters_ok (outcome_login o).(lg_filters)) /\
  match o with
  | Ignored l' => l' = l /\ no_attempt s = true
  | Gone _ rc => rc < -2
  | Failed l' _ => l.(lg_failed_cmds) <= l'.(lg_failed_cmds) <= 11
  | LoggedIn l' => admitted cert s l l'
  end.

Lemma say_fail cert s text (l l1 : login_t W) o :
  l1.(lg_filters) = l.(lg_filters) -> l.(lg_failed_cmds) <= l1.(lg_failed_cmds) <= 11 ->
  (let '(l2, rc) := say text l1 in Some (Failed l2 rc)) = Some o -> line_fine cert s l o.
Proof.
  intros Hf Hn E. pose proof (say_filters text l1) as H1. destruct (say_kept text l1) as [_ H2 _].
  destruct (say text l1) as [l2 rc]. cbn [fst] in *. injection E as <-. split; cbn [outcome_login]; [by rewrite H1, Hf|].
  by rewrite H2.
Qed.

Abbreviation login_line := (login_line cfg quirks_mode fnmatch disallow_login_glob cosf mem) (only parsing).

Lemma login_line_fine cert s (l : login_t W) o :
  0 <= l.(lg_failed_cmds) < 3 -> login_line cert s l = Some o -> line_fine cert s l o.
Proof.
  intros Hfc E. unfold Login.login_line in E. fold (line_words s) in E.
  destruct (line_words s) as [|cmd args] eqn:Es.
  { injection E as <-. split; [done|]. split; [done|]. unfold no_attempt. by rewrite Es. }
  destruct (bool_decide (rd cmd 0 = Some ch_hash)) eqn:Eh.
  { injection E as <-. split; [done|]. split; [done|]. unfold no_attempt. by rewrite Es. }
  destruct args as [|name opts]; [by eapply say_fail; [| |exact E]; [done|lia]|].
  destruct (caseeq cmd (str "user")) eqn:Eu; cbn [negb] in E.
  2:{ eapply say_fail; [| |exact E]; [done|]. cbn [lg_failed_cmds set_lg_failed]. unfold i8. split_if; rewrite Z.mod_small; lia. }
  destruct (Z.gtb_spec (zlen name) CALLSIGNLEN_MAX) as [|Hn]; [by eapply say_fail; [| |exact E]; [done|lia]|].
  set (l1 := set_lg_client _ l) in E. destruct (refused_username _ _ _ name) eqn:Er;
    [by eapply say_fail; [| |exact E]; [done|cbn; lia]|].
  destruct cert as [| |message].
  1-2: apply login_finish_fine in E as (H1 & H2 & H3); [|done]; cbn [lg_failed_cmds set_lg_client l1] in H1;
       split; [done|]; destruct o; cbn [outcome_login] in *; try done; try lia; destruct H3 as (v & H3 & Hv);
       exists cmd, name, opts, v; do 5 (split; [done|]).
  - destruct Hv as [->|(-> & _ & Hp)]; [by left|by right].
  - by destruct Hv as [->|(_ & ? & _)].
  - pose proof (say_filters message l1) as H1. destruct (say message l1) as [l2 rc]. split_if_in E; [done|].
    injection E as <-. split; cbn [outcome_login lg_filters set_lg_failed fst] in *; [by rewrite H1|].
    cbn [lg_failed_cmds set_lg_failed]. change (i8 10) with 10. lia.
Qed.

Lemma login_finish_total k opts name ssl (l : login_t W) :
  room k opts l -> Forall numeral opts ->
  exists o, login_finish cfg quirks_mode cosf mem opts name ssl l = Some o /\
    chains_fit true (k + words_size opts) (outcome_login o).(lg_filters).
Proof.
  intros R Hnum. unfold login_finish. destruct (login_options_total quirks_mode cosf mem k opts None l R Hnum) as (r & Er & Hu).
  rewrite Er. cbn [mbind option_bind]. apply login_options_fine in Er as [_ Hp].
  destruct r as [l1 pass| |]; [|by eexists..]. cbn [opt_login] in Hu.
  assert (exists v, check_passcode ssl pass (lg_client l1) = Some v) as [v ->].
  { unfold check_passcode. destruct pass as [p|]; [|by eexists]. destruct ssl; [by eexists|]. cbn [negb].
    destruct (Hp p eq_refl) as [|(pre & q & post & -> & _)]; [done|]. apply Forall_app in Hnum as [_ Hnum].
    apply list.Forall_cons_1 in Hnum as [_ Hnum]. apply list.Forall_cons_1 in Hnum as [[n ->] _]. by eexists. }
  cbn [mbind option_bind]. set (l2 := set_lg_filters _ _ _). set (text := logresp_text _ _ _).
  pose proof (say_filters text l2) as H1. destruct (say text l2) as [l3 rc].
  eexists. split; [done|]. cbn [fst] in H1. assert (lg_filters (outcome_login (if rc <? -2 then Gone l3 rc else LoggedIn l3)) = lg_filters l2) as ->
    by (split_if; exact H1).
  by apply set_filter_s_fits.
Qed.

Lemma login_line_total k cert s (l : login_t W) :
  (forall message, cert <> CertFailed message) -> room k (line_words s) l -> Forall numeral (line_words s) ->
  exists o, login_line cert s l = Some o /\ chains_fit true (k + words_size (line_words s)) (outcome_login o).(lg_filters).
Proof.
  intros Hc R Hnum. unfold Login.login_line. fold (line_words s).
  assert (chains_fit true (k + words_size (line_words s)) (lg_filters l)) as Hfits.
  { destruct R as [_ R _ _]. eapply chains_fit_le; [exact R|]. pose proof (words_size_nonneg (line_words s)). lia. }
  assert (forall text l1, lg_filters l1 = lg_filters l ->
            exists o, (let '(l2, rc) := say text l1 in Some (Failed l2 rc)) = Some o /\
              chains_fit true (k + words_size (line_words s)) (lg_filters (outcome_login o))) as Hfail.
  { intros text l1 E1. pose proof (say_filters text l1) as H1. destruct (say text l1) as [l2 rc]. eexists. split; [done|].
    cbn [outcome_login fst] in *. by rewrite H1, E1. }
  destruct (line_words s) as [|cmd args] eqn:Es; [by eexists|]. split_if; [by eexists|].
  destruct args as [|name opts]; [by apply Hfail|]. split_if; [by apply Hfail|]. split_if; [by apply Hfail|].
  set (l1 := set_lg_client _ l). destruct (refused_username _ _ _ name); [by apply Hfail|].
  apply (Forall_app _ [cmd; name]) in Hnum as [_ Hnum]. apply (room_rest k [cmd; name]) in R.
  assert (forall ssl l2, lg_filters l2 = lg_filters l ->
            exists o, login_finish cfg quirks_mode cosf mem opts name ssl l2 = Some o /\
              chains_fit true (k + words_size (cmd :: name :: opts)) (lg_filters (outcome_login o))) as Hfin;
    [|by destruct cert; [apply Hfin|apply Hfin|by destruct (Hc message)]].
  intros ssl l2 E2. destruct (login_finish_total k opts name ssl l2) as (o & -> & Hu); [|done|].
  { destruct R. split; rewrite ?E2; done. }
  exists o. split; [done|]. eapply chains_fit_le; [exact Hu|].
  change (cmd :: name :: opts) with ([cmd; name] ++ opts). rewrite words_size_app. pose proof (words_size_nonneg [cmd; name]). lia.
Qed.

Abbreviation login_handler := (login_handler cfg quirks_mode fnmatch disallow_login_glob cosf mem) (only parsing).

(** The connections a login ends: of the newest verified session of the same name, when the
    new one is verified. *)
Definition replaced (c : client_t) (sessions : list client_t) : list Z :=
  if c.(c_validated) =? 0 then []
  else match session_lookup sessions c.(c_username) with Some old => [old.(c_fd)] | None => [] end.

Lemma connect_fine (l : login_t W) w sessions :
  represents w.(wo_table) sessions -> Forall (fun c => 0 <= c.(c_fd)) sessions -> session_ok l.(lg_client) ->
  let c := set_c_state CSTATE_CONNECTED l.(lg_client) in
  represents (connect l w).(wo_table) (c :: sessions) /\
  (connect l w).(wo_shutdown) = w.(wo_shutdown) ++ replaced c sessions.
Proof.
  intros Ht Hfd Hs c. assert (session_ok c) as Hc by (destruct Hs as (? & ? & ?); by split_and!).
  pose proof (represents_step _ _ (Clientlist.Login c) Ht Hc) as H1. cbn [clientlist_step session_step] in H1.
  unfold connect. fold c. pose proof (eq_refl (clientlist_add (wo_table w) c)) as E. unfold clientlist_add at 1 in E.
  rewrite session_name in E by done. destruct (clientlist_add (wo_table w) c) as [t old] eqn:Ea.
  cbn [wo_table wo_shutdown fst] in *. split; [done|]. injection E as _ <-. unfold replaced.
  rewrite (represents_lookup _ _ _ Ht) by apply Hc. change (c_username c) with (c_username (lg_client l)).
  destruct (Z.eqb_spec (c_validated c) 0); cbn [negb andb]; [by rewrite app_nil_r|].
  destruct (session_lookup sessions (c_username (lg_client l))) as [o|] eqn:Eo;
    [change (default (-1) (c_fd <$> Some o)) with (c_fd o)|by rewrite app_nil_r].
  unfold session_lookup in Eo. apply find_some in Eo as [Ho _]. rewrite Forall_forall in Hfd.
  specialize (Hfd o Ho). by destruct (Z.eqb_spec (c_fd o) (-1)); [lia|].
Qed.

(** What a line of a client that is not in comes to. *)
Lemma login_line_spec cert s w w' rc sessions :
  represents w.(wo_table) sessions -> Forall (fun c => 0 <= c.(c_fd)) sessions ->
  w.(wo_connected) = false -> 0 <= w.(wo_login).(lg_failed_cmds) < 3 ->
  login_handler cert s w = Some (w', rc) ->
  let c' := w'.(wo_login).(lg_client) in
  if w'.(wo_connected) then
    rc = 0 /\ w'.(wo_closed) = false /\ c'.(c_state) = CSTATE_CONNECTED /\
    (exists cmd name opts, line_words s = cmd :: name :: opts /\ caseeq cmd (str "user") = true /\
       zlen name <= CALLSIGNLEN_MAX /\ refused_username cfg fnmatch disallow_login_glob name = None /\
       c'.(c_username) = name /\ grants cert opts name w.(wo_login).(lg_client).(c_validated) c'.(c_validated)) /\
    represents w'.(wo_table) (c' :: sessions) /\ w'.(wo_shutdown) = w.(wo_shutdown) ++ replaced c' sessions
  else w'.(wo_table) = w.(wo_table) /\ w'.(wo_shutdown) = w.(wo_shutdown).
Proof.
  intros Ht Hfd Hn Hfc E c'. unfold Login.login_handler in E. inv_bind E.
  apply login_line_fine in E0 as [_ Ho]; [|done]. destruct x as [l|l rc0|l rc0|l].
  - injection E as <- <-. cbn [wo_connected]. by rewrite Hn.
  - injection E as <- <-. cbn [wo_connected disconnect]. by rewrite Hn.
  - repeat split_if_in E; injection E as <- <-; cbn [wo_connected disconnect]; by rewrite Hn.
  - destruct Ho as (cmd & name & opts & v & Hw & Hu & Hl & Hr & Hi & Hg). unfold identity in Hi.
    injection Hi as I1 I2 I3 I4 I5 I6 I7. cbn in I5, I6, I7.
    assert (session_ok (lg_client l)) as Hs.
    { unfold session_ok. rewrite I6, I7. split; [unfold CALLSIGNLEN_MAX in Hl; lia|]. split; [done|].
      apply (line_word_nul s). unfold line_words in Hw. rewrite Hw. right. left. }
    destruct (connect_fine l w sessions Ht Hfd Hs) as [H1 H2].
    injection E as <- <-. assert (wo_connected (connect l w) = true /\ wo_closed (connect l w) = false /\
      lg_client (wo_login (connect l w)) = set_c_state CSTATE_CONNECTED (lg_client l)) as (-> & -> & Hc)
      by (unfold connect; by destruct (clientlist_add _ _)).
    unfold c'. rewrite Hc. do 3 (split; [done|]). split; [|done].
    exists cmd, name, opts. do 4 (split; [done|]). cbn. rewrite I5. done.
Qed.

(** C7: Only a proper login gets a client in.  Whatever the line and the state of a
    client that is not in: when the client is connected afterwards, the line was
    [user NAME ...] with a name of nine characters at most that is not refused; the client has
    that name; it is verified by the passcode of that very name among the options, or
    by its certificate; it is entered as the newest session of the list of clients;
    and, if it is verified, the older verified session of that name is shut down.
    Otherwise the list of clients and the other connections are untouched. *)
Theorem login_policy cert s w w' rc sessions :
  represents w.(wo_table) sessions -> Forall (fun c => 0 <= c.(c_fd)) sessions ->
  w.(wo_connected) = false -> 0 <= w.(wo_login).(lg_failed_cmds) < 3 ->
  login_handler cert s w = Some (w', rc) ->
  let c' := w'.(wo_login).(lg_client) in
  if w'.(wo_connected) then
    rc = 0 /\ w'.(wo_closed) = false /\ c'.(c_state) = CSTATE_CONNECTED /\
    (exists cmd name opts, line_words s = cmd :: name :: opts /\ caseeq cmd (str "user") = true /\
       zlen name <= CALLSIGNLEN_MAX /\ refused_username cfg fnmatch disallow_login_glob name = None /\
       c'.(c_username) = name /\ grants cert opts name w.(wo_login).(lg_client).(c_validated) c'.(c_validated)) /\
    represents w'.(wo_table) (c' :: sessions) /\ w'.(wo_shutdown) = w.(wo_shutdown) ++ replaced c' sessions
  else w'.(wo_table) = w.(wo_table) /\ w'.(wo_shutdown) = w.(wo_shutdown).
Proof. apply login_line_spec. Qed.

(** ** Three lines are enough *)

(** The lines of a client until it is in or gone. *)
Fixpoint login_lines (cert : cert_check) (lines : list (list Z)) (w : login_world (W := W)) : option login_world :=
  match lines with
  | [] => Some w
  | s :: lines =>
      '(w, _) ← login_handler cert s w;
      if w.(wo_connected) || w.(wo_closed) then Some w else login_lines cert lines w
  end.

(** The bytes of all words of the lines. *)
Definition lines_size (lines : list (list Z)) : Z := foldr (fun s n => words_size (line_words s) + n) 0 lines.

Lemma login_handler_step k cert s w :
  (forall message, cert <> CertFailed message) -> room k (line_words s) w.(wo_login) -> Forall numeral (line_words s) ->
  w.(wo_connected) = false -> 0 <= w.(wo_login).(lg_failed_cmds) < 3 -> no_attempt s = false ->
  exists w' rc, login_handler cert s w = Some (w', rc) /\
    (w'.(wo_connected) || w'.(wo_closed) = true \/
     w'.(wo_connected) = false /\ w.(wo_login).(lg_failed_cmds) < w'.(wo_login).(lg_failed_cmds) < 3 /\
     filters_ok w'.(wo_login).(lg_filters) /\ chains_fit true (k + words_size (line_words s)) w'.(wo_login).(lg_filters)).
Proof.
  intros Hc R Hnum Hn Hfc Ha. unfold Login.login_handler.
  destruct (login_line_total k cert s _ Hc R Hnum) as (o & E & Hu). rewrite E. cbn [mbind option_bind].
  apply login_line_fine in E as [Hf Ho]; [|done]. specialize (Hf (ro_ok _ _ _ R)).
  destruct o as [l|l rc0|l rc0|l]; cbn [outcome_login] in *.
  - destruct Ho as [_ Ho]. by rewrite Ho in Ha.
  - do 2 eexists. split; [done|]. left. apply orb_true_r.
  - split_if; [do 2 eexists; split; [done|]; left; apply orb_true_r|]. split_if.
    + do 2 eexists. split; [done|]. left. apply orb_true_r.
    + do 2 eexists. split; [done|]. right. cbn [wo_connected wo_login lg_failed_cmds lg_filters set_lg_failed] in *.
      assert (i8 (lg_failed_cmds l + 1) = lg_failed_cmds l + 1) as Ei by (unfold i8; rewrite Z.mod_small; lia).
      rewrite Ei in *. split; [done|]. split; [lia|done].
  - do 2 eexists. split; [done|]. left. unfold connect. by destruct (clientlist_add _ _).
Qed.

(** A client does not stay at the login: whatever lines it sends, as long as their
    words fit in the text of a filter and their numbers in an integer, after as many attempts
    as it has left of three (empty lines and comments are none) it has been let
    in or disconnected. *)
Theorem login_three_lines cert lines w :
  (forall message, cert <> CertFailed message) ->
  filters_ok w.(wo_login).(lg_filters) -> chains_fit true 0 w.(wo_login).(lg_filters) ->
  w.(wo_connected) = false -> 0 <= w.(wo_login).(lg_failed_cmds) < 3 ->
  Forall (fun s => no_attempt s = false /\ Forall numeral (line_words s)) lines ->
  lines_size lines <= FILT_TEXTBUFSIZE -> 3 <= w.(wo_login).(lg_failed_cmds) + zlen lines ->
  exists w', login_lines cert lines w = Some w' /\ w'.(wo_connected) || w'.(wo_closed) = true.
Proof.
  intros Hc Hok Hu Hn Hfc Hl Hs Hz.
  enough (forall k, 0 <= k -> chains_fit true k (lg_filters (wo_login w)) -> k + lines_size lines <= FILT_TEXTBUFSIZE ->
          exists w', login_lines cert lines w = Some w' /\ wo_connected w' || wo_closed w' = true) as H
    by (apply (H 0); [lia|done|lia]).
  clear Hu Hs. revert w Hok Hn Hfc Hz. induction Hl as [|s lines [Ha Hnum] Hl IH]; intros w Hok Hn Hfc Hz k Hk Hu Hs.
  { change (zlen (@nil (list Z))) with 0 in Hz. lia. }
  cbn [login_lines]. cbn [lines_size foldr] in Hs. fold (lines_size lines) in Hs. rewrite zlen_cons in Hz.
  assert (0 <= lines_size lines) as Hp.
  { clear. induction lines as [|t lines IH]; cbn [lines_size foldr]; [lia|]. pose proof (words_size_nonneg (line_words t)). fold (lines_size lines). lia. }
  destruct (login_handler_step k cert s w Hc) as (w' & rc & -> & Hw); try done; [split; try done; lia|]. cbn [mbind option_bind].
  destruct Hw as [Hw|(H1 & H2 & H3 & H4)]; [rewrite Hw; by exists w'|].
  destruct (wo_connected w' || wo_closed w') eqn:E; [by exists w'|].
  pose proof (words_size_nonneg (line_words s)). apply IH with (k := k + words_size (line_words s)); try done; lia.
Qed.

(** ** A usual login *)

Lemma say_rc text (l : login_t W) :
  (forall c t x, -2 <= (op_write c t x).2) -> exists l' rc, say text l = (l', rc) /\ -2 <= rc.
Proof.
  intros Hw. unfold say, client_printf. split_if; [by do 2 eexists|].
  specialize (Hw (lg_client l) (text ++ [13; 10]) (lg_ops l)). destruct (op_write _ _ _) as [x rc]. by do 2 eexists.
Qed.

(** The line of a login with a passcode: what is answered last. *)
Lemma login_line_pass name code app ver given l0 :
  Forall word_ok [name; code; app; ver] -> zlen name <= CALLSIGNLEN_MAX ->
  refused_username cfg fnmatch disallow_login_glob name = None -> atoi code = Some given -> caseeq ver (str "filter") = false ->
  let v := if given =? aprs_passcode name then VALIDATED_WEAK else l0.(lg_client).(c_validated) in
  exists l, login_line NoCert (unwords [str "user"; name; str "pass"; code; str "vers"; app; ver]) l0 =
      Some (let '(l, rc) := say (logresp_text cfg name v) l in if rc <? -2 then Gone l rc else LoggedIn l) /\
    l.(lg_client).(c_username) = name /\ l.(lg_client).(c_username_len) = zlen name /\ l.(lg_client).(c_validated) = v.
Proof.
  intros Hws Hl Hr Hg Hv v. unfold Login.login_line. rewrite parse_unwords.
  2:{ cbn. lia. }
  2:{ repeat (apply list.Forall_cons_1 in Hws as [? Hws]). repeat (constructor; [done || by apply word_ok_b_ok|]). constructor. }
  cbn [rd]. rewrite bool_decide_eq_false_2 by done.
  change (negb (caseeq (str "user") (str "user"))) with false. cbv iota.
  destruct (Z.gtb_spec (zlen name) CALLSIGNLEN_MAX); [lia|]. rewrite Hr.
  set (l1 := set_lg_client _ _). unfold login_finish. cbn [login_options].
  change (caseeq (str "pass") (str "pass")) with true. change (caseeq (str "vers") (str "pass")) with false.
  change (caseeq (str "vers") (str "vers")) with true. cbv iota. cbn [hd].
  rewrite bool_decide_eq_false_2 by done. rewrite Hv. cbn [orb andb mbind option_bind].
  set (l2 := login_set_app_name quirks_mode app ver l1).
  assert (check_passcode false (Some code) (lg_client l2) = Some v) as ->.
  { unfold check_passcode. rewrite Hg. cbn [negb mbind option_bind]. f_equal. change (c_username (lg_client l2)) with name.
    change (c_validated (lg_client l2)) with (c_validated (lg_client l0)). unfold v.
    destruct (aprs_passcode_spec name []) as [Hp _]. destruct (Z.eqb_spec given (aprs_passcode name)) as [->|];
      [|by rewrite andb_false_r]. by destruct (Z.geb_spec (aprs_passcode name) 0); [|lia]. }
  cbn [mbind option_bind]. set (l3 := set_lg_filters _ _ _). exists l3. split; [by destruct (say _ l3)|done].
Qed.

(** The usual login line gets a client in: [user NAME pass CODE vers APP VER], with
    any name of nine characters at most that is not refused, any number and any application,
    connects the client under that name, and it is verified exactly when the number
    is the passcode of the name (or when it was already). *)
Theorem login_pass name code app ver given w :
  Forall word_ok [name; code; app; ver] -> zlen name <= CALLSIGNLEN_MAX ->
  refused_username cfg fnmatch disallow_login_glob name = None -> atoi code = Some given ->
  caseeq ver (str "filter") = false -> (forall c t x, -2 <= (op_write c t x).2) ->
  exists w', login_handler NoCert (unwords [str "user"; name; str "pass"; code; str "vers"; app; ver]) w = Some (w', 0) /\
    w'.(wo_connected) = true /\ w'.(wo_login).(lg_client).(c_username) = name /\
    w'.(wo_login).(lg_client).(c_state) = CSTATE_CONNECTED /\
    w'.(wo_login).(lg_client).(c_validated) =
      if given =? aprs_passcode name then VALIDATED_WEAK else w.(wo_login).(lg_client).(c_validated).
Proof.
  intros Hws Hl Hr Hg Hv Hw. unfold Login.login_handler.
  destruct (login_line_pass name code app ver given (wo_login w) Hws Hl Hr Hg Hv) as (l3 & -> & E1 & E2 & E3). cbn [mbind option_bind].
  set (text := logresp_text _ _ _). pose proof (say_kept text l3) as [Hk _ _]. rewrite E1 in Hk. specialize (Hk (eq_sym E2)).
  destruct (say_rc text l3 Hw) as (l4 & rc & E & Hrc). rewrite E in *. cbn [fst] in Hk. unfold identity in Hk.
  injection Hk as _ _ _ _ I5 I6 _. destruct (Z.ltb_spec rc (-2)); [lia|].
  eexists. split; [done|]. unfold connect. destruct (clientlist_add _ _). cbn. by rewrite I5, I6, E1, E3.
Qed.
End Lines.

(** ** Witnesses *)

Definition demo_login : login_world (W := unit) :=
  mk_world (mk_login (set_c_username [] (set_c_state CSTATE_LOGIN (demo_client "N" CLFLAGS_USERFILTEROK 0))) no_filters [] [] 0 0 false 0 tt)
    (mk_out [1] [] [] [] [] ∅ historydb_zero 0 0 0 tt) ∅ [] false false.

(** A session of N0CALL with the descriptor 9. *)
Definition demo_old : client_t := mk_client 2 9 CSTATE_CONNECTED 0 1 (str "N0CALL") 6 (str "7F000001")
  false false false ∅ ∅ 0 0 (S754_zero false) (S754_zero false) (S754_zero false).

Definition demo_logged : login_world (W := unit) :=
  mk_world demo_login.(wo_login) demo_login.(wo_worker) (clientlist_add ∅ demo_old).1 [] false false.

Definition demo_line : list Z := str "user N0CALL pass 13023 vers test 1.0".

Lemma demo_old_session : represents demo_logged.(wo_table) [demo_old].
Proof.
  apply (represents_step ∅ [] (Clientlist.Login demo_old)); [exact represents_empty|].
  split; [vm_compute; discriminate|]. split; [reflexivity|]. repeat constructor; discriminate.
Qed.

Lemma login_policy_witness :
  match @Login.login_handler unit demo_server demo_cfg false (fun _ _ => false) [] (fun x => x) true NoCert demo_line demo_logged with
  | Some (w', rc) => rc = 0 /\ w'.(wo_connected) = true /\ w'.(wo_shutdown) = [9]
  | None => False
  end.
Proof.
  destruct (Login.login_handler _ _ _ _ _ _ _ _ _) as [[w' rc]|] eqn:E; [|vm_compute in E; discriminate E].
  pose proof (@login_policy unit demo_server demo_cfg false (fun _ _ => false) [] (fun x => x) true NoCert demo_line demo_logged
                w' rc [demo_old] demo_old_session) as H.
  assert (wo_connected w' = true /\ c_validated (lg_client (wo_login w')) = 1 /\ c_username (lg_client (wo_login w')) = str "N0CALL")
    as (Hc & Hv & Hu) by (vm_compute in E; injection E as <- _; vm_compute; by split_and!).
  rewrite Hc in H. destruct H as (Hrc & _ & _ & _ & _ & Hs); [repeat constructor; discriminate|reflexivity|vm_compute; split; congruence|exact E|].
  split; [exact Hrc|]. split; [exact Hc|]. rewrite Hs. unfold replaced. rewrite Hv, Hu. vm_compute. reflexivity.
Defined.

Definition demo_lines : list (list Z) := [str "hello there"; str "user pass pass -1"; str "user N0CALL pass 1 vers x"].

Lemma numerals_b ws : forallb (fun w => match atoi w with Some _ => true | None => false end) ws = true -> Forall numeral ws.
Proof.
  intros H. apply Forall_forall. intros w Hw. rewrite forallb_forall in H. specialize (H w Hw). unfold numeral.
  by destruct (atoi w).
Qed.

Lemma login_three_lines_witness :
  exists w', @login_lines unit demo_server demo_cfg false (fun _ _ => false) [] (fun x => x) true NoCert demo_lines demo_login = Some w' /\
    w'.(wo_connected) || w'.(wo_closed) = true.
Proof.
  apply login_three_lines.
  - discriminate.
  - exact no_filters_ok.
  - intros []; constructor.
  - reflexivity.
  - vm_compute. split; congruence.
  - repeat (constructor; [split; [vm_compute; reflexivity|apply numerals_b; vm_compute; reflexivity]|]). constructor.
  - vm_compute. discriminate.
  - vm_compute. discriminate.
Defined.

Lemma login_pass_witness :
  exists w', @Login.login_handler unit demo_server demo_cfg false (fun _ _ => false) [] (fun x => x) true NoCert demo_line demo_login
               = Some (w', 0) /\ w'.(wo_connected) = true /\ w'.(wo_login).(lg_client).(c_validated) = VALIDATED_WEAK.
Proof.
  destruct (@login_pass unit demo_server demo_cfg false (fun _ _ => false) [] (fun x => x) true (str "N0CALL") (str "13023")
              (str "test") (str "1.0") 13023 demo_login) as (w' & H1 & H2 & _ & _ & H3).
  - repeat (constructor; [apply word_ok_b_ok; reflexivity|]). constructor.
  - vm_compute. discriminate.
  - vm_compute. reflexivity.
  - vm_compute. reflexivity.
  - vm_compute. reflexivity.
  - intros c t x. vm_compute. discriminate.
  - exists w'. split; [exact H1|]. split; [exact H2|]. rewrite H3. vm_compute. reflexivity.
Defined.
