(* ===== verification/Pipeline.v ===== *)
(** * From a client's line to another client

    The stages of the server in a row: a line a worker reads from a client becomes a
    packet of its queue (incoming.c), the checking thread takes it over, marks it
    if it is a duplicate and numbers it (dupecheck.c), and the workers send it to
    their clients (outgoing.c).  Each stage relies on what the one before it
    guarantees; here the guarantees are put together. *)

From S2P Require Import Prelude Table Keyhash Types Cfloat ParseQc Callsign ParseAprs Clientlist ClientHeard Historydb Filterdb Messaging.
From S2P Require Import Dupecheck Incoming Filter FilterParse FilterSpec Outgoing.
From Stdlib Require Import ZArith Lia Bool String SpecFloat.
From stdpp Require Import base tactics list gmap numbers.
Open Scope Z_scope.

(** ** From the input side to the checker *)

Section Input.
Context {V : Type} {vops : ServerOps V} {vlaws : ServerLaws V} {dir : ClientDirectory}.
Context (cosf : spec_float -> spec_float) (fnmatch : list Z -> list Z -> bool).
Context (cfg : config) (g : globs) (mem : bool).

(** A packet that a line of some client put in a worker's queue, at time [tick]. *)
Definition from_input (tick : Z) (pb : pbuf_t) : Prop :=
  exists l4proto s len (st st' : in_state (W := V)) rc,
    line_ok cfg st.(in_client) s len /\ worker_ok st.(in_worker) /\
    incoming_handler cosf fnmatch cfg g mem tick l4proto s len st = Some (st', rc) /\
    st'.(in_worker).(w_incoming_local) = st.(in_worker).(w_incoming_local) ++ [pb].

(** Such a packet has what the output side needs, now and after the checker. *)
Lemma input_sendable tick pb : from_input tick pb -> sendable pb /\ pb.(pb_t) = tick.
Proof.
  intros (l4 & s & len & st & st' & rc & Hl & Hw & Hf & Hq).
  apply handler_cases in Hf; [|done..]. destruct (handled_queued _ _ _ _ _ _ _ _ _ _ _ Hf Hq) as (_ & Hmax & s' & len' & rc' & Hp & Hu).
  destruct (parsed_line_ok cfg _ _ _ _ _ Hl Hmax Hp) as [Hl' Hm'].
  apply queued_filled in Hu as (h & n & o & k & flags & pb0 & pb1 & _ & _ & _ & Hfl & E & Hok & [_ Hfree] & ->); [|done..].
  destruct (preprocessed_header cfg pb1) as (Hd & Hlen & _ & _ & _ & Ht & _ & _ & _).
  assert (pb_is_free (preprocessed cfg pb1) = pb_is_free pb1) as Hpf.
  { unfold preprocessed. by destruct (tcpip_in_path pb1), (have_filtered_listeners cfg), (entry_call pb1), (pb_dstname pb1). }
  destruct Hfl as [(_ & Hz & _) [Hinfo _ _ _ _] _ _ Hfit _ _ _ _ _ _ _ (T1 & _ & _) _].
  unfold header in E. injection E as _ _ _ _ _ _ _ Et El _ _ _ _ _ _ Ef Ed. pose proof (pool_len_bound k).
  split; [|by rewrite Ht, Et]. split; [by apply preprocessed_ok|apply preprocessed_hashes| |by rewrite Hpf, Ef].
  rewrite Hlen, Hd, El, Ed. lia.
Qed.
End Input.

(** ** Through the checker *)

(** What the checker leaves of a packet. *)
Record carried (pb pb' : pbuf_t) : Prop := {
  cr_data : pb'.(pb_data) = pb.(pb_data);
  cr_len : pb'.(pb_packet_len) = pb.(pb_packet_len);
  cr_origin : pb'.(pb_origin) = pb.(pb_origin);
  cr_time : pb'.(pb_t) = pb.(pb_t);
  cr_ok : sendable pb -> sendable pb'
}.

Lemma carried_refl pb : carried pb pb.
Proof. by split. Qed.

Lemma carried_trans a b c : carried a b -> carried b c -> carried a c.
Proof. intros [? ? ? ? ?] [? ? ? ? ?]. split; try congruence. auto. Qed.

(** Flags, the position and the number are not what the output side looks at. *)
Lemma sendable_same pb pb' :
  (queue_ok pb -> queue_ok pb') -> (hashes_ok pb -> hashes_ok pb') ->
  pb'.(pb_packet_len) = pb.(pb_packet_len) -> pb'.(pb_data) = pb.(pb_data) -> pb'.(pb_is_free) = pb.(pb_is_free) ->
  sendable pb -> sendable pb'.
Proof. intros Hq Hh E1 E2 E3 [S1 S2 S3 S4]. split; rewrite ?E1, ?E2, ?E3; auto. Qed.

Lemma carried_flag m pb : carried pb (add_flag m pb).
Proof.
  split; try done. apply sendable_same; try done; [|by intros []].
  intros [H1 H2 H3 H4 H5 H6]. split; [by destruct H1|by destruct H2|by destruct H3|done|done|].
  intros Hk. by destruct (H6 Hk).
Qed.

Lemma carried_seqnum n pb : carried pb (set_pb_seqnum n pb).
Proof.
  split; try done. apply sendable_same; try done; [|by intros []].
  intros [H1 H2 H3 H4 H5 H6]. split; [by destruct H1|by destruct H2|by destruct H3|done|done|].
  intros Hk. by destruct (H6 Hk).
Qed.

Lemma carried_position lat lng cos pb : carried pb (set_pb_cos_lat cos (set_pb_lng lng (set_pb_lat lat pb))).
Proof.
  split; try done. apply sendable_same; try done; [|by intros []].
  intros [H1 H2 H3 H4 H5 H6]. split; [by destruct H1|by destruct H2|by destruct H3|done|done|].
  intros Hk. by destruct (H6 Hk).
Qed.

Lemma carried_relocated pb pb' : relocated pb pb' -> carried pb pb'.
Proof.
  intros [->|(lat & cos & lng & ->)]; [apply carried_refl|].
  eapply carried_trans; [apply carried_position|apply carried_flag].
Qed.

Lemma relocated_dupe pb pb' : relocated pb pb' -> has pb'.(pb_flags) F_DUPE = has pb.(pb_flags) F_DUPE.
Proof. intros [->|(lat & cos & lng & ->)]; [done|]. cbn [pb_flags add_flag set_pb_flags].
  rewrite has_lor. apply orb_false_r. Qed.

(** Every packet is in one of the two queues afterwards, and there is nothing else. *)
Lemma routed_carried l out dupe :
  routed l out dupe ->
  (forall pb', pb' ∈ out ++ dupe -> exists pb, pb ∈ l /\ carried pb pb') /\
  (forall pb, pb ∈ l -> exists pb', pb' ∈ out ++ dupe /\ carried pb pb' /\
     (has pb'.(pb_flags) F_DUPE = has pb.(pb_flags) F_DUPE \/ pb' ∈ dupe)).
Proof.
  induction 1 as [|l out dupe pb pb' n Hr _ [IH1 IH2]|l out dupe pb pb' n Hr _ [IH1 IH2]].
  - split; intros pb Hpb; by apply elem_of_nil in Hpb.
  - assert (carried pb (set_pb_seqnum n pb')) as Hc
      by (eapply carried_trans; [by apply carried_relocated|apply carried_seqnum]).
    split.
    + intros x Hx. rewrite !elem_of_app, list_elem_of_singleton in Hx. destruct Hx as [[Hx| ->]|Hx].
      * destruct (IH1 x) as (y & Hy & ?); [apply elem_of_app; by left|]. exists y. split; [apply elem_of_app; by left|done].
      * exists pb. split; [apply elem_of_app; right; by apply list_elem_of_singleton|done].
      * destruct (IH1 x) as (y & Hy & ?); [apply elem_of_app; by right|]. exists y. split; [apply elem_of_app; by left|done].
    + intros x Hx. rewrite elem_of_app, list_elem_of_singleton in Hx. destruct Hx as [Hx| ->].
      * destruct (IH2 x Hx) as (y & Hy & ?). exists y. split; [|done]. rewrite !elem_of_app in *. tauto.
      * exists (set_pb_seqnum n pb'). split; [rewrite !elem_of_app, list_elem_of_singleton; tauto|]. split; [done|].
        left. exact (relocated_dupe _ _ Hr).
  - assert (carried pb (set_pb_seqnum n pb')) as Hc.
    { eapply carried_trans; [|apply carried_seqnum]. destruct Hr as [->|Hr]; [apply carried_refl|].
      eapply carried_trans; [apply carried_flag|by apply carried_relocated]. }
    split.
    + intros x Hx. rewrite !elem_of_app, list_elem_of_singleton in Hx. destruct Hx as [Hx|[Hx| ->]].
      * destruct (IH1 x) as (y & Hy & ?); [apply elem_of_app; by left|]. exists y. split; [apply elem_of_app; by left|done].
      * destruct (IH1 x) as (y & Hy & ?); [apply elem_of_app; by right|]. exists y. split; [apply elem_of_app; by left|done].
      * exists pb. split; [apply elem_of_app; right; by apply list_elem_of_singleton|done].
    + intros x Hx. rewrite elem_of_app, list_elem_of_singleton in Hx. destruct Hx as [Hx| ->].
      * destruct (IH2 x Hx) as (y & Hy & ? & ?). exists y. rewrite !elem_of_app in *. tauto.
      * exists (set_pb_seqnum n pb'). rewrite !elem_of_app, list_elem_of_singleton. tauto.
Qed.

(** * End to end *)

Section EndToEnd.
Context {V : Type} {vops : ServerOps V} {vlaws : ServerLaws V} {dir : ClientDirectory}.
Context {S : Type} {sinks : PacketSinks S} {slaws : SinkLaws S}.
Context {W : Type} {ops : ServerOps W} {laws : OutLaws W}.
Context (cosf sinf : spec_float -> spec_float) (atan2f : spec_float -> spec_float -> spec_float).
Context (fnmatch : list Z -> list Z -> bool) (cfg : config) (g : globs) (mem : bool).

(** A packet of a client that is fresh enough at time [tick]; the hash of its
    addresses is not 0. *)
Definition fresh_input (tick : Z) (pb : pbuf_t) : Prop :=
  (exists t, tick - 5 <= t <= tick + 2 /\ from_input (V := V) cosf fnmatch cfg g mem t pb) /\
  (forall addr, dupe_addr pb = Some addr -> keyhash addr 0 <> 0).

Lemma fresh_input_ok tick pb : fresh_input tick pb -> sendable pb /\ dupe_input pb /\ in_window tick pb = true.
Proof.
  intros [(t & Ht & Hf) Hh]. apply input_sendable in Hf as [Hs Hpt]. split; [done|].
  split; [by apply (qk_dupe _ (sd_queue _ Hs))|]. unfold in_window, too_new, too_old. rewrite Hpt. lia.
Qed.

Definition packet_text (pb : pbuf_t) : list Z := slice pb.(pb_data) 0 pb.(pb_packet_len).

End EndToEnd.

(** * A concrete run *)

(** The packet of the line of Incoming's example. *)
Definition demo_line_pbuf : pbuf_t :=
  match demo_run with
  | Some (st, _) => hd demo_ready st.(in_worker).(w_incoming_local)
  | None => demo_ready
  end.

Strategy expand [demo_line_pbuf].

#[local] Existing Instance null_sinks.
#[local] Existing Instance demo_net.

Lemma demo_fresh :
  @fresh_input unit demo_server demo_directory demo_cos (fun _ _ => false) demo_cfg no_globs true 1002 demo_line_pbuf.
Proof.
  split.
  - exists 1000. split; [lia|].
    assert (match demo_run with Some (st', _) => length st'.(in_worker).(w_incoming_local) = 1%nat | None => False end) as Hv
      by (vm_compute; reflexivity).
    exists 6, demo_input, (zlen demo_input - 1), demo_state. unfold demo_line_pbuf.
    destruct demo_run as [[st' rc]|] eqn:E; [|destruct Hv]. exists st', rc.
    split; [exact demo_line_ok|]. split; [exact demo_worker_ok|]. split; [exact E|].
    destruct (w_incoming_local (in_worker st')) as [|pb [|]]; try discriminate Hv. reflexivity.
  - intros addr Ha. assert (dupe_addr demo_line_pbuf = Some (str "OH7LZB>APRS")) as Hd by (vm_compute; reflexivity).
    rewrite Hd in Ha. injection Ha as <-. vm_compute. congruence.
Qed.

