(* ===== verification/Plist.v ===== *)
(** * The linked lists of clients

    A worker keeps its clients in doubly linked lists: every client has the next one,
    and the address of the pointer that points at it, which is the head of the list or
    the [next] of another client.  There is the list of all clients, with [next] and
    [prevp], and the lists of the classes, which share [class_next] and [class_prevp].
    Nodes are numbers; a node that is not allocated may not be accessed ([None]). *)

From S2P Require Import Prelude.
From Stdlib Require Import ZArith Lia Bool.
From stdpp Require Import base tactics list gmap numbers.
Open Scope Z_scope.

Section Plist.
Context {H : Type} {eqH : EqDecision H} {cntH : Countable H}.

(** The address of a pointer to a client. *)
Inductive ptr : Type := AtHead (h : H) | AtNext (n : Z).

#[export] Instance ptr_dec : EqDecision ptr.
Proof. solve_decision. Defined.

Record links := mk_links {
  li_head : gmap H Z;
  li_next : gmap Z (option Z);
  li_prevp : gmap Z ptr
}.

(** [*p] *)
Definition load (p : ptr) (s : links) : option (option Z) :=
  match p with AtHead h => Some (s.(li_head) !! h) | AtNext n => s.(li_next) !! n end.

(** [*p = v] *)
Definition store (p : ptr) (v : option Z) (s : links) : option links :=
  match p with
  | AtHead h => Some (mk_links (partial_alter (fun _ => v) h s.(li_head)) s.(li_next) s.(li_prevp))
  | AtNext n => _ ← s.(li_next) !! n; Some (mk_links s.(li_head) (<[n := v]> s.(li_next)) s.(li_prevp))
  end.

(** [n->prevp = p] *)
Definition set_prevp (n : Z) (p : ptr) (s : links) : option links :=
  _ ← s.(li_next) !! n; Some (mk_links s.(li_head) s.(li_next) (<[n := p]> s.(li_prevp))).

(** A client in front of a list, as in [collect_new_clients] and
    [worker_classify_client]. *)
Definition push_front (h : H) (c : Z) (s : links) : option links :=
  next ← load (AtHead h) s;
  s ← store (AtNext c) next s;
  s ← (match next with Some n => set_prevp n (AtNext c) s | None => Some s end);
  s ← store (AtHead h) (Some c) s;
  set_prevp c (AtHead h) s.

(** A client out of its list, as in [client_close]. *)
Definition unlink_node (c : Z) (s : links) : option links :=
  next ← load (AtNext c) s;
  p ← s.(li_prevp) !! c;
  s ← (match next with Some n => set_prevp n p s | None => Some s end);
  store p next s.

(** The same for a list the client may not be in, in the order the code has there. *)
Definition unlink_class (c : Z) (s : links) : option links :=
  match s.(li_prevp) !! c with
  | None => Some s
  | Some p =>
      next ← load (AtNext c) s;
      s ← store p next s;
      match next with Some n => set_prevp n p s | None => Some s end
  end.

(** The structure of the client is allocated and zeroed, or freed. *)
Definition alloc_node (c : Z) (s : links) : links :=
  mk_links s.(li_head) (<[c := None]> s.(li_next)) (delete c s.(li_prevp)).
Definition free_node (c : Z) (s : links) : links :=
  mk_links s.(li_head) (delete c s.(li_next)) (delete c s.(li_prevp)).

(** * Lists *)

(** From the pointer at [p] on, the clients of [l]. *)
Fixpoint seg (s : links) (p : ptr) (l : list Z) : Prop :=
  match l with
  | [] => load p s = Some None
  | n :: l => load p s = Some (Some n) /\ s.(li_prevp) !! n = Some p /\ seg s (AtNext n) l
  end.

(** The heads have the lists [ls], which share no client; and only clients of a list
    have a [prevp]. *)
Record lists (s : links) (ls : H -> list Z) : Prop := {
  ls_seg : forall h, seg s (AtHead h) (ls h);
  ls_nodup : forall h, NoDup (ls h);
  ls_apart : forall h h' n, n ∈ ls h -> n ∈ ls h' -> h = h';
  ls_prevp : forall n, is_Some (s.(li_prevp) !! n) -> exists h, n ∈ ls h
}.

(** The list of one head changed. *)
Definition upd (h : H) (l : list Z) (ls : H -> list Z) : H -> list Z := fun k => if decide (k = h) then l else ls k.

Lemma seg_ext s s' p l :
  load p s' = load p s ->
  (forall n, n ∈ l -> s'.(li_next) !! n = s.(li_next) !! n /\ s'.(li_prevp) !! n = s.(li_prevp) !! n) ->
  seg s p l -> seg s' p l.
Proof.
  revert p. induction l as [|n l IH]; intros p Hp Hl; cbn [seg]; [by rewrite Hp|].
  intros (E1 & E2 & E3). destruct (Hl n) as [N1 N2]; [by left|]. rewrite Hp, N2. split; [done|]. split; [done|].
  apply IH; [done|intros m Hm; apply Hl; by right|done].
Qed.

Lemma seg_alloc s p l n : seg s p l -> n ∈ l -> is_Some (s.(li_next) !! n).
Proof.
  revert p. induction l as [|m l IH]; intros p; [by intros _ ?%elem_of_nil|]. intros (E1 & E2 & E3) [->|Hn]%elem_of_cons.
  - destruct l; cbn in E3; [rewrite E3; by eexists|destruct E3 as [E3 _]; rewrite E3; by eexists].
  - by eapply IH.
Qed.

(** The pointer at a client of a list: [p], or one of a client before it. *)
Lemma seg_pred s p l1 c l2 :
  seg s p (l1 ++ c :: l2) ->
  s.(li_prevp) !! c = Some (match rev l1 with [] => p | m :: _ => AtNext m end) /\
  s.(li_next) !! c = Some (head l2).
Proof.
  revert p. induction l1 as [|n l1 IH]; intros p Hs.
  - destruct Hs as (E1 & E2 & E3). split; [done|]. destruct l2; cbn in E3; [done|by destruct E3].
  - destruct Hs as (_ & _ & Hs). apply IH in Hs as [H1 H2]. split; [|done]. rewrite H1. cbn [rev].
    by destruct (rev l1).
Qed.

(** What unlinking does to the pointers. *)
Record unlinked (c : Z) (q : ptr) (next : option Z) (s s' : links) : Prop := {
  un_load : forall r, load r s' = if decide (r = q) then Some next else load r s;
  un_prevp : forall n, s'.(li_prevp) !! n = if decide (next = Some n) then Some q else s.(li_prevp) !! n
}.

Lemma store_prevp q next s :
  is_Some (load q s) -> (forall n, next = Some n -> is_Some (s.(li_next) !! n)) ->
  exists s', store q next s = Some s' /\ (forall r, load r s' = if decide (r = q) then Some next else load r s) /\
    s'.(li_prevp) = s.(li_prevp) /\ (forall n, next = Some n -> is_Some (s'.(li_next) !! n)).
Proof.
  intros [v Hq] Hn. destruct q as [h|m]; cbn [store load] in *.
  - eexists. split; [done|]. split; [|done]. intros [k|k]; cbn [load li_head li_next].
    + destruct (decide (AtHead k = AtHead h)) as [[= ->]|Hne]; [by rewrite lookup_partial_alter_eq|].
      rewrite lookup_partial_alter_ne by congruence. done.
    + by destruct (decide (AtNext k = AtHead h)).
  - rewrite Hq. cbn [mbind option_bind]. eexists. split; [done|]. split; [|split; [done|]].
    + intros [k|k]; cbn [load li_head li_next]; [by destruct (decide (AtHead k = AtNext m))|].
      destruct (decide (AtNext k = AtNext m)) as [[= ->]|Hne]; [by rewrite lookup_insert_eq|].
      rewrite lookup_insert_ne by congruence. done.
    + intros n E. cbn [li_next]. destruct (decide (m = n)) as [->|]; [rewrite lookup_insert_eq; by eexists|].
      rewrite lookup_insert_ne by done. by apply Hn.
Qed.

Lemma set_prevp_effect n p s :
  is_Some (s.(li_next) !! n) ->
  exists s', set_prevp n p s = Some s' /\ (forall r, load r s' = load r s) /\ s'.(li_next) = s.(li_next) /\
    forall m, s'.(li_prevp) !! m = if decide (Some n = Some m) then Some p else s.(li_prevp) !! m.
Proof.
  intros [v Hv]. unfold set_prevp. rewrite Hv. cbn [mbind option_bind]. eexists. split; [done|]. split; [by intros []|].
  split; [done|]. intros m. cbn [li_prevp]. destruct (decide (Some n = Some m)) as [[= ->]|Hne]; [by rewrite lookup_insert_eq|].
  apply lookup_insert_ne. congruence.
Qed.

(** Both ways to unlink do the same. *)
Lemma unlink_effect c q next s :
  s.(li_prevp) !! c = Some q -> s.(li_next) !! c = Some next -> is_Some (load q s) ->
  (forall n, next = Some n -> is_Some (s.(li_next) !! n)) ->
  (exists s', unlink_node c s = Some s' /\ unlinked c q next s s') /\
  (exists s', unlink_class c s = Some s' /\ unlinked c q next s s').
Proof.
  intros Hp Hn Hq Hx. unfold unlink_node, unlink_class. cbn [load]. rewrite Hp, Hn. cbn [mbind option_bind]. split.
  - destruct next as [n|].
    + destruct (set_prevp_effect n q s (Hx n eq_refl)) as (s1 & -> & L1 & N1 & P1). cbn [mbind option_bind].
      destruct (store_prevp q (Some n) s1) as (s2 & E2 & L2 & P2 & _); [by rewrite L1|by rewrite N1|].
      exists s2. split; [done|]. split; [intros r; by rewrite L2, L1|intros m; by rewrite P2, P1].
    + cbn [mbind option_bind]. destruct (store_prevp q None s) as (s2 & E2 & L2 & P2 & _); [done|done|].
      exists s2. split; [done|]. split; [done|intros m; by rewrite P2].
  - destruct (store_prevp q next s Hq Hx) as (s1 & -> & L1 & P1 & N1). cbn [mbind option_bind].
    destruct next as [n|]; [|by exists s1; split; [|split; [|intros m; rewrite P1]]].
    destruct (set_prevp_effect n q s1 (N1 n eq_refl)) as (s2 & E2 & L2 & N2 & P2). exists s2. split; [done|].
    split; [intros r; by rewrite L2, L1|intros m; by rewrite P2, P1].
Qed.

Definition outside (p : ptr) (l : list Z) : Prop := match p with AtHead _ => True | AtNext m => m ∉ l end.

(** Without the client, the rest of its list is still linked. *)
Lemma seg_unlinked c q s s' p l1 l2 :
  seg s p (l1 ++ c :: l2) -> NoDup (l1 ++ c :: l2) -> outside p (l1 ++ c :: l2) -> s.(li_prevp) !! c = Some q ->
  unlinked c q (head l2) s s' -> seg s' p (l1 ++ l2).
Proof.
  intros Hs Hd Ho Hq [UL UP]. revert p Hs Hd Ho. induction l1 as [|n l1 IH]; intros p Hs Hd Ho.
  - destruct Hs as (_ & E2 & E3). rewrite Hq in E2. injection E2 as ->. cbn [app] in *.
    assert (load p s' = Some (head l2)) as Hl by (rewrite UL; by destruct (decide (p = p))).
    destruct l2 as [|m l2]; [done|]. cbn [seg head] in *. split; [done|].
    split; [rewrite UP; by destruct (decide (Some m = Some m))|]. destruct E3 as (_ & _ & E3).
    apply list.NoDup_cons in Hd as [Hc Hd]. apply list.NoDup_cons in Hd as [Hm Hd].
    eapply seg_ext; [| |exact E3].
    + rewrite UL. destruct (decide (AtNext m = p)) as [<-|]; [|done]. destruct Ho. right. left.
    + intros k Hk. split.
      * specialize (UL (AtNext k)). cbn [load] in UL. rewrite UL. destruct (decide (AtNext k = p)) as [<-|]; [|done].
        destruct Ho. by do 2 right.
      * rewrite UP. destruct (decide (Some m = Some k)) as [[= ->]|]; done.
  - destruct (seg_pred s p (n :: l1) c l2 Hs) as [Hpq _]. cbn [app] in *. destruct Hs as (E1 & E2 & E3).
    apply list.NoDup_cons in Hd as [Hn Hd].
    assert (exists m, q = AtNext m /\ m ∈ n :: l1) as (m & -> & Hm).
    { destruct (rev (n :: l1)) as [|m r] eqn:E; rewrite Hq in Hpq; injection Hpq as ->.
      - apply (f_equal length) in E. by rewrite length_rev in E.
      - exists m. split; [done|]. apply list_elem_of_In, in_rev. rewrite E. by left. }
    cbn [seg]. split; [|split].
    + rewrite UL. destruct (decide (p = AtNext m)) as [->|]; [|done]. destruct Ho.
      rewrite app_comm_cons. apply elem_of_app. by left.
    + rewrite UP. destruct (decide (head l2 = Some n)) as [E|]; [|done]. destruct Hn. apply elem_of_app. right. right.
      destruct l2; [done|]. injection E as ->. left.
    + by apply IH.
Qed.
(** ** Removing a client *)

Definition without (c : Z) (ls : H -> list Z) : H -> list Z := fun h => List.filter (fun x => negb (x =? c)) (ls h).

Lemma filter_absent c l : c ∉ l -> List.filter (fun x => negb (x =? c)) l = l.
Proof.
  induction l as [|x l IH]; intros Hc; [done|]. cbn [List.filter].
  destruct (Z.eqb_spec x c) as [->|]; [destruct Hc; left|]. cbn [negb]. f_equal. apply IH. intros ?. apply Hc. by right.
Qed.

Lemma filter_split c l1 l2 : NoDup (l1 ++ c :: l2) -> List.filter (fun x => negb (x =? c)) (l1 ++ c :: l2) = l1 ++ l2.
Proof.
  intros Hd. apply list.NoDup_app in Hd as (_ & H1 & Hd). apply list.NoDup_cons in Hd as [H2 _].
  rewrite filter_app. cbn [List.filter]. rewrite Z.eqb_refl. cbn [negb]. rewrite !filter_absent; [done|done|].
  intros Hc. apply (H1 c Hc). left.
Qed.

Lemma seg_free c s p l : seg s p l -> c ∉ l -> (match p with AtNext m => m <> c | _ => True end) -> seg (free_node c s) p l.
Proof.
  intros Hs Hc Hp. eapply seg_ext; [| |exact Hs].
  - destruct p as [h|m]; [done|]. cbn [load free_node li_next]. by rewrite lookup_delete_ne.
  - intros n Hn. cbn [free_node li_next li_prevp]. assert (c <> n) by (by intros ->). by rewrite !lookup_delete_ne.
Qed.

Lemma in_without c ls h n : n ∈ without c ls h -> n ∈ ls h /\ n <> c.
Proof. unfold without. rewrite list_elem_of_In, filter_In, <- list_elem_of_In. intros [H1 H2]. split; [done|]. lia. Qed.

Lemma lists_unlinked c q h l1 l2 s s' ls :
  lists s ls -> ls h = l1 ++ c :: l2 -> s.(li_prevp) !! c = Some q -> unlinked c q (head l2) s s' ->
  lists (free_node c s') (without c ls).
Proof.
  intros [L1 L2 L3 L4] El Hq Hu. pose proof (L2 h) as Hd. rewrite El in Hd. pose proof (L1 h) as Hs. rewrite El in Hs.
  assert (c ∈ ls h) as Hc by (rewrite El; apply elem_of_app; right; left).
  assert (forall m, q = AtNext m -> m ∈ ls h) as Hqm.
  { intros m ->. destruct (seg_pred _ _ _ _ _ Hs) as [Hp _]. rewrite Hq in Hp. destruct (rev l1) as [|k r] eqn:E; [done|].
    injection Hp as ->. rewrite El. apply elem_of_app. left. apply list_elem_of_In, in_rev. rewrite E. by left. }
  assert (forall m, head l2 = Some m -> m ∈ ls h) as Hhd.
  { intros m E. rewrite El. apply elem_of_app. right. right. destruct l2; [done|]. injection E as ->. left. }
  split.
  - intros k. unfold without. destruct (decide (k = h)) as [->|Hk].
    + rewrite El, filter_split by done. apply seg_free; [by eapply seg_unlinked| |done].
      apply list.NoDup_app in Hd as (_ & H1 & Hd). apply list.NoDup_cons in Hd as [H2 _].
      intros [Hc1|Hc2]%elem_of_app; [|done]. apply (H1 c Hc1). left.
    + assert (forall n, n ∈ ls k -> n ∉ ls h) as Hap by (intros n H1 H2; by apply Hk, (L3 k h n)).
      rewrite filter_absent by (intros Hck; by apply (Hap c)). apply seg_free; [|intros Hck; by apply (Hap c)|done].
      destruct Hu as [UL UP]. eapply seg_ext; [| |apply L1].
      * rewrite UL. destruct (decide (AtHead k = q)) as [<-|]; [|done].
        destruct (seg_pred _ _ _ _ _ Hs) as [Hp _]. rewrite Hq in Hp. destruct (rev l1); [by injection Hp as ->|done].
      * intros n Hn. specialize (UL (AtNext n)). cbn [load] in UL. rewrite UL, UP.
        destruct (decide (AtNext n = q)) as [<-|]; [destruct (Hap n Hn); by apply Hqm|].
        destruct (decide (head l2 = Some n)); [destruct (Hap n Hn); by apply Hhd|]. done.
  - intros k. apply base.NoDup_ListNoDup, NoDup_filter, base.NoDup_ListNoDup, L2.
  - intros k k' n [H1 _]%in_without [H2 _]%in_without. by eapply L3.
  - intros n Hn. cbn [free_node li_prevp] in Hn. destruct (decide (c = n)) as [->|Hne].
    { rewrite lookup_delete_eq in Hn. by destruct Hn. }
    rewrite lookup_delete_ne in Hn by done. destruct Hu as [_ UP]. rewrite UP in Hn.
    assert (exists k, n ∈ ls k) as [k Hk].
    { destruct (decide (head l2 = Some n)) as [E|]; [exists h; by apply Hhd|by apply L4]. }
    exists k. unfold without. apply list_elem_of_In, filter_In. split; [by apply list_elem_of_In|]. by destruct (Z.eqb_spec n c) as [->|].
Qed.

Lemma lists_next s ls h l1 c l2 :
  lists s ls -> ls h = l1 ++ c :: l2 ->
  exists q, s.(li_prevp) !! c = Some q /\ s.(li_next) !! c = Some (head l2) /\ is_Some (load q s) /\
    forall n, head l2 = Some n -> is_Some (s.(li_next) !! n).
Proof.
  intros [L1 L2 L3 L4] El. pose proof (L1 h) as Hs. rewrite El in Hs. destruct (seg_pred _ _ _ _ _ Hs) as [Hp Hn].
  eexists. split; [exact Hp|]. split; [done|]. split.
  - destruct (rev l1) as [|m r] eqn:E; [by eexists|]. cbn [load]. eapply seg_alloc; [exact Hs|]. apply elem_of_app. left.
    apply list_elem_of_In, in_rev. rewrite E. by left.
  - intros n E. eapply seg_alloc; [exact Hs|]. apply elem_of_app. right. right. destruct l2; [done|]. injection E as ->. left.
Qed.

(** No structure is freed. *)
Definition keeps_nodes (s s' : links) : Prop := forall n, is_Some (s.(li_next) !! n) -> is_Some (s'.(li_next) !! n).

Lemma unlinked_keeps c q next s s' : unlinked c q next s s' -> keeps_nodes s s'.
Proof.
  intros [UL _] n Hn. change (is_Some (load (AtNext n) s')). rewrite UL. destruct (decide _); [by eexists|done].
Qed.

(** A client that is in a list is taken out of it. *)
Lemma lists_unlink c h s ls :
  lists s ls -> c ∈ ls h ->
  (exists s', unlink_node c s = Some s' /\ lists (free_node c s') (without c ls) /\ keeps_nodes s s') /\
  (exists s', unlink_class c s = Some s' /\ lists (free_node c s') (without c ls) /\ keeps_nodes s s').
Proof.
  intros Hl Hc. apply list_elem_of_split in Hc as (l1 & l2 & El).
  destruct (lists_next s ls h l1 c l2 Hl El) as (q & Hq & Hn & Hlq & Hx).
  destruct (unlink_effect c q (head l2) s Hq Hn Hlq Hx) as [(s1 & E1 & U1) (s2 & E2 & U2)].
  split; [exists s1|exists s2]; (split; [done|]); (split; [by eapply lists_unlinked|by eapply unlinked_keeps]).
Qed.

(** Taking a client out of the lists of the classes, which it need not be in. *)
Lemma lists_unclass c s ls :
  lists s ls -> exists s', unlink_class c s = Some s' /\ lists (free_node c s') (without c ls) /\ keeps_nodes s s'.
Proof.
  intros Hl. destruct (li_prevp s !! c) as [p|] eqn:E.
  - destruct (ls_prevp _ _ Hl c) as [h Hh]; [rewrite E; by eexists|]. by destruct (lists_unlink c h s ls Hl Hh) as [_ ?].
  - unfold unlink_class. rewrite E. eexists. split; [done|]. split; [|by intros n]. destruct Hl as [L1 L2 L3 L4].
    assert (forall h, c ∉ ls h) as Hc.
    { intros h Hh. apply list_elem_of_split in Hh as (l1 & l2 & El). pose proof (L1 h) as Hs. rewrite El in Hs.
      apply seg_pred in Hs as [Hs _]. by rewrite E in Hs. }
    split.
    + intros h. unfold without. rewrite filter_absent by done. by apply seg_free.
    + intros h. unfold without. by rewrite filter_absent.
    + intros h h' n [H1 _]%in_without [H2 _]%in_without. by eapply L3.
    + intros n Hn. unfold without. cbn [free_node li_prevp] in Hn. destruct (decide (c = n)) as [->|Hne].
      { rewrite lookup_delete_eq in Hn. by destruct Hn. }
      rewrite lookup_delete_ne in Hn by done. destruct (L4 n Hn) as [h Hh]. exists h. by rewrite filter_absent.
Qed.

(** A structure that is in no list may be freed. *)
Lemma lists_free c s ls : lists s ls -> (forall h, c ∉ ls h) -> lists (free_node c s) ls.
Proof.
  intros [L1 L2 L3 L4] Hc. split; try done.
  - intros h. by apply seg_free.
  - intros n Hn. apply L4. cbn [free_node li_prevp] in Hn. destruct (decide (c = n)) as [->|Hne]; [|by rewrite lookup_delete_ne in Hn].
    rewrite lookup_delete_eq in Hn. by destruct Hn.
Qed.

(** ** A client in front *)

(** What it does to the pointers. *)
Record pushed (c : Z) (h : H) (next : option Z) (s s' : links) : Prop := {
  pu_load : forall r, load r s' = if decide (r = AtHead h) then Some (Some c)
                                  else if decide (r = AtNext c) then Some next else load r s;
  pu_prevp : forall m, s'.(li_prevp) !! m = if decide (c = m) then Some (AtHead h)
                                            else if decide (next = Some m) then Some (AtNext c) else s.(li_prevp) !! m
}.

Lemma push_effect c h next s :
  s.(li_head) !! h = next -> is_Some (s.(li_next) !! c) -> (forall n, next = Some n -> is_Some (s.(li_next) !! n)) ->
  exists s', push_front h c s = Some s' /\ pushed c h next s s'.
Proof.
  intros Eh Ha Hnext. unfold push_front. cbn [load mbind option_bind]. rewrite Eh.
  destruct (store_prevp (AtNext c) next s) as (s1 & -> & A1 & A2 & A3); [done|done|]. cbn [mbind option_bind].
  assert (exists s2, match next with Some n => set_prevp n (AtNext c) s1 | None => Some s1 end = Some s2 /\
            (forall r, load r s2 = load r s1) /\
            forall m, li_prevp s2 !! m = if decide (next = Some m) then Some (AtNext c) else li_prevp s1 !! m) as (s2 & -> & B1 & B2).
  { destruct next as [n|]; [|by exists s1]. destruct (set_prevp_effect n (AtNext c) s1 (A3 n eq_refl)) as (s2 & E & B1 & _ & B2).
    by exists s2. }
  cbn [mbind option_bind]. destruct (store_prevp (AtHead h) (Some c) s2) as (s3 & -> & C1 & C2 & C3); [by eexists| |].
  { intros n [= <-]. change (is_Some (load (AtNext c) s2)). rewrite B1, A1. destruct (decide _); [by eexists|done]. }
  cbn [mbind option_bind]. destruct (set_prevp_effect c (AtHead h) s3 (C3 c eq_refl)) as (s4 & -> & D1 & _ & D2).
  exists s4. split; [done|]. split; [intros r; by rewrite D1, C1, B1, A1|].
  intros m. rewrite D2, C2, B2, A2. destruct (decide (Some c = Some m)), (decide (c = m)); try done; congruence.
Qed.

(** A list behind a pointer that is not touched. *)
Lemma seg_pushed c h next s s' p l :
  pushed c h next s s' -> seg s p l -> p <> AtHead h -> p <> AtNext c -> c ∉ l -> (forall n, next = Some n -> n ∉ l) ->
  seg s' p l.
Proof.
  intros [PL PP] Hs H1 H2 Hc Hn. eapply seg_ext; [| |exact Hs].
  - rewrite PL. destruct (decide (p = AtHead h)); [done|]. by destruct (decide (p = AtNext c)).
  - intros m Hm. pose proof (PL (AtNext m)) as Hl. cbn [load] in Hl. rewrite Hl, PP.
    destruct (decide (AtNext m = AtHead h)); [done|]. destruct (decide (AtNext m = AtNext c)) as [[= ->]|]; [done|].
    destruct (decide (c = m)) as [->|]; [done|]. destruct (decide (next = Some m)) as [E|]; [by destruct (Hn m)|done].
Qed.

Lemma seg_front c h next s s' l :
  pushed c h next s s' -> s.(li_head) !! h = next -> seg s (AtHead h) l -> NoDup l -> c ∉ l -> seg s' (AtHead h) (c :: l).
Proof.
  intros Hp Eh Hs Hd Hc. pose proof Hp as [PL PP]. cbn [seg]. rewrite PL, PP.
  destruct (decide (AtHead h = AtHead h)); [|done]. destruct (decide (c = c)); [|done]. do 2 (split; [done|]).
  destruct l as [|n l]; cbn [seg] in *.
  - rewrite PL. cbn [load] in Hs. destruct (decide (AtNext c = AtHead h)); [done|]. destruct (decide (AtNext c = AtNext c)); [|done].
    congruence.
  - destruct Hs as (E1 & E2 & E3). cbn [load] in E1. injection E1 as E1. assert (next = Some n) as En by congruence. clear Eh E1.
    apply list.NoDup_cons in Hd as [Hnl _]. assert (c <> n) by (intros ->; apply Hc; left). rewrite PL, PP.
    destruct (decide (AtNext c = AtHead h)); [done|]. destruct (decide (AtNext c = AtNext c)); [|done].
    destruct (decide (c = n)); [done|]. destruct (decide (next = Some n)); [|done]. split; [by rewrite En|]. split; [done|].
    eapply seg_pushed; [done|done|done|congruence| |].
    + intros Hcl. apply Hc. by right.
    + intros m Em. congruence.
Qed.

Lemma lists_push c h s ls :
  lists s ls -> is_Some (s.(li_next) !! c) -> (forall k, c ∉ ls k) ->
  exists s', push_front h c s = Some s' /\ lists s' (upd h (c :: ls h) ls) /\ keeps_nodes s s'.
Proof.
  intros [L1 L2 L3 L4] Ha Hc.
  assert (forall n, li_head s !! h = Some n -> n ∈ ls h) as Hin.
  { intros n E. pose proof (L1 h) as Hs. destruct (ls h) as [|m l]; cbn [seg load] in Hs; [congruence|].
    destruct Hs as [Hs _]. rewrite E in Hs. injection Hs as ->. left. }
  destruct (push_effect c h _ s eq_refl Ha) as (s' & E & Hp); [intros n En; eapply seg_alloc; [apply (L1 h)|by apply Hin]|].
  exists s'. split; [done|]. split.
  2:{ intros n Hn. change (is_Some (load (AtNext n) s')). rewrite (pu_load _ _ _ _ _ Hp).
      destruct (decide (AtNext n = AtHead h)); [done|]. destruct (decide _); [by eexists|done]. }
  unfold upd. split.
  - intros k. destruct (decide (k = h)) as [->|Hk]; [by eapply seg_front|].
    eapply seg_pushed; [done|apply L1|congruence|done|done|]. intros n En Hn. apply Hk. eapply L3; [done|by apply Hin].
  - intros k. destruct (decide (k = h)) as [->|]; [|apply L2]. apply list.NoDup_cons. by split.
  - intros k k' n. destruct (decide (k = h)) as [->|], (decide (k' = h)) as [->|]; try done; [| |apply L3].
    + intros [->|Hn]%elem_of_cons Hk'; [by destruct (Hc k')|]. by eapply L3.
    + intros Hk [->|Hn]%elem_of_cons; [by destruct (Hc k)|]. by eapply L3.
  - intros n. rewrite (pu_prevp _ _ _ _ _ Hp). intros Hn. destruct (decide (c = n)) as [->|].
    { exists h. destruct (decide (h = h)); [left|done]. }
    assert (exists k, n ∈ ls k) as [k Hk] by (destruct (decide (_ = Some n)); [exists h; by apply Hin|by apply L4]).
    exists k. destruct (decide (k = h)) as [->|]; [by right|done].
Qed.

(** A new structure is in no list. *)
Lemma lists_alloc c s ls : lists s ls -> (forall k, c ∉ ls k) -> lists (alloc_node c s) ls.
Proof.
  intros [L1 L2 L3 L4] Hc. split; try done.
  - intros h. eapply (seg_ext s); [done| |apply L1]. intros n Hn. cbn [alloc_node li_next li_prevp].
    assert (c <> n) by (intros ->; by destruct (Hc h)). by rewrite lookup_insert_ne, lookup_delete_ne.
  - intros n Hn. apply L4. cbn [alloc_node li_prevp] in Hn. destruct (decide (c = n)) as [->|]; [|by rewrite lookup_delete_ne in Hn].
    rewrite lookup_delete_eq in Hn. by destruct Hn.
Qed.
End Plist.
