(* ===== verification/ClientIO.v ===== *)
(** * worker.c: the buffers of a client's connection

    Data for a client goes through its output buffer, data from it through its input
    buffer, out of which lines are taken.  The socket is a parameter: what it
    answers to the n-th [write].  The bytes it took are kept in [co_sent], and the
    datagrams in [co_datagrams]; a connection that was closed has the reason. *)

From S2P Require Import Prelude Types ParseQc ParseAprs Messaging Incoming.
From Stdlib Require Import ZArith Lia Bool String.
From stdpp Require Import base tactics list numbers.
Open Scope Z_scope.

(** ** Data *)

Inductive errno : Set := EINTR | EAGAIN | EPIPE | Eother (e : Z).

(** Why a connection was closed: an error of the socket or one of the codes of
    errno_aprsc.h. *)
Inductive close_reason : Set :=
  | Errno (e : errno)
  | CLIERR_EOF
  | CLIERR_OUTPUT_BUFFER_FULL
  | CLIERR_OUTPUT_WRITE_TIMEOUT
  | CLIERR_LOGIN_TIMEOUT
  | CLIERR_INACTIVITY
  | CLIERR_LOGIN_RETRIES.

(** The members of [struct client_t] that reading and writing use. *)
Record conn := mk_conn {
  co_ibuf : list Z;
  co_ibuf_end : Z;
  co_obuf : list Z;
  co_obuf_start : Z;
  co_obuf_end : Z;
  co_obuf_flushsize : Z;
  co_obuf_writes : Z;
  co_obuf_wtime : Z;
  co_last_read : Z;
  co_udp : bool;
  co_poll_out : bool;
  co_closed : option close_reason;
  co_calls : nat;
  co_sent : list Z;
  co_datagrams : list (list Z)
}.

Definition OBUF_SIZE : Z := 8000.
Definition IBUF_SIZE : Z := 8000.

Definition obuf_size (c : conn) : Z := zlen c.(co_obuf).
Definition ibuf_size (c : conn) : Z := zlen c.(co_ibuf).

Definition set_obuf (obuf : list Z) (start end_ : Z) (c : conn) : conn :=
  mk_conn c.(co_ibuf) c.(co_ibuf_end) obuf start end_ c.(co_obuf_flushsize) c.(co_obuf_writes) c.(co_obuf_wtime)
    c.(co_last_read) c.(co_udp) c.(co_poll_out) c.(co_closed) c.(co_calls) c.(co_sent) c.(co_datagrams).
Definition set_ibuf (ibuf : list Z) (end_ : Z) (c : conn) : conn :=
  mk_conn ibuf end_ c.(co_obuf) c.(co_obuf_start) c.(co_obuf_end) c.(co_obuf_flushsize) c.(co_obuf_writes) c.(co_obuf_wtime)
    c.(co_last_read) c.(co_udp) c.(co_poll_out) c.(co_closed) c.(co_calls) c.(co_sent) c.(co_datagrams).
Definition set_last_read (t : Z) (c : conn) : conn :=
  mk_conn c.(co_ibuf) c.(co_ibuf_end) c.(co_obuf) c.(co_obuf_start) c.(co_obuf_end) c.(co_obuf_flushsize) c.(co_obuf_writes)
    c.(co_obuf_wtime) t c.(co_udp) c.(co_poll_out) c.(co_closed) c.(co_calls) c.(co_sent) c.(co_datagrams).
Definition set_obuf_mode (flushsize writes : Z) (c : conn) : conn :=
  mk_conn c.(co_ibuf) c.(co_ibuf_end) c.(co_obuf) c.(co_obuf_start) c.(co_obuf_end) flushsize writes c.(co_obuf_wtime)
    c.(co_last_read) c.(co_udp) c.(co_poll_out) c.(co_closed) c.(co_calls) c.(co_sent) c.(co_datagrams).
Definition set_wtime (t : Z) (c : conn) : conn :=
  mk_conn c.(co_ibuf) c.(co_ibuf_end) c.(co_obuf) c.(co_obuf_start) c.(co_obuf_end) c.(co_obuf_flushsize) c.(co_obuf_writes) t
    c.(co_last_read) c.(co_udp) c.(co_poll_out) c.(co_closed) c.(co_calls) c.(co_sent) c.(co_datagrams).
Definition set_poll_out (b : bool) (c : conn) : conn :=
  mk_conn c.(co_ibuf) c.(co_ibuf_end) c.(co_obuf) c.(co_obuf_start) c.(co_obuf_end) c.(co_obuf_flushsize) c.(co_obuf_writes)
    c.(co_obuf_wtime) c.(co_last_read) c.(co_udp) b c.(co_closed) c.(co_calls) c.(co_sent) c.(co_datagrams).
Definition set_socket (calls : nat) (sent : list Z) (datagrams : list (list Z)) (c : conn) : conn :=
  mk_conn c.(co_ibuf) c.(co_ibuf_end) c.(co_obuf) c.(co_obuf_start) c.(co_obuf_end) c.(co_obuf_flushsize) c.(co_obuf_writes)
    c.(co_obuf_wtime) c.(co_last_read) c.(co_udp) c.(co_poll_out) c.(co_closed) calls sent datagrams.
Definition client_close (why : close_reason) (c : conn) : conn :=
  mk_conn c.(co_ibuf) c.(co_ibuf_end) c.(co_obuf) c.(co_obuf_start) c.(co_obuf_end) c.(co_obuf_flushsize) c.(co_obuf_writes)
    c.(co_obuf_wtime) c.(co_last_read) c.(co_udp) c.(co_poll_out) (Some why) c.(co_calls) c.(co_sent) c.(co_datagrams).

Definition is_closed (c : conn) : bool := match c.(co_closed) with Some _ => true | None => false end.

(** The bytes that wait in the output buffer. *)
Definition pending (c : conn) : list Z := slice c.(co_obuf) c.(co_obuf_start) (c.(co_obuf_end) - c.(co_obuf_start)).

(** ** Output *)

(** Room for [len] bytes at the end of the buffer, or [None]: the pending bytes are
    moved to its start when that helps. *)
Definition client_buffer_outgoing_allocate (c : conn) (len : Z) : option (option conn) :=
  if c.(co_obuf_end) + len >? obuf_size c then
    if len >? obuf_size c - (c.(co_obuf_end) - c.(co_obuf_start)) then Some None
    else
      obuf ← (if c.(co_obuf_start) >? 0 then blit c.(co_obuf) 0 (pending c) else Some c.(co_obuf));
      Some (Some (set_obuf obuf 0 (c.(co_obuf_end) - c.(co_obuf_start)) c))
  else Some (Some c).

Definition client_buffer_outgoing_data (c : conn) (p : list Z) : option (conn * Z) :=
  r ← client_buffer_outgoing_allocate c (zlen p);
  match r with
  | None => Some (client_close CLIERR_OUTPUT_BUFFER_FULL c, -12)
  | Some c =>
      obuf ← (if zlen p >? 0 then blit c.(co_obuf) c.(co_obuf_end) p else Some c.(co_obuf));
      Some (set_obuf obuf c.(co_obuf_start) (c.(co_obuf_end) + zlen p) c, 0)
  end.

(** An answer of the socket: it takes up to so many bytes, or it fails. *)
Inductive answer : Set := Takes (n : nat) | Fails (e : errno).

Section Socket.
Variable socket : nat -> answer.
Variable tick : Z.

(** [write(c->fd, data, len)]. *)
Definition sys_write (c : conn) (data : list Z) : conn * (nat + errno) :=
  match socket c.(co_calls) with
  | Takes n => (set_socket (S c.(co_calls)) (c.(co_sent) ++ take n data) c.(co_datagrams) c, inl (min n (length data)))
  | Fails e => (set_socket (S c.(co_calls)) c.(co_sent) c.(co_datagrams) c, inr e)
  end.

(** The loop at [write_retry_2]; [None] when it is interrupted more often. *)
Fixpoint write_retry (fuel : nat) (c : conn) : option (conn * (nat + errno)) :=
  match fuel with
  | O => None
  | S fuel =>
      match sys_write c (pending c) with
      | (c, inr EINTR) => write_retry fuel c
      | r => Some r
      end
  end.

(** [udp_client_write]: the text without its line end, in a datagram. *)
Definition udp_client_write (c : conn) (p : list Z) : option (conn * Z) :=
  data ← rd_range p 0 (zlen p - 2);
  match socket c.(co_calls) with
  | Takes n => Some (set_socket (S c.(co_calls)) c.(co_sent) (c.(co_datagrams) ++ [take n data]) c, Z.of_nat (min n (length data)))
  | Fails _ => Some (set_socket (S c.(co_calls)) c.(co_sent) c.(co_datagrams) c, -1)
  end.

(** What [tcp_client_write] does when the buffer is written out. *)
Definition write_out (fuel : nat) (c : conn) (len : Z) : option (conn * option Z) :=
  '(c, r) ← write_retry fuel c;
  match r with
  | inr EPIPE => Some (client_close (Errno EPIPE) c, Some (-9))
  | inr EAGAIN => Some (c, Some (-1))
  | inr e => if negb (len =? 0) then Some (client_close (Errno e) c, Some (-11)) else Some (c, None)
  | inl i =>
      Some (if (0 <? i)%nat then set_wtime tick (set_obuf c.(co_obuf) (c.(co_obuf_start) + Z.of_nat i) c.(co_obuf_end) c) else c, None)
  end.

(** The end of [tcp_client_write]. *)
Definition write_done (c : conn) (len : Z) : conn * Z :=
  if c.(co_obuf_start) >=? c.(co_obuf_end) then (set_obuf c.(co_obuf) 0 0 c, len) else (set_poll_out true c, len).

Definition tcp_client_write (fuel : nat) (c : conn) (p : list Z) : option (conn * Z) :=
  let len := zlen p in
  if c.(co_udp) && (len >? 0) && negb (bool_decide (rd p 0 = Some ch_hash)) then udp_client_write c p
  else
    '(c, rc) ← client_buffer_outgoing_data (set_obuf_mode c.(co_obuf_flushsize) (c.(co_obuf_writes) + 1) c) p;
    if rc =? -12 then Some (c, -12)
    else if (c.(co_obuf_end) >? c.(co_obuf_flushsize)) || (len =? 0) && (c.(co_obuf_end) >? c.(co_obuf_start)) then
      '(c, r) ← write_out fuel c len;
      match r with Some rc => Some (c, rc) | None => Some (write_done c len) end
    else Some (write_done c len).

(** The socket is writable: [handle_client_writable], with the test of
    [handle_client_event] before it. *)
Definition handle_client_writable (c : conn) : conn * Z :=
  let '(c, r) := sys_write c (pending c) in
  match r with
  | inr EINTR | inr EAGAIN => (c, 0)
  | inr e => (client_close (Errno e) c, -1)
  | inl i =>
      let c := set_obuf c.(co_obuf) (c.(co_obuf_start) + Z.of_nat i) c.(co_obuf_end) c in
      if c.(co_obuf_start) =? c.(co_obuf_end) then (set_obuf c.(co_obuf) 0 0 (set_poll_out false c), 0) else (c, 0)
  end.

Definition handle_writable_event (c : conn) : conn * Z :=
  if c.(co_obuf_start) =? c.(co_obuf_end) then (set_obuf c.(co_obuf) 0 0 (set_poll_out false c), 0)
  else handle_client_writable c.
End Socket.

(** * The output buffer is a queue *)

Record conn_ok (c : conn) : Prop := {
  ck_start : 0 <= c.(co_obuf_start) <= c.(co_obuf_end);
  ck_end : c.(co_obuf_end) <= obuf_size c
}.

(** The buffer of a connection that differs in other members only. *)
Ltac same_buffer H :=
  let A := fresh in let B := fresh in destruct H as [A B]; split; [exact A|exact B].

Lemma pending_mid c a d b :
  c.(co_obuf) = a ++ d ++ b -> c.(co_obuf_start) = zlen a -> c.(co_obuf_end) = zlen a + zlen d -> pending c = d.
Proof. intros H1 H2 H3. unfold pending. rewrite H1, H2, H3, Z.add_simpl_l. apply slice_mid. Qed.

Lemma obuf_split c :
  conn_ok c -> exists a b, c.(co_obuf) = a ++ pending c ++ b /\ zlen a = c.(co_obuf_start) /\
    zlen (pending c) = c.(co_obuf_end) - c.(co_obuf_start).
Proof.
  intros [Hs He]. unfold obuf_size in He. unfold pending. rewrite zlen_slice by lia.
  exists (take (Z.to_nat (co_obuf_start c)) (co_obuf c)), (drop (Z.to_nat (co_obuf_end c)) (co_obuf c)).
  split; [|split; [unfold zlen in *; rewrite length_take; lia|done]].
  unfold slice. rewrite <- (take_drop (Z.to_nat (co_obuf_start c)) (co_obuf c)) at 1. f_equal.
  rewrite <- (take_drop (Z.to_nat (co_obuf_end c - co_obuf_start c)) (drop (Z.to_nat (co_obuf_start c)) (co_obuf c))) at 1.
  f_equal. rewrite drop_drop. f_equal. lia.
Qed.

(** [c'] is [c] with its output buffer changed to hold [d]. *)
Definition rebuffered (c c' : conn) (d : list Z) : Prop :=
  conn_ok c' /\ pending c' = d /\ zlen c'.(co_obuf) = zlen c.(co_obuf) /\
  c' = set_obuf c'.(co_obuf) c'.(co_obuf_start) c'.(co_obuf_end) c.

Lemma allocate_spec c len :
  conn_ok c -> 0 <= len ->
  if zlen (pending c) + len >? obuf_size c then client_buffer_outgoing_allocate c len = Some None
  else exists c', client_buffer_outgoing_allocate c len = Some (Some c') /\ rebuffered c c' (pending c) /\
         c'.(co_obuf_end) + len <= obuf_size c.
Proof.
  intros Hc Hl. destruct (obuf_split c Hc) as (a & b & Hob & Ha & Hp). pose proof (ck_start _ Hc). pose proof (ck_end _ Hc).
  unfold client_buffer_outgoing_allocate. rewrite Hp.
  destruct (Z.gtb_spec (co_obuf_end c + len) (obuf_size c)) as [H1|H1].
  - destruct (Z.gtb_spec (co_obuf_end c - co_obuf_start c + len) (obuf_size c)) as [H2|H2].
    { destruct (Z.gtb_spec len (obuf_size c - (co_obuf_end c - co_obuf_start c))); [done|lia]. }
    destruct (Z.gtb_spec len (obuf_size c - (co_obuf_end c - co_obuf_start c))); [lia|].
    assert (exists o r, (if co_obuf_start c >? 0 then blit (co_obuf c) 0 (pending c) else Some (co_obuf c)) = Some o /\
              o = [] ++ pending c ++ r /\ zlen o = zlen (co_obuf c)) as (o & r & Eo & Ho & Hz).
    { unfold obuf_size in *. destruct (Z.gtb_spec (co_obuf_start c) 0) as [Hst|Hst].
      - exists (pending c ++ drop (length (pending c)) (co_obuf c)), (drop (length (pending c)) (co_obuf c)).
        split; [apply (blit_at [] (co_obuf c)); [done|lia]|]. split; [done|].
        rewrite zlen_app. unfold zlen in *. rewrite length_drop. lia.
      - exists (co_obuf c), b. split; [done|]. split; [|done]. rewrite Hob at 1. destruct a; [done|]. rewrite zlen_cons in Ha.
        pose proof (zlen_nonneg a). lia. }
    rewrite Eo. cbn [mbind option_bind]. eexists. split; [reflexivity|]. unfold obuf_size in *. cbn.
    split; [|lia]. split; [split; cbn; unfold obuf_size; cbn; lia|]. split; [|done].
    eapply (pending_mid _ [] (pending c) r); cbn; [exact Ho|done|change (zlen (@nil Z)) with 0; lia].
  - destruct (Z.gtb_spec (co_obuf_end c - co_obuf_start c + len) (obuf_size c)); [lia|].
    exists c. split; [done|]. split; [|lia]. split; [done|]. split; [done|]. split; [done|by destruct c].
Qed.

Lemma buffer_spec c p :
  conn_ok c ->
  if zlen (pending c) + zlen p >? obuf_size c
  then client_buffer_outgoing_data c p = Some (client_close CLIERR_OUTPUT_BUFFER_FULL c, -12)
  else exists c', client_buffer_outgoing_data c p = Some (c', 0) /\ rebuffered c c' (pending c ++ p).
Proof.
  intros Hc. pose proof (allocate_spec c (zlen p) Hc (zlen_nonneg p)) as Ha. unfold client_buffer_outgoing_data.
  destruct (_ >? obuf_size c); [by rewrite Ha|]. destruct Ha as (c1 & E & (H1 & Hp1 & Hz1 & Hc1) & Hroom). rewrite E. cbn [mbind option_bind].
  destruct (obuf_split c1 H1) as (a & b & Hob & Ha & Hp). pose proof (ck_start _ H1). unfold obuf_size in *.
  assert (zlen (co_obuf c1) = zlen a + zlen (pending c1) + zlen b) as Hz by (rewrite Hob at 1; rewrite !zlen_app; lia).
  assert (exists o r, (if zlen p >? 0 then blit (co_obuf c1) (co_obuf_end c1) p else Some (co_obuf c1)) = Some o /\
            o = a ++ (pending c1 ++ p) ++ r /\ zlen o = zlen (co_obuf c1)) as (o & r & Eo & Ho & Hzo).
  { pose proof (zlen_nonneg p). destruct (Z.gtb_spec (zlen p) 0) as [H2|H2].
    - exists (a ++ (pending c1 ++ p) ++ drop (length p) b), (drop (length p) b). split.
      + rewrite Hob at 1. rewrite app_assoc. rewrite (blit_at (a ++ pending c1) b p); [|rewrite zlen_app; lia|lia].
        by rewrite !app_assoc.
      + split; [done|]. rewrite Hz, !zlen_app. unfold zlen in *. rewrite length_drop. lia.
    - exists (co_obuf c1), b. split; [done|]. split; [|done].
      assert (p = []) as -> by (destruct p; [done|]; rewrite zlen_cons in H2; pose proof (zlen_nonneg p); lia).
      by rewrite app_nil_r. }
  rewrite Eo. cbn [mbind option_bind]. eexists. split; [reflexivity|].
  split; [split; cbn; unfold obuf_size; cbn; rewrite ?Hzo; pose proof (zlen_nonneg p); lia|].
  split; [|split; [cbn; congruence|rewrite Hc1; done]].
  rewrite <- Hp1. eapply (pending_mid _ a (pending c1 ++ p) r); cbn; [exact Ho|lia|rewrite zlen_app; lia].
Qed.

Section Stream.
Variable socket : nat -> answer.
Variable tick : Z.
(** The socket is not interrupted more than so many times in a row. *)
Variable interrupts : nat.
Hypothesis socket_live : forall k, exists j, (j <= interrupts)%nat /\ socket (k + j)%nat <> Fails EINTR.

(** The connection after the socket took the first [i] pending bytes. *)
Definition took (c c' : conn) (i : nat) : Prop :=
  exists k, c' = set_socket k (c.(co_sent) ++ take i (pending c)) c.(co_datagrams) c.

Definition wrote (c c' : conn) (r : nat + errno) : Prop :=
  match r with
  | inl i => (i <= length (pending c))%nat /\ took c c' i
  | inr _ => took c c' 0
  end.

Lemma sys_write_spec c : wrote c (sys_write socket c (pending c)).1 (sys_write socket c (pending c)).2.
Proof.
  unfold sys_write. destruct (socket (co_calls c)) as [n|e]; cbn.
  - split; [lia|]. exists (S (co_calls c)). f_equal. f_equal.
    destruct (Nat.leb_spec n (length (pending c))); [by rewrite Nat.min_l by lia|].
    rewrite Nat.min_r by lia. by rewrite firstn_all, firstn_all2 by lia.
  - exists (S (co_calls c)). by rewrite app_nil_r.
Qed.

Lemma write_retry_spec n c :
  (exists j, (j < n)%nat /\ socket (c.(co_calls) + j)%nat <> Fails EINTR) ->
  exists c' r, write_retry socket n c = Some (c', r) /\ wrote c c' r /\ r <> inr EINTR.
Proof.
  revert c. induction n as [|n IH]; intros c (j & Hj & Hs); [lia|]. cbn [write_retry].
  pose proof (sys_write_spec c) as Hw. destruct (sys_write socket c (pending c)) as [c1 r] eqn:E. cbn in Hw.
  assert (r = inr EINTR \/ r <> inr EINTR) as [->|Hr] by (destruct r as [|[]]; try (by left); by right).
  - unfold sys_write in E. destruct (socket (co_calls c)) as [|e] eqn:E0; [done|]. injection E as <- ->.
    destruct j as [|j]; [by rewrite Nat.add_0_r, E0 in Hs|].
    destruct (IH (set_socket (S (co_calls c)) (co_sent c) (co_datagrams c) c)) as (c' & r & Er & Hw' & Hr).
    { exists j. split; [lia|]. cbn. by rewrite <- Nat.add_succ_comm in Hs. }
    exists c', r. split; [done|]. split; [|done]. destruct r; cbn in Hw' |- *.
    + destruct Hw' as [Hi [k Hk]]. split; [done|]. exists k. by rewrite Hk.
    + destruct Hw' as [k Hk]. exists k. by rewrite Hk.
  - exists c1, r. split; [|done]. destruct r as [i|[]]; done.
Qed.

Lemma pending_advance c i :
  conn_ok c -> (i <= length (pending c))%nat ->
  let c' := set_obuf c.(co_obuf) (c.(co_obuf_start) + Z.of_nat i) c.(co_obuf_end) c in
  conn_ok c' /\ pending c' = drop i (pending c).
Proof.
  intros Hc Hi c'. destruct (obuf_split c Hc) as (a & b & Hob & Ha & Hp). pose proof (ck_start _ Hc). pose proof (ck_end _ Hc).
  split; [split; cbn; unfold obuf_size, zlen in *; cbn; lia|].
  assert (zlen (take i (pending c)) = Z.of_nat i) as Hz by (unfold zlen; rewrite length_take; lia).
  apply (pending_mid c' (a ++ take i (pending c)) _ b); cbn.
  - rewrite Hob at 1. rewrite <- (take_drop i (pending c)) at 1. by rewrite <- !app_assoc.
  - rewrite zlen_app. lia.
  - rewrite !zlen_app, Hz. unfold zlen in *. rewrite length_drop. lia.
Qed.

(** The stream of a connection: what the socket took and what waits; a connection
    that was closed may have left something out at the end. *)
Definition streamed (c : conn) (written : list Z) : Prop :=
  conn_ok c /\ c.(co_udp) = false /\
  match c.(co_closed) with
  | None => c.(co_sent) ++ pending c = written
  | Some _ => c.(co_sent) `prefix_of` written
  end.

(** Why writing closes a connection. *)
Definition broke (c c' : conn) (p : list Z) : Prop :=
  match c'.(co_closed) with
  | None => True
  | Some CLIERR_OUTPUT_BUFFER_FULL => zlen (pending c) + zlen p > obuf_size c
  | Some (Errno e) => e <> EINTR /\ e <> EAGAIN
  | Some _ => False
  end.

Lemma took_streamed c c' w i :
  c.(co_closed) = None -> streamed c w -> (i <= length (pending c))%nat -> took c c' i ->
  streamed (set_wtime tick (set_obuf c'.(co_obuf) (c'.(co_obuf_start) + Z.of_nat i) c'.(co_obuf_end) c')) w.
Proof.
  intros Ho (Hc & Hu & Hw) Hi [k ->]. rewrite Ho in Hw. destruct (pending_advance c i Hc Hi) as [Hc' Hp].
  split; [same_buffer Hc'|]. split; [done|]. cbn. rewrite Ho. rewrite <- Hw, <- app_assoc. f_equal.
  rewrite <- (take_drop i (pending c)) at 3. f_equal. exact Hp.
Qed.

Lemma took_none c c' w :
  c.(co_closed) = None -> streamed c w -> took c c' 0 -> streamed c' w /\ c'.(co_closed) = None.
Proof.
  intros Ho (Hc & Hu & Hw) [k ->]. rewrite Ho in Hw. split; [|done]. split; [same_buffer Hc|]. split; [done|]. cbn.
  by rewrite Ho, app_nil_r.
Qed.

Lemma closed_streamed c w why : c.(co_closed) = None -> streamed c w -> streamed (client_close why c) w.
Proof.
  intros Ho (Hc & Hu & Hw). rewrite Ho in Hw. split; [same_buffer Hc|]. split; [done|]. cbn. exists (pending c). done.
Qed.

Lemma write_done_streamed c w len : c.(co_closed) = None -> streamed c w -> streamed (write_done c len).1 w.
Proof.
  intros Ho (Hc & Hu & Hw). unfold write_done. destruct (Z.geb_spec (co_obuf_start c) (co_obuf_end c)) as [H|H]; [|split; [same_buffer Hc|done]].
  pose proof (ck_start _ Hc). pose proof (ck_end _ Hc). cbn. split; [split; cbn; unfold obuf_size in *; cbn; lia|]. split; [done|].
  cbn. rewrite Ho in Hw |- *. rewrite <- Hw. f_equal. unfold pending. cbn. rewrite Z.sub_diag.
  replace (co_obuf_end c - co_obuf_start c) with 0 by lia. done.
Qed.

Lemma write_out_streamed c w len :
  c.(co_closed) = None -> streamed c w ->
  exists c' r, write_out socket tick (interrupts + 1) c len = Some (c', r) /\ streamed c' w /\
    match r with
    | None => c'.(co_closed) = None
    | Some rc => c'.(co_closed) = None /\ rc = -1 \/ exists e, c'.(co_closed) = Some (Errno e) /\ e <> EINTR /\ e <> EAGAIN /\ rc < -2
    end.
Proof.
  intros Ho Hs. destruct (write_retry_spec (interrupts + 1) c) as (c1 & r & E & Hw & Hr).
  { destruct (socket_live (co_calls c)) as (j & Hj & H). exists j. split; [lia|done]. }
  unfold write_out. rewrite E. cbn [mbind option_bind]. destruct r as [i|e].
  - destruct Hw as [Hi Ht]. eexists _, None. split; [reflexivity|]. destruct (Nat.ltb_spec 0 i) as [H|H].
    + split; [by eapply took_streamed|]. destruct Ht as [k ->]. done.
    + assert (i = 0%nat) as -> by lia. by eapply took_none.
  - destruct (took_none _ _ _ Ho Hs Hw) as [Hs1 Ho1]. destruct e as [| | |e]; [done| | |].
    + exists c1, (Some (-1)). split; [done|]. split; [done|]. by left.
    + exists (client_close (Errno EPIPE) c1), (Some (-9)). split; [done|]. split; [by apply closed_streamed|]. right. by exists EPIPE.
    + destruct (negb (len =? 0)).
      * exists (client_close (Errno (Eother e)) c1), (Some (-11)). split; [done|]. split; [by apply closed_streamed|]. right. by exists (Eother e).
      * exists c1, None. done.
Qed.

Lemma tcp_write_spec c w p :
  c.(co_closed) = None -> streamed c w ->
  exists c' rc, tcp_client_write socket tick (interrupts + 1) c p = Some (c', rc) /\ streamed c' (w ++ p) /\ broke c c' p /\
    if is_closed c' then rc < -2 else rc = zlen p \/ rc = -1.
Proof.
  intros Ho (Hc & Hu & Hw). unfold tcp_client_write. rewrite Hu. cbn [andb].
  set (c0 := set_obuf_mode (co_obuf_flushsize c) (co_obuf_writes c + 1) c).
  assert (conn_ok c0) as Hc0 by same_buffer Hc. pose proof (buffer_spec c0 p Hc0) as Hb. rewrite Ho in Hw.
  change (pending c0) with (pending c) in Hb. change (obuf_size c0) with (obuf_size c) in Hb.
  destruct (Z.gtb_spec (zlen (pending c) + zlen p) (obuf_size c)) as [Hfull|Hroom].
  { rewrite Hb. cbn [mbind option_bind Z.eqb Pos.eqb]. eexists _, (-12). split; [reflexivity|]. split; [|split; [cbn; lia|cbn; lia]].
    split; [same_buffer Hc|]. split; [done|]. cbn. exists (pending c ++ p). by rewrite app_assoc, Hw. }
  destruct Hb as (c1 & E & (H1 & Hp1 & Hz1 & Hc1)). rewrite E. cbn [mbind option_bind].
  change (0 =? -12) with false. cbv iota.
  assert (co_closed c1 = None) as Ho1 by (rewrite Hc1; exact Ho).
  assert (streamed c1 (w ++ p)) as Hs1.
  { split; [done|]. rewrite Hc1 at 1 2. cbn. rewrite Ho. split; [done|]. rewrite Hc1 at 1. cbn. rewrite Hp1, app_assoc, Hw. done. }
  assert (forall c2, co_closed c2 = None -> streamed c2 (w ++ p) -> exists c' rc, Some (write_done c2 (zlen p)) = Some (c', rc) /\
    streamed c' (w ++ p) /\ broke c c' p /\ (if is_closed c' then rc < -2 else rc = zlen p \/ rc = -1)) as Hdone.
  { intros c2 Ho2 Hs2. pose proof (write_done_streamed c2 (w ++ p) (zlen p) Ho2 Hs2) as Hs3.
    exists (write_done c2 (zlen p)).1, (zlen p).
    assert (co_closed (write_done c2 (zlen p)).1 = None /\ (write_done c2 (zlen p)).2 = zlen p) as [Ho3 Hz3]
      by (unfold write_done; destruct (_ >=? _); done).
    split; [by rewrite <- Hz3 at 3; destruct (write_done c2 (zlen p))|]. split; [done|]. unfold broke, is_closed. rewrite Ho3. split; [done|by left]. }
  destruct (_ || _); [|by apply Hdone].
  destruct (write_out_streamed c1 (w ++ p) (zlen p) Ho1 Hs1) as (c2 & r & E2 & Hs2 & Hr). rewrite E2. cbn [mbind option_bind].
  destruct r as [rc|]; [|by apply Hdone]. exists c2, rc. split; [done|]. split; [done|]. unfold broke, is_closed.
  destruct Hr as [[Ho2 ->]|(e & Ho2 & H3 & H4 & H5)]; rewrite Ho2; [split; [done|by right]|done].
Qed.

Lemma writable_spec c w :
  c.(co_closed) = None -> streamed c w ->
  streamed (handle_writable_event socket c).1 w /\ broke c (handle_writable_event socket c).1 [] /\
  (forall n, socket c.(co_calls) = Takes n -> (length (pending c) <= n)%nat ->
     pending (handle_writable_event socket c).1 = [] /\ (handle_writable_event socket c).1.(co_closed) = None).
Proof.
  intros Ho Hs. pose proof Hs as (Hc & Hu & Hw). rewrite Ho in Hw. pose proof (ck_start _ Hc). pose proof (ck_end _ Hc).
  assert (forall c0, conn_ok c0 -> co_udp c0 = false -> co_closed c0 = None -> co_obuf_start c0 = co_obuf_end c0 -> co_sent c0 ++ pending c0 = w ->
    let c' := set_obuf (co_obuf c0) 0 0 (set_poll_out false c0) in streamed c' w /\ pending c' = []) as Hempty.
  { intros c0 [Ha Hb] Hu0 Ho0 Hse Hw0 c'. split; [|done]. split; [split; cbn; unfold obuf_size in *; cbn; lia|]. split; [done|].
    cbn. rewrite Ho0, <- Hw0. f_equal. unfold pending. by rewrite Hse, !Z.sub_diag. }
  unfold handle_writable_event, broke. destruct (Z.eqb_spec (co_obuf_start c) (co_obuf_end c)) as [E|E].
  { destruct (Hempty c Hc Hu Ho E Hw) as [H1 H2]. cbn [fst co_closed set_obuf set_poll_out] in *. rewrite Ho. done. }
  unfold handle_client_writable. pose proof (sys_write_spec c) as Hsw.
  assert (forall n, socket (co_calls c) = Takes n -> (sys_write socket c (pending c)).2 = inl (min n (length (pending c)))) as Htk
    by (intros n Hn; unfold sys_write; by rewrite Hn).
  destruct (sys_write socket c (pending c)) as [c1 r] eqn:Esw. cbn [fst snd] in Hsw, Htk. destruct r as [i|e].
  - destruct Hsw as [Hi Ht]. pose proof (took_streamed c c1 w i Ho Hs Hi Ht) as (H1 & H2 & H3).
    destruct Ht as [k Hk]. assert (co_closed c1 = None) as Ho1 by (rewrite Hk; exact Ho).
    cbn [co_closed set_wtime set_obuf] in H3. rewrite Ho1 in H3. cbn [co_obuf_start co_obuf_end set_obuf].
    assert (zlen (pending c) = co_obuf_end c - co_obuf_start c) as Hlen by (destruct (obuf_split c Hc) as (? & ? & _ & _ & Hl); exact Hl).
    set (c2 := set_obuf (co_obuf c1) (co_obuf_start c1 + Z.of_nat i) (co_obuf_end c1) c1) in *.
    assert (conn_ok c2) as Hc2 by same_buffer H1.
    destruct (Z.eqb_spec (co_obuf_start c1 + Z.of_nat i) (co_obuf_end c1)) as [E1|E1].
    + destruct (Hempty c2 Hc2 H2 Ho1 E1 H3) as [H4 H5]. cbn [fst].
      match goal with |- streamed ?X _ /\ _ => assert (co_closed X = None) as HX by exact Ho1; rewrite HX end.
      split; [exact H4|]. split; [done|]. intros _ _ _. split; [exact H5|done].
    + cbn [fst]. assert (co_closed c2 = None) as HX by exact Ho1. rewrite HX.
      split; [split; [exact Hc2|split; [exact H2|]]; rewrite HX; exact H3|].
      split; [done|]. intros n Hn Hle. specialize (Htk n Hn). injection Htk as ->. rewrite Nat.min_r in E1 by lia.
      rewrite Hk in E1. cbn in E1. unfold zlen in Hlen. lia.
  - destruct (took_none _ _ _ Ho Hs Hsw) as [Hs1 Ho1].
    assert (forall n, socket (co_calls c) <> Takes n) as Hno by (intros n Hn; specialize (Htk n Hn); discriminate).
    destruct e; cbn [fst]; [rewrite Ho1|rewrite Ho1| |];
      (split; [try done; by apply closed_streamed|]; split; [done|]; intros n Hn; by apply Hno in Hn).
Qed.
End Stream.

(** ** Input *)

Definition is_eol (c : Z) : bool := (c =? 13) || (c =? 10).

Section Input.
Context {H : Type}.
(** [c->handler_line_in]; a negative result means that the client is gone. *)
Variable handler : H -> list Z -> H * Z.
Variable tick : Z.

Fixpoint skip_eol (n : nat) (ibuf : list Z) (end_ i : Z) : option Z :=
  match n with
  | O => Some i
  | S n => if i <? end_ then b ← rd ibuf i; if is_eol b then skip_eol n ibuf end_ (i + 1) else Some i else Some i
  end.

(** The loop of [deframe_aprsis_input_lines]. *)
Fixpoint deframe (n : nat) (ibuf : list Z) (end_ i row_start : Z) (h : H) : option (H * Z) :=
  match n with
  | O => Some (h, row_start)
  | S n =>
      if i <? end_ then
        b ← rd ibuf i;
        if is_eol b then
          '(h, rc) ← (if i - row_start >? 0 then l ← rd_range ibuf row_start (i - row_start); Some (handler h l) else Some (h, 0));
          if rc <? 0 then Some (h, -1)
          else
            j ← skip_eol n ibuf end_ (i + 1);
            deframe n ibuf end_ (j + 1) j h
        else deframe n ibuf end_ (i + 1) row_start h
      else Some (h, row_start)
  end.

Definition deframe_aprsis_input_lines (c : conn) (h : H) : option (H * Z) :=
  deframe (Z.to_nat c.(co_ibuf_end) + 1) c.(co_ibuf) c.(co_ibuf_end) 0 0 h.

(** [client_postread], with the return code. *)
Definition client_postread (c : conn) (r : Z) (h : H) : option (conn * H * Z) :=
  let c := set_last_read tick (set_ibuf c.(co_ibuf) (c.(co_ibuf_end) + r) c) in
  '(h, consumed) ← deframe_aprsis_input_lines c h;
  if consumed =? -1 then Some (c, h, -1)
  else if consumed >=? c.(co_ibuf_end) then Some (set_ibuf c.(co_ibuf) 0 c, h, 0)
  else if consumed >? 0 then
    rest ← rd_range c.(co_ibuf) consumed (c.(co_ibuf_end) - consumed);
    ibuf ← blit c.(co_ibuf) 0 rest;
    Some (set_ibuf ibuf (c.(co_ibuf_end) - consumed) c, h, 0)
  else Some (c, h, 0).

(** [handle_client_readable], when the socket has the bytes [avail] or fails: what
    does not fit stays there.  With no bytes [read] returns 0. *)
Definition handle_client_readable (c : conn) (avail : list Z + errno) (h : H) : option (conn * H * Z) :=
  match avail with
  | inr EINTR | inr EAGAIN => Some (c, h, 0)
  | inr e => Some (client_close (Errno e) c, h, -1)
  | inl avail =>
      let data := take (Z.to_nat (ibuf_size c - c.(co_ibuf_end) - 1)) avail in
      if bool_decide (data = []) then Some (client_close CLIERR_EOF c, h, -1)
      else
        ibuf ← blit c.(co_ibuf) c.(co_ibuf_end) data;
        client_postread (set_ibuf ibuf c.(co_ibuf_end) c) (zlen data) h
  end.

(** * Lines do not depend on how they arrive *)

(** The complete lines of a stream, without empty ones, and what is behind the last
    line end; [cur] is the line so far. *)
Fixpoint split_lines (cur s : list Z) : list (list Z) * list Z :=
  match s with
  | [] => ([], cur)
  | c :: t =>
      if is_eol c then let '(ls, r) := split_lines [] t in ((if bool_decide (cur = []) then ls else cur :: ls), r)
      else split_lines (cur ++ [c]) t
  end.

(** The handler on lines, until it says that the client is gone. *)
Fixpoint handle_lines (h : H) (ls : list (list Z)) : H * Z :=
  match ls with
  | [] => (h, 0)
  | l :: ls => let '(h, rc) := handler h l in if rc <? 0 then (h, -1) else handle_lines h ls
  end.

Lemma split_lines_app cur s t :
  split_lines cur (s ++ t) = ((split_lines cur s).1 ++ (split_lines (split_lines cur s).2 t).1,
                              (split_lines (split_lines cur s).2 t).2).
Proof.
  revert cur. induction s as [|c s IH]; intros cur; cbn [app split_lines]; [cbn; by destruct (split_lines cur t)|].
  destruct (is_eol c); [|apply IH]. rewrite IH. destruct (split_lines [] s) as [ls r]. cbn.
  by case_bool_decide.
Qed.

Lemma handle_lines_app h l1 l2 :
  handle_lines h (l1 ++ l2) = let '(h, rc) := handle_lines h l1 in if rc <? 0 then (h, -1) else handle_lines h l2.
Proof.
  revert h. induction l1 as [|l l1 IH]; intros h; cbn [app handle_lines]; [done|].
  destruct (handler h l) as [h' rc]. destruct (rc <? 0); [done|apply IH].
Qed.

Lemma handle_lines_rc h ls : (handle_lines h ls).2 = 0 \/ (handle_lines h ls).2 = -1.
Proof.
  revert h. induction ls as [|l ls IH]; intros h; cbn [handle_lines]; [by left|].
  destruct (handler h l) as [h' rc]. destruct (rc <? 0); [by right|apply IH].
Qed.

Definition no_eol (s : list Z) : Prop := Forall (fun c => is_eol c = false) s.

Lemma split_lines_rest cur s : no_eol cur -> no_eol (split_lines cur s).2.
Proof.
  revert cur. induction s as [|c s IH]; intros cur Hc; cbn [split_lines]; [done|]. destruct (is_eol c) eqn:E.
  - specialize (IH [] (List.Forall_nil _)). by destruct (split_lines [] s).
  - apply IH. apply Forall_app. by split; [|constructor].
Qed.

Lemma split_lines_eol s t : Forall (fun c => is_eol c = true) s -> split_lines [] (s ++ t) = split_lines [] t.
Proof. induction 1 as [|c s Hc _ IH]; [done|]. cbn. rewrite Hc, IH. by destruct (split_lines [] t). Qed.

Lemma split_lines_no_eol cur s : no_eol s -> split_lines cur s = ([], cur ++ s).
Proof.
  revert cur. induction s as [|c s IH]; intros cur Hs; cbn; [by rewrite app_nil_r|].
  apply Forall_cons_1 in Hs as [-> Hs]. rewrite IH by done. by rewrite <- app_assoc.
Qed.

Lemma skip_eol_spec n pre s junk :
  (length s < n)%nat ->
  exists e t, s = e ++ t /\ Forall (fun c => is_eol c = true) e /\ (t = [] \/ exists c u, t = c :: u /\ is_eol c = false) /\
    skip_eol n (pre ++ s ++ junk) (zlen pre + zlen s) (zlen pre) = Some (zlen pre + zlen e).
Proof.
  revert pre s. induction n as [|n IH]; intros pre s Hn; [lia|]. cbn [skip_eol]. destruct s as [|c s].
  - exists [], []. rewrite zlen_nil, !Z.add_0_r, Z.ltb_irrefl. split; [done|]. split; [constructor|]. split; [by left|done].
  - cbn [app]. rewrite zlen_cons. pose proof (zlen_nonneg s). destruct (Z.ltb_spec (zlen pre) (zlen pre + (1 + zlen s))); [|lia].
    rewrite rd_mid. cbn [mbind option_bind]. destruct (is_eol c) eqn:E.
    + destruct (IH (pre ++ [c]) s) as (e & t & -> & He & Ht & Hsk); [cbn in Hn; lia|].
      exists (c :: e), t. split; [done|]. split; [by constructor|]. split; [done|].
      rewrite <- !app_assoc in Hsk. cbn [app] in Hsk. rewrite !zlen_app in *. change (zlen [c]) with 1 in Hsk. rewrite zlen_cons.
      replace (zlen pre + (1 + (zlen e + zlen t))) with (zlen pre + 1 + (zlen e + zlen t)) by lia. rewrite <- (app_assoc e t junk), Hsk. f_equal. lia.
    + exists [], (c :: s). rewrite zlen_nil, Z.add_0_r. split; [done|]. split; [constructor|]. split; [right; by exists c, s|done].
Qed.

(** The loop from the character [i] on: [done_] is what lies behind, [cur] the line
    so far, [s] the rest of the data. *)
Lemma deframe_spec n done_ cur s junk h :
  no_eol cur -> (length s < n)%nat ->
  let '(ls, r) := split_lines cur s in
  let '(h', rc) := handle_lines h ls in
  deframe n (done_ ++ cur ++ s ++ junk) (zlen done_ + zlen cur + zlen s) (zlen done_ + zlen cur) (zlen done_) h =
    Some (h', if rc <? 0 then -1 else zlen done_ + zlen cur + zlen s - zlen r).
Proof.
  revert done_ cur s h. induction n as [|n IH]; intros done_ cur s h Hcur Hn; [lia|]. cbn [deframe].
  destruct s as [|c s]; cbn [split_lines].
  { cbn [handle_lines]. rewrite zlen_nil, !Z.add_0_r, Z.ltb_irrefl. do 2 f_equal. cbn. lia. }
  cbn [length] in Hn. rewrite zlen_cons. pose proof (zlen_nonneg s).
  destruct (Z.ltb_spec (zlen done_ + zlen cur) (zlen done_ + zlen cur + (1 + zlen s))); [|lia].
  rewrite app_assoc, <- zlen_app. cbn [app]. rewrite rd_mid. cbn [mbind option_bind]. destruct (is_eol c) eqn:E.
  - replace (zlen (done_ ++ cur) - zlen done_) with (zlen cur) by (rewrite zlen_app; lia).
    assert (forall x, (let '(ls, r) := split_lines [] s in let '(h', rc) := handle_lines x ls in
      (j ← skip_eol n ((done_ ++ cur) ++ c :: s ++ junk) (zlen (done_ ++ cur) + (1 + zlen s)) (zlen (done_ ++ cur) + 1);
       deframe n ((done_ ++ cur) ++ c :: s ++ junk) (zlen (done_ ++ cur) + (1 + zlen s)) (j + 1) j x) =
      Some (h', if rc <? 0 then -1 else zlen (done_ ++ cur) + (1 + zlen s) - zlen r))) as Hnext.
    { intros x. destruct (skip_eol_spec n (done_ ++ cur ++ [c]) s junk) as (e & t & -> & He & Ht & Hsk); [lia|].
      rewrite split_lines_eol by done. rewrite <- !app_assoc in Hsk |- *. cbn [app] in Hsk |- *. rewrite !zlen_app in *.
      change (zlen [c]) with 1 in Hsk. rewrite !Z.add_assoc in *. rewrite <- (app_assoc e t junk) in Hsk.
      destruct (split_lines [] t) as [ls r] eqn:Est. destruct (handle_lines x ls) as [h' rc] eqn:Ehl. rewrite Hsk. cbn [mbind option_bind].
      rewrite length_app in Hn. destruct Ht as [->|(c' & u & -> & Ec')].
      - injection Est as <- <-. injection Ehl as <- <-. change (0 <? 0) with false. cbv iota. rewrite zlen_nil, !Z.add_0_r, Z.sub_0_r.
        destruct n as [|n]; [lia|]. cbn [deframe]. destruct (Z.ltb_spec (zlen done_ + zlen cur + 1 + zlen e + 1) (zlen done_ + zlen cur + 1 + zlen e)); [lia|]. done.
      - cbn [length] in Hn. specialize (IH (done_ ++ cur ++ c :: e) [c'] u x ltac:(by constructor) ltac:(lia)).
        cbn [split_lines app] in Est. rewrite Ec' in Est. rewrite Est, Ehl in IH.
        rewrite !zlen_app, !zlen_cons, zlen_nil, Z.add_0_r in IH. rewrite <- !app_assoc in IH. cbn [app] in IH.
        rewrite zlen_cons. rewrite !Z.add_assoc in *. exact IH. }
    destruct (Z.gtb_spec (zlen cur) 0) as [Hc|Hc].
    + rewrite bool_decide_eq_false_2 by (intros E0; apply (f_equal zlen) in E0; change (zlen cur = 0) in E0; lia). destruct (split_lines [] s) as [ls r] eqn:Es. cbn [handle_lines].
      rewrite <- app_assoc, rd_range_mid. cbn [mbind option_bind]. destruct (handler h cur) as [h1 rc1].
      destruct (rc1 <? 0); [done|]. rewrite app_assoc. apply Hnext.
    + assert (cur = []) as -> by (destruct cur; [done|]; rewrite zlen_cons in Hc; pose proof (zlen_nonneg cur); lia).
      rewrite bool_decide_eq_true_2 by done. destruct (split_lines [] s) as [ls r] eqn:Es. cbn [mbind option_bind].
      change (0 <? 0) with false. cbv iota. apply Hnext.
  - specialize (IH done_ (cur ++ [c]) s h). destruct (split_lines (cur ++ [c]) s) as [ls r]. destruct (handle_lines h ls) as [h' rc].
    rewrite zlen_app in IH |- *. change (zlen [c]) with 1 in IH. rewrite <- !app_assoc in IH |- *. cbn [app] in IH |- *. rewrite !Z.add_assoc in *.
    apply IH; [|lia]. apply Forall_app. by split; [|constructor].
Qed.

(** The input buffer holds [rest], the start of a line. *)
Definition holds (c : conn) (rest : list Z) : Prop :=
  exists junk, c.(co_ibuf) = rest ++ junk /\ c.(co_ibuf_end) = zlen rest /\ no_eol rest /\ zlen rest < ibuf_size c.

Lemma split_resume rest d : no_eol rest -> split_lines [] (rest ++ d) = split_lines rest d.
Proof. intros Hr. rewrite split_lines_app, split_lines_no_eol by done. cbn. by destruct (split_lines rest d). Qed.

Lemma split_suffix cur s : exists pre, cur ++ s = pre ++ (split_lines cur s).2.
Proof.
  revert cur. induction s as [|c s IH]; intros cur; cbn [split_lines]; [by exists []; rewrite app_nil_r|].
  destruct (is_eol c).
  - destruct (IH []) as [pre Hp]. exists (cur ++ c :: pre). destruct (split_lines [] s). cbn in Hp |- *.
    rewrite <- app_assoc. cbn [app]. by rewrite <- Hp.
  - destruct (IH (cur ++ [c])) as [pre Hp]. exists pre. by rewrite <- Hp, <- app_assoc.
Qed.

Lemma deframe_buffer rest d junk h :
  no_eol rest ->
  deframe (Z.to_nat (zlen rest + zlen d) + 1) (rest ++ d ++ junk) (zlen rest + zlen d) 0 0 h =
    let '(ls, r) := split_lines rest d in
    let '(h', rc) := handle_lines h ls in Some (h', if rc <? 0 then -1 else zlen rest + zlen d - zlen r).
Proof.
  intros Hr. pose proof (deframe_spec (Z.to_nat (zlen rest + zlen d) + 1) [] [] (rest ++ d) junk h (List.Forall_nil _)) as Hf.
  rewrite split_resume in Hf by done. change (zlen (@nil Z)) with 0 in Hf. cbn [app] in Hf.
  rewrite !Z.add_0_l, zlen_app, <- app_assoc in Hf. destruct (split_lines rest d) as [ls r]. destruct (handle_lines h ls) as [h' rc].
  apply Hf. rewrite length_app. unfold zlen. lia.
Qed.

Lemma postread_spec c rest d junk h :
  no_eol rest -> 0 < zlen junk -> c.(co_ibuf) = rest ++ d ++ junk -> c.(co_ibuf_end) = zlen rest ->
  exists c', client_postread c (zlen d) h =
      Some (c', (handle_lines h (split_lines rest d).1).1, (handle_lines h (split_lines rest d).1).2) /\
    c'.(co_closed) = c.(co_closed) /\ ibuf_size c' = ibuf_size c /\
    ((handle_lines h (split_lines rest d).1).2 = 0 -> holds c' (split_lines rest d).2).
Proof.
  intros Hr Hj Hi He. pose proof (deframe_buffer rest d junk h Hr) as Hf.
  pose proof (split_lines_rest rest d Hr) as Hrest. pose proof (handle_lines_rc h (split_lines rest d).1) as Hrc.
  destruct (split_suffix rest d) as [pre Hpre].
  unfold client_postread, deframe_aprsis_input_lines. cbn [co_ibuf co_ibuf_end set_last_read set_ibuf]. rewrite Hi, He, Hf.
  destruct (split_lines rest d) as [ls r]. cbn [fst snd] in *. destruct (handle_lines h ls) as [h' rc]. cbn [fst snd mbind option_bind] in *.
  assert (zlen rest + zlen d = zlen pre + zlen r) as Hz by (rewrite <- !zlen_app; by f_equal).
  pose proof (zlen_nonneg pre) as Hpn. pose proof (zlen_nonneg r) as Hrn.
  assert (zlen (rest ++ d ++ junk) = zlen rest + zlen d + zlen junk) as Hsz by (rewrite !zlen_app; lia).
  destruct Hrc as [->| ->].
  2:{ change (-1 <? 0) with true. cbv iota. eexists. split; [reflexivity|]. split; [done|]. split; [unfold ibuf_size; cbn; by rewrite Hi|done]. }
  change (0 <? 0) with false. cbv iota. destruct (Z.eqb_spec (zlen rest + zlen d - zlen r) (-1)); [lia|].
  destruct (Z.geb_spec (zlen rest + zlen d - zlen r) (zlen rest + zlen d)) as [H1|H1].
  { assert (r = []) as -> by (destruct r; [done|]; rewrite zlen_cons in H1; pose proof (zlen_nonneg r); lia).
    eexists. split; [reflexivity|]. split; [done|]. split; [unfold ibuf_size; cbn; by rewrite Hi|]. intros _. exists (rest ++ d ++ junk).
    split; [done|]. split; [done|]. split; [done|]. unfold ibuf_size. cbn. rewrite Hsz. lia. }
  destruct (Z.gtb_spec (zlen rest + zlen d - zlen r) 0) as [H2|H2].
  - replace (zlen rest + zlen d - zlen r) with (zlen pre) by lia. replace (zlen rest + zlen d - zlen pre) with (zlen r) by lia.
    rewrite (app_assoc rest d junk), Hpre, <- app_assoc, rd_range_mid. cbn [mbind option_bind].
    rewrite (blit_at [] (pre ++ r ++ junk) r) by (done || rewrite !zlen_app; lia). cbn [mbind option_bind app].
    eexists. split; [reflexivity|]. split; [done|].
    assert (zlen (r ++ drop (length r) (pre ++ r ++ junk)) = zlen (pre ++ r ++ junk)) as Hs.
    { rewrite !zlen_app. unfold zlen. rewrite length_drop, !length_app. lia. }
    split; [unfold ibuf_size; cbn; rewrite Hi, Hs, (app_assoc rest d junk), Hpre, <- app_assoc; done|].
    intros _. eexists. split; [reflexivity|]. split; [done|]. split; [done|]. unfold ibuf_size. cbn. rewrite Hs, !zlen_app. lia.
  - assert (pre = []) as -> by (destruct pre; [done|]; rewrite zlen_cons in *; pose proof (zlen_nonneg pre); lia).
    cbn [app] in Hpre. eexists. split; [reflexivity|]. split; [done|]. split; [unfold ibuf_size; cbn; by rewrite Hi|].
    intros _. exists junk. cbn [co_ibuf co_ibuf_end set_last_read set_ibuf]. split; [by rewrite (app_assoc rest d junk), Hpre|].
    split; [rewrite <- zlen_app; by rewrite Hpre|]. split; [done|]. unfold ibuf_size. cbn. rewrite Hsz. lia.
Qed.

Lemma readable_spec c rest avail h :
  holds c rest -> zlen rest < ibuf_size c - 1 -> avail <> [] ->
  let d := take (Z.to_nat (ibuf_size c - zlen rest - 1)) avail in
  d <> [] /\ exists c', handle_client_readable c (inl avail) h =
      Some (c', (handle_lines h (split_lines rest d).1).1, (handle_lines h (split_lines rest d).1).2) /\
    c'.(co_closed) = c.(co_closed) /\ ibuf_size c' = ibuf_size c /\
    ((handle_lines h (split_lines rest d).1).2 = 0 -> holds c' (split_lines rest d).2).
Proof.
  intros (junk & Hi & He & Hr & Hlt) Hroom Ha d. pose proof (zlen_nonneg rest).
  assert (zlen junk = ibuf_size c - zlen rest) as Hj by (unfold ibuf_size; rewrite Hi, zlen_app; lia).
  assert (d <> []) as Hd.
  { intros Hd. apply (f_equal length) in Hd. unfold d in Hd. rewrite length_take in Hd. destruct avail; [done|]. cbn [length] in Hd. lia. }
  assert (zlen d <= ibuf_size c - zlen rest - 1) as Hdl by (unfold d; unfold zlen in *; rewrite length_take; lia).
  split; [done|]. unfold handle_client_readable. rewrite He. fold d. rewrite bool_decide_eq_false_2 by done.
  rewrite Hi, (blit_at rest junk d) by (done || lia). cbn [mbind option_bind].
  destruct (postread_spec (set_ibuf ((rest ++ d) ++ drop (length d) junk) (zlen rest) c) rest d (drop (length d) junk) h)
    as (c' & E & H1 & H2 & H3); [done| |cbn; by rewrite <- app_assoc|done|].
  { unfold zlen in *. rewrite length_drop. lia. }
  exists c'. split; [exact E|]. split; [exact H1|]. split; [|exact H3]. rewrite H2. unfold ibuf_size. cbn.
  rewrite Hi, !zlen_app. unfold zlen in *. rewrite length_drop. lia.
Qed.

(** The socket becomes readable again and again while there is data: the n-th time
    with so many bytes and one more, of which those that fit are read. *)
Fixpoint read_events (ns : list nat) (s : list Z) (c : conn) (h : H) : option (conn * H * Z * list Z) :=
  match ns with
  | [] => Some (c, h, 0, s)
  | n :: ns =>
      if bool_decide (s = []) then Some (c, h, 0, s)
      else
        let s' := drop (Nat.min (Z.to_nat (ibuf_size c - c.(co_ibuf_end) - 1)) (S n)) s in
        '(c, h, rc) ← handle_client_readable c (inl (take (S n) s)) h;
        if rc <? 0 then Some (c, h, rc, s') else read_events ns s' c h
  end.

(** All lines of the stream that begins with [rest] are shorter than [m]. *)
Definition short (m : Z) (rest s : list Z) : Prop :=
  Forall (fun l => zlen l < m) ((split_lines rest s).1 ++ [(split_lines rest s).2]).

Lemma short_rest m rest s : 0 < m -> short m rest s -> zlen rest < m.
Proof.
  intros Hm. unfold short. revert rest. induction s as [|c s IH]; intros rest; cbn [split_lines].
  - cbn. intros Hf. by apply Forall_cons_1 in Hf as [Hf _].
  - destruct (is_eol c).
    + destruct (split_lines [] s) as [ls r]. cbn [fst snd]. case_bool_decide as E.
      * intros _. rewrite E. exact Hm.
      * intros Hf. by apply Forall_cons_1 in Hf as [Hf _].
    + intros Hf. apply IH in Hf. rewrite zlen_app in Hf. change (zlen [c]) with 1 in Hf. lia.
Qed.

Lemma short_app m rest d s : short m rest (d ++ s) -> short m (split_lines rest d).2 s.
Proof. unfold short. rewrite split_lines_app. cbn [fst snd]. rewrite <- app_assoc. intros Hf. by apply Forall_app in Hf as [_ Hf]. Qed.

Lemma read_events_spec ns : forall rest s c h,
  holds c rest -> 1 < ibuf_size c -> short (ibuf_size c - 1) rest s ->
  exists c' k, read_events ns s c h = Some (c', (handle_lines h (split_lines rest (take k s)).1).1,
                                           (handle_lines h (split_lines rest (take k s)).1).2, drop k s) /\
    c'.(co_closed) = c.(co_closed) /\
    ((handle_lines h (split_lines rest (take k s)).1).2 = 0 ->
       holds c' (split_lines rest (take k s)).2 /\ (min (length ns) (length s) <= k)%nat).
Proof.
  induction ns as [|n ns IH]; intros rest s c h Hh Hsz Hshort; cbn [read_events].
  { exists c, 0%nat. rewrite drop_0. cbn. done. }
  case_bool_decide as Es.
  { subst s. exists c, 0%nat. cbn. split; [done|]. split; [done|]. intros _. split; [done|lia]. }
  pose proof (short_rest (ibuf_size c - 1) rest s ltac:(lia) Hshort) as Hroom.
  destruct (readable_spec c rest (take (S n) s) h Hh Hroom) as (Hd & c1 & E1 & Hc1 & Hs1 & Hh1); [by destruct s|].
  destruct Hh as (junk & _ & He & _ & _). rewrite He. rewrite E1. cbn [mbind option_bind].
  set (m := Nat.min (Z.to_nat (ibuf_size c - zlen rest - 1)) (S n)). rewrite take_take in Hd, E1, Hh1 |- *. fold m in Hd, E1, Hh1 |- *.
  destruct (handle_lines_rc h (split_lines rest (take m s)).1) as [Hrc|Hrc]; rewrite Hrc.
  - change (0 <? 0) with false. cbv iota.
    destruct (IH (split_lines rest (take m s)).2 (drop m s) c1 (handle_lines h (split_lines rest (take m s)).1).1)
      as (c2 & k & E2 & Hc2 & Hh2); [by apply Hh1|lia|rewrite Hs1; apply short_app; by rewrite take_drop|].
    exists c2, (m + k)%nat. rewrite <- take_take_drop, split_lines_app. cbn [fst snd]. rewrite handle_lines_app.
    destruct (handle_lines h (split_lines rest (take m s)).1) as [h1 rc1]. cbn [fst snd] in *. subst rc1.
    change (0 <? 0) with false. cbv iota. rewrite E2, drop_drop. split; [done|]. split; [congruence|].
    intros Hz. destruct (Hh2 Hz) as [H3 H4]. split; [done|]. rewrite length_drop in H4.
    assert (1 <= m)%nat by (destruct m; [done|lia]). cbn [length]. lia.
  - change (-1 <? 0) with true. cbv iota. exists c1, m. rewrite Hrc. split; [done|]. split; [done|]. intros ?; discriminate.
Qed.
End Input.

(** C28: The lines of a client do not depend on how its data arrives: whatever the
    sizes of the pieces in which the socket hands over a stream, as long as every
    line fits the input buffer, the line handler gets exactly the complete lines of
    the part that was read, without their line ends and without empty lines, in
    order, until it says that the client is gone; the start of the last line waits in
    the buffer, and every event reads something. *)
Theorem lines_from_chunks {H : Type} (handler : H -> list Z -> H * Z) tick (ns : list nat) (s : list Z) (c : conn) (h : H) :
  holds c [] -> 1 < ibuf_size c -> short (ibuf_size c - 1) [] s ->
  exists c' k, read_events handler tick ns s c h =
      Some (c', (handle_lines handler h (split_lines [] (take k s)).1).1,
            (handle_lines handler h (split_lines [] (take k s)).1).2, drop k s) /\
    c'.(co_closed) = c.(co_closed) /\
    ((handle_lines handler h (split_lines [] (take k s)).1).2 = 0 ->
       holds c' (split_lines [] (take k s)).2 /\ (min (length ns) (length s) <= k)%nat).
Proof. apply read_events_spec. Qed.

(** What happens on the output side of a connection. *)
Inductive io_op : Set := Write (p : list Z) | Writable.

Definition io_text (op : io_op) : list Z := match op with Write p => p | Writable => [] end.

Definition io_exec (socket : nat -> answer) (tick : Z) (fuel : nat) (op : io_op) (c : conn) : option conn :=
  match op with
  | Write p => '(c, _) ← tcp_client_write socket tick fuel c p; Some c
  | Writable => Some (handle_writable_event socket c).1
  end.

(** The operations on a connection until it is closed, with what was written. *)
Fixpoint io_run (socket : nat -> answer) (tick : Z) (fuel : nat) (ops : list io_op) (c : conn) (written : list Z)
    : option (conn * list Z) :=
  match ops with
  | [] => Some (c, written)
  | op :: ops =>
      c ← io_exec socket tick fuel op c;
      if is_closed c then Some (c, written ++ io_text op) else io_run socket tick fuel ops c (written ++ io_text op)
  end.

Lemma io_run_spec socket tick interrupts ops : forall c w,
  (forall k, exists j, (j <= interrupts)%nat /\ socket (k + j)%nat <> Fails EINTR) ->
  c.(co_closed) = None -> streamed c w ->
  exists c' w', io_run socket tick (interrupts + 1) ops c w = Some (c', w') /\ streamed c' w' /\
    (c'.(co_closed) = None -> w' = w ++ concat (map io_text ops)) /\
    (forall why, c'.(co_closed) = Some why ->
       why = CLIERR_OUTPUT_BUFFER_FULL \/ exists e, why = Errno e /\ e <> EINTR /\ e <> EAGAIN).
Proof.
  induction ops as [|op ops IH]; intros c w Hl Ho Hs; cbn [io_run].
  { exists c, w. rewrite app_nil_r. split; [done|]. split; [done|]. split; [done|]. rewrite Ho. discriminate. }
  assert (exists c1, io_exec socket tick (interrupts + 1) op c = Some c1 /\ streamed c1 (w ++ io_text op) /\
    broke c c1 (io_text op)) as (c1 & E & Hs1 & Hb).
  { destruct op as [p|]; cbn [io_exec io_text].
    - destruct (tcp_write_spec socket tick interrupts Hl c w p Ho Hs) as (c1 & rc & E & H1 & H2 & _). rewrite E. by exists c1.
    - destruct (writable_spec socket tick c w Ho Hs) as (H1 & H2 & _). rewrite app_nil_r. by eexists. }
  rewrite E. cbn [mbind option_bind]. unfold is_closed, broke in *. destruct (co_closed c1) as [why|] eqn:Ec.
  - exists c1, (w ++ io_text op). split; [done|]. split; [done|]. rewrite Ec. split; [discriminate|].
    intros why' E'. injection E' as <-. destruct why; try done; [|by left]. right. by exists e.
  - destruct (IH c1 (w ++ io_text op) Hl Ec Hs1) as (c' & w' & E' & H1 & H2 & H3). exists c', w'. split; [done|]. split; [done|].
    split; [|done]. intros Hc. rewrite (H2 Hc). cbn [map concat]. by rewrite <- app_assoc.
Qed.

(** C27: The output side of a TCP connection is a queue: over any sequence of writes,
    flushes and writable sockets, the bytes the socket took followed by those in the
    output buffer are exactly the texts that were written, in order; nothing is
    written outside of the buffer.  The connection is closed only for an
    error of the socket or because the buffer is full, and then the socket got a
    prefix of the texts.  A socket that takes all that waits empties the buffer. *)
Theorem client_write_queue socket tick interrupts ops (c : conn) (w : list Z) :
  (forall k, exists j, (j <= interrupts)%nat /\ socket (k + j)%nat <> Fails EINTR) ->
  c.(co_closed) = None -> streamed c w ->
  exists c' w', io_run socket tick (interrupts + 1) ops c w = Some (c', w') /\ streamed c' w' /\
    (c'.(co_closed) = None -> w' = w ++ concat (map io_text ops)) /\
    (forall why, c'.(co_closed) = Some why ->
       why = CLIERR_OUTPUT_BUFFER_FULL \/ exists e, why = Errno e /\ e <> EINTR /\ e <> EAGAIN) /\
    (c'.(co_closed) = None -> forall n, socket c'.(co_calls) = Takes n -> (length (pending c') <= n)%nat ->
       pending (handle_writable_event socket c').1 = []).
Proof.
  intros Hl Ho Hs. destruct (io_run_spec socket tick interrupts ops c w Hl Ho Hs) as (c' & w' & E & H1 & H2 & H3).
  exists c', w'. split; [done|]. split; [done|]. split; [done|]. split; [done|]. intros Ho' n Hn Hle.
  destruct (writable_spec socket tick c' w' Ho' H1) as (_ & _ & H4). by apply (H4 n).
Qed.

(** A new connection. *)
Definition demo_conn (flushsize : Z) : conn :=
  mk_conn (repeat 0 64) 0 (repeat 0 64) 0 0 flushsize 0 0 0 false false None 0 [] [].

(** A socket that takes four bytes at a time and is full every other time. *)
Definition demo_socket (n : nat) : answer := if Nat.even n then Takes 4 else Fails EAGAIN.

Lemma demo_conn_streamed n : streamed (demo_conn n) [].
Proof. split; [split; vm_compute; intuition discriminate|split; reflexivity]. Qed.

Lemma client_write_queue_witness :
  exists c' w', io_run demo_socket 7 1 [Write (str "# hello"); Write (str "abc"); Writable] (demo_conn 5) [] = Some (c', w') /\
    w' = str "# helloabc" /\ c'.(co_sent) = str "# helloa" /\ pending c' = str "bc".
Proof.
  destruct (client_write_queue demo_socket 7 0 [Write (str "# hello"); Write (str "abc"); Writable] (demo_conn 5) [])
    as (c' & w' & E & H1 & H2 & _).
  - intros k. exists 0%nat. split; [lia|]. unfold demo_socket. by destruct (Nat.even _).
  - reflexivity.
  - apply demo_conn_streamed.
  - exists c', w'. split; [exact E|]. vm_compute in E. injection E as <- <-. split; [|split]; reflexivity.
Defined.

(** A handler that keeps the lines it gets. *)
Definition demo_keep (h : list (list Z)) (l : list Z) : list (list Z) * Z := (h ++ [l], 0).

Lemma demo_keep_rc h ls : (handle_lines demo_keep h ls).2 = 0.
Proof. revert h. induction ls as [|l ls IH]; intros h; [done|]. apply IH. Qed.

Definition demo_stream : list Z := str "ab" ++ [13; 10] ++ str "cd" ++ [10] ++ str "e".

Lemma lines_from_chunks_witness :
  exists c' k, read_events demo_keep 7 [2; 1; 9]%nat demo_stream (demo_conn 0) [] =
      Some (c', (handle_lines demo_keep [] (split_lines [] (take k demo_stream)).1).1, 0, drop k demo_stream) /\
    holds c' (split_lines [] (take k demo_stream)).2 /\ (3 <= k)%nat.
Proof.
  destruct (lines_from_chunks demo_keep 7 [2; 1; 9]%nat demo_stream (demo_conn 0) []) as (c' & k & E & _ & Hh).
  - exists (repeat 0 64). split; [reflexivity|]. split; [reflexivity|]. split; [constructor|reflexivity].
  - reflexivity.
  - repeat (apply List.Forall_cons; [reflexivity|]). apply List.Forall_nil.
  - rewrite demo_keep_rc in E, Hh. exists c', k. split; [exact E|]. exact (Hh eq_refl).
Defined.

Example lines_arrive :
  match read_events demo_keep 7 [2; 1; 9]%nat demo_stream (demo_conn 0) [] with
  | Some (_, lines, rc, unread) => lines = [str "ab"; str "cd"] /\ rc = 0 /\ unread = []
  | None => False
  end.
Proof. vm_compute. done. Qed.
