(* ===== verification/Accounting.v ===== *)
(** * worker.c: the accounts of clients, ports and protocols

    A client has an account of its own, shares one with the other clients of its port, and
    one with all clients of its transport protocol.  What is received and sent is
    counted on each of them, dropped packets by their reason.  The counters have 64 bits
    and are numbers here.  When a client is closed, its reasons are put together in a
    line of the log. *)

From S2P Require Import Prelude Types ParseQc ParseAprs Incoming.
From Stdlib Require Import ZArith Lia Bool String.
From stdpp Require Import base tactics list gmap numbers.
Open Scope Z_scope.

(** ** Accounts *)

Definition INERR_BUCKETS : Z := - INERR_MIN + 1.

Record portaccount_t := mk_portaccount {
  pa_counter : Z;
  pa_gauge : Z;
  pa_gauge_max : Z;
  pa_rxbytes : Z;
  pa_txbytes : Z;
  pa_rxpackets : Z;
  pa_txpackets : Z;
  pa_rxdrops : Z;
  pa_rxdupes : Z;
  pa_rxerrs : list Z;
  pa_refcount : Z
}.

(** [memset] and the references it starts with. *)
Definition account_zero (refcount : Z) : portaccount_t :=
  mk_portaccount 0 0 0 0 0 0 0 0 0 (repeat 0 (Z.to_nat INERR_BUCKETS)) refcount.

Definition port_accounter_alloc : portaccount_t := account_zero 1.

Definition set_pa_use (counter gauge gauge_max refcount : Z) (p : portaccount_t) : portaccount_t :=
  mk_portaccount counter gauge gauge_max p.(pa_rxbytes) p.(pa_txbytes) p.(pa_rxpackets) p.(pa_txpackets) p.(pa_rxdrops)
    p.(pa_rxdupes) p.(pa_rxerrs) refcount.

Definition port_accounter_reject (p : portaccount_t) : portaccount_t :=
  set_pa_use (p.(pa_counter) + 1) p.(pa_gauge) p.(pa_gauge_max) p.(pa_refcount) p.

Definition port_accounter_add (p : portaccount_t) : portaccount_t :=
  let gauge := p.(pa_gauge) + 1 in
  set_pa_use (p.(pa_counter) + 1) gauge (Z.max p.(pa_gauge_max) gauge) (p.(pa_refcount) + 1) p.

(** [None] when the last reference is gone and the account is freed. *)
Definition port_accounter_drop (p : portaccount_t) : option portaccount_t :=
  if p.(pa_refcount) - 1 =? 0 then None
  else Some (set_pa_use p.(pa_counter) (p.(pa_gauge) - 1) p.(pa_gauge_max) (p.(pa_refcount) - 1) p).

(** The accounts of all ports by address, and the global ones. *)
Record accounts := mk_accounts {
  ac_ports : gmap Z portaccount_t;
  ac_inbound : portaccount_t;
  ac_tcp : portaccount_t;
  ac_udp : portaccount_t
}.

Definition set_ac_ports (m : gmap Z portaccount_t) (a : accounts) : accounts :=
  mk_accounts m a.(ac_inbound) a.(ac_tcp) a.(ac_udp).
Definition set_ac_inbound (p : portaccount_t) (a : accounts) : accounts :=
  mk_accounts a.(ac_ports) p a.(ac_tcp) a.(ac_udp).

(** Connects that are counted ([add]: -1 rejected, 0 dropped, 1 added, 2 and 3 dropped
    and added for UDP); an account that was freed is not to be used. *)
Definition inbound_connects_account (add : Z) (p : option Z) (a : accounts) : option accounts :=
  let i := a.(ac_inbound) in
  let a :=
    if add <? 2 then
      set_ac_inbound
        (if add =? -1 then port_accounter_reject i
         else if negb (add =? 0) then
           let gauge := i.(pa_gauge) + 1 in set_pa_use (i.(pa_counter) + 1) gauge (Z.max i.(pa_gauge_max) gauge) i.(pa_refcount) i
         else set_pa_use i.(pa_counter) (i.(pa_gauge) - 1) i.(pa_gauge_max) i.(pa_refcount) i) a
    else a in
  match p with
  | None => Some a
  | Some p =>
      pa ← a.(ac_ports) !! p;
      Some (set_ac_ports
              (if add =? -1 then <[p := port_accounter_reject pa]> a.(ac_ports)
               else if Z.odd add then <[p := port_accounter_add pa]> a.(ac_ports)
               else match port_accounter_drop pa with
                    | Some pa => <[p := pa]> a.(ac_ports)
                    | None => delete p a.(ac_ports)
                    end) a)
  end.

(** ** Traffic *)

Definition IPPROTO_TCP : Z := 6.
Definition IPPROTO_UDP : Z := 17.

(** Received bytes and packets, duplicates, and the reason of a drop. *)
Definition count_rx (bytes packets dupes : Z) (drop : option Z) (p : portaccount_t) : option portaccount_t :=
  let p := mk_portaccount p.(pa_counter) p.(pa_gauge) p.(pa_gauge_max) (p.(pa_rxbytes) + bytes) p.(pa_txbytes)
             (p.(pa_rxpackets) + packets) p.(pa_txpackets) p.(pa_rxdrops) (p.(pa_rxdupes) + dupes) p.(pa_rxerrs) p.(pa_refcount) in
  match drop with
  | None => Some p
  | Some i =>
      n ← (if i <? 0 then None else p.(pa_rxerrs) !! Z.to_nat i);
      Some (mk_portaccount p.(pa_counter) p.(pa_gauge) p.(pa_gauge_max) p.(pa_rxbytes) p.(pa_txbytes) p.(pa_rxpackets)
              p.(pa_txpackets) (p.(pa_rxdrops) + 1) p.(pa_rxdupes) (<[Z.to_nat i := n + 1]> p.(pa_rxerrs)) p.(pa_refcount))
  end.

Definition count_tx (bytes packets : Z) (p : portaccount_t) : portaccount_t :=
  mk_portaccount p.(pa_counter) p.(pa_gauge) p.(pa_gauge_max) p.(pa_rxbytes) (p.(pa_txbytes) + bytes) p.(pa_rxpackets)
    (p.(pa_txpackets) + packets) p.(pa_rxdrops) p.(pa_rxdupes) p.(pa_rxerrs) p.(pa_refcount).

(** The accounts of a client: its own, and those of its port and of its UDP socket. *)
Record client_account := mk_client_account {
  ca_local : portaccount_t;
  ca_port : option Z;
  ca_udp : option Z
}.

Definition set_ca_local (p : portaccount_t) (c : client_account) : client_account := mk_client_account p c.(ca_port) c.(ca_udp).

(** The reason as an index: reasons that are not known count as 0. *)
Definition drop_reason (rxerr : Z) : option Z :=
  if rxerr <? 0 then Some (- (if rxerr <? INERR_MIN then INERR_UNKNOWN else rxerr)) else None.

(** The account of the port that a transport protocol is counted on. *)
Definition account_of (l4proto : Z) (c : client_account) : option Z :=
  if (l4proto =? IPPROTO_UDP) && negb (bool_decide (c.(ca_udp) = None)) then c.(ca_udp) else c.(ca_port).

(** [f] on the account of the port, if there is one. *)
Definition on_port (p : option Z) (f : portaccount_t -> option portaccount_t) (a : accounts) : option accounts :=
  match p with
  | None => Some a
  | Some p => pa ← a.(ac_ports) !! p; pa ← f pa; Some (set_ac_ports (<[p := pa]> a.(ac_ports)) a)
  end.

(** [f] on the account of the protocol. *)
Definition on_proto (l4proto : Z) (f : portaccount_t -> option portaccount_t) (a : accounts) : option accounts :=
  if l4proto =? IPPROTO_TCP then p ← f a.(ac_tcp); Some (mk_accounts a.(ac_ports) a.(ac_inbound) p a.(ac_udp))
  else if l4proto =? IPPROTO_UDP then p ← f a.(ac_udp); Some (mk_accounts a.(ac_ports) a.(ac_inbound) a.(ac_tcp) p)
  else Some a.

Definition clientaccount_add_rx (c : client_account) (l4proto rxbytes rxpackets rxerr rxdupes : Z) (a : accounts)
    : option (client_account * accounts) :=
  let drop := drop_reason rxerr in
  local ← count_rx rxbytes rxpackets rxdupes drop c.(ca_local);
  a ← on_port (account_of l4proto c) (count_rx rxbytes rxpackets rxdupes drop) a;
  a ← on_proto l4proto (count_rx rxbytes rxpackets 0 drop) a;
  Some (set_ca_local local c, a).

Definition clientaccount_add_tx (c : client_account) (l4proto txbytes txpackets : Z) (a : accounts)
    : option (client_account * accounts) :=
  a ← on_port (account_of l4proto c) (fun p => Some (count_tx txbytes txpackets p)) a;
  a ← on_proto l4proto (fun p => Some (count_tx txbytes txpackets p)) a;
  Some (set_ca_local (count_tx txbytes txpackets c.(ca_local)) c, a).

(** ** The reasons in the log *)

Definition inerr_labels : list (list Z) := map str [
  "unknown"; "no_colon"; "no_dst"; "no_path"; "inv_srccall"; "no_body"; "inv_dstcall"; "disallow_unverified";
  "disallow_unverified_path"; "path_nogate"; "party_3rd_ip"; "party_3rd_inv"; "general_query"; "aprsc_oom_pbuf";
  "aprsc_class_fail"; "aprsc_q_bug"; "q_drop"; "short_packet"; "long_packet"; "inv_path_call"; "q_qax"; "q_qaz";
  "q_path_mycall"; "q_path_call_twice"; "q_path_login_not_last"; "q_path_call_is_local"; "q_path_call_inv";
  "q_qau_path_call_srccall"; "q_newq_buffer_small"; "q_nonval_multi_q_calls"; "q_i_no_viacall"; "q_disallow_protocol";
  "inerr_empty"; "disallow_srccall"; "disallow_dx"; "disallow_msg_dst"; "disallow_igatecall"]%string.

Definition DROPS_SIZE : Z := 256.

(** [%lld] *)
Fixpoint dec_digits (fuel : nat) (n : Z) : list Z :=
  match fuel with
  | O => []
  | S fuel => (if n <? 10 then [] else dec_digits fuel (n / 10)) ++ [48 + n mod 10]
  end.

Definition dec (n : Z) : list Z := if n <? 0 then ch_dash :: dec_digits 19 (- n) else dec_digits 19 n.

(** The loop of [client_close] that puts the reasons together: [s] is the text in the
    buffer, [p] where the next one is printed.  [p] grows by the length the text would
    have; when the room [256 - p - 2] becomes negative it is a very large
    [size_t], and the text is printed behind the buffer. *)
Fixpoint drops_text (labels : list (list Z)) (errs : list Z) (s : list Z) (p : Z) : option (list Z) :=
  match labels, errs with
  | label :: labels, n :: errs =>
      if n =? 0 then drops_text labels errs s p
      else
        let text := (if p =? 0 then [] else str ", ") ++ label ++ [ch_sp] ++ dec n in
        let size := DROPS_SIZE - p - 2 in
        if size <? 0 then None
        else drops_text labels errs (if size =? 0 then s else s ++ take (Z.to_nat (size - 1)) text) (p + zlen text)
  | _, _ => Some s
  end.

Definition client_drops (p : portaccount_t) : option (list Z) :=
  if p.(pa_rxdrops) =? 0 then Some [] else drops_text inerr_labels p.(pa_rxerrs) [] 0.

(** * The accounts add up *)

Definition sumz (l : list Z) : Z := foldr Z.add 0 l.

(** A counter for every reason, and the drops are their sum. *)
Definition account_ok (p : portaccount_t) : Prop :=
  zlen p.(pa_rxerrs) = INERR_BUCKETS /\ p.(pa_rxdrops) = sumz p.(pa_rxerrs).

Lemma sumz_insert l i x y : l !! i = Some x -> sumz (<[i := y]> l) = sumz l - x + y.
Proof.
  revert i. induction l as [|z l IH]; intros [|i]; try done.
  - intros [= ->]. cbn. lia.
  - intros Hi. change (z + sumz (<[i := y]> l) = z + sumz l - x + y). rewrite (IH i Hi). lia.
Qed.

Lemma account_zero_ok r : account_ok (account_zero r).
Proof. split; reflexivity. Qed.

Lemma drop_reason_range e i : drop_reason e = Some i -> 0 <= i < INERR_BUCKETS.
Proof. unfold drop_reason, INERR_BUCKETS, INERR_UNKNOWN, INERR_MIN. intros H.
  split_if_in H; [|done]. injection H as <-. split_if; lia. Qed.

(** What is counted. *)
Inductive stat : Set := RxBytes | TxBytes | RxPackets | TxPackets | RxDrops.

Definition stat_of (k : stat) (p : portaccount_t) : Z :=
  match k with
  | RxBytes => p.(pa_rxbytes) | TxBytes => p.(pa_txbytes) | RxPackets => p.(pa_rxpackets)
  | TxPackets => p.(pa_txpackets) | RxDrops => p.(pa_rxdrops)
  end.

Definition rx_amount (bytes packets : Z) (drop : option Z) (k : stat) : Z :=
  match k with
  | RxBytes => bytes | RxPackets => packets
  | RxDrops => match drop with Some _ => 1 | None => 0 end
  | _ => 0
  end.

Definition tx_amount (bytes packets : Z) (k : stat) : Z :=
  match k with TxBytes => bytes | TxPackets => packets | _ => 0 end.

(** [f] keeps an account right and adds to it. *)
Definition adds (f : portaccount_t -> option portaccount_t) (amount : stat -> Z) : Prop :=
  forall p, account_ok p -> exists p', f p = Some p' /\ account_ok p' /\
    p'.(pa_refcount) = p.(pa_refcount) /\ forall k, stat_of k p' = stat_of k p + amount k.

Lemma count_rx_adds bytes packets dupes rxerr :
  adds (count_rx bytes packets dupes (drop_reason rxerr)) (rx_amount bytes packets (drop_reason rxerr)).
Proof.
  intros p [Hl Hs]. unfold count_rx. destruct (drop_reason rxerr) as [i|] eqn:E.
  - apply drop_reason_range in E as [H0 H1]. rewrite (proj2 (Z.ltb_ge i 0)) by lia.
    cbn [pa_rxerrs]. destruct (lookup_lt_is_Some_2 (pa_rxerrs p) (Z.to_nat i)) as [n Hn]; [unfold zlen in Hl; lia|].
    rewrite Hn. cbn [mbind option_bind]. eexists. split; [done|]. split; [|split; [done|]].
    + split; cbn [pa_rxerrs pa_rxdrops]; [unfold zlen in *; by rewrite length_insert|].
      rewrite (sumz_insert _ _ n) by done. lia.
    + intros []; cbn; lia.
  - eexists. split; [done|]. split; [by split|]. split; [done|]. intros []; cbn; lia.
Qed.

Lemma count_tx_adds bytes packets : adds (fun p => Some (count_tx bytes packets p)) (tx_amount bytes packets).
Proof. intros p [Hl Hs]. eexists. split; [done|]. split; [by split|]. split; [done|]. intros []; cbn; lia. Qed.

(** ** Traffic of many clients *)

Record traffic := mk_traffic { tr_clients : list client_account; tr_accounts : accounts }.

Inductive traffic_event : Set :=
  | Rx (client : nat) (l4proto bytes packets err dupes : Z)
  | Tx (client : nat) (l4proto bytes packets : Z).

Definition traffic_step (t : traffic) (e : traffic_event) : option traffic :=
  match e with
  | Rx i l4proto bytes packets err dupes =>
      c ← t.(tr_clients) !! i;
      '(c, a) ← clientaccount_add_rx c l4proto bytes packets err dupes t.(tr_accounts);
      Some (mk_traffic (<[i := c]> t.(tr_clients)) a)
  | Tx i l4proto bytes packets =>
      c ← t.(tr_clients) !! i;
      '(c, a) ← clientaccount_add_tx c l4proto bytes packets t.(tr_accounts);
      Some (mk_traffic (<[i := c]> t.(tr_clients)) a)
  end.

Fixpoint traffic_run (t : traffic) (es : list traffic_event) : option traffic :=
  match es with [] => Some t | e :: es => t ← traffic_step t e; traffic_run t es end.

(** An event of a known client, over TCP or UDP. *)
Definition event_ok (n : nat) (e : traffic_event) : Prop :=
  match e with
  | Rx i l4proto _ _ _ _ | Tx i l4proto _ _ => (i < n)%nat /\ (l4proto = IPPROTO_TCP \/ l4proto = IPPROTO_UDP)
  end.

(** All accounts are right, the clients' ports exist, and every amount the
    clients have is on one of the protocols. *)
Record traffic_ok (t : traffic) : Prop := {
  to_clients : Forall (fun c => account_ok c.(ca_local)) t.(tr_clients);
  to_ports : map_Forall (fun _ p => account_ok p) t.(tr_accounts).(ac_ports);
  to_tcp : account_ok t.(tr_accounts).(ac_tcp);
  to_udp : account_ok t.(tr_accounts).(ac_udp);
  to_known : Forall (fun c => forall p, c.(ca_port) = Some p \/ c.(ca_udp) = Some p -> is_Some (t.(tr_accounts).(ac_ports) !! p))
               t.(tr_clients);
  to_sum : forall k, sumz (map (fun c => stat_of k c.(ca_local)) t.(tr_clients)) =
           stat_of k t.(tr_accounts).(ac_tcp) + stat_of k t.(tr_accounts).(ac_udp)
}.

Lemma on_port_adds p f amount a :
  adds f amount -> map_Forall (fun _ p => account_ok p) a.(ac_ports) -> (forall q, p = Some q -> is_Some (a.(ac_ports) !! q)) ->
  exists a', on_port p f a = Some a' /\ map_Forall (fun _ p => account_ok p) a'.(ac_ports) /\
    (forall q, is_Some (a'.(ac_ports) !! q) <-> is_Some (a.(ac_ports) !! q)) /\
    a'.(ac_tcp) = a.(ac_tcp) /\ a'.(ac_udp) = a.(ac_udp).
Proof.
  intros Hf Ha Hp. destruct p as [p|]; cbn [on_port]; [|by eexists].
  destruct (Hp p eq_refl) as [pa Hpa]. rewrite Hpa. cbn [mbind option_bind].
  destruct (Hf pa (Ha _ _ Hpa)) as (pa' & -> & Hok & _). cbn [mbind option_bind]. eexists. split; [done|].
  cbn [ac_ports ac_tcp ac_udp set_ac_ports]. split; [by apply map_Forall_insert_2|]. split; [|done].
  intros q. destruct (decide (p = q)) as [<-|Hne]; [rewrite lookup_insert_eq, Hpa; by split; eexists|by rewrite lookup_insert_ne].
Qed.

Lemma on_proto_adds l4proto f amount a :
  adds f amount -> l4proto = IPPROTO_TCP \/ l4proto = IPPROTO_UDP -> account_ok a.(ac_tcp) -> account_ok a.(ac_udp) ->
  exists a', on_proto l4proto f a = Some a' /\ a'.(ac_ports) = a.(ac_ports) /\ account_ok a'.(ac_tcp) /\ account_ok a'.(ac_udp) /\
    forall k, stat_of k a'.(ac_tcp) + stat_of k a'.(ac_udp) = stat_of k a.(ac_tcp) + stat_of k a.(ac_udp) + amount k.
Proof.
  intros Hf [->| ->] Ht Hu; unfold on_proto.
  - change (IPPROTO_TCP =? IPPROTO_TCP) with true. destruct (Hf _ Ht) as (p & -> & Hp & _ & Hk). cbn [mbind option_bind].
    eexists. split; [done|]. do 3 (split; [done|]). intros k. cbn. rewrite Hk. lia.
  - change (IPPROTO_UDP =? IPPROTO_TCP) with false. change (IPPROTO_UDP =? IPPROTO_UDP) with true.
    destruct (Hf _ Hu) as (p & -> & Hp & _ & Hk). cbn [mbind option_bind].
    eexists. split; [done|]. do 3 (split; [done|]). intros k. cbn. rewrite Hk. lia.
Qed.

(** One event, whatever it is that is counted. *)
Lemma traffic_add t i c c' l4proto f g amount :
  traffic_ok t -> t.(tr_clients) !! i = Some c -> l4proto = IPPROTO_TCP \/ l4proto = IPPROTO_UDP ->
  adds f amount -> adds g amount ->
  c'.(ca_port) = c.(ca_port) -> c'.(ca_udp) = c.(ca_udp) -> account_ok c'.(ca_local) ->
  (forall k, stat_of k c'.(ca_local) = stat_of k c.(ca_local) + amount k) ->
  exists a1 a2, on_port (account_of l4proto c) f t.(tr_accounts) = Some a1 /\ on_proto l4proto g a1 = Some a2 /\
    traffic_ok (mk_traffic (<[i := c']> t.(tr_clients)) a2).
Proof.
  intros [T1 T2 T3 T4 T5 T6] Hi Hp Hf Hg Hport Hudp Hok Hk.
  assert (forall p, ca_port c = Some p \/ ca_udp c = Some p -> is_Some (ac_ports (tr_accounts t) !! p)) as Hkn
    by (by apply (Forall_lookup_1 _ _ _ _ T5 Hi)).
  destruct (on_port_adds (account_of l4proto c) f amount (tr_accounts t) Hf T2) as (a1 & E1 & P1 & P2 & P3 & P4).
  { intros q Hq. apply Hkn. unfold account_of in Hq. split_if_in Hq; auto. }
  destruct (on_proto_adds l4proto g amount a1 Hg Hp) as (a2 & E2 & Q1 & Q2 & Q3 & Q4); [by rewrite P3|by rewrite P4|].
  exists a1, a2. split; [done|]. split; [done|]. split; cbn [tr_clients tr_accounts]; try done.
  - by apply Forall_insert.
  - by rewrite Q1.
  - assert (forall c0 : client_account, (forall p, ca_port c0 = Some p \/ ca_udp c0 = Some p -> is_Some (ac_ports (tr_accounts t) !! p)) ->
              forall p, ca_port c0 = Some p \/ ca_udp c0 = Some p -> is_Some (ac_ports a2 !! p)) as Hmono
      by (intros c0 H0 p Hc0; rewrite Q1; by apply P2, H0).
    apply Forall_insert; [by eapply list.Forall_impl; [exact T5|]|]. apply Hmono. by rewrite Hport, Hudp.
  - intros k. rewrite list_fmap_insert. rewrite (sumz_insert _ _ (stat_of k (ca_local c))).
    + rewrite T6, Q4, P3, P4, Hk. lia.
    + by rewrite list_lookup_fmap, Hi.
Qed.

Lemma traffic_step_ok t e :
  traffic_ok t -> event_ok (length t.(tr_clients)) e ->
  exists t', traffic_step t e = Some t' /\ traffic_ok t' /\ length t'.(tr_clients) = length t.(tr_clients).
Proof.
  intros Ht He. destruct e as [i l4 b p e d|i l4 b p]; destruct He as [Hi Hp]; cbn [traffic_step];
    destruct (lookup_lt_is_Some_2 (tr_clients t) i Hi) as [c Hc]; rewrite Hc; cbn [mbind option_bind];
    pose proof (Forall_lookup_1 _ _ _ _ (to_clients _ Ht) Hc) as Hl.
  - unfold clientaccount_add_rx. destruct (count_rx_adds b p d e _ Hl) as (l & -> & L1 & L2 & L3). cbn [mbind option_bind].
    destruct (traffic_add t i c (set_ca_local l c) l4 _ _ _ Ht Hc Hp (count_rx_adds b p d e) (count_rx_adds b p 0 e))
      as (a1 & a2 & -> & E & Hok); try done. cbn [mbind option_bind]. rewrite E. cbn [mbind option_bind].
    eexists. split; [done|]. split; [done|]. cbn [tr_clients]. by rewrite length_insert.
  - unfold clientaccount_add_tx. destruct (count_tx_adds b p _ Hl) as (l & [= <-] & L1 & L2 & L3).
    destruct (traffic_add t i c (set_ca_local (count_tx b p (ca_local c)) c) l4 _ _ _ Ht Hc Hp (count_tx_adds b p) (count_tx_adds b p))
      as (a1 & a2 & -> & E & Hok); try done. cbn [mbind option_bind]. rewrite E. cbn [mbind option_bind].
    eexists. split; [done|]. split; [done|]. cbn [tr_clients]. by rewrite length_insert.
Qed.

(** The accounts add up: over any sequence of receptions, transmissions and drops of any
    clients, with any error code at all, every access to the counters of the reasons is inside the
    array, the drops of every account are the sum of its reasons, and bytes, packets
    and drops of all clients together are those of the protocols. *)
Theorem accounts_add_up t es :
  traffic_ok t -> Forall (event_ok (length t.(tr_clients))) es ->
  exists t', traffic_run t es = Some t' /\ traffic_ok t'.
Proof.
  intros Ht Hes. revert t Ht Hes. induction es as [|e es IH]; intros t Ht Hes; [by exists t|].
  apply list.Forall_cons_1 in Hes as [He Hes]. cbn [traffic_run].
  destruct (traffic_step_ok t e Ht He) as (t1 & -> & Ht1 & Hl). cbn [mbind option_bind]. apply IH; [done|by rewrite Hl].
Qed.

(** ** The line of the log *)

(** The reasons with their numbers, and a comma between them. *)
Definition reason_texts (labels : list (list Z)) (errs : list Z) : list (list Z) :=
  map (fun x => x.1 ++ [ch_sp] ++ dec x.2) (List.filter (fun x => negb (x.2 =? 0)) (zip labels errs)).

Fixpoint commas (ts : list (list Z)) : list Z :=
  match ts with
  | [] => []
  | [t] => t
  | t :: ts => t ++ str ", " ++ commas ts
  end.

(** What is printed behind a text that is there. *)
Definition more (p : Z) (ts : list (list Z)) : list Z :=
  if p =? 0 then commas ts else concat (map (fun t => str ", " ++ t) ts).

Lemma commas_cons t ts : commas (t :: ts) = t ++ concat (map (fun t => str ", " ++ t) ts).
Proof.
  revert t. induction ts as [|u ts IH]; intros t; [cbn; by rewrite app_nil_r|].
  change (commas (t :: u :: ts)) with (t ++ str ", " ++ commas (u :: ts)). rewrite IH. cbn [map concat]. by rewrite <- app_assoc.
Qed.

Lemma more_cons p t ts :
  0 <= p -> t <> [] ->
  more p (t :: ts) = ((if p =? 0 then [] else str ", ") ++ t) ++
                     more (p + zlen ((if p =? 0 then [] else str ", ") ++ t)) ts.
Proof.
  intros Hp Ht. assert (0 < zlen t) as Hz by (destruct t; [done|rewrite zlen_cons; pose proof (zlen_nonneg t); lia]).
  unfold more. destruct (Z.eqb_spec p 0) as [->|].
  - cbn [app]. destruct (Z.eqb_spec (0 + zlen t) 0); [lia|]. apply commas_cons.
  - rewrite zlen_app. change (zlen (str ", ")) with 2. destruct (Z.eqb_spec (p + (2 + zlen t)) 0); [lia|]. done.
Qed.

Lemma drops_text_spec labels errs s :
  zlen s + zlen (more (zlen s) (reason_texts labels errs)) < DROPS_SIZE - 2 ->
  drops_text labels errs s (zlen s) = Some (s ++ more (zlen s) (reason_texts labels errs)).
Proof.
  assert (forall s, s ++ more (zlen s) [] = s) as Hnil by (intros s0; unfold more; split_if; apply app_nil_r).
  revert errs s. induction labels as [|l labels IH]; intros errs s Hs; [cbn; by rewrite Hnil|].
  destruct errs as [|n errs]; [cbn; by rewrite Hnil|]. cbn [drops_text]. unfold reason_texts in Hs |- *.
  cbn [zip zip_with List.filter snd] in Hs |- *. destruct (Z.eqb_spec n 0) as [->|Hn]; cbn [negb map fst snd] in Hs |- *; [by apply IH|].
  set (t := l ++ [ch_sp] ++ dec n) in *. fold (reason_texts labels errs) in *.
  assert (t <> []) as Ht by (unfold t; by destruct l). pose proof (zlen_nonneg s) as Hz.
  rewrite more_cons in Hs |- * by done. set (u := (if zlen s =? 0 then [] else str ", ") ++ t) in *.
  rewrite zlen_app in Hs. pose proof (zlen_nonneg (more (zlen s + zlen u) (reason_texts labels errs))). pose proof (zlen_nonneg u).
  rewrite (proj2 (Z.ltb_ge _ _)) by lia. destruct (Z.eqb_spec (DROPS_SIZE - zlen s - 2) 0); [lia|].
  rewrite take_ge by (unfold zlen in *; lia). specialize (IH errs (s ++ u)).
  rewrite zlen_app in IH. rewrite IH by lia. by rewrite <- app_assoc.
Qed.

(** The line about the drops of a client lists every reason with its count, as
    long as the list has fewer than 254 characters; the buffer is then not exceeded. *)
Theorem drops_line_fits p :
  p.(pa_rxdrops) <> 0 -> zlen (commas (reason_texts inerr_labels p.(pa_rxerrs))) < DROPS_SIZE - 2 ->
  client_drops p = Some (commas (reason_texts inerr_labels p.(pa_rxerrs))).
Proof.
  intros Hd Hl. unfold client_drops. destruct (Z.eqb_spec (pa_rxdrops p) 0); [done|].
  apply (drops_text_spec inerr_labels (pa_rxerrs p) []). done.
Qed.

(** ** Witnesses *)

Definition demo_traffic : traffic :=
  mk_traffic [mk_client_account (account_zero 0) (Some 1) None; mk_client_account (account_zero 0) (Some 1) (Some 2)]
    (mk_accounts {[1 := account_zero 3; 2 := account_zero 2]} (account_zero 99) (account_zero 99) (account_zero 99)).

Definition demo_events : list traffic_event :=
  [Rx 0 6 120 1 0 0; Rx 1 17 80 1 (-12) 0; Tx 1 6 200 2; Rx 1 6 60 1 (-999) 0].

Lemma accounts_add_up_witness :
  exists t', traffic_run demo_traffic demo_events = Some t' /\ traffic_ok t'.
Proof.
  apply accounts_add_up.
  - split; cbn [tr_clients tr_accounts demo_traffic ac_ports ac_tcp ac_udp]; try (exact (account_zero_ok 99)).
    + repeat constructor.
    + apply map_Forall_insert_2; [split; reflexivity|]. apply map_Forall_singleton. split; reflexivity.
    + repeat constructor; cbn; intros p [[= <-]|[= <-]]; rewrite lookup_insert_eq || rewrite lookup_insert_ne by done;
        rewrite ?lookup_singleton_eq; eexists; reflexivity.
    + intros []; reflexivity.
  - repeat constructor; cbn; lia.
Defined.

(** An account with so many drops for each reason. *)
Definition account_with (errs : list Z) : portaccount_t := mk_portaccount 0 0 0 0 0 0 0 (sumz errs) 0 errs 0.

Lemma drops_line_fits_witness :
  client_drops (account_with (0 :: 3 :: repeat 0 10 ++ [12] ++ repeat 0 24)) = Some (str "no_colon 3, general_query 12").
Proof.
  rewrite drops_line_fits; [reflexivity|discriminate|vm_compute; reflexivity].
Defined.

(** Packets dropped for nineteen different reasons make the line longer than the buffer. *)
Example drops_line_overflow :
  client_drops (account_with [0; 1; 1; 1; 1; 1; 1; 0; 0; 1; 1; 1; 1; 0; 0; 0; 0; 1; 1; 1; 1; 1; 1; 1; 0; 0; 1; 0; 0; 0; 0; 0; 0; 1; 0; 0; 0]) = None.
Proof. vm_compute. reflexivity. Qed.
