(* ===== verification/Worker.v ===== *)
(** * worker.c: the life of a client

    A worker takes over new clients, sends them keepalives, times them out and closes
    them.  A client belongs to the list of clients and, once it is logged in, to the
    list of its class; it holds references to the account of its port and to the
    UDP socket, cells for its filters and an entry in the list of clients by name.
    Closing a client gives all of that back.

    The clients are kept by their address.  The sockets answer as in ClientIO;
    [poll_full] says whether the poller has no room for a socket. *)

From S2P Require Import Prelude Types Acl ParseQc ParseAprs Clientlist ClientHeard Filter FilterParse FilterSpec Outgoing.
From S2P Require Import Plist ClientIO Accounting.
From Stdlib Require Import ZArith Lia Bool String.
From stdpp Require Import base tactics list gmap numbers.
Open Scope Z_scope.

(** ** State *)

#[export] Instance client_class_countable : Countable client_class.
Proof.
  refine (inj_countable' (fun k => match k with ClassRo => 0%nat | ClassUps => 1%nat | ClassDupe => 2%nat | ClassOther => 3%nat end)
            (fun n => match n with 0%nat => ClassRo | 1%nat => ClassUps | 2%nat => ClassDupe | _ => ClassOther end) _).
  by intros [].
Defined.

Record client_udp_t := mk_client_udp {
  cu_portaccount : option Z;
  cu_fd : Z;
  cu_refcount : Z;
  cu_polled : bool;
  cu_af : Z;
  cu_portnum : Z
}.

Definition set_cu_refcount (n : Z) (s : client_udp_t) : client_udp_t :=
  mk_client_udp s.(cu_portaccount) s.(cu_fd) n s.(cu_polled) s.(cu_af) s.(cu_portnum).
Definition set_cu_polled (s : client_udp_t) : client_udp_t :=
  mk_client_udp s.(cu_portaccount) s.(cu_fd) s.(cu_refcount) true s.(cu_af) s.(cu_portnum).

(** The rest of a client. *)
Record wclient := mk_wclient {
  wc_client : client_t;
  wc_filters : client_filters;
  wc_conn : conn;
  wc_account : client_account;
  wc_proto : Z;
  wc_addr_loc : list Z;
  wc_udpclient : option Z;
  wc_udp_port : Z;
  wc_connect_tick : Z;
  wc_keepalive : Z;
  wc_cleanup : Z;
  wc_listener_id : Z;
  wc_addr : sockaddr;
  wc_app_name : list Z;
  wc_app_version : list Z
}.

Definition set_wc_client (x : client_t) (c : wclient) : wclient :=
  mk_wclient x c.(wc_filters) c.(wc_conn) c.(wc_account) c.(wc_proto) c.(wc_addr_loc) c.(wc_udpclient) c.(wc_udp_port)
    c.(wc_connect_tick) c.(wc_keepalive) c.(wc_cleanup) c.(wc_listener_id) c.(wc_addr) c.(wc_app_name) c.(wc_app_version).
Definition set_wc_conn (x : conn) (c : wclient) : wclient :=
  mk_wclient c.(wc_client) c.(wc_filters) x c.(wc_account) c.(wc_proto) c.(wc_addr_loc) c.(wc_udpclient) c.(wc_udp_port)
    c.(wc_connect_tick) c.(wc_keepalive) c.(wc_cleanup) c.(wc_listener_id) c.(wc_addr) c.(wc_app_name) c.(wc_app_version).
Definition set_wc_times (keepalive cleanup : Z) (c : wclient) : wclient :=
  mk_wclient c.(wc_client) c.(wc_filters) c.(wc_conn) c.(wc_account) c.(wc_proto) c.(wc_addr_loc) c.(wc_udpclient) c.(wc_udp_port)
    c.(wc_connect_tick) keepalive cleanup c.(wc_listener_id) c.(wc_addr) c.(wc_app_name) c.(wc_app_version).

(** [wk_store] has the structures that are allocated; [wk_new] is the queue of new
    clients; [wk_fds] the descriptors that were closed, [wk_uplinks] the uplinks
    that were reported as lost, and [wk_gauge] the number of filters. *)
Record worker := mk_wk {
  wk_store : gmap Z wclient;
  wk_list : links (H := unit);
  wk_class : links (H := client_class);
  wk_count : Z;
  wk_new : list Z;
  wk_peers : list Z;
  wk_accounts : accounts;
  wk_udp : gmap Z client_udp_t;
  wk_table : clientlist_table;
  wk_gauge : Z;
  wk_uplinks : list Z;
  wk_fds : list Z
}.

Definition set_wk_store (m : gmap Z wclient) (w : worker) : worker :=
  mk_wk m w.(wk_list) w.(wk_class) w.(wk_count) w.(wk_new) w.(wk_peers) w.(wk_accounts) w.(wk_udp) w.(wk_table) w.(wk_gauge)
    w.(wk_uplinks) w.(wk_fds).
Definition put (id : Z) (c : wclient) (w : worker) : worker := set_wk_store (<[id := c]> w.(wk_store)) w.

(** ** Closing *)

(** [client_udp_free]: the socket is closed with its last reference. *)
Definition client_udp_free (u : option Z) (w : worker) : option worker :=
  match u with
  | None => Some w
  | Some u =>
      s ← w.(wk_udp) !! u;
      let n := s.(cu_refcount) - 1 in
      let udp := if n =? 0 then delete u w.(wk_udp)
                 else <[u := set_cu_refcount n s]> w.(wk_udp) in
      let fds := if n =? 0 then w.(wk_fds) ++ [s.(cu_fd)] else w.(wk_fds) in
      Some (mk_wk w.(wk_store) w.(wk_list) w.(wk_class) w.(wk_count) w.(wk_new) w.(wk_peers) w.(wk_accounts) udp w.(wk_table)
              w.(wk_gauge) w.(wk_uplinks) fds)
  end.

(** [client_free].  [client_close] has closed the descriptor before it and set it to -1;
    it is closed once in either case. *)
Definition client_free (id : Z) (w : worker) : option worker :=
  c ← w.(wk_store) !! id;
  w ← client_udp_free c.(wc_udpclient) w;
  let gauge := filter_free c.(wc_filters).(neguserfilters) (filter_free c.(wc_filters).(posuserfilters)
                 (filter_free c.(wc_filters).(negdefaultfilters) (filter_free c.(wc_filters).(posdefaultfilters) w.(wk_gauge)))) in
  let fds := if c.(wc_client).(c_fd) >=? 0 then w.(wk_fds) ++ [c.(wc_client).(c_fd)] else w.(wk_fds) in
  Some (mk_wk (delete id w.(wk_store)) (free_node id w.(wk_list)) (free_node id w.(wk_class)) w.(wk_count) w.(wk_new) w.(wk_peers)
          w.(wk_accounts) w.(wk_udp) (clientlist_remove w.(wk_table) c.(wc_client)) gauge w.(wk_uplinks) fds).

(** The references of the client to the accounts of its port and of its UDP socket. *)
Definition drop_accounts (c : wclient) (w : worker) : option accounts :=
  a ← (match c.(wc_account).(ca_port) with
       | Some p => inbound_connects_account 0 (Some p) w.(wk_accounts)
       | None => Some w.(wk_accounts)
       end);
  if c.(wc_udp_port) =? 0 then Some a
  else
    u ← c.(wc_udpclient);
    s ← w.(wk_udp) !! u;
    match s.(cu_portaccount) with
    | Some p => inbound_connects_account 2 (Some p) a
    | None => Some a
    end.

Definition client_close (id : Z) (w : worker) : option worker :=
  c ← w.(wk_store) !! id;
  _ ← client_drops c.(wc_account).(ca_local);
  list ← unlink_node id w.(wk_list);
  class ← unlink_class id w.(wk_class);
  a ← drop_accounts c w;
  let uplink := has c.(wc_client).(c_flags) CLFLAGS_UPLINKPORT && negb (bool_decide (c.(wc_client).(c_state) = CSTATE_COREPEER)) in
  client_free id
    (mk_wk w.(wk_store) list class (w.(wk_count) - 1) w.(wk_new) w.(wk_peers) a w.(wk_udp) w.(wk_table) w.(wk_gauge)
       (if uplink then w.(wk_uplinks) ++ [id] else w.(wk_uplinks)) w.(wk_fds)).

(** ** New clients *)

(** [pass_client_to_worker] *)
Definition pass_client_to_worker (id : Z) (w : worker) : worker :=
  mk_wk w.(wk_store) w.(wk_list) w.(wk_class) w.(wk_count) (w.(wk_new) ++ [id]) w.(wk_peers) w.(wk_accounts) w.(wk_udp)
    w.(wk_table) w.(wk_gauge) w.(wk_uplinks) w.(wk_fds).

(** [worker_classify_client] *)
Definition classify (id : Z) (w : worker) : option worker :=
  c ← w.(wk_store) !! id;
  match client_class_of c.(wc_client) with
  | None => Some w
  | Some k =>
      class ← push_front k id w.(wk_class);
      Some (mk_wk w.(wk_store) w.(wk_list) class w.(wk_count) w.(wk_new) w.(wk_peers) w.(wk_accounts) w.(wk_udp) w.(wk_table)
              w.(wk_gauge) w.(wk_uplinks) w.(wk_fds))
  end.

(** The client at the front of the list of clients. *)
Definition link_client (id : Z) (w : worker) : option worker :=
  list ← push_front tt id w.(wk_list);
  Some (mk_wk w.(wk_store) list w.(wk_class) (w.(wk_count) + 1) w.(wk_new) w.(wk_peers) w.(wk_accounts) w.(wk_udp) w.(wk_table)
          w.(wk_gauge) w.(wk_uplinks) w.(wk_fds)).

(** The list of clients and, when the client is online, that of its class. *)
Definition admit_client (id : Z) (c : wclient) (w : worker) : option worker :=
  w ← link_client id w;
  match c.(wc_client).(c_state) with
  | CSTATE_CONNECTED | CSTATE_COREPEER => classify id w
  | _ => Some w
  end.

Definition MAX_COREPEERS : Z := 16.

Definition set_wk_peers (l : list Z) (w : worker) : worker :=
  mk_wk w.(wk_store) w.(wk_list) w.(wk_class) w.(wk_count) w.(wk_new) l w.(wk_accounts) w.(wk_udp) w.(wk_table)
    w.(wk_gauge) w.(wk_uplinks) w.(wk_fds).

(** [corepeer_close_all] *)
Fixpoint close_all (ids : list Z) (w : worker) : option worker :=
  match ids with [] => Some w | id :: ids => w ← client_close id w; close_all ids w end.

Definition corepeer_close_all (w : worker) : option worker :=
  w ← close_all w.(wk_peers) w; Some (set_wk_peers [] w).

Definition set_c_fd (fd : Z) (c : client_t) : client_t :=
  mk_client c.(c_id) fd c.(c_state) c.(c_flags) c.(c_validated) c.(c_username) c.(c_username_len) c.(c_addr_hex) c.(c_quirks_mode)
    c.(c_no_tx) c.(c_loc_known) c.(c_heard) c.(c_courtesy) c.(c_heard_count) c.(c_courtesy_count) c.(c_lat) c.(c_lng) c.(c_cos_lat).

Section Worker.
Variable cfg : config.
Variable socket : Z -> nat -> answer.
Variable tick : Z.
Variable fuel : nat.
Variable poll_full : Z -> bool.
Variable version date : list Z.

(** [c->write]: when writing closes the connection, the client is gone. *)
Definition worker_write (id : Z) (text : list Z) (w : worker) : option (worker * Z) :=
  c ← w.(wk_store) !! id;
  '(x, rc) ← tcp_client_write (socket id) tick fuel c.(wc_conn) text;
  let w := put id (set_wc_conn x c) w in
  if is_closed x then w ← client_close id w; Some (w, rc) else Some (w, rc).

(** A core peer: its place in the array of peers and the poll of its UDP socket, once. *)
Definition add_peer (id : Z) (c : wclient) (w : worker) : option worker :=
  if zlen w.(wk_peers) =? MAX_COREPEERS then None
  else
    u ← c.(wc_udpclient);
    s ← w.(wk_udp) !! u;
    let w := put id (set_wc_client (set_c_fd (- zlen w.(wk_peers) - 100) c.(wc_client)) c) w in
    Some (mk_wk w.(wk_store) w.(wk_list) w.(wk_class) w.(wk_count) w.(wk_new) (w.(wk_peers) ++ [id]) w.(wk_accounts)
            (<[u := set_cu_polled s]> w.(wk_udp)) w.(wk_table)
            w.(wk_gauge) w.(wk_uplinks) w.(wk_fds)).

(** A linked client starts: a peer, or a client of the poller, which is sent the version
    of the server. *)
Definition greet (id : Z) (c : wclient) (w : worker) : option worker :=
  if bool_decide (c.(wc_client).(c_state) = CSTATE_COREPEER) then add_peer id c w
  else if poll_full id then Some w
  else if has c.(wc_client).(c_flags) CLFLAGS_INPORT then
    '(w, _) ← worker_write id (str "# " ++ version ++ [13; 10]) w; Some w
  else Some w.

(** One new client; [None] also when there are too many peers, which ends the
    program. *)
Definition collect_one (id : Z) (w : worker) : option worker :=
  c ← w.(wk_store) !! id;
  let fd := c.(wc_client).(c_fd) in
  if fd <? -1 then
    w ← (if fd =? -2 then corepeer_close_all w else Some w);
    client_free id w
  else
    w ← admit_client id c w;
    greet id c w.

Fixpoint collect (ids : list Z) (w : worker) : option worker :=
  match ids with [] => Some w | id :: ids => w ← collect_one id w; collect ids w end.

Definition collect_new_clients (w : worker) : option worker :=
  collect w.(wk_new)
    (mk_wk w.(wk_store) w.(wk_list) w.(wk_class) w.(wk_count) [] w.(wk_peers) w.(wk_accounts) w.(wk_udp) w.(wk_table)
       w.(wk_gauge) w.(wk_uplinks) w.(wk_fds)).

(** ** Keepalives *)

Definition sock_write_expire : Z := 25.
Definition keepalive_interval : Z := 20.
Definition obuf_writes_threshold : Z := 16.
Definition obuf_writes_threshold_hys : Z := 6.

Record limits := mk_limits { upstream_timeout : Z; client_timeout : Z; client_login_timeout : Z }.
Variable lim : limits.

(** The text, in a buffer of 230 bytes. *)
Definition keepalive_text (addr_loc : list Z) : option (list Z) :=
  let s := str "# " ++ take 40 version ++ [ch_sp] ++ date ++ [ch_sp] ++ cfg.(serverid) ++ [ch_sp] ++ addr_loc ++ [13; 10] in
  if zlen s + 1 <=? 230 then Some s else None.

(** The keepalive or the flush of a client: [None] inside when the client is gone. *)
Definition keepalive_write (id : Z) (c : wclient) (w : worker) : option (worker * bool) :=
  if (c.(wc_keepalive) <=? tick) || (c.(wc_keepalive) >? tick + keepalive_interval) then
    text ← keepalive_text c.(wc_addr_loc);
    let flushlevel := c.(wc_conn).(co_obuf_flushsize) in
    let c := set_wc_times (tick + keepalive_interval) c.(wc_cleanup) c in
    let c := set_wc_conn (set_obuf_mode 0 c.(wc_conn).(co_obuf_writes) c.(wc_conn)) c in
    '(w, rc) ← worker_write id text (put id c w);
    if rc <? -2 then Some (w, true)
    else
      c ← w.(wk_store) !! id;
      Some (put id (set_wc_conn (set_obuf_mode flushlevel c.(wc_conn).(co_obuf_writes) c.(wc_conn)) c) w, false)
  else if c.(wc_proto) =? IPPROTO_TCP then
    '(w, rc) ← worker_write id [] w; Some (w, rc <? -2)
  else Some (w, false).

(** Whether a client has timed out. *)
Definition timed_out (c : wclient) : option close_reason :=
  let x := c.(wc_client) in
  if has x.(c_flags) CLFLAGS_INPORT && negb (bool_decide (x.(c_state) = CSTATE_CONNECTED)) && (c.(wc_connect_tick) <=? tick - lim.(client_login_timeout))
  then Some CLIERR_LOGIN_TIMEOUT
  else if has x.(c_flags) CLFLAGS_INPORT && bool_decide (x.(c_state) = CSTATE_CONNECTED) && (c.(wc_conn).(co_last_read) <=? tick - lim.(client_timeout))
  then Some CLIERR_INACTIVITY
  else if negb (has x.(c_flags) CLFLAGS_INPORT) && (c.(wc_conn).(co_last_read) <=? tick - lim.(upstream_timeout))
  then Some CLIERR_INACTIVITY
  else if (c.(wc_conn).(co_obuf_wtime) <? tick - sock_write_expire) && negb (bool_decide (x.(c_state) = CSTATE_UDP))
  then Some CLIERR_OUTPUT_WRITE_TIMEOUT
  else None.

(** Buffered or immediate writes, by how many there were. *)
Definition adjust_buffering (c : conn) : conn :=
  let flushsize :=
    if c.(co_obuf_writes) >? obuf_writes_threshold then
      if c.(co_obuf_flushsize) =? 0 then obuf_size c / 2 else c.(co_obuf_flushsize)
    else if negb (c.(co_obuf_flushsize) =? 0) && (c.(co_obuf_writes) <? obuf_writes_threshold_hys) then 0
    else c.(co_obuf_flushsize) in
  set_obuf_mode flushsize 0 c.

Definition keepalive_one (id : Z) (w : worker) : option worker :=
  c ← w.(wk_store) !! id;
  if bool_decide (c.(wc_client).(c_state) = CSTATE_COREPEER) then Some w
  else
    let c := if (c.(wc_cleanup) <=? tick) || (c.(wc_cleanup) >? tick + 120 + 120)
             then set_wc_client (client_heard_expire cfg tick c.(wc_client)) (set_wc_times c.(wc_keepalive) (tick + 120) c) else c in
    '(w, gone) ← keepalive_write id c (put id c w);
    if (gone : bool) then Some w
    else
      c ← w.(wk_store) !! id;
      match timed_out c with
      | Some _ => client_close id w
      | None => Some (put id (set_wc_conn (adjust_buffering c.(wc_conn)) c) w)
      end.

(** The loop over the list; the next client is looked up before the work on a client,
    which may be gone afterwards. *)
Fixpoint keepalive_loop (n : nat) (c : option Z) (w : worker) : option worker :=
  match n, c with
  | _, None => Some w
  | O, Some _ => None
  | S n, Some c =>
      cnext ← load (AtNext c) w.(wk_list);
      w ← keepalive_one c w;
      keepalive_loop n cnext w
  end.

Definition send_keepalives (w : worker) : option worker :=
  c ← load (AtHead tt) w.(wk_list);
  keepalive_loop (Z.to_nat w.(wk_count)) c w.
End Worker.
