(* ===== verification/WorkerSpec.v ===== *)
(** * Clients come and go without a trace

    The invariant of a worker: its lists are linked properly, a client that is online is in
    the list of its class, and the references, cells and sessions of the clients
    are all that is held, apart from what others hold ([held]).  Closing a client, taking
    over new ones and the keepalives preserve it. *)

From S2P Require Import Prelude Table Types Acl ParseQc ParseAprs Clientlist ClientHeard Filter FilterParse FilterSpec Outgoing.
From S2P Require Import Plist ClientIO Accounting Worker.
From Stdlib Require Import ZArith Lia Bool String SpecFloat.
From stdpp Require Import base tactics list gmap numbers.
Open Scope Z_scope.

(** ** Sums over clients *)

Definition tally (g : Z -> Z) (l : list Z) : Z := sumz (map g l).

Lemma tally_cons g x l : tally g (x :: l) = g x + tally g l.
Proof. done. Qed.

Lemma tally_app g l1 l2 : tally g (l1 ++ l2) = tally g l1 + tally g l2.
Proof. induction l1 as [|x l1 IH]; [done|]. cbn [app]. rewrite !tally_cons, IH. lia. Qed.

Lemma tally_ext g g' l : (forall x, x ∈ l -> g x = g' x) -> tally g l = tally g' l.
Proof.
  induction l as [|x l IH]; intros He; [done|]. rewrite !tally_cons, He, IH; [done| |left]. intros y Hy. apply He. by right.
Qed.

Lemma tally_nonneg g l : (forall x, 0 <= g x) -> 0 <= tally g l.
Proof. intros Hg. induction l as [|x l IH]; [done|]. rewrite tally_cons. specialize (Hg x). lia. Qed.

Lemma tally_without g x l : NoDup l -> x ∈ l -> tally g l = g x + tally g (List.filter (fun y => negb (y =? x)) l).
Proof.
  intros Hd Hx. apply list_elem_of_split in Hx as (l1 & l2 & ->). rewrite filter_split by done.
  rewrite !tally_app, tally_cons. lia.
Qed.

(** ** What a client holds *)

Definition of_client {A} (w : worker) (f : wclient -> A) (d : A) (id : Z) : A :=
  match w.(wk_store) !! id with Some c => f c | None => d end.

(** References to the account of a port. *)
Definition port_refs (p : Z) (c : wclient) : Z :=
  (if bool_decide (c.(wc_account).(ca_port) = Some p) then 1 else 0) +
  (if negb (c.(wc_udp_port) =? 0) && bool_decide (c.(wc_account).(ca_udp) = Some p) then 1 else 0).

(** References to a UDP socket. *)
Definition udp_refs (u : Z) (c : wclient) : Z := if bool_decide (c.(wc_udpclient) = Some u) then 1 else 0.

(** What others hold: references to accounts and sockets, and filters. *)
Record held := mk_held { he_port : Z -> Z; he_udp : Z -> Z; he_filters : Z }.

Definition online (c : wclient) : Prop :=
  c.(wc_client).(c_state) = CSTATE_CONNECTED \/ c.(wc_client).(c_state) = CSTATE_COREPEER.

(** Lists: all clients [cl], and those of each class. *)
Record lists_ok (cl : list Z) (cls : client_class -> list Z) (w : worker) : Prop := {
  lo_list : lists w.(wk_list) (fun _ => cl);
  lo_class : lists w.(wk_class) cls;
  lo_nodup : NoDup (cl ++ w.(wk_new));
  lo_store : forall id, id ∈ cl ++ w.(wk_new) -> is_Some (w.(wk_store) !! id);
  lo_alloc : forall id, is_Some (w.(wk_store) !! id) ->
    is_Some (w.(wk_list).(li_next) !! id) /\ is_Some (w.(wk_class).(li_next) !! id);
  lo_classed : forall k id, id ∈ cls k -> id ∈ cl /\ exists c, w.(wk_store) !! id = Some c /\ client_class_of c.(wc_client) = Some k /\ online c;
  lo_online : forall id c k, id ∈ cl -> w.(wk_store) !! id = Some c -> online c -> client_class_of c.(wc_client) = Some k -> id ∈ cls k;
  lo_known : forall id, is_Some (w.(wk_store) !! id) -> id ∈ cl ++ w.(wk_new);
  lo_count : w.(wk_count) = zlen cl
}.

(** References are counted right, and what is referred to is there. *)
Definition counted (base refs : Z) (count : option Z) : Prop :=
  match count with Some n => n = base + refs /\ 0 < n | None => base = 0 /\ refs = 0 end.

(** Resources: accounts, sockets, filters. *)
Record refs_ok (h : held) (ids : list Z) (w : worker) : Prop := {
  ro_held : forall x, 0 <= h.(he_port) x /\ 0 <= h.(he_udp) x;
  ro_port : forall p, counted (h.(he_port) p) (tally (of_client w (port_refs p) 0) ids) (pa_refcount <$> w.(wk_accounts).(ac_ports) !! p);
  ro_udp : forall u, counted (h.(he_udp) u) (tally (of_client w (udp_refs u) 0) ids) (cu_refcount <$> w.(wk_udp) !! u);
  ro_account : forall id c u, w.(wk_store) !! id = Some c -> c.(wc_udpclient) = Some u ->
    exists s, w.(wk_udp) !! u = Some s /\ c.(wc_account).(ca_udp) = s.(cu_portaccount);
  ro_feed : forall id c, w.(wk_store) !! id = Some c -> c.(wc_udp_port) <> 0 -> is_Some c.(wc_udpclient);
  ro_gauge : w.(wk_gauge) = h.(he_filters) + tally (of_client w (fun c => filter_count c.(wc_filters)) 0) ids
}.

(** Sessions: those of this worker are in the list of clients by name under the name of the
    client; the list has the clients of the other workers too. *)
Record sessions_ok (sessions : list client_t) (w : worker) : Prop := {
  so_table : represents w.(wk_table) sessions;
  so_nodup : NoDup (map c_id sessions);
  so_client : forall s c, s ∈ sessions -> w.(wk_store) !! s.(c_id) = Some c -> c.(wc_client).(c_username) = s.(c_username);
  so_names : forall id c, w.(wk_store) !! id = Some c -> (session_ok c.(wc_client) \/ id ∉ map c_id sessions) /\ c.(wc_client).(c_id) = id
}.

Record worker_ok (h : held) (cl : list Z) (cls : client_class -> list Z) (sessions : list client_t) (w : worker) : Prop := {
  wo_lists : lists_ok cl cls w;
  wo_refs : refs_ok h (cl ++ w.(wk_new)) w;
  wo_sessions : sessions_ok sessions w
}.

(** ** Closing a client *)

Definition rm (x : Z) (l : list Z) : list Z := List.filter (fun y => negb (y =? x)) l.

Lemma in_rm x y l : y ∈ rm x l <-> y ∈ l /\ y <> x.
Proof. unfold rm. rewrite !list_elem_of_In, filter_In. split; intros [H1 H2]; (split; [done|]); lia. Qed.

Lemma rm_app x l1 l2 : rm x (l1 ++ l2) = rm x l1 ++ rm x l2.
Proof. apply filter_app. Qed.

Lemma rm_absent x l : x ∉ l -> rm x l = l.
Proof. apply filter_absent. Qed.

(** ** References *)

Definition acc_count (a : accounts) (p : Z) : option Z := pa_refcount <$> a.(ac_ports) !! p.

Lemma drop_port add p a base r :
  add = 0 \/ add = 2 -> 0 <= base -> 0 <= r -> counted base (1 + r) (acc_count a p) ->
  exists a', inbound_connects_account add (Some p) a = Some a' /\ counted base r (acc_count a' p) /\
    forall q, q <> p -> acc_count a' q = acc_count a q.
Proof.
  intros Hadd Hb Hr Hc. unfold acc_count in *. destruct (ac_ports a !! p) as [pa|] eqn:Ep; [|cbn in Hc; lia].
  cbn [fmap option_fmap option_map counted] in Hc. destruct Hc as [Hn Hpos].
  assert (exists i, inbound_connects_account add (Some p) a =
    Some (set_ac_ports (match port_accounter_drop pa with Some pa => <[p := pa]> (ac_ports a) | None => delete p (ac_ports a) end)
            (set_ac_inbound i a))) as [i ->].
  { unfold inbound_connects_account. destruct Hadd as [->| ->]; cbn [Z.ltb Z.compare Z.eqb Z.odd negb Pos.compare Pos.compare_cont ac_ports set_ac_inbound];
      rewrite Ep; cbn [mbind option_bind]; [eexists; reflexivity|]. exists (ac_inbound a). by destruct a. }
  eexists. split; [done|]. unfold port_accounter_drop. destruct (Z.eqb_spec (pa_refcount pa - 1) 0) as [E|E]; cbn [ac_ports set_ac_ports].
  - split; [rewrite lookup_delete_eq; cbn; lia|]. intros q Hq. by rewrite lookup_delete_ne.
  - split; [rewrite lookup_insert_eq; cbn; lia|]. intros q Hq. by rewrite lookup_insert_ne.
Qed.

(** Dropping the references of a client leaves those of the others. *)
Lemma drop_accounts_spec base rest c w :
  (forall p, 0 <= base p) -> (forall p, 0 <= rest p) ->
  (forall p, counted (base p) (port_refs p c + rest p) (acc_count w.(wk_accounts) p)) ->
  (c.(wc_udp_port) <> 0 -> exists u s, c.(wc_udpclient) = Some u /\ w.(wk_udp) !! u = Some s /\
     c.(wc_account).(ca_udp) = s.(cu_portaccount)) ->
  exists a, drop_accounts c w = Some a /\ forall p, counted (base p) (rest p) (acc_count a p).
Proof.
  intros Hb Hr Hc Hu. unfold drop_accounts.
  set (feed := fun p => if negb (wc_udp_port c =? 0) && bool_decide (ca_udp (wc_account c) = Some p) then 1 else 0).
  assert (forall p, 0 <= feed p) as Hf by (intros p; unfold feed; split_if; lia).
  assert (exists a, match ca_port (wc_account c) with
                    | Some p => inbound_connects_account 0 (Some p) (wk_accounts w) | None => Some (wk_accounts w) end = Some a /\
            forall p, counted (base p) (feed p + rest p) (acc_count a p)) as (a & -> & Ha).
  { unfold port_refs in Hc. fold (feed) in Hc. destruct (ca_port (wc_account c)) as [p|].
    - destruct (drop_port 0 p (wk_accounts w) (base p) (feed p + rest p)) as (a & E & H1 & H2); [by left|done|specialize (Hf p); specialize (Hr p); lia| |].
      { specialize (Hc p). rewrite bool_decide_eq_true_2 in Hc by done. by rewrite Z.add_assoc. }
      exists a. split; [done|]. intros q. destruct (decide (q = p)) as [->|Hne]; [done|]. rewrite H2 by done. specialize (Hc q).
      rewrite bool_decide_eq_false_2 in Hc by congruence. exact Hc.
    - eexists. split; [done|]. intros q. specialize (Hc q). rewrite bool_decide_eq_false_2 in Hc by done. exact Hc. }
  cbn [mbind option_bind]. unfold feed in Ha. destruct (Z.eqb_spec (wc_udp_port c) 0) as [E|E]; cbn [negb andb] in Ha; [by exists a|].
  destruct (Hu E) as (u & s & -> & Es & Eu). cbn [mbind option_bind]. rewrite Es. cbn [mbind option_bind]. rewrite <- Eu.
  destruct (ca_udp (wc_account c)) as [p|].
  - destruct (drop_port 2 p a (base p) (rest p)) as (a' & E' & H1 & H2); [by right|done|done| |].
    { specialize (Ha p). rewrite bool_decide_eq_true_2 in Ha by done. exact Ha. }
    exists a'. split; [done|]. intros q. destruct (decide (q = p)) as [->|Hne]; [done|]. rewrite H2 by done. specialize (Ha q).
    rewrite bool_decide_eq_false_2 in Ha by congruence. exact Ha.
  - eexists. split; [done|]. intros q. specialize (Ha q). rewrite bool_decide_eq_false_2 in Ha by done. exact Ha.
Qed.

Lemma udp_free_spec base rest c w :
  (forall u, 0 <= base u) -> (forall u, 0 <= rest u) ->
  (forall u, counted (base u) (udp_refs u c + rest u) (cu_refcount <$> w.(wk_udp) !! u)) ->
  exists udp fds, client_udp_free c.(wc_udpclient) w =
      Some (mk_wk w.(wk_store) w.(wk_list) w.(wk_class) w.(wk_count) w.(wk_new) w.(wk_peers) w.(wk_accounts) udp w.(wk_table)
              w.(wk_gauge) w.(wk_uplinks) fds) /\
    (forall u, counted (base u) (rest u) (cu_refcount <$> udp !! u)) /\
    forall u s, w.(wk_udp) !! u = Some s -> is_Some (udp !! u) ->
      exists s', udp !! u = Some s' /\ s'.(cu_portaccount) = s.(cu_portaccount).
Proof.
  intros Hb Hr Hc. unfold udp_refs in Hc. destruct (wc_udpclient c) as [u|]; cbn [client_udp_free].
  - pose proof (Hc u) as Hcu. rewrite bool_decide_eq_true_2 in Hcu by done. specialize (Hb u). specialize (Hr u) as Hru.
    destruct (wk_udp w !! u) as [s|] eqn:Es; cbn [fmap option_fmap option_map counted] in Hcu; [|lia]. cbn [mbind option_bind].
    do 2 eexists. split; [done|]. split.
    + intros v. specialize (Hc v). destruct (decide (v = u)) as [->|Hne].
      * destruct (Z.eqb_spec (cu_refcount s - 1) 0); [rewrite lookup_delete_eq|rewrite lookup_insert_eq]; cbn; lia.
      * rewrite bool_decide_eq_false_2 in Hc by congruence.
        destruct (Z.eqb_spec (cu_refcount s - 1) 0); [rewrite lookup_delete_ne by done|rewrite lookup_insert_ne by done]; exact Hc.
    + intros v t Ht Hv. destruct (Z.eqb_spec (cu_refcount s - 1) 0); destruct (decide (v = u)) as [->|Hne].
      * rewrite lookup_delete_eq in Hv. by destruct Hv.
      * rewrite lookup_delete_ne by done. by exists t.
      * rewrite lookup_insert_eq. eexists. split; [done|]. by simplify_eq.
      * rewrite lookup_insert_ne by done. by exists t.
  - exists (wk_udp w), (wk_fds w). split; [by destruct w|]. split.
    + intros u. specialize (Hc u). rewrite bool_decide_eq_false_2 in Hc by done. exact Hc.
    + intros u s Hs _. by exists s.
Qed.

(** ** Freeing a client *)

(** The sessions without a client. *)
Definition gone (id : Z) (sessions : list client_t) : list client_t := unlink (fun s => s.(c_id) =? id) sessions.

Lemma gone_ids id sessions : NoDup (map c_id sessions) -> forall s, s ∈ gone id sessions -> s ∈ sessions /\ s.(c_id) <> id.
Proof.
  induction sessions as [|x l IH]; intros Hd s; [by intros ?%elem_of_nil|]. unfold gone in *. cbn [unlink map] in *.
  apply list.NoDup_cons in Hd as [Hx Hd]. destruct (Z.eqb_spec (c_id x) id) as [E|E].
  - intros Hs. split; [by right|]. intros Es. apply Hx. rewrite E, <- Es. by apply list_elem_of_fmap_2.
  - intros [->|Hs]%elem_of_cons; [split; [left|done]|]. destruct (IH Hd s Hs) as [H1 H2]. split; [by right|done].
Qed.

Lemma gone_absent id sessions : id ∉ map c_id sessions -> gone id sessions = sessions.
Proof.
  induction sessions as [|x l IH]; intros Hn; [done|]. unfold gone in *. cbn [unlink map] in *. apply not_elem_of_cons in Hn as [Hx Hn].
  destruct (Z.eqb_spec (c_id x) id); [congruence|]. by rewrite IH.
Qed.

(** A client without a session is not looked for by its name alone. *)
Lemma remove_absent t l c : represents t l -> c.(c_id) ∉ map c_id l -> clientlist_remove t c = t.
Proof.
  intros [_ Hb] Hn. unfold clientlist_remove, clientlist_find_id. rewrite Hb. destruct (List.find _ _) as [cl|] eqn:Ef; [|done].
  apply List.find_some in Ef as [Hin Hid]. apply in_map_iff in Hin as (s & <- & Hs). apply filter_In in Hs as [Hs _]. destruct Hn.
  apply Z.eqb_eq in Hid. cbn in Hid. rewrite <- Hid. by apply list_elem_of_fmap_2, list_elem_of_In.
Qed.

Lemma sessions_free sessions w w' id c :
  sessions_ok sessions w -> w.(wk_store) !! id = Some c -> w'.(wk_store) = delete id w.(wk_store) ->
  w'.(wk_table) = clientlist_remove w.(wk_table) c.(wc_client) -> sessions_ok (gone id sessions) w'.
Proof.
  intros [S1 S2 S3 S4] Hc Es Et. destruct (S4 id c Hc) as [Hok Hid]. split.
  - rewrite Et. destruct Hok as [Hok|Hno].
    2:{ rewrite gone_absent by done. rewrite (remove_absent _ sessions); [done|done|]. by rewrite Hid. }
    assert (gone id sessions = session_step sessions (Logout (wc_client c))) as -> by (cbn; by rewrite Hid).
    apply (represents_step _ _ (Logout (wc_client c))); [done|]. split; [done|]. apply list.Forall_forall.
    intros s Hs Ei. symmetry. apply S3; [done|]. by rewrite Ei, Hid.
  - eapply sublist_NoDup; [exact S2|]. apply fmap_sublist, unlink_sublist.
  - intros s x Hs. destruct (gone_ids id sessions S2 s Hs) as [H1 H2]. rewrite Es, lookup_delete_ne by done. by apply S3.
  - intros i x. rewrite Es. intros [_ Hx]%lookup_delete_Some. destruct (S4 i x Hx) as [[?|Hno] ?]; (split; [|done]); [by left|right].
    intros Hin. apply Hno. eapply elem_of_sublist; [exact Hin|]. apply fmap_sublist, unlink_sublist.
Qed.

Lemma of_client_delete {A} w w' (f : wclient -> A) d id i :
  w'.(wk_store) = delete id w.(wk_store) -> i <> id -> of_client w' f d i = of_client w f d i.
Proof. intros E Hi. unfold of_client. by rewrite E, lookup_delete_ne. Qed.

(** The state in which [client_free] is called: the client is linked nowhere any more, its
    references to accounts were dropped, the rest of what it holds was not. *)
Record unlinked_client (h : held) (id : Z) (c : wclient) (cl : list Z) (cls : client_class -> list Z) (sessions : list client_t) (w : worker)
    : Prop := {
  uc_store : w.(wk_store) !! id = Some c;
  uc_out : id ∉ cl ++ w.(wk_new);
  uc_lists : lists_ok cl cls (mk_wk (delete id w.(wk_store)) (free_node id w.(wk_list)) (free_node id w.(wk_class)) w.(wk_count) w.(wk_new)
               w.(wk_peers) w.(wk_accounts) w.(wk_udp) w.(wk_table) w.(wk_gauge) w.(wk_uplinks) w.(wk_fds));
  uc_held : forall x, 0 <= h.(he_port) x /\ 0 <= h.(he_udp) x;
  uc_port : forall p, counted (h.(he_port) p) (tally (of_client w (port_refs p) 0) (cl ++ w.(wk_new))) (acc_count w.(wk_accounts) p);
  uc_udp : forall u, counted (h.(he_udp) u) (udp_refs u c + tally (of_client w (udp_refs u) 0) (cl ++ w.(wk_new))) (cu_refcount <$> w.(wk_udp) !! u);
  uc_account : forall id c u, w.(wk_store) !! id = Some c -> c.(wc_udpclient) = Some u ->
    exists s, w.(wk_udp) !! u = Some s /\ c.(wc_account).(ca_udp) = s.(cu_portaccount);
  uc_feed : forall id c, w.(wk_store) !! id = Some c -> c.(wc_udp_port) <> 0 -> is_Some c.(wc_udpclient);
  uc_gauge : w.(wk_gauge) = h.(he_filters) + filter_count c.(wc_filters) + tally (of_client w (fun c => filter_count c.(wc_filters)) 0) (cl ++ w.(wk_new));
  uc_sessions : sessions_ok sessions w
}.

Lemma udp_refs_nonneg w u i : 0 <= of_client w (udp_refs u) 0 i.
Proof. unfold of_client, udp_refs. destruct (wk_store w !! i); [split_if|]; lia. Qed.

Lemma port_refs_nonneg w p i : 0 <= of_client w (port_refs p) 0 i.
Proof. unfold of_client, port_refs. destruct (wk_store w !! i); [repeat split_if|]; lia. Qed.

Lemma tally_delete w w' f id l :
  w'.(wk_store) = delete id w.(wk_store) -> id ∉ l -> tally (of_client w' f 0) l = tally (of_client w f 0) l.
Proof. intros E Hl. apply tally_ext. intros i Hi. apply (of_client_delete w w' f 0 id); [done|]. by intros ->. Qed.

(** The sum of the references of clients has every one of them. *)
Lemma udp_refs_in w u l i c :
  NoDup l -> i ∈ l -> w.(wk_store) !! i = Some c -> c.(wc_udpclient) = Some u -> 0 < tally (of_client w (udp_refs u) 0) l.
Proof.
  intros Hd Hi Hc Hu. rewrite (tally_without _ i) by done. pose proof (tally_nonneg (of_client w (udp_refs u) 0) (rm i l) (udp_refs_nonneg w u)).
  unfold of_client at 1. rewrite Hc. unfold udp_refs at 1. rewrite bool_decide_eq_true_2 by done. unfold rm in *. lia.
Qed.

Lemma client_free_spec h id c cl cls sessions w :
  unlinked_client h id c cl cls sessions w ->
  exists w', client_free id w = Some w' /\ worker_ok h cl cls (gone id sessions) w' /\
    w'.(wk_store) = delete id w.(wk_store) /\ w'.(wk_new) = w.(wk_new) /\ w'.(wk_peers) = w.(wk_peers) /\ w'.(wk_uplinks) = w.(wk_uplinks).
Proof.
  intros U. unfold client_free. rewrite (uc_store _ _ _ _ _ _ _ U). cbn [mbind option_bind].
  destruct (udp_free_spec (he_udp h) (fun u => tally (of_client w (udp_refs u) 0) (cl ++ wk_new w)) c w) as (udp & fds & -> & Hu & Hacc).
  { intros u. apply (uc_held _ _ _ _ _ _ _ U). }
  { intros u. apply tally_nonneg. intros i. apply udp_refs_nonneg. }
  { apply (uc_udp _ _ _ _ _ _ _ U). }
  cbn [mbind option_bind wk_store wk_list wk_class wk_count wk_new wk_peers wk_accounts wk_udp wk_table wk_gauge wk_uplinks wk_fds].
  eexists. split; [done|]. split; [|done]. destruct U as [U1 U2 U3 U4 U5 U6 U7 U8 U10 U11]. split.
  - destruct U3. by split.
  - cbn [wk_new]. split; cbn [wk_accounts wk_udp wk_gauge wk_store]; try done.
    + intros p. rewrite (tally_delete w _ _ id) by done. apply U5.
    + intros u. rewrite (tally_delete w _ _ id) by done. apply Hu.
    + intros i x u [Hi Hx]%lookup_delete_Some Ex. destruct (U7 i x u Hx Ex) as (s & Hs & Ea).
      assert (i ∈ cl ++ wk_new w) as Hin by (apply (lo_known _ _ _ U3); cbn [wk_store]; rewrite lookup_delete_ne by done; by eexists).
      assert (is_Some (udp !! u)) as Hsome.
      { specialize (Hu u). pose proof (udp_refs_in w u (cl ++ wk_new w) i x (lo_nodup _ _ _ U3) Hin Hx Ex) as Hpos.
        destruct (udp !! u); [by eexists|]. cbn in Hu. lia. }
      destruct (Hacc u s Hs Hsome) as (s' & Hs' & Es'). exists s'. split; [done|congruence].
    + intros i x [Hi Hx]%lookup_delete_Some. by apply (U8 i).
    + rewrite (tally_delete w _ _ id) by done. rewrite U10. unfold filter_free, filter_count. lia.
  - by eapply (sessions_free sessions w _ id c).
Qed.

(** ** Closing a client *)

(** What is reported when an uplink is lost. *)
Definition lost_uplink (c : client_t) : list Z :=
  if has c.(c_flags) CLFLAGS_UPLINKPORT && negb (bool_decide (c.(c_state) = CSTATE_COREPEER)) then [c.(c_id)] else [].

Lemma without_rm id (cls : client_class -> list Z) k : without id cls k = rm id (cls k).
Proof. done. Qed.

Lemma client_close_spec h cl cls sessions w id c :
  worker_ok h cl cls sessions w -> id ∈ cl -> w.(wk_store) !! id = Some c -> is_Some (client_drops c.(wc_account).(ca_local)) ->
  exists w', client_close id w = Some w' /\ worker_ok h (rm id cl) (without id cls) (gone id sessions) w' /\
    w'.(wk_store) = delete id w.(wk_store) /\ w'.(wk_new) = w.(wk_new) /\ w'.(wk_peers) = w.(wk_peers) /\
    w'.(wk_uplinks) = w.(wk_uplinks) ++ lost_uplink c.(wc_client).
Proof.
  intros [L R S] Hid Hc [t Ht]. unfold client_close. rewrite Hc. cbn [mbind option_bind]. rewrite Ht. cbn [mbind option_bind].
  destruct (lists_unlink id tt _ _ (lo_list _ _ _ L) Hid) as [(l1 & -> & Hl1 & Hk1) _]. cbn [mbind option_bind].
  destruct (lists_unclass id _ _ (lo_class _ _ _ L)) as (l2 & -> & Hl2 & Hk2). cbn [mbind option_bind].
  pose proof (lo_nodup _ _ _ L) as Hd. apply list.NoDup_app in Hd as (Hd1 & Hd2 & Hd3).
  assert (id ∉ wk_new w) as Hnew by (by apply Hd2). assert (rm id (cl ++ wk_new w) = rm id cl ++ wk_new w) as Erm
    by (by rewrite rm_app, (rm_absent id (wk_new w))).
  assert (forall f, tally (of_client w f 0) (cl ++ wk_new w) = f c + tally (of_client w f 0) (rm id cl ++ wk_new w)) as Htot.
  { intros f. rewrite (tally_without _ id), <- Erm; [|apply (lo_nodup _ _ _ L)|apply elem_of_app; by left]. unfold of_client at 1. by rewrite Hc. }
  destruct (drop_accounts_spec (he_port h) (fun p => tally (of_client w (port_refs p) 0) (rm id cl ++ wk_new w)) c w) as (a & -> & Ha).
  { intros p. apply (ro_held _ _ _ R). }
  { intros p. apply tally_nonneg. intros i. apply port_refs_nonneg. }
  { intros p. rewrite <- Htot. apply (ro_port _ _ _ R). }
  { intros Hp. destruct (ro_feed _ _ _ R id c Hc Hp) as [u Hu]. destruct (ro_account _ _ _ R id c u Hc Hu) as (s & H1 & H2). by exists u, s. }
  cbn [mbind option_bind]. set (ups := if _ && _ then _ else _).
  assert (ups = wk_uplinks w ++ lost_uplink (wc_client c)) as ->.
  { unfold ups, lost_uplink. destruct (so_names _ _ S id c Hc) as [_ ->]. split_if; [done|by rewrite app_nil_r]. }
  set (w1 := mk_wk _ _ _ _ _ _ _ _ _ _ _ _).
  destruct (client_free_spec h id c (rm id cl) (without id cls) sessions w1) as (w' & -> & H1 & H2 & H3 & H4 & H5); [|by exists w'].
  assert (forall i, i ∈ rm id cl ++ wk_new w -> i ∈ cl ++ wk_new w /\ i <> id) as Hin.
  { intros i [[H1 H2]%in_rm|H1]%elem_of_app; (split; [apply elem_of_app; auto|]); [done|by intros ->]. }
  split; cbn [wk_store wk_new wk_list wk_class wk_count wk_accounts wk_udp wk_gauge w1]; try done.
  - intros Hi%Hin. by destruct Hi.
  - destruct L as [L1 L2 L3 L4 L5 L6 L7 L9 L8]. split; cbn [wk_list wk_class wk_store wk_new wk_count]; try done.
    + rewrite <- Erm. by apply base.NoDup_ListNoDup, NoDup_filter, base.NoDup_ListNoDup.
    + intros i [Hi Hne]%Hin. rewrite lookup_delete_ne by done. by apply L4.
    + intros i [x [Hne Hx]%lookup_delete_Some]. destruct (L5 i) as [H1 H2]; [by eexists|]. cbn [free_node li_next].
      rewrite !lookup_delete_ne by done. split; [by apply Hk1|by apply Hk2].
    + intros k i. rewrite without_rm. intros [Hi Hne]%in_rm. destruct (L6 k i Hi) as [H1 H2]. split; [by apply in_rm|].
      by rewrite lookup_delete_ne.
    + intros i x k [Hi Hne]%in_rm. rewrite lookup_delete_ne by done. intros Hx Ho Hk. rewrite without_rm. apply in_rm. split; [|done]. by eapply L7.
    + intros i [x [Hne Hx]%lookup_delete_Some]. rewrite <- Erm. apply in_rm. split; [|done]. apply L9. by eexists.
    + rewrite L8. apply list_elem_of_split in Hid as (x1 & x2 & ->). unfold rm. rewrite filter_split by done. rewrite !zlen_app, zlen_cons. lia.
  - apply (ro_held _ _ _ R).
  - intros u. unfold of_client. cbn [wk_store]. fold (of_client w (udp_refs u) 0). rewrite <- Htot. apply (ro_udp _ _ _ R).
  - apply (ro_account _ _ _ R).
  - apply (ro_feed _ _ _ R).
  - rewrite (ro_gauge _ _ _ R), Htot, Z.add_assoc. reflexivity.
  - by destruct S.
Qed.

(** ** Writing *)

(** A connection with other members that writing does not look at. *)
Definition with_io (udp : bool) (last_read : Z) (c : conn) : conn :=
  mk_conn c.(co_ibuf) c.(co_ibuf_end) c.(co_obuf) c.(co_obuf_start) c.(co_obuf_end) c.(co_obuf_flushsize) c.(co_obuf_writes)
    c.(co_obuf_wtime) last_read udp c.(co_poll_out) c.(co_closed) c.(co_calls) c.(co_sent) c.(co_datagrams).

Definition on_fst {A} (f : conn -> conn) (x : conn * A) : conn * A := (f x.1, x.2).

Lemma buffer_io u l c p :
  client_buffer_outgoing_data (with_io u l c) p = on_fst (with_io u l) <$> client_buffer_outgoing_data c p.
Proof.
  unfold client_buffer_outgoing_data, client_buffer_outgoing_allocate. cbn [co_obuf co_obuf_start co_obuf_end with_io].
  change (obuf_size (with_io u l c)) with (obuf_size c). change (pending (with_io u l c)) with (pending c).
  destruct (co_obuf_end c + zlen p >? obuf_size c); [destruct (zlen p >? obuf_size c - _); [done|]|]; cbn [mbind option_bind].
  - destruct (if co_obuf_start c >? 0 then _ else _) as [b|]; [|done]. cbn [mbind option_bind].
    cbn [co_obuf co_obuf_start co_obuf_end set_obuf]. by destruct (if zlen p >? 0 then _ else _).
  - cbn [co_obuf co_obuf_start co_obuf_end with_io]. by destruct (if zlen p >? 0 then _ else _).
Qed.

Section Live.
Variable socket : nat -> answer.
Variable tick : Z.
Variable interrupts : nat.
Hypothesis socket_live : forall k, exists j, (j <= interrupts)%nat /\ socket (k + j)%nat <> Fails EINTR.

Lemma write_retry_io u l n c : write_retry socket n (with_io u l c) = on_fst (with_io u l) <$> write_retry socket n c.
Proof.
  revert c. induction n as [|n IH]; intros c; [done|]. cbn [write_retry]. change (pending (with_io u l c)) with (pending c).
  unfold sys_write. change (co_calls (with_io u l c)) with (co_calls c). destruct (socket (co_calls c)) as [k|e]; [done|].
  destruct e; try done. apply (IH (set_socket (S (co_calls c)) (co_sent c) (co_datagrams c) c)).
Qed.

Lemma write_out_io u l n c len : write_out socket tick n (with_io u l c) len = on_fst (with_io u l) <$> write_out socket tick n c len.
Proof.
  unfold write_out. rewrite write_retry_io. destruct (write_retry socket n c) as [[c1 r]|]; [|done].
  cbn [fmap option_fmap option_map mbind option_bind on_fst fst snd]. destruct r as [i|e].
  - by destruct (0 <? i)%nat.
  - destruct e; try done; by destruct (negb (len =? 0)).
Qed.

Lemma tcp_write_io u l n c p :
  p = [] \/ rd p 0 = Some ch_hash ->
  tcp_client_write socket tick n (with_io u l c) p = on_fst (with_io u l) <$> tcp_client_write socket tick n (with_io false (co_last_read c) c) p.
Proof.
  intros Hp. unfold tcp_client_write.
  assert (forall b, b && (zlen p >? 0) && negb (bool_decide (rd p 0 = Some ch_hash)) = false) as Hno.
  { intros b. destruct Hp as [->|Hp]; [by rewrite andb_false_r|]. rewrite bool_decide_eq_true_2 by done. apply andb_false_r. }
  cbn [co_udp with_io]. rewrite !Hno.
  set (c0 := set_obuf_mode (co_obuf_flushsize c) (co_obuf_writes c + 1) c).
  change (set_obuf_mode (co_obuf_flushsize (with_io u l c)) (co_obuf_writes (with_io u l c) + 1) (with_io u l c)) with (with_io u l c0).
  change (set_obuf_mode (co_obuf_flushsize (with_io false (co_last_read c) c)) (co_obuf_writes (with_io false (co_last_read c) c) + 1)
            (with_io false (co_last_read c) c)) with (with_io false (co_last_read c) c0).
  rewrite !buffer_io. destruct (client_buffer_outgoing_data c0 p) as [[c1 rc]|]; [|done].
  cbn [fmap option_fmap option_map mbind option_bind on_fst fst snd]. destruct (rc =? -12); [done|].
  cbn [co_obuf_end co_obuf_start co_obuf_flushsize with_io]. destruct (_ || _); [|unfold write_done; cbn; by split_if].
  rewrite !write_out_io. destruct (write_out socket tick n c1 (zlen p)) as [[c2 [r|]]|]; try done.
  cbn [fmap option_fmap option_map mbind option_bind on_fst fst snd]. unfold write_done. cbn. by split_if.
Qed.

(** A connection that can be used. *)
Definition live (c : conn) : Prop := conn_ok c /\ c.(co_closed) = None.

Lemma live_write c p :
  live c -> p = [] \/ rd p 0 = Some ch_hash ->
  exists c' rc, tcp_client_write socket tick (interrupts + 1) c p = Some (c', rc) /\ conn_ok c' /\
    c'.(co_last_read) = c.(co_last_read) /\ is_closed c' = (rc <? -2).
Proof.
  intros [Hc Ho] Hp. set (c0 := with_io false (co_last_read c) c).
  assert (c = with_io (co_udp c) (co_last_read c) c) as Ec by by destruct c.
  destruct (tcp_write_spec socket tick interrupts socket_live c0 (co_sent c ++ pending c) p) as (c' & rc & E & Hs & _ & Hr).
  { exact Ho. }
  { split; [by destruct Hc|]. split; [done|]. change (co_closed c0) with (co_closed c). by rewrite Ho. }
  pose proof (tcp_write_io (co_udp c) (co_last_read c) (interrupts + 1) c p Hp) as Ew. rewrite <- Ec in Ew. fold c0 in Ew. rewrite E in Ew.
  eexists _, _. split; [exact Ew|]. cbn [on_fst fst snd]. split; [by destruct Hs as [[] _]|]. split; [done|].
  change (is_closed (with_io (co_udp c) (co_last_read c) c')) with (is_closed c'). destruct (is_closed c'); [lia|].
  pose proof (zlen_nonneg p). destruct (Z.ltb_spec rc (-2)); [lia|done].
Qed.
End Live.

(** ** A client that is changed in place *)

(** The same client, as far as lists, resources and sessions go. *)
Record same_hold (c c' : wclient) : Prop := {
  sh_identity : (c'.(wc_client).(c_id), c'.(wc_client).(c_state), c'.(wc_client).(c_flags), c'.(wc_client).(c_username), c'.(wc_client).(c_username_len)) =
                (c.(wc_client).(c_id), c.(wc_client).(c_state), c.(wc_client).(c_flags), c.(wc_client).(c_username), c.(wc_client).(c_username_len));
  sh_filters : c'.(wc_filters) = c.(wc_filters);
  sh_account : c'.(wc_account) = c.(wc_account);
  sh_udp : (c'.(wc_udpclient), c'.(wc_udp_port)) = (c.(wc_udpclient), c.(wc_udp_port))
}.

Lemma put_of_client {A} w (f : wclient -> A) d id c c' i :
  w.(wk_store) !! id = Some c -> f c' = f c -> of_client (put id c' w) f d i = of_client w f d i.
Proof.
  intros Hc Hf. unfold of_client, put. cbn [wk_store set_wk_store]. destruct (decide (i = id)) as [->|Hne].
  - by rewrite lookup_insert_eq, Hc.
  - by rewrite lookup_insert_ne.
Qed.

Lemma put_put id c c' w : put id c' (put id c w) = put id c' w.
Proof. unfold put, set_wk_store. cbn. by rewrite insert_insert_eq. Qed.

Lemma put_same id c w : w.(wk_store) !! id = Some c -> put id c w = w.
Proof. intros Hc. unfold put, set_wk_store. rewrite insert_id by done. by destruct w. Qed.

Lemma put_lookup id c w : (put id c w).(wk_store) !! id = Some c.
Proof. cbn. apply lookup_insert_eq. Qed.

Lemma put_store w id c c' :
  w.(wk_store) !! id = Some c ->
  (forall i x, (put id c' w).(wk_store) !! i = Some x -> i <> id /\ w.(wk_store) !! i = Some x \/ i = id /\ x = c') /\
  (forall i, is_Some (w.(wk_store) !! i) <-> is_Some ((put id c' w).(wk_store) !! i)).
Proof.
  intros Hc. split; intros i.
  - intros x. cbn. intros [[<- <-]|[? ?]]%lookup_insert_Some; auto.
  - cbn. destruct (decide (i = id)) as [->|Hne]; [rewrite lookup_insert_eq, Hc; by split; eexists|by rewrite lookup_insert_ne].
Qed.

(** A client changes its place in the lists by its class and by going online. *)
Lemma put_lists_ok cl cls w id c c' :
  lists_ok cl cls w -> w.(wk_store) !! id = Some c -> client_class_of c'.(wc_client) = client_class_of c.(wc_client) -> (online c' <-> online c) ->
  lists_ok cl cls (put id c' w).
Proof.
  intros [L1 L2 L3 L4 L5 L6 L7 L8 L9] Hc Hcls Hon. destruct (put_store w id c c' Hc) as [Hst Hsome]. split; try done.
  - intros i Hi. by apply Hsome, L4.
  - intros i Hi. by apply L5, Hsome.
  - intros k i Hi. destruct (L6 k i Hi) as [H1 (x & Hx & Hk & Ho)]. split; [done|]. cbn. destruct (decide (i = id)) as [->|Hne].
    + exists c'. rewrite lookup_insert_eq. split; [done|]. rewrite Hc in Hx. injection Hx as <-. split; [congruence|by apply Hon].
    + exists x. by rewrite lookup_insert_ne.
  - intros i x k Hi Hx Ho Hk. destruct (Hst i x Hx) as [[Hne Hy]|[-> ->]]; [by eapply L7|].
    eapply L7; [done|done|by apply Hon|by rewrite <- Hcls].
  - intros i Hi. by apply L8, Hsome.
Qed.

Lemma put_refs_ok h ids w id c c' :
  refs_ok h ids w -> w.(wk_store) !! id = Some c -> c'.(wc_filters) = c.(wc_filters) ->
  (c'.(wc_account).(ca_port), c'.(wc_account).(ca_udp)) = (c.(wc_account).(ca_port), c.(wc_account).(ca_udp)) ->
  (c'.(wc_udpclient), c'.(wc_udp_port)) = (c.(wc_udpclient), c.(wc_udp_port)) -> refs_ok h ids (put id c' w).
Proof.
  intros [R0 R1 R2 R3 R4 R5] Hc I2 I3 I4. injection I4 as E6 E7. injection I3 as E8 E9. destruct (put_store w id c c' Hc) as [Hst _].
  assert (forall f : wclient -> Z, f c' = f c -> tally (of_client (put id c' w) f 0) ids = tally (of_client w f 0) ids) as Ht.
  { intros f Hf. apply tally_ext. intros i _. by apply put_of_client with (c := c). }
  split; try done.
  - intros p. rewrite Ht; [apply R1|]. unfold port_refs. by rewrite E8, E9, E7.
  - intros u. rewrite Ht; [apply R2|]. unfold udp_refs. by rewrite E6.
  - intros i x u Hx Hu. destruct (Hst i x Hx) as [[Hne Hy]|[-> ->]]; [by eapply R3|]. rewrite E9. eapply R3; [done|congruence].
  - intros i x Hx Hu. destruct (Hst i x Hx) as [[Hne Hy]|[-> ->]]; [by eapply R4|]. rewrite E6. eapply R4; [done|congruence].
  - rewrite Ht; [apply R5|]. by rewrite I2.
Qed.

(** Only a client without a session may change its name. *)
Lemma put_sessions_ok ss w id c c' :
  sessions_ok ss w -> w.(wk_store) !! id = Some c -> c'.(wc_client).(c_id) = c.(wc_client).(c_id) ->
  (c'.(wc_client).(c_username), c'.(wc_client).(c_username_len)) = (c.(wc_client).(c_username), c.(wc_client).(c_username_len)) \/ id ∉ map c_id ss ->
  sessions_ok ss (put id c' w).
Proof.
  intros [S1 S2 S3 S4] Hc E1 Hn. destruct (put_store w id c c' Hc) as [Hst _]. split; try done.
  - intros s x Hs Hx. destruct (Hst _ x Hx) as [[Hne Hy]|[E ->]]; [by apply S3|]. destruct Hn as [En|Hn].
    + injection En as E4 E5. rewrite E4. apply S3; [done|]. by rewrite E.
    + destruct Hn. rewrite <- E. by apply list_elem_of_fmap_2.
  - intros i x Hx. destruct (Hst i x Hx) as [[Hne Hy]|[-> ->]]; [by apply S4|]. destruct (S4 id c Hc) as [N1 N4].
    split; [|congruence]. destruct Hn as [En|Hn]; [|by right]. injection En as E4 E5. unfold session_ok. by rewrite E4, E5.
Qed.

Lemma put_ok h cl cls ss w id c c' :
  worker_ok h cl cls ss w -> w.(wk_store) !! id = Some c -> same_hold c c' -> worker_ok h cl cls ss (put id c' w).
Proof.
  intros [L R S] Hc [I1 I2 I3 I4]. injection I1 as E1 E2 E3 E4 E5. split.
  - eapply put_lists_ok; [done|done| |]; [unfold client_class_of; by rewrite E2, E3|unfold online; by rewrite E2].
  - eapply put_refs_ok; [done|done|done|by rewrite I3|done].
  - eapply put_sessions_ok; [done|done|done|]. left. congruence.
Qed.

(** A client of the list that goes online is put in front of the list of its class. *)
Lemma go_online_spec h cl cls ss w id c c' k :
  worker_ok h cl cls ss w -> id ∈ cl -> w.(wk_store) !! id = Some c -> ~ online c -> online c' ->
  client_class_of c'.(wc_client) = Some k -> c'.(wc_client).(c_id) = c.(wc_client).(c_id) ->
  (c'.(wc_client).(c_username), c'.(wc_client).(c_username_len)) = (c.(wc_client).(c_username), c.(wc_client).(c_username_len)) \/ id ∉ map c_id ss ->
  c'.(wc_filters) = c.(wc_filters) -> c'.(wc_account) = c.(wc_account) ->
  (c'.(wc_udpclient), c'.(wc_udp_port)) = (c.(wc_udpclient), c.(wc_udp_port)) ->
  exists w', classify id (put id c' w) = Some w' /\ worker_ok h cl (upd k (id :: cls k) cls) ss w' /\
    w'.(wk_store) = <[id := c']> w.(wk_store) /\ w'.(wk_new) = w.(wk_new) /\ w'.(wk_accounts) = w.(wk_accounts).
Proof.
  intros [L R S] Hin Hc Hoff Hon Hk E1 Hn I2 I3 I4. unfold classify. rewrite put_lookup. cbn [mbind option_bind]. rewrite Hk.
  pose proof (put_refs_ok _ _ _ _ _ _ R Hc I2 ltac:(by rewrite I3) I4) as R'. pose proof (put_sessions_ok _ _ _ _ _ S Hc E1 Hn) as S'.
  destruct (put_store w id c c' Hc) as [Hst Hsome]. destruct L as [L1 L2 L3 L4 L5 L6 L7 L8 L9].
  assert (forall j, id ∉ cls j) as Hout.
  { intros j Hj. destruct (L6 j id Hj) as [_ (x & Hx & _ & Ho)]. rewrite Hc in Hx. by injection Hx as <-. }
  destruct (L5 id) as [A1 A2]; [rewrite Hc; by eexists|].
  destruct (lists_push id k _ _ L2 A2 Hout) as (s' & E & P & K). change (wk_class (put id c' w)) with (wk_class w). rewrite E. cbn [mbind option_bind].
  eexists. split; [done|]. split; [|done]. split; [|by destruct R'|by destruct S'].
  split; cbn [wk_list wk_class wk_store wk_new wk_count put set_wk_store]; try done.
  - intros i Hi. by apply Hsome, L4.
  - intros i Hi. destruct (L5 i) as [H1 H2]; [by apply Hsome|]. split; [done|by apply K].
  - intros j i. unfold upd. destruct (decide (j = k)) as [->|Hne].
    + intros [->|Hi]%elem_of_cons; [split; [done|]; exists c'; by rewrite lookup_insert_eq|]. destruct (L6 k i Hi) as [H1 (x & Hx & H2)].
      split; [done|]. exists x. rewrite lookup_insert_ne; [done|]. intros ->. by apply (Hout k).
    + intros Hi. destruct (L6 j i Hi) as [H1 (x & Hx & H2)]. split; [done|]. exists x. rewrite lookup_insert_ne; [done|]. intros ->. by apply (Hout j).
  - intros i x j Hi Hx Ho Hj. unfold upd. destruct (Hst i x Hx) as [[Hne Hy]|[-> ->]].
    + destruct (decide (j = k)) as [->|]; [right|]; by eapply L7.
    + rewrite Hk in Hj. injection Hj as <-. destruct (decide (k = k)); [left|done].
  - intros i Hi. by apply L8, Hsome.
Qed.

(** ** Keepalives *)

Section Keepalives.
Variable cfg : config.
Variable socket : Z -> nat -> answer.
Variable tick : Z.
Variable interrupts : nat.
Hypothesis sockets_live : forall id k, exists j, (j <= interrupts)%nat /\ socket id (k + j)%nat <> Fails EINTR.
Variable version date : list Z.
Variable lim : limits.

Abbreviation fuel := (interrupts + 1)%nat (only parsing).

(** A client whose connection is usable and whose texts fit in their buffers. *)
Record fine (c : wclient) : Prop := {
  fi_live : live c.(wc_conn);
  fi_drops : is_Some (client_drops c.(wc_account).(ca_local));
  fi_text : is_Some (keepalive_text cfg version date c.(wc_addr_loc))
}.

(** The worker [w'] is [w] without the client, and everything it held is given back. *)
Definition closed (h : held) (cl : list Z) (cls : client_class -> list Z) (ss : list client_t) (id : Z) (w w' : worker) : Prop :=
  worker_ok h (rm id cl) (without id cls) (gone id ss) w' /\ w'.(wk_store) = delete id w.(wk_store) /\
  w'.(wk_new) = w.(wk_new) /\ w'.(wk_peers) = w.(wk_peers).

Lemma closed_put h cl cls ss id c w w' : closed h cl cls ss id (put id c w) w' -> closed h cl cls ss id w w'.
Proof. intros (H1 & H2 & H3 & H4). split; [done|]. split; [|done]. rewrite H2. cbn. by rewrite delete_insert_eq. Qed.

Lemma close_closed h cl cls ss w id c :
  worker_ok h cl cls ss w -> id ∈ cl -> w.(wk_store) !! id = Some c -> is_Some (client_drops c.(wc_account).(ca_local)) ->
  exists w', client_close id w = Some w' /\ closed h cl cls ss id w w'.
Proof.
  intros Hw Hid Hc Hd. destruct (client_close_spec h cl cls ss w id c Hw Hid Hc Hd) as (w' & E & H1 & H2 & H3 & H4 & _).
  by exists w'.
Qed.

Lemma worker_write_spec h cl cls ss w id c text :
  worker_ok h cl cls ss w -> id ∈ cl -> w.(wk_store) !! id = Some c -> fine c -> text = [] \/ rd text 0 = Some ch_hash ->
  exists w' rc, worker_write socket tick fuel id text w = Some (w', rc) /\
    if rc <? -2 then closed h cl cls ss id w w'
    else exists x, w' = put id (set_wc_conn x c) w /\ live x /\ x.(co_last_read) = c.(wc_conn).(co_last_read).
Proof.
  intros Hw Hid Hc [F1 F2 F3] Ht. unfold worker_write. rewrite Hc. cbn [mbind option_bind].
  destruct (live_write (socket id) tick interrupts (sockets_live id) (wc_conn c) text F1 Ht) as (x & rc & -> & X1 & X2 & X3).
  cbn [mbind option_bind]. rewrite X3. destruct (rc <? -2) eqn:Er.
  - destruct (close_closed h cl cls ss (put id (set_wc_conn x c) w) id (set_wc_conn x c)) as (w' & -> & H1);
      [by eapply put_ok|done|apply put_lookup|done|]. cbn [mbind option_bind]. exists w', rc. rewrite Er. split; [done|].
    by eapply closed_put.
  - exists (put id (set_wc_conn x c) w), rc. rewrite Er. split; [done|]. exists x. split; [done|]. split; [|done].
    split; [done|]. unfold is_closed in X3. by destruct (co_closed x).
Qed.

Lemma keepalive_text_hash a t : keepalive_text cfg version date a = Some t -> rd t 0 = Some ch_hash.
Proof. unfold keepalive_text. intros E. split_if_in E; [|done]. by injection E as <-. Qed.

(** The same client in the same phase of its life. *)
Record steady (c c' : wclient) : Prop := {
  st_hold : same_hold c c';
  st_live : live c'.(wc_conn);
  st_last_read : c'.(wc_conn).(co_last_read) = c.(wc_conn).(co_last_read);
  st_connect : c'.(wc_connect_tick) = c.(wc_connect_tick);
  st_addr : c'.(wc_addr_loc) = c.(wc_addr_loc);
  st_cleanup : c'.(wc_cleanup) = c.(wc_cleanup)
}.

(** When the next keepalive or cleanup is to come. *)
Definition due_within (t limit : Z) : Prop := tick < t <= tick + limit.

Lemma keepalive_write_spec h cl cls ss w id c :
  worker_ok h cl cls ss w -> id ∈ cl -> w.(wk_store) !! id = Some c -> fine c ->
  exists w' (gone : bool), keepalive_write cfg socket tick fuel version date id c w = Some (w', gone) /\
    if gone then closed h cl cls ss id w w'
    else exists c', w' = put id c' w /\ steady c c' /\ due_within c'.(wc_keepalive) keepalive_interval.
Proof.
  intros Hw Hid Hc Hf. unfold keepalive_write. destruct (_ || _) eqn:Ek.
  - destruct (fi_text _ Hf) as [t Et]. rewrite Et. cbn [mbind option_bind]. set (c1 := set_wc_conn _ _).
    assert (same_hold c c1) as Hs by by split. assert (fine c1) as Hf1.
    { destruct Hf as [[F1 F1'] F2 F3]. split; try done. split; [by destruct F1|done]. }
    destruct (worker_write_spec h cl cls ss (put id c1 w) id c1 t) as (w' & rc & E & Hr);
      [by eapply put_ok|done|apply put_lookup|done|right; by eapply keepalive_text_hash|].
    rewrite E. cbn [mbind option_bind]. destruct (rc <? -2).
    + exists w', true. split; [done|]. by eapply closed_put.
    + destruct Hr as (x & -> & [X1 X2] & X3). rewrite put_put, put_lookup. cbn [mbind option_bind]. eexists _, false. split; [done|].
      rewrite put_put. eexists. split; [done|]. split; [split; try done|unfold due_within; cbn; unfold keepalive_interval; lia].
      split; [by destruct X1|done].
  - assert (due_within (wc_keepalive c) keepalive_interval) as Hdue by (unfold due_within; lia).
    destruct (wc_proto c =? IPPROTO_TCP).
    + destruct (worker_write_spec h cl cls ss w id c []) as (w' & rc & E & Hr); try done; [by left|]. rewrite E. cbn [mbind option_bind].
      exists w', (rc <? -2). split; [done|]. destruct (rc <? -2); [done|]. destruct Hr as (x & -> & X1 & X2).
      eexists. split; [done|]. split; [by split|done].
    + exists w, false. split; [done|]. exists c. rewrite put_same by done. split; [done|]. split; [|done]. split; try done. apply Hf.
Qed.

(** A client that has not been heard for too long, by its kind; and one that takes no data. *)
Definition idle (c : wclient) : bool :=
  let x := c.(wc_client) in
  if has x.(c_flags) CLFLAGS_INPORT then
    if bool_decide (x.(c_state) = CSTATE_CONNECTED) then c.(wc_conn).(co_last_read) <=? tick - lim.(client_timeout)
    else c.(wc_connect_tick) <=? tick - lim.(client_login_timeout)
  else c.(wc_conn).(co_last_read) <=? tick - lim.(upstream_timeout).

Definition stalled (c : wclient) : bool :=
  (c.(wc_conn).(co_obuf_wtime) <? tick - sock_write_expire) && negb (bool_decide (c.(wc_client).(c_state) = CSTATE_UDP)).

Lemma timed_out_spec c : timed_out tick lim c = None <-> idle c = false /\ stalled c = false.
Proof.
  unfold timed_out, idle, stalled. destruct (has _ CLFLAGS_INPORT), (bool_decide (c_state (wc_client c) = CSTATE_CONNECTED)); cbn [negb andb];
    repeat split_if; intuition congruence.
Qed.

Lemma idle_steady c c' : steady c c' -> idle c' = idle c.
Proof. intros [[E _ _ _] _ H1 H2 _ _]. injection E as _ E2 E3 _ _. unfold idle. by rewrite E2, E3, H1, H2. Qed.

(** A client that was served: it is neither idle nor stalled, the next keepalive and
    cleanup are due in time and the writes are counted from zero. *)
Record served (c c' : wclient) : Prop := {
  se_hold : same_hold c c';
  se_fine : fine c';
  se_idle : idle c = false;
  se_stalled : stalled c' = false;
  se_keepalive : due_within c'.(wc_keepalive) keepalive_interval;
  se_cleanup : due_within c'.(wc_cleanup) 240;
  se_writes : c'.(wc_conn).(co_obuf_writes) = 0
}.

Definition is_peer (c : wclient) : Prop := c.(wc_client).(c_state) = CSTATE_COREPEER.

Lemma keepalive_one_spec h cl cls ss w id c :
  worker_ok h cl cls ss w -> id ∈ cl -> w.(wk_store) !! id = Some c -> fine c ->
  exists w', keepalive_one cfg socket tick fuel version date lim id w = Some w' /\
    (closed h cl cls ss id w w' /\ ~ is_peer c \/
     exists c', w' = put id c' w /\ same_hold c c' /\ (is_peer c /\ c' = c \/ ~ is_peer c /\ served c c')).
Proof.
  intros Hw Hid Hc Hf. unfold keepalive_one. rewrite Hc. cbn [mbind option_bind].
  case_bool_decide as Hp; [exists w; split; [done|]; right; exists c; rewrite put_same by done; split; [done|]; split; [done|by left]|].
  match goal with |- context [if ?b then set_wc_client ?x ?y else c] => set (c1 := if b then set_wc_client x y else c) end.
  assert (same_hold c c1 /\ fine c1 /\ wc_conn c1 = wc_conn c /\ wc_connect_tick c1 = wc_connect_tick c /\ due_within (wc_cleanup c1) 240)
    as (S1 & F1 & X1 & X2 & X3).
  { unfold c1, due_within. destruct (_ || _) eqn:E; (split; [by split|]); (split; [by destruct Hf|]); (split; [done|]); (split; [done|]).
    - cbn. lia.
    - lia. }
  clearbody c1. destruct (keepalive_write_spec h cl cls ss (put id c1 w) id c1) as (w2 & g & -> & Hg);
    [by eapply put_ok|done|apply put_lookup|done|]. cbn [mbind option_bind]. destruct g.
  { exists w2. split; [done|]. left. split; [by eapply closed_put|done]. }
  destruct Hg as (c2 & -> & S2 & D2). rewrite put_put, put_lookup. cbn [mbind option_bind].
  assert (same_hold c c2) as S3.
  { destruct S1 as [A1 A2 A3 A4]. destruct S2 as [[B1 B2 B3 B4] _ _ _ _ _]. split; congruence. }
  assert (fine c2) as F2.
  { destruct F1 as [_ G2 G3]. destruct S2 as [[_ _ B3 _] B _ _ B5 _]. split; [done|by rewrite B3|by rewrite B5]. }
  destruct (timed_out tick lim c2) eqn:Et.
  - destruct (close_closed h cl cls ss (put id c2 w) id c2) as (w3 & -> & H3); [by eapply put_ok|done|apply put_lookup|apply F2|].
    exists w3. split; [done|]. left. split; [by eapply closed_put|done].
  - apply timed_out_spec in Et as [Hi Hst]. eexists. split; [done|]. right. rewrite put_put. eexists. split; [done|].
    assert (same_hold c (set_wc_conn (adjust_buffering (wc_conn c2)) c2)) as S4 by by destruct S3.
    split; [done|]. right. split; [done|]. split; try done.
    + destruct F2 as [[[G0 G0'] G1] G2 G3]. by split.
    + rewrite (idle_steady c1 c2 S2) in Hi. unfold idle in *. destruct S1 as [A1 _ _ _]. injection A1 as _ A2 A3 _ _.
      by rewrite X1, X2, A2, A3 in Hi.
    + destruct S2 as [_ _ _ _ _ B6]. unfold due_within in *. cbn. by rewrite B6.
Qed.

(** What became of the clients [rest]: closed, or served, or peers that are left alone. *)
Definition attended (rest : list Z) (cl' : list Z) (w w' : worker) : Prop :=
  (forall id c, id ∈ rest -> w.(wk_store) !! id = Some c ->
     if bool_decide (id ∈ cl') then exists c', w'.(wk_store) !! id = Some c' /\ same_hold c c' /\ (is_peer c /\ c' = c \/ ~ is_peer c /\ served c c')
     else w'.(wk_store) !! id = None /\ ~ is_peer c) /\
  forall id, id ∉ rest -> w'.(wk_store) !! id = w.(wk_store) !! id.

Lemma keepalive_loop_spec h rest : forall n done cls ss w,
  worker_ok h (done ++ rest) cls ss w -> (forall id c, id ∈ rest -> w.(wk_store) !! id = Some c -> fine c) -> (length rest <= n)%nat ->
  exists w' rest' cls' ss', keepalive_loop cfg socket tick fuel version date lim n (head rest) w = Some w' /\
    worker_ok h (done ++ rest') cls' ss' w' /\ rest' `sublist_of` rest /\ attended rest (done ++ rest') w w' /\
    w'.(wk_new) = w.(wk_new) /\ w'.(wk_peers) = w.(wk_peers).
Proof.
  induction rest as [|id rest IH]; intros n done cls ss w Hw Hf Hn.
  { exists w, [], cls, ss. split; [by destruct n|]. split; [done|]. split; [constructor|]. split; [|done].
    split; [by intros ? ? ?%elem_of_nil|done]. }
  destruct n as [|n]; [cbn in Hn; lia|]. cbn [head keepalive_loop].
  pose proof (wo_lists _ _ _ _ _ Hw) as L. pose proof (lo_nodup _ _ _ L) as Hd. apply list.NoDup_app in Hd as (Hd & _ & _).
  pose proof (seg_pred _ _ _ _ _ (ls_seg _ _ (lo_list _ _ _ L) tt)) as [_ Hnext]. cbn [load]. rewrite Hnext. cbn [mbind option_bind].
  assert (id ∈ done ++ id :: rest) as Hid by (apply elem_of_app; right; left).
  destruct (lo_store _ _ _ L id) as [c Hc]; [apply elem_of_app; by left|].
  assert ((id ∉ done) /\ (id ∉ rest)) as [Hx1 Hx2].
  { apply list.NoDup_app in Hd as (_ & H1 & H2). apply list.NoDup_cons in H2 as [H2 _]. split; [|done]. intros Hi. apply (H1 id Hi). left. }
  destruct (keepalive_one_spec h _ cls ss w id c Hw Hid Hc) as (w1 & -> & Hone); [by eapply Hf; [left|]|]. cbn [mbind option_bind].
  destruct Hone as [[(C1 & C2 & C3 & C4) Cp]|(c' & -> & Sh & Hk)].
  - unfold rm in C1. rewrite filter_split in C1 by done.
    destruct (IH n done (without id cls) (gone id ss) w1 C1) as (w' & rest' & cls' & ss' & E & H1 & H2 & [H3 H4] & H5 & H6); [|cbn in Hn; lia|].
    { intros i x Hi. rewrite C2. intros [_ Hx]%lookup_delete_Some. by eapply Hf; [right|]. }
    assert (id ∉ done ++ rest') as Hout.
    { intros [?|Hi]%elem_of_app; [done|]. apply Hx2. by eapply elem_of_sublist. }
    exists w', rest', cls', ss'. split; [done|]. split; [done|]. split; [by constructor|]. split; [|split; congruence]. split.
    + intros i x [->|Hi]%elem_of_cons Hx.
      * rewrite bool_decide_eq_false_2 by done. rewrite H4 by done. rewrite C2, lookup_delete_eq. split; [done|]. by simplify_eq.
      * apply H3; [done|]. rewrite C2, lookup_delete_ne; [done|]. by intros ->.
    + intros i Hi. rewrite H4 by (intros ?; apply Hi; by right). rewrite C2, lookup_delete_ne; [done|]. intros ->. apply Hi. left.
  - assert (worker_ok h ((done ++ [id]) ++ rest) cls ss (put id c' w)) as Hw1 by (rewrite <- app_assoc; by eapply put_ok).
    destruct (IH n (done ++ [id]) cls ss (put id c' w) Hw1) as (w' & rest' & cls' & ss' & E & H1 & H2 & [H3 H4] & H5 & H6); [|cbn in Hn; lia|].
    { intros i x Hi. cbn. rewrite lookup_insert_ne by (by intros ->). intros Hx. by eapply Hf; [right|]. }
    exists w', (id :: rest'), cls', ss'. rewrite <- app_assoc in H1. split; [done|]. split; [done|]. split; [by constructor|].
    split; [|done]. rewrite <- app_assoc in H3. split.
    + intros i x [->|Hi]%elem_of_cons Hx.
      * rewrite bool_decide_eq_true_2 by (apply elem_of_app; right; left). exists c'. rewrite H4 by done. rewrite put_lookup.
        simplify_eq. done.
      * apply H3; [done|]. cbn. rewrite lookup_insert_ne; [done|]. by intros ->.
    + intros i Hi. rewrite H4 by (intros ?; apply Hi; by right). cbn. rewrite lookup_insert_ne; [done|]. intros ->. apply Hi. left.
Qed.

End Keepalives.

(** C13: Closing a client gives everything back, once: it is unlinked from the list of
    clients and from that of its class, whatever its place there; the references to the account of
    its port and to the UDP socket are dropped, which frees what nobody else uses; its
    filters, its session and its structure are gone; a lost uplink is reported; and nothing
    of the other clients changes. *)
Theorem client_close_releases h cl cls ss w id c :
  worker_ok h cl cls ss w -> id ∈ cl -> w.(wk_store) !! id = Some c -> is_Some (client_drops c.(wc_account).(ca_local)) ->
  exists w', client_close id w = Some w' /\ worker_ok h (rm id cl) (without id cls) (gone id ss) w' /\
    w'.(wk_store) = delete id w.(wk_store) /\ w'.(wk_new) = w.(wk_new) /\ w'.(wk_peers) = w.(wk_peers) /\
    w'.(wk_uplinks) = w.(wk_uplinks) ++ lost_uplink c.(wc_client).
Proof. apply client_close_spec. Qed.

(** ** A worker with a client and a new one *)

Definition demo_wconn : conn := mk_conn (repeat 0 64) 0 (repeat 0 256) 0 0 0 0 0 0 false false None 0 [] [].

(** A client on the port with the account 7, with an account of its own. *)
Definition demo_wclient (c : client_t) (u : option Z) (udp_port : Z) (udp_account : option Z) : wclient :=
  mk_wclient c (mk_client_filters [] [] [] [zero_filter 98] [] false) demo_wconn (mk_client_account (account_zero 1) (Some 7) udp_account)
    IPPROTO_TCP (str "127.0.0.1:14580") u udp_port 0 0 0 1 (Inet 0x7F000001) [] [].

(** A client that is logged in and has a UDP feed, and one that is new. *)
Definition demo_online : wclient := demo_wclient (demo_client "N0CALL" CLFLAGS_INPORT 1) (Some 5) 8080 (Some 8).
Definition demo_new : wclient :=
  demo_wclient (mk_client 2 6 CSTATE_LOGIN CLFLAGS_INPORT 0 [] 0 (str "7F000001") false false false ∅ ∅ 0 0
                  (S754_zero false) (S754_zero false) (S754_zero false)) None 0 None.

Definition demo_port (refcount : Z) : portaccount_t := set_pa_use 0 0 0 refcount (account_zero 0).

Definition demo_wk : worker :=
  mk_wk (<[1 := demo_online]> (<[2 := demo_new]> ∅))
    (mk_links {[tt := 1]} (<[1 := None]> (<[2 := None]> ∅)) (<[1 := AtHead tt]> ∅))
    (mk_links {[ClassOther := 1]} (<[1 := None]> (<[2 := None]> ∅)) (<[1 := AtHead ClassOther]> ∅))
    1 [2] []
    (mk_accounts (<[7 := demo_port 3]> (<[8 := demo_port 2]> ∅)) (account_zero 1) (account_zero 1) (account_zero 1))
    (<[5 := mk_client_udp (Some 8) 20 2 false 2 14580]> ∅)
    (clientlist_add ∅ demo_online.(wc_client)).1 12 [] [].

(** The listeners hold a reference to their accounts and to the socket, and others
    ten filters. *)
Definition demo_held : held :=
  mk_held (fun p => if (p =? 7) || (p =? 8) then 1 else 0) (fun u => if u =? 5 then 1 else 0) 10.

Definition demo_cls (k : client_class) : list Z := if bool_decide (k = ClassOther) then [1] else [].

Lemma demo_lookup i c : demo_wk.(wk_store) !! i = Some c -> i = 1 /\ c = demo_online \/ i = 2 /\ c = demo_new.
Proof.
  cbn. intros [[<- <-]|[H1 [[<- <-]|[H2 []%lookup_empty_Some]]%lookup_insert_Some]]%lookup_insert_Some; auto.
Qed.

Lemma demo_lists : lists_ok [1] demo_cls demo_wk.
Proof.
  split.
  - split.
    + intros []. by vm_compute.
    + intros _. apply NoDup_singleton.
    + by intros [] [] n.
    + intros n [q Hq]. exists tt. apply list_elem_of_singleton. cbn in Hq. apply lookup_insert_Some in Hq as [[<- _]|[_ []%lookup_empty_Some]]. done.
  - split.
    + intros []; by vm_compute.
    + intros []; first [apply NoDup_nil_2 | apply NoDup_singleton].
    + intros [] [] n; try done; by intros ?%elem_of_nil || by intros ? ?%elem_of_nil.
    + intros n [q Hq]. exists ClassOther. apply list_elem_of_singleton. cbn in Hq. apply lookup_insert_Some in Hq as [[<- _]|[_ []%lookup_empty_Some]]. done.
  - apply (bool_decide_unpack _). by vm_compute.
  - intros i [->|[->|[]%elem_of_nil]%elem_of_cons]%elem_of_cons; by eexists.
  - intros i [c [[-> _]|[-> _]]%demo_lookup]; by split; eexists.
  - intros k i Hi. unfold demo_cls in Hi. case_bool_decide as Hk; [|by apply elem_of_nil in Hi]. subst k. apply list_elem_of_singleton in Hi as ->.
    split; [left|]. exists demo_online. split; [done|]. split; [done|by left].
  - intros i c k ->%list_elem_of_singleton [= <-] _ [= <-]. left.
  - intros i [c [[-> _]|[-> _]]%demo_lookup]; [left|right; left].
  - done.
Qed.

Lemma demo_refs : refs_ok demo_held [1; 2] demo_wk.
Proof.
  split.
  - intros x. cbn. split; split_if; lia.
  - intros p. unfold demo_held, tally, of_client, port_refs. cbn -[lookup insert]. rewrite !lookup_insert_eq, lookup_insert_ne, lookup_insert_eq by done.
    cbn -[lookup insert bool_decide]. destruct (decide (p = 7)) as [->|H7]; [rewrite lookup_insert_eq; vm_compute; intuition discriminate|].
    rewrite lookup_insert_ne by done. destruct (decide (p = 8)) as [->|H8]; [rewrite lookup_insert_eq; vm_compute; intuition discriminate|].
    rewrite lookup_insert_ne, lookup_empty by done. rewrite !bool_decide_eq_false_2 by congruence. cbn. split; [|done]. split_if; lia.
  - intros u. unfold demo_held, tally, of_client, udp_refs. cbn -[lookup insert]. rewrite !lookup_insert_eq, lookup_insert_ne, lookup_insert_eq by done.
    cbn -[lookup insert bool_decide]. destruct (decide (u = 5)) as [->|H5]; [rewrite lookup_insert_eq; vm_compute; intuition discriminate|].
    rewrite lookup_insert_ne, lookup_empty by done. rewrite !bool_decide_eq_false_2 by congruence. cbn. split; [|done]. split_if; lia.
  - intros i c u [[-> ->]|[-> ->]]%demo_lookup [= <-]. by eexists.
  - intros i c [[-> ->]|[-> ->]]%demo_lookup Hu; [by eexists|done].
  - by vm_compute.
Qed.

Lemma demo_ok : worker_ok demo_held [1] demo_cls [demo_online.(wc_client)] demo_wk.
Proof.
  assert (session_ok demo_online.(wc_client)) as Hs by (split; [by vm_compute|]; split; [done|]; repeat constructor; done).
  split; [apply demo_lists|apply demo_refs|]. split.
  - apply (represents_step ∅ [] (Login (wc_client demo_online))); [apply represents_empty|done].
  - apply NoDup_singleton.
  - intros s c ->%list_elem_of_singleton. intros [[_ ->]|[E _]]%demo_lookup; [done|]. vm_compute in E. discriminate E.
  - intros i c [[-> ->]|[-> ->]]%demo_lookup; (split; [left|done]); [done|]. split; [by vm_compute|]. by split; [|constructor].
Qed.

(** Sockets that take four bytes at a time. *)
Definition demo_sockets (id : Z) (n : nat) : answer := demo_socket n.

Lemma demo_sockets_live id k : exists j, (j <= 0)%nat /\ demo_sockets id (k + j) <> Fails EINTR.
Proof. exists 0%nat. split; [done|]. unfold demo_sockets, demo_socket. by destruct (Nat.even _). Qed.

Definition demo_limits : limits := mk_limits 60 172800 30.

Lemma demo_fine i c : demo_wk.(wk_store) !! i = Some c -> fine demo_cfg (str "aprsc 2.1.19") (str "1 Jan 2024 00:00:00 GMT") c.
Proof.
  intros [[_ ->]|[_ ->]]%demo_lookup; (split; [split; [split; vm_compute; intuition discriminate|done]| |]); apply (bool_decide_unpack _); by vm_compute.
Qed.


Lemma client_close_releases_witness :
  exists w', client_close 1 demo_wk = Some w' /\ worker_ok demo_held [] (without 1 demo_cls) [] w' /\
    w'.(wk_store) = delete 1 demo_wk.(wk_store) /\ w'.(wk_new) = [2] /\ w'.(wk_peers) = [] /\ w'.(wk_uplinks) = [].
Proof.
  apply (client_close_releases demo_held [1] demo_cls [wc_client demo_online] demo_wk 1 demo_online demo_ok); [left|reflexivity|].
  by apply (demo_fine 1).
Defined.
