(* ===== verification/WorkerNew.v ===== *)
(** * New clients

    The worker takes the queue of new clients and adds them one by one to its lists.  The
    invariant of WorkerSpec.v speaks of the queue in the worker; here it is the
    part of it that is still to come. *)

From S2P Require Import Prelude Table Types ParseQc ParseAprs Clientlist ClientHeard Filter FilterParse FilterSpec Outgoing.
From S2P Require Import Plist ClientIO Accounting Worker WorkerSpec.
From Stdlib Require Import ZArith Lia Bool String.
From stdpp Require Import base tactics list gmap numbers.
Open Scope Z_scope.

(** The worker with another queue of new clients. *)
Definition with_new (l : list Z) (w : worker) : worker :=
  mk_wk w.(wk_store) w.(wk_list) w.(wk_class) w.(wk_count) l w.(wk_peers) w.(wk_accounts) w.(wk_udp) w.(wk_table) w.(wk_gauge)
    w.(wk_uplinks) w.(wk_fds).

(** The operations do not look at the queue. *)
Lemma udp_free_new u l w : client_udp_free u (with_new l w) = with_new l <$> client_udp_free u w.
Proof. destruct u as [u|]; [|done]. cbn [client_udp_free wk_udp with_new]. by destruct (wk_udp w !! u). Qed.

Lemma client_free_new id l w : client_free id (with_new l w) = with_new l <$> client_free id w.
Proof.
  unfold client_free. change (wk_store (with_new l w)) with (wk_store w). destruct (wk_store w !! id) as [c|]; [|done]. cbn [mbind option_bind].
  rewrite udp_free_new. by destruct (client_udp_free (wc_udpclient c) w).
Qed.

Lemma client_close_new id l w : client_close id (with_new l w) = with_new l <$> client_close id w.
Proof.
  unfold client_close. change (wk_store (with_new l w)) with (wk_store w). change (wk_list (with_new l w)) with (wk_list w).
  change (wk_class (with_new l w)) with (wk_class w). destruct (wk_store w !! id) as [c|]; [|done]. cbn [mbind option_bind].
  destruct (client_drops _); [|done]. destruct (unlink_node id _) as [l1|]; [|done]. destruct (unlink_class id _) as [l2|]; [|done].
  cbn [mbind option_bind]. change (drop_accounts c (with_new l w)) with (drop_accounts c w). destruct (drop_accounts c w) as [a|]; [|done].
  cbn [mbind option_bind]. apply (client_free_new id l (mk_wk (wk_store w) l1 l2 (wk_count w - 1) (wk_new w) (wk_peers w) a (wk_udp w) (wk_table w) (wk_gauge w) _ (wk_fds w))).
Qed.

Lemma close_all_new ids l w : close_all ids (with_new l w) = with_new l <$> close_all ids w.
Proof.
  revert w. induction ids as [|id ids IH]; intros w; [done|]. cbn [close_all]. rewrite client_close_new.
  destruct (client_close id w) as [w1|]; [|done]. apply IH.
Qed.

Lemma classify_new id l w : classify id (with_new l w) = with_new l <$> classify id w.
Proof.
  unfold classify. change (wk_store (with_new l w)) with (wk_store w). change (wk_class (with_new l w)) with (wk_class w).
  destruct (wk_store w !! id) as [c|]; [|done]. cbn [mbind option_bind]. destruct (client_class_of _) as [k|]; [|done].
  by destruct (push_front k id (wk_class w)).
Qed.

Lemma link_new id l w : link_client id (with_new l w) = with_new l <$> link_client id w.
Proof. unfold link_client. change (wk_list (with_new l w)) with (wk_list w). by destruct (push_front tt id (wk_list w)). Qed.

Lemma write_new socket tick n id text l w :
  worker_write socket tick n id text (with_new l w) = (fun x => (with_new l x.1, x.2)) <$> worker_write socket tick n id text w.
Proof.
  unfold worker_write. change (wk_store (with_new l w)) with (wk_store w). destruct (wk_store w !! id) as [c|]; [|done]. cbn [mbind option_bind].
  destruct (tcp_client_write _ _ _ _ _) as [[x rc]|]; [|done]. cbn [mbind option_bind]. destruct (is_closed x); [|done].
  change (put id (set_wc_conn x c) (with_new l w)) with (with_new l (put id (set_wc_conn x c) w)). rewrite client_close_new.
  by destruct (client_close id (put id (set_wc_conn x c) w)).
Qed.

Lemma greet_new socket tick n full version id c l w :
  greet socket tick n full version id c (with_new l w) = with_new l <$> greet socket tick n full version id c w.
Proof.
  unfold greet. destruct (bool_decide _).
  - unfold add_peer. change (wk_peers (with_new l w)) with (wk_peers w). change (wk_udp (with_new l w)) with (wk_udp w).
    destruct (zlen (wk_peers w) =? MAX_COREPEERS); [done|]. destruct (wc_udpclient c) as [u|]; [|done]. cbn [mbind option_bind].
    by destruct (wk_udp w !! u).
  - destruct (full id); [done|]. destruct (has _ _); [|done]. rewrite write_new. by destruct (worker_write _ _ _ _ _ w) as [[w1 rc]|].
Qed.

Lemma admit_new id c l w : admit_client id c (with_new l w) = with_new l <$> admit_client id c w.
Proof.
  unfold admit_client. rewrite link_new. destruct (link_client id w) as [w1|]; [|done]. cbn [fmap option_fmap option_map mbind option_bind].
  destruct (c_state (wc_client c)); try done; apply classify_new.
Qed.

Lemma collect_one_new socket tick n full version id l w :
  collect_one socket tick n full version id (with_new l w) = with_new l <$> collect_one socket tick n full version id w.
Proof.
  unfold collect_one. change (wk_store (with_new l w)) with (wk_store w). destruct (wk_store w !! id) as [c|]; [|done]. cbn [mbind option_bind].
  destruct (_ <? -1).
  - assert ((if c_fd (wc_client c) =? -2 then corepeer_close_all (with_new l w) else Some (with_new l w)) =
            with_new l <$> (if c_fd (wc_client c) =? -2 then corepeer_close_all w else Some w)) as ->.
    { destruct (_ =? -2); [|done]. unfold corepeer_close_all. change (wk_peers (with_new l w)) with (wk_peers w). rewrite close_all_new.
      by destruct (close_all (wk_peers w) w). }
    destruct (if c_fd (wc_client c) =? -2 then corepeer_close_all w else Some w) as [w1|]; [|done]. apply client_free_new.
  - rewrite admit_new. destruct (admit_client id c w) as [w1|]; [|done]. apply greet_new.
Qed.

Lemma collect_new socket tick n full version ids l w :
  collect socket tick n full version ids (with_new l w) = with_new l <$> collect socket tick n full version ids w.
Proof.
  revert w. induction ids as [|id ids IH]; intros w; [done|]. cbn [collect]. rewrite collect_one_new.
  destruct (collect_one _ _ _ _ _ id w) as [w1|]; [|done]. apply IH.
Qed.

(** ** Linking a client *)

Lemma upd_other {A} `{EqDecision A} (k h : A) l ls : k <> h -> upd h l ls k = ls k.
Proof. intros Hk. unfold upd. by destruct (decide (k = h)). Qed.

Lemma upd_self {A} `{EqDecision A} (h : A) l ls : upd h l ls h = l.
Proof. unfold upd. by destruct (decide (h = h)). Qed.

Lemma lists_ext {A} `{Countable A} (s : links (H := A)) ls ls' : (forall h, ls h = ls' h) -> lists s ls -> lists s ls'.
Proof.
  intros E [L1 L2 L3 L4]. split.
  - intros h. rewrite <- E. apply L1.
  - intros h. rewrite <- E. apply L2.
  - intros h h' n. rewrite <- !E. apply L3.
  - intros n Hn. destruct (L4 n Hn) as [h Hh]. exists h. by rewrite <- E.
Qed.

Lemma online_dec (c : wclient) : {online c} + {~ online c}.
Proof. unfold online. destruct (c_state (wc_client c)); (left; by auto) || (right; by intros [?|?]). Defined.

Lemma admit_client_eq id c w :
  w.(wk_store) !! id = Some c ->
  admit_client id c w = (w ← link_client id w;
                         match (if online_dec c then client_class_of c.(wc_client) else None) with
                         | Some k => class ← push_front k id w.(wk_class);
                             Some (mk_wk w.(wk_store) w.(wk_list) class w.(wk_count) w.(wk_new) w.(wk_peers) w.(wk_accounts) w.(wk_udp) w.(wk_table)
                                     w.(wk_gauge) w.(wk_uplinks) w.(wk_fds))
                         | None => Some w
                         end).
Proof.
  intros Hc. unfold admit_client, link_client. destruct (push_front tt id (wk_list w)) as [s|]; [|done]. cbn [mbind option_bind].
  unfold classify. cbn [wk_store]. rewrite Hc. cbn [mbind option_bind].
  destruct (online_dec c) as [Ho|Ho]; unfold online in Ho.
  - destruct Ho as [->| ->]; by destruct (client_class_of (wc_client c)).
  - destruct (c_state (wc_client c)); try done; destruct Ho; auto.
Qed.

Lemma admit_client_spec h cl cls ss w id c rest :
  worker_ok h cl cls ss w -> w.(wk_new) = id :: rest -> w.(wk_store) !! id = Some c ->
  exists w' cls', admit_client id c w = Some w' /\ worker_ok h (id :: cl) cls' ss (with_new rest w') /\
    w'.(wk_store) = w.(wk_store) /\ w'.(wk_peers) = w.(wk_peers) /\ w'.(wk_udp) = w.(wk_udp).
Proof.
  intros [L R S] Hn Hc. rewrite admit_client_eq by done. destruct L as [L1 L2 L3 L4 L5 L6 L7 L8 L9]. rewrite Hn in L3, L4, L8.
  assert ((id ∉ cl) /\ (id ∉ rest)) as [Hx1 Hx2].
  { apply list.NoDup_app in L3 as (_ & H1 & H2). apply list.NoDup_cons in H2 as [H2 _]. split; [|done]. intros Hi. apply (H1 id Hi). left. }
  assert (forall k, id ∉ cls k) as Hx3 by (intros k Hk; by destruct (L6 k id Hk)).
  destruct (L5 id) as [A1 A2]; [rewrite Hc; by eexists|].
  destruct (lists_push id tt _ _ L1 A1) as (s1 & E1 & P1 & K1); [done|]. unfold link_client. rewrite E1. cbn [mbind option_bind].
  set (k0 := if online_dec c then client_class_of (wc_client c) else None).
  assert (exists s2 cls', match k0 with Some k => push_front k id (wk_class w) | None => Some (wk_class w) end = Some s2 /\ lists s2 cls' /\
            keeps_nodes (wk_class w) s2 /\ (forall k, cls' k = if decide (k0 = Some k) then id :: cls k else cls k)) as (s2 & cls' & E2 & P2 & K2 & Ecls).
  { destruct k0 as [k|].
    - destruct (lists_push id k _ _ L2 A2 Hx3) as (s2 & E2 & P2 & K2). exists s2, (upd k (id :: cls k) cls). split; [done|]. split; [done|]. split; [done|].
      intros j. destruct (decide (Some k = Some j)) as [[= ->]|Hne]; [apply upd_self|]. apply upd_other. congruence.
    - exists (wk_class w), cls. split; [done|]. split; [done|]. split; [by intros ?|]. intros k. by destruct (decide (None = Some k)). }
  exists (mk_wk (wk_store w) s1 s2 (wk_count w + 1) (wk_new w) (wk_peers w) (wk_accounts w) (wk_udp w) (wk_table w) (wk_gauge w) (wk_uplinks w) (wk_fds w)), cls'.
  split; [destruct k0; cbn [mbind option_bind wk_class wk_store wk_list] in *; [rewrite E2; done|by injection E2 as <-]|]. split; [|done].
  assert (forall g, tally g ((id :: cl) ++ rest) = tally g (cl ++ id :: rest)) as Ht.
  { intros g. cbn [app]. rewrite tally_cons, !tally_app, tally_cons. lia. }
  assert (forall j, j ∈ (id :: cl) ++ rest <-> j ∈ cl ++ id :: rest) as Hperm.
  { intros j. cbn [app]. rewrite elem_of_cons, !elem_of_app, elem_of_cons. tauto. }
  split.
  - split; cbn [wk_list wk_class wk_store wk_new wk_count with_new]; try done.
    + eapply lists_ext; [|exact P1]. intros []. apply upd_self.
    + cbn [app]. apply list.NoDup_cons. apply list.NoDup_app in L3 as (H1 & H2 & H3). apply list.NoDup_cons in H3 as [_ H3]. split.
      * by intros [?|?]%elem_of_app.
      * apply list.NoDup_app. split; [done|]. split; [|done]. intros j Hj Hr. apply (H2 j Hj). by right.
    + intros j Hj. by apply L4, Hperm.
    + intros j Hj. destruct (L5 j Hj). split; [by apply K1|by apply K2].
    + intros k j. rewrite Ecls. destruct (decide (k0 = Some k)) as [Ek|].
      * intros [->|Hj]%elem_of_cons; [|destruct (L6 k j Hj); split; [by right|done]]. split; [left|]. exists c. split; [done|].
        unfold k0 in Ek. by destruct (online_dec c).
      * intros Hj. destruct (L6 k j Hj). split; [by right|done].
    + intros j x k Hj Hx Ho Hk. rewrite Ecls. apply elem_of_cons in Hj as [->|Hj].
      * rewrite Hc in Hx. injection Hx as <-. assert (k0 = Some k) as -> by (unfold k0; by destruct (online_dec c)).
        destruct (decide (Some k = Some k)); [left|done].
      * destruct (decide (k0 = Some k)); [right|]; by eapply L7.
    + intros j Hj. by apply Hperm, L8.
    + rewrite L9, zlen_cons. lia.
  - destruct R as [R0 R1 R2 R3 R4 R5]. rewrite Hn in R1, R2, R5. split; cbn [wk_new with_new wk_accounts wk_udp wk_gauge wk_store]; try done.
    + intros p. rewrite Ht. apply R1.
    + intros u. rewrite Ht. apply R2.
    + rewrite Ht. apply R5.
  - by destruct S.
Qed.

(** ** Peers and clients that are not wanted *)

Definition peers_ok (cl : list Z) (w : worker) : Prop := NoDup w.(wk_peers) /\ forall id, id ∈ w.(wk_peers) -> id ∈ cl.

Section Collect.
Variable cfg : config.
Variable socket : Z -> nat -> answer.
Variable tick : Z.
Variable interrupts : nat.
Hypothesis sockets_live : forall id k, exists j, (j <= interrupts)%nat /\ socket id (k + j)%nat <> Fails EINTR.
Variable poll_full : Z -> bool.
Variable version date : list Z.

Abbreviation fuel := (interrupts + 1)%nat (only parsing).
Abbreviation fine := (fine cfg version date) (only parsing).

Definition all_fine (w : worker) : Prop := forall id c, w.(wk_store) !! id = Some c -> fine c.

Lemma close_all_spec h ids : forall cl cls ss w,
  worker_ok h cl cls ss w -> all_fine w -> NoDup ids -> (forall id, id ∈ ids -> id ∈ cl) ->
  exists w' cl' cls' ss', close_all ids w = Some w' /\ worker_ok h cl' cls' ss' w' /\ all_fine w' /\ w'.(wk_new) = w.(wk_new) /\
    (forall id, id ∉ ids -> w'.(wk_store) !! id = w.(wk_store) !! id) /\ (forall id, id ∈ cl -> id ∉ ids -> id ∈ cl').
Proof.
  induction ids as [|id ids IH]; intros cl cls ss w Hw Hf Hd Hin; [by exists w, cl, cls, ss|].
  apply list.NoDup_cons in Hd as [Hid Hd]. cbn [close_all].
  destruct (lo_store _ _ _ (wo_lists _ _ _ _ _ Hw) id) as [c Hc]; [apply elem_of_app; left; apply Hin; left|].
  destruct (client_close_spec h cl cls ss w id c Hw) as (w1 & E & H1 & H2 & H3 & _ & _); [apply Hin; left|done|by apply (Hf id)|].
  rewrite E. cbn [mbind option_bind]. destruct (IH (rm id cl) (without id cls) (gone id ss) w1 H1) as (w' & cl' & cls' & ss' & E' & G1 & G2 & G3 & G4 & G5).
  - intros i x. rewrite H2. intros [_ Hx]%lookup_delete_Some. by apply (Hf i).
  - done.
  - intros i Hi. apply in_rm. split; [apply Hin; by right|]. by intros ->.
  - exists w', cl', cls', ss'. split; [done|]. split; [done|]. split; [done|]. split; [congruence|]. split; intros i Hi.
    + rewrite G4 by (intros ?; apply Hi; by right). rewrite H2, lookup_delete_ne; [done|]. intros ->. apply Hi. left.
    + intros Hn. apply G5; [apply in_rm; split; [done|]; intros ->; apply Hn; left|]. intros ?. apply Hn. by right.
Qed.

(** A client that stands for a message is only freed. *)
Lemma discard_spec h cl cls ss w id c rest :
  worker_ok h cl cls ss w -> w.(wk_new) = id :: rest -> w.(wk_store) !! id = Some c ->
  c.(wc_account).(ca_port) = None -> c.(wc_udp_port) = 0 ->
  exists w', client_free id w = Some w' /\ worker_ok h cl cls (gone id ss) (with_new rest w') /\
    w'.(wk_store) = delete id w.(wk_store) /\ w'.(wk_peers) = w.(wk_peers).
Proof.
  intros [L R S] Hn Hc Hp Hu. destruct L as [L1 L2 L3 L4 L5 L6 L7 L8 L9]. rewrite Hn in L3, L4, L8.
  assert ((id ∉ cl) /\ (id ∉ rest)) as [Hx1 Hx2].
  { apply list.NoDup_app in L3 as (_ & H1 & H2). apply list.NoDup_cons in H2 as [H2 _]. split; [|done]. intros Hi. apply (H1 id Hi). left. }
  assert (NoDup (cl ++ rest)) as Hnd.
  { apply list.NoDup_app in L3 as (H1 & H2 & H3). apply list.NoDup_cons in H3 as [_ H3]. apply list.NoDup_app. split; [done|]. split; [|done].
    intros j Hj Hr. apply (H2 j Hj). by right. }
  assert (forall f, tally (of_client w f 0) (cl ++ id :: rest) = f c + tally (of_client w f 0) (cl ++ rest)) as Ht.
  { intros f. rewrite !tally_app, tally_cons. unfold of_client at 2. rewrite Hc. lia. }
  destruct (client_free_spec h id c cl cls ss (with_new rest w)) as (w' & E & H1 & H2 & _ & H4 & _).
  2:{ rewrite client_free_new in E. destruct (client_free id w) as [w1|]; [|done]. injection E as <-. by exists w1. }
  destruct R as [R0 R1 R2 R3 R4 R5]. rewrite Hn in R1, R2, R5.
  split; cbn [wk_store wk_new wk_list wk_class wk_count wk_accounts wk_udp wk_gauge with_new]; try done.
  - by intros [?|?]%elem_of_app.
  - split; cbn [wk_store wk_new wk_list wk_class wk_count]; try done.
    + by apply lists_free.
    + apply lists_free; [done|]. intros k Hk. by destruct (L6 k id Hk).
    + intros i Hi. rewrite lookup_delete_ne by (intros ->; by apply elem_of_app in Hi as [?|?]). apply L4. apply elem_of_app in Hi as [Hi|Hi];
        apply elem_of_app; [by left|right; by right].
    + intros i [x [Hne Hx]%lookup_delete_Some]. cbn [free_node li_next]. rewrite !lookup_delete_ne by done. apply L5. by eexists.
    + intros k i Hi. destruct (L6 k i Hi) as [H1 H2]. split; [done|]. rewrite lookup_delete_ne; [done|]. by intros ->.
    + intros i x k Hi. rewrite lookup_delete_ne by (by intros ->). intros Hx Ho Hk. by eapply L7.
    + intros i [x [Hne Hx]%lookup_delete_Some]. assert (i ∈ cl ++ id :: rest) as Hi by (apply L8; by eexists).
      apply elem_of_app in Hi as [Hi|[->|Hi]%elem_of_cons]; apply elem_of_app; [by left|done|by right].
  - intros p. specialize (R1 p). rewrite Ht in R1. unfold port_refs at 1 in R1. rewrite Hp, Hu in R1. cbn in R1. exact R1.
  - intros u. specialize (R2 u). rewrite Ht in R2. exact R2.
  - rewrite R5, Ht, Z.add_assoc. reflexivity.
  - by destruct S.
Qed.
(** A peer is entered in the array of peers. *)
Lemma add_peer_spec h cl cls ss w id c u :
  worker_ok h cl cls ss w -> id ∈ cl -> w.(wk_store) !! id = Some c -> c.(wc_udpclient) = Some u -> zlen w.(wk_peers) < MAX_COREPEERS ->
  exists w', add_peer id c w = Some w' /\ worker_ok h cl cls ss w' /\ w'.(wk_peers) = w.(wk_peers) ++ [id] /\
    exists c', w'.(wk_store) = <[id := c']> w.(wk_store) /\ wc_conn c' = wc_conn c /\ wc_account c' = wc_account c /\ wc_addr_loc c' = wc_addr_loc c.
Proof.
  intros Hw Hid Hc Hu Hz. unfold add_peer. destruct (Z.eqb_spec (zlen (wk_peers w)) MAX_COREPEERS); [lia|]. rewrite Hu. cbn [mbind option_bind].
  destruct (ro_account _ _ _ (wo_refs _ _ _ _ _ Hw) id c u Hc Hu) as (s & Hs & _). rewrite Hs. cbn [mbind option_bind].
  eexists. split; [done|]. split; [|split; [done|by eexists]].
  set (c' := set_wc_client _ c). assert (worker_ok h cl cls ss (put id c' w)) as [L R S] by (eapply put_ok; [done|done|by split]).
  split; [by destruct L| |by destruct S]. destruct R as [R0 R1 R2 R3 R4 R5]. split; try done.
  - intros v. cbn [wk_udp]. specialize (R2 v). cbn in R2. destruct (decide (v = u)) as [->|Hne].
    + rewrite lookup_insert_eq. rewrite Hs in R2. exact R2.
    + rewrite lookup_insert_ne by done. exact R2.
  - intros i x v Hx Hv. destruct (R3 i x v Hx Hv) as (s' & Hs' & Es'). cbn [wk_udp] in *. destruct (decide (v = u)) as [->|Hne].
    + rewrite lookup_insert_eq. eexists. split; [done|]. cbn in Hs'. rewrite Hs in Hs'. injection Hs' as <-. done.
    + rewrite lookup_insert_ne by done. by exists s'.
Qed.

(** What a new client must be: usable, and a peer has its UDP socket; one that stands for a
    message holds nothing of a port. *)
Definition newcomer (c : wclient) : Prop :=
  if c.(wc_client).(c_fd) <? -1 then c.(wc_account).(ca_port) = None /\ c.(wc_udp_port) = 0
  else c.(wc_client).(c_state) = CSTATE_COREPEER -> is_Some c.(wc_udpclient).

(** A client that stays: it is not a message and no peer, and its connection does not break
    at the first write, or nothing is written. *)
Definition welcome (id : Z) (c : wclient) : Prop :=
  -1 <= c.(wc_client).(c_fd) /\ ~ is_peer c /\
  (poll_full id = true \/ has c.(wc_client).(c_flags) CLFLAGS_INPORT = false \/
   exists x rc, tcp_client_write (socket id) tick fuel c.(wc_conn) (str "# " ++ version ++ [13; 10]) = Some (x, rc) /\ is_closed x = false).

(** The state between two new clients; [rest] are still to come. *)
Record collecting (h : held) (rest : list Z) (cl : list Z) (cls : client_class -> list Z) (ss : list client_t) (w : worker) : Prop := {
  cg_ok : worker_ok h cl cls ss (with_new rest w);
  cg_fine : all_fine w;
  cg_new : forall id c, id ∈ rest -> w.(wk_store) !! id = Some c -> newcomer c;
  cg_peers : peers_ok cl w;
  cg_room : zlen w.(wk_peers) + zlen rest <= MAX_COREPEERS
}.

Lemma greet_spec h rest cl cls ss w id c :
  collecting h rest (id :: cl) cls ss w -> zlen w.(wk_peers) + zlen rest < MAX_COREPEERS -> w.(wk_store) !! id = Some c -> id ∉ wk_peers w ->
  (c.(wc_client).(c_state) = CSTATE_COREPEER -> is_Some c.(wc_udpclient)) ->
  exists w' cl' cls' ss', greet socket tick fuel poll_full version id c w = Some w' /\ collecting h rest cl' cls' ss' w' /\
    (forall i, i <> id -> w'.(wk_store) !! i = w.(wk_store) !! i) /\ (forall i, i ∈ cl -> i <> id -> i ∈ cl') /\
    (forall i, i <> id -> i ∈ w'.(wk_peers) -> i ∈ w.(wk_peers)) /\ (welcome id c -> id ∈ cl' /\ id ∉ w'.(wk_peers)).
Proof.
  intros [C1 C2 C3 [C4 C4'] C5] Hz Hc Hnp Hu. pose proof (zlen_nonneg rest) as Hzr.
  assert (id ∉ rest) as Hrest.
  { pose proof (lo_nodup _ _ _ (wo_lists _ _ _ _ _ C1)) as Hd. cbn [app] in Hd. apply list.NoDup_cons in Hd as [Hd _]. intros Hi. apply Hd.
    apply elem_of_app. by right. }
  assert (exists w' cl' cls' ss', greet socket tick fuel poll_full version id c (with_new rest w) = Some w' /\ worker_ok h cl' cls' ss' w' /\
            all_fine w' /\ (forall i, i <> id -> w'.(wk_store) !! i = w.(wk_store) !! i) /\ wk_new w' = rest /\ peers_ok cl' w' /\
            zlen w'.(wk_peers) <= zlen w.(wk_peers) + 1 /\ (forall i, i ∈ cl -> i <> id -> i ∈ cl') /\
            (forall i, i <> id -> i ∈ w'.(wk_peers) -> i ∈ w.(wk_peers)) /\ (welcome id c -> id ∈ cl' /\ id ∉ w'.(wk_peers)))
    as (w' & cl' & cls' & ss' & E & H1 & H2 & H3 & H4 & H5 & H6 & H7 & H8 & H9).
  2:{ rewrite greet_new in E. destruct (greet socket tick fuel poll_full version id c w) as [w1|]; [|done]. injection E as <-.
      exists w1, cl', cls', ss'. split; [done|]. split; [|done]. split; try done; [|cbn in H6; lia].
      intros i x Hi Hx. eapply C3; [done|]. rewrite <- H3; [done|]. by intros ->. }
  unfold greet. case_bool_decide as Hp.
  - destruct (Hu Hp) as [u Eu]. destruct (add_peer_spec h (id :: cl) cls ss (with_new rest w) id c u C1) as (w' & E & A1 & A2 & c' & A3 & A4 & A5 & A6);
      [left|done|done|cbn; lia|]. exists w', (id :: cl), cls, ss. split; [done|]. split; [done|]. split.
    { intros i x. rewrite A3. destruct (decide (i = id)) as [->|Hne]; [|rewrite lookup_insert_ne by done; by apply C2].
      rewrite lookup_insert_eq. intros [= <-]. destruct (C2 id c Hc) as [F1 F2 F3]. split; [by rewrite A4|by rewrite A5|by rewrite A6]. }
    split; [intros i Hi; by rewrite A3, lookup_insert_ne|]. split.
    { unfold add_peer in E. split_if_in E; [done|]. inv_bind E. inv_bind E. by injection E as <-. }
    unfold peers_ok. rewrite A2. change (wk_peers (with_new rest w)) with (wk_peers w). split; [|split; [rewrite zlen_app; change (zlen [id]) with 1; lia|]]; [split|].
    + apply list.NoDup_app. split; [done|]. split; [|apply NoDup_singleton]. intros i Hi ->%list_elem_of_singleton. done.
    + intros i [Hi|Hi]%elem_of_app; [by apply C4'|]. apply list_elem_of_singleton in Hi as ->. left.
    + split; [intros i Hi _; by right|]. split; [|by intros (_ & [] & _)].
      intros i Hne [Hi|Hi]%elem_of_app; [done|]. by apply list_elem_of_singleton in Hi.
  - assert (exists w' cl' cls' ss', Some (with_new rest w) = Some w' /\ worker_ok h cl' cls' ss' w' /\
            all_fine w' /\ (forall i, i <> id -> w'.(wk_store) !! i = w.(wk_store) !! i) /\ wk_new w' = rest /\ peers_ok cl' w' /\
            zlen w'.(wk_peers) <= zlen w.(wk_peers) + 1 /\ (forall i, i ∈ cl -> i <> id -> i ∈ cl') /\
            (forall i, i <> id -> i ∈ w'.(wk_peers) -> i ∈ w.(wk_peers)) /\ (welcome id c -> id ∈ cl' /\ id ∉ w'.(wk_peers))) as Hsame.
    { exists (with_new rest w), (id :: cl), cls, ss. repeat (split; [done|]). split; [cbn; lia|]. split; [intros i Hi _; by right|].
      split; [done|]. intros _. split; [left|done]. }
    destruct (poll_full id) eqn:Epf; [done|]. destruct (has _ CLFLAGS_INPORT) eqn:Ein; [|done].
    destruct (worker_write_spec cfg socket tick interrupts sockets_live version date h (id :: cl) cls ss (with_new rest w) id c
                (str "# " ++ version ++ [13; 10]) C1) as (w' & rc & E & Hr); [left|done|by apply (C2 id)|by right|].
    rewrite E. cbn [mbind option_bind]. destruct (rc <? -2).
    + destruct Hr as (A1 & A2 & A3 & A4). exists w', (rm id (id :: cl)), (without id cls), (gone id ss). split; [done|]. split; [done|].
      change (wk_store (with_new rest w)) with (wk_store w) in A2. change (wk_peers (with_new rest w)) with (wk_peers w) in A4.
      split; [intros i x; rewrite A2; intros [_ Hx]%lookup_delete_Some; by apply (C2 i)|].
      split; [intros i Hi; by rewrite A2, lookup_delete_ne|]. split; [done|]. unfold peers_ok. rewrite A4. split.
      { split; [done|]. intros i Hi. apply in_rm. split; [by apply C4'|]. by intros ->. }
      split; [lia|]. split; [intros i Hi Hne; apply in_rm; split; [by right|done]|]. split; [done|].
      intros (_ & _ & [Hx|[Hx|(x & rc' & Ex & Hx)]]); [congruence|congruence|]. exfalso. unfold worker_write in E.
      change (wk_store (with_new rest w)) with (wk_store w) in E. rewrite Hc in E. cbn [mbind option_bind] in E. rewrite Ex in E.
      cbn [mbind option_bind] in E. rewrite Hx in E. injection E as <- _. cbn in A2. apply (f_equal (lookup id)) in A2.
      by rewrite lookup_insert_eq, lookup_delete_eq in A2.
    + destruct Hr as (x & -> & X1 & X2). exists (put id (set_wc_conn x c) (with_new rest w)), (id :: cl), cls, ss. split; [done|].
      split; [eapply put_ok; [done|done|by split]|]. split.
      { intros i y. cbn. destruct (decide (i = id)) as [->|Hne]; [|rewrite lookup_insert_ne by done; by apply C2].
        rewrite lookup_insert_eq. intros [= <-]. destruct (C2 id c Hc) as [F1 F2 F3]. by split. }
      split; [intros i Hi; cbn; by rewrite lookup_insert_ne|]. split; [done|]. split; [done|]. split; [cbn; lia|].
      split; [intros i Hi _; by right|]. split; [done|]. intros _. split; [left|done].
Qed.

(** In the list of clients, and no peer. *)
Definition stays (id : Z) (cl : list Z) (w : worker) : Prop := id ∈ cl /\ id ∉ w.(wk_peers).

Lemma collect_one_spec h id rest cl cls ss w :
  collecting h (id :: rest) cl cls ss w ->
  exists w' cl' cls' ss', collect_one socket tick fuel poll_full version id w = Some w' /\ collecting h rest cl' cls' ss' w' /\
    (forall i, i ∈ rest -> w'.(wk_store) !! i = w.(wk_store) !! i) /\ (forall i, stays i cl w -> stays i cl' w') /\
    forall c, w.(wk_store) !! id = Some c -> welcome id c -> stays id cl' w'.
Proof.
  intros [C1 C2 C3 C4 C5]. rewrite zlen_cons in C5. pose proof (wo_lists _ _ _ _ _ C1) as L.
  destruct (lo_store _ _ _ L id) as [c Hc]; [apply elem_of_app; right; left|]. cbn in Hc. pose proof (lo_nodup _ _ _ L) as Hd. cbn [wk_new with_new] in Hd.
  assert ((id ∉ cl) /\ (id ∉ rest)) as [Hx1 Hx2].
  { apply list.NoDup_app in Hd as (_ & H1 & H2). apply list.NoDup_cons in H2 as [H2 _]. split; [|done]. intros Hi. apply (H1 id Hi). left. }
  unfold collect_one. rewrite Hc. cbn [mbind option_bind]. pose proof (C3 id c ltac:(left) Hc) as Hnew. unfold newcomer in Hnew.
  destruct (c_fd (wc_client c) <? -1) eqn:Ef.
  - destruct Hnew as [N1 N2].
    assert (exists w1 cl1 cls1 ss1, (if c_fd (wc_client c) =? -2 then corepeer_close_all w else Some w) = Some w1 /\
              worker_ok h cl1 cls1 ss1 (with_new (id :: rest) w1) /\ all_fine w1 /\ peers_ok cl1 w1 /\ zlen (wk_peers w1) <= zlen (wk_peers w) /\
              (forall i, i ∈ id :: rest -> wk_store w1 !! i = wk_store w !! i) /\ (forall i, stays i cl w -> stays i cl1 w1))
      as (w1 & cl1 & cls1 & ss1 & -> & D1 & D2 & D3 & D4 & D5 & D6).
    { destruct (_ =? -2); [|by exists w, cl, cls, ss]. unfold corepeer_close_all. destruct C4 as [P1 P2].
      destruct (close_all_spec h (wk_peers w) cl cls ss (with_new (id :: rest) w) C1 C2 P1 P2) as (w1 & cl1 & cls1 & ss1 & E & H1 & H2 & H3 & H4 & H5).
      rewrite close_all_new in E. destruct (close_all (wk_peers w) w) as [w2|]; [|done]. injection E as <-. cbn [mbind option_bind].
      exists (set_wk_peers [] w2), cl1, cls1, ss1. split; [done|]. split; [by destruct H1 as [[] [] []]; split|]. split; [done|].
      split; [split; [constructor|by intros ? ?%elem_of_nil]|]. split; [apply zlen_nonneg|]. split; [|intros i [Hi Hn]; split; [by apply H5|apply not_elem_of_nil]]. intros i Hi. apply H4. intros Hpi%P2.
      apply list.NoDup_app in Hd as (_ & Hd & _). by apply (Hd i). }
    cbn [mbind option_bind]. assert (wk_store w1 !! id = Some c) as Hc1 by (rewrite D5; [done|left]).
    destruct (discard_spec h cl1 cls1 ss1 (with_new (id :: rest) w1) id c rest D1 eq_refl Hc1 N1 N2) as (w2 & E & G1 & G2 & G3).
    rewrite client_free_new in E. destruct (client_free id w1) as [w3|]; [|done]. injection E as <-.
    exists w3, cl1, cls1, (gone id ss1). split; [done|]. cbn in G2, G3. split; [|split; [|split]].
    2:{ intros i Hi. rewrite G2, lookup_delete_ne by (by intros ->). apply D5. by right. }
    2:{ intros i Hi. unfold stays. rewrite G3. by apply D6. }
    2:{ intros x Hx [Hw _]. assert (x = c) as -> by congruence. lia. }
    split; try done.
    + intros i x. rewrite G2. intros [_ Hx]%lookup_delete_Some. by apply (D2 i).
    + intros i x Hi. rewrite G2. intros [_ Hx]%lookup_delete_Some. eapply C3; [by right|]. rewrite <- D5; [done|by right].
    + unfold peers_ok. by rewrite G3.
    + rewrite G3. lia.
  - destruct (admit_client_spec h cl cls ss (with_new (id :: rest) w) id c rest C1 eq_refl Hc) as (w1 & cls1 & E & A1 & A2 & A3 & A4).
    rewrite admit_new in E. destruct (admit_client id c w) as [w2|]; [|done]. injection E as <-.
    cbn [mbind option_bind]. cbn in A2, A3. destruct (greet_spec h rest cl cls1 ss w2 id c) as (w' & cl' & cls' & ss' & E & G1 & G2 & G3 & G4 & G5).
    6:{ exists w', cl', cls', ss'. split; [done|]. split; [done|]. split; [intros i Hi; rewrite G2 by (by intros ->); by rewrite A2|].
        split; [|intros x Hx Hwel; assert (x = c) as -> by congruence; by apply G5]. intros i [Hi Hn].
        assert (i <> id) as Hne by (by intros ->). split; [by apply G3|]. intros Hp%G4; [|done]. by rewrite A3 in Hp. }
    + split; try done.
      * intros i x. rewrite A2. apply C2.
      * intros i x Hi. rewrite A2. intros Hx. eapply C3; [by right|done].
      * destruct C4 as [P1 P2]. unfold peers_ok. rewrite A3. split; [done|]. intros i Hi. right. by apply P2.
      * rewrite A3. lia.
    + rewrite A3. lia.
    + by rewrite A2.
    + rewrite A3. intros Hp. by apply Hx1, C4.
    + exact Hnew.
Qed.

Lemma collect_spec h rest : forall cl cls ss w,
  collecting h rest cl cls ss w ->
  exists w' cl' cls' ss', collect socket tick fuel poll_full version rest w = Some w' /\ collecting h [] cl' cls' ss' w' /\
    (forall i, stays i cl w -> stays i cl' w') /\
    forall i c, i ∈ rest -> w.(wk_store) !! i = Some c -> welcome i c -> stays i cl' w'.
Proof.
  induction rest as [|id rest IH]; intros cl cls ss w Hc.
  { exists w, cl, cls, ss. repeat (split; [done|]). by intros ? ? ?%elem_of_nil. }
  destruct (collect_one_spec h id rest cl cls ss w Hc) as (w1 & cl1 & cls1 & ss1 & E & H1 & H2 & H3 & H4). cbn [collect]. rewrite E.
  cbn [mbind option_bind]. destruct (IH cl1 cls1 ss1 w1 H1) as (w' & cl' & cls' & ss' & E' & G1 & G2 & G3).
  exists w', cl', cls', ss'. split; [done|]. split; [done|]. split; [auto|]. intros i c [->|Hi]%elem_of_cons Hx Hwel.
  - by eapply G2, H4.
  - eapply G3; [done| |done]. by rewrite H2.
Qed.

End Collect.

