(* ===== verification/Newclient.v ===== *)
(** * worker.c: the structures of new clients

    A client is allocated, given its references to the account of a port and to a UDP
    socket, and passed to a worker.  The UDP sockets are in two lists, of sockets for
    clients and for peers ([root]); a socket that was freed is unlinked, which is when
    it is not in [wk_udp] any more. *)

From S2P Require Import Prelude Table Types Acl ParseQc ParseAprs Clientlist ClientHeard Filter FilterParse FilterSpec Outgoing.
From S2P Require Import Plist ClientIO Accounting Worker WorkerSpec.
From Stdlib Require Import ZArith Lia Bool String SpecFloat.
From stdpp Require Import base tactics list gmap numbers.
Open Scope Z_scope.

(** A pointer that is set. *)
Definition given {A} (o : option A) : bool := match o with Some _ => true | None => false end.

Definition AF_INET : Z := 2.
Definition AF_INET6 : Z := 10.

(** [client_alloc] at the address [id]. *)
Definition client_alloc (id tick ibuf_size obuf_size : Z) : wclient :=
  mk_wclient
    (mk_client id (-1) CSTATE_INIT 0 0 [] 0 [] false false false ∅ ∅ 0 0 (S754_zero false) (S754_zero false) (S754_zero false))
    (mk_client_filters [] [] [] [] [] false)
    (mk_conn (repeat 0 (Z.to_nat ibuf_size)) 0 (repeat 0 (Z.to_nat obuf_size)) 0 0 0 0 tick 0 false false None 0 [] [])
    (mk_client_account (account_zero 0) None None) 0 [] None 0 tick 0 (tick + 120) 0 OtherFamily [] [].

(** A socket that is closed without a client. *)
Definition close_fd (fd : Z) (w : worker) : worker :=
  mk_wk w.(wk_store) w.(wk_list) w.(wk_class) w.(wk_count) w.(wk_new) w.(wk_peers) w.(wk_accounts) w.(wk_udp) w.(wk_table)
    w.(wk_gauge) w.(wk_uplinks) (w.(wk_fds) ++ [fd]).

(** ** UDP sockets *)

Definition set_wk_udp (m : gmap Z client_udp_t) (w : worker) : worker :=
  mk_wk w.(wk_store) w.(wk_list) w.(wk_class) w.(wk_count) w.(wk_new) w.(wk_peers) w.(wk_accounts) m w.(wk_table)
    w.(wk_gauge) w.(wk_uplinks) w.(wk_fds).
Definition set_wk_accounts (a : accounts) (w : worker) : worker :=
  mk_wk w.(wk_store) w.(wk_list) w.(wk_class) w.(wk_count) w.(wk_new) w.(wk_peers) a w.(wk_udp) w.(wk_table)
    w.(wk_gauge) w.(wk_uplinks) w.(wk_fds).

(** [client_udp_alloc]; the caller sets the family and the account. *)
Definition client_udp_alloc (u fd portnum : Z) (root : list Z) (w : worker) : list Z * worker :=
  (u :: root, set_wk_udp (<[u := mk_client_udp None fd 1 false 0 portnum]> w.(wk_udp)) w).

Definition udp_matches (af portnum : Z) (w : worker) (u : Z) : bool :=
  match w.(wk_udp) !! u with Some s => (s.(cu_portnum) =? portnum) && (s.(cu_af) =? af) | None => false end.

(** [client_udp_find]: a reference to the first socket of the list on the port. *)
Definition client_udp_find (root : list Z) (af portnum : Z) (w : worker) : option (option Z * worker) :=
  match List.find (udp_matches af portnum w) root with
  | None => Some (None, w)
  | Some u => s ← w.(wk_udp) !! u; Some (Some u, set_wk_udp (<[u := set_cu_refcount (s.(cu_refcount) + 1) s]> w.(wk_udp)) w)
  end.

(** A client that is allocated, with its pointers NULL. *)
Definition add_client (id : Z) (c : wclient) (w : worker) : worker :=
  mk_wk (<[id := c]> w.(wk_store)) (alloc_node id w.(wk_list)) (alloc_node id w.(wk_class)) w.(wk_count) w.(wk_new) w.(wk_peers)
    w.(wk_accounts) w.(wk_udp) w.(wk_table) w.(wk_gauge) w.(wk_uplinks) w.(wk_fds).

(** [hexsockaddr]: the address in the form of the Q construct. *)
Definition hex_digit (n : Z) : Z := if n <? 10 then 48 + n else 55 + n.
Definition hex_byte (b : Z) : list Z := [hex_digit (Z.shiftr b 4); hex_digit (Z.land b 15)].
Definition word_bytes (w : Z) : list Z :=
  [Z.land (Z.shiftr w 24) 255; Z.land (Z.shiftr w 16) 255; Z.land (Z.shiftr w 8) 255; Z.land w 255].

Definition hexsockaddr (sa : sockaddr) : option (list Z) :=
  match unmap sa with
  | Inet a => Some (flat_map hex_byte (word_bytes a))
  | Inet6 w => Some (flat_map hex_byte (flat_map word_bytes w))
  | OtherFamily => None
  end.

(** * Lemmas *)

(** What the new client [c] may hold in a worker whose accounts, sockets and gauge count
    it already: [ports] are its references to accounts. *)
Record provided (h : held) (ids : list Z) (ports : Z -> Z) (c : wclient) (w0 w : worker) : Prop := {
  pr_port : forall p, counted (h.(he_port) p) (ports p + tally (of_client w0 (port_refs p) 0) ids) (acc_count w.(wk_accounts) p);
  pr_udp : forall u, counted (h.(he_udp) u) (udp_refs u c + tally (of_client w0 (udp_refs u) 0) ids) (cu_refcount <$> w.(wk_udp) !! u);
  pr_kept : forall u s, w0.(wk_udp) !! u = Some s -> exists s', w.(wk_udp) !! u = Some s' /\ s'.(cu_portaccount) = s.(cu_portaccount);
  pr_account : forall u, c.(wc_udpclient) = Some u -> exists s, w.(wk_udp) !! u = Some s /\ c.(wc_account).(ca_udp) = s.(cu_portaccount);
  pr_feed : c.(wc_udp_port) <> 0 -> is_Some c.(wc_udpclient);
  pr_gauge : w.(wk_gauge) = w0.(wk_gauge) + filter_count c.(wc_filters);
  pr_rest : (w.(wk_store), w.(wk_list), w.(wk_class), w.(wk_count)) = (w0.(wk_store), w0.(wk_list), w0.(wk_class), w0.(wk_count)) /\
            (w.(wk_new), w.(wk_table)) = (w0.(wk_new), w0.(wk_table))
}.

Lemma of_client_add {A} w (f : wclient -> A) d id c i : i <> id -> of_client (add_client id c w) f d i = of_client w f d i.
Proof. intros Hi. unfold of_client. cbn. by rewrite lookup_insert_ne. Qed.

(** A new client in the queue keeps the invariant. *)
Lemma enqueue_ok h cl cls ss w0 w id c :
  worker_ok h cl cls ss w0 -> provided h (cl ++ w0.(wk_new)) (fun p => port_refs p c) c w0 w -> w0.(wk_store) !! id = None -> id ∉ map c_id ss ->
  session_ok c.(wc_client) -> c.(wc_client).(c_id) = id ->
  worker_ok h cl cls ss (pass_client_to_worker id (add_client id c w)).
Proof.
  intros [L R S] [P1 P2 P3 P4 P5 P6 [E1 E2]] Hid Hss Hs Hi. injection E1 as Es El Ec En. injection E2 as Ew Et.
  assert (id ∉ cl ++ wk_new w0) as Hout by (intros Hin; destruct (lo_store _ _ _ L id Hin); congruence).
  assert (forall f, tally (of_client (pass_client_to_worker id (add_client id c w)) f 0) (cl ++ wk_new w0 ++ [id]) =
                    f c + tally (of_client w0 f 0) (cl ++ wk_new w0)) as Htot.
  { intros f. rewrite app_assoc, tally_app, tally_cons. change (tally _ []) with 0.
    rewrite (tally_ext _ (of_client w0 f 0) (cl ++ wk_new w0)).
    - assert (of_client (pass_client_to_worker id (add_client id c w)) f 0 id = f c) as ->; [|lia].
      unfold of_client. cbn. by rewrite lookup_insert_eq.
    - intros i Hin. unfold of_client. cbn. rewrite lookup_insert_ne, Es; [done|]. by intros ->. }
  assert (forall i x, wk_store (add_client id c w) !! i = Some x -> i = id /\ x = c \/ i <> id /\ wk_store w0 !! i = Some x) as Hst.
  { intros i x. cbn. rewrite Es. intros [[<- <-]|[? ?]]%lookup_insert_Some; auto. }
  split.
  - destruct L as [L1 L2 L3 L4 L5 L6 L7 L8 L9].
    split; cbn [wk_store wk_list wk_class wk_new wk_count pass_client_to_worker add_client]; rewrite ?El, ?Ec, ?En, ?Ew.
    + apply lists_alloc; [done|]. intros _ Hin. apply Hout, elem_of_app. by left.
    + apply lists_alloc; [done|]. intros k Hk. destruct (L6 k id Hk) as [Hin _]. apply Hout, elem_of_app. by left.
    + rewrite app_assoc. apply list.NoDup_app. split; [done|]. split; [|apply NoDup_singleton]. intros i Hin ->%list_elem_of_singleton. done.
    + intros i. rewrite app_assoc, Es. intros [Hin|Hin]%elem_of_app.
      * rewrite lookup_insert_ne by (by intros ->). by apply L4.
      * apply list_elem_of_singleton in Hin as ->. rewrite lookup_insert_eq. by eexists.
    + intros i [x Hx]. cbn [alloc_node li_next]. destruct (Hst i x Hx) as [[-> ->]|[Hne Hx0]].
      * rewrite !lookup_insert_eq. by split; eexists.
      * rewrite !lookup_insert_ne by done. apply L5. by eexists.
    + intros k i Hk. destruct (L6 k i Hk) as [Hin (x & Hx & Hkx)]. split; [done|]. exists x. rewrite Es, lookup_insert_ne; [done|].
      intros ->. apply Hout, elem_of_app. by left.
    + intros i x k Hin Hx. destruct (Hst i x Hx) as [[-> ->]|[Hne Hx0]]; [|by apply L7].
      destruct Hout. apply elem_of_app. by left.
    + intros i [x Hx]. rewrite app_assoc. apply elem_of_app. destruct (Hst i x Hx) as [[-> ->]|[Hne Hx0]].
      * right. by apply list_elem_of_singleton.
      * left. apply L8. by eexists.
    + done.
  - destruct R as [R0 R1 R2 R3 R4 R5]. cbn [wk_new pass_client_to_worker add_client]. rewrite Ew.
    split; cbn [wk_accounts wk_udp wk_gauge pass_client_to_worker add_client]; try done.
    + intros p. rewrite Htot. apply P1.
    + intros u. rewrite Htot. apply P2.
    + intros i x u Hx Hu. destruct (Hst i x Hx) as [[-> ->]|[Hne Hx0]]; [by apply P4|].
      destruct (R3 i x u Hx0 Hu) as (s & H1 & H2). destruct (P3 u s H1) as (s' & H3 & H4). exists s'. split; [done|congruence].
    + intros i x Hx. destruct (Hst i x Hx) as [[-> ->]|[Hne Hx0]]; [done|by apply (R4 i)].
    + rewrite Htot, P6, R5. lia.
  - destruct S as [S1 S2 S3 S4]. split; cbn [wk_table pass_client_to_worker add_client]; rewrite ?Et; try done.
    + intros s x Hin Hx. destruct (Hst _ x Hx) as [[E _]|[_ Hx0]]; [|by apply S3]. destruct Hss. rewrite <- E. by apply list_elem_of_fmap_2.
    + intros i x Hx. destruct (Hst i x Hx) as [[-> ->]|[Hne Hx0]]; [by split; [left|]|by apply S4].
Qed.

(** A new client that is freed again, when it refers to no account any more. *)
Lemma free_new h cl cls ss w0 w id c :
  worker_ok h cl cls ss w0 -> provided h (cl ++ w0.(wk_new)) (fun _ => 0) c w0 w -> w0.(wk_store) !! id = None -> id ∉ map c_id ss ->
  c.(wc_client).(c_id) = id ->
  exists w', client_free id (add_client id c w) = Some w' /\ worker_ok h cl cls ss w' /\ w'.(wk_store) = w0.(wk_store) /\
    w'.(wk_new) = w0.(wk_new) /\ w'.(wk_peers) = w.(wk_peers) /\ w'.(wk_uplinks) = w.(wk_uplinks).
Proof.
  intros [L R S] [P1 P2 P3 P4 P5 P6 [E1 E2]] Hid Hss Hi. injection E1 as Es El Ec En. injection E2 as Ew Et.
  assert (id ∉ cl ++ wk_new w0) as Hout by (intros Hin; destruct (lo_store _ _ _ L id Hin); congruence).
  assert (forall f, tally (of_client (add_client id c w) f 0) (cl ++ wk_new w0) = tally (of_client w0 f 0) (cl ++ wk_new w0)) as Htot.
  { intros f. apply tally_ext. intros i Hin. unfold of_client. cbn. rewrite lookup_insert_ne, Es; [done|]. by intros ->. }
  assert (forall i x, wk_store (add_client id c w) !! i = Some x -> i = id /\ x = c \/ i <> id /\ wk_store w0 !! i = Some x) as Hst.
  { intros i x. cbn. rewrite Es. intros [[<- <-]|[? ?]]%lookup_insert_Some; auto. }
  destruct (client_free_spec h id c cl cls ss (add_client id c w)) as (w' & E & H1 & H2 & H3 & H4 & H5).
  2:{ exists w'. split; [done|]. rewrite gone_absent in H1 by done. split; [done|]. cbn in H2, H3, H4, H5. split; [|split; [congruence|done]].
      rewrite H2, Es. by apply delete_insert_id. }
  split; cbn [wk_store wk_new wk_list wk_class wk_count wk_accounts wk_udp wk_gauge wk_peers wk_table wk_uplinks wk_fds add_client];
    rewrite ?Es, ?El, ?Ec, ?En, ?Ew, ?Et; try done.
  - by rewrite lookup_insert_eq.
  - destruct L as [L1 L2 L3 L4 L5 L6 L7 L8 L9]. split; cbn [wk_store wk_list wk_class wk_new wk_count];
      rewrite ?delete_insert_id by done; try done.
    + apply lists_free; [apply lists_alloc; [done|]|]; intros _ Hin; apply Hout, elem_of_app; by left.
    + apply lists_free; [apply lists_alloc; [done|]|]; intros k Hk; destruct (L6 k id Hk); apply Hout, elem_of_app; by left.
    + intros i Hi'. destruct (decide (id = i)) as [->|Hne]; [destruct Hi'; congruence|]. cbn [free_node alloc_node li_next].
      rewrite !lookup_delete_ne, !lookup_insert_ne by done. by apply L5.
  - apply (ro_held _ _ _ R).
  - intros p. rewrite Htot. apply P1.
  - intros u. rewrite Htot. apply P2.
  - intros i x u Hx Hu. destruct (Hst i x) as [[-> ->]|[Hne Hx0]]; [by cbn; rewrite Es|by apply P4|].
    destruct (ro_account _ _ _ R i x u Hx0 Hu) as (s & H1 & H2). destruct (P3 u s H1) as (s' & H3 & H4). exists s'. split; [done|congruence].
  - intros i x Hx. destruct (Hst i x) as [[-> ->]|[Hne Hx0]]; [by cbn; rewrite Es|done|by apply (ro_feed _ _ _ R i)].
  - rewrite Htot, P6, (ro_gauge _ _ _ R). lia.
  - destruct S as [S1 S2 S3 S4]. split; cbn [wk_table wk_store add_client]; rewrite ?Es, ?Et; try done.
    + intros s x Hin [[E _]|[? ?]]%lookup_insert_Some; [|by apply S3]. destruct Hss. rewrite E. by apply list_elem_of_fmap_2.
    + intros i x [[<- <-]|[? ?]]%lookup_insert_Some; [by split; [right|]|by apply S4].
Qed.

(** A connect that is counted. *)
Lemma add_port add p a base r :
  add = 1 \/ add = 3 -> counted base r (acc_count a p) -> is_Some (a.(ac_ports) !! p) ->
  exists a', inbound_connects_account add (Some p) a = Some a' /\ counted base (1 + r) (acc_count a' p) /\
    (forall q, q <> p -> acc_count a' q = acc_count a q).
Proof.
  intros Hadd Hc [pa Ep]. unfold acc_count in *. rewrite Ep in Hc. cbn [fmap option_fmap option_map counted] in Hc.
  assert (exists i, inbound_connects_account add (Some p) a = Some (set_ac_ports (<[p := port_accounter_add pa]> (ac_ports a)) (set_ac_inbound i a))) as [i ->].
  { unfold inbound_connects_account. destruct Hadd as [->| ->]; cbn [Z.ltb Z.compare Z.eqb Z.odd negb Pos.compare Pos.compare_cont ac_ports set_ac_inbound];
      rewrite Ep; cbn [mbind option_bind]; [eexists; reflexivity|]. exists (ac_inbound a). by destruct a. }
  eexists. split; [done|]. cbn [ac_ports set_ac_ports]. split.
  - rewrite lookup_insert_eq. cbn. lia.
  - intros q Hq. by rewrite lookup_insert_ne.
Qed.

(** Looking for a UDP socket. *)
Lemma client_udp_find_spec root af portnum w :
  exists r udp, client_udp_find root af portnum w = Some (r, set_wk_udp udp w) /\
    (forall u, (cu_refcount <$> udp !! u) = (Z.add (if bool_decide (r = Some u) then 1 else 0)) <$> (cu_refcount <$> w.(wk_udp) !! u)) /\
    (forall u s, w.(wk_udp) !! u = Some s -> exists s', udp !! u = Some s' /\ s'.(cu_portaccount) = s.(cu_portaccount)) /\
    (forall u, r = Some u -> u ∈ root /\ udp_matches af portnum w u = true).
Proof.
  unfold client_udp_find. destruct (List.find (udp_matches af portnum w) root) as [u|] eqn:Ef.
  - apply List.find_some in Ef as [Hin Hm]. pose proof Hm as Hm'. unfold udp_matches in Hm. destruct (wk_udp w !! u) as [s|] eqn:Es; [|done].
    cbn [mbind option_bind]. eexists _, _. split; [done|]. split; [|split].
    + intros v. destruct (decide (u = v)) as [->|Hne].
      * rewrite lookup_insert_eq, Es, bool_decide_eq_true_2 by done. cbn. f_equal. lia.
      * rewrite lookup_insert_ne, bool_decide_eq_false_2 by congruence. by destruct (wk_udp w !! v).
    + intros v t Ht. destruct (decide (u = v)) as [->|Hne].
      * rewrite lookup_insert_eq. rewrite Es in Ht. injection Ht as <-. by eexists.
      * rewrite lookup_insert_ne by done. by exists t.
    + intros v [= <-]. split; [by apply list_elem_of_In|done].
  - eexists _, (wk_udp w). split; [by destruct w|]. split; [|split; [|done]].
    + intros v. rewrite bool_decide_eq_false_2 by done. by destruct (wk_udp w !! v).
    + intros v t Ht. by exists t.
Qed.
