(* ===== verification/Accept.v ===== *)
(** * accept.c: listening sockets and new connections

    The thread that accepts connections opens a listener for every one of the configuration, closes
    those that were removed, and makes a client of every connection that the limits and the access
    list of its listener allow.  It also makes the clients that stand for UDP peers.

    The network is a parameter: the answers of [socket], [bind] and [listen], the connections that
    arrive, and the results of TLS.  Addresses of new structures are parameters too.  The state has the
    worker that new clients are given to; what the other workers hold of the shared accounts and
    sockets is counted there as well ([held] of WorkerSpec.v). *)

From S2P Require Import Prelude Types Keyhash Cfgfile Acl ParseQc ParseAprs Clientlist ClientHeard Filter FilterParse Outgoing.
From S2P Require Import Plist ClientIO Accounting Worker WorkerSpec Newclient.
From Stdlib Require Import ZArith Lia Bool String SpecFloat.
From stdpp Require Import base tactics list gmap numbers.
Open Scope Z_scope.

(** ** Data *)

Definition SOCK_STREAM : Z := 1.
Definition SOCK_DGRAM : Z := 2.
Definition LISTEN_MAX_FILTERS : nat := 10.

(** An address of the configuration; [ai_text] is what [strsockaddr] makes of it. *)
Record addrinfo := mk_ai { ai_family : Z; ai_socktype : Z; ai_protocol : Z; ai_addr : sockaddr; ai_port : Z; ai_text : list Z }.

Record listen_config_t := mk_lc {
  lc_id : Z;
  lc_proto : list Z;
  lc_name : list Z;
  lc_host : list Z;
  lc_portnum : Z;
  lc_clients_max : Z;
  lc_corepeer : bool;
  lc_hidden : bool;
  lc_keyfile : option (list Z);
  lc_certfile : option (list Z);
  lc_cafile : option (list Z);
  lc_crlfile : option (list Z);
  lc_ai : addrinfo;
  lc_acl : option acl_t;
  lc_filters : list (option (list Z));
  lc_client_flags : Z
}.

Record peerip_config_t := mk_pe {
  pe_name : list Z;
  pe_host : list Z;
  pe_serverid : list Z;
  pe_ai : addrinfo;
  pe_af : Z;
  pe_remote_port : Z;
  pe_local_port : Z
}.

Record listen_t := mk_listen {
  li_id : Z;
  li_listener_id : Z;
  li_fd : Z;
  li_client_flags : Z;
  li_portnum : Z;
  li_clients_max : Z;
  li_corepeer : bool;
  li_hidden : bool;
  li_ai_protocol : Z;
  li_udp : option Z;
  li_portaccount : Z;
  li_acl : option acl_t;
  li_ssl : bool;
  li_name : list Z;
  li_addr_s : list Z;
  li_filters : list (option (list Z));
  li_filter_s : option (list Z)
}.

(** [al_said] is what was written to connections that were refused. *)
Record acceptor := mk_acceptor {
  al_listen : list listen_t;
  al_worker : worker;
  al_udpclients : list Z;
  al_udppeers : list Z;
  al_reconfigure_after : Z;
  al_shutdown : list Z;
  al_said : list (Z * list Z)
}.

Definition set_al_listen (l : list listen_t) (a : acceptor) : acceptor :=
  mk_acceptor l a.(al_worker) a.(al_udpclients) a.(al_udppeers) a.(al_reconfigure_after) a.(al_shutdown) a.(al_said).
Definition set_al_worker (w : worker) (a : acceptor) : acceptor :=
  mk_acceptor a.(al_listen) w a.(al_udpclients) a.(al_udppeers) a.(al_reconfigure_after) a.(al_shutdown) a.(al_said).
Definition set_al_after (t : Z) (a : acceptor) : acceptor :=
  mk_acceptor a.(al_listen) a.(al_worker) a.(al_udpclients) a.(al_udppeers) t a.(al_shutdown) a.(al_said).
Definition al_shut (fd : Z) (a : acceptor) : acceptor :=
  mk_acceptor a.(al_listen) a.(al_worker) a.(al_udpclients) a.(al_udppeers) a.(al_reconfigure_after) (a.(al_shutdown) ++ [fd]) a.(al_said).
Definition al_say (fd : Z) (text : list Z) (a : acceptor) : acceptor :=
  mk_acceptor a.(al_listen) a.(al_worker) a.(al_udpclients) a.(al_udppeers) a.(al_reconfigure_after) a.(al_shutdown) (a.(al_said) ++ [(fd, text)]).

(** ** Closing listeners *)

(** [port_accounter_drop] of the account at an address. *)
Definition drop_port_account (p : Z) (w : worker) : option worker :=
  pa ← w.(wk_accounts).(ac_ports) !! p;
  let ports := w.(wk_accounts).(ac_ports) in
  Some (set_wk_accounts (set_ac_ports (match port_accounter_drop pa with Some pa => <[p := pa]> ports | None => delete p ports end) w.(wk_accounts)) w).

(** What [listener_free] gives back; taking it off the list is left to the callers. *)
Definition listener_release (l : listen_t) (w : worker) : option worker :=
  w ← client_udp_free l.(li_udp) w;
  w ← drop_port_account l.(li_portaccount) w;
  Some (if bool_decide (l.(li_udp) = None) && (l.(li_fd) >=? 0) then close_fd l.(li_fd) w else w).

Definition listener_free (l : listen_t) (a : acceptor) : option acceptor :=
  w ← listener_release l a.(al_worker); Some (set_al_worker w a).

(** [close_listeners], and the loop of [close_removed_listeners]: the listeners that are to go. *)
Fixpoint free_listeners (gone : listen_t -> bool) (ls : list listen_t) (a : acceptor) : option acceptor :=
  match ls with
  | [] => Some (set_al_listen [] a)
  | l :: ls =>
      if gone l then a ← listener_free l a; free_listeners gone ls a
      else a ← free_listeners gone ls a; Some (set_al_listen (l :: a.(al_listen)) a)
  end.

Definition find_listen_config_id (config : list listen_config_t) (id : Z) : option listen_config_t :=
  List.find (fun lc => lc.(lc_id) =? id) config.

Definition close_removed_listeners (config : list listen_config_t) (a : acceptor) : option acceptor :=
  free_listeners (fun l => bool_decide (find_listen_config_id config l.(li_id) = None)) a.(al_listen) a.

Definition close_listeners (a : acceptor) : option acceptor := free_listeners (fun _ => true) a.(al_listen) a.

(** ** Opening listeners *)

(** The filters for the status page, as far as they fit. *)
Fixpoint filter_text (filters : list (option (list Z))) (s : list Z) : list Z :=
  match filters with
  | [] => s
  | None :: filters => filter_text filters s
  | Some f :: filters =>
      filter_text filters (if zlen s + zlen f + 2 <? FILTER_S_SIZE then s ++ (if zlen s =? 0 then [] else [ch_sp]) ++ f else s)
  end.

Definition listener_copy_filters (lc : listen_config_t) (l : listen_t) : listen_t :=
  let s := filter_text lc.(lc_filters) [] in
  mk_listen l.(li_id) l.(li_listener_id) l.(li_fd) l.(li_client_flags) l.(li_portnum) l.(li_clients_max) l.(li_corepeer) l.(li_hidden)
    l.(li_ai_protocol) l.(li_udp) l.(li_portaccount) l.(li_acl) l.(li_ssl) l.(li_name) l.(li_addr_s) lc.(lc_filters)
    (if zlen s =? 0 then None else Some (sanitize_ascii_string s)).

(** A 32-bit integer in memory, the lowest byte first. *)
Definition int_bytes (n : Z) : list Z := map (fun k => Z.land (Z.shiftr n (8 * k)) 255) [0; 1; 2; 3].

Definition i32 (n : Z) : Z := (n + 2 ^ 31) mod 2 ^ 32 - 2 ^ 31.

(** The hash that names a listener across configurations and upgrades. *)
Definition listener_hash (ai : addrinfo) : Z :=
  let step p h := i32 (keyhash p (u32 h)) in
  step (int_bytes ai.(ai_protocol)) (step (int_bytes ai.(ai_socktype)) (step ai.(ai_text) 0)).

(** What the system says to a listener: the socket, if it could be bound; the results of TLS; and
    the addresses of the account and of the UDP socket. *)
Record opening := mk_opening { op_socket : option Z; op_tls : bool; op_port : Z; op_udp : Z }.

Section Accept.
Variable maxclients tick : Z.

(** A listener before its socket is opened. *)
Definition new_listener (o : opening) (lc : listen_config_t) : listen_t :=
  mk_listen lc.(lc_id) (listener_hash lc.(lc_ai)) (-1) lc.(lc_client_flags) lc.(lc_portnum) (Z.min lc.(lc_clients_max) maxclients)
    lc.(lc_corepeer) lc.(lc_hidden) lc.(lc_ai).(ai_protocol) None o.(op_port) None false lc.(lc_name) lc.(lc_ai).(ai_text)
    (repeat None LISTEN_MAX_FILTERS) None.

Definition set_li_socket (fd : Z) (udp : option Z) (l : listen_t) : listen_t :=
  mk_listen l.(li_id) l.(li_listener_id) fd l.(li_client_flags) l.(li_portnum) l.(li_clients_max) l.(li_corepeer) l.(li_hidden)
    l.(li_ai_protocol) udp l.(li_portaccount) l.(li_acl) l.(li_ssl) l.(li_name) l.(li_addr_s) l.(li_filters) l.(li_filter_s).

Definition set_li_rest (ssl : bool) (acl : option acl_t) (l : listen_t) : listen_t :=
  mk_listen l.(li_id) l.(li_listener_id) l.(li_fd) l.(li_client_flags) l.(li_portnum) l.(li_clients_max) l.(li_corepeer) l.(li_hidden)
    l.(li_ai_protocol) l.(li_udp) l.(li_portaccount) acl ssl l.(li_name) l.(li_addr_s) l.(li_filters) l.(li_filter_s).

(** [open_tcp_listener] *)
Definition open_tcp_listener (o : opening) (l : listen_t) (a : acceptor) : option (listen_t * acceptor) :=
  match o.(op_socket) with Some fd => Some (set_li_socket fd None l, a) | None => None end.

(** [open_udp_listener]: the socket belongs to the list of peers or to that of clients. *)
Definition open_udp_listener (o : opening) (lc : listen_config_t) (l : listen_t) (a : acceptor) : option (listen_t * acceptor) :=
  match o.(op_socket) with
  | None => None
  | Some fd =>
      let u := o.(op_udp) in
      let root := if l.(li_corepeer) then a.(al_udppeers) else a.(al_udpclients) in
      let '(root, w) := client_udp_alloc u fd l.(li_portnum) root a.(al_worker) in
      let w := set_wk_udp (<[u := mk_client_udp (Some l.(li_portaccount)) fd 1 false lc.(lc_ai).(ai_family) l.(li_portnum)]> w.(wk_udp)) w in
      Some (set_li_socket l.(li_fd) (Some u) l,
            mk_acceptor a.(al_listen) w (if l.(li_corepeer) then a.(al_udpclients) else root) (if l.(li_corepeer) then root else a.(al_udppeers))
              a.(al_reconfigure_after) a.(al_shutdown) a.(al_said))
  end.

Definition open_listener (o : opening) (lc : listen_config_t) (a : acceptor) : option (acceptor * Z) :=
  let l := new_listener o lc in
  let w := a.(al_worker) in
  let a := set_al_worker (set_wk_accounts (set_ac_ports (<[o.(op_port) := port_accounter_alloc]> w.(wk_accounts).(ac_ports)) w.(wk_accounts)) w) a in
  let ai := lc.(lc_ai) in
  if (ai.(ai_socktype) =? SOCK_DGRAM) && (ai.(ai_protocol) =? IPPROTO_UDP) ||
     (ai.(ai_socktype) =? SOCK_STREAM) && (ai.(ai_protocol) =? IPPROTO_TCP)
  then
    match (if ai.(ai_socktype) =? SOCK_DGRAM then open_udp_listener o lc l a else open_tcp_listener o l a) with
    | None => a ← listener_free l a; Some (set_al_after (tick + 30) a, -1)
    | Some (l, a) =>
        let tls := given lc.(lc_keyfile) && given lc.(lc_certfile) in
        if tls && negb o.(op_tls) then a ← listener_free (set_li_rest true None l) a; Some (a, -1)
        else
          let l := listener_copy_filters lc (set_li_rest tls (acl_dup <$> lc.(lc_acl)) l) in
          Some (set_al_listen (l :: a.(al_listen)) a, 0)
    end
  else a ← listener_free l a; Some (a, -1).

(** [listener_update_config] *)
Definition listener_update_config (lc : listen_config_t) (l : listen_t) : listen_t :=
  listener_copy_filters lc
    (mk_listen l.(li_id) l.(li_listener_id) l.(li_fd) lc.(lc_client_flags) l.(li_portnum) lc.(lc_clients_max) l.(li_corepeer) lc.(lc_hidden)
       l.(li_ai_protocol) l.(li_udp) l.(li_portaccount) (acl_dup <$> lc.(lc_acl)) l.(li_ssl) l.(li_name) l.(li_addr_s) l.(li_filters) l.(li_filter_s)).

(** [f] on the first listener of a number: what [find_listener_random_id] finds. *)
Fixpoint on_listener (id : Z) (f : listen_t -> listen_t) (ls : list listen_t) : option (list listen_t) :=
  match ls with
  | [] => None
  | l :: ls => if l.(li_id) =? id then Some (f l :: ls) else (cons l) <$> on_listener id f ls
  end.

Fixpoint open_missing_listeners (config : list listen_config_t) (os : list opening) (a : acceptor) (failed : Z) : option (acceptor * Z) :=
  match config with
  | [] => Some (a, failed)
  | lc :: config =>
      match on_listener lc.(lc_id) (listener_update_config lc) a.(al_listen) with
      | Some ls => open_missing_listeners config os (set_al_listen ls a) failed
      | None =>
          match os with
          | [] => None
          | o :: os => '(a, rc) ← open_listener o lc a; open_missing_listeners config os a (if rc =? 0 then failed else failed + 1)
          end
      end
  end.

(** ** Old clients and new access lists *)

Definition find_listener_hash_id (ls : list listen_t) (id : Z) : option listen_t := List.find (fun l => l.(li_listener_id) =? id) ls.

(** Whether a client may stay: uplinks do. *)
Definition may_stay (ls : list listen_t) (c : wclient) : bool :=
  negb (has c.(wc_client).(c_flags) CLFLAGS_INPORT) ||
  match find_listener_hash_id ls c.(wc_listener_id) with
  | None => false
  | Some l => match l.(li_acl) with None => true | Some acl => negb (acl_check acl c.(wc_addr) =? 0) end
  end.

(** [rescan_client_acls] for one worker: the loop over its list. *)
Fixpoint rescan_loop (n : nat) (c : option Z) (a : acceptor) : option acceptor :=
  match n, c with
  | _, None => Some a
  | O, Some _ => None
  | S n, Some id =>
      c ← a.(al_worker).(wk_store) !! id;
      cnext ← load (AtNext id) a.(al_worker).(wk_list);
      rescan_loop n cnext (if may_stay a.(al_listen) c then a else al_shut c.(wc_client).(c_fd) a)
  end.

Definition rescan_client_acls (a : acceptor) : option acceptor :=
  c ← load (AtHead tt) a.(al_worker).(wk_list);
  rescan_loop (Z.to_nat a.(al_worker).(wk_count)) c a.

(** ** New clients *)

Definition family_of (sa : sockaddr) : Z := match sa with Inet _ => AF_INET | Inet6 _ => AF_INET6 | OtherFamily => 0 end.

(** The filters of a listener for a client. *)
Fixpoint apply_filters (cosf : spec_float -> spec_float) (mem : bool) (flags : Z) (filters : list (option (list Z))) (cf : client_filters) (gauge : Z)
    : option (client_filters * Z) :=
  match filters with
  | [] => Some (cf, gauge)
  | None :: filters => apply_filters cosf mem flags filters cf gauge
  | Some f :: filters => '(cf, gauge, _) ← filter_parse cosf mem flags f false cf gauge; apply_filters cosf mem flags filters cf gauge
  end.

(** A connection that has arrived: its socket and address, the address of the client structure if there is
    memory, the local address, and what [set_client_sockopt] and TLS say. *)
Record arrival := mk_arrival {
  ar_fd : Z;
  ar_addr : sockaddr;
  ar_client : option Z;
  ar_addr_loc : list Z;
  ar_sockopt : bool;
  ar_tls : bool
}.

Variable cosf : spec_float -> spec_float.
Variable mem : bool.
Variable ibuf_size obuf_size : Z.

Definition set_wk_gauge (g : Z) (w : worker) : worker :=
  mk_wk w.(wk_store) w.(wk_list) w.(wk_class) w.(wk_count) w.(wk_new) w.(wk_peers) w.(wk_accounts) w.(wk_udp) w.(wk_table)
    g w.(wk_uplinks) w.(wk_fds).

(** The client of a connection, in the state [st] that the caller gives it, and the worker that counts it. *)
Definition accept_client_for_listener (l : listen_t) (id : Z) (r : arrival) (st : CStateEnum) (keepalive : Z) (a : acceptor) : option (wclient * worker) :=
  let w := a.(al_worker) in
  let c := client_alloc id tick ibuf_size obuf_size in
  '(u, w) ← client_udp_find a.(al_udpclients) (family_of r.(ar_addr)) l.(li_portnum) w;
  udp ← (match u with Some u => s ← w.(wk_udp) !! u; Some s.(cu_portaccount) | None => Some None end);
  acc ← inbound_connects_account 1 (Some l.(li_portaccount)) w.(wk_accounts);
  hex ← hexsockaddr r.(ar_addr);
  '(cf, gauge) ← apply_filters cosf mem l.(li_client_flags) l.(li_filters) c.(wc_filters) w.(wk_gauge);
  let cf := match l.(li_filter_s) with Some s => set_filter_s s cf | None => cf end in
  let x := c.(wc_client) in
  let x := mk_client id r.(ar_fd) st l.(li_client_flags) x.(c_validated) x.(c_username) x.(c_username_len) hex x.(c_quirks_mode) x.(c_no_tx)
             x.(c_loc_known) x.(c_heard) x.(c_courtesy) x.(c_heard_count) x.(c_courtesy_count) x.(c_lat) x.(c_lng) x.(c_cos_lat) in
  let o := c.(wc_conn) in
  let o := mk_conn o.(co_ibuf) o.(co_ibuf_end) o.(co_obuf) o.(co_obuf_start) o.(co_obuf_end) o.(co_obuf_flushsize) o.(co_obuf_writes)
             o.(co_obuf_wtime) tick o.(co_udp) o.(co_poll_out) o.(co_closed) o.(co_calls) o.(co_sent) o.(co_datagrams) in
  Some (mk_wclient x cf o (mk_client_account c.(wc_account).(ca_local) (Some l.(li_portaccount)) udp) l.(li_ai_protocol) r.(ar_addr_loc) u 0
          c.(wc_connect_tick) keepalive c.(wc_cleanup) l.(li_listener_id) r.(ar_addr) [] [],
        set_wk_gauge gauge (set_wk_accounts acc w)).

(** [pick_next_worker] of [n] workers: the index, and the next value of the counter. *)
Definition pick_next_worker (n next : nat) : nat * nat := if (next <? n)%nat then (next, S next) else (0%nat, 1%nat).

(** A connection that is refused: it is closed and counted. *)
Definition reject (l : listen_t) (fd : Z) (a : acceptor) : option acceptor :=
  acc ← inbound_connects_account (-1) (Some l.(li_portaccount)) a.(al_worker).(wk_accounts);
  Some (set_al_worker (set_wk_accounts acc (close_fd fd a.(al_worker))) a).

(** The account of the client and the client, when something fails at the end. *)
Definition give_up_client (id : Z) (c : wclient) (w : worker) : option worker :=
  acc ← inbound_connects_account 0 c.(wc_account).(ca_port) w.(wk_accounts);
  client_free id (set_wk_accounts acc w).

Definition do_accept (l : listen_t) (r : arrival) (a : acceptor) : option acceptor :=
  pa ← a.(al_worker).(wk_accounts).(ac_ports) !! l.(li_portaccount);
  let inbound := a.(al_worker).(wk_accounts).(ac_inbound) in
  if (pa.(pa_gauge) >=? l.(li_clients_max)) || (inbound.(pa_gauge) >=? maxclients) then
    reject l r.(ar_fd) (al_say r.(ar_fd) ((if inbound.(pa_gauge) >=? maxclients then str "# Server full" else str "# Port full") ++ [13; 10]) a)
  else if match l.(li_acl) with Some acl => acl_check acl r.(ar_addr) =? 0 | None => false end then reject l r.(ar_fd) a
  else match r.(ar_client) with
  | None => reject l r.(ar_fd) a
  | Some id =>
      '(c, w) ← accept_client_for_listener l id r CSTATE_LOGIN (tick + keepalive_interval) a;
      let w := add_client id c w in
      if l.(li_ssl) && negb r.(ar_tls) then reject l r.(ar_fd) (set_al_worker w a)
      else if negb r.(ar_sockopt) then w ← give_up_client id c w; Some (set_al_worker w a)
      else Some (set_al_worker (pass_client_to_worker id w) a)
  end.

(** ** UDP peers *)

(** What the system says for a peer: the address of the client structure and the local address. *)
Record meeting := mk_meeting { mt_client : Z; mt_addr_loc : list Z }.

Definition peer_client (id : Z) (pe : peerip_config_t) (u : Z) (account : option Z) (hex : list Z) (m : meeting) : wclient :=
  let c := client_alloc id tick ibuf_size obuf_size in
  let name := take 15 pe.(pe_serverid) in
  let x := c.(wc_client) in
  let x := mk_client id (-1) CSTATE_COREPEER CLFLAGS_UPLINKPORT VALIDATED_WEAK name (zlen name) hex x.(c_quirks_mode) x.(c_no_tx)
             x.(c_loc_known) x.(c_heard) x.(c_courtesy) x.(c_heard_count) x.(c_courtesy_count) x.(c_lat) x.(c_lng) x.(c_cos_lat) in
  let o := c.(wc_conn) in
  let o := mk_conn o.(co_ibuf) o.(co_ibuf_end) o.(co_obuf) o.(co_obuf_start) o.(co_obuf_end) o.(co_obuf_flushsize) o.(co_obuf_writes)
             o.(co_obuf_wtime) tick o.(co_udp) o.(co_poll_out) o.(co_closed) o.(co_calls) o.(co_sent) o.(co_datagrams) in
  mk_wclient x c.(wc_filters) o (mk_client_account c.(wc_account).(ca_local) None account) IPPROTO_UDP m.(mt_addr_loc) (Some u) pe.(pe_remote_port)
    c.(wc_connect_tick) (tick + keepalive_interval) c.(wc_cleanup) c.(wc_listener_id) pe.(pe_ai).(ai_addr) [] [].

Definition peer_config (pe : peerip_config_t) (m : meeting) (a : acceptor) : option acceptor :=
  '(u, w) ← client_udp_find a.(al_udppeers) pe.(pe_af) pe.(pe_local_port) a.(al_worker);
  match u with
  | None => Some (set_al_worker w a)
  | Some u =>
      s ← w.(wk_udp) !! u;
      acc ← inbound_connects_account 3 s.(cu_portaccount) w.(wk_accounts);
      hex ← hexsockaddr pe.(pe_ai).(ai_addr);
      let id := m.(mt_client) in
      let c := peer_client id pe u s.(cu_portaccount) hex m in
      Some (set_al_worker (pass_client_to_worker id (add_client id c (set_wk_accounts acc w))) a)
  end.

Fixpoint peerip_clients_config (pes : list (peerip_config_t * meeting)) (a : acceptor) : option acceptor :=
  match pes with
  | [] => Some a
  | (pe, m) :: pes => a ← peer_config pe m a; peerip_clients_config pes a
  end.

(** [peerip_clients_close]: a client that is only a message to the worker. *)
Definition peerip_clients_close (id : Z) (a : acceptor) : acceptor :=
  let c := client_alloc id tick ibuf_size obuf_size in
  let x := c.(wc_client) in
  let x := mk_client id (-2) CSTATE_COREPEER x.(c_flags) x.(c_validated) x.(c_username) x.(c_username_len) x.(c_addr_hex) x.(c_quirks_mode) x.(c_no_tx)
             x.(c_loc_known) x.(c_heard) x.(c_courtesy) x.(c_heard_count) x.(c_courtesy_count) x.(c_lat) x.(c_lng) x.(c_cos_lat) in
  set_al_worker (pass_client_to_worker id (add_client id (set_wc_client x c) a.(al_worker))) a.

(** ** A new configuration *)

(** The listeners and the clients of a new configuration: [None] also when a listener could not
    be opened, which ends the program. *)
Definition reconfigure_listeners (config : list listen_config_t) (os : list opening) (a : acceptor) : option acceptor :=
  a ← close_removed_listeners config a;
  '(a, failed) ← open_missing_listeners config os a 0;
  if failed >? 0 then None else rescan_client_acls a.

(** A turn of the thread with a new configuration, up to the peers. *)
Definition accept_reconfigure (config : list listen_config_t) (os : list opening) (peers : list (peerip_config_t * meeting)) (closer : Z) (a : acceptor)
    : option acceptor :=
  a ← reconfigure_listeners config os a;
  peerip_clients_config peers (peerip_clients_close closer a).
End Accept.
