(* ===== verification/Upload.v ===== *)
(** * Packets uploaded over HTTP and UDP

    A client without a connection sends a login line and a packet in one POST request
    ([http_upload_position] of http.c) or in one UDP datagram ([accept_process_udpsubmit] of
    accept.c).  The text is split ([loginpost_split]), the login checked ([http_udp_upload_login]
    of Login.v), and the packet parsed under the name of the login, for a client structure of
    the thread that is there for this purpose ([pseudoclient_setup]).

    HTTP itself is libevent's: a request is its headers and its body here. *)

From S2P Require Import Prelude Types Cfgfile Passcode ParseQc Callsign ParseAprs Clientlist ClientHeard Filterdb Messaging Incoming Filter FilterParse.
From S2P Require Import Acl Outgoing Login LoginSpec Plist ClientIO Accounting Worker WorkerSpec Newclient.
From Stdlib Require Import ZArith Lia Bool String SpecFloat.
From stdpp Require Import base tactics list gmap numbers.
Open Scope Z_scope.

Definition ch_lf : Z := 10.
Definition ch_cr : Z := 13.

(** ** Splitting *)

(** [memchr(s + p, c, e - p)], which reads up to the byte it finds. *)
Definition find_byte (s : list Z) (p e c : Z) : option (option Z) :=
  r ← scan s p e (fun x => x =? c); Some (if r <? e then Some r else None).

(** [if (p) *p = 0;] *)
Definition end_at (s : list Z) (p : option Z) : option (list Z) :=
  match p with Some p => wr s p 0 | None => Some s end.

(** The text afterwards, and offset and length of the packet; [None] inside when there is no
    line feed. *)
Definition loginpost_split (post : list Z) (len : Z) : option (option (list Z * Z * Z)) :=
  lf ← find_byte post 0 len ch_lf;
  match lf with
  | None => Some None
  | Some lf =>
      post ← wr post lf 0;
      cr ← find_byte post 0 lf ch_cr;
      post ← end_at post cr;
      let pack := lf + 1 in
      lf ← find_byte post pack len ch_lf;
      post ← end_at post lf;
      let e := default len lf in
      cr ← find_byte post pack e ch_cr;
      post ← end_at post cr;
      Some (Some (post, pack, default e cr - pack))
  end.

(** ** The client structure of a thread *)

Definition pseudoclient_setup (id tick ibuf_size obuf_size : Z) : wclient :=
  let c := client_alloc id tick ibuf_size obuf_size in
  let x := c.(wc_client) in
  let x := mk_client id (-1) CSTATE_CONNECTED (Z.lor CLFLAGS_INPORT CLFLAGS_CLIENTONLY) VALIDATED_WEAK x.(c_username) x.(c_username_len)
             x.(c_addr_hex) x.(c_quirks_mode) x.(c_no_tx) x.(c_loc_known) x.(c_heard) x.(c_courtesy) x.(c_heard_count) x.(c_courtesy_count)
             x.(c_lat) x.(c_lng) x.(c_cos_lat) in
  let o := c.(wc_conn) in
  let o := mk_conn o.(co_ibuf) o.(co_ibuf_end) o.(co_obuf) o.(co_obuf_start) o.(co_obuf_end) o.(co_obuf_flushsize) o.(co_obuf_writes)
             o.(co_obuf_wtime) tick o.(co_udp) o.(co_poll_out) o.(co_closed) o.(co_calls) o.(co_sent) o.(co_datagrams) in
  set_wc_times tick c.(wc_cleanup) (set_wc_conn o (set_wc_client x c)).

(** The name of the pseudoclient. *)
Definition set_c_name (name : list Z) (c : client_t) : client_t :=
  mk_client c.(c_id) c.(c_fd) c.(c_state) c.(c_flags) c.(c_validated) name (zlen name) c.(c_addr_hex) c.(c_quirks_mode) c.(c_no_tx)
    c.(c_loc_known) c.(c_heard) c.(c_courtesy) c.(c_heard_count) c.(c_courtesy_count) c.(c_lat) c.(c_lng) c.(c_cos_lat).

Section Upload.
Context {W : Type} `{ServerOps W} `{ClientDirectory}.
Context (cosf : spec_float -> spec_float) (fnmatch : list Z -> list Z -> bool).
Context (cfg : config) (g : globs) (disallow_login_glob : list (list Z)) (mem : bool) (tick : Z) (locked : bool).

Definition set_in_name (name : list Z) (st : in_state (W := W)) : in_state :=
  mk_in st.(in_worker) (set_c_name name st.(in_client)) st.(in_filter) st.(in_ops).

Definition flush_in (st : in_state (W := W)) : in_state :=
  mk_in (incoming_flush locked st.(in_worker)) st.(in_client) st.(in_filter) st.(in_ops).

Definition pseudoclient_push_packet (username packet : list Z) (packet_len : Z) (st : in_state) : option (in_state * Z) :=
  '(st, e) ← incoming_parse cosf fnmatch cfg g mem tick packet packet_len (set_in_name (take 15 username) st);
  let st := set_in_name [] st in
  if e <? 0 then Some (st, e)
  else Some (match st.(in_worker).(w_incoming_local) with [] => st | _ => flush_in st end, e).

(** ** The checks of an upload *)

Inductive refusal : Set := NoNewline | InvalidLogin | InvalidPasscode | TooShort | TooLong.

(** Both callers have the same checks: a refusal, or the name, and the packet with its length. *)
Definition upload_check (post : list Z) (len : Z) : option (refusal + (list Z * list Z * Z)) :=
  r ← loginpost_split post len;
  match r with
  | None => Some (inl NoNewline)
  | Some (post, pack, packet_len) =>
      if packet_len =? -1 then Some (inl NoNewline)
      else
        '(validated, username) ← http_udp_upload_login fnmatch disallow_login_glob (cstr post);
        if validated <? 0 then Some (inl InvalidLogin)
        else if negb (validated =? 1) then Some (inl InvalidPasscode)
        else if packet_len <? PACKETLEN_MIN then Some (inl TooShort)
        else if packet_len >? PACKETLEN_MAX - 2 then Some (inl TooLong)
        else name ← username; Some (inr (name, drop (Z.to_nat pack) post, packet_len))
  end.

(** ** UDP *)

(** The thread that accepts connections: its pseudoclient and worker, the account of the pseudoclient
    and the accounts, and the buffer for datagrams on the stack. *)
Record udp_state := mk_udp {
  us_in : in_state (W := W);
  us_account : client_account;
  us_accounts : accounts;
  us_buf : list Z
}.

(** [len] is what [recvfrom] returned. *)
Definition accept_process_udpsubmit (port len : Z) (us : udp_state) : option udp_state :=
  r ← upload_check us.(us_buf) len;
  match r with
  | inl _ => Some us
  | inr (username, packet, packet_len) =>
      '(st, e) ← pseudoclient_push_packet username packet packet_len us.(us_in);
      let c := mk_client_account us.(us_account).(ca_local) (Some port) us.(us_account).(ca_udp) in
      '(c, a) ← clientaccount_add_rx c IPPROTO_UDP len 1 (if e <? 0 then e else 0) 0 us.(us_accounts);
      Some (mk_udp st (mk_client_account c.(ca_local) None c.(ca_udp)) a us.(us_buf))
  end.

(** [recvfrom] with [MSG_TRUNC] into a buffer of 2000 bytes, of which 1999 are offered: the rest
    of a longer datagram is lost, but its length is returned. *)
Definition recv_datagram (d : list Z) (us : udp_state) : option udp_state :=
  buf ← blit us.(us_buf) 0 (take 1999 d); Some (mk_udp us.(us_in) us.(us_account) us.(us_accounts) buf).

Fixpoint accept_udp_recv (client_flags port : Z) (dgrams : list (list Z)) (us : udp_state) : option udp_state :=
  match dgrams with
  | [] => Some us
  | d :: dgrams =>
      us ← recv_datagram d us;
      us ← (if has client_flags CLFLAGS_UDPSUBMIT then accept_process_udpsubmit port (zlen d) us else Some us);
      accept_udp_recv client_flags port dgrams us
  end.

(** ** HTTP *)

Record request := mk_request { rq_content_type : option (list Z); rq_content_length : option (list Z); rq_body : list Z }.

Inductive reply : Type := SendError (code : Z) (text : string) | SendOk (text : list Z).

Definition HTTP_BADREQUEST : Z := 400.
Definition MAX_HTTP_POST_DATA : Z := 2048.

Definition refuse (r : refusal) : reply :=
  match r with
  | NoNewline => SendError HTTP_BADREQUEST "No newline (LF) found in data"
  | InvalidLogin => SendError HTTP_BADREQUEST "Invalid login string"
  | InvalidPasscode => SendError 403 "Invalid passcode"
  | TooShort => SendError HTTP_BADREQUEST "Packet too short"
  | TooLong => SendError HTTP_BADREQUEST "Packet too long"
  end.

(** The body in the array [post], which is on the stack. *)
Definition copy_body (stack body : list Z) : option (list Z * Z) :=
  let data := take (Z.to_nat MAX_HTTP_POST_DATA) body in
  let l := zlen data in
  post ← blit stack 0 data;
  post ← wr post MAX_HTTP_POST_DATA 0;
  post ← (if l <=? MAX_HTTP_POST_DATA then wr post l 0 else Some post);
  Some (post, l).

Definition http_upload_position (stack : list Z) (r : request) (st : in_state (W := W)) : option (in_state (W := W) * reply) :=
  if negb (match r.(rq_content_type) with Some t => caseeq t (str "application/octet-stream") | None => false end)
  then Some (st, SendError HTTP_BADREQUEST "Bad request, wrong or missing content-type")
  else match r.(rq_content_length) with
  | None => Some (st, SendError HTTP_BADREQUEST "Bad request, missing content-length")
  | Some clength =>
      clength_i ← atoi clength;
      if clength_i >? MAX_HTTP_POST_DATA then Some (st, SendError HTTP_BADREQUEST "Bad request, too large body")
      else
        '(post, l) ← copy_body stack r.(rq_body);
        if negb (l =? clength_i) then Some (st, SendError HTTP_BADREQUEST "Body size does not match content-length")
        else
          c ← upload_check post l;
          match c with
          | inl e => Some (st, refuse e)
          | inr (username, packet, packet_len) =>
              '(st, e) ← pseudoclient_push_packet username packet packet_len st;
              Some (st, if e <? 0 then SendError HTTP_BADREQUEST "Packet parsing failure" else SendOk (str "ok" ++ [ch_lf]))
          end
  end.
End Upload.
