(* ===== verification/UploadSpec.v ===== *)
(** * Who may upload what

    The text of an upload is split into its first two lines; a packet is queued only under a
    name whose passcode came with it; and a right upload is not refused. *)

From S2P Require Import Prelude Types Cfgfile Passcode ParseQc Callsign ParseAprs Clientlist ClientHeard Filterdb Messaging Incoming Cfloat Filter FilterParse FilterSpec.
From S2P Require Import Acl Outgoing Login LoginSpec Plist ClientIO Accounting Worker WorkerSpec Newclient Upload.
From Stdlib Require Import ZArith Lia Bool String SpecFloat.
From stdpp Require Import base tactics list gmap numbers.
Open Scope Z_scope.

(** ** Splitting *)

Lemma split_at_cases c s :
  (split_at c s = (s, None) /\ c ∉ s) \/ (exists a b, split_at c s = (a, Some b) /\ s = a ++ c :: b /\ c ∉ a).
Proof.
  induction s as [|x s IH]; cbn [split_at]; [left; split; [done|apply not_elem_of_nil]|].
  destruct (Z.eqb_spec x c) as [->|Hx].
  { right. exists [], s. split; [done|]. split; [done|apply not_elem_of_nil]. }
  destruct IH as [[-> H]|(a & b & -> & -> & H)]; [left|right; exists (x :: a), b]; repeat split; try done;
    apply not_elem_of_cons; by split.
Qed.

Lemma not_elem_free (c : Z) s : c ∉ s -> Forall (fun x => x <> c) s.
Proof. intros H. apply list.Forall_forall. by intros x Hx ->. Qed.

Lemma scan_n_app stop x pre post :
  scan_n (length x) (pre ++ x ++ post) (zlen pre) stop =
  Some (zlen pre + match list_find (fun y => stop y = true) x with Some (n, _) => Z.of_nat n | None => zlen x end).
Proof.
  revert pre. induction x as [|y x IH]; intros pre; cbn [length scan_n]; [cbn; f_equal; unfold zlen; cbn [length]; lia|].
  change (pre ++ (y :: x) ++ post) with (pre ++ y :: x ++ post). rewrite rd_mid. cbn [mbind option_bind list_find]. destruct (stop y) eqn:E.
  - rewrite decide_True by done. by rewrite Z.add_0_r.
  - rewrite decide_False by done. replace (zlen pre + 1) with (zlen (pre ++ [y])) by (by rewrite zlen_app).
    assert (pre ++ y :: x ++ post = (pre ++ [y]) ++ x ++ post) as -> by (by rewrite <- app_assoc). rewrite IH, zlen_app. change (zlen [y]) with 1.
    destruct (list_find _ x) as [[n z]|]; cbn; f_equal; [lia|]. rewrite (zlen_cons y x). lia.
Qed.

(** [memchr] on a part of the buffer. *)
Lemma find_byte_app c x pre post :
  find_byte (pre ++ x ++ post) (zlen pre) (zlen pre + zlen x) c =
  Some (match split_at c x with (a, Some _) => Some (zlen pre + zlen a) | _ => None end).
Proof.
  unfold find_byte, scan. replace (Z.to_nat (zlen pre + zlen x - zlen pre)) with (length x) by (unfold zlen; lia).
  rewrite scan_n_app. cbn [mbind option_bind]. destruct (split_at_cases c x) as [[-> H]|(a & b & -> & -> & H)].
  - rewrite (proj2 (list_find_None _ x)); [by rewrite Z.ltb_irrefl|].
    apply list.Forall_forall. intros y Hy E. apply Z.eqb_eq in E. by subst.
  - assert (list_find (fun y => (y =? c) = true) (a ++ c :: b) = Some (length a, c)) as ->.
    { apply list_find_Some. rewrite list_lookup_middle by done. split; [done|]. split; [apply Z.eqb_refl|].
      intros j y Hj Hlt E. apply Z.eqb_eq in E as ->. rewrite lookup_app_l in Hj by done. apply H. by eapply list_elem_of_lookup_2. }
    cbn [fst]. destruct (Z.ltb_spec (zlen pre + Z.of_nat (length a)) (zlen pre + zlen (a ++ c :: b))); [done|].
    rewrite zlen_app, zlen_cons in *. pose proof (zlen_nonneg b). unfold zlen in *. lia.
Qed.

Lemma wr_app pre x post v : wr (pre ++ x :: post) (zlen pre) v = Some (pre ++ v :: post).
Proof.
  unfold wr. rewrite zlen_app, zlen_cons. pose proof (zlen_nonneg pre). pose proof (zlen_nonneg post).
  destruct (Z.leb_spec 0 (zlen pre)); [|lia]. destruct (Z.ltb_spec (zlen pre) (zlen pre + (1 + zlen post))); [|lia]. cbn [andb].
  unfold zlen. rewrite Nat2Z.id. by rewrite insert_app_r_alt, Nat.sub_diag by done.
Qed.

(** A part of the buffer is cut at a character. *)
Lemma find_end c x pre post :
  exists r t, find_byte (pre ++ x ++ post) (zlen pre) (zlen pre + zlen x) c = Some r /\
    end_at (pre ++ x ++ post) r = Some (pre ++ cut c x ++ t) /\
    default (zlen pre + zlen x) r = zlen pre + zlen (cut c x) /\
    (t = post /\ cut c x = x \/ exists b, t = 0 :: b ++ post /\ x = cut c x ++ c :: b).
Proof.
  rewrite find_byte_app. unfold cut. destruct (split_at_cases c x) as [[E H]|(a & b & E & Hx & H)]; rewrite E; cbn [fst].
  - exists None, post. split; [done|]. split; [done|]. split; [done|]. by left.
  - exists (Some (zlen pre + zlen a)), (0 :: b ++ post). split; [done|]. split; [|split; [done|right; by exists b]].
    cbn [end_at]. rewrite Hx, <- zlen_app, <- !app_assoc. cbn [Datatypes.app]. rewrite !app_assoc. by rewrite wr_app.
Qed.

(** The two lines of an upload. *)
Definition line_of (s : list Z) : list Z := cut ch_cr (cut ch_lf s).

Lemma cut_bytes c s : bytes_ok s -> bytes_ok (cut c s).
Proof.
  unfold cut, bytes_ok. destruct (split_at_cases c s) as [[-> _]|(a & b & -> & -> & _)]; [done|]. cbn [fst]. by intros [? _]%Forall_app.
Qed.

Lemma cstr_cut a t : cstr (a ++ 0 :: t) = cstr a.
Proof. induction a as [|x a IH]; [done|]. cbn [Datatypes.app cstr]. destruct (x =? 0); [done|]. by rewrite IH. Qed.

Lemma loginpost_split_spec d rest :
  match split_at ch_lf d with
  | (a, Some b) =>
      exists post t, loginpost_split (d ++ rest) (zlen d) = Some (Some (post, zlen a + 1, zlen (line_of b))) /\
        cstr post = cstr (cut ch_cr a) /\ drop (Z.to_nat (zlen a + 1)) post = line_of b ++ t /\
        (bytes_ok d -> bytes_ok rest -> bytes_ok t) /\ (rest <> [] -> t <> [])
  | (_, None) => loginpost_split (d ++ rest) (zlen d) = Some None
  end.
Proof.
  pose proof (find_byte_app ch_lf d [] rest) as Hf. change (zlen (@nil Z)) with 0 in Hf; rewrite Z.add_0_l in Hf. cbn [Datatypes.app] in Hf.
  unfold loginpost_split. destruct (split_at_cases ch_lf d) as [[E H]|(a & b & E & -> & H)]; rewrite E in *; rewrite Hf; cbn [mbind option_bind]; [done|].
  rewrite Z.add_0_l, <- app_assoc. cbn [Datatypes.app]. rewrite wr_app. cbn [mbind option_bind].
  destruct (find_end ch_cr a [] (0 :: b ++ rest)) as (r1 & t1 & F1 & G1 & D1 & C1). change (zlen (@nil Z)) with 0 in *; rewrite !Z.add_0_l in *. cbn [Datatypes.app] in *.
  rewrite F1. cbn [mbind option_bind]. rewrite G1. cbn [mbind option_bind].
  assert (exists A, cut ch_cr a ++ t1 = (A ++ [0]) ++ b ++ rest /\ zlen A = zlen a /\ cstr (A ++ [0]) = cstr (cut ch_cr a)) as (A & -> & HA & HC).
  { destruct C1 as [[-> E1]|(b1 & -> & E1)].
    - exists a. rewrite E1, <- app_assoc. split; [done|]. split; [done|]. apply cstr_cut.
    - exists (cut ch_cr a ++ 0 :: b1). rewrite <- !app_assoc. split; [done|]. split.
      + rewrite E1 at 2. by rewrite !zlen_app, !zlen_cons.
      + cbn [Datatypes.app]. apply cstr_cut. }
  assert (zlen a + 1 = zlen (A ++ [0])) as Hp by (rewrite zlen_app, HA; done).
  assert (zlen (a ++ ch_lf :: b) = zlen (A ++ [0]) + zlen b) as -> by (rewrite <- Hp, zlen_app, zlen_cons; lia).
  destruct (find_end ch_lf b (A ++ [0]) rest) as (r2 & t2 & F2 & G2 & D2 & C2). rewrite Hp, F2. cbn [mbind option_bind]. rewrite G2, D2. cbn [mbind option_bind].
  destruct (find_end ch_cr (cut ch_lf b) (A ++ [0]) t2) as (r3 & t3 & F3 & G3 & D3 & C3). rewrite F3. cbn [mbind option_bind]. rewrite G3, D3. cbn [mbind option_bind].
  eexists _, t3. split; [do 3 f_equal; unfold line_of; lia|]. split; [|split; [|split]].
  - rewrite <- HC, <- app_assoc. cbn [Datatypes.app]. by rewrite !cstr_cut.
  - replace (Z.to_nat (zlen (A ++ [0]))) with (length (A ++ [0])) by (unfold zlen; lia). by rewrite drop_app_length.
  - intros Hd Hr. unfold bytes_ok in *. apply Forall_app in Hd as [_ [_ Hb]%list.Forall_cons_1].
    assert (Forall is_byte (cut ch_lf b) /\ Forall is_byte t2) as [Hc2 Ht2].
    { destruct C2 as [[-> ->]|(b2 & -> & E2)]; [done|]. rewrite E2 in Hb. apply Forall_app in Hb as [? [_ ?]%list.Forall_cons_1].
      split; [done|]. constructor; [done|]. by apply Forall_app. }
    destruct C3 as [[-> _]|(b3 & -> & E3)]; [done|]. rewrite E3 in Hc2. apply Forall_app in Hc2 as [? [_ ?]%list.Forall_cons_1].
    constructor; [done|]. by apply Forall_app.
  - intros Hr. destruct C3 as [[-> _]|(? & -> & _)]; [|done]. by destruct C2 as [[-> _]|(? & -> & _)].
Qed.

(** ** The login *)

Section Login.
Context (fnmatch : list Z -> list Z -> bool) (disallow_login_glob : list (list Z)).

(** A login line that is good for an upload: an acceptable name, and its passcode. *)
Record login_good (s name : list Z) : Prop := {
  gd_words : exists cmd opts, parse_args_noshell s = cmd :: name :: opts /\ caseeq cmd (str "user") = true /\
    exists pre p code post, opts = pre ++ p :: code :: post /\ caseeq p (str "pass") = true /\ atoi code = Some (aprs_passcode name);
  gd_len : zlen name <= CALLSIGNLEN_MAX;
  gd_name : existsb (caseeq name) disallow_login_usernames = false;
  gd_glob : disallow_login_glob = [] \/ check_call_glob_match fnmatch disallow_login_glob name = 0;
  gd_call : check_invalid_q_callsign name = 0
}.

Lemma upload_options_pass name opts v :
  upload_options opts name v = Some 1 -> v <> 1 ->
  exists pre p code post, opts = pre ++ p :: code :: post /\ caseeq p (str "pass") = true /\ atoi code = Some (aprs_passcode name).
Proof.
  revert v. induction opts as [opts IH] using (induction_ltof1 _ length); unfold ltof in IH. intros v Ho Hv.
  destruct opts as [|a opts]; cbn [upload_options] in Ho; [congruence|].
  assert (forall t pre, opts = pre ++ t -> upload_options t name v = Some 1 ->
    exists pre p code post, a :: opts = pre ++ p :: code :: post /\ caseeq p (str "pass") = true /\ atoi code = Some (aprs_passcode name)) as Hrec.
  { intros t pre -> Ht. destruct (IH t) with (v := v) as (pre' & p & code & post & -> & H); [cbn [length]; rewrite length_app; lia|done..|].
    exists (a :: pre ++ pre'), p, code, post. split; [|done]. cbn [Datatypes.app]. by rewrite <- app_assoc. }
  destruct (caseeq a (str "pass")) eqn:Ea.
  - destruct opts as [|p opts]; [congruence|]. inv_bind Ho. destruct ((x >=? 0) && (x =? aprs_passcode name)) eqn:Ep.
    + exists [], a, p, opts. split; [done|]. split; [done|]. apply andb_prop in Ep as [_ ->%Z.eqb_eq]. done.
    + by apply (Hrec opts [p]).
  - destruct (caseeq a (str "vers")); [|by apply (Hrec opts [])].
    destruct opts as [|x [|y opts]]; [congruence..|]. by apply (Hrec opts [x; y]).
Qed.

Lemma upload_options_range name opts v r : upload_options opts name v = Some r -> r = v \/ r = 1.
Proof.
  revert v. induction opts as [opts IH] using (induction_ltof1 _ length); unfold ltof in IH. intros v Ho.
  destruct opts as [|a opts]; cbn [upload_options] in Ho; [left; congruence|].
  destruct (caseeq a (str "pass")).
  - destruct opts as [|p opts]; [left; congruence|]. inv_bind Ho. apply IH in Ho; [|cbn; lia]. destruct (_ && _); [right; by destruct Ho|done].
  - destruct (caseeq a (str "vers")); [|apply IH in Ho; [done|cbn; lia]].
    destruct opts as [|x [|y opts]]; [left; congruence..|]. apply IH in Ho; [done|cbn; lia].
Qed.

(** A login that is accepted is a good one. *)
Lemma upload_login_good s u :
  http_udp_upload_login fnmatch disallow_login_glob s = Some (1, u) -> exists name, u = Some name /\ login_good s name.
Proof.
  unfold http_udp_upload_login. destruct (parse_args_noshell s) as [|cmd [|name opts]] eqn:Ew; [done..|]. intros Hl.
  destruct (caseeq cmd (str "user")) eqn:Ec; cbn [negb] in Hl; [|done].
  destruct (Z.gtb_spec (zlen name) CALLSIGNLEN_MAX); [done|].
  destruct (existsb _ _) eqn:Ed; [done|].
  destruct (negb (bool_decide _) && _) eqn:Eg; [done|].
  destruct (Z.eqb_spec (check_invalid_q_callsign name) 0); cbn [negb] in Hl; [|done].
  inv_bind Hl. injection Hl as -> <-. exists name. split; [done|]. split; try done; [|].
  - exists cmd, opts. split; [done|]. split; [done|]. by apply (upload_options_pass name opts 0).
  - destruct (bool_decide_reflect (disallow_login_glob = [])); [by left|]. right. cbn [negb andb] in Eg. by apply negb_false_iff, Z.eqb_eq in Eg.
Qed.

(** The usual line is a good one. *)
Lemma upload_login_pass name code app ver :
  Forall word_ok [name; code; app; ver] -> zlen name <= CALLSIGNLEN_MAX -> existsb (caseeq name) disallow_login_usernames = false ->
  (disallow_login_glob = [] \/ check_call_glob_match fnmatch disallow_login_glob name = 0) -> check_invalid_q_callsign name = 0 ->
  atoi code = Some (aprs_passcode name) ->
  http_udp_upload_login fnmatch disallow_login_glob (cstr (unwords [str "user"; name; str "pass"; code; str "vers"; app; ver])) = Some (1, Some name).
Proof.
  intros Hws Hl Hd Hg Hq Hc. pose proof (aprs_passcode_nonneg name) as Hp. unfold http_udp_upload_login. rewrite parse_unwords.
  2:{ cbn. lia. }
  2:{ repeat (apply list.Forall_cons_1 in Hws as [? Hws]). repeat (constructor; [done || by apply word_ok_b_ok|]). constructor. }
  change (negb (caseeq (str "user") (str "user"))) with false. cbv iota. destruct (Z.gtb_spec (zlen name) CALLSIGNLEN_MAX); [lia|]. rewrite Hd.
  assert (negb (bool_decide (disallow_login_glob = [])) && negb (check_call_glob_match fnmatch disallow_login_glob name =? 0) = false) as ->.
  { destruct Hg as [->| ->]; [by rewrite bool_decide_eq_true_2|by rewrite andb_false_r]. }
  rewrite Hq. cbn [Z.eqb negb upload_options]. change (caseeq (str "pass") (str "pass")) with true. cbv iota. rewrite Hc. cbn [mbind option_bind].
  destruct (Z.geb_spec (aprs_passcode name) 0); [|lia]. rewrite Z.eqb_refl. cbn [andb].
  change (caseeq (str "vers") (str "pass")) with false. change (caseeq (str "vers") (str "vers")) with true. done.
Qed.
End Login.

(** ** Uploads *)

Section Upload.
Context {W : Type} `{ServerLaws W} `{ClientDirectory}.
Context (cosf : spec_float -> spec_float) (fnmatch : list Z -> list Z -> bool).
Context (cfg : config) (g : globs) (disallow_login_glob : list (list Z)) (mem : bool) (tick : Z).

Notation push := (pseudoclient_push_packet cosf fnmatch cfg g mem tick true).
Notation check := (upload_check fnmatch disallow_login_glob).
Notation login_good := (login_good fnmatch disallow_login_glob).

Lemma upload_check_spec d rest r :
  rest <> [] -> check (d ++ rest) (zlen d) = Some r ->
  match r with
  | inl _ => True
  | inr (name, packet, n) =>
      exists a b t, split_at ch_lf d = (a, Some b) /\ login_good (cstr (cut ch_cr a)) name /\ packet = line_of b ++ t /\ n = zlen (line_of b) /\
        PACKETLEN_MIN <= n <= PACKETLEN_MAX - 2 /\ (bytes_ok d -> bytes_ok rest -> bytes_ok t) /\ t <> []
  end.
Proof.
  intros Hr E. unfold upload_check in E. pose proof (loginpost_split_spec d rest) as Hs.
  destruct (split_at ch_lf d) as [a [b|]]; [|rewrite Hs in E; by injection E as <-].
  destruct Hs as (post & t & E0 & Hc & Hd & Hb & Ht). rewrite E0 in E. cbn [mbind option_bind] in E.
  destruct (Z.eqb_spec (zlen (line_of b)) (-1)); [by injection E as <-|]. rewrite Hc in E. inv_bind E. destruct x as [v u].
  destruct (v <? 0); [by injection E as <-|]. destruct (Z.eqb_spec v 1) as [->|]; [|by injection E as <-]. cbn [negb] in E.
  destruct (Z.ltb_spec (zlen (line_of b)) PACKETLEN_MIN); [by injection E as <-|].
  destruct (Z.gtb_spec (zlen (line_of b)) (PACKETLEN_MAX - 2)); [by injection E as <-|].
  match goal with Hl : http_udp_upload_login _ _ _ = _ |- _ => apply upload_login_good in Hl as (name & -> & Hg) end.
  cbn [mbind option_bind] in E. injection E as <-. rewrite Hd. exists a, b, t. do 4 (split; [done|]). split; [lia|]. split; [done|by apply Ht].
Qed.

(** Client and server have usual names. *)
Record pseudo_ok (c : client_t) : Prop := {
  ps_serverid : zlen cfg.(serverid) <= CALLSIGNLEN_MAX /\ bytes_ok cfg.(serverid);
  ps_addr_hex : zlen c.(c_addr_hex) <= 35 /\ bytes_ok c.(c_addr_hex);
  ps_proto : is_byte cfg.(q_protocol_id);
  ps_quirks : c.(c_quirks_mode) = false
}.

(** The packet is the line, with another path. *)
Definition packet_from (c : client_t) (line : list Z) (pb : pbuf_t) : Prop :=
  exists t h, check_header fnmatch g c (line ++ t) (zlen line) = Some (inr h) /\
    slice pb.(pb_data) 0 pb.(pb_dstcall_end) = slice line 0 h.(h_dstcall_end) /\
    pb.(pb_srccall_end) = h.(h_src_end) /\ pb.(pb_dstcall_end) = h.(h_dstcall_end) /\
    slice pb.(pb_data) (pb.(pb_info_start) - 1) (pb.(pb_packet_len) - 2 - (pb.(pb_info_start) - 1))
      = slice line h.(h_path_end) (zlen line - h.(h_path_end)).

(** An upload was queued: it had a good login, and its second line is the packet. *)
Definition uploaded (d : list Z) (st st' : in_state (W := W)) : Prop :=
  exists a b name pb, split_at ch_lf d = (a, Some b) /\ login_good (cstr (cut ch_cr a)) name /\
    PACKETLEN_MIN <= zlen (line_of b) <= PACKETLEN_MAX - 2 /\
    st'.(in_worker).(w_pbuf_incoming) = st.(in_worker).(w_pbuf_incoming) ++ [pb] /\
    queue_ok pb /\ packet_from (set_c_name name st.(in_client)) (line_of b) pb.

Lemma push_spec name line t (st st' : in_state (W := W)) e :
  pseudo_ok st.(in_client) -> bytes_ok name -> zlen name <= CALLSIGNLEN_MAX -> bytes_ok (line ++ t) -> t <> [] -> zlen line <= PACKETLEN_MAX - 2 ->
  Incoming.worker_ok st.(in_worker) -> st.(in_worker).(w_incoming_local) = [] ->
  push name (line ++ t) (zlen line) st = Some (st', e) ->
  Incoming.worker_ok st'.(in_worker) /\ st'.(in_worker).(w_incoming_local) = [] /\
  (st'.(in_worker).(w_pbuf_incoming) = st.(in_worker).(w_pbuf_incoming) \/
   0 <= e /\ exists pb, st'.(in_worker).(w_pbuf_incoming) = st.(in_worker).(w_pbuf_incoming) ++ [pb] /\ queue_ok pb /\
     packet_from (set_c_name name st.(in_client)) line pb).
Proof.
  intros [[P1 P2] [P3 P4] P5 P6] Hn Hl Hb Ht Hm Hw Hlo E. unfold pseudoclient_push_packet in E.
  assert (take 15 name = name) as Etk by (apply take_ge; unfold zlen, CALLSIGNLEN_MAX in *; lia). rewrite Etk in E.
  inv_bind E. destruct x as [st1 e1].
  match goal with Hx : incoming_parse _ _ _ _ _ _ _ _ _ = _ |- _ => rename Hx into Hp end.
  assert (0 < zlen t) as Htl by (destruct t; [done|]; rewrite zlen_cons; pose proof (zlen_nonneg t); lia).
  assert (line_ok cfg (set_c_name name (in_client st)) (line ++ t) (zlen line)) as Hok.
  { pose proof (zlen_nonneg line). split; [done|cbn; unfold CALLSIGNLEN_MAX in *; lia|done|by split|rewrite zlen_app; lia]. }
  apply parse_cases in Hp as [Hw1 Hc]; [|done|done|done]. cbn [in_worker in_client in_filter in_ops set_in_name] in *.
  destruct Hc as [[(Q1 & Q2 & Q3 & Q4) _]|(s' & len' & w1 & pb & Hpl & (Q1 & Q2 & Q3 & Q4) & _ & Ew & Hq)].
  - assert (st' = set_in_name [] st1) as ->.
    { cbn [in_worker set_in_name] in E. rewrite Q1, Hlo in E. by destruct (e1 <? 0); injection E as <- _. }
    cbn [in_worker set_in_name]. split; [done|]. split; [congruence|]. left. congruence.
  - unfold parsed_line in Hpl. cbn [c_quirks_mode set_c_name] in Hpl. rewrite P6 in Hpl. destruct Hpl as [-> ->].
    assert (0 <= e1) as He by (by destruct Hq). destruct (Z.ltb_spec e1 0); [lia|]. cbn [in_worker set_in_name] in E.
    rewrite Ew in E. cbn [w_incoming_local enqueue] in E. rewrite Q1, Hlo in E. cbn [Datatypes.app] in E. injection E as <- <-.
    cbn [flush_in in_worker incoming_flush set_in_name w_pbuf_incoming w_incoming_local]. rewrite Ew in Hw1 |- *. split; [exact Hw1|]. split; [done|].
    right. split; [done|]. exists pb. cbn [enqueue w_incoming_local w_pbuf_incoming]. rewrite Q1, Hlo, Q3. split; [done|].
    pose proof Hq as Hq2. apply queued_filled in Hq2 as (h & n & o & k & flags & pb0 & pb1 & _ & _ & _ & _ & _ & Hqk & _ & ->); [|done|unfold PACKETLEN_MAX in *; lia].
    split; [by apply preprocessed_ok|].
    apply queued_text in Hq as (h' & Hh & T1 & T2 & T3 & T4); [|done|unfold PACKETLEN_MAX in *; lia].
    exists t, h'. split; [done|]. apply check_header_ok in Hh as [Hh _]. destruct Hh as [G1 G2 G3 [Hp1 Hp2] _ _ _].
    rewrite slice_app_l in T1 by lia. rewrite slice_app_l in T4 by lia. done.
Qed.

(** What an accepted upload does. *)
Lemma upload_spec d rest name packet n (st st' : in_state (W := W)) e :
  rest <> [] -> bytes_ok d -> bytes_ok rest -> pseudo_ok st.(in_client) -> Incoming.worker_ok st.(in_worker) -> st.(in_worker).(w_incoming_local) = [] ->
  check (d ++ rest) (zlen d) = Some (inr (name, packet, n)) -> push name packet n st = Some (st', e) ->
  Incoming.worker_ok st'.(in_worker) /\ st'.(in_worker).(w_incoming_local) = [] /\
  (st'.(in_worker).(w_pbuf_incoming) = st.(in_worker).(w_pbuf_incoming) \/ 0 <= e /\ uploaded d st st').
Proof.
  intros Hr Hd Hrb Hc Hw Hl E Ep. apply upload_check_spec in E as (a & b & t & Es & Hg & -> & -> & Hn & Ht & Hne); [|done].
  assert (bytes_ok a /\ bytes_ok (line_of b)) as [Ha Hb].
  { destruct (split_at_cases ch_lf d) as [[E _]|(a' & b' & E & -> & _)]; rewrite Es in E; [done|]. injection E as <- <-.
    unfold bytes_ok in Hd. apply Forall_app in Hd as [? [_ Hb]%list.Forall_cons_1]. split; [done|]. by apply cut_bytes, cut_bytes. }
  assert (bytes_ok name) as Hnm.
  { destruct (gd_words _ _ _ _ Hg) as (cmd & opts & Ew & _). apply list.Forall_forall. intros x Hx.
    assert (x ∈ cstr (cut ch_cr a)) as Hin by (eapply (words_from_in 255); [|exact Hx]; unfold parse_args_noshell in Ew; rewrite Ew; right; left).
    pose proof (bytes_ok_cstr _ (cut_bytes ch_cr a Ha)) as Hcb. by apply (proj1 (list.Forall_forall _ _) Hcb). }
  apply push_spec in Ep as (W1 & W2 & W3); try done.
  - split; [done|]. split; [done|]. destruct W3 as [?|(He & pb & W3 & W4)]; [by left|]. right. split; [done|]. by exists a, b, name, pb.
  - by apply (gd_len _ _ _ _ Hg).
  - apply Forall_app. split; [done|]. by apply Ht.
  - lia.
Qed.

Section Udp.
Context (us us' : udp_state (W := W)) (port : Z) (d : list Z).
Context (Hbuf : zlen us.(us_buf) = 2000) (Hbytes : bytes_ok us.(us_buf)) (Hd : bytes_ok d).

(** A datagram in the buffer. *)
Lemma recv_datagram_spec :
  zlen d <= 1999 -> exists rest, rest <> [] /\ bytes_ok rest /\ recv_datagram d us = Some (mk_udp us.(us_in) us.(us_account) us.(us_accounts) (d ++ rest)).
Proof.
  intros Hl. exists (drop (length d) us.(us_buf)). split; [|split].
  - intros E%(f_equal length). rewrite length_drop in E. cbn in E. unfold zlen in *. lia.
  - by apply list.Forall_drop.
  - unfold recv_datagram, blit. rewrite take_ge by (unfold zlen in *; lia). rewrite Z.add_0_l, Hbuf.
    destruct (Z.leb_spec (zlen d) 2000); [|lia]. cbn [Z.leb Z.compare andb mbind option_bind]. do 2 f_equal. cbn [Z.to_nat take Datatypes.app].
    unfold zlen. by rewrite Nat2Z.id.
Qed.

(** A UDP datagram puts a packet in the queue of the duplicate checker only when its first line is
    a login with an acceptable name and the passcode of that name, and its second line has the
    length of a packet; the packet then is that line with another path, under that name.  In every
    other case the queue stays as it is.  Nothing is left in the queue of the thread. *)
Theorem udp_submit_policy :
  zlen d <= 1999 -> pseudo_ok us.(us_in).(in_client) -> Incoming.worker_ok us.(us_in).(in_worker) ->
  us.(us_in).(in_worker).(w_incoming_local) = [] ->
  (us1 ← recv_datagram d us; accept_process_udpsubmit cosf fnmatch cfg g disallow_login_glob mem tick true port (zlen d) us1) = Some us' ->
  Incoming.worker_ok us'.(us_in).(in_worker) /\ us'.(us_in).(in_worker).(w_incoming_local) = [] /\
  (us'.(us_in).(in_worker).(w_pbuf_incoming) = us.(us_in).(in_worker).(w_pbuf_incoming) \/ uploaded d us.(us_in) us'.(us_in)).
Proof.
  intros Hl Hc Hw Hlo E. destruct (recv_datagram_spec Hl) as (rest & Hr & Hrb & Er). rewrite Er in E. cbn [mbind option_bind] in E.
  unfold accept_process_udpsubmit in E. cbn [us_buf us_in us_account us_accounts] in E. inv_bind E. destruct x as [r|[[name packet] n]].
  - injection E as <-. cbn. split; [done|]. split; [done|by left].
  - inv_bind E. destruct x as [st e]. inv_bind E. destruct x as [c a]. injection E as <-. cbn [us_in].
    match goal with Hp : push _ _ _ _ = _, Hk : check _ _ = _ |- _ => destruct (upload_spec d rest name packet n _ st e Hr Hd Hrb Hc Hw Hlo Hk Hp) as (W1 & W2 & [W3|[_ W3]]) end;
      (split; [done|]); (split; [done|]); [by left|by right].
Qed.

(** A datagram of 2000 bytes or more is looked through behind the end of the buffer, when there is no
    line feed in it. *)
Theorem udp_submit_truncated :
  2000 < zlen d -> ch_lf ∉ d -> rd us.(us_buf) 1999 <> Some ch_lf ->
  (us1 ← recv_datagram d us; accept_process_udpsubmit cosf fnmatch cfg g disallow_login_glob mem tick true port (zlen d) us1) = None.
Proof.
  intros Hl Hlf Hlast. assert (exists z, drop 1999 us.(us_buf) = [z] /\ z <> ch_lf) as (z & Ez & Hz).
  { destruct (drop 1999 us.(us_buf)) as [|z [|y l]] eqn:E; pose proof (f_equal length E) as El; rewrite length_drop in El; unfold zlen in Hbuf; cbn in El; [lia| |lia].
    exists z. split; [done|]. intros ->. apply Hlast. unfold rd. cbn [Z.leb Z.compare]. change (Z.to_nat 1999) with (1999 + 0)%nat. by rewrite <- lookup_drop, E. }
  assert (zlen (take 1999 d) = 1999) as Hdl by (unfold zlen in *; rewrite length_take; lia).
  unfold recv_datagram, blit. rewrite Hdl, Hbuf. change (0 + 1999) with 1999. cbn [Z.leb Z.compare Pos.compare Pos.compare_cont andb mbind option_bind].
  change (Z.to_nat 1999) with 1999%nat. change (Z.to_nat 0) with 0%nat. rewrite Ez. cbn [take Datatypes.app].
  unfold accept_process_udpsubmit. cbn [us_buf]. unfold upload_check, loginpost_split.
  assert (forall s n, length s = 2000%nat -> ch_lf ∉ s -> (2000 < n)%nat -> scan_n n s 0 (fun x => x =? ch_lf) = None) as Hscan.
  { intros s n Hs Hin Hn. replace n with (length s + S (n - 2001))%nat by lia.
    assert (forall m p, 0 <= p -> p + Z.of_nat m = zlen s ->
      scan_n (m + S (n - 2001)) s p (fun x => x =? ch_lf) = None) as Hgo.
    { induction m as [|m IH]; intros p Hp Hm; cbn [Nat.add scan_n].
      - unfold rd. destruct (0 <=? p); [|done]. rewrite lookup_ge_None_2; [done|]. unfold zlen in *. lia.
      - destruct (rd s p) as [c|] eqn:Er; [|done]. cbn [mbind option_bind]. destruct (Z.eqb_spec c ch_lf) as [->|].
        + exfalso. apply Hin. unfold rd in Er. destruct (0 <=? p); [|done]. by eapply list_elem_of_lookup_2.
        + apply IH; lia. }
    apply Hgo; [done|unfold zlen; lia]. }
  unfold find_byte, scan. rewrite (Hscan (take 1999 d ++ [z])); [done| | |].
  - rewrite length_app. unfold zlen in Hdl. cbn. lia.
  - rewrite not_elem_of_app. split; [intros Hin; apply Hlf; rewrite <- (take_drop 1999 d); apply elem_of_app; by left|]. by rewrite list_elem_of_singleton.
  - unfold zlen in *. lia.
Qed.
End Udp.

(** ** HTTP *)

Section Http.
Context (stack : list Z) (r : request) (st st' : in_state (W := W)).
Context (Hstack : zlen stack = 2049) (Hbytes : bytes_ok stack) (Hbody : bytes_ok r.(rq_body)).
Context (Hc : pseudo_ok st.(in_client)) (Hw : Incoming.worker_ok st.(in_worker)) (Hl : st.(in_worker).(w_incoming_local) = []).

Notation upload := (http_upload_position cosf fnmatch cfg g disallow_login_glob mem tick true stack r st).

(** The part of the body that is looked at. *)
Definition post_data : list Z := take (Z.to_nat MAX_HTTP_POST_DATA) r.(rq_body).

Lemma post_data_len : 0 <= zlen post_data <= MAX_HTTP_POST_DATA.
Proof. unfold post_data, zlen, MAX_HTTP_POST_DATA. rewrite length_take. lia. Qed.

Lemma copy_body_spec :
  exists rest, rest <> [] /\ bytes_ok rest /\ copy_body stack r.(rq_body) = Some (post_data ++ rest, zlen post_data).
Proof.
  pose proof post_data_len as Hn. unfold copy_body. fold post_data. cbv zeta.
  assert (exists a t, drop (length post_data) stack = a :: t) as (a & t & Ed).
  { destruct (drop (length post_data) stack) as [|a t] eqn:E; [|by exists a, t]. apply (f_equal length) in E. rewrite length_drop in E.
    unfold zlen, MAX_HTTP_POST_DATA in *. cbn in E. lia. }
  assert (blit stack 0 post_data = Some (post_data ++ a :: t)) as ->.
  { unfold blit. rewrite Z.add_0_l, Hstack. unfold MAX_HTTP_POST_DATA in Hn. destruct (Z.leb_spec (zlen post_data) 2049); [|lia].
    cbn [Z.leb Z.compare andb Z.to_nat take Datatypes.app]. unfold zlen. by rewrite Nat2Z.id, Ed. }
  cbn [mbind option_bind]. assert (zlen (post_data ++ a :: t) = 2049) as Hz.
  { assert (length stack = length (post_data ++ a :: t)) as He; [|unfold zlen in *; lia].
    rewrite <- Ed, length_app, length_drop. unfold zlen, MAX_HTTP_POST_DATA in *. lia. }
  assert (bytes_ok (a :: t)) as Hat by (rewrite <- Ed; by apply list.Forall_drop).
  assert (exists b u, wr (post_data ++ a :: t) MAX_HTTP_POST_DATA 0 = Some (post_data ++ b :: u) /\ bytes_ok (b :: u)) as (b & u & -> & Hbu).
  { unfold wr. rewrite Hz. cbn [Z.leb Z.compare andb]. change (MAX_HTTP_POST_DATA <? 2049) with true. cbv iota.
    rewrite insert_app_r_alt by (unfold zlen in *; lia). set (k := (_ - length post_data)%nat).
    assert (bytes_ok (<[k := 0]> (a :: t))) as Hins by (apply list.Forall_insert; done).
    destruct (<[k := 0]> (a :: t)) as [|b u] eqn:E; [apply (f_equal length) in E; rewrite length_insert in E; done|]. by exists b, u. }
  cbn [mbind option_bind]. destruct (Z.leb_spec (zlen post_data) MAX_HTTP_POST_DATA); [|lia]. rewrite wr_app. cbn [mbind option_bind].
  exists (0 :: u). split; [done|]. split; [|done]. apply list.Forall_cons_1 in Hbu as [_ ?]. by constructor.
Qed.

(** A POST request puts a packet in the queue of the duplicate checker only when its body has a good
    login and a packet, as a datagram has to.  When the answer is an error, nothing was queued. *)
Theorem http_upload_policy rep :
  upload = Some (st', rep) ->
  Incoming.worker_ok st'.(in_worker) /\ st'.(in_worker).(w_incoming_local) = [] /\
  (st'.(in_worker).(w_pbuf_incoming) = st.(in_worker).(w_pbuf_incoming) \/
   rep = SendOk (str "ok" ++ [ch_lf]) /\ uploaded post_data st st').
Proof.
  intros E. unfold http_upload_position in E. split_if_in E; [injection E as <- _; split; [done|]; split; [done|by left]|].
  destruct (rq_content_length r) as [cl|]; [|injection E as <- _; split; [done|]; split; [done|by left]]. inv_bind E.
  split_if_in E; [injection E as <- _; split; [done|]; split; [done|by left]|].
  destruct copy_body_spec as (rest & Hr & Hrb & Ec). rewrite Ec in E. cbn [mbind option_bind] in E.
  split_if_in E; [injection E as <- _; split; [done|]; split; [done|by left]|]. inv_bind E. destruct x0 as [e|[[name packet] n]].
  { injection E as <- _. split; [done|]. split; [done|by left]. }
  inv_bind E. destruct x0 as [st1 e]. injection E as <- <-.
  assert (bytes_ok post_data) as Hpd by (by apply list.Forall_take).
  match goal with Hp : push _ _ _ _ = _, Hk : check _ _ = _ |- _ => destruct (upload_spec _ rest name packet n _ st1 e Hr Hpd Hrb Hc Hw Hl Hk Hp) as (W1 & W2 & [W3|[He W3]]) end;
    (split; [done|]); (split; [done|]); [by left|]. right. split; [|done]. by destruct (Z.ltb_spec e 0); [lia|].
Qed.
End Http.

Lemma words_line_free c ws :
  Forall word_ok ws -> isspace c = true -> c <> ch_sp -> c ∉ unwords ws.
Proof.
  intros Hws Hc Hsp. induction ws as [|w ws IH]; cbn [unwords]; [apply not_elem_of_nil|]. apply list.Forall_cons_1 in Hws as [[_ Hw] Hws].
  assert (c ∉ w) as Hcw by (intros Hin; pose proof (proj1 (list.Forall_forall _ _) Hw c Hin) as [? _]; congruence).
  destruct ws; [done|]. rewrite !not_elem_of_app, list_elem_of_singleton. auto.
Qed.

(** A right upload is not refused: a body with the usual login line, an acceptable name and its passcode, and
    a packet of 10 to 510 bytes is handed to the parser under that name, and answered by what the parser says. *)
Theorem http_upload_accepted stack name code app ver packet eol ctype clength (st : in_state (W := W)) :
  let line := unwords [str "user"; name; str "pass"; code; str "vers"; app; ver] in
  let body := line ++ [ch_cr; ch_lf] ++ packet ++ eol in
  Forall word_ok [name; code; app; ver] -> zlen name <= CALLSIGNLEN_MAX -> existsb (caseeq name) disallow_login_usernames = false ->
  (disallow_login_glob = [] \/ check_call_glob_match fnmatch disallow_login_glob name = 0) -> check_invalid_q_callsign name = 0 ->
  atoi code = Some (aprs_passcode name) ->
  ch_cr ∉ packet -> ch_lf ∉ packet -> eol ∈ [[]; [ch_lf]; [ch_cr; ch_lf]] -> PACKETLEN_MIN <= zlen packet <= PACKETLEN_MAX - 2 ->
  zlen stack = 2049 -> bytes_ok stack -> caseeq ctype (str "application/octet-stream") = true -> atoi clength = Some (zlen body) -> zlen body <= MAX_HTTP_POST_DATA ->
  exists t, http_upload_position cosf fnmatch cfg g disallow_login_glob mem tick true stack (mk_request (Some ctype) (Some clength) body) st =
    ('(st, e) ← push name (packet ++ t) (zlen packet) st;
     Some (st, if e <? 0 then SendError HTTP_BADREQUEST "Packet parsing failure" else SendOk (str "ok" ++ [ch_lf]))).
Proof.
  intros line body Hws Hn Hd Hg Hq Hcode Hcr Hlf He Hp Hst Hsb Hct Hcl Hmax.
  assert (Forall word_ok [str "user"; name; str "pass"; code; str "vers"; app; ver]) as Hall.
  { repeat (apply list.Forall_cons_1 in Hws as [? Hws]). repeat (constructor; [done || by apply word_ok_b_ok|]). constructor. }
  pose proof (words_line_free ch_lf _ Hall eq_refl ltac:(done)) as Hllf. pose proof (words_line_free ch_cr _ Hall eq_refl ltac:(done)) as Hlcr. fold line in Hllf, Hlcr.
  assert (split_at ch_lf body = (line ++ [ch_cr], Some (packet ++ eol))) as Hs.
  { unfold body. assert (line ++ [ch_cr; ch_lf] ++ packet ++ eol = (line ++ [ch_cr]) ++ ch_lf :: packet ++ eol) as -> by (by rewrite <- app_assoc).
    apply split_at_found. apply list.Forall_forall. intros x Hx ->. apply elem_of_app in Hx as [?|Hx]; [done|]. apply list_elem_of_singleton in Hx. done. }
  assert (line_of (packet ++ eol) = packet) as Hlo.
  { unfold line_of. apply not_elem_free in Hcr, Hlf. repeat (apply elem_of_cons in He as [->|He]); [| | |by apply elem_of_nil in He].
    - unfold cut. rewrite app_nil_r, (split_at_none _ _ Hlf). cbn [fst]. by rewrite (split_at_none _ _ Hcr).
    - unfold cut. rewrite (split_at_found ch_lf packet [] Hlf). cbn [fst]. by rewrite (split_at_none _ _ Hcr).
    - unfold cut. assert (packet ++ [ch_cr; ch_lf] = (packet ++ [ch_cr]) ++ ch_lf :: []) as -> by (by rewrite <- app_assoc).
      rewrite split_at_found by (apply Forall_app; split; [done|by repeat constructor]). cbn [fst]. by rewrite (split_at_found ch_cr packet [] Hcr). }
  assert (cut ch_cr (line ++ [ch_cr]) = line) as Hcl2 by (unfold cut; by rewrite (split_at_found ch_cr line []) by by apply not_elem_free).
  unfold http_upload_position. cbn [rq_content_type rq_content_length rq_body]. rewrite Hct, Hcl. cbn [negb mbind option_bind].
  destruct (Z.gtb_spec (zlen body) MAX_HTTP_POST_DATA); [lia|].
  destruct (copy_body_spec stack (mk_request (Some ctype) (Some clength) body) Hst Hsb) as (rest & Hr & _ & Ec). cbn [rq_body] in Ec.
  assert (post_data (mk_request (Some ctype) (Some clength) body) = body) as Hpd by (unfold post_data; cbn [rq_body]; apply take_ge; unfold zlen in *; lia).
  rewrite Hpd in Ec. rewrite Ec. cbn [mbind option_bind]. rewrite Z.eqb_refl. cbn [negb].
  pose proof (loginpost_split_spec body rest) as Hsp. rewrite Hs, Hlo in Hsp. destruct Hsp as (post & t & E0 & E1 & E2 & _ & _).
  exists t. unfold upload_check. rewrite E0. cbn [mbind option_bind]. pose proof (zlen_nonneg packet).
  destruct (Z.eqb_spec (zlen packet) (-1)); [lia|]. rewrite E1, Hcl2.
  assert (http_udp_upload_login fnmatch disallow_login_glob (cstr line) = Some (1, Some name)) as -> by (by apply upload_login_pass). cbn [mbind option_bind Z.ltb Z.compare Z.eqb negb].
  change (negb (Pos.eqb 1 1)) with false. cbv iota. unfold PACKETLEN_MIN in *. destruct (Z.ltb_spec (zlen packet) 10); [lia|].
  destruct (Z.gtb_spec (zlen packet) (PACKETLEN_MAX - 2)); [lia|]. rewrite E2. reflexivity.
Qed.
End Upload.

(** ** Witnesses *)

#[local] Existing Instance demo_server.
#[local] Existing Instance demo_server_laws.
#[local] Existing Instance demo_directory.

(** The client structure of the thread, which takes UDP packets. *)
Definition demo_pseudo : client_t :=
  let c := (pseudoclient_setup 81 1000 512 512).(wc_client) in
  mk_client c.(c_id) c.(c_fd) c.(c_state) (Z.lor c.(c_flags) CLFLAGS_UDPSUBMIT) c.(c_validated) c.(c_username) c.(c_username_len) c.(c_addr_hex)
    c.(c_quirks_mode) c.(c_no_tx) c.(c_loc_known) c.(c_heard) c.(c_courtesy) c.(c_heard_count) c.(c_courtesy_count) c.(c_lat) c.(c_lng) c.(c_cos_lat).

Definition demo_upload_in : in_state (W := unit) := mk_in demo_worker demo_pseudo filterdb_zero tt.

Definition demo_udp : udp_state (W := unit) :=
  mk_udp demo_upload_in (mk_client_account (account_zero 0) None None)
    (mk_accounts {[1 := account_zero 1]} (account_zero 1) (account_zero 1) (account_zero 1)) (repeat 0 2000).

Definition demo_packet : list Z := str "OH7LZB>APRS,TCPIP*:!6028.51N/02505.68E#PHG".
Definition demo_datagram : list Z :=
  unwords [str "user"; str "OH7LZB"; str "pass"; str "20900"; str "vers"; str "test"; str "1.0"] ++ [ch_cr; ch_lf] ++ demo_packet ++ [ch_cr; ch_lf].

Lemma demo_pseudo_ok : pseudo_ok demo_cfg demo_pseudo.
Proof.
  split; [split; [vm_compute; discriminate|apply bytes_ok_b; vm_compute; reflexivity]
         |split; [vm_compute; discriminate|apply bytes_ok_b; vm_compute; reflexivity]|vm_compute; split; congruence|reflexivity].
Qed.

Lemma zeros_bytes n : bytes_ok (repeat 0 n).
Proof. induction n as [|n IH]; [constructor|]. constructor; [unfold is_byte; lia|exact IH]. Qed.

Definition demo_udp_run : option (udp_state (W := unit)) :=
  us1 ← recv_datagram demo_datagram demo_udp;
  accept_process_udpsubmit demo_cos (fun _ _ => false) demo_cfg no_globs [] true 1000 true 1 (zlen demo_datagram) us1.

Strategy expand [demo_udp_run].

Lemma udp_submit_policy_witness :
  match demo_udp_run with
  | Some us' => zlen us'.(us_in).(in_worker).(w_pbuf_incoming) = 1 /\
      uploaded (fun _ _ => false) no_globs [] demo_datagram demo_upload_in us'.(us_in)
  | None => False
  end.
Proof.
  assert (match demo_udp_run with Some us' => zlen us'.(us_in).(in_worker).(w_pbuf_incoming) = 1 | None => False end) as Hv by (vm_compute; reflexivity).
  destruct demo_udp_run as [us'|] eqn:E; [unfold demo_udp_run in E|destruct Hv]. split; [exact Hv|].
  destruct (udp_submit_policy demo_cos (fun _ _ => false) demo_cfg no_globs [] true 1000 demo_udp us' 1 demo_datagram) as (_ & _ & [Hn|Hu]).
  - vm_compute. reflexivity.
  - apply zeros_bytes.
  - apply bytes_ok_b. vm_compute. reflexivity.
  - vm_compute. discriminate.
  - exact demo_pseudo_ok.
  - intros []; constructor.
  - reflexivity.
  - exact E.
  - rewrite Hn in Hv. vm_compute in Hv. discriminate Hv.
  - exact Hu.
Defined.

Definition demo_request : request := mk_request (Some (str "application/octet-stream")) (Some (str "82")) demo_datagram.

Lemma http_upload_policy_witness :
  match http_upload_position demo_cos (fun _ _ => false) demo_cfg no_globs [] true 1000 true (repeat 0 2049) demo_request demo_upload_in with
  | Some (st', rep) => zlen st'.(in_worker).(w_pbuf_incoming) = 1 /\ uploaded (fun _ _ => false) no_globs [] demo_datagram demo_upload_in st'
  | None => False
  end.
Proof.
  assert (match http_upload_position demo_cos (fun _ _ => false) demo_cfg no_globs [] true 1000 true (repeat 0 2049) demo_request demo_upload_in with
          | Some (st', rep) => zlen st'.(in_worker).(w_pbuf_incoming) = 1 | None => False end) as Hv by (vm_compute; reflexivity).
  destruct (http_upload_position _ _ _ _ _ _ _ _ _ _ _) as [[st' rep]|] eqn:E; [|destruct Hv]. split; [exact Hv|].
  destruct (http_upload_policy demo_cos (fun _ _ => false) demo_cfg no_globs [] true 1000 (repeat 0 2049) demo_request demo_upload_in st') with (rep := rep)
    as (_ & _ & [Hn|[_ Hu]]).
  - vm_compute. reflexivity.
  - apply zeros_bytes.
  - apply bytes_ok_b. vm_compute. reflexivity.
  - exact demo_pseudo_ok.
  - intros []; constructor.
  - reflexivity.
  - exact E.
  - rewrite Hn in Hv. vm_compute in Hv. discriminate Hv.
  - exact Hu.
Defined.

Lemma http_upload_accepted_witness :
  exists t, http_upload_position demo_cos (fun _ _ => false) demo_cfg no_globs [] true 1000 true (repeat 0 2049) demo_request demo_upload_in =
    ('(st, e) ← pseudoclient_push_packet demo_cos (fun _ _ => false) demo_cfg no_globs true 1000 true (str "OH7LZB") (demo_packet ++ t) (zlen demo_packet) demo_upload_in;
     Some (st, if e <? 0 then SendError HTTP_BADREQUEST "Packet parsing failure" else SendOk (str "ok" ++ [ch_lf]))).
Proof.
  refine (http_upload_accepted demo_cos (fun _ _ => false) demo_cfg no_globs [] true 1000 (repeat 0 2049) (str "OH7LZB") (str "20900") (str "test") (str "1.0")
            demo_packet [ch_cr; ch_lf] (str "application/octet-stream") (str "82") demo_upload_in _ _ _ _ _ _ _ _ _ _ _ _ _ _ _).
  - repeat (constructor; [apply word_ok_b_ok; reflexivity|]). constructor.
  - vm_compute. discriminate.
  - vm_compute. reflexivity.
  - left. reflexivity.
  - vm_compute. reflexivity.
  - vm_compute. reflexivity.
  - apply (bool_decide_unpack _). vm_compute. exact I.
  - apply (bool_decide_unpack _). vm_compute. exact I.
  - right. right. left.
  - vm_compute. split; discriminate.
  - vm_compute. reflexivity.
  - apply zeros_bytes.
  - vm_compute. reflexivity.
  - vm_compute. reflexivity.
  - vm_compute. discriminate.
Defined.
