(* ===== verification/Uplink.v ===== *)
(** * uplink.c: connections to other servers

    The uplink thread keeps one connection to a server of the configuration, and one to
    each server that is marked as [CLFLAGS_UPLINKMULTI].  A connection is made to
    one of the addresses of the server, and then logged in with two lines.

    The network is a parameter of every attempt to connect ([attempt]): the resolver, which
    addresses answer, and the results of TLS.  The threads are taken apart at the calls of
    [make_uplink] and [uplink_close], which are one step each. *)

From S2P Require Import Prelude Types Cfgfile Acl ParseQc ParseAprs Clientlist ClientHeard Filter FilterParse Outgoing Login.
From S2P Require Import Plist ClientIO Accounting Worker WorkerSpec Newclient.
From Stdlib Require Import ZArith Lia Bool String.
From stdpp Require Import base tactics list gmap numbers.
Open Scope Z_scope.

(** ** State *)

Definition UPLINK_ST_NOT_LINKED : Z := 0.
Definition UPLINK_ST_CONNECTING : Z := 1.
Definition UPLINK_ST_CONNECTED : Z := 2.

(** The address of the account [uplink_connects]. *)
Definition uplink_connects : Z := -1.

Record uplink_config_t := mk_uplink {
  ul_name : list Z;
  ul_proto : list Z;
  ul_host : list Z;
  ul_port : list Z;
  ul_keyfile : option (list Z);
  ul_certfile : option (list Z);
  ul_cafile : option (list Z);
  ul_crlfile : option (list Z);
  ul_ssl : bool;
  ul_client_flags : Z;
  ul_state : Z;
  ul_client_ptr : option Z
}.

Definition set_ul_ssl (l : uplink_config_t) : uplink_config_t :=
  mk_uplink l.(ul_name) l.(ul_proto) l.(ul_host) l.(ul_port) l.(ul_keyfile) l.(ul_certfile) l.(ul_cafile) l.(ul_crlfile) true l.(ul_client_flags) l.(ul_state) l.(ul_client_ptr).
Definition set_ul_state (st : Z) (l : uplink_config_t) : uplink_config_t :=
  mk_uplink l.(ul_name) l.(ul_proto) l.(ul_host) l.(ul_port) l.(ul_keyfile) l.(ul_certfile) l.(ul_cafile) l.(ul_crlfile) l.(ul_ssl) l.(ul_client_flags) st l.(ul_client_ptr).
Definition set_ul_client (p : option Z) (l : uplink_config_t) : uplink_config_t :=
  mk_uplink l.(ul_name) l.(ul_proto) l.(ul_host) l.(ul_port) l.(ul_keyfile) l.(ul_certfile) l.(ul_cafile) l.(ul_crlfile) l.(ul_ssl) l.(ul_client_flags) l.(ul_state) p.

(** [up_clients] is the list [uplink_clients]; [up_worker] the first worker; [up_next] and
    [up_error_set] are variables of the thread; [up_status] has the times of the calls of
    [status_error], and [up_shutdown] the sockets that were shut down. *)
Record uplinks := mk_uplinks {
  up_config : list uplink_config_t;
  up_clients : list Z;
  up_worker : worker;
  up_next : Z;
  up_error_set : Z;
  up_status : list Z;
  up_shutdown : list Z
}.

Definition set_up_config (l : list uplink_config_t) (u : uplinks) : uplinks :=
  mk_uplinks l u.(up_clients) u.(up_worker) u.(up_next) u.(up_error_set) u.(up_status) u.(up_shutdown).
Definition set_up_clients (l : list Z) (w : worker) (u : uplinks) : uplinks :=
  mk_uplinks u.(up_config) l w u.(up_next) u.(up_error_set) u.(up_status) u.(up_shutdown).
Definition set_up_next (n : Z) (u : uplinks) : uplinks :=
  mk_uplinks u.(up_config) u.(up_clients) u.(up_worker) n u.(up_error_set) u.(up_status) u.(up_shutdown).

Definition put_link (k : nat) (l : uplink_config_t) (u : uplinks) : uplinks := set_up_config (<[k := l]> u.(up_config)) u.

(** ** Closing *)

(** [uplink_client_free] of the entry of a client: the first one. *)
Fixpoint drop_client (id : Z) (l : list Z) : list Z :=
  match l with [] => [] | x :: l => if x =? id then l else x :: drop_client id l end.

(** The gauge of the uplinks. *)
Definition on_uplinks (f : portaccount_t -> portaccount_t) (w : worker) : worker :=
  match w.(wk_accounts).(ac_ports) !! uplink_connects with
  | Some pa => set_wk_accounts (set_ac_ports (<[uplink_connects := f pa]> w.(wk_accounts).(ac_ports)) w.(wk_accounts)) w
  | None => w
  end.

Definition uplink_close (id : Z) (u : uplinks) : uplinks :=
  let w := on_uplinks (fun p => set_pa_use p.(pa_counter) (p.(pa_gauge) - 1) p.(pa_gauge_max) p.(pa_refcount) p) u.(up_worker) in
  let unlink l := if bool_decide (l.(ul_client_ptr) = Some id) then set_ul_state UPLINK_ST_NOT_LINKED (set_ul_client None l) else l in
  set_up_clients (drop_client id u.(up_clients)) w (set_up_config (map unlink u.(up_config)) u).

(** [client_close] of the worker, with its call of [uplink_close]. *)
Definition close_uplink (id : Z) (u : uplinks) : option uplinks :=
  let n := length u.(up_worker).(wk_uplinks) in
  w ← client_close id u.(up_worker);
  let u := set_up_clients u.(up_clients) w u in
  Some (fold_left (fun u i => uplink_close i u) (drop n w.(wk_uplinks)) u).

(** [close_uplinkers]: the sockets are shut down; the worker closes the clients. *)
Definition close_uplinkers (u : uplinks) : uplinks :=
  let fd id := match u.(up_worker).(wk_store) !! id with Some c => c.(wc_client).(c_fd) | None => -1 end in
  mk_uplinks u.(up_config) u.(up_clients) u.(up_worker) u.(up_next) u.(up_error_set) u.(up_status)
    (u.(up_shutdown) ++ List.filter (fun fd => fd >=? 0) (map fd u.(up_clients))).

(** ** Connecting *)

(** The loop over the addresses: [ap] tells which pointers are not NULL, and [connects] which
    addresses give a socket. *)
Fixpoint try_addrs (fuel : nat) (connects : nat -> option Z) (addrc : nat) (ap : list bool) (i : nat) : option (option Z) :=
  match fuel with
  | O => None
  | S fuel =>
      there ← ap !! i;
      if (there : bool) then
        match connects i with
        | Some fd => Some (Some fd)
        | None => try_addrs fuel connects addrc (<[i := false]> ap) (if decide (S i = addrc) then 0%nat else S i)
        end
      else Some None
  end.

(** What an attempt finds: whether the TLS context is set up; how many addresses the name
    has, or that it has none; a random number; the sockets; the memory for the client,
    if there is some; the addresses; and the results of [set_client_sockopt] and TLS. *)
Record attempt := mk_attempt {
  at_tls_setup : bool;
  at_addrs : option nat;
  at_random : Z;
  at_connects : nat -> option Z;
  at_client : worker -> option Z;
  at_peer : option sockaddr;
  at_addr_loc : list Z;
  at_sockopt : bool;
  at_tls : bool
}.

Definition uplink_proto (proto : list Z) : option Z :=
  if caseeq proto (str "tcp") then Some IPPROTO_TCP else if caseeq proto (str "udp") then Some IPPROTO_UDP else None.

Section Uplink.
Variable cfg : config.
Variable passcode version : list Z.
Variable socket : Z -> nat -> answer.
Variable tick : Z.
Variable fuel : nat.
Variable ibuf_size obuf_size : Z.

(** The client of an uplink. *)
Definition uplink_client (id fd proto : Z) (e : attempt) (l : uplink_config_t) : option wclient :=
  hex ← (match e.(at_peer) with Some sa => hexsockaddr sa | None => Some [] end);
  let name := take 15 l.(ul_name) in
  let c := client_alloc id tick ibuf_size obuf_size in
  let x := c.(wc_client) in
  let x := mk_client id fd CSTATE_INIT l.(ul_client_flags) x.(c_validated) name (zlen name) hex x.(c_quirks_mode) x.(c_no_tx)
             x.(c_loc_known) x.(c_heard) x.(c_courtesy) x.(c_heard_count) x.(c_courtesy_count) x.(c_lat) x.(c_lng) x.(c_cos_lat) in
  let o := c.(wc_conn) in
  let o := mk_conn o.(co_ibuf) o.(co_ibuf_end) o.(co_obuf) o.(co_obuf_start) o.(co_obuf_end) o.(co_obuf_flushsize) o.(co_obuf_writes)
             o.(co_obuf_wtime) tick o.(co_udp) o.(co_poll_out) o.(co_closed) o.(co_calls) o.(co_sent) o.(co_datagrams) in
  Some (mk_wclient x c.(wc_filters) o c.(wc_account) proto e.(at_addr_loc) None 0 c.(wc_connect_tick) tick c.(wc_cleanup)
          c.(wc_listener_id) (match e.(at_peer) with Some sa => sa | None => c.(wc_addr) end) [] []).

(** The client with its account, which is set when the worker has it already. *)
Definition with_port (p : Z) (c : wclient) : wclient :=
  mk_wclient c.(wc_client) c.(wc_filters) c.(wc_conn) (mk_client_account c.(wc_account).(ca_local) (Some p) c.(wc_account).(ca_udp))
    c.(wc_proto) c.(wc_addr_loc) c.(wc_udpclient) c.(wc_udp_port) c.(wc_connect_tick) c.(wc_keepalive) c.(wc_cleanup)
    c.(wc_listener_id) c.(wc_addr) c.(wc_app_name) c.(wc_app_version).

(** From the socket on. *)
Definition start_uplink (k : nat) (fd proto : Z) (e : attempt) (l : uplink_config_t) (u : uplinks) : option (uplinks * Z) :=
  match e.(at_client) u.(up_worker) with
  | None => Some (put_link k (set_ul_state UPLINK_ST_NOT_LINKED l) (set_up_clients u.(up_clients) (close_fd fd u.(up_worker)) u), -3)
  | Some id =>
      let l := set_ul_client (Some id) l in
      c ← uplink_client id fd proto e l;
      let w := add_client id c u.(up_worker) in
      if negb e.(at_sockopt) then
        w ← client_free id w;
        Some (put_link k (set_ul_state UPLINK_ST_NOT_LINKED l) (set_up_clients u.(up_clients) w u), -1)
      else if l.(ul_ssl) && negb e.(at_tls) then
        w ← client_free id w;
        Some (put_link k (set_ul_state UPLINK_ST_NOT_LINKED l) (set_up_clients (drop_client id (id :: u.(up_clients))) w u), -1)
      else
        let w := pass_client_to_worker id w in
        let w := on_uplinks (fun p => set_pa_use (p.(pa_counter) + 1) (p.(pa_gauge) + 1) p.(pa_gauge_max) (p.(pa_refcount) + 1) p) w in
        Some (put_link k (set_ul_state UPLINK_ST_CONNECTED l) (set_up_clients (id :: u.(up_clients)) (put id (with_port uplink_connects c) w) u), 0)
  end.

Definition make_uplink (k : nat) (e : attempt) (u : uplinks) : option (uplinks * Z) :=
  l ← u.(up_config) !! k;
  if negb (Bool.eqb (given l.(ul_certfile)) (given l.(ul_keyfile))) then Some (u, -2)
  else
    let tls := given l.(ul_keyfile) && given l.(ul_certfile) in
    if tls && negb l.(ul_ssl) && negb e.(at_tls_setup) then Some (u, -2)
    else
      let l := if tls then set_ul_ssl l else l in
      match uplink_proto l.(ul_proto) with
      | None => Some (put_link k l u, -2)
      | Some proto =>
          port ← atoi l.(ul_port);
          if (port <? 1) || (port >? 65535) then Some (put_link k l u, -2)
          else
            let l := set_ul_state UPLINK_ST_CONNECTING l in
            let lost := set_ul_state UPLINK_ST_NOT_LINKED l in
            let addrc := match e.(at_addrs) with Some n => Nat.min n 20 | None => 0%nat end in
            if decide (addrc = 0%nat) then Some (put_link k lost u, -2)
            else
              r ← try_addrs (S addrc) e.(at_connects) addrc (replicate addrc true ++ [false]) (Z.to_nat (e.(at_random) mod Z.of_nat addrc));
              match r with
              | None => Some (put_link k lost u, -3)
              | Some fd => start_uplink k fd proto e l u
              end
      end.

(** ** The thread *)

Definition is_multi (l : uplink_config_t) : bool := has l.(ul_client_flags) CLFLAGS_UPLINKMULTI.

(** The pass over all links, from the [k]-th on: connections of multiple links are made, the
    others are counted. *)
Fixpoint links_pass (n k : nat) (att : nat -> attempt) (u : uplinks) (has_uplink avail_uplink : Z) : option (uplinks * Z * Z) :=
  match n with
  | O => Some (u, has_uplink, avail_uplink)
  | S n =>
      l ← u.(up_config) !! k;
      if is_multi l then
        '(u, _) ← (if l.(ul_state) <? UPLINK_ST_CONNECTING then make_uplink k (att k) u else Some (u, 0));
        links_pass n (S k) att u has_uplink avail_uplink
      else links_pass n (S k) att u (if l.(ul_state) >=? UPLINK_ST_CONNECTING then has_uplink + 1 else has_uplink) (avail_uplink + 1)
  end.

(** The loop that looks for the next link. *)
Fixpoint pick_link (config : list uplink_config_t) (i next_uplink : Z) : nat :=
  match config with
  | [] => 0%nat
  | l :: config => if i <? next_uplink then S (pick_link config (if is_multi l then i else i + 1) next_uplink) else 0%nat
  end.

Definition status_no_uplink (missing : bool) (u : uplinks) : uplinks :=
  let set s t := mk_uplinks u.(up_config) u.(up_clients) u.(up_worker) u.(up_next) s (u.(up_status) ++ [t]) u.(up_shutdown) in
  if missing then set 1 3600 else if u.(up_error_set) =? 1 then set 0 (-1) else u.

(** A turn of the thread between two sleeps: [att] and [pick] are what the attempts find that are
    made for the multiple links and for the others. *)
Definition uplink_round (att pick : nat -> attempt) (u : uplinks) : option uplinks :=
  '(u, has_uplink, avail_uplink) ← links_pass (length u.(up_config)) 0 att u 0 0;
  let missing := negb (avail_uplink =? 0) && (has_uplink =? 0) in
  u ← (if missing then
         let next := u.(up_next) + 1 in
         let next := if next >=? avail_uplink then 0 else next in
         let u := set_up_next next u in
         let k := pick_link u.(up_config) 0 next in
         if (k <? length u.(up_config))%nat then '(u, _) ← make_uplink k (pick k) u; Some u else Some u
       else Some u);
  Some (status_no_uplink missing u).

(** A new configuration. *)
Definition uplink_reconfigure (config : list uplink_config_t) (u : uplinks) : uplinks := set_up_config config (close_uplinkers u).

(** [uplink_stop], when the thread has ended. *)
Definition uplink_stop (u : uplinks) : uplinks := set_up_config [] (set_up_clients [] u.(up_worker) u).

(** ** Logging in *)

(** The certificate of the server: not checked, or the result of the check. *)
Variable cert : option bool.

Definition login_text : option (list Z) :=
  let s := str "user " ++ cfg.(serverid) ++ str " pass " ++ passcode ++ str " vers " ++ version ++ [13; 10] in
  if zlen s + 1 <=? 1000 then Some s else None.

Definition set_wc_app (name version : list Z) (c : wclient) : wclient :=
  mk_wclient c.(wc_client) c.(wc_filters) c.(wc_conn) c.(wc_account) c.(wc_proto) c.(wc_addr_loc) c.(wc_udpclient) c.(wc_udp_port)
    c.(wc_connect_tick) c.(wc_keepalive) c.(wc_cleanup) c.(wc_listener_id) c.(wc_addr) name version.

(** The handler of the first line. *)
Definition uplink_login_handler (id : Z) (s : list Z) (u : uplinks) : option (uplinks * Z) :=
  let close := u ← close_uplink id u; Some (u, 0) in
  if bool_decide (cert = Some false) then close
  else match parse_args_noshell (cstr s) with
  | [] => close
  | a0 :: args =>
      if negb (bool_decide (rd a0 0 = Some ch_hash)) then close
      else
        c ← u.(up_worker).(wk_store) !! id;
        let c := match args with
                 | a1 :: a2 :: _ => set_wc_app (take 31 a1) (take 31 a2) c
                 | _ => c
                 end in
        text ← login_text;
        '(x, rc) ← tcp_client_write (socket id) tick fuel c.(wc_conn) text;
        let u := set_up_clients u.(up_clients) (put id (set_wc_conn x c) u.(up_worker)) u in
        if rc <? -2 then u ← (if is_closed x then close_uplink id u else Some u); Some (u, rc)
        else
          let c := set_wc_client (set_c_state CSTATE_LOGRESP c.(wc_client)) (set_wc_conn x c) in
          Some (set_up_clients u.(up_clients) (put id c u.(up_worker)) u, 0)
  end.

(** The name of the server in its answer, up to a comma. *)
Definition server_name (a : list Z) : list Z := cut 44 a.

(** The answer to the login: the name of the server when it is accepted. *)
Definition logresp_server (argv : list (list Z)) : option (list Z) :=
  match argv with
  | a0 :: a1 :: a2 :: a3 :: a4 :: a5 :: _ =>
      if negb (bool_decide (rd a0 0 = Some ch_hash)) then None
      else if negb (bool_decide (a1 = str "logresp")) then None
      else if negb (bool_decide (a2 = cfg.(serverid))) then None
      else if negb (bool_decide (a3 = str "verified,")) then None
      else if negb (bool_decide (a4 = str "server")) then None
      else
        let name := server_name a5 in
        if zlen name >? CALLSIGNLEN_MAX then None
        else if caseeq name cfg.(serverid) then None
        else Some name
  | _ => None
  end.

(** The client under the name of the server; the length of the name stays as it was. *)
Definition rename (name : list Z) (validated : Z) (state : CStateEnum) (x : client_t) : client_t :=
  mk_client x.(c_id) x.(c_fd) state x.(c_flags) validated name x.(c_username_len) x.(c_addr_hex) x.(c_quirks_mode) x.(c_no_tx)
    x.(c_loc_known) x.(c_heard) x.(c_courtesy) x.(c_heard_count) x.(c_courtesy_count) x.(c_lat) x.(c_lng) x.(c_cos_lat).

(** The handler of the second line. *)
Definition uplink_logresp_handler (id : Z) (s : list Z) (u : uplinks) : option (uplinks * Z) :=
  match logresp_server (parse_args_noshell (cstr s)) with
  | None => u ← close_uplink id u; Some (u, 0)
  | Some name =>
      c ← u.(up_worker).(wk_store) !! id;
      match cert with
      | Some false =>
          let w := put id (set_wc_client (rename name VALIDATED_WEAK c.(wc_client).(c_state) c.(wc_client)) c) u.(up_worker) in
          u ← close_uplink id (set_up_clients u.(up_clients) w u); Some (u, 0)
      | _ =>
          let v := match cert with Some true => VALIDATED_STRONG | _ => VALIDATED_WEAK end in
          w ← classify id (put id (set_wc_client (rename name v CSTATE_CONNECTED c.(wc_client)) c) u.(up_worker));
          Some (set_up_clients u.(up_clients) w u, 0)
      end
  end.
End Uplink.
