(* ===== verification/UplinkSpec.v ===== *)
(** * Uplinks come up and go away

    Which address of a server is used; that two servers log in to each other; that the links of
    the configuration and the clients of the worker agree; and in which order servers
    are tried, and when one never is. *)

From S2P Require Import Prelude Table Types Cfgfile Acl Passcode ParseQc Callsign ParseAprs Clientlist ClientHeard Messaging Incoming Filter FilterParse FilterSpec Outgoing Login LoginSpec.
From S2P Require Import Plist ClientIO Accounting Worker WorkerSpec Newclient Uplink.
From Stdlib Require Import ZArith Lia Bool String SpecFloat.
From stdpp Require Import base tactics list gmap numbers.
Open Scope Z_scope.

(** ** Addresses *)

(** The [m]-th address in the round that starts at [i]. *)
Definition spot (i n m : nat) : nat := if (i + m <? n)%nat then (i + m)%nat else (i + m - n)%nat.

Lemma try_addrs_from connects n i : (i < n)%nat -> forall r m fuel ap,
  (m + r = n)%nat -> (r < fuel)%nat -> length ap = S n ->
  (forall k, (k < n)%nat -> ap !! spot i n k = Some (negb (k <? m)%nat)) ->
  try_addrs fuel connects n ap (if decide (m = n) then i else spot i n m) = Some (head (omap (fun k => connects (spot i n k)) (seq m r))).
Proof.
  intros Hi r. induction r as [|r IH]; intros m fuel ap Hm Hf Hl Hap; (destruct fuel as [|fuel]; [lia|]); cbn [try_addrs seq omap list_omap].
  - destruct (decide (m = n)); [|lia]. assert (spot i n 0 = i) as E by (unfold spot; destruct (Nat.ltb_spec (i + 0) n); lia).
    rewrite <- E, Hap by lia. cbn [mbind option_bind]. by destruct (Nat.ltb_spec 0 m); [|lia].
  - destruct (decide (m = n)); [lia|]. rewrite Hap by lia. cbn [mbind option_bind]. destruct (Nat.ltb_spec m m); [lia|]. cbn [negb].
    destruct (connects (spot i n m)) as [fd|] eqn:Ec; [done|].
    assert ((if decide (S (spot i n m) = n) then 0%nat else S (spot i n m)) = (if decide (S m = n) then i else spot i n (S m))) as ->.
    { unfold spot. destruct (Nat.ltb_spec (i + m) n), (Nat.ltb_spec (i + S m) n); repeat (destruct (decide _)); lia. }
    apply IH; [lia|lia|by rewrite length_insert|]. intros k Hk. destruct (decide (k = m)) as [->|Hne].
    + rewrite list_lookup_insert_eq; [|unfold spot; destruct (Nat.ltb_spec (i + m) n); lia]. by destruct (Nat.ltb_spec m (S m)); [|lia].
    + rewrite list_lookup_insert_ne, Hap by first [lia | unfold spot; destruct (Nat.ltb_spec (i + k) n), (Nat.ltb_spec (i + m) n); lia].
      f_equal. f_equal. destruct (Nat.ltb_spec k m), (Nat.ltb_spec k (S m)); (done || lia).
Qed.

(** From the address that was picked, the addresses of a server are tried in a round, each
    at most once, up to the first that gives a socket; there is none exactly when
    no address does. *)
Theorem try_addrs_round connects n i :
  (i < n)%nat ->
  try_addrs (S n) connects n (replicate n true ++ [false]) i = Some (head (omap (fun k => connects (spot i n k)) (seq 0 n))).
Proof.
  intros Hi. rewrite <- (try_addrs_from connects n i Hi n 0 (S n) (replicate n true ++ [false])); [|lia|lia| |].
  - f_equal. destruct (decide (0%nat = n)); [lia|]. unfold spot. destruct (Nat.ltb_spec (i + 0) n); lia.
  - rewrite length_app, length_replicate. cbn. lia.
  - intros k Hk. cbn [negb Nat.ltb Nat.leb]. rewrite lookup_app_l by (rewrite length_replicate; unfold spot; destruct (Nat.ltb_spec (i + k) n); lia).
    apply lookup_replicate. split; [done|]. unfold spot. destruct (Nat.ltb_spec (i + k) n); lia.
Qed.

(** ** Two servers *)

Section Handshake.
Context {W : Type} `{ServerOps W}.

(** The answer of a server to the login of another is what that one accepts. *)
Lemma logresp_accepted mine theirs :
  word_ok (serverid mine) -> word_ok (serverid theirs) -> 44 ∉ serverid theirs -> zlen (serverid theirs) <= CALLSIGNLEN_MAX ->
  caseeq (serverid theirs) (serverid mine) = false ->
  forall v, logresp_server mine (parse_args_noshell (cstr (logresp_text theirs (serverid mine) v))) =
            if v =? 0 then None else Some (serverid theirs).
Proof.
  intros H1 H2 H3 H4 H5 v. set (word := if v =? 0 then str "unverified," else str "verified,").
  assert (logresp_text theirs (serverid mine) v =
          unwords [str "#"; str "logresp"; serverid mine; word; str "server"; serverid theirs]) as ->.
  { unfold logresp_text, validated_str, word. cbn [unwords]. destruct (v =? 0); cbn [app str]; by rewrite <- ?app_assoc. }
  rewrite parse_unwords; [|cbn; lia|].
  2:{ repeat (constructor; [done || (apply word_ok_b_ok; unfold word; by destruct (v =? 0))|]). constructor. }
  unfold logresp_server. cbn [rd]. rewrite !(bool_decide_eq_true_2 (rd _ _ = _)), !(bool_decide_eq_true_2 (str "logresp" = _)),
    !(bool_decide_eq_true_2 (serverid mine = _)), !(bool_decide_eq_true_2 (str "server" = _)) by done. cbn [negb].
  unfold word. destruct (v =? 0); [by rewrite bool_decide_eq_false_2|]. rewrite bool_decide_eq_true_2 by done. cbn [negb].
  assert (server_name (serverid theirs) = serverid theirs) as ->.
  { unfold server_name, cut. clear - H3. induction (serverid theirs) as [|c s IH]; [done|]. apply not_elem_of_cons in H3 as [Hc Hs]. cbn [split_at].
    destruct (Z.eqb_spec c 44); [congruence|]. specialize (IH Hs). destruct (split_at 44 s) as [a b]. cbn in *. by rewrite IH. }
  destruct (Z.gtb_spec (zlen (serverid theirs)) CALLSIGNLEN_MAX); [lia|]. by rewrite H5.
Qed.
End Handshake.

(** ** Links and clients *)

Definition is_uplink (c : wclient) : Prop := has c.(wc_client).(c_flags) CLFLAGS_UPLINKPORT = true /\ ~ is_peer c.

(** A usable link of the configuration. *)
Record link_ok (clients : list Z) (l : uplink_config_t) : Prop := {
  ln_flags : has l.(ul_client_flags) CLFLAGS_UPLINKPORT = true;
  ln_name : Forall (fun b => b <> 0) l.(ul_name);
  ln_port : is_Some (atoi l.(ul_port));
  ln_state : l.(ul_state) < UPLINK_ST_CONNECTING \/
             l.(ul_state) = UPLINK_ST_CONNECTED /\ exists id, l.(ul_client_ptr) = Some id /\ id ∈ clients
}.

(** The uplinks of the worker are those of the list, and a link that is connected has one. *)
Record links_ok (h : held) (cl : list Z) (cls : client_class -> list Z) (ss : list client_t) (u : uplinks) : Prop := {
  lk_worker : worker_ok h cl cls ss u.(up_worker);
  lk_account : 0 < h.(he_port) uplink_connects;
  lk_config : Forall (link_ok u.(up_clients)) u.(up_config);
  lk_nodup : NoDup u.(up_clients);
  lk_clients : forall id, id ∈ u.(up_clients) <-> exists c, u.(up_worker).(wk_store) !! id = Some c /\ is_uplink c;
  lk_fine : forall id c, u.(up_worker).(wk_store) !! id = Some c -> is_uplink c ->
    live c.(wc_conn) /\ c.(wc_conn).(co_udp) = false /\ is_Some (client_drops c.(wc_account).(ca_local)) /\ c.(wc_account).(ca_port) = Some uplink_connects /\
    c.(wc_udp_port) = 0;
  lk_nosession : forall id, id ∈ u.(up_clients) -> id ∉ map c_id ss
}.

Lemma accounts_ok h cl cls ss w a :
  worker_ok h cl cls ss w -> (forall p, acc_count a p = acc_count w.(wk_accounts) p) -> worker_ok h cl cls ss (set_wk_accounts a w).
Proof.
  intros [L R S] Ha. split; [by destruct L| |by destruct S]. destruct R as [R0 R1 R2 R3 R4 R5]. split; try done.
  intros p. change (counted (he_port h p) (tally (of_client w (port_refs p) 0) (cl ++ wk_new w)) (acc_count a p)). rewrite Ha. apply R1.
Qed.

Lemma on_uplinks_ok h cl cls ss w f :
  worker_ok h cl cls ss w -> (forall p, pa_refcount (f p) = pa_refcount p) -> worker_ok h cl cls ss (on_uplinks f w).
Proof.
  intros Hw Hf. unfold on_uplinks. destruct (ac_ports (wk_accounts w) !! uplink_connects) as [pa|] eqn:E; [|done].
  apply accounts_ok; [done|]. intros p. unfold acc_count. cbn. destruct (decide (p = uplink_connects)) as [->|Hne].
  - rewrite lookup_insert_eq, E. cbn. by rewrite Hf.
  - by rewrite lookup_insert_ne.
Qed.

Lemma on_uplinks_store f w : (on_uplinks f w).(wk_store) = w.(wk_store).
Proof. unfold on_uplinks. by destruct (_ !! uplink_connects). Qed.

Lemma in_drop_client id l : NoDup l -> forall i, i ∈ drop_client id l <-> i ∈ l /\ i <> id.
Proof.
  induction l as [|x l IH]; intros Hd i; cbn [drop_client]; [split; [by intros ?%elem_of_nil|by intros [?%elem_of_nil _]]|].
  apply list.NoDup_cons in Hd as [Hx Hd]. destruct (Z.eqb_spec x id) as [->|Hne].
  - split; [intros Hi; split; [by right|by intros ->]|]. intros [[->|Hi]%elem_of_cons Hn]; done.
  - rewrite elem_of_cons, IH, elem_of_cons by done. split; [intros [->|[? ?]]; auto|]. intros [[->|Hi] Hn]; auto.
Qed.

Lemma NoDup_drop_client id l : NoDup l -> NoDup (drop_client id l).
Proof.
  induction l as [|x l IH]; intros Hd; [done|]. apply list.NoDup_cons in Hd as [Hx Hd]. cbn [drop_client]. destruct (x =? id); [done|].
  apply list.NoDup_cons. split; [|by apply IH]. intros [Hi _]%in_drop_client; done.
Qed.

(** The uplinks are told, and the other links are as they were. *)
Lemma close_uplink_spec h cl cls ss u id c :
  links_ok h cl cls ss u -> id ∈ cl -> u.(up_worker).(wk_store) !! id = Some c -> is_uplink c ->
  exists u', close_uplink id u = Some u' /\ links_ok h (rm id cl) (without id cls) (gone id ss) u' /\
    u'.(up_clients) = drop_client id u.(up_clients) /\ u'.(up_worker).(wk_store) = delete id u.(up_worker).(wk_store) /\
    u'.(up_next) = u.(up_next).
Proof.
  intros [K1 K0 K2 K3 K4 K5 K6] Hin Hc Hu. pose proof (K5 id c Hc Hu) as (F1 & _ & F2 & F3 & _). unfold close_uplink.
  destruct (client_close_spec h cl cls ss (up_worker u) id c K1 Hin Hc F2) as (w' & -> & H1 & H2 & H3 & H4 & H5). cbn [mbind option_bind].
  destruct (so_names _ _ (wo_sessions _ _ _ _ _ K1) id c Hc) as [_ Hid].
  assert (lost_uplink (wc_client c) = [id]) as El.
  { unfold lost_uplink. destruct Hu as [-> Hp]. rewrite bool_decide_eq_false_2 by done. cbn. by rewrite Hid. }
  rewrite H5, El, drop_app_length. cbn [fold_left]. eexists. split; [done|]. unfold uplink_close.
  assert (wk_store (on_uplinks (fun p => set_pa_use (pa_counter p) (pa_gauge p - 1) (pa_gauge_max p) (pa_refcount p) p) w') = delete id (wk_store (up_worker u)))
    as Est by (by rewrite on_uplinks_store).
  cbn [up_clients up_worker up_next set_up_clients set_up_config up_config]. split; [|done].
  split; cbn [up_clients up_worker up_next set_up_clients set_up_config up_config].
  - by apply on_uplinks_ok.
  - done.
  - apply list.Forall_fmap, list.Forall_forall. intros l Hl. unfold compose. rewrite list.Forall_forall in K2. destruct (K2 l Hl) as [N1 N2 N3 N4].
    case_bool_decide as Hp; (split; try done); [by left|]. destruct N4 as [?|[Hs (i & Ei & Hi)]]; [by left|right]. split; [done|]. exists i.
    split; [done|]. apply in_drop_client; [done|]. split; [done|]. intros ->. done.
  - by apply NoDup_drop_client.
  - intros i. rewrite in_drop_client, K4, Est by done. split.
    + intros [(x & Hx & Hu') Hne]. exists x. by rewrite lookup_delete_ne.
    + intros (x & [Hne Hx]%lookup_delete_Some & Hu'). split; [by exists x|done].
  - intros i x. rewrite Est. intros [_ Hx]%lookup_delete_Some. by apply (K5 i).
  - intros i [Hi _]%in_drop_client Hs; [|done]. apply (K6 i Hi). eapply elem_of_sublist; [exact Hs|]. apply fmap_sublist, unlink_sublist.
Qed.

(** ** Making a link *)

(** What can be relied on in an attempt: memory that is not in use, and addresses of the
    families that there are. *)
Record sane (ss : list client_t) (e : attempt) : Prop := {
  sn_fresh : forall w id, e.(at_client) w = Some id -> w.(wk_store) !! id = None /\ id ∉ map c_id ss;
  sn_peer : forall sa, e.(at_peer) = Some sa -> is_Some (hexsockaddr sa)
}.

Section Make.
Variable tick isize osize : Z.

Lemma uplink_client_spec id fd proto e l :
  (forall sa, e.(at_peer) = Some sa -> is_Some (hexsockaddr sa)) -> Forall (fun b => b <> 0) l.(ul_name) ->
  exists c, uplink_client tick isize osize id fd proto e l = Some c /\ session_ok c.(wc_client) /\ c.(wc_client).(c_id) = id /\
    c.(wc_client).(c_flags) = l.(ul_client_flags) /\ c.(wc_client).(c_state) = CSTATE_INIT /\ (live c.(wc_conn) /\ c.(wc_conn).(co_udp) = false) /\
    c.(wc_account) = mk_client_account (account_zero 0) None None /\ c.(wc_udpclient) = None /\ c.(wc_udp_port) = 0 /\
    filter_count c.(wc_filters) = 0.
Proof.
  intros Hp Hn. unfold uplink_client.
  assert (exists hex, match at_peer e with Some sa => hexsockaddr sa | None => Some [] end = Some hex) as [hex ->].
  { destruct (at_peer e) as [sa|]; [|by eexists]. apply (Hp sa eq_refl). }
  cbn [mbind option_bind]. eexists. split; [done|]. cbn. split; [|repeat (split; [done|])].
  - split; [|split; [done|]]; cbn.
    + unfold zlen. rewrite length_take. lia.
    + by apply Forall_take.
  - split; [|done]. split; [|done]. split; [|done]. split; [done|]. cbn. unfold obuf_size. cbn. apply zlen_nonneg.
Qed.

(** What a call of [make_uplink] leaves: the link is connected, or nothing was made. *)
Definition made (k : nat) (u u' : uplinks) (rc : Z) : Prop :=
  length u'.(up_config) = length u.(up_config) /\ u'.(up_next) = u.(up_next) /\
  (forall j, j <> k -> u'.(up_config) !! j = u.(up_config) !! j) /\
  (forall l, u.(up_config) !! k = Some l -> exists l', u'.(up_config) !! k = Some l' /\ l'.(ul_client_flags) = l.(ul_client_flags) /\
     (rc = 0 -> l'.(ul_state) = UPLINK_ST_CONNECTED)).

Lemma made_put k l l0 u u0 rc :
  u0.(up_config) !! k = Some l0 -> u.(up_config) = u0.(up_config) -> u.(up_next) = u0.(up_next) ->
  l.(ul_client_flags) = l0.(ul_client_flags) -> (rc = 0 -> l.(ul_state) = UPLINK_ST_CONNECTED) -> made k u0 (put_link k l u) rc.
Proof.
  intros Hk E1 E2 Hf Hs. unfold put_link, made. cbn. rewrite E1, length_insert. split; [done|]. split; [done|]. split.
  - intros j Hj. by rewrite list_lookup_insert_ne.
  - intros l1 H1. rewrite Hk in H1. injection H1 as <-. exists l. split; [|done]. apply list_lookup_insert_eq. by eapply lookup_lt_Some.
Qed.

Lemma put_link_ok h cl cls ss u k l :
  links_ok h cl cls ss u -> link_ok u.(up_clients) l -> links_ok h cl cls ss (put_link k l u).
Proof. intros [K1 K0 K2 K3 K4 K5 K6] Hl. split; try done. cbn. by apply list.Forall_insert. Qed.

Lemma link_ok_weaken clients clients' l : (forall i, i ∈ clients -> i ∈ clients') -> link_ok clients l -> link_ok clients' l.
Proof. intros Hi [N1 N2 N3 N4]. split; try done. destruct N4 as [?|[? (id & ? & ?)]]; [by left|right]. split; [done|]. exists id. auto. Qed.

(** A link that was not made: the worker is the same but for a descriptor or a structure
    that was used in between. *)
Lemma links_ok_worker h cl cls ss u w :
  links_ok h cl cls ss u -> worker_ok h cl cls ss w -> w.(wk_store) = u.(up_worker).(wk_store) ->
  links_ok h cl cls ss (set_up_clients u.(up_clients) w u).
Proof.
  intros [K1 K0 K2 K3 K4 K5 K6] Hw Hs. split; try done; cbn.
  - intros id. by rewrite K4, Hs.
  - intros id c. rewrite Hs. apply K5.
Qed.

Lemma connected_worker h cl cls ss w id c :
  worker_ok h cl cls ss w -> 0 < h.(he_port) uplink_connects -> w.(wk_store) !! id = None -> id ∉ map c_id ss ->
  session_ok c.(wc_client) -> c.(wc_client).(c_id) = id -> c.(wc_account) = mk_client_account (account_zero 0) None None ->
  c.(wc_udpclient) = None -> c.(wc_udp_port) = 0 -> filter_count c.(wc_filters) = 0 ->
  let inc p := set_pa_use (p.(pa_counter) + 1) (p.(pa_gauge) + 1) p.(pa_gauge_max) (p.(pa_refcount) + 1) p in
  let w' := put id (with_port uplink_connects c) (on_uplinks inc (pass_client_to_worker id (add_client id c w))) in
  worker_ok h cl cls ss w' /\ w'.(wk_store) = <[id := with_port uplink_connects c]> w.(wk_store).
Proof.
  intros Hw Hh Hid Hss Hs Hi Ha Hu Hup Hf inc w'.
  pose proof (ro_port _ _ _ (wo_refs _ _ _ _ _ Hw) uplink_connects) as Hc.
  destruct (ac_ports (wk_accounts w) !! uplink_connects) as [pa|] eqn:E; [|cbn in Hc; lia].
  assert (w' = pass_client_to_worker id (add_client id (with_port uplink_connects c) (on_uplinks inc w))) as Ew.
  { unfold w', on_uplinks. cbn. rewrite E. unfold put, set_wk_store. cbn. by rewrite insert_insert_eq. }
  split; [|rewrite Ew; cbn; by rewrite on_uplinks_store]. rewrite Ew. apply (enqueue_ok h cl cls ss w); try done.
  assert (wk_udp (on_uplinks inc w) = wk_udp w /\ wk_gauge (on_uplinks inc w) = wk_gauge w) as [E1 E2] by (unfold on_uplinks; by rewrite E).
  split; rewrite ?E1, ?E2; cbn [wc_udpclient wc_udp_port wc_account wc_filters with_port]; try done.
  - intros p. assert (port_refs p (with_port uplink_connects c) = if decide (p = uplink_connects) then 1 else 0) as ->.
    { unfold port_refs. cbn [wc_account wc_udp_port with_port ca_port ca_udp]. rewrite Hup. cbn [Z.eqb negb andb]. rewrite Z.add_0_r.
      destruct (decide (p = uplink_connects)) as [->|]; [by rewrite bool_decide_eq_true_2|]. rewrite bool_decide_eq_false_2; congruence. }
    pose proof (ro_port _ _ _ (wo_refs _ _ _ _ _ Hw) p) as Hp. unfold acc_count, on_uplinks. rewrite E. cbn [wk_accounts set_wk_accounts ac_ports set_ac_ports].
    destruct (decide (p = uplink_connects)) as [->|Hne].
    + rewrite lookup_insert_eq. rewrite E in Hp. unfold inc. cbn [fmap option_fmap option_map counted pa_refcount set_pa_use] in *. lia.
    + rewrite lookup_insert_ne by done. exact Hp.
  - intros v. unfold udp_refs. cbn [wc_udpclient with_port]. rewrite Hu, bool_decide_eq_false_2 by done. apply (ro_udp _ _ _ (wo_refs _ _ _ _ _ Hw)).
  - intros v s Hv. by exists s.
  - by rewrite Hu.
  - rewrite Hf. lia.
  - unfold on_uplinks. by rewrite E.
Qed.

Lemma start_uplink_spec h cl cls ss u k fd proto e l l0 :
  links_ok h cl cls ss u -> u.(up_config) !! k = Some l0 -> sane ss e -> l.(ul_client_flags) = l0.(ul_client_flags) ->
  has l.(ul_client_flags) CLFLAGS_UPLINKPORT = true -> Forall (fun b => b <> 0) l.(ul_name) -> is_Some (atoi l.(ul_port)) ->
  exists u' rc, start_uplink tick isize osize k fd proto e l u = Some (u', rc) /\ links_ok h cl cls ss u' /\ made k u u' rc /\
    (is_Some (e.(at_client) u.(up_worker)) -> e.(at_sockopt) = true -> e.(at_tls) = true -> rc = 0).
Proof.
  intros Hok Hk [Sf Sp] Hfl Hup Hn Hp. pose proof (lk_worker _ _ _ _ _ Hok) as Hw. unfold start_uplink.
  assert (forall st, st = UPLINK_ST_NOT_LINKED -> forall p, link_ok (up_clients u) (set_ul_state st (set_ul_client p l))) as Hlk.
  { intros st -> p. split; try done. by left. }
  destruct (at_client e (up_worker u)) as [id|] eqn:Ec.
  2:{ eexists _, _. split; [done|]. split; [|split; [by eapply made_put|by intros []]]. apply put_link_ok.
      - apply links_ok_worker; [done| |done]. by destruct Hw as [[] [] []].
      - split; try done. by left. }
  destruct (uplink_client_spec id fd proto e (set_ul_client (Some id) l) Sp Hn) as (c & -> & C1 & C2 & C3 & C4 & C5 & C6 & C7 & C8 & C9).
  cbn [mbind option_bind]. destruct (Sf (up_worker u) id Ec) as [Sf1 Sf2]. clear Sf. rename Sf1 into Sf.
  destruct (free_new h cl cls ss (up_worker u) (up_worker u) id c Hw) as (w1 & E1 & W1 & W2 & W3 & W4 & W5); [|done|done|done|].
  { split; try done.
    - apply (ro_port _ _ _ (wo_refs _ _ _ _ _ Hw)).
    - intros v. unfold udp_refs. rewrite C7, bool_decide_eq_false_2 by done. apply (ro_udp _ _ _ (wo_refs _ _ _ _ _ Hw)).
    - intros v s Hv. by exists s.
    - intros v Hv. congruence.
    - rewrite C9. lia. }
  rewrite E1. cbn [mbind option_bind]. destruct (at_sockopt e); cbn [negb].
  2:{ eexists _, _. split; [done|]. split; [|split; [by eapply made_put|done]]. apply put_link_ok; [by apply links_ok_worker|by apply Hlk]. }
  cbn [ul_ssl set_ul_client drop_client]. rewrite Z.eqb_refl. destruct (ul_ssl l && negb (at_tls e)) eqn:Et.
  { eexists _, _. split; [done|]. split; [|split; [by eapply made_put|]].
    - apply put_link_ok; [by apply links_ok_worker|by apply Hlk].
    - intros _ _ Ht. rewrite Ht in Et. by destruct (ul_ssl l). }
  eexists _, _. split; [done|]. destruct (connected_worker h cl cls ss (up_worker u) id c Hw (lk_account _ _ _ _ _ Hok) Sf Sf2 C1 C2 C6 C7 C8 C9) as [G1 G2].
  split; [|split; [by eapply made_put|done]].
  set (w2 := put id _ _) in *. destruct Hok as [K1 K0 K2 K3 K4 K5 K6].
  assert (id ∉ up_clients u) as Hout by (intros (x & Hx & _)%K4; congruence).
  split; cbn [up_clients up_worker up_config set_up_clients put_link set_up_config]; try done.
  - apply list.Forall_insert; [|].
    + eapply list.Forall_impl; [exact K2|]. intros x. apply link_ok_weaken. intros i Hi. by right.
    + split; try done. right. split; [done|]. exists id. split; [done|left].
  - by apply list.NoDup_cons.
  - intros i. rewrite elem_of_cons, K4, G2. split.
    + intros [->|(x & Hx & Hxu)]; [eexists; rewrite lookup_insert_eq; split; [done|]|].
      * split; [cbn; by rewrite C3|]. unfold is_peer. cbn. by rewrite C4.
      * exists x. rewrite lookup_insert_ne; [done|]. intros ->. congruence.
    + intros (x & [[<- <-]|[Hne Hx]]%lookup_insert_Some & Hxu); [by left|right; by exists x].
  - intros i x. rewrite G2. intros [[<- <-]|[Hne Hx]]%lookup_insert_Some Hxu; [|by apply (K5 i)]. cbn. rewrite C6. destruct C5 as [C5 C5']. split; [done|].
    split; [done|]. split; [by vm_compute; eexists|]. split; [done|exact C8].
  - intros i [->|Hi]%elem_of_cons; [done|by apply K6].
Qed.

(** The link of an attempt that succeeds. *)
Record answers (e : attempt) (l : uplink_config_t) : Prop := {
  an_cert : given l.(ul_certfile) = given l.(ul_keyfile) /\ e.(at_tls_setup) = true /\ e.(at_tls) = true;
  an_proto : is_Some (uplink_proto l.(ul_proto));
  an_port : exists p, atoi l.(ul_port) = Some p /\ 1 <= p <= 65535;
  an_addr : exists n i fd, e.(at_addrs) = Some n /\ (i < Nat.min n 20)%nat /\ e.(at_connects) i = Some fd;
  an_client : (forall w, is_Some (e.(at_client) w)) /\ e.(at_sockopt) = true
}.

Lemma head_omap_some {A B} (f : A -> option B) l x y : x ∈ l -> f x = Some y -> is_Some (head (omap f l)).
Proof.
  induction l as [|z l IH]; [by intros ?%elem_of_nil|]. cbn [omap list_omap]. intros [->|Hx]%elem_of_cons Hf; [rewrite Hf; by eexists|].
  destruct (f z); [by eexists|by apply IH].
Qed.

Lemma make_uplink_spec h cl cls ss u k e l0 :
  links_ok h cl cls ss u -> u.(up_config) !! k = Some l0 -> sane ss e ->
  exists u' rc, make_uplink tick isize osize k e u = Some (u', rc) /\ links_ok h cl cls ss u' /\ made k u u' rc /\ (answers e l0 -> rc = 0).
Proof.
  intros Hok Hk Hs. unfold make_uplink. rewrite Hk. cbn [mbind option_bind].
  assert (link_ok (up_clients u) l0) as [N1 N2 N3 N4] by (pose proof (lk_config _ _ _ _ _ Hok) as Hc; rewrite list.Forall_forall in Hc; apply Hc; by eapply list_elem_of_lookup_2).
  assert (forall rc, rc <> 0 -> made k u u rc) as Hsame.
  { intros rc Hrc. split; [done|]. split; [done|]. split; [done|]. intros l Hl. exists l. split; [done|]. split; [done|]. by intros ->. }
  destruct (Bool.eqb_spec (given (ul_certfile l0)) (given (ul_keyfile l0))) as [Ecert|Ecert]; cbn [negb].
  2:{ exists u, (-2). split; [done|]. split; [done|]. split; [by apply Hsame|]. by intros [[? _] _ _ _ _]. }
  destruct (given (ul_keyfile l0) && given (ul_certfile l0) && negb (ul_ssl l0) && negb (at_tls_setup e)) eqn:Etls.
  { exists u, (-2). split; [done|]. split; [done|]. split; [by apply Hsame|]. intros [(_ & Hx & _) _ _ _ _]. rewrite Hx in Etls. by rewrite andb_false_r in Etls. }
  set (l := if given (ul_keyfile l0) && given (ul_certfile l0) then set_ul_ssl l0 else l0).
  assert (ul_client_flags l = ul_client_flags l0 /\ ul_name l = ul_name l0 /\ ul_port l = ul_port l0 /\ ul_proto l = ul_proto l0 /\
          ul_state l = ul_state l0 /\ ul_client_ptr l = ul_client_ptr l0) as (E1 & E2 & E3 & E4 & E5 & E6)
    by (unfold l; destruct (given (ul_keyfile l0) && given (ul_certfile l0)); repeat split; reflexivity).
  assert (forall rc, rc <> 0 -> links_ok h cl cls ss (put_link k l u) /\ made k u (put_link k l u) rc) as Hput.
  { intros rc Hrc. split; [|by apply (made_put k _ l0); [..|intros ?; destruct Hrc]]. apply put_link_ok; [done|]. split; rewrite ?E1, ?E2, ?E3, ?E5, ?E6; done. }
  assert (forall rc, rc <> 0 -> links_ok h cl cls ss (put_link k (set_ul_state UPLINK_ST_NOT_LINKED (set_ul_state UPLINK_ST_CONNECTING l)) u) /\
            made k u (put_link k (set_ul_state UPLINK_ST_NOT_LINKED (set_ul_state UPLINK_ST_CONNECTING l)) u) rc) as Hlost.
  { intros rc Hrc. split; [|by apply (made_put k _ l0); [..|intros ?; destruct Hrc]]. apply put_link_ok; [done|]. split; cbn; rewrite ?E1, ?E2, ?E3; try done. by left. }
  rewrite E4. destruct (uplink_proto (ul_proto l0)) as [proto|] eqn:Epr.
  2:{ destruct (Hput (-2)) as [H1 H2]; [done|]. eexists _, _. split; [done|]. split; [done|]. split; [done|]. intros [_ [? ?] _ _ _]. congruence. }
  rewrite E3. destruct N3 as [port Eport]. rewrite Eport. cbn [mbind option_bind].
  destruct ((port <? 1) || (port >? 65535)) eqn:Erange.
  { destruct (Hput (-2)) as [H1 H2]; [done|]. eexists _, _. split; [done|]. split; [done|]. split; [done|]. intros [_ _ (p & Hp & Hr) _ _].
    rewrite Eport in Hp. injection Hp as <-. lia. }
  set (addrc := match at_addrs e with Some n => Nat.min n 20 | None => 0%nat end).
  destruct (decide (addrc = 0%nat)) as [E0|E0].
  { destruct (Hlost (-2)) as [H1 H2]; [done|]. eexists _, _. split; [done|]. split; [done|]. split; [done|]. intros [_ _ _ (n & i & fd & Ha & Hi & _) _].
    unfold addrc in E0. rewrite Ha in E0. lia. }
  set (i0 := Z.to_nat (at_random e mod Z.of_nat addrc)).
  assert (i0 < addrc)%nat as Hi0 by (unfold i0; pose proof (Z.mod_pos_bound (at_random e) (Z.of_nat addrc)); lia).
  pose proof (try_addrs_from (at_connects e) addrc i0 Hi0 addrc 0 (S addrc) (replicate addrc true ++ [false])) as Et.
  assert (spot i0 addrc 0 = i0) as Es by (unfold spot; destruct (Nat.ltb_spec (i0 + 0) addrc); lia). rewrite Es in Et.
  assert (match decide (0%nat = addrc) with left _ => i0 | right _ => i0 end = i0) as Ei by by destruct (decide _). rewrite Ei in Et.
  rewrite Et; [|lia|lia|rewrite length_app, length_replicate; cbn; lia|].
  2:{ intros j Hj. cbn [negb Nat.ltb Nat.leb]. rewrite lookup_app_l by (rewrite length_replicate; unfold spot; destruct (Nat.ltb_spec (i0 + j) addrc); lia).
      apply lookup_replicate. split; [done|]. unfold spot. destruct (Nat.ltb_spec (i0 + j) addrc); lia. }
  cbn [mbind option_bind]. destruct (head _) as [fd|] eqn:Efd.
  - destruct (start_uplink_spec h cl cls ss u k fd proto e (set_ul_state UPLINK_ST_CONNECTING l) l0) as (u' & rc & E & H1 & H2 & H3); cbn;
      rewrite ?E1, ?E2, ?E3; try done. exists u', rc. split; [done|]. split; [done|]. split; [done|].
    intros [(_ & _ & A1) _ _ _ [A2 A3]]. by apply H3.
  - destruct (Hlost (-3)) as [H1 H2]; [done|]. eexists _, _. split; [done|]. split; [done|]. split; [done|].
    intros [_ _ _ (n & i & fd & Ha & Hi & Hc) _]. exfalso.
    assert (addrc = Nat.min n 20) as En by (unfold addrc; by rewrite Ha). rewrite <- En in Hi.
    assert (exists m, (m < addrc)%nat /\ spot i0 addrc m = i) as (m & Hm & Hsp).
    { destruct (decide (i0 <= i)%nat); [exists (i - i0)%nat|exists (i + addrc - i0)%nat]; (split; [lia|]); unfold spot;
        match goal with |- context [(?a <? ?b)%nat] => destruct (Nat.ltb_spec a b); lia end. }
    destruct (head_omap_some (fun k => at_connects e (spot i0 addrc k)) (seq 0 addrc) m fd) as [y Hy]; [apply elem_of_seq; lia|by rewrite Hsp|]. congruence.
Qed.
(** ** Rounds *)

Definition is_up (l : uplink_config_t) : bool := l.(ul_state) >=? UPLINK_ST_CONNECTING.
Definition regular (l : uplink_config_t) : bool := negb (is_multi l).
Definition count (p : uplink_config_t -> bool) (l : list uplink_config_t) : Z := zlen (List.filter p l).

(** The links of another configuration that are not multiple are the same, and the others have the
    same flags. *)
Record same_links (c c' : list uplink_config_t) : Prop := {
  sl_length : length c' = length c;
  sl_regular : forall j l, c !! j = Some l -> regular l = true -> c' !! j = Some l;
  sl_flags : forall j l l', c !! j = Some l -> c' !! j = Some l' -> l'.(ul_client_flags) = l.(ul_client_flags)
}.

Lemma same_links_refl c : same_links c c.
Proof. split; [done|done|]. intros j l l' H1 H2. congruence. Qed.

Lemma same_links_trans c1 c2 c3 : same_links c1 c2 -> same_links c2 c3 -> same_links c1 c3.
Proof.
  intros [A1 A2 A3] [B1 B2 B3]. split; [congruence|auto|]. intros j l l3 H1 H3. assert (is_Some (c2 !! j)) as [l2 H2].
  { apply lookup_lt_is_Some. rewrite A1. by eapply lookup_lt_Some. }
  rewrite (B3 j l2 l3 H2 H3). by eapply A3.
Qed.

Lemma made_same k u u' rc l : made k u u' rc -> u.(up_config) !! k = Some l -> is_multi l = true -> same_links u.(up_config) u'.(up_config).
Proof.
  intros (M1 & M2 & M3 & M4) Hl Hm. split; [done| |].
  - intros j x Hx Hr. destruct (decide (j = k)) as [->|Hne]; [|by rewrite M3]. rewrite Hl in Hx. injection Hx as <-. unfold regular in Hr. by rewrite Hm in Hr.
  - intros j x x' Hx Hx'. destruct (decide (j = k)) as [->|Hne]; [|rewrite M3 in Hx' by done; congruence].
    destruct (M4 x Hx) as (y & Hy & Hf & _). congruence.
Qed.

Lemma count_cons p l c : count p (l :: c) = (if p l then 1 else 0) + count p c.
Proof. unfold count. cbn. destruct (p l); [apply zlen_cons|done]. Qed.

Lemma links_pass_spec h cl cls ss att : (forall k, sane ss (att k)) -> forall n k u hs av,
  links_ok h cl cls ss u -> (k + n = length u.(up_config))%nat ->
  exists u', links_pass tick isize osize n k att u hs av =
      Some (u', hs + count (fun l => regular l && is_up l) (drop k u.(up_config)), av + count regular (drop k u.(up_config))) /\
    links_ok h cl cls ss u' /\ same_links u.(up_config) u'.(up_config) /\ u'.(up_next) = u.(up_next).
Proof.
  intros Hs n. induction n as [|n IH]; intros k u hs av Hok Hn; cbn [links_pass].
  - rewrite drop_ge by lia. exists u. split; [change (count _ []) with 0; by rewrite !Z.add_0_r|]. split; [done|]. split; [apply same_links_refl|done].
  - destruct (lookup_lt_is_Some_2 (up_config u) k) as [l Hl]; [lia|]. rewrite Hl. cbn [mbind option_bind]. erewrite drop_S by exact Hl.
    rewrite !count_cons. cbn beta. assert (regular l = negb (is_multi l)) as -> by done. destruct (is_multi l) eqn:Em; cbn [negb andb].
    + assert (exists u1 rc, (if ul_state l <? UPLINK_ST_CONNECTING then make_uplink tick isize osize k (att k) u else Some (u, 0)) = Some (u1, rc) /\
                links_ok h cl cls ss u1 /\ same_links (up_config u) (up_config u1) /\ up_next u1 = up_next u /\
                drop (S k) (up_config u1) = drop (S k) (up_config u)) as (u1 & rc & -> & H1 & H2 & H3 & H4).
      { destruct (_ <? _); [|exists u, 0; repeat (split; [done|]); split; [apply same_links_refl|done]].
        destruct (make_uplink_spec h cl cls ss u k (att k) l Hok Hl (Hs k)) as (u1 & rc & E & H1 & H2 & _). exists u1, rc. split; [done|]. split; [done|].
        split; [by eapply made_same|]. destruct H2 as (M1 & M2 & M3 & M4). split; [done|]. apply list_eq. intros j. rewrite !lookup_drop. apply M3. lia. }
      cbn [mbind option_bind]. destruct (IH (S k) u1 hs av H1) as (u' & E & G1 & G2 & G3); [rewrite (sl_length _ _ H2); lia|].
      exists u'. rewrite E, H4, !Z.add_0_l. split; [done|]. split; [done|]. split; [by eapply same_links_trans|congruence].
    + destruct (IH (S k) u (if ul_state l >=? UPLINK_ST_CONNECTING then hs + 1 else hs) (av + 1) Hok) as (u' & E & G1 & G2 & G3); [lia|].
      exists u'. rewrite E. split; [|done]. assert (is_up l = (ul_state l >=? UPLINK_ST_CONNECTING)) as -> by done. destruct (ul_state l >=? UPLINK_ST_CONNECTING); rewrite ?Z.add_0_l, ?Z.add_assoc; reflexivity.
Qed.

(** What a round does: with an uplink there, or none to be had, only multiple links are
    made; otherwise the next link in turn is tried. *)
Definition next_link (u : uplinks) (avail : Z) : Z := if u.(up_next) + 1 >=? avail then 0 else u.(up_next) + 1.

Lemma status_fields m u :
  (status_no_uplink m u).(up_config) = u.(up_config) /\ (status_no_uplink m u).(up_next) = u.(up_next) /\
  (status_no_uplink m u).(up_worker) = u.(up_worker) /\ (status_no_uplink m u).(up_clients) = u.(up_clients).
Proof. unfold status_no_uplink. destruct m; [done|]. by destruct (_ =? 1). Qed.

Lemma status_ok h cl cls ss m u : links_ok h cl cls ss u -> links_ok h cl cls ss (status_no_uplink m u).
Proof.
  intros [K1 K0 K2 K3 K4 K5 K6]. destruct (status_fields m u) as (E1 & E2 & E3 & E4). split; rewrite ?E1, ?E3, ?E4; done.
Qed.

Lemma uplink_round_spec h cl cls ss att pick u :
  (forall k, sane ss (att k)) -> (forall k, sane ss (pick k)) -> links_ok h cl cls ss u ->
  let avail := count regular u.(up_config) in
  let missing := negb (avail =? 0) && (count (fun l => regular l && is_up l) u.(up_config) =? 0) in
  exists u', uplink_round tick isize osize att pick u = Some u' /\ links_ok h cl cls ss u' /\
    if missing then
      exists u1, same_links u.(up_config) u1.(up_config) /\ u'.(up_next) = next_link u avail /\
        let k := pick_link u1.(up_config) 0 (next_link u avail) in
        if (k <? length u1.(up_config))%nat then
          exists rc, made k u1 u' (rc : Z) /\ forall l, u1.(up_config) !! k = Some l -> answers (pick k) l -> rc = 0
        else u'.(up_config) = u1.(up_config)
    else same_links u.(up_config) u'.(up_config) /\ u'.(up_next) = u.(up_next).
Proof.
  intros Ha Hp Hok avail missing. unfold uplink_round.
  destruct (links_pass_spec h cl cls ss att Ha (length (up_config u)) 0 u 0 0 Hok) as (u1 & -> & H1 & H2 & H3); [lia|].
  rewrite drop_0, !Z.add_0_l. cbn [mbind option_bind]. fold avail. fold missing. destruct missing.
  - rewrite H3. fold (next_link u avail).
    change (if up_next u + 1 >=? avail then 0 else up_next u + 1) with (next_link u avail).
    set (k := pick_link _ 0 (next_link u avail)). change (up_config (set_up_next (next_link u avail) u1)) with (up_config u1) in *.
    assert (links_ok h cl cls ss (set_up_next (next_link u avail) u1)) as Hok1 by by destruct H1.
    destruct (Nat.ltb_spec k (length (up_config u1))) as [Hk|Hk].
    + destruct (lookup_lt_is_Some_2 (up_config u1) k Hk) as [l Hl].
      destruct (make_uplink_spec h cl cls ss _ k (pick k) l Hok1 Hl (Hp k)) as (u2 & rc & -> & G1 & G2 & G3). cbn [mbind option_bind].
      eexists. split; [done|]. split; [by apply status_ok|]. exists (set_up_next (next_link u avail) u1).
      destruct (status_fields true u2) as (S1 & S2 & _). change (up_config (set_up_next (next_link u avail) u1)) with (up_config u1).
      fold k. destruct (Nat.ltb_spec k (length (up_config u1))); [|lia]. destruct G2 as (M1 & M2 & M3 & M4).
      split; [done|]. split; [by rewrite S2, M2|]. exists rc. split; [|intros x Hx; rewrite Hl in Hx; by injection Hx as <-].
      split; rewrite ?S1, ?S2; done.
    + cbn [mbind option_bind]. eexists. split; [done|]. split; [by apply status_ok|]. exists u1. split; [done|]. destruct (status_fields true (set_up_next (next_link u avail) u1)) as (S1 & S2 & _).
      split; [by rewrite S2|]. fold k. destruct (Nat.ltb_spec k (length (up_config u1))); [lia|]. by rewrite S1.
  - cbn [mbind option_bind]. eexists. split; [done|]. split; [by apply status_ok|]. destruct (status_fields false u1) as (S1 & S2 & _).
    by rewrite S1, S2.
Qed.
(** The turns of the thread, with what each of them finds. *)
Fixpoint rounds (envs : list ((nat -> attempt) * (nat -> attempt))) (u : uplinks) : option uplinks :=
  match envs with [] => Some u | (att, pick) :: envs => u ← uplink_round tick isize osize att pick u; rounds envs u end.

Definition sane_env (ss : list client_t) (env : (nat -> attempt) * (nat -> attempt)) : Prop := (forall k, sane ss (env.1 k)) /\ forall k, sane ss (env.2 k).

(** The first [n] links of the configuration are the regular ones. *)
Definition regulars_first (n : nat) (c : list uplink_config_t) : Prop :=
  (forall j, (j < n)%nat -> exists l, c !! j = Some l /\ regular l = true) /\
  (forall j l, (n <= j)%nat -> c !! j = Some l -> regular l = false).

Lemma count_first n c : regulars_first n c -> count regular c = Z.of_nat n.
Proof.
  revert n. induction c as [|l c IH]; intros n [H1 H2].
  - destruct n; [done|]. destruct (H1 0%nat) as (l & Hl & _); [lia|done].
  - rewrite count_cons. destruct n as [|n].
    + rewrite (H2 0%nat l) by (done || lia). rewrite (IH 0%nat); [done|]. split; [lia|]. intros j x _ Hx. apply (H2 (S j)); [lia|done].
    + destruct (H1 0%nat) as (x & [= <-] & ->); [lia|]. rewrite (IH n); [lia|]. split.
      * intros j Hj. apply (H1 (S j)). lia.
      * intros j x Hj Hx. apply (H2 (S j)); [lia|done].
Qed.

Lemma pick_link_first n c next : regulars_first n c -> forall i, i <= next < i + Z.of_nat n -> pick_link c i next = Z.to_nat (next - i).
Proof.
  revert n. induction c as [|l c IH]; intros n [H1 H2] i Hi.
  - destruct (H1 0%nat) as (l & Hl & _); [lia|done].
  - cbn [pick_link]. destruct (Z.ltb_spec i next); [|by replace (Z.to_nat (next - i)) with 0%nat by lia].
    destruct (H1 0%nat) as (x & [= <-] & Hr); [lia|]. unfold regular in Hr. destruct (is_multi l); [done|].
    destruct n as [|n]; [lia|]. rewrite (IH n); [lia| |lia]. split.
    + intros j Hj. apply (H1 (S j)). lia.
    + intros j x Hj Hx. apply (H2 (S j)); [lia|done].
Qed.

Lemma regular_flags l l' : l'.(ul_client_flags) = l.(ul_client_flags) -> regular l' = regular l.
Proof. unfold regular, is_multi. by intros ->. Qed.

Lemma same_flags_first n c c' :
  length c' = length c -> (forall j l l', c !! j = Some l -> c' !! j = Some l' -> l'.(ul_client_flags) = l.(ul_client_flags)) ->
  regulars_first n c -> regulars_first n c'.
Proof.
  intros Hlen Hf [H1 H2]. split.
  - intros j Hj. destruct (H1 j Hj) as (l & Hl & Hr). destruct (lookup_lt_is_Some_2 c' j) as [l' Hl']; [rewrite Hlen; by eapply lookup_lt_Some|].
    exists l'. split; [done|]. rewrite (regular_flags l); [done|]. by eapply Hf.
  - intros j l' Hj Hl'. destruct (lookup_lt_is_Some_2 c j) as [l Hl]; [rewrite <- Hlen; by eapply lookup_lt_Some|].
    rewrite (regular_flags l); [by eapply H2|]. by eapply Hf.
Qed.

Lemma made_flags k u u' rc j l l' :
  made k u u' rc -> u.(up_config) !! j = Some l -> u'.(up_config) !! j = Some l' -> l'.(ul_client_flags) = l.(ul_client_flags).
Proof.
  intros (M1 & M2 & M3 & M4) Hl Hl'. destruct (decide (j = k)) as [->|Hne]; [|rewrite M3 in Hl' by done; congruence].
  destruct (M4 l Hl) as (x & Hx & Hf & _). congruence.
Qed.

(** An uplink: a regular link that is connected. *)
Definition has_uplink (u : uplinks) : Prop := exists j l, u.(up_config) !! j = Some l /\ regular l = true /\ l.(ul_state) = UPLINK_ST_CONNECTED.

Lemma no_uplink_count h cl cls ss u :
  links_ok h cl cls ss u -> has_uplink u \/ count (fun l => regular l && is_up l) u.(up_config) = 0.
Proof.
  intros Hok. pose proof (lk_config _ _ _ _ _ Hok) as Hc. unfold count. destruct (List.filter _ _) as [|l c] eqn:E; [by right|left].
  assert (In l (List.filter (fun l => regular l && is_up l) (up_config u))) as Hin by (rewrite E; by left).
  apply filter_In in Hin as [Hin Hl]. apply andb_prop in Hl as [Hr Hup]. apply list_elem_of_In in Hin. rewrite list.Forall_forall in Hc.
  destruct (Hc l Hin) as [_ _ _ Hst]. apply list_elem_of_lookup in Hin as [j Hj]. exists j, l. split; [done|]. split; [done|].
  destruct Hst as [Hs|[Hs _]]; [|done]. unfold is_up in Hup. lia.
Qed.

(** The [d]-th turn from now is the turn of link [j]. *)
Definition turn (n next d j : Z) : Prop := -1 <= next < n /\ 1 <= d <= n /\ (next + d = j \/ next + d = j + n) /\ 0 <= j < n.

Lemma rounds_found h cl cls ss n (j : nat) l envs : forall u d,
  Forall (sane_env ss) envs -> Forall (fun env => answers (env.2 j) l) envs -> links_ok h cl cls ss u -> regulars_first n u.(up_config) ->
  u.(up_config) !! j = Some l -> turn (Z.of_nat n) u.(up_next) (Z.of_nat d) (Z.of_nat j) -> (d <= length envs)%nat ->
  exists r u', (r <= d)%nat /\ rounds (take r envs) u = Some u' /\ links_ok h cl cls ss u' /\ has_uplink u'.
Proof.
  induction envs as [|[att pick] envs IH]; intros u d Hs Ha Hok Hf Hj (T1 & T2 & T3 & T4) Hd; [cbn in Hd; lia|].
  apply list.Forall_cons_1 in Hs as [[Hs1 Hs2] Hs]. apply list.Forall_cons_1 in Ha as [Ha1 Ha]. cbn [fst snd] in *.
  destruct (no_uplink_count h cl cls ss u Hok) as [Hup|Hno]; [by exists 0%nat, u; split; [lia|]|].
  pose proof (uplink_round_spec h cl cls ss att pick u Hs1 Hs2 Hok) as (u' & E & Hok' & Hr). rewrite Hno, (count_first n _ Hf) in Hr.
  destruct (Z.eqb_spec (Z.of_nat n) 0); [lia|]. cbn [negb andb Z.eqb] in Hr. destruct Hr as (u1 & S1 & Hn' & Hr).
  set (nl := next_link u (Z.of_nat n)) in *.
  assert (0 <= nl < Z.of_nat n) as Hnl by (unfold nl, next_link; destruct (Z.geb_spec (up_next u + 1) (Z.of_nat n)); lia).
  assert (regulars_first n (up_config u1)) as Hf1 by (eapply same_flags_first; [apply (sl_length _ _ S1)| |done]; apply (sl_flags _ _ S1)).
  rewrite (pick_link_first n _ nl Hf1 0) in Hr by lia. rewrite Z.sub_0_r in Hr.
  destruct (proj1 Hf1 (Z.to_nat nl)) as (lk & Hlk & Hreg); [lia|].
  assert (Z.to_nat nl < length (up_config u1))%nat as Hlt by by eapply lookup_lt_Some.
  destruct (Nat.ltb_spec (Z.to_nat nl) (length (up_config u1))); [|lia]. destruct Hr as (rc & Hm & Hans).
  destruct (decide (rc = 0)) as [Hrc|Hrc].
  { exists 1%nat, u'. split; [lia|]. cbn [take rounds]. rewrite E. split; [done|]. split; [done|]. pose proof Hm as (M1 & M2 & M3 & M4).
    destruct (M4 lk Hlk) as (l' & Hl' & Hfl & Hst). exists (Z.to_nat nl), l'. split; [done|]. split; [|by apply Hst].
    by rewrite (regular_flags lk). }
  assert (up_config u1 !! j = Some l) as Hj1.
  { apply (sl_regular _ _ S1); [done|]. destruct (proj1 Hf j) as (x & Hx & Hxr); [lia|]. congruence. }
  assert (Z.of_nat j <> nl) as Hjn.
  { intros Ej. apply Hrc. rewrite <- Ej, Nat2Z.id in Hans. by apply (Hans l). }
  destruct (IH u' (d - 1)%nat Hs Ha Hok') as (r & u2 & R1 & R2 & R3 & R4).
  - eapply same_flags_first; [|intros i x x'; by eapply made_flags|done]. by destruct Hm.
  - destruct Hm as (_ & _ & M3 & _). rewrite M3; [done|]. lia.
  - rewrite Hn'. unfold turn. unfold nl, next_link in *. destruct (Z.geb_spec (up_next u + 1) (Z.of_nat n)); lia.
  - cbn in Hd. lia.
  - exists (S r), u2. split; [lia|]. cbn [take rounds]. rewrite E. cbn [mbind option_bind]. done.
Qed.

Lemma links_found h cl cls ss n (j : nat) l envs u :
  links_ok h cl cls ss u -> regulars_first n u.(up_config) -> (j < n)%nat -> u.(up_config) !! j = Some l -> -1 <= u.(up_next) < Z.of_nat n ->
  length envs = n -> Forall (sane_env ss) envs -> Forall (fun env => answers (env.2 j) l) envs ->
  exists r u', (r <= n)%nat /\ rounds (take r envs) u = Some u' /\ links_ok h cl cls ss u' /\ has_uplink u'.
Proof.
  intros Hok Hf Hjn Hj Hnext Hlen Hs Ha.
  assert (exists d, (d <= n)%nat /\ turn (Z.of_nat n) (up_next u) (Z.of_nat d) (Z.of_nat j)) as (d & Hd & Ht).
  { destruct (decide (up_next u < Z.of_nat j)).
    - exists (Z.to_nat (Z.of_nat j - up_next u)). unfold turn. lia.
    - exists (Z.to_nat (Z.of_nat j + Z.of_nat n - up_next u)). unfold turn. lia. }
  destruct (rounds_found h cl cls ss n j l envs u d Hs Ha Hok Hf Hj Ht) as (r & u' & H1 & H2); [lia|]. exists r, u'. split; [lia|done].
Qed.

(** When the regular links come first in the configuration, they are tried in turn until one
    is connected: if there are [n] of them and one of them can be reached, there is an
    uplink after [n] rounds at most, whatever the other servers and the multiple links do.
    The links and the clients of the worker agree all the time. *)
Theorem uplink_found h cl cls ss n (j : nat) l envs u :
  links_ok h cl cls ss u -> regulars_first n u.(up_config) -> (j < n)%nat -> u.(up_config) !! j = Some l -> -1 <= u.(up_next) < Z.of_nat n ->
  length envs = n -> Forall (sane_env ss) envs -> Forall (fun env => answers (env.2 j) l) envs ->
  exists r u', (r <= n)%nat /\ rounds (take r envs) u = Some u' /\ links_ok h cl cls ss u' /\ has_uplink u'.
Proof. apply links_found. Qed.

Lemma pick_zero c : pick_link c 0 0 = 0%nat.
Proof. by destruct c. Qed.

Lemma count_flags c : forall c', length c' = length c ->
  (forall j l l', c !! j = Some l -> c' !! j = Some l' -> l'.(ul_client_flags) = l.(ul_client_flags)) -> count regular c' = count regular c.
Proof.
  induction c as [|l c IH]; intros [|l' c'] Hlen Hf; try done. rewrite !count_cons, (IH c'), (regular_flags l l'); [done| | |].
  - by apply (Hf 0%nat).
  - by injection Hlen.
  - intros j. apply (Hf (S j)).
Qed.

(** A multiple link in front and one regular link: the regular one is never tried, however
    often the thread goes round and whatever the network does. *)
Theorem multi_starves h cl cls ss m (j : nat) r envs : forall u,
  links_ok h cl cls ss u -> u.(up_config) !! 0%nat = Some m -> is_multi m = true -> u.(up_config) !! j = Some r -> regular r = true ->
  count regular u.(up_config) = 1 -> -1 <= u.(up_next) -> Forall (sane_env ss) envs ->
  exists u', rounds envs u = Some u' /\ links_ok h cl cls ss u' /\ u'.(up_config) !! j = Some r.
Proof.
  revert m. induction envs as [|[att pick] envs IH]; intros m u Hok H0 Hm Hj Hr Hc Hn Hs; [by exists u|].
  apply list.Forall_cons_1 in Hs as [[Hs1 Hs2] Hs]. cbn [fst snd] in *.
  destruct (uplink_round_spec h cl cls ss att pick u Hs1 Hs2 Hok) as (u1 & E & Hok1 & Hround). rewrite Hc in Hround. cbn [rounds]. rewrite E. cbn [mbind option_bind].
  assert (same_links (up_config u) (up_config u1) /\ -1 <= up_next u1 \/
          exists v, same_links (up_config u) (up_config v) /\ -1 <= up_next u1 /\
            if (pick_link (up_config v) 0 0 <? length (up_config v))%nat then exists rc, made (pick_link (up_config v) 0 0) v u1 rc
            else up_config u1 = up_config v) as Hcase.
  { cbv zeta in Hround. match type of Hround with (if ?b then _ else _) => destruct b end; [right|left; by destruct Hround as [? ->]].
    destruct Hround as (v & V1 & V2 & V3). assert (next_link u 1 = 0) as En by (unfold next_link; destruct (Z.geb_spec (up_next u + 1) 1); lia).
    rewrite En in V2, V3. exists v. split; [done|]. split; [lia|]. destruct (_ <? _)%nat; [|done]. destruct V3 as (rc & V3 & _). by exists rc. }
  assert (length (up_config u1) = length (up_config u) /\ -1 <= up_next u1 /\ up_config u1 !! j = Some r /\
          (forall i l l', up_config u !! i = Some l -> up_config u1 !! i = Some l' -> ul_client_flags l' = ul_client_flags l)) as (G1 & G2 & G3 & G4).
  { destruct Hcase as [[[S1 S2 S3] Hnx]|(v & [S1 S2 S3] & Hnx & Hv)]; [split; [done|]; split; [done|]; split; [by apply S2|done]|].
    rewrite pick_zero in Hv. destruct (_ <? _)%nat; [|rewrite Hv; split; [done|]; split; [done|]; split; [by apply S2|done]].
    destruct Hv as (rc & Hv). pose proof Hv as (M1 & M2 & M3 & M4). split; [congruence|]. split; [done|]. split.
    - rewrite M3; [by apply S2|]. intros ->. rewrite H0 in Hj. injection Hj as ->. unfold regular in Hr. by rewrite Hm in Hr.
    - intros i l l' Hl Hl'. destruct (lookup_lt_is_Some_2 (up_config v) i) as [x Hx]; [rewrite S1; by eapply lookup_lt_Some|].
      rewrite (made_flags 0 v u1 rc i x l' Hv Hx Hl'). by eapply S3. }
  destruct (lookup_lt_is_Some_2 (up_config u1) 0) as [m1 Hm1]; [rewrite G1; by eapply lookup_lt_Some|].
  apply (IH m1 u1); try done.
  - unfold is_multi in *. by rewrite (G4 0%nat m m1).
  - by rewrite (count_flags (up_config u)).
Qed.
End Make.

(** ** The two lines of a server *)

Section Lines.
Variable cfg : config.
Variable passcode version : list Z.
Variable socket : Z -> nat -> answer.
Variable tick : Z.
Variable interrupts : nat.
Hypothesis sockets_live : forall id k, exists j, (j <= interrupts)%nat /\ socket id (k + j)%nat <> Fails EINTR.

(** The link is closed, and the rest of the worker is as it was. *)
Definition link_closed (h : held) (cl : list Z) (cls : client_class -> list Z) (ss : list client_t) (id : Z) (u u' : uplinks) : Prop :=
  links_ok h (rm id cl) (without id cls) (gone id ss) u' /\ u'.(up_worker).(wk_store) = delete id u.(up_worker).(wk_store) /\
  id ∉ u'.(up_clients).

Lemma close_link h cl cls ss u id c :
  links_ok h cl cls ss u -> id ∈ cl -> u.(up_worker).(wk_store) !! id = Some c -> is_uplink c ->
  exists u', close_uplink id u = Some u' /\ link_closed h cl cls ss id u u'.
Proof.
  intros Hok Hin Hc Hu. destruct (close_uplink_spec h cl cls ss u id c Hok Hin Hc Hu) as (u' & E & H1 & H2 & H3 & _). exists u'. split; [done|].
  split; [done|]. split; [done|]. rewrite H2. intros [_ Hn]%in_drop_client; [done|]. apply (lk_nodup _ _ _ _ _ Hok).
Qed.

(** The connection does not matter for closing. *)
Lemma close_uplink_put u id c c' :
  u.(up_worker).(wk_store) !! id = Some c -> c'.(wc_client) = c.(wc_client) -> c'.(wc_filters) = c.(wc_filters) ->
  c'.(wc_account) = c.(wc_account) -> (c'.(wc_udpclient), c'.(wc_udp_port)) = (c.(wc_udpclient), c.(wc_udp_port)) ->
  close_uplink id (set_up_clients u.(up_clients) (put id c' u.(up_worker)) u) = close_uplink id u.
Proof.
  intros Hc E1 E2 E3 E4. injection E4 as E4 E5. unfold close_uplink. cbn [up_worker set_up_clients].
  assert (client_close id (put id c' (up_worker u)) = client_close id (up_worker u)) as ->; [|done].
  unfold client_close. rewrite put_lookup, Hc. cbn [mbind option_bind]. rewrite E1, E3.
  change (wk_list (put id c' (up_worker u))) with (wk_list (up_worker u)). change (wk_class (put id c' (up_worker u))) with (wk_class (up_worker u)).
  destruct (client_drops _); [|done]. destruct (unlink_node id _) as [l1|]; [|done]. destruct (unlink_class id _) as [l2|]; [|done].
  cbn [mbind option_bind]. assert (drop_accounts c' (put id c' (up_worker u)) = drop_accounts c (up_worker u)) as ->.
  { unfold drop_accounts. by rewrite E3, E4, E5. }
  destruct (drop_accounts c _) as [a|]; [|done]. cbn [mbind option_bind]. unfold client_free. cbn [wk_store]. rewrite put_lookup, Hc. cbn [mbind option_bind].
  rewrite E1, E2, E4. unfold client_udp_free. cbn [wk_udp]. destruct (wc_udpclient c) as [v|]; cbn.
  - destruct (wk_udp (up_worker u) !! v); [|done]. cbn. by rewrite delete_insert_eq.
  - by rewrite delete_insert_eq.
Qed.

(** A client of an uplink that is changed in place. *)
Lemma put_uplink_ok h cl cls ss u id c c' :
  links_ok h cl cls ss u -> u.(up_worker).(wk_store) !! id = Some c -> is_uplink c -> is_uplink c' ->
  worker_ok h cl cls ss (put id c' u.(up_worker)) ->
  live c'.(wc_conn) -> c'.(wc_conn).(co_udp) = false -> c'.(wc_account) = c.(wc_account) -> c'.(wc_udp_port) = c.(wc_udp_port) ->
  links_ok h cl cls ss (set_up_clients u.(up_clients) (put id c' u.(up_worker)) u).
Proof.
  intros [K1 K0 K2 K3 K4 K5 K6] Hc Hu Hu' Hw H1 H2 H3 H4. split; try done; cbn.
  - intros i. rewrite K4. split.
    + intros (x & Hx & Hxu). destruct (decide (id = i)) as [->|Hne]; [exists c'; by rewrite lookup_insert_eq|exists x; by rewrite lookup_insert_ne].
    + intros (x & [[<- <-]|[Hne Hx]]%lookup_insert_Some & Hxu); [by exists c|by exists x].
  - intros i x [[<- <-]|[Hne Hx]]%lookup_insert_Some Hxu; [|by apply (K5 i)]. rewrite H3, H4. destruct (K5 id c Hc Hu) as (_ & _ & ? & ? & ?). done.
Qed.

Lemma login_handler_spec h cl cls ss u id c cert s text :
  links_ok h cl cls ss u -> id ∈ cl -> u.(up_worker).(wk_store) !! id = Some c -> is_uplink c -> c.(wc_client).(c_state) = CSTATE_INIT ->
  login_text cfg passcode version = Some text ->
  exists u' rc, uplink_login_handler cfg passcode version socket tick (interrupts + 1) cert id s u = Some (u', rc) /\
    (link_closed h cl cls ss id u u' \/
     links_ok h cl cls ss u' /\ exists c', u'.(up_worker).(wk_store) = <[id := c']> u.(up_worker).(wk_store) /\ is_uplink c' /\
       c'.(wc_client).(c_state) = CSTATE_LOGRESP /\
       (rc = 0 /\ (c'.(wc_conn).(co_sent) ++ pending c'.(wc_conn) = (c.(wc_conn).(co_sent) ++ pending c.(wc_conn)) ++ text))).
Proof.
  intros Hok Hin Hc Hu Hst Ht. unfold uplink_login_handler. destruct (close_link h cl cls ss u id c Hok Hin Hc Hu) as (uc & Ecl & Hcl).
  rewrite Ecl. cbn [mbind option_bind].
  case_bool_decide; [exists uc, 0; auto|]. destruct (parse_args_noshell (cstr s)) as [|a0 args]; [exists uc, 0; auto|].
  destruct (bool_decide (rd a0 0 = Some ch_hash)); cbn [negb]; [|exists uc, 0; auto]. rewrite Hc. cbn [mbind option_bind].
  set (c1 := match args with a1 :: a2 :: _ => set_wc_app (take 31 a1) (take 31 a2) c | _ => c end).
  assert (wc_conn c1 = wc_conn c /\ wc_client c1 = wc_client c /\ wc_account c1 = wc_account c /\ wc_filters c1 = wc_filters c /\
          (wc_udpclient c1, wc_udp_port c1) = (wc_udpclient c, wc_udp_port c)) as (Q1 & Q2 & Q3 & Q4 & Q5)
    by (unfold c1; destruct args as [|? [|? ?]]; repeat split; reflexivity).
  clearbody c1. rewrite Ht. cbn [mbind option_bind]. rewrite Q1. destruct (lk_fine _ _ _ _ _ Hok id c Hc Hu) as ((F1 & F2) & F3 & F4 & F5 & F6).
  destruct (tcp_write_spec (socket id) tick interrupts (sockets_live id) (wc_conn c) (co_sent (wc_conn c) ++ pending (wc_conn c)) text F2) as
    (x & rc & -> & Hs & _ & Hr); [split; [done|]; split; [done|]; by rewrite F2|]. cbn [mbind option_bind].
  pose proof (lk_worker _ _ _ _ _ Hok) as Hw. destruct Hs as (X1 & X2 & X3). destruct (is_closed x) eqn:Ex.
  - destruct (Z.ltb_spec rc (-2)); [|lia].
    rewrite close_uplink_put with (c := c), Ecl by (done || cbn; congruence). cbn [mbind option_bind]. exists uc, rc. auto.
  - destruct (Z.ltb_spec rc (-2)); [pose proof (zlen_nonneg text); lia|]. eexists _, 0. split; [done|]. right.
    change (up_worker (set_up_clients (up_clients u) (put id (set_wc_conn x c1) (up_worker u)) u)) with (put id (set_wc_conn x c1) (up_worker u)).
    rewrite put_put. set (c2 := set_wc_client _ _). assert (is_uplink c2) as Hu2.
    { destruct Hu as [Hu _]. split; [cbn; by rewrite Q2|]. by unfold is_peer. }
    assert (co_closed x = None) as Hxo by (unfold is_closed in Ex; by destruct (co_closed x)).
    split; [|exists c2; split; [done|]; split; [done|]; split; [done|]; split; [done|by rewrite Hxo in X3]].
    change (set_up_clients _ (put id c2 _) (set_up_clients _ _ u)) with (set_up_clients (up_clients u) (put id c2 (up_worker u)) u).
    eapply put_uplink_ok; [done|done|done|done| |done|done|done|by injection Q5]. destruct Hw as [L R S]. split.
    + eapply put_lists_ok; [done|done| |].
      * unfold client_class_of. cbn. rewrite Q2, Hst. done.
      * unfold online. cbn. rewrite Hst. split; by intros [?|?].
    + eapply put_refs_ok; [done|done|done|cbn; congruence|done].
    + eapply put_sessions_ok; [done|done|cbn; by rewrite Q2|]. right. apply (lk_nosession _ _ _ _ _ Hok). apply (lk_clients _ _ _ _ _ Hok). by exists c.
Qed.
Lemma uplink_class x : has x.(c_flags) CLFLAGS_UPLINKPORT = true -> exists k, client_class_of x = Some k /\ (k = ClassRo \/ k = ClassUps).
Proof. intros Hx. unfold client_class_of. rewrite Hx, orb_true_r. destruct (has _ CLFLAGS_PORT_RO); eauto. Qed.

Lemma logresp_handler_spec h cl cls ss u id c cert s :
  links_ok h cl cls ss u -> id ∈ cl -> u.(up_worker).(wk_store) !! id = Some c -> is_uplink c -> ~ online c ->
  exists u', uplink_logresp_handler cfg cert id s u = Some (u', 0) /\
    match logresp_server cfg (parse_args_noshell (cstr s)), cert with
    | Some name, Some true | Some name, None =>
        exists k c', links_ok h cl (upd k (id :: cls k) cls) ss u' /\ u'.(up_worker).(wk_store) = <[id := c']> u.(up_worker).(wk_store) /\
          client_class_of c'.(wc_client) = Some k /\ c'.(wc_client).(c_state) = CSTATE_CONNECTED /\ c'.(wc_client).(c_username) = name /\
          c'.(wc_client).(c_validated) = match cert with Some _ => VALIDATED_STRONG | None => VALIDATED_WEAK end /\ wc_conn c' = wc_conn c
    | _, _ => link_closed h cl cls ss id u u'
    end.
Proof.
  intros Hok Hin Hc Hu Hoff. unfold uplink_logresp_handler. destruct (logresp_server _ _) as [name|].
  2:{ destruct (close_link h cl cls ss u id c Hok Hin Hc Hu) as (uc & -> & Hcl). by exists uc. }
  rewrite Hc. cbn [mbind option_bind]. pose proof (lk_worker _ _ _ _ _ Hok) as Hw.
  assert (id ∉ map c_id ss) as Hns by (apply (lk_nosession _ _ _ _ _ Hok), (lk_clients _ _ _ _ _ Hok); by exists c).
  destruct (lk_fine _ _ _ _ _ Hok id c Hc Hu) as (F1 & F3 & F4 & F5 & F6).
  assert (cert = Some false \/ exists v, v = match cert with Some _ => VALIDATED_STRONG | None => VALIDATED_WEAK end /\ cert <> Some false) as [->|(v & Hv & Hcert)]
    by (destruct cert as [[]|]; eauto).
  - set (c1 := set_wc_client _ c). assert (is_uplink c1) as Hu1 by done.
    assert (links_ok h cl cls ss (set_up_clients (up_clients u) (put id c1 (up_worker u)) u)) as Hok1.
    { eapply put_uplink_ok; try done. destruct Hw as [L R S]. split.
      - by eapply put_lists_ok.
      - by eapply put_refs_ok.
      - eapply put_sessions_ok; [done|done|done|]. by right. }
    destruct (close_link h cl cls ss _ id c1 Hok1 Hin (put_lookup _ _ _) Hu1) as (uc & -> & H1 & H2 & H3). exists uc. split; [done|].
    split; [done|]. split; [|done]. rewrite H2. cbn. by rewrite delete_insert_eq.
  - set (c1 := set_wc_client (rename name v CSTATE_CONNECTED (wc_client c)) c).
    destruct (uplink_class (wc_client c1)) as (k & Hk & _); [apply Hu|].
    destruct (go_online_spec h cl cls ss (up_worker u) id c c1 k Hw Hin Hc Hoff) as (w' & E & H1 & H2 & H3 & H4); try done; [by left|by right|].
    assert (links_ok h cl (upd k (id :: cls k) cls) ss (set_up_clients (up_clients u) w' u)) as Hok1.
    { destruct Hok as [K1 K0 K2 K3 K4 K5 K6]. split; try done; cbn; rewrite H2.
      - intros i. rewrite K4. split.
        + intros (x & Hx & Hxu). destruct (decide (id = i)) as [->|Hne]; [exists c1; rewrite lookup_insert_eq; by destruct Hu|exists x; by rewrite lookup_insert_ne].
        + intros (x & [[<- <-]|[Hne Hx]]%lookup_insert_Some & Hxu); [by exists c|by exists x].
      - intros i x [[<- <-]|[Hne Hx]]%lookup_insert_Some Hxu; [done|by apply (K5 i)]. }
    destruct cert as [[]|]; [..|done|]; try done; subst v; fold c1; rewrite E; cbn [mbind option_bind]; eexists; (split; [done|]); by exists k, c1.
Qed.
End Lines.

(** ** Two servers *)

Section Servers.
Context {W : Type} `{ServerOps W}.

(** A server that connects to another one gets in, when its passcode is right: the line it sends logs
    it in there as a verified client under its name, and the line that is sent back
    makes its side of the link an upstream client under the name of the other server.  So the two
    ends of the protocol, [login_handler] and the handlers of uplinks, fit. *)
Theorem uplink_handshake mine theirs code app ver quirks_mode fnmatch globs cosf mem (l0 : login_t W) h cl cls ss u id c :
  Forall word_ok [serverid mine; serverid theirs; code; app; ver] -> zlen (serverid mine) <= CALLSIGNLEN_MAX ->
  zlen (serverid theirs) <= CALLSIGNLEN_MAX -> 44 ∉ serverid theirs -> caseeq (serverid theirs) (serverid mine) = false ->
  atoi code = Some (aprs_passcode (serverid mine)) -> caseeq ver (str "filter") = false -> zlen code + zlen app + zlen ver <= 900 ->
  refused_username theirs fnmatch globs (serverid mine) = None ->
  links_ok h cl cls ss u -> id ∈ cl -> u.(up_worker).(wk_store) !! id = Some c -> is_uplink c -> ~ online c ->
  exists line l u' k c',
    login_text mine code (app ++ [ch_sp] ++ ver) = Some (line ++ [13; 10]) /\
    login_line theirs quirks_mode fnmatch globs cosf mem NoCert line l0 =
      Some (let '(l, rc) := say (logresp_text theirs (serverid mine) VALIDATED_WEAK) l in if rc <? -2 then Gone l rc else LoggedIn l) /\
    l.(lg_client).(c_username) = serverid mine /\ l.(lg_client).(c_validated) = VALIDATED_WEAK /\
    uplink_logresp_handler mine None id (logresp_text theirs (serverid mine) VALIDATED_WEAK) u = Some (u', 0) /\
    links_ok h cl (upd k (id :: cls k) cls) ss u' /\ u'.(up_worker).(wk_store) = <[id := c']> u.(up_worker).(wk_store) /\
    client_class_of c'.(wc_client) = Some k /\ c'.(wc_client).(c_state) = CSTATE_CONNECTED /\ c'.(wc_client).(c_username) = serverid theirs.
Proof.
  intros Hws H1 H2 H3 H4 H5 H6 H7 H8 Hok Hin Hc Hu Hoff.
  repeat match goal with H : Forall word_ok (_ :: _) |- _ => apply list.Forall_cons_1 in H as [? H] end.
  destruct (login_line_pass theirs quirks_mode fnmatch globs cosf mem (serverid mine) code app ver (aprs_passcode (serverid mine)) l0)
    as (l & E & E1 & E2 & E3); try done; [by repeat (constructor; [done|])|]. rewrite Z.eqb_refl in E, E3.
  destruct (logresp_handler_spec mine h cl cls ss u id c None (logresp_text theirs (serverid mine) VALIDATED_WEAK) Hok Hin Hc Hu Hoff)
    as (u' & Eu & Hr). rewrite (logresp_accepted mine theirs) in Hr by done. destruct Hr as (k & c' & R1 & R2 & R3 & R4 & R5 & _).
  exists (unwords [str "user"; serverid mine; str "pass"; code; str "vers"; app; ver]), l, u', k, c'. split; [|done].
  unfold login_text. cbn [unwords].
  match goal with |- (if ?b then _ else _) = _ => assert (b = true) as -> end.
  { rewrite !zlen_app. change (zlen (str "user ")) with 5. change (zlen (str " pass ")) with 6. change (zlen (str " vers ")) with 6.
    change (zlen [ch_sp]) with 1. change (zlen [13; 10]) with 2. unfold CALLSIGNLEN_MAX in *. lia. }
  f_equal. rewrite <- !app_assoc. reflexivity.
Qed.
End Servers.

(** ** The gauge *)

Lemma close_accounts id w w' c : client_close id w = Some w' -> w.(wk_store) !! id = Some c -> drop_accounts c w = Some w'.(wk_accounts).
Proof.
  unfold client_close. intros E Hc. rewrite Hc in E. cbn [mbind option_bind] in E. inv_bind E. inv_bind E. inv_bind E. inv_bind E.
  unfold client_free in E. cbn [wk_store] in E. rewrite Hc in E. cbn [mbind option_bind] in E. inv_bind E. injection E as <-. cbn [wk_accounts].
  match goal with H : client_udp_free _ _ = Some _ |- _ => rename H into Hf end. unfold client_udp_free in Hf.
  destruct (wc_udpclient c); [inv_bind Hf|]; injection Hf as <-; done.
Qed.

(** Making a link counts it once, closing it twice: the gauge of the uplinks falls by one with
    every connection that comes and goes. *)
Theorem uplink_gauge_twice h cl cls ss u id c pa :
  links_ok h cl cls ss u -> id ∈ cl -> u.(up_worker).(wk_store) !! id = Some c -> is_uplink c ->
  u.(up_worker).(wk_accounts).(ac_ports) !! uplink_connects = Some pa ->
  exists u' pa', close_uplink id u = Some u' /\ u'.(up_worker).(wk_accounts).(ac_ports) !! uplink_connects = Some pa' /\
    pa'.(pa_gauge) = pa.(pa_gauge) - 2.
Proof.
  intros Hok Hin Hc Hu Hpa. destruct (lk_fine _ _ _ _ _ Hok id c Hc Hu) as (F1 & F2 & F3 & F4 & F5). pose proof (lk_worker _ _ _ _ _ Hok) as Hw.
  destruct (client_close_spec h cl cls ss (up_worker u) id c Hw Hin Hc F3) as (w' & E & _ & _ & _ & _ & H5).
  unfold close_uplink. rewrite E. cbn [mbind option_bind]. destruct (so_names _ _ (wo_sessions _ _ _ _ _ Hw) id c Hc) as [_ Hid].
  assert (lost_uplink (wc_client c) = [id]) as El.
  { unfold lost_uplink. destruct Hu as [-> Hp]. rewrite bool_decide_eq_false_2 by done. cbn. by rewrite Hid. }
  rewrite H5, El, drop_app_length. cbn [fold_left]. pose proof (close_accounts id _ w' c E Hc) as Ea. unfold drop_accounts in Ea.
  rewrite F4, F5 in Ea. cbn [mbind option_bind Z.eqb] in Ea. unfold inbound_connects_account in Ea. cbn [Z.ltb Z.compare Z.eqb Z.odd negb] in Ea.
  cbn [ac_ports set_ac_inbound] in Ea. rewrite Hpa in Ea. cbn [mbind option_bind] in Ea.
  assert (pa_refcount pa - 1 <> 0) as Hrc.
  { pose proof (ro_port _ _ _ (wo_refs _ _ _ _ _ Hw) uplink_connects) as Hp. rewrite Hpa in Hp. cbn [fmap option_fmap option_map counted] in Hp.
    assert (0 < tally (of_client (up_worker u) (port_refs uplink_connects) 0) (cl ++ wk_new (up_worker u))) as Ht.
    { rewrite (tally_without _ id); [|apply (lo_nodup _ _ _ (wo_lists _ _ _ _ _ Hw))|apply elem_of_app; by left].
      pose proof (tally_nonneg (of_client (up_worker u) (port_refs uplink_connects) 0) (rm id (cl ++ wk_new (up_worker u))) (port_refs_nonneg (up_worker u) uplink_connects)).
      unfold of_client at 1. rewrite Hc. unfold port_refs at 1. rewrite F4, F5, bool_decide_eq_true_2 by done. cbn [Z.eqb negb andb]. unfold rm in *. lia. }
    pose proof (lk_account _ _ _ _ _ Hok). lia. }
  unfold port_accounter_drop in Ea. destruct (Z.eqb_spec (pa_refcount pa - 1) 0); [done|]. injection Ea as Ea.
  eexists _, _. split; [done|]. cbn [uplink_close up_worker set_up_clients]. unfold on_uplinks. cbn [up_worker set_up_clients]. rewrite <- Ea. cbn [ac_ports set_ac_ports].
  rewrite lookup_insert_eq. cbn [wk_accounts set_wk_accounts ac_ports set_ac_ports]. rewrite lookup_insert_eq. split; [done|]. cbn. lia.
Qed.

(** ** Witnesses *)

Definition demo_up_held : held := mk_held (fun p => if p =? uplink_connects then 99 else 0) (fun _ => 0) 0.

Definition demo_up_accounts (n : Z) : accounts :=
  mk_accounts {[uplink_connects := set_pa_use 0 0 0 n (account_zero 0)]} (account_zero 1) (account_zero 1) (account_zero 1).

Definition demo_link (name : string) (flags : Z) : uplink_config_t :=
  mk_uplink (str name) (str "tcp") (str "rotate.aprs2.net") (str "10152") None None None None false (Z.lor CLFLAGS_UPLINKPORT flags) UPLINK_ST_NOT_LINKED None.

(** Two links and no client. *)
Definition demo_uplinks : uplinks :=
  mk_uplinks [demo_link "first" 0; demo_link "second" 0] []
    (mk_wk ∅ (mk_links ∅ ∅ ∅) (mk_links ∅ ∅ ∅) 0 [] [] (demo_up_accounts 99) ∅ ∅ 0 [] []) (-1) (-1) [] [].

Lemma demo_links_ok_link l : l = demo_link "first" 0 \/ l = demo_link "second" 0 -> link_ok [] l.
Proof. intros [->| ->]; (split; [done|repeat constructor; done|by vm_compute; eexists|by left]). Qed.

Lemma lists_none `{EqDecision H} `{Countable H} next : lists (mk_links (∅ : gmap H Z) next ∅) (fun _ => []).
Proof.
  split.
  - intros h. done.
  - intros h. apply NoDup_nil_2.
  - by intros h h' n ?%elem_of_nil.
  - by intros n [q Hq].
Qed.

Lemma demo_uplinks_ok : links_ok demo_up_held [] (fun _ => []) [] demo_uplinks.
Proof.
  split; cbn [up_worker up_clients up_config demo_uplinks]; try done.
  - split.
    + split; cbn [wk_list wk_class wk_store wk_new wk_count]; try done; try by (intros ? ?%elem_of_nil || intros ? ? ?%elem_of_nil || intros ? ? ? ?%elem_of_nil).
      * apply lists_none.
      * apply lists_none.
      * apply NoDup_nil_2.
      * intros i [x Hx]. done.
      * intros i [x Hx]. done.
    + split; cbn [wk_store wk_new wk_accounts wk_udp wk_gauge demo_up_held he_port he_udp he_filters]; try done.
      * intros x. split; [split_if|]; lia.
      * intros p. unfold demo_up_accounts. cbn [ac_ports]. destruct (Z.eqb_spec p uplink_connects) as [->|Hne].
        -- by vm_compute.
        -- rewrite lookup_singleton_ne by congruence. done.
    + split; cbn [wk_store wk_table]; try done; try apply represents_empty; try apply NoDup_nil_2; by intros ? ?%elem_of_nil.
  - by repeat (constructor; [apply demo_links_ok_link; auto|]).
  - apply NoDup_nil_2.
  - intros id. split; [by intros ?%elem_of_nil|]. by intros (c & ? & _).
  - by intros ? ?%elem_of_nil.
Qed.

(** An attempt that reaches a server, or nothing. *)
Definition demo_attempt (up : bool) : attempt :=
  mk_attempt true (Some 3%nat) 2 (fun i => if up && (i =? 1)%nat then Some 7 else None) (fun w => Some (fresh (dom w.(wk_store)))) (Some (Inet 0x7F000001)) [] true true.

Lemma demo_attempt_sane up : sane [] (demo_attempt up).
Proof.
  split.
  - intros w id [= <-]. split; [apply not_elem_of_dom, is_fresh|apply not_elem_of_nil].
  - intros sa [= <-]. by eexists.
Qed.

(** The second server can be reached, the first cannot. *)
Definition demo_env : (nat -> attempt) * (nat -> attempt) := (fun _ => demo_attempt false, fun k => demo_attempt (k =? 1)%nat).

Lemma uplink_found_witness :
  exists r u', (r <= 2)%nat /\ rounds 100 512 512 (take r [demo_env; demo_env]) demo_uplinks = Some u' /\
    links_ok demo_up_held [] (fun _ => []) [] u' /\ has_uplink u'.
Proof.
  apply (uplink_found 100 512 512 demo_up_held [] (fun _ => []) [] 2 1 (demo_link "second" 0) [demo_env; demo_env] demo_uplinks demo_uplinks_ok).
  - split.
    + intros [|[|j]] Hj; [eexists; by split|eexists; by split|lia].
    + intros [|[|j]] l Hj; cbn; [lia|lia|done].
  - lia.
  - reflexivity.
  - cbn. lia.
  - reflexivity.
  - repeat (constructor; [split; intros k; apply demo_attempt_sane|]). constructor.
  - assert (answers (demo_attempt true) (demo_link "second" 0)) as Ha.
    { split; [done|by vm_compute; eexists|exists 10152; split; [by vm_compute|lia]|exists 3%nat, 1%nat, 7; split; [done|]; split; [cbn; lia|done]|].
      split; [by eexists|done]. }
    repeat (constructor; [exact Ha|]). constructor.
Defined.

(** A link whose client waits for the answer to its login. *)
Definition demo_up_client : wclient :=
  match uplink_client 100 512 512 1 7 IPPROTO_TCP (demo_attempt true) (demo_link "first" 0) with
  | Some c => set_wc_client (set_c_state CSTATE_LOGRESP (with_port uplink_connects c).(wc_client)) (with_port uplink_connects c)
  | None => client_alloc 1 0 0 0
  end.

Definition demo_linked : uplinks :=
  mk_uplinks [set_ul_state UPLINK_ST_CONNECTED (set_ul_client (Some 1) (demo_link "first" 0))] [1]
    (mk_wk {[1 := demo_up_client]} (mk_links {[tt := 1]} {[1 := None]} {[1 := AtHead tt]}) (mk_links ∅ {[1 := None]} ∅) 1 [] []
       (demo_up_accounts 100) ∅ ∅ 0 [] []) 0 (-1) [] [].

Lemma demo_linked_lookup i c : demo_linked.(up_worker).(wk_store) !! i = Some c -> i = 1 /\ c = demo_up_client.
Proof. cbn. intros [<- <-]%lookup_singleton_Some. done. Qed.

Lemma demo_linked_ok : links_ok demo_up_held [1] (fun _ => []) [] demo_linked.
Proof.
  assert (demo_linked.(up_worker).(wk_store) !! 1 = Some demo_up_client) as H1 by (cbn; apply lookup_singleton_eq).
  assert (is_uplink demo_up_client) as Hup by (by vm_compute).
  split; cbn [up_clients up_config demo_linked]; try done.
  - split.
    + split; try done.
      * split; try done; [intros []; by vm_compute|intros _; apply NoDup_singleton|by intros [] []|].
        intros n [q Hq]. exists tt. apply list_elem_of_singleton. cbn in Hq. by apply lookup_singleton_Some in Hq as [<- _].
      * apply lists_none.
      * apply (bool_decide_unpack _). by vm_compute.
      * intros i [->|[]%elem_of_nil]%elem_of_cons. by eexists.
      * intros i [x [-> _]%demo_linked_lookup]. by split; eexists.
      * by intros ? ? ?%elem_of_nil.
      * intros i x k Hi [-> ->]%demo_linked_lookup Ho. vm_compute in Ho. by destruct Ho.
      * intros i [x [-> _]%demo_linked_lookup]. left.
    + split; cbn [wk_udp he_filters demo_up_held]; try done.
      * intros x. cbn. split; [split_if|]; lia.
      * intros p. destruct (decide (p = uplink_connects)) as [->|Hne]; [by vm_compute|].
        assert (tally (of_client (up_worker demo_linked) (port_refs p) 0) ([1] ++ wk_new (up_worker demo_linked)) = 0) as ->.
        { cbn [wk_new up_worker demo_linked Datatypes.app]. unfold tally, of_client. cbn [map]. unfold demo_linked in H1. cbn [up_worker] in H1. rewrite H1.
          unfold port_refs. rewrite bool_decide_eq_false_2; [by vm_compute|]. intros E. apply Hne. vm_compute in E. injection E as <-. reflexivity. }
        unfold demo_linked, demo_up_accounts. cbn [up_worker wk_accounts ac_ports]. rewrite lookup_singleton_ne by congruence.
        cbn. destruct (Z.eqb_spec p uplink_connects); done.
      * intros i x u [-> ->]%demo_linked_lookup Hu. done.
      * intros i x [-> ->]%demo_linked_lookup Hu. done.
    + split; try apply represents_empty; try apply NoDup_nil_2; try by intros ? ? ?%elem_of_nil.
      intros i x [-> ->]%demo_linked_lookup. split; [|done]. right. apply not_elem_of_nil.
  - apply Forall_singleton. split; [done|repeat constructor; done|by vm_compute; eexists|]. right. split; [done|]. exists 1. split; [done|left].
  - apply NoDup_singleton.
  - intros id. rewrite list_elem_of_singleton. split; [intros ->; by exists demo_up_client|]. by intros (c & [-> _]%demo_linked_lookup & _).
  - intros id c [-> ->]%demo_linked_lookup _. split; [split; [split; vm_compute; intuition discriminate|done]|]. split; [done|]. split; [by vm_compute; eexists|done].
  - intros id _. apply not_elem_of_nil.
Qed.

Lemma uplink_handshake_witness :
  exists line u' c', login_text demo_cfg (str "8385") (str "aprsc 2.1.19") = Some (line ++ [13; 10]) /\
    uplink_logresp_handler demo_cfg None 1 (logresp_text (default_config (str "T2OTHER")) (str "T2TEST") VALIDATED_WEAK) demo_linked = Some (u', 0) /\
    u'.(up_worker).(wk_store) !! 1 = Some c' /\ c'.(wc_client).(c_username) = str "T2OTHER" /\ c'.(wc_client).(c_state) = CSTATE_CONNECTED.
Proof.
  destruct (@uplink_handshake unit demo_server demo_cfg (default_config (str "T2OTHER")) (str "8385") (str "aprsc") (str "2.1.19") false (fun _ _ => false) []
              (fun x => x) true demo_login.(wo_login) demo_up_held [1] (fun _ => []) [] demo_linked 1 demo_up_client)
    as (line & l & u' & k & c' & H1 & _ & _ & _ & H2 & _ & H3 & _ & H4 & H5).
  - repeat (constructor; [apply word_ok_b_ok; reflexivity|]). constructor.
  - vm_compute. discriminate.
  - vm_compute. discriminate.
  - apply (bool_decide_unpack _). vm_compute. exact I.
  - vm_compute. reflexivity.
  - vm_compute. reflexivity.
  - vm_compute. reflexivity.
  - vm_compute. discriminate.
  - vm_compute. reflexivity.
  - exact demo_linked_ok.
  - left.
  - apply lookup_singleton_eq.
  - by vm_compute.
  - intros [Ho|Ho]; by vm_compute in Ho.
  - exists line, u', c'. split; [exact H1|]. split; [exact H2|]. split; [rewrite H3; apply lookup_insert_eq|]. split; [exact H5|exact H4].
Defined.
