(* ===== verification/AcceptSpec.v ===== *)
(** * Connections are admitted by the rules, and everything stays counted

    A connection gets in exactly when its port and the server have room, the access list of the
    listener allows its address, and the system goes along; a new configuration leaves exactly its
    listeners open; clients that may not stay are shut down; and through all of it every
    reference to an account or a UDP socket is counted. *)

From S2P Require Import Prelude Types Keyhash Cfgfile Acl ParseQc ParseAprs Clientlist ClientHeard Filter FilterParse FilterSpec Outgoing.
From S2P Require Import Plist ClientIO Accounting Worker WorkerSpec Newclient Accept Uplink UplinkSpec.
From Stdlib Require Import ZArith Lia Bool String SpecFloat.
From stdpp Require Import base tactics list gmap numbers.
Open Scope Z_scope.

(** ** What listeners hold *)

Definition port_held (ls : list listen_t) (p : Z) : Z := sumz (map (fun l => if l.(li_portaccount) =? p then 1 else 0) ls).
Definition udp_held (ls : list listen_t) (u : Z) : Z := sumz (map (fun l => if bool_decide (l.(li_udp) = Some u) then 1 else 0) ls).

Definition with_listeners (h : held) (ls : list listen_t) : held :=
  mk_held (fun p => h.(he_port) p + port_held ls p) (fun u => h.(he_udp) u + udp_held ls u) h.(he_filters).

Lemma port_held_cons l ls p : port_held (l :: ls) p = (if l.(li_portaccount) =? p then 1 else 0) + port_held ls p.
Proof. done. Qed.
Lemma udp_held_cons l ls u : udp_held (l :: ls) u = (if bool_decide (l.(li_udp) = Some u) then 1 else 0) + udp_held ls u.
Proof. done. Qed.

Lemma port_held_nonneg ls p : 0 <= port_held ls p.
Proof. induction ls as [|l ls IH]; [done|]. rewrite port_held_cons. destruct (_ =? _); lia. Qed.
Lemma udp_held_nonneg ls u : 0 <= udp_held ls u.
Proof. induction ls as [|l ls IH]; [done|]. rewrite udp_held_cons. destruct (bool_decide _); lia. Qed.

Lemma port_held_in ls l : l ∈ ls -> 1 <= port_held ls l.(li_portaccount).
Proof.
  induction ls as [|x ls IH]; [by intros ?%elem_of_nil|]. pose proof (port_held_nonneg ls (li_portaccount l)).
  rewrite port_held_cons. intros [->|Hl]%elem_of_cons; [rewrite Z.eqb_refl; lia|]. specialize (IH Hl). destruct (_ =? _); lia.
Qed.

(** In the account of a port, the gauge goes with the references: one of them is the listener's.
    The account of the uplinks is excepted. *)
Definition gauge_ok (a : accounts) : Prop :=
  forall p pa, p <> uplink_connects -> a.(ac_ports) !! p = Some pa -> pa.(pa_gauge) = pa.(pa_refcount) - 1.

(** [h] is what the other workers hold. *)
Record acceptor_ok (h : held) (cl : list Z) (cls : client_class -> list Z) (ss : list client_t) (a : acceptor) : Prop := {
  ao_worker : worker_ok (with_listeners h a.(al_listen)) cl cls ss a.(al_worker);
  ao_held : forall x, 0 <= h.(he_port) x /\ 0 <= h.(he_udp) x;
  ao_gauge : gauge_ok a.(al_worker).(wk_accounts);
  ao_ports : Forall (fun l => l.(li_portaccount) <> uplink_connects) a.(al_listen)
}.

Lemma gauge_ok_account add p a a' :
  p <> uplink_connects -> gauge_ok a -> inbound_connects_account add (Some p) a = Some a' -> gauge_ok a'.
Proof.
  intros Hp Hg E. unfold inbound_connects_account in E. inv_bind E. injection E as <-.
  assert (ac_ports (if add <? 2 then set_ac_inbound (if add =? -1 then port_accounter_reject (ac_inbound a)
            else if negb (add =? 0) then let gauge := pa_gauge (ac_inbound a) + 1 in
              set_pa_use (pa_counter (ac_inbound a) + 1) gauge (Z.max (pa_gauge_max (ac_inbound a)) gauge) (pa_refcount (ac_inbound a)) (ac_inbound a)
            else set_pa_use (pa_counter (ac_inbound a)) (pa_gauge (ac_inbound a) - 1) (pa_gauge_max (ac_inbound a)) (pa_refcount (ac_inbound a)) (ac_inbound a)) a else a)
          = ac_ports a) as Ep by (by destruct (add <? 2)).
  cbv zeta in *. rewrite Ep in *. intros q pa Hq Hpa. cbn [ac_ports set_ac_ports] in Hpa.
  match goal with Hx : ac_ports a !! p = Some ?y |- _ => pose proof (Hg p y Hp Hx) as Hy end.
  destruct (add =? -1); [|destruct (Z.odd add)].
  - apply lookup_insert_Some in Hpa as [[<- <-]|[_ ?]]; [done|by apply (Hg q)].
  - apply lookup_insert_Some in Hpa as [[<- <-]|[_ ?]]; [cbn; lia|by apply (Hg q)].
  - unfold port_accounter_drop in Hpa. destruct (pa_refcount x - 1 =? 0).
    + apply lookup_delete_Some in Hpa as [_ ?]. by apply (Hg q).
    + apply lookup_insert_Some in Hpa as [[<- <-]|[_ ?]]; [cbn; lia|by apply (Hg q)].
Qed.

(** ** New clients *)

Section Clients.
Variable maxclients tick : Z.
Variable cosf : spec_float -> spec_float.
Variable mem : bool.
Variable isize osize : Z.

(** The filters of the listener can be read. *)
Definition filters_fine (l : listen_t) : Prop :=
  forall gauge, is_Some (apply_filters cosf mem l.(li_client_flags) l.(li_filters) no_filters gauge).

Lemma apply_filters_count flags fs cf gauge cf' gauge' :
  filters_ok cf -> apply_filters cosf mem flags fs cf gauge = Some (cf', gauge') -> gauge' - filter_count cf' = gauge - filter_count cf.
Proof.
  revert cf gauge. induction fs as [|[f|] fs IH]; intros cf gauge Hok E; cbn [apply_filters] in E; [by injection E as <- <-| |by apply IH].
  inv_bind E. destruct x as [[cf1 g1] rc]. match goal with Hf : filter_parse _ _ _ _ _ _ _ = _ |- _ => apply filter_parse_keeps in Hf as (Hok1 & Hg & _); [|done] end.
  apply IH in E; [lia|done].
Qed.

Lemma apply_filters_user flags fs : forall cf gauge cf' gauge',
  filters_ok cf -> apply_filters cosf mem flags fs cf gauge = Some (cf', gauge') ->
  filters_ok cf' /\ (cf'.(neguserfilters), cf'.(posuserfilters)) = (cf.(neguserfilters), cf.(posuserfilters)).
Proof.
  induction fs as [|[f|] fs IH]; intros cf gauge cf' gauge' Hok E; cbn [apply_filters] in E; [by injection E as <- _| |by eapply IH].
  inv_bind E. destruct x as [[cf1 g1] rc]. match goal with Hf : filter_parse _ _ _ _ _ _ _ = _ |- _ => rename Hf into Ef end.
  assert ((neguserfilters cf1, posuserfilters cf1) = (neguserfilters cf, posuserfilters cf)) as Eu.
  { unfold filter_parse in Ef. cbn [andb] in Ef. inv_bind Ef. destruct x as [z|[[] f']]; [by injection Ef as <- _ _|by injection Ef as <- _ _|]. destruct mem; by injection Ef as <- _ _. }
  apply filter_parse_keeps in Ef as (Hok1 & _); [|done]. apply IH in E as [E1 E2]; [|done]. split; [done|congruence].
Qed.

(** What the client of a connection looks like. *)
Record accepted (l : listen_t) (id : Z) (r : arrival) (st : CStateEnum) (c : wclient) : Prop := {
  ac_id : c.(wc_client).(c_id) = id;
  ac_fd : c.(wc_client).(c_fd) = r.(ar_fd);
  ac_state : c.(wc_client).(c_state) = st;
  ac_flags : c.(wc_client).(c_flags) = l.(li_client_flags);
  ac_name : c.(wc_client).(c_username) = [] /\ c.(wc_client).(c_username_len) = 0 /\ c.(wc_client).(c_validated) = 0;
  ac_port : c.(wc_account).(ca_port) = Some l.(li_portaccount);
  ac_listener : c.(wc_listener_id) = l.(li_listener_id) /\ c.(wc_addr) = r.(ar_addr);
  ac_feed : c.(wc_udp_port) = 0;
  ac_conn : (c.(wc_conn).(co_ibuf), c.(wc_conn).(co_ibuf_end), c.(wc_conn).(co_obuf), c.(wc_conn).(co_obuf_start), c.(wc_conn).(co_obuf_end)) =
            (repeat 0 (Z.to_nat isize), 0, repeat 0 (Z.to_nat osize), 0, 0);
  ac_zero : c.(wc_account).(ca_local) = account_zero 0 /\ c_heard_list c.(wc_client) = mk_heard_list ∅ 0 /\ c.(wc_client).(c_no_tx) = false /\ c.(wc_client).(c_loc_known) = false;
  ac_filters : filters_ok c.(wc_filters) /\ (c.(wc_filters).(neguserfilters), c.(wc_filters).(posuserfilters)) = ([], [])
}.

Lemma accepted_session l id r st c : accepted l id r st c -> session_ok c.(wc_client).
Proof. intros [_ _ _ _ (E1 & E2 & _) _ _ _ _ _ _]. unfold session_ok. rewrite E1, E2. split; [by vm_compute|]. split; [done|constructor]. Qed.

Lemma accept_client_spec h cl cls ss a l id r st ka :
  acceptor_ok h cl cls ss a -> l ∈ a.(al_listen) -> is_Some (hexsockaddr r.(ar_addr)) -> filters_fine l ->
  exists c w, accept_client_for_listener tick cosf mem isize osize l id r st ka a = Some (c, w) /\ accepted l id r st c /\
    provided (with_listeners h a.(al_listen)) (cl ++ a.(al_worker).(wk_new)) (fun p => port_refs p c) c a.(al_worker) w /\
    gauge_ok w.(wk_accounts) /\ (w.(wk_peers), w.(wk_uplinks), w.(wk_fds)) = (a.(al_worker).(wk_peers), a.(al_worker).(wk_uplinks), a.(al_worker).(wk_fds)) /\
    acc_count w.(wk_accounts) l.(li_portaccount) = Z.succ <$> acc_count a.(al_worker).(wk_accounts) l.(li_portaccount).
Proof.
  intros [Hw Hh Hg Hp] Hl [hex Hhex] Hf. unfold accept_client_for_listener.
  destruct (client_udp_find_spec a.(al_udpclients) (family_of r.(ar_addr)) l.(li_portnum) a.(al_worker)) as (u & udp & -> & U1 & U2 & U3).
  cbn [mbind option_bind]. set (H := with_listeners h (al_listen a)) in *.
  pose proof (wo_refs _ _ _ _ _ Hw) as R. pose proof (ro_port _ _ _ R l.(li_portaccount)) as Hpr.
  assert (exists ca, (match u with Some u0 => s ← wk_udp (set_wk_udp udp (al_worker a)) !! u0; Some (cu_portaccount s) | None => Some None end) = Some ca /\
    forall v, u = Some v -> exists s, udp !! v = Some s /\ ca = s.(cu_portaccount)) as (ca & -> & Hca).
  { destruct u as [v|]; [|by exists None]. destruct (U3 v eq_refl) as [_ Hm]. unfold udp_matches in Hm. destruct (wk_udp (al_worker a) !! v) as [s|] eqn:Es; [|done].
    destruct (U2 v s Es) as (s' & Es' & _). cbn. rewrite Es'. exists (cu_portaccount s'). split; [done|]. intros ? [= <-]. by exists s'. }
  cbn [mbind option_bind].
  assert (1 <= he_port H (li_portaccount l)) as Hhp by (cbn; pose proof (port_held_in _ _ Hl); destruct (Hh (li_portaccount l)); lia).
  assert (0 <= tally (of_client (al_worker a) (port_refs (li_portaccount l)) 0) (cl ++ wk_new (al_worker a))) as Htn.
  { apply tally_nonneg, port_refs_nonneg. }
  destruct (add_port 1 l.(li_portaccount) a.(al_worker).(wk_accounts) (he_port H (li_portaccount l))
              (tally (of_client (al_worker a) (port_refs (li_portaccount l)) 0) (cl ++ wk_new (al_worker a)))) as (acc & Ea & A1 & A2); [by left|exact Hpr| |].
  { destruct (ac_ports _ !! _) eqn:E; [by eexists|]. cbn [fmap option_fmap option_map counted] in Hpr. lia. }
  cbn [wk_accounts set_wk_udp]. rewrite Ea. cbn [mbind option_bind]. rewrite Hhex. cbn [mbind option_bind].
  destruct (Hf (wk_gauge (al_worker a))) as [[cf g] Ef]. cbn [wk_gauge set_wk_udp wc_filters client_alloc]. fold no_filters. rewrite Ef. cbn [mbind option_bind].
  eexists _, _. split; [done|]. split.
  { split; try done. destruct (apply_filters_user _ _ _ _ _ _ no_filters_ok Ef) as [F1 F2]. cbn [wc_filters]. destruct (li_filter_s l); [split; [by destruct F1|done]|done]. }
  assert (acc_count acc (li_portaccount l) = Z.succ <$> acc_count (al_worker a).(wk_accounts) (li_portaccount l)) as Hcnt.
  { unfold acc_count in *. destruct (ac_ports (wk_accounts (al_worker a)) !! li_portaccount l) as [pa|] eqn:E1; [|cbn [fmap option_fmap option_map counted] in Hpr; lia].
    destruct (ac_ports acc !! li_portaccount l) as [pa'|] eqn:E2; [|cbn [fmap option_fmap option_map counted] in A1; lia]. cbn [fmap option_fmap option_map counted] in *. f_equal. lia. }
  split; [|split; [|split; [done|exact Hcnt]]].
  - split; cbn [wc_udpclient wc_account wc_udp_port wc_filters ca_port ca_udp wk_accounts wk_udp wk_gauge set_wk_gauge set_wk_accounts set_wk_udp]; try done.
    + intros p. unfold port_refs at 1. cbn [wc_account ca_port wc_udp_port Z.eqb negb andb]. destruct (decide (l.(li_portaccount) = p)) as [<-|Hne].
      * rewrite bool_decide_eq_true_2 by done. rewrite Z.add_0_r. exact A1.
      * rewrite bool_decide_eq_false_2 by congruence. rewrite A2 by congruence. apply (ro_port _ _ _ R).
    + intros v. rewrite U1. pose proof (ro_udp _ _ _ R v) as Hv. unfold udp_refs at 1. cbn [wc_udpclient].
      destruct (wk_udp (al_worker a) !! v) as [s|] eqn:Es; cbn [fmap option_fmap option_map counted] in *.
      * destruct (bool_decide (u = Some v)); lia.
      * rewrite bool_decide_eq_false_2; [lia|]. intros ->. destruct (U3 v eq_refl) as [_ Hm]. unfold udp_matches in Hm. by rewrite Es in Hm.
    + apply apply_filters_count in Ef; [|exact no_filters_ok]. change (filter_count no_filters) with 0 in Ef.
      assert (filter_count (match li_filter_s l with Some s => set_filter_s s cf | None => cf end) = filter_count cf) as -> by (by destruct (li_filter_s l)). lia.
  - cbn [wk_accounts set_wk_gauge set_wk_accounts]. eapply gauge_ok_account; [|exact Hg|exact Ea].
    apply (proj1 (list.Forall_forall _ _) Hp l Hl).
Qed.

(** ** Connections *)

(** Nothing but the counters that are no references, and the closed descriptors, has changed. *)
Record recounted (w w' : worker) : Prop := {
  rc_count : forall p, acc_count w'.(wk_accounts) p = acc_count w.(wk_accounts) p;
  rc_udp : (w'.(wk_udp), w'.(wk_gauge), w'.(wk_table)) = (w.(wk_udp), w.(wk_gauge), w.(wk_table));
  rc_rest : (w'.(wk_store), w'.(wk_list), w'.(wk_class), w'.(wk_count), w'.(wk_new)) = (w.(wk_store), w.(wk_list), w.(wk_class), w.(wk_count), w.(wk_new))
}.

Lemma recounted_ok h cl cls ss w w' : recounted w w' -> worker_ok h cl cls ss w -> worker_ok h cl cls ss w'.
Proof.
  intros [E1 E2 E3] [L R S]. injection E2 as Eu Eg Et. injection E3 as Es El Ec En Ew.
  assert (forall A (f : wclient -> A) d i, of_client w' f d i = of_client w f d i) as Hof by (intros; unfold of_client; by rewrite Es).
  split.
  - destruct L. split; rewrite ?Es, ?El, ?Ec, ?En, ?Ew; done.
  - destruct R as [R0 R1 R2 R3 R4 R5]. rewrite Ew. split; rewrite ?Es, ?Eu, ?Eg; try done.
    + intros p. rewrite (tally_ext _ (of_client w (port_refs p) 0)) by (intros; apply Hof). specialize (E1 p). unfold acc_count in E1. rewrite E1. apply R1.
    + intros u. rewrite (tally_ext _ (of_client w (udp_refs u) 0)) by (intros; apply Hof). apply R2.
    + rewrite (tally_ext _ (of_client w (fun c => filter_count (wc_filters c)) 0)) by (intros; apply Hof). done.
  - destruct S. split; rewrite ?Es, ?Et; done.
Qed.

Lemma reject_count p q a a' : inbound_connects_account (-1) (Some p) a = Some a' -> acc_count a' q = acc_count a q.
Proof.
  unfold inbound_connects_account. cbn [Z.ltb Z.compare Z.eqb Pos.eqb ac_ports set_ac_inbound]. intros E. inv_bind E. injection E as <-.
  unfold acc_count. cbn [ac_ports set_ac_ports]. destruct (decide (p = q)) as [<-|Hne]; [rewrite lookup_insert_eq, E0; done|by rewrite lookup_insert_ne].
Qed.

(** The clients of a port, on all workers. *)
Definition port_count (a : acceptor) (l : listen_t) : Z :=
  match acc_count a.(al_worker).(wk_accounts) l.(li_portaccount) with Some n => n - 1 | None => 0 end.

(** Which connections are to be admitted. *)
Definition admits (l : listen_t) (r : arrival) (a : acceptor) : option Z :=
  if (port_count a l <? l.(li_clients_max)) && (a.(al_worker).(wk_accounts).(ac_inbound).(pa_gauge) <? maxclients)
     && match l.(li_acl) with Some acl => negb (acl_check acl r.(ar_addr) =? 0) | None => true end && r.(ar_sockopt)
  then r.(ar_client) else None.

(** A connection that is refused: closed, and nothing else. *)
Definition refused (r : arrival) (l : listen_t) (a a' : acceptor) : Prop :=
  a'.(al_worker).(wk_store) = a.(al_worker).(wk_store) /\ a'.(al_worker).(wk_new) = a.(al_worker).(wk_new) /\
  r.(ar_fd) ∈ a'.(al_worker).(wk_fds) /\ port_count a' l = port_count a l.

Lemma reject_spec h cl cls ss a l r :
  acceptor_ok h cl cls ss a -> l ∈ a.(al_listen) ->
  exists a', reject l r.(ar_fd) a = Some a' /\ acceptor_ok h cl cls ss a' /\ a'.(al_listen) = a.(al_listen) /\ refused r l a a'.
Proof.
  intros [Hw Hh Hg Hp] Hl. unfold reject.
  assert (exists acc, inbound_connects_account (-1) (Some l.(li_portaccount)) a.(al_worker).(wk_accounts) = Some acc) as [acc Ea].
  { pose proof (ro_port _ _ _ (wo_refs _ _ _ _ _ Hw) l.(li_portaccount)) as Hc. destruct (ac_ports _ !! _) as [pa|] eqn:E.
    - unfold inbound_connects_account. cbn [Z.ltb Z.compare Z.eqb Pos.eqb ac_ports set_ac_inbound]. rewrite E. by eexists.
    - cbn in Hc. pose proof (port_held_in _ _ Hl). destruct (Hh l.(li_portaccount)). lia. }
  rewrite Ea. cbn [mbind option_bind]. eexists. split; [done|].
  assert (recounted a.(al_worker) (set_wk_accounts acc (close_fd r.(ar_fd) a.(al_worker)))) as Hr.
  { split; try done. intros p. by apply (reject_count l.(li_portaccount)). }
  split; [|split; [done|]].
  - split; cbn [al_listen al_worker set_al_worker]; try done; [by eapply recounted_ok|].
    cbn [wk_accounts set_wk_accounts]. eapply gauge_ok_account; [|exact Hg|exact Ea]. apply (proj1 (list.Forall_forall _ _) Hp l Hl).
  - split; [done|]. split; [done|]. split; [cbn; apply elem_of_app; right; by apply list_elem_of_singleton|].
    unfold port_count. cbn [al_worker set_al_worker wk_accounts set_wk_accounts]. by rewrite (reject_count l.(li_portaccount) _ _ _ Ea).
Qed.

Lemma client_free_fd id w w' c :
  client_free id w = Some w' -> w.(wk_store) !! id = Some c -> 0 <= c.(wc_client).(c_fd) -> c.(wc_client).(c_fd) ∈ w'.(wk_fds).
Proof.
  unfold client_free. intros E Hc Hfd. rewrite Hc in E. cbn [mbind option_bind] in E. inv_bind E. injection E as <-. cbn [wk_fds].
  destruct (Z.geb_spec (c_fd (wc_client c)) 0); [|lia]. apply elem_of_app. right. by apply list_elem_of_singleton.
Qed.

(** The client that [set_client_sockopt] refuses is given back. *)
Lemma give_up_spec h cl cls ss a l id r c w :
  acceptor_ok h cl cls ss a -> l ∈ a.(al_listen) -> a.(al_worker).(wk_store) !! id = None -> id ∉ map c_id ss -> 0 <= r.(ar_fd) ->
  accepted l id r CSTATE_LOGIN c -> gauge_ok w.(wk_accounts) ->
  provided (with_listeners h a.(al_listen)) (cl ++ a.(al_worker).(wk_new)) (fun p => port_refs p c) c a.(al_worker) w ->
  exists w', give_up_client id c (add_client id c w) = Some w' /\ acceptor_ok h cl cls ss (set_al_worker w' a) /\ refused r l a (set_al_worker w' a).
Proof.
  intros [Hw Hh Hg Hp] Hl Hid Hss Hfd Hc Hgw P. unfold give_up_client. rewrite (ac_port _ _ _ _ _ Hc).
  set (H := with_listeners h (al_listen a)) in *. set (p := li_portaccount l). set (ids := cl ++ wk_new (al_worker a)) in *.
  pose proof (ro_held _ _ _ (wo_refs _ _ _ _ _ Hw)) as Hn.
  assert (forall q, port_refs q c = if decide (q = p) then 1 else 0) as Hpr.
  { intros q. unfold port_refs. rewrite (ac_port _ _ _ _ _ Hc), (ac_feed _ _ _ _ _ Hc). cbn [Z.eqb negb andb]. rewrite Z.add_0_r.
    destruct (decide (q = p)) as [->|Hq]; [by rewrite bool_decide_eq_true_2|]. rewrite bool_decide_eq_false_2; [done|]. intros [= E]. by destruct Hq. }
  pose proof (pr_port _ _ _ _ _ _ P p) as Pp. cbv beta in Pp. rewrite Hpr, decide_True in Pp by done.
  assert (0 <= tally (of_client (al_worker a) (port_refs p) 0) ids) as Ht by (apply tally_nonneg, port_refs_nonneg).
  destruct (WorkerSpec.drop_port 0 p w.(wk_accounts) (he_port H p) (tally (of_client (al_worker a) (port_refs p) 0) ids)) as (acc & Ea & D1 & D2);
    [by left|apply Hn|done|done|].
  cbn [wk_accounts add_client]. rewrite Ea. cbn [mbind option_bind].
  assert (set_wk_accounts acc (add_client id c w) = add_client id c (set_wk_accounts acc w)) as -> by done.
  destruct (free_new H cl cls ss a.(al_worker) (set_wk_accounts acc w) id c Hw) as (w' & E & W1 & W2 & W3 & W4 & W5); [| | |apply Hc|].
  - destruct P as [P1 P2 P3 P4 P5 P6 P7]. split; cbn [wk_accounts wk_udp wk_gauge set_wk_accounts]; try done.
    intros q. cbv beta. rewrite Z.add_0_l. destruct (decide (q = p)) as [->|Hne]; [done|]. rewrite D2 by done. specialize (P1 q). rewrite Hpr, decide_False, Z.add_0_l in P1; done.
  - done.
  - done.
  - exists w'. split; [done|].
    assert (w'.(wk_accounts) = acc) as Eacc.
    { unfold client_free in E. inv_bind E. inv_bind E. injection E as <-. cbn [wk_accounts].
      match goal with Hx : client_udp_free _ _ = Some _ |- _ => rename Hx into Hf end. unfold client_udp_free in Hf.
      destruct (wc_udpclient x); [inv_bind Hf|]; by injection Hf as <-. }
    assert (acc_count acc p = acc_count a.(al_worker).(wk_accounts) p) as Hcnt.
    { pose proof (ro_port _ _ _ (wo_refs _ _ _ _ _ Hw) p) as Hc0. fold ids H in Hc0. change (counted (he_port H p) (tally (of_client (al_worker a) (port_refs p) 0) ids) (acc_count a.(al_worker).(wk_accounts) p)) in Hc0.
      unfold counted in *. destruct (acc_count acc p), (acc_count (wk_accounts (al_worker a)) p); try lia; [f_equal; lia|]. done. }
    split.
    + split; cbn [al_listen al_worker set_al_worker]; try done. rewrite Eacc. eapply gauge_ok_account; [|exact Hgw|exact Ea].
      apply (proj1 (list.Forall_forall _ _) Hp l Hl).
    + split; [done|]. split; [done|]. split.
      * cbn [al_worker set_al_worker]. rewrite <- (ac_fd _ _ _ _ _ Hc). eapply client_free_fd; [exact E|cbn; apply lookup_insert_eq|by rewrite (ac_fd _ _ _ _ _ Hc)].
      * unfold port_count. cbn [al_worker set_al_worker]. rewrite Eacc. fold p. by rewrite Hcnt.
Qed.

End Clients.

(** A listener with TLS loses a client, and its account a place, with every connection that TLS refuses: the structure is on no
    list, and the client stays counted. *)
Theorem accept_tls_leak maxclients tick cosf mem isize osize h cl cls ss a l r id :
  acceptor_ok h cl cls ss a -> l ∈ a.(al_listen) -> filters_fine cosf mem l -> is_Some (hexsockaddr r.(ar_addr)) ->
  admits maxclients l (mk_arrival r.(ar_fd) r.(ar_addr) r.(ar_client) r.(ar_addr_loc) true true) a = Some id -> l.(li_ssl) = true -> r.(ar_tls) = false ->
  exists a' c, do_accept maxclients tick cosf mem isize osize l r a = Some a' /\ a'.(al_worker).(wk_store) = <[id := c]> a.(al_worker).(wk_store) /\
    a'.(al_worker).(wk_list) = alloc_node id a.(al_worker).(wk_list) /\ a'.(al_worker).(wk_new) = a.(al_worker).(wk_new) /\
    r.(ar_fd) ∈ a'.(al_worker).(wk_fds) /\ port_count a' l = port_count a l + 1.
Proof.
  intros Hok Hl Hf Hx Ha Hs Ht. pose proof Hok as [Hw Hh Hg Hp]. unfold do_accept. unfold admits in Ha. cbn [ar_sockopt ar_client ar_addr] in Ha. rewrite andb_true_r in Ha.
  destruct (_ && _) eqn:Eb in Ha; [|done]. apply andb_prop in Eb as [[H1 H2]%andb_prop H3].
  pose proof (ro_port _ _ _ (wo_refs _ _ _ _ _ Hw) l.(li_portaccount)) as Hcnt. pose proof (port_held_in _ _ Hl) as Hpi. pose proof (Hh l.(li_portaccount)) as [Hh0 _].
  destruct (ac_ports (wk_accounts (al_worker a)) !! li_portaccount l) as [pa|] eqn:Ep; [|cbn in Hcnt; lia]. cbn [mbind option_bind].
  assert (port_count a l = pa_gauge pa) as Epc.
  { unfold port_count, acc_count. rewrite Ep. cbn. rewrite (Hg _ _ (proj1 (list.Forall_forall _ _) Hp l Hl) Ep). done. }
  rewrite Epc in H1. destruct (Z.geb_spec (pa_gauge pa) (li_clients_max l)); [lia|].
  destruct (Z.geb_spec (pa_gauge (ac_inbound (wk_accounts (al_worker a)))) maxclients); [lia|]. cbn [orb].
  assert (match li_acl l with Some acl => acl_check acl (ar_addr r) =? 0 | None => false end = false) as -> by (destruct (li_acl l); [by apply negb_true_iff in H3|done]).
  rewrite Ha. destruct (accept_client_spec tick cosf mem isize osize h cl cls ss a l id r CSTATE_LOGIN (tick + keepalive_interval) Hok Hl Hx Hf) as (c & w & E & Hc & P & Gw & Ew & Cw).
  rewrite E. cbn [mbind option_bind]. rewrite Hs, Ht. cbn [negb andb]. unfold reject. cbn [al_worker set_al_worker wk_accounts add_client].
  assert (is_Some (ac_ports (wk_accounts w) !! li_portaccount l)) as [pa' Ep'].
  { unfold acc_count in Cw. rewrite Ep in Cw. destruct (ac_ports (wk_accounts w) !! li_portaccount l); [by eexists|done]. }
  assert (exists acc, inbound_connects_account (-1) (Some (li_portaccount l)) (wk_accounts w) = Some acc) as [acc Ea].
  { unfold inbound_connects_account. cbn [Z.ltb Z.compare Z.eqb Pos.eqb ac_ports set_ac_inbound]. rewrite Ep'. by eexists. }
  rewrite Ea. cbn [mbind option_bind]. destruct (pr_rest _ _ _ _ _ _ P) as [E1 E2]. injection E1 as Es El _ _. injection E2 as En _.
  eexists _, c. split; [done|]. cbn [al_worker set_al_worker wk_store wk_list wk_new wk_fds set_wk_accounts close_fd add_client]. rewrite Es, El, En.
  split; [done|]. split; [done|]. split; [done|]. split; [apply elem_of_app; right; by apply list_elem_of_singleton|].
  unfold port_count. cbn [al_worker set_al_worker wk_accounts set_wk_accounts]. rewrite (reject_count _ _ _ _ Ea), Cw. unfold acc_count. rewrite Ep. cbn. lia.
Qed.

(** Workers get connections in turn. *)
Fixpoint picks (k n next : nat) : list nat :=
  match k with O => [] | S k => let '(i, next) := pick_next_worker n next in i :: picks k n next end.

(** With [n] workers, the [k]-th connection after the start goes to worker [k mod n]. *)
Theorem pick_round_robin n k i : (0 < n)%nat -> (i < k)%nat -> picks k n 0 !! i = Some (i mod n)%nat.
Proof.
  intros Hn Hi. assert (forall k m next i, (next = m mod n \/ (next = n /\ m mod n = 0))%nat -> (i < k)%nat -> picks k n next !! i = Some ((m + i) mod n)%nat) as Hgo.
  { clear i Hi k. induction k as [|k IH]; intros m next i Hm Hi; [lia|]. cbn [picks].
    pose proof (Nat.mod_upper_bound m n ltac:(lia)) as Hb.
    assert (pick_next_worker n next = ((m mod n)%nat, S (m mod n)%nat)) as ->.
    { unfold pick_next_worker. destruct Hm as [->|[-> Hz]]; [destruct (Nat.ltb_spec (m mod n) n); [done|lia]|rewrite Nat.ltb_irrefl, Hz; done]. }
    destruct i as [|i]; [by rewrite Nat.add_0_r|]. cbn [lookup list_lookup]. replace (m + S i)%nat with (S m + i)%nat by lia. apply IH; [|lia].
    pose proof (Nat.div_mod m n ltac:(lia)) as Hd. destruct (decide (S (m mod n) = n)) as [E|E].
    - right. split; [done|]. apply Nat.Div0.mod_divides. exists (S (m / n))%nat. lia.
    - left. apply (Nat.mod_unique _ _ (m / n)); lia. }
  apply (Hgo k 0%nat 0%nat i); [|done]. left. by rewrite Nat.Div0.mod_0_l.
Qed.

(** ** Listeners come and go *)

Lemma worker_ok_held h h' cl cls ss w :
  (forall p, h'.(he_port) p = h.(he_port) p) -> (forall u, h'.(he_udp) u = h.(he_udp) u) -> h'.(he_filters) = h.(he_filters) ->
  worker_ok h cl cls ss w -> worker_ok h' cl cls ss w.
Proof.
  intros Hp Hu Hf [L [R0 R1 R2 R3 R4 R5] S]. split; [done| |done]. split; try done.
  - intros x. rewrite Hp, Hu. apply R0.
  - intros p. rewrite Hp. apply R1.
  - intros u. rewrite Hu. apply R2.
  - by rewrite Hf.
Qed.

(** Accounts, sockets and counts have changed, the clients have not. *)
Definition same_clients (w w' : worker) : Prop :=
  (w'.(wk_store), w'.(wk_list), w'.(wk_class), w'.(wk_count), w'.(wk_new)) = (w.(wk_store), w.(wk_list), w.(wk_class), w.(wk_count), w.(wk_new)) /\
  (w'.(wk_gauge), w'.(wk_table), w'.(wk_peers), w'.(wk_uplinks)) = (w.(wk_gauge), w.(wk_table), w.(wk_peers), w.(wk_uplinks)).

Lemma same_clients_trans w1 w2 w3 : same_clients w1 w2 -> same_clients w2 w3 -> same_clients w1 w3.
Proof. intros [H1 H2] [H3 H4]. split; congruence. Qed.

(** References move between listeners and accounts. *)
Lemma rebased_ok h h' cl cls ss w w' :
  worker_ok h cl cls ss w -> same_clients w w' -> h'.(he_filters) = h.(he_filters) -> (forall x, 0 <= h'.(he_port) x /\ 0 <= h'.(he_udp) x) ->
  (forall p, counted (h'.(he_port) p) (tally (of_client w (port_refs p) 0) (cl ++ w.(wk_new))) (acc_count w'.(wk_accounts) p)) ->
  (forall u, counted (h'.(he_udp) u) (tally (of_client w (udp_refs u) 0) (cl ++ w.(wk_new))) (cu_refcount <$> w'.(wk_udp) !! u)) ->
  (forall u s, w.(wk_udp) !! u = Some s -> 0 < tally (of_client w (udp_refs u) 0) (cl ++ w.(wk_new)) ->
     exists s', w'.(wk_udp) !! u = Some s' /\ s'.(cu_portaccount) = s.(cu_portaccount)) ->
  worker_ok h' cl cls ss w'.
Proof.
  intros [L [R0 R1 R2 R3 R4 R5] S] [E1 E2] Hf Hn Hp Hu Hk. injection E1 as Es El Ec En Ew. injection E2 as Eg Et _ _.
  assert (forall A (f : wclient -> A) d i, of_client w' f d i = of_client w f d i) as Hof by (intros; unfold of_client; by rewrite Es).
  split.
  - destruct L. split; rewrite ?Es, ?El, ?Ec, ?En, ?Ew; done.
  - rewrite Ew. split; try done.
    + intros p. rewrite (tally_ext _ (of_client w (port_refs p) 0)) by (intros; apply Hof). apply Hp.
    + intros u. rewrite (tally_ext _ (of_client w (udp_refs u) 0)) by (intros; apply Hof). apply Hu.
    + rewrite Es. intros id c u Hc Hcu. destruct (R3 id c u Hc Hcu) as (x & Hx & Hxp). destruct (Hk u x Hx) as (s' & Hs' & Hp'); [|exists s'; split; [done|congruence]].
      assert (id ∈ cl ++ wk_new w) as Hid by (apply (lo_known _ _ _ L); by eexists).
      rewrite (tally_without _ id); [|apply (lo_nodup _ _ _ L)|done].
      pose proof (tally_nonneg (of_client w (udp_refs u) 0) (List.filter (fun y => negb (y =? id)) (cl ++ wk_new w)) (udp_refs_nonneg w u)).
      unfold of_client at 1. rewrite Hc. unfold udp_refs at 1. rewrite Hcu, bool_decide_eq_true_2 by done. lia.
    + rewrite Es. apply R4.
    + rewrite Eg, Hf. rewrite (tally_ext _ (of_client w (fun c => filter_count (wc_filters c)) 0)) by (intros; apply Hof). done.
  - destruct S. split; rewrite ?Es, ?Et; done.
Qed.

Lemma client_udp_free_spec u w :
  (forall v, u = Some v -> exists s, w.(wk_udp) !! v = Some s) ->
  exists w', client_udp_free u w = Some w' /\ same_clients w w' /\ w'.(wk_accounts) = w.(wk_accounts) /\
    (forall v, u <> Some v -> w'.(wk_udp) !! v = w.(wk_udp) !! v) /\
    (forall v s, u = Some v -> w.(wk_udp) !! v = Some s ->
       w'.(wk_udp) !! v = if s.(cu_refcount) - 1 =? 0 then None else Some (set_cu_refcount (s.(cu_refcount) - 1) s)).
Proof.
  intros Hu. unfold client_udp_free. destruct u as [v|]; [|by exists w; repeat split].
  destruct (Hu v eq_refl) as [s Es]. rewrite Es. cbn [mbind option_bind]. eexists. split; [done|]. split; [done|]. split; [done|]. cbn [wk_udp]. split.
  - intros x Hx. destruct (_ =? 0); [rewrite lookup_delete_ne by congruence; done|rewrite lookup_insert_ne by congruence; done].
  - intros x t [= <-] Ht. rewrite Es in Ht. injection Ht as <-. destruct (_ =? 0); [by rewrite lookup_delete_eq|by rewrite lookup_insert_eq].
Qed.

(** Giving back what a listener holds. *)
Lemma listener_release_spec h cl cls ss l ls w :
  worker_ok (with_listeners h (l :: ls)) cl cls ss w -> (forall x, 0 <= h.(he_port) x /\ 0 <= h.(he_udp) x) ->
  gauge_ok w.(wk_accounts) -> l.(li_portaccount) <> uplink_connects ->
  exists w', listener_release l w = Some w' /\ worker_ok (with_listeners h ls) cl cls ss w' /\ gauge_ok w'.(wk_accounts) /\ same_clients w w'.
Proof.
  intros Hw Hh Hg Hl. unfold listener_release. pose proof (wo_refs _ _ _ _ _ Hw) as R.
  destruct (client_udp_free_spec l.(li_udp) w) as (w1 & E1 & S1 & A1 & U1 & U2).
  { intros v Ev. pose proof (ro_udp _ _ _ R v) as Hv. destruct (wk_udp w !! v) as [s|] eqn:Es; [by exists s|].
    cbn [he_udp with_listeners fmap option_fmap option_map counted] in Hv. rewrite udp_held_cons, bool_decide_eq_true_2 in Hv by done.
    destruct (Hh v). pose proof (udp_held_nonneg ls v). lia. }
  rewrite E1. cbn [mbind option_bind]. unfold drop_port_account. rewrite A1. set (p := li_portaccount l) in *.
  assert (0 <= tally (of_client w (port_refs p) 0) (cl ++ wk_new w)) as Ht by (apply tally_nonneg, port_refs_nonneg).
  pose proof (port_held_nonneg ls p) as Hpn. destruct (Hh p) as [Hhp _]. pose proof (ro_port _ _ _ R p) as Hc. cbn [he_port with_listeners] in Hc. rewrite port_held_cons in Hc. fold p in Hc. rewrite Z.eqb_refl in Hc.
  destruct (ac_ports (wk_accounts w) !! p) as [pa|] eqn:Ep; [|cbn in Hc; lia]. cbn [mbind option_bind fmap option_fmap option_map counted] in *.
  set (acc := set_ac_ports _ _).
  assert (forall q, counted (he_port (with_listeners h ls) q) (tally (of_client w (port_refs q) 0) (cl ++ wk_new w)) (acc_count acc q)) as Hacc.
  { intros q. unfold acc_count, acc. cbn [ac_ports set_ac_ports he_port with_listeners]. destruct (decide (p = q)) as [<-|Hne].
    - unfold port_accounter_drop. destruct (Z.eqb_spec (pa_refcount pa - 1) 0); [rewrite lookup_delete_eq|rewrite lookup_insert_eq]; cbn; lia.
    - pose proof (ro_port _ _ _ R q) as Hq. cbn [he_port with_listeners] in Hq. rewrite port_held_cons in Hq. fold p in Hq. rewrite (proj2 (Z.eqb_neq p q)) in Hq by done.
      destruct (port_accounter_drop pa); [rewrite lookup_insert_ne by done|rewrite lookup_delete_ne by done]; exact Hq. }
  assert (gauge_ok acc) as Hga.
  { intros q qa Hq Hqa. unfold acc in Hqa. cbn [ac_ports set_ac_ports] in Hqa. unfold port_accounter_drop in Hqa. pose proof (Hg p pa Hl Ep). destruct (pa_refcount pa - 1 =? 0).
    - apply lookup_delete_Some in Hqa as [_ ?]. by apply (Hg q).
    - apply lookup_insert_Some in Hqa as [[<- <-]|[_ ?]]; [cbn; lia|by apply (Hg q)]. }
  set (w2 := if bool_decide (li_udp l = None) && (li_fd l >=? 0) then close_fd (li_fd l) (set_wk_accounts acc w1) else set_wk_accounts acc w1).
  exists w2. split; [done|].
  assert (wk_accounts w2 = acc /\ wk_udp w2 = wk_udp w1 /\ same_clients w w2) as (B1 & B2 & B3) by (unfold w2; destruct (_ && _); by repeat split; destruct S1).
  split; [|by rewrite B1]. apply (rebased_ok (with_listeners h (l :: ls)) _ cl cls ss w); try done.
  - intros x. cbn. destruct (Hh x). pose proof (port_held_nonneg ls x). pose proof (udp_held_nonneg ls x). lia.
  - by rewrite B1.
  - intros u. rewrite B2. pose proof (ro_udp _ _ _ R u) as Hv. cbn [he_udp with_listeners] in *. rewrite udp_held_cons in Hv. destruct (decide (li_udp l = Some u)) as [E|E].
    + rewrite bool_decide_eq_true_2 in Hv by done. pose proof (udp_held_nonneg ls u). destruct (Hh u).
      assert (0 <= tally (of_client w (udp_refs u) 0) (cl ++ wk_new w)) by (apply tally_nonneg, udp_refs_nonneg).
      destruct (wk_udp w !! u) as [s|] eqn:Es; [|cbn in Hv; lia]. rewrite (U2 u s E Es). cbn [fmap option_fmap option_map counted] in *.
      destruct (Z.eqb_spec (cu_refcount s - 1) 0); cbn; lia.
    + rewrite bool_decide_eq_false_2 in Hv by done. rewrite U1 by done. exact Hv.
  - intros u s Es Hpos. rewrite B2. destruct (decide (li_udp l = Some u)) as [E|E]; [|rewrite U1 by done; by exists s].
    rewrite (U2 u s E Es). pose proof (ro_udp _ _ _ R u) as Hv. rewrite Es in Hv. cbn [he_udp with_listeners fmap option_fmap option_map counted] in Hv. rewrite udp_held_cons, bool_decide_eq_true_2 in Hv by done.
    pose proof (udp_held_nonneg ls u). destruct (Hh u). destruct (Z.eqb_spec (cu_refcount s - 1) 0); [lia|]. by eexists.
Qed.

Lemma with_listeners_perm h ls ls' cl cls ss w :
  ls ≡ₚ ls' -> worker_ok (with_listeners h ls) cl cls ss w -> worker_ok (with_listeners h ls') cl cls ss w.
Proof.
  intros Hp. assert (forall (f : listen_t -> Z), sumz (map f ls') = sumz (map f ls)) as Hs.
  { intros f. induction Hp as [|x l1 l2 _ IH|x y l1|l1 l2 l3 _ IH1 _ IH2]; [done|cbn; unfold sumz in IH; lia|cbn; lia|congruence]. }
  apply worker_ok_held; intros; cbn [he_port he_udp he_filters with_listeners]; [unfold port_held; by rewrite Hs|unfold udp_held; by rewrite Hs|done].
Qed.

(** What is not about listeners and clients. *)
Definition same_rest (a a' : acceptor) : Prop := a'.(al_shutdown) = a.(al_shutdown) /\ a'.(al_said) = a.(al_said).

(** The listeners that are to go are released, the others stay. *)
Lemma free_listeners_spec h cl cls ss gone keep ls a :
  worker_ok (with_listeners h (ls ++ keep)) cl cls ss a.(al_worker) -> (forall x, 0 <= h.(he_port) x /\ 0 <= h.(he_udp) x) ->
  gauge_ok a.(al_worker).(wk_accounts) -> Forall (fun l => l.(li_portaccount) <> uplink_connects) ls ->
  exists a', free_listeners gone ls a = Some a' /\ a'.(al_listen) = List.filter (fun l => negb (gone l)) ls /\
    worker_ok (with_listeners h (a'.(al_listen) ++ keep)) cl cls ss a'.(al_worker) /\ gauge_ok a'.(al_worker).(wk_accounts) /\
    same_clients a.(al_worker) a'.(al_worker) /\ same_rest a a'.
Proof.
  revert keep a. induction ls as [|l ls IH]; intros keep a Hw Hh Hg Hp; cbn [free_listeners List.filter].
  { eexists. split; [done|]. split; [done|]. split; [exact Hw|]. split; [exact Hg|]. by repeat split. }
  apply list.Forall_cons_1 in Hp as [Hl Hp]. destruct (gone l); cbn [negb].
  - destruct (listener_release_spec h cl cls ss l (ls ++ keep) a.(al_worker)) as (w' & E & W1 & W2 & W3); [done..|].
    unfold listener_free. rewrite E. cbn [mbind option_bind].
    destruct (IH keep (set_al_worker w' a)) as (a' & E' & A1 & A2 & A3 & A4 & A5); [done..|].
    exists a'. split; [done|]. split; [done|]. split; [done|]. split; [done|]. split; [by eapply same_clients_trans|done].
  - destruct (IH (l :: keep) a) as (a' & E' & A1 & A2 & A3 & A4 & A5); [|done..|].
    { eapply with_listeners_perm; [|exact Hw]. cbn [Datatypes.app]. apply Permutation_middle. }
    rewrite E'. cbn [mbind option_bind]. eexists. split; [done|]. cbn [al_listen al_worker set_al_listen]. split; [by rewrite A1|]. split; [|done].
    eapply with_listeners_perm; [|exact A2]. cbn [Datatypes.app]. symmetry. apply Permutation_middle.
Qed.

Section Open.
Variable maxclients tick : Z.

(** The addresses of new structures are not in use. *)
Record fresh_opening (o : opening) (a : acceptor) : Prop := {
  fo_port : acc_count a.(al_worker).(wk_accounts) o.(op_port) = None /\ o.(op_port) <> uplink_connects;
  fo_udp : a.(al_worker).(wk_udp) !! o.(op_udp) = None
}.

(** The system goes along with a listener. *)
Record openable (o : opening) (lc : listen_config_t) : Prop := {
  on_socket : is_Some o.(op_socket);
  on_tls : o.(op_tls) = true;
  on_proto : (lc.(lc_ai).(ai_socktype), lc.(lc_ai).(ai_protocol)) = (SOCK_DGRAM, IPPROTO_UDP) \/
             (lc.(lc_ai).(ai_socktype), lc.(lc_ai).(ai_protocol)) = (SOCK_STREAM, IPPROTO_TCP)
}.

(** A listener as the configuration wants it. *)
Record configured (lc : listen_config_t) (l : listen_t) : Prop := {
  cg_id : l.(li_id) = lc.(lc_id);
  cg_flags : l.(li_client_flags) = lc.(lc_client_flags) /\ l.(li_hidden) = lc.(lc_hidden);
  cg_filters : l.(li_filters) = lc.(lc_filters);
  cg_acl : l.(li_acl) = acl_dup <$> lc.(lc_acl);
  cg_max : l.(li_clients_max) = lc.(lc_clients_max) \/ l.(li_clients_max) = Z.min lc.(lc_clients_max) maxclients
}.

Lemma open_listener_spec h cl cls ss o lc a :
  acceptor_ok h cl cls ss a -> fresh_opening o a -> openable o lc ->
  exists a' l, open_listener maxclients tick o lc a = Some (a', 0) /\ a'.(al_listen) = l :: a.(al_listen) /\ configured lc l /\
    acceptor_ok h cl cls ss a' /\ same_clients a.(al_worker) a'.(al_worker) /\ same_rest a a' /\
    (forall p, p <> o.(op_port) -> acc_count a'.(al_worker).(wk_accounts) p = acc_count a.(al_worker).(wk_accounts) p) /\
    (forall u, u <> o.(op_udp) -> a'.(al_worker).(wk_udp) !! u = a.(al_worker).(wk_udp) !! u).
Proof.
  intros [Hw Hh Hg Hp] [[Fp Fu] Fs] [[fd Ofd] Ot Opr]. unfold open_listener.
  set (w1 := set_wk_accounts _ _). set (a1 := set_al_worker w1 a). set (l0 := new_listener maxclients o lc).
  pose proof (wo_refs _ _ _ _ _ Hw) as R.
  pose proof (ro_port _ _ _ R o.(op_port)) as Hcp. change (pa_refcount <$> ac_ports (wk_accounts (al_worker a)) !! op_port o) with (acc_count (wk_accounts (al_worker a)) (op_port o)) in Hcp.
  rewrite Fp in Hcp. cbn [counted] in Hcp. pose proof (ro_udp _ _ _ R o.(op_udp)) as Hcu. rewrite Fs in Hcu. cbn [fmap option_fmap option_map counted] in Hcu.
  assert (forall p, acc_count (wk_accounts w1) p = if decide (p = o.(op_port)) then Some 1 else acc_count (wk_accounts (al_worker a)) p) as Hacc.
  { intros p. unfold acc_count, w1. cbn [wk_accounts set_wk_accounts ac_ports set_ac_ports]. destruct (decide (p = op_port o)) as [->|]; [by rewrite lookup_insert_eq|by rewrite lookup_insert_ne]. }
  assert (gauge_ok (wk_accounts w1)) as Hg1.
  { intros p pa Hne Hpa. unfold w1 in Hpa. cbn [wk_accounts set_wk_accounts ac_ports set_ac_ports] in Hpa. apply lookup_insert_Some in Hpa as [[<- <-]|[_ ?]]; [done|by apply (Hg p)]. }
  assert (exists udp l a2, (if ai_socktype (lc_ai lc) =? SOCK_DGRAM then open_udp_listener o lc l0 a1 else open_tcp_listener o l0 a1) = Some (l, a2) /\
    (l.(li_portaccount) = o.(op_port) /\ l.(li_id) = lc.(lc_id) /\ l.(li_client_flags) = lc.(lc_client_flags) /\ l.(li_hidden) = lc.(lc_hidden) /\ l.(li_clients_max) = Z.min lc.(lc_clients_max) maxclients) /\
    a2.(al_listen) = a.(al_listen) /\ a2.(al_worker) = set_wk_udp udp w1 /\ same_rest a a2 /\
    (forall u, u <> o.(op_udp) -> udp !! u = a.(al_worker).(wk_udp) !! u) /\
    (cu_refcount <$> udp !! o.(op_udp)) = (if bool_decide (l.(li_udp) = Some o.(op_udp)) then Some 1 else None) /\ (forall u, u <> o.(op_udp) -> l.(li_udp) <> Some u))
    as (udp & l & a2 & E & (L1 & L2 & L3 & L4 & L5) & E2 & E3 & E4 & U1 & U2 & U3).
  { destruct Opr as [[= -> _]|[= -> _]]; cbn [Z.eqb Pos.eqb].
    - change (SOCK_DGRAM =? SOCK_DGRAM) with true. cbv iota. unfold open_udp_listener. rewrite Ofd. unfold client_udp_alloc. cbv beta zeta iota. eexists _, _, _. split; [done|].
      split; [done|]. split; [done|]. split; [done|]. split; [done|]. cbn [wk_udp set_wk_udp li_udp set_li_socket]. split; [|split].
      + intros u Hu. by rewrite !lookup_insert_ne by done.
      + rewrite lookup_insert_eq, bool_decide_eq_true_2 by done. done.
      + intros u Hu [= E]. by destruct Hu.
    - change (SOCK_STREAM =? SOCK_DGRAM) with false. cbv iota. unfold open_tcp_listener. rewrite Ofd. exists (wk_udp (al_worker a)). eexists _, _. split; [done|].
      split; [done|]. split; [done|]. split; [by destruct a as [? []]|]. split; [done|]. cbn [li_udp set_li_socket]. split; [done|]. split; [|done].
      by rewrite Fs, bool_decide_eq_false_2. }
  assert ((ai_socktype (lc_ai lc) =? SOCK_DGRAM) && (ai_protocol (lc_ai lc) =? IPPROTO_UDP) || (ai_socktype (lc_ai lc) =? SOCK_STREAM) && (ai_protocol (lc_ai lc) =? IPPROTO_TCP) = true) as ->
    by (by destruct Opr as [[= -> ->]|[= -> ->]]).
  rewrite E, Ot, andb_false_r. eexists _, _. split; [done|]. cbn [al_listen al_worker set_al_listen]. split; [by rewrite E2|].
  split; [split; [done..|by right]|]. rewrite E3.
  assert (same_clients (al_worker a) (set_wk_udp udp w1)) as Hsc by (by repeat split).
  split; [|split; [done|]; split; [by destruct E4|]; split].
  - split; cbn [al_listen al_worker set_al_listen]; rewrite ?E3; try done.
    + apply (rebased_ok (with_listeners h (al_listen a)) _ cl cls ss (al_worker a)); try done.
      * intros x. cbn [he_port he_udp with_listeners]. set (l' := listener_copy_filters _ _). pose proof (port_held_nonneg (l' :: al_listen a2) x). pose proof (udp_held_nonneg (l' :: al_listen a2) x). destruct (Hh x). lia.
      * intros p. cbn [wk_accounts set_wk_udp he_port with_listeners]. rewrite Hacc, port_held_cons. cbn [li_portaccount listener_copy_filters set_li_rest]. rewrite L1, E2.
        destruct (decide (p = op_port o)) as [->|Hne].
        -- rewrite Z.eqb_refl. cbn [he_port with_listeners] in Hcp. cbn [counted]. lia.
        -- rewrite (proj2 (Z.eqb_neq (op_port o) p)) by congruence. apply (ro_port _ _ _ R).
      * intros u. cbn [wk_udp set_wk_udp he_udp with_listeners]. rewrite udp_held_cons. cbn [li_udp listener_copy_filters set_li_rest]. rewrite E2.
        destruct (decide (u = op_udp o)) as [->|Hne].
        -- rewrite U2. cbn [he_udp with_listeners] in Hcu. destruct (bool_decide (li_udp l = Some (op_udp o))); cbn [counted]; lia.
        -- rewrite U1 by done. rewrite bool_decide_eq_false_2 by (by apply U3). apply (ro_udp _ _ _ R).
      * intros u s Hs _. cbn [wk_udp set_wk_udp]. rewrite U1; [by exists s|]. intros ->. congruence.
    + rewrite E2. constructor; [|done]. cbn [li_portaccount listener_copy_filters set_li_rest]. by rewrite L1.
  - intros p Hne. cbn [wk_accounts set_wk_udp]. by rewrite Hacc, decide_False.
  - done.
Qed.

Lemma on_listener_spec id f ls ls' :
  on_listener id f ls = Some ls' -> exists ls1 l ls2, ls = ls1 ++ l :: ls2 /\ l.(li_id) = id /\ ls' = ls1 ++ f l :: ls2.
Proof.
  revert ls'. induction ls as [|l ls IH]; intros ls' E; cbn [on_listener] in E; [done|]. destruct (Z.eqb_spec (li_id l) id) as [Hid|Hid].
  - injection E as <-. by exists [], l, ls.
  - destruct (on_listener id f ls) as [x|]; [|done]. injection E as <-. destruct (IH x eq_refl) as (ls1 & y & ls2 & -> & H1 & ->). by exists (l :: ls1), y, ls2.
Qed.

Lemma on_listener_none id f ls : on_listener id f ls = None -> id ∉ map li_id ls.
Proof.
  induction ls as [|l ls IH]; cbn [on_listener map]; [intros _; apply not_elem_of_nil|]. destruct (Z.eqb_spec (li_id l) id) as [Hid|Hid]; [done|].
  destruct (on_listener id f ls); [done|]. intros _. apply not_elem_of_cons. split; [congruence|by apply IH].
Qed.

(** All openings are for new addresses. *)
Record fresh_openings (os : list opening) (a : acceptor) : Prop := {
  fs_each : Forall (fun o => fresh_opening o a) os;
  fs_ports : NoDup (map op_port os);
  fs_udps : NoDup (map op_udp os)
}.

Lemma update_ok h cl cls ss ls1 l l' ls2 a :
  acceptor_ok h cl cls ss a -> a.(al_listen) = ls1 ++ l :: ls2 -> l'.(li_portaccount) = l.(li_portaccount) -> l'.(li_udp) = l.(li_udp) ->
  acceptor_ok h cl cls ss (set_al_listen (ls1 ++ l' :: ls2) a).
Proof.
  intros [Hw Hh Hg Hp] E E1 E2. rewrite E in *. split; cbn [al_listen al_worker set_al_listen]; try done.
  - assert (forall (f : listen_t -> Z), f l' = f l -> sumz (map f (ls1 ++ l' :: ls2)) = sumz (map f (ls1 ++ l :: ls2))) as Hs by (intros f Hf; rewrite !map_app; cbn [map]; by rewrite Hf).
    eapply worker_ok_held; [..|exact Hw]; intros; cbn [he_port he_udp he_filters with_listeners]; try done; unfold port_held, udp_held; by rewrite Hs by (cbv beta; by rewrite ?E1, ?E2).
  - apply Forall_app in Hp as [? [? ?]%list.Forall_cons_1]. apply Forall_app. split; [done|]. constructor; [congruence|done].
Qed.

(** The listener is still the same one. *)
Definition same_socket (l l' : listen_t) : Prop :=
  (l'.(li_id), l'.(li_listener_id), l'.(li_fd), l'.(li_udp), l'.(li_portaccount), l'.(li_ssl)) =
  (l.(li_id), l.(li_listener_id), l.(li_fd), l.(li_udp), l.(li_portaccount), l.(li_ssl)).

Lemma open_missing_spec h cl cls ss config : forall os a failed,
  acceptor_ok h cl cls ss a -> NoDup (map li_id a.(al_listen)) -> NoDup (map lc_id config) -> fresh_openings os a -> (length config <= length os)%nat ->
  (forall o lc, o ∈ os -> lc ∈ config -> openable o lc) ->
  exists a', open_missing_listeners maxclients tick config os a failed = Some (a', failed) /\ acceptor_ok h cl cls ss a' /\ NoDup (map li_id a'.(al_listen)) /\
    (forall id, id ∈ map li_id a'.(al_listen) <-> id ∈ map li_id a.(al_listen) \/ id ∈ map lc_id config) /\
    (forall lc, lc ∈ config -> exists l, l ∈ a'.(al_listen) /\ configured lc l) /\
    (forall l, l ∈ a.(al_listen) -> l.(li_id) ∉ map lc_id config -> l ∈ a'.(al_listen)) /\
    (forall l, l ∈ a.(al_listen) -> exists l', l' ∈ a'.(al_listen) /\ same_socket l l') /\ same_clients a.(al_worker) a'.(al_worker) /\ same_rest a a'.
Proof.
  induction config as [|lc config IH]; intros os a failed Hok Hnd Hcd Hfr Hlen Hop; cbn [open_missing_listeners].
  { exists a. split; [done|]. split; [done|]. split; [done|]. split; [|split; [|split; [done|]]].
    - intros id. split; [by left|]. intros [?|Hx]; [done|by apply elem_of_nil in Hx].
    - intros lc Hx. by apply elem_of_nil in Hx.
    - split; [intros l Hl; by exists l|]. by repeat split. }
  cbn [map] in Hcd. apply list.NoDup_cons in Hcd as [Hnin Hcd].
  destruct (on_listener (lc_id lc) (listener_update_config lc) (al_listen a)) as [ls|] eqn:Eo.
  - apply on_listener_spec in Eo as (ls1 & l & ls2 & El & Hid & ->). set (l' := listener_update_config lc l) in *.
    pose proof (update_ok h cl cls ss ls1 l l' ls2 a Hok El eq_refl eq_refl) as Hok'.
    assert (map li_id (ls1 ++ l' :: ls2) = map li_id (al_listen a)) as Hids by (rewrite El, !map_app; done).
    destruct (IH os (set_al_listen (ls1 ++ l' :: ls2) a) failed) as (a' & E & A1 & A2 & A3 & A4 & A5 & A8 & A6 & A7); try done.
    { cbn [al_listen set_al_listen]. by rewrite Hids. }
    { destruct Hfr as [F1 F2 F3]. split; [|done|done]. eapply list.Forall_impl; [exact F1|]. by intros o [? ?]. }
    { cbn in Hlen. lia. }
    { intros o c Ho Hc. apply Hop; [done|by right]. }
    cbn [al_listen set_al_listen] in A3, A5, A8. rewrite Hids in A3. exists a'. split; [done|]. split; [done|]. split; [done|]. split; [|split; [|split; [|split; [|done]]]].
    + intros id. rewrite A3. cbn [map]. rewrite elem_of_cons. split; [tauto|]. intros [?|[->|?]]; [by left| |by right].
      left. rewrite El, <- Hid. apply list_elem_of_fmap_2, elem_of_app. right. left.
    + intros c [->|Hc]%elem_of_cons; [|by apply A4]. exists l'. split; [|split; [exact Hid|done|done|done|by left]].
      apply A5; [apply elem_of_app; right; left|]. unfold l'. cbn [listener_update_config listener_copy_filters li_id]. by rewrite Hid.
    + intros x Hx Hxid. cbn [map] in Hxid. apply not_elem_of_cons in Hxid as [Hx1 Hx2]. apply A5; [|done].
      rewrite El in Hx. apply elem_of_app in Hx as [Hx|[->|Hx]%elem_of_cons]; [apply elem_of_app; by left|congruence|apply elem_of_app; right; by right].
    + intros x Hx. rewrite El in Hx. apply elem_of_app in Hx as [Hx|[->|Hx]%elem_of_cons]; [|apply (A8 l'), elem_of_app; right; left|]; apply A8, elem_of_app; [by left|right; by right].
  - destruct os as [|o os]; [cbn in Hlen; lia|]. destruct Hfr as [F1 F2 F3]. apply list.Forall_cons_1 in F1 as [Fo F1]. cbn [map] in F2, F3.
    apply list.NoDup_cons in F2 as [F2n F2]. apply list.NoDup_cons in F3 as [F3n F3]. apply on_listener_none in Eo.
    destruct (open_listener_spec h cl cls ss o lc a Hok Fo) as (a1 & l & E1 & L1 & L2 & L3 & L4 & L5 & L6 & L7); [apply Hop; left|].
    rewrite E1. cbn [mbind option_bind Z.eqb].
    destruct (IH os a1 failed) as (a' & E & A1 & A2 & A3 & A4 & A5 & A8 & A6 & A7); try done.
    { rewrite L1. cbn [map]. apply list.NoDup_cons. split; [|done]. by rewrite (cg_id _ _ L2). }
    { split; [|done|done]. apply list.Forall_forall. intros x Hx. pose proof (proj1 (list.Forall_forall _ _) F1 x Hx) as [[X1 X2] X3].
      split; [split; [|done]|].
      - rewrite L6; [done|]. intros E'. apply F2n. rewrite <- E'. by apply list_elem_of_fmap_2.
      - rewrite L7; [done|]. intros E'. apply F3n. rewrite <- E'. by apply list_elem_of_fmap_2. }
    { cbn in Hlen. lia. }
    { intros x c Hx Hc. apply Hop; by right. }
    rewrite L1 in A3, A5, A8. cbn [map] in A3. exists a'. split; [done|]. split; [done|]. split; [done|]. split; [|split; [|split; [|split]]].
    + intros id. rewrite A3. cbn [map]. rewrite !elem_of_cons, (cg_id _ _ L2). tauto.
    + intros c [->|Hc]%elem_of_cons; [|by apply A4]. exists l. split; [|done]. apply A5; [left|]. by rewrite (cg_id _ _ L2).
    + intros x Hx Hxid. cbn [map] in Hxid. apply not_elem_of_cons in Hxid as [Hx1 Hx2]. apply A5; [by right|done].
    + intros x Hx. apply A8. by right.
    + split; [by eapply same_clients_trans|]. destruct L5, A7. split; congruence.
Qed.

(** The sockets that are shut down: of the clients that may not stay. *)
Definition unwelcome (a : acceptor) (ids : list Z) : list Z :=
  List.concat (map (fun id => match a.(al_worker).(wk_store) !! id with
    | Some c => if may_stay a.(al_listen) c then [] else [c.(wc_client).(c_fd)] | None => [] end) ids).

Lemma rescan_loop_spec rest : forall n before a,
  seg a.(al_worker).(wk_list) (AtHead tt) (before ++ rest) -> (forall id, id ∈ rest -> is_Some (a.(al_worker).(wk_store) !! id)) -> (length rest <= n)%nat ->
  exists a', rescan_loop n (head rest) a = Some a' /\ a'.(al_listen) = a.(al_listen) /\ a'.(al_worker) = a.(al_worker) /\
    a'.(al_shutdown) = a.(al_shutdown) ++ unwelcome a rest.
Proof.
  induction rest as [|id rest IH]; intros n before a Hs Hst Hn.
  { exists a. split; [by destruct n|]. split; [done|]. split; [done|]. cbn. by rewrite app_nil_r. }
  destruct n as [|n]; [cbn in Hn; lia|]. cbn [head rescan_loop]. destruct (Hst id) as [c Hc]; [left|]. rewrite Hc. cbn [mbind option_bind].
  pose proof (seg_pred _ _ _ _ _ Hs) as [_ Hnext]. cbn [load]. rewrite Hnext. cbn [mbind option_bind].
  unfold unwelcome. cbn [map List.concat]. fold (unwelcome a rest). rewrite Hc.
  set (a1 := if may_stay (al_listen a) c then a else al_shut (c_fd (wc_client c)) a).
  assert (al_listen a1 = al_listen a /\ al_worker a1 = al_worker a) as [E1 E2] by (unfold a1; by destruct (may_stay _ _)).
  destruct (IH n (before ++ [id]) a1) as (a' & E & A1 & A2 & A3).
  - rewrite E2, <- app_assoc. done.
  - intros i Hi. rewrite E2. apply Hst. by right.
  - cbn in Hn. lia.
  - exists a'. split; [done|]. split; [congruence|]. split; [congruence|]. rewrite A3. unfold unwelcome. rewrite E1, E2. unfold a1. destruct (may_stay _ _); cbn [al_shutdown al_shut]; by rewrite <- ?app_assoc.
Qed.

Lemma rescan_spec h cl cls ss a :
  acceptor_ok h cl cls ss a ->
  exists a', rescan_client_acls a = Some a' /\ a'.(al_listen) = a.(al_listen) /\ a'.(al_worker) = a.(al_worker) /\ a'.(al_shutdown) = a.(al_shutdown) ++ unwelcome a cl.
Proof.
  intros [Hw _ _ _]. pose proof (wo_lists _ _ _ _ _ Hw) as L. pose proof (ls_seg _ _ (lo_list _ _ _ L) tt) as Hs. unfold rescan_client_acls.
  assert (load (AtHead tt) (wk_list (al_worker a)) = Some (head cl)) as -> by (destruct cl; cbn [seg] in Hs; [done|by destruct Hs]).
  cbn [mbind option_bind]. apply (rescan_loop_spec cl _ []); [done| |rewrite (lo_count _ _ _ L); unfold zlen; lia].
  intros id Hid. apply (lo_store _ _ _ L), elem_of_app. by left.
Qed.

Lemma unwelcome_elem a cl fd :
  fd ∈ unwelcome a cl <-> exists id c, id ∈ cl /\ a.(al_worker).(wk_store) !! id = Some c /\ may_stay a.(al_listen) c = false /\ fd = c.(wc_client).(c_fd).
Proof.
  induction cl as [|id cl IH]; unfold unwelcome; cbn [map List.concat].
  - split; [by intros ?%elem_of_nil|]. by intros (? & ? & ?%elem_of_nil & _).
  - fold (unwelcome a cl). rewrite elem_of_app, IH. split.
    + intros [Hfd|(i & c & Hi & Hrest)]; [|exists i, c; split; [by right|done]].
      destruct (wk_store (al_worker a) !! id) as [c|] eqn:Ec; [|by apply elem_of_nil in Hfd]. destruct (may_stay _ _) eqn:Em; [by apply elem_of_nil in Hfd|].
      apply list_elem_of_singleton in Hfd. exists id, c. split; [left|done].
    + intros (i & c & [->|Hi]%elem_of_cons & Hc & Hm & ->); [|right; by exists i, c]. left. rewrite Hc, Hm. by apply list_elem_of_singleton.
Qed.

Lemma close_removed_spec h cl cls ss config a :
  acceptor_ok h cl cls ss a ->
  exists a', close_removed_listeners config a = Some a' /\ acceptor_ok h cl cls ss a' /\
    a'.(al_listen) = List.filter (fun l => negb (bool_decide (find_listen_config_id config l.(li_id) = None))) a.(al_listen) /\
    same_clients a.(al_worker) a'.(al_worker) /\ same_rest a a'.
Proof.
  intros [Hw Hh Hg Hp]. unfold close_removed_listeners.
  destruct (free_listeners_spec h cl cls ss (fun l => bool_decide (find_listen_config_id config (li_id l) = None)) [] (al_listen a) a) as (a' & E & A1 & A2 & A3 & A4 & A5);
    [by rewrite app_nil_r|done..|].
  rewrite app_nil_r in A2. exists a'. split; [done|]. split; [|done]. split; try done.
  rewrite A1. apply list.Forall_forall. intros l Hl. apply list_elem_of_In, filter_In in Hl as [Hl _]. apply list_elem_of_In in Hl. by apply (proj1 (list.Forall_forall _ _) Hp).
Qed.

Lemma map_filter_NoDup {A} (f : A -> Z) (P : A -> bool) l : NoDup (map f l) -> NoDup (map f (List.filter P l)).
Proof.
  induction l as [|x l IH]; cbn [map List.filter]; [done|]. intros [Hx Hl]%list.NoDup_cons. destruct (P x); [|by apply IH]. cbn [map]. apply list.NoDup_cons. split; [|by apply IH].
  intros (y & E & Hy)%list_elem_of_fmap. apply Hx. rewrite E. apply list_elem_of_fmap_2. by apply list_elem_of_In, filter_In in Hy as [Hy%list_elem_of_In _].
Qed.

Lemma find_config_none config id : find_listen_config_id config id = None <-> id ∉ map lc_id config.
Proof.
  unfold find_listen_config_id. induction config as [|lc config IH]; cbn [List.find map]; [split; [intros _; apply not_elem_of_nil|done]|].
  rewrite not_elem_of_cons. destruct (Z.eqb_spec (lc_id lc) id) as [->|Hne]; [by split; [|intros [? _]]|]. rewrite IH. split; [done|by intros [_ ?]].
Qed.

Lemma reconfigure_spec h cl cls ss config os a :
  acceptor_ok h cl cls ss a -> NoDup (map li_id a.(al_listen)) -> NoDup (map lc_id config) -> (length config <= length os)%nat ->
  (forall a1, close_removed_listeners config a = Some a1 -> fresh_openings os a1) -> (forall o lc, o ∈ os -> lc ∈ config -> openable o lc) ->
  exists a', reconfigure_listeners maxclients tick config os a = Some a' /\ acceptor_ok h cl cls ss a' /\
    map li_id a'.(al_listen) ≡ₚ map lc_id config /\ (forall lc, lc ∈ config -> exists l, l ∈ a'.(al_listen) /\ configured lc l) /\
    (forall l, l ∈ a.(al_listen) -> l.(li_id) ∈ map lc_id config -> exists l', l' ∈ a'.(al_listen) /\ same_socket l l') /\
    same_clients a.(al_worker) a'.(al_worker) /\
    exists fds, a'.(al_shutdown) = a.(al_shutdown) ++ fds /\
      forall fd, fd ∈ fds <-> exists id c, id ∈ cl /\ a.(al_worker).(wk_store) !! id = Some c /\ may_stay a'.(al_listen) c = false /\ fd = c.(wc_client).(c_fd).
Proof.
  intros Hok Hnd Hcd Hlen Hfr Hop. unfold reconfigure_listeners.
  destruct (close_removed_spec h cl cls ss config a Hok) as (a1 & E1 & Hok1 & L1 & S1 & R1). rewrite E1. cbn [mbind option_bind].
  assert (NoDup (map li_id (al_listen a1))) as Hnd1 by (rewrite L1; by apply map_filter_NoDup).
  destruct (open_missing_spec h cl cls ss config os a1 0 Hok1 Hnd1 Hcd (Hfr a1 E1) Hlen Hop) as (a2 & E2 & Hok2 & N2 & I2 & C2 & _ & K2 & S2 & R2).
  rewrite E2. cbn [mbind option_bind Z.gtb Z.compare]. destruct (rescan_spec h cl cls ss a2 Hok2) as (a3 & E3 & L3 & W3 & D3).
  exists a3. split; [done|]. split; [by destruct Hok2; split; rewrite ?L3, ?W3|]. rewrite L3, W3. split; [|split; [done|]; split; [|split; [by eapply same_clients_trans|]]].
  - apply NoDup_Permutation; [done|done|]. intros id. rewrite I2. split; [|by right]. intros [Hid|?]; [|done].
    rewrite L1 in Hid. apply list_elem_of_fmap in Hid as (l & -> & Hl). apply list_elem_of_In, filter_In in Hl as [_ Hl].
    apply negb_true_iff, bool_decide_eq_false in Hl. destruct (decide (li_id l ∈ map lc_id config)); [done|]. destruct Hl. by apply find_config_none.
  - intros l Hl Hid. apply K2. rewrite L1. apply list_elem_of_In, filter_In. split; [by apply list_elem_of_In|].
    apply negb_true_iff, bool_decide_eq_false. intros Hn. by apply find_config_none in Hn.
  - exists (unwelcome a2 cl). rewrite D3. destruct R1 as [R1 _], R2 as [R2 _]. rewrite R2, R1. split; [done|]. intros fd. rewrite unwelcome_elem.
    destruct (same_clients_trans _ _ _ S1 S2) as [Es _]. injection Es as -> _ _ _ _. done.
Qed.

(** C17: After a new configuration is read, the listeners that are open are exactly those it names, each with the limits, the flags,
    the filters and the access list the configuration gives it; old listeners keep their sockets; the clients that are shut down are exactly those that came
    in through a listener that is gone or that no longer allows their address; no client is lost, and every reference to an account or a
    socket stays counted.  (It is assumed that the sockets of new listeners can be opened: the program ends otherwise.) *)
Theorem listeners_follow_config h cl cls ss config os a :
  acceptor_ok h cl cls ss a -> NoDup (map li_id a.(al_listen)) -> NoDup (map lc_id config) -> (length config <= length os)%nat ->
  (forall a1, close_removed_listeners config a = Some a1 -> fresh_openings os a1) -> (forall o lc, o ∈ os -> lc ∈ config -> openable o lc) ->
  exists a', reconfigure_listeners maxclients tick config os a = Some a' /\ acceptor_ok h cl cls ss a' /\
    map li_id a'.(al_listen) ≡ₚ map lc_id config /\ (forall lc, lc ∈ config -> exists l, l ∈ a'.(al_listen) /\ configured lc l) /\
    (forall l, l ∈ a.(al_listen) -> l.(li_id) ∈ map lc_id config -> exists l', l' ∈ a'.(al_listen) /\ same_socket l l') /\
    same_clients a.(al_worker) a'.(al_worker) /\
    exists fds, a'.(al_shutdown) = a.(al_shutdown) ++ fds /\
      forall fd, fd ∈ fds <-> exists id c, id ∈ cl /\ a.(al_worker).(wk_store) !! id = Some c /\ may_stay a'.(al_listen) c = false /\ fd = c.(wc_client).(c_fd).
Proof. apply reconfigure_spec. Qed.
End Open.

(** ** Witnesses *)

Definition demo_ai (port : string) : addrinfo := mk_ai AF_INET SOCK_STREAM IPPROTO_TCP (Inet 0) 14580 (str "0.0.0.0:" ++ str port).
Definition demo_lc (id : Z) (port : string) (n : Z) : listen_config_t :=
  mk_lc id (str "tcp") (str "Client port") (str "0.0.0.0") n 2 false false None None None None (demo_ai port) (Some acl_new) [Some (str "t/m")] CLFLAGS_INPORT.
Definition demo_opening (fd port udp : Z) : opening := mk_opening (Some fd) true port udp.
Definition demo_listener : listen_t := listener_copy_filters (demo_lc 1 "14580" 14580) (set_li_socket 4 None (new_listener 500 (demo_opening 4 5 8) (demo_lc 1 "14580" 14580))).

Definition demo_acceptor : acceptor :=
  mk_acceptor [demo_listener]
    (mk_wk ∅ (mk_links ∅ ∅ ∅) (mk_links ∅ ∅ ∅) 0 [] [] (mk_accounts {[5 := port_accounter_alloc]} (account_zero 1) (account_zero 1) (account_zero 1)) ∅ ∅ 0 [] [])
    [] [] 0 [] [].

Definition demo_no_held : held := mk_held (fun _ => 0) (fun _ => 0) 0.

Lemma demo_acceptor_ok : acceptor_ok demo_no_held [] (fun _ => []) [] demo_acceptor.
Proof.
  split; cbn [al_listen al_worker demo_acceptor]; try done.
  - split.
    + split; cbn [wk_list wk_class wk_store wk_new wk_count]; try done; try by (intros ? ?%elem_of_nil || intros ? ? ?%elem_of_nil || intros ? ? ? ?%elem_of_nil).
      * apply lists_none.
      * apply lists_none.
      * apply NoDup_nil_2.
      * intros i [x Hx]. done.
      * intros i [x Hx]. done.
    + split; cbn [wk_store wk_new wk_accounts wk_udp wk_gauge demo_no_held he_port he_udp he_filters with_listeners]; try done.
      * intros x. pose proof (port_held_nonneg [demo_listener] x). pose proof (udp_held_nonneg [demo_listener] x). lia.
      * intros p. rewrite port_held_cons. cbn [ac_ports li_portaccount demo_listener]. destruct (Z.eqb_spec (li_portaccount demo_listener) p) as [<-|Hne].
        -- by vm_compute.
        -- rewrite lookup_singleton_ne by (vm_compute in Hne; congruence). done.
    + split; cbn [wk_store wk_table]; try done; try apply represents_empty; try apply NoDup_nil_2; by intros ? ?%elem_of_nil.
  - intros p pa _ Hpa. cbn [wk_accounts ac_ports] in Hpa. apply lookup_singleton_Some in Hpa as [_ <-]. done.
  - by repeat constructor.
Qed.

Definition demo_arrival : arrival := mk_arrival 7 (Inet 0x7F000001) (Some 1) [] true true.


(** The listener is removed, another one takes its place. *)
Lemma listeners_follow_config_witness :
  exists a', reconfigure_listeners 500 100 [demo_lc 2 "8080" 8080] [demo_opening 9 6 8] demo_acceptor = Some a' /\ map li_id a'.(al_listen) ≡ₚ [2].
Proof.
  destruct (listeners_follow_config 500 100 demo_no_held [] (fun _ => []) [] [demo_lc 2 "8080" 8080] [demo_opening 9 6 8] demo_acceptor demo_acceptor_ok)
    as (a' & E & _ & Hp & _).
  - apply NoDup_singleton.
  - apply NoDup_singleton.
  - cbn. lia.
  - intros a1 E1. vm_compute in E1. injection E1 as <-. split; [|apply NoDup_singleton|apply NoDup_singleton].
    constructor; [|constructor]. split; [split; [reflexivity|discriminate]|reflexivity].
  - intros o lc Ho%list_elem_of_singleton Hl%list_elem_of_singleton. subst o lc. split; [eexists; reflexivity|reflexivity|right; reflexivity].
  - exists a'. split; [exact E|exact Hp].
Defined.
