(* ===== verification/Config.v ===== *)
(** * config.c: the directives of the configuration and their installation

    Directives change global variables: most of them a variable [new_...] that [read_config]
    installs when the whole file was read.  The variables are a store here, indexed by what the table
    of directives has as their address ([int_var] and the like); the lists of listeners, uplinks, peers and HTTP
    ports are members of [globals].

    The resolver, the files of access lists, [random] and the test for a directory are parameters.
    Undefined behaviour is [None]: an [int] that overflows, or an argument that is not there. *)

From S2P Require Import Prelude Types Cfgfile Acl ParseQc Filter FilterParse Login.
From S2P Require Import Newclient Accounting Accept Uplink.
From Stdlib Require Import ZArith Lia Bool String SpecFloat.
From stdpp Require Import base tactics list numbers functions.
Open Scope Z_scope.

(** ** Variables *)

Inductive int_var : Set :=
  | WorkersConfigured | StatsInterval | ExpiryInterval | LastpositionStoretime | UpstreamTimeout | ClientTimeout | ClientLoginTimeout
  | NewFilenoLimit | Maxclients | IbufSize | ObufSize | LogRotateSize | LogRotateNum.
Inductive str_var : Set :=
  | NewRundir | Rundir | NewServerid | Serverid | NewPasscode | Passcode | NewMyemail | Myemail | NewMyadmin | Myadmin
  | NewHttpStatusOptions | HttpStatusOptions | NewFakeVersion | FakeVersion | LogDir | Logname | Pidfile.
Inductive arr_var : Set :=
  | NewDisallowLogin | DisallowLogin | NewDisallowSrccall | DisallowSrccall | NewDisallowIgate | DisallowIgate.
Inductive bool_var : Set := DisallowOtherProtocolId | DisallowUnverified | QuirksMode | ListenLowPorts | UplinkConfigUpdated.

#[export] Instance int_var_dec : EqDecision int_var.
Proof. solve_decision. Defined.
#[export] Instance str_var_dec : EqDecision str_var.
Proof. solve_decision. Defined.
#[export] Instance arr_var_dec : EqDecision arr_var.
Proof. solve_decision. Defined.
#[export] Instance bool_var_dec : EqDecision bool_var.
Proof. solve_decision. Defined.

Record http_config_t := mk_http { hc_host : list Z; hc_port : Z; hc_upload_port : bool }.

(** The members of a listener that options set. *)
Record listen_opts := mk_lopts {
  lo_filters : list (option (list Z));
  lo_clients_max : Z;
  lo_acl : option acl_t;
  lo_keyfile : option (list Z);
  lo_certfile : option (list Z);
  lo_cafile : option (list Z);
  lo_crlfile : option (list Z);
  lo_hidden : bool
}.

(** The lists of what is configured: as they are being read, and as they are in use.  An empty list
    is the null pointer. *)
Record globals := mk_globals {
  g_int : int_var -> Z;
  g_str : str_var -> option (list Z);
  g_arr : arr_var -> option (list (list Z));
  g_bool : bool_var -> bool;
  g_q_protocol_id : Z;
  g_listen_new : list listen_config_t;
  g_listen : list listen_config_t;
  g_uplink_new : list uplink_config_t;
  g_uplink_install : list uplink_config_t;
  g_peer_new : list peerip_config_t;
  g_peer : list peerip_config_t;
  g_http_new : list http_config_t;
  g_http : list http_config_t;
  g_bind_v4 : option sockaddr;
  g_bind_v6 : option sockaddr;
  g_randoms : nat
}.

(** Everything but the lists. *)
Definition set_g_vars (i : int_var -> Z) (s : str_var -> option (list Z)) (a : arr_var -> option (list (list Z))) (b : bool_var -> bool) (q : Z) (g : globals) : globals :=
  mk_globals i s a b q g.(g_listen_new) g.(g_listen) g.(g_uplink_new) g.(g_uplink_install) g.(g_peer_new) g.(g_peer) g.(g_http_new) g.(g_http)
    g.(g_bind_v4) g.(g_bind_v6) g.(g_randoms).
Definition set_int (v : int_var) (n : Z) (g : globals) : globals := set_g_vars (<[v := n]> g.(g_int)) g.(g_str) g.(g_arr) g.(g_bool) g.(g_q_protocol_id) g.
Definition set_str (v : str_var) (s : option (list Z)) (g : globals) : globals := set_g_vars g.(g_int) (<[v := s]> g.(g_str)) g.(g_arr) g.(g_bool) g.(g_q_protocol_id) g.
Definition set_arr (v : arr_var) (a : option (list (list Z))) (g : globals) : globals := set_g_vars g.(g_int) g.(g_str) (<[v := a]> g.(g_arr)) g.(g_bool) g.(g_q_protocol_id) g.
Definition set_bool (v : bool_var) (b : bool) (g : globals) : globals := set_g_vars g.(g_int) g.(g_str) g.(g_arr) (<[v := b]> g.(g_bool)) g.(g_q_protocol_id) g.
Definition set_qproto (c : Z) (g : globals) : globals := set_g_vars g.(g_int) g.(g_str) g.(g_arr) g.(g_bool) c g.

Definition set_g_lists (ln l : list listen_config_t) (un ui : list uplink_config_t) (pn p : list peerip_config_t) (hn h : list http_config_t)
    (b4 b6 : option sockaddr) (r : nat) (g : globals) : globals :=
  mk_globals g.(g_int) g.(g_str) g.(g_arr) g.(g_bool) g.(g_q_protocol_id) ln l un ui pn p hn h b4 b6 r.
Definition set_listen (ln l : list listen_config_t) (r : nat) (g : globals) : globals :=
  set_g_lists ln l g.(g_uplink_new) g.(g_uplink_install) g.(g_peer_new) g.(g_peer) g.(g_http_new) g.(g_http) g.(g_bind_v4) g.(g_bind_v6) r g.
Definition set_uplink (un ui : list uplink_config_t) (g : globals) : globals :=
  set_g_lists g.(g_listen_new) g.(g_listen) un ui g.(g_peer_new) g.(g_peer) g.(g_http_new) g.(g_http) g.(g_bind_v4) g.(g_bind_v6) g.(g_randoms) g.
Definition set_peer (pn p : list peerip_config_t) (g : globals) : globals :=
  set_g_lists g.(g_listen_new) g.(g_listen) g.(g_uplink_new) g.(g_uplink_install) pn p g.(g_http_new) g.(g_http) g.(g_bind_v4) g.(g_bind_v6) g.(g_randoms) g.
Definition set_http (hn h : list http_config_t) (g : globals) : globals :=
  set_g_lists g.(g_listen_new) g.(g_listen) g.(g_uplink_new) g.(g_uplink_install) g.(g_peer_new) g.(g_peer) hn h g.(g_bind_v4) g.(g_bind_v6) g.(g_randoms) g.
Definition set_bind (b4 b6 : option sockaddr) (g : globals) : globals :=
  set_g_lists g.(g_listen_new) g.(g_listen) g.(g_uplink_new) g.(g_uplink_install) g.(g_peer_new) g.(g_peer) g.(g_http_new) g.(g_http) b4 b6 g.(g_randoms) g.

(** ** Addresses *)

Definition ch_colon : Z := 58.

(** [strrchr(s, c)]: what is before and behind the last [c]. *)
Fixpoint strrchr (s : list Z) (c : Z) : option (list Z * list Z) :=
  match s with
  | [] => None
  | x :: t => match strrchr t c with Some (a, b) => Some (x :: a, b) | None => if x =? c then Some ([], t) else None end
  end.

Definition parse_hostport (s : list Z) : option (list Z * list Z) :=
  '(host, port) ← strrchr s ch_colon;
  match host with
  | c :: t => if c =? 91 then match strrchr host 93 with Some (h, _) => Some (tl h, port) | None => None end else Some (host, port)
  | [] => Some (host, port)
  end.

Definition addr_eq (a b : sockaddr) : bool :=
  match a, b with
  | Inet x, Inet y => x =? y
  | Inet6 x, Inet6 y => bool_decide (x = y)
  | _, _ => false
  end.

(** Two addresses of the chains of [ai_comp]. *)
Definition ai_same (a b : addrinfo) : bool :=
  (a.(ai_family) =? b.(ai_family)) && addr_eq a.(ai_addr) b.(ai_addr) && (a.(ai_port) =? b.(ai_port)).

Definition ai_comp (a b : list addrinfo) : bool := existsb (fun x => existsb (ai_same x) b) a.

Definition find_listen_config (ls : list listen_config_t) (proto host : list Z) (portnum : Z) : option listen_config_t :=
  List.find (fun l => (l.(lc_portnum) =? portnum) && bool_decide (l.(lc_host) = host) && bool_decide (l.(lc_proto) = proto)) ls.

Section Config.
Variable getaddrinfo : Z -> Z -> list Z -> list Z -> option (list addrinfo).
Variable acl_lookup : list Z -> option (list sockaddr).
Variable open_file : list Z -> option (list Z).
Variable is_directory : list Z -> bool.
Variable random : nat -> Z.
Variable cosf : spec_float -> spec_float.

(** ** Listen *)

(** [config_parse_listen_filter]; [None] inside for -1. *)
Fixpoint listen_filters (i : nat) (args : list (list Z)) (fs : list (option (list Z))) : option (option (list (option (list Z)))) :=
  match args with
  | [] => Some (Some fs)
  | f :: args => rc ← filter_check cosf f; if rc <? 0 then Some None else listen_filters (S i) args (<[i := Some f]> fs)
  end.

Definition config_parse_listen_filter (fs : list (option (list Z))) (filt_string : list Z) : option (option (list (option (list Z)))) :=
  let args := parse_args_noshell filt_string in
  if (length args =? 0)%nat || (LISTEN_MAX_FILTERS <? length args)%nat then Some None else listen_filters 0 args fs.

(** The port type: the flags and the number of clients. *)
Definition port_type (s : list Z) : Z * Z :=
  let on := fold_left Z.lor in
  if caseeq s (str "userfilter") || caseeq s (str "igate") then (on [CLFLAGS_USERFILTEROK; CLFLAGS_IGATE] CLFLAGS_INPORT, 200)
  else if caseeq s (str "fullfeed") then (on [CLFLAGS_FULLFEED] CLFLAGS_INPORT, 200)
  else if caseeq s (str "dupefeed") then (on [CLFLAGS_DUPEFEED] CLFLAGS_INPORT, 200)
  else if caseeq s (str "clientonly") then (on [CLFLAGS_CLIENTONLY; CLFLAGS_USERFILTEROK; CLFLAGS_IGATE] CLFLAGS_INPORT, 200)
  else if caseeq s (str "udpsubmit") then (on [CLFLAGS_CLIENTONLY; CLFLAGS_UDPSUBMIT] CLFLAGS_INPORT, 1)
  else (CLFLAGS_INPORT, 200).

(** [config_listen_tls] and [config_uplink_tls] at a destination that has [dst]. *)
Definition tls_option (dst : option (list Z)) (v : list Z) : option (option (list Z)) :=
  match dst with Some _ => None | None => Some (Some v) end.

Definition is_opt (a : list Z) (name1 name2 : string) : bool := caseeq a (str name1) || caseeq a (str name2).

(** The rest of the arguments; [None] inside for -2. *)
Fixpoint listen_options (clflags : Z) (args : list (list Z)) (l : listen_opts) : option (option listen_opts) :=
  let '(mk_lopts fs mx acl key cert ca crl hid) := l in
  match args with
  | [] => Some (Some l)
  | a :: args =>
      if caseeq a (str "filter") then
        match args with
        | [] => Some None
        | v :: args =>
            if has clflags (Z.lor (Z.lor CLFLAGS_FULLFEED CLFLAGS_UDPSUBMIT) CLFLAGS_DUPEFEED) then Some None
            else r ← config_parse_listen_filter fs v;
                 match r with None => Some None | Some fs => listen_options clflags args (mk_lopts fs mx acl key cert ca crl hid) end
        end
      else if caseeq a (str "maxclients") then
        match args with
        | [] => Some None
        | v :: args => n ← atoi v; listen_options clflags args (mk_lopts fs n acl key cert ca crl hid)
        end
      else if caseeq a (str "acl") then
        match args with
        | [] => Some None
        | v :: args =>
            if given acl then Some None
            else r ← (match open_file v with Some text => acl_load acl_lookup text | None => Some None end);
                 match r with None => Some None | Some x => listen_options clflags args (mk_lopts fs mx (Some x) key cert ca crl hid) end
        end
      else if is_opt a "tlskey" "sslkey" then
        match args with [] => Some None | v :: args => match tls_option key v with None => Some None | Some key => listen_options clflags args (mk_lopts fs mx acl key cert ca crl hid) end end
      else if is_opt a "tlscert" "sslcert" then
        match args with [] => Some None | v :: args => match tls_option cert v with None => Some None | Some cert => listen_options clflags args (mk_lopts fs mx acl key cert ca crl hid) end end
      else if is_opt a "tlsca" "sslca" then
        match args with [] => Some None | v :: args => match tls_option ca v with None => Some None | Some ca => listen_options clflags args (mk_lopts fs mx acl key cert ca crl hid) end end
      else if is_opt a "tlscrl" "sslcrl" then
        match args with [] => Some None | v :: args => match tls_option crl v with None => Some None | Some crl => listen_options clflags args (mk_lopts fs mx acl key cert ca crl hid) end end
      else if caseeq a (str "hidden") then listen_options clflags args (mk_lopts fs mx acl key cert ca crl true)
      else Some None
  end.

Definition no_opts (clients_max : Z) : listen_opts := mk_lopts (repeat None LISTEN_MAX_FILTERS) clients_max None None None None None false.

(** The socket type and the protocol of a name. *)
Definition proto_of (proto : list Z) : option (Z * Z) :=
  if caseeq proto (str "tcp") then Some (SOCK_STREAM, IPPROTO_TCP)
  else if caseeq proto (str "udp") then Some (SOCK_DGRAM, IPPROTO_UDP)
  else None.

Definition do_listen (g : globals) (argv : list (list Z)) : option (globals * Z) :=
  match argv with
  | _ :: name :: type :: proto :: host :: portnum :: args =>
      let '(clflags, clients_max) := port_type type in
      match proto_of proto with
      | None => Some (g, -2)
      | Some (socktype, protocol) =>
          if has clflags CLFLAGS_UDPSUBMIT && negb (protocol =? IPPROTO_UDP) then Some (g, -2)
          else
            port ← atoi portnum;
            if (port <? 1) || (port >? 65535) then Some (g, -2)
            else
              match getaddrinfo socktype protocol host portnum with
              | None | Some [] => Some (g, -2)
              | Some (ai :: _) =>
                  r ← listen_options clflags args (no_opts clients_max);
                  match r with
                  | None => Some (g, -2)
                  | Some o =>
                      if xorb (given o.(lo_certfile)) (given o.(lo_keyfile)) then Some (g, -2)
                      else
                        let hidden := o.(lo_hidden) || has clflags CLFLAGS_DUPEFEED in
                        let clients_max := if has clflags CLFLAGS_UDPSUBMIT then 1 else o.(lo_clients_max) in
                        let g := if port <? 1024 then set_bool ListenLowPorts true g else g in
                        let '(id, n) := match find_listen_config g.(g_listen) proto host port with
                                        | Some old => (old.(lc_id), g.(g_randoms))
                                        | None => (random g.(g_randoms), S g.(g_randoms))
                                        end in
                        let l := mk_lc id proto name host port clients_max false hidden o.(lo_keyfile) o.(lo_certfile) o.(lo_cafile) o.(lo_crlfile)
                                   ai o.(lo_acl) o.(lo_filters) clflags in
                        Some (set_listen (l :: g.(g_listen_new)) g.(g_listen) n g, 0)
                  end
              end
      end
  | _ => Some (g, -1)
  end.

(** ** PeerGroup *)

(** A peer of the group: its name and its address. *)
Definition peer_of (af localport : Z) (my_ai : list addrinfo) (peerid hostport : list Z) (g : globals) : option (globals * bool) :=
  match parse_hostport hostport with
  | None => Some (g, false)
  | Some (host, port_s) =>
      port ← atoi port_s;
      if (port <? 1) || (port >? 65535) then Some (g, false)
      else
        match getaddrinfo SOCK_DGRAM IPPROTO_UDP host port_s with
        | Some [ai] =>
            if negb (ai.(ai_family) =? af) then Some (g, false)
            else if ai_comp [ai] my_ai then Some (g, true)
            else if existsb (fun pe => ai_comp [ai] [pe.(pe_ai)]) g.(g_peer_new) then Some (g, false)
            else Some (set_peer (mk_pe host host peerid ai af port localport :: g.(g_peer_new)) g.(g_peer) g, true)
        | _ => Some (g, false)
        end
  end.

Fixpoint peers_of (af localport : Z) (my_ai : list addrinfo) (args : list (list Z)) (g : globals) : option (globals * Z) :=
  match args with
  | [] => Some (g, 0)
  | [_] => Some (g, -2)
  | peerid :: hostport :: args =>
      '(g, ok) ← peer_of af localport my_ai peerid hostport g;
      if (ok : bool) then peers_of af localport my_ai args g else Some (g, -2)
  end.

Definition do_peergroup (g : globals) (argv : list (list Z)) : option (globals * Z) :=
  match argv with
  | _ :: name :: proto :: local :: args =>
      if negb (caseeq proto (str "udp")) then Some (g, -2)
      else
        match parse_hostport local with
        | None => Some (g, -2)
        | Some (host, port_s) =>
            localport ← atoi port_s;
            match getaddrinfo SOCK_DGRAM IPPROTO_UDP host port_s with
            | Some [my_ai] =>
                let li := mk_lc (random g.(g_randoms)) (str "udp") name local localport 1 true false None None None None my_ai None
                            (repeat None LISTEN_MAX_FILTERS) 0 in
                peers_of my_ai.(ai_family) localport [my_ai] args (set_listen (li :: g.(g_listen_new)) g.(g_listen) (S g.(g_randoms)) g)
            | _ => Some (g, -2)
            end
        end
  | _ => Some (g, -1)
  end.

(** ** Uplink *)

Definition UPLINK_ST_UNKNOWN : Z := -1.

Definition uplink_type (s : list Z) : option Z :=
  if caseeq s (str "ro") then Some (Z.lor CLFLAGS_UPLINKPORT CLFLAGS_PORT_RO)
  else if caseeq s (str "multiro") then Some (Z.lor CLFLAGS_UPLINKPORT (Z.lor CLFLAGS_PORT_RO CLFLAGS_UPLINKMULTI))
  else if caseeq s (str "full") then Some CLFLAGS_UPLINKPORT
  else None.

Fixpoint uplink_options (args : list (list Z)) (l : uplink_config_t) : option uplink_config_t :=
  let '(mk_uplink name proto host port key cert ca crl ssl fl st cp) := l in
  match args with
  | [] => Some l
  | a :: v :: args =>
      if is_opt a "tlskey" "sslkey" then key ← tls_option key v; uplink_options args (mk_uplink name proto host port key cert ca crl ssl fl st cp)
      else if is_opt a "tlscert" "sslcert" then cert ← tls_option cert v; uplink_options args (mk_uplink name proto host port key cert ca crl ssl fl st cp)
      else if is_opt a "tlsca" "sslca" then ca ← tls_option ca v; uplink_options args (mk_uplink name proto host port key cert ca crl ssl fl st cp)
      else if is_opt a "tlscrl" "sslcrl" then crl ← tls_option crl v; uplink_options args (mk_uplink name proto host port key cert ca crl ssl fl st cp)
      else None
  | [_] => None
  end.

(** Five arguments pass the test, but the port is the sixth. *)
Definition do_uplink (g : globals) (argv : list (list Z)) : option (globals * Z) :=
  match argv with
  | _ :: name :: type :: proto :: host :: args =>
      match uplink_type type with
      | None => Some (g, -2)
      | Some clflags =>
          if negb (given (proto_of proto)) then Some (g, -2)
          else
            match args with
            | [] => None
            | port_s :: args =>
                port ← atoi port_s;
                if (port <? 1) || (port >? 65535) then Some (g, -2)
                else
                  match uplink_options args (mk_uplink name proto host port_s None None None None false clflags UPLINK_ST_UNKNOWN None) with
                  | None => Some (g, -2)
                  | Some l => Some (set_uplink (g.(g_uplink_new) ++ [l]) g.(g_uplink_install) g, 0)
                  end
            end
      end
  | _ => Some (g, -1)
  end.

(** ** Others *)

Fixpoint uplinkbind (args : list (list Z)) (g : globals) : option (globals * Z) :=
  match args with
  | [] => Some (g, 0)
  | a :: args =>
      match getaddrinfo SOCK_STREAM IPPROTO_TCP a (str "0") with
      | Some [ai] =>
          if ai.(ai_family) =? AF_INET then uplinkbind args (set_bind (Some ai.(ai_addr)) g.(g_bind_v6) g)
          else if ai.(ai_family) =? AF_INET6 then uplinkbind args (set_bind g.(g_bind_v4) (Some ai.(ai_addr)) g)
          else Some (g, -2)
      | _ => Some (g, -2)
      end
  end.

Definition do_uplinkbind (g : globals) (argv : list (list Z)) : option (globals * Z) :=
  match argv with _ :: a :: args => uplinkbind (a :: args) g | _ => Some (g, -1) end.

Definition do_http_listener (upload : bool) (g : globals) (argv : list (list Z)) : option (globals * Z) :=
  match argv with
  | [_; host; port] => n ← atoi port; Some (set_http (mk_http host n upload :: g.(g_http_new)) g.(g_http) g, 0)
  | _ => Some (g, -1)
  end.

Definition do_logrotate (g : globals) (argv : list (list Z)) : option (globals * Z) :=
  match argv with
  | [_; size; num] =>
      i ← atoi size;
      if i <? 1 then Some (g, -1)
      else
        bytes ← int_mul i (1024 * 1024);
        i ← atoi num;
        if i <? 1 then Some (set_int LogRotateSize 0 g, -1) else Some (set_int LogRotateNum i (set_int LogRotateSize bytes g), 0)
  | _ => Some (g, -1)
  end.

(** ** The table *)

(** A directive with the address of a variable. *)
Definition str_cmd (v : str_var) (g : globals) (argv : list (list Z)) : option (globals * Z) :=
  let '(s, rc) := do_string [] argv in Some (if rc =? 0 then set_str v (Some s) g else g, rc).
Definition arr_cmd (v : arr_var) (g : globals) (argv : list (list Z)) : option (globals * Z) :=
  let '(a, rc) := do_string_array [] argv in Some (if rc =? 0 then set_arr v (Some a) g else g, rc).
Definition int_cmd (v : int_var) (g : globals) (argv : list (list Z)) : option (globals * Z) :=
  '(n, rc) ← do_int (g.(g_int) v) argv; Some (set_int v n g, rc).
Definition interval_cmd (v : int_var) (g : globals) (argv : list (list Z)) : option (globals * Z) :=
  '(n, rc) ← do_interval (g.(g_int) v) argv; Some (set_int v n g, rc).
Definition bool_cmd (v : bool_var) (g : globals) (argv : list (list Z)) : option (globals * Z) :=
  let '(b, rc) := do_boolean (g.(g_bool) v) argv in Some (set_bool v b g, rc).
Definition char_cmd (g : globals) (argv : list (list Z)) : option (globals * Z) :=
  let '(c, rc) := do_char g.(g_q_protocol_id) argv in Some (set_qproto c g, rc).

(** A command on a state that undefined behaviour makes [None]. *)
Definition cmd (name : string) (f : globals -> list (list Z) -> option (globals * Z)) : cfgcmd (option globals) :=
  mk_cfgcmd (str name) (fun g argv =>
    match g with
    | Some g => match f g argv with Some (g, rc) => (Some g, rc) | None => (None, -1) end
    | None => (None, -1)
    end).

Definition cfg_cmds : list (cfgcmd (option globals)) := [
  cmd "rundir" (str_cmd NewRundir);
  cmd "logrotate" do_logrotate;
  cmd "serverid" (str_cmd NewServerid);
  cmd "passcode" (str_cmd NewPasscode);
  cmd "myemail" (str_cmd NewMyemail);
  cmd "myadmin" (str_cmd NewMyadmin);
  cmd "workerthreads" (int_cmd WorkersConfigured);
  cmd "statsinterval" (interval_cmd StatsInterval);
  cmd "expiryinterval" (interval_cmd ExpiryInterval);
  cmd "lastpositioncache" (interval_cmd LastpositionStoretime);
  cmd "upstreamtimeout" (interval_cmd UpstreamTimeout);
  cmd "clienttimeout" (interval_cmd ClientTimeout);
  cmd "logintimeout" (interval_cmd ClientLoginTimeout);
  cmd "filelimit" (int_cmd NewFilenoLimit);
  cmd "maxclients" (int_cmd Maxclients);
  cmd "ibufsize" (int_cmd IbufSize);
  cmd "obufsize" (int_cmd ObufSize);
  cmd "httpstatus" (do_http_listener false);
  cmd "httpupload" (do_http_listener true);
  cmd "httpstatusoptions" (str_cmd NewHttpStatusOptions);
  cmd "listen" do_listen;
  cmd "uplinkbind" do_uplinkbind;
  cmd "uplink" do_uplink;
  cmd "peergroup" do_peergroup;
  cmd "q_protocol_id" char_cmd;
  cmd "disallow_other_q_protocols" (bool_cmd DisallowOtherProtocolId);
  cmd "disallow_unverified" (bool_cmd DisallowUnverified);
  cmd "quirks_mode" (bool_cmd QuirksMode);
  cmd "fake_version" (str_cmd NewFakeVersion);
  cmd "disallowlogincall" (arr_cmd NewDisallowLogin);
  cmd "disallowsourcecall" (arr_cmd NewDisallowSrccall);
  cmd "disallowigatecall" (arr_cmd NewDisallowIgate)
].

(** ** Installing *)

Definition strupr (s : list Z) : list Z := map toupper s.

(** The directory, only the first time: what is new and whether it failed. *)
Definition install_rundir (g : globals) : globals * bool :=
  match g.(g_str) Rundir with
  | None =>
      let g := match g.(g_str) NewRundir with Some d => set_str NewRundir None (set_str Rundir (Some d) g) | None => g end in
      (g, match g.(g_str) Rundir with None => true | Some d => negb (is_directory d) end)
  | Some _ => (set_str NewRundir None g, false)
  end.

Definition serverid_valid (s : list Z) : bool :=
  (check_invalid_q_callsign s =? 0) && (3 <=? zlen s) && (zlen s <=? CALLSIGNLEN_MAX).

Definition install_serverid (g : globals) : globals * bool :=
  match g.(g_str) Serverid with
  | Some _ => (set_str NewServerid None g, false)
  | None =>
      match g.(g_str) NewServerid with
      | None => (g, true)
      | Some s => if serverid_valid s then (set_str NewServerid None (set_str Serverid (Some (strupr s)) g), false) else (g, true)
      end
  end.

(** A value that has to be there. *)
Definition install_needed (new cur : str_var) (g : globals) : globals * bool :=
  match g.(g_str) new with Some s => (set_str new None (set_str cur (Some s) g), false) | None => (g, true) end.

(** A value that is gone when it is not there any more. *)
Definition install_str (new cur : str_var) (g : globals) : globals := set_str new None (set_str cur (g.(g_str) new) g).
Definition install_arr (new cur : arr_var) (g : globals) : globals := set_arr new None (set_arr cur (g.(g_arr) new) g).

Definition is_multiro (l : uplink_config_t) : bool := has l.(ul_client_flags) CLFLAGS_UPLINKMULTI.
Definition is_multi_rw (l : uplink_config_t) : bool := is_multiro l && negb (has l.(ul_client_flags) CLFLAGS_PORT_RO).

(** Multiple uplinks have to be read-only, and are alone. *)
Definition check_uplinks (g : globals) : globals * bool :=
  let mixed := existsb is_multiro g.(g_uplink_new) && existsb (fun l => negb (is_multiro l)) g.(g_uplink_new) in
  (if mixed || existsb is_multi_rw g.(g_uplink_new) then set_uplink [] g.(g_uplink_install) g else g, mixed).

Definition clamp_workers (g : globals) : globals :=
  if g.(g_int) WorkersConfigured <? 1 then g
  else if g.(g_int) WorkersConfigured >? 32 then set_int WorkersConfigured 32 g
  else g.

Definition install_listen (g : globals) : globals * bool :=
  match g.(g_listen_new) with [] => (g, true) | _ => (set_listen [] g.(g_listen_new) g.(g_randoms) g, false) end.

Definition install_uplinks (g : globals) : globals :=
  match g.(g_uplink_install) with
  | _ :: _ => set_uplink [] g.(g_uplink_install) g
  | [] => set_bool UplinkConfigUpdated true (set_uplink [] g.(g_uplink_new) g)
  end.

Definition install_pidfile (g : globals) : globals :=
  match g.(g_str) Pidfile with
  | Some _ => g
  | None => set_str Pidfile (Some (default [] (g.(g_str) LogDir) ++ str "/" ++ default [] (g.(g_str) Logname) ++ str ".pid")) g
  end.

(** [read_config] behind the reading of the file. *)
Definition install (g : globals) : globals * Z :=
  let '(g, f1) := install_rundir g in
  let f2 := negb (given (g.(g_str) LogDir)) in
  let '(g, f3) := install_serverid g in
  let '(g, f4) := install_needed NewPasscode Passcode g in
  let '(g, f5) := install_needed NewMyadmin Myadmin g in
  let '(g, f6) := install_needed NewMyemail Myemail g in
  let g := install_str NewHttpStatusOptions HttpStatusOptions g in
  let g := install_str NewFakeVersion FakeVersion g in
  let g := install_arr NewDisallowSrccall DisallowSrccall g in
  let g := install_arr NewDisallowLogin DisallowLogin g in
  let g := install_arr NewDisallowIgate DisallowIgate g in
  let '(g, f7) := check_uplinks g in
  let g := clamp_workers g in
  let '(g, f8) := install_listen g in
  let g := install_uplinks g in
  let g := set_peer [] g.(g_peer_new) g in
  let g := set_http [] g.(g_http_new) g in
  if f1 || f2 || f3 || f4 || f5 || f6 || f7 || f8 then (g, -1) else (install_pidfile g, 0).

(** [read_config] with the text of the file, if it can be opened. *)
Definition read_config (file : option (list Z)) (g : globals) : option (globals * Z) :=
  match file with
  | None => Some (g, -1)
  | Some text =>
      '(g, rc) ← read_cfgfile cfg_cmds text (Some g);
      g ← g;
      if negb (rc =? 0) then Some (g, -1) else Some (install g)
  end.
End Config.
