(* ===== verification/ConfigSpec.v ===== *)
(** * What a configuration that was read is good for

    Whatever the file says, the lists it leaves are such that the other parts can work with them:
    uplinks cannot make a loop, peers have different addresses and a listener of their own, and listeners can be
    opened.  A listener that is in the old and in the new configuration keeps its number, and so its socket and its clients. *)

From S2P Require Import Prelude Types Cfloat Cfgfile Acl ParseQc ParseAprs Clientlist Filter FilterParse FilterSpec FilterText Login Outgoing.
From S2P Require Import Plist ClientIO Accounting Worker WorkerSpec Newclient Accept Uplink UplinkSpec AcceptSpec Config.
From Stdlib Require Import ZArith Lia Bool String SpecFloat.
From stdpp Require Import base tactics list gmap numbers functions.
Open Scope Z_scope.

(** ** Reading a file keeps what every directive keeps *)

Definition nul_free (s : list Z) : Prop := Forall (fun b => b <> 0) s.

Lemma cstr_nul_free_all s : nul_free (cstr s).
Proof. induction s as [|c s IH]; [constructor|]. cbn. destruct (Z.eqb_spec c 0); [constructor|by constructor]. Qed.

Lemma parse_args_nul_free s : Forall nul_free (parse_args s).
Proof.
  unfold parse_args. generalize 255%nat. intros n. revert s. induction n as [|n IH]; intros s; cbn [args_from]; [constructor|].
  destruct (skip_space s) as [|c t]; [constructor|]. destruct (if c =? ch_quote then _ else _) as [[a rest]|]; [|constructor]. cbn [mbind option_bind].
  specialize (IH (tl rest)). destruct (args_from n (tl rest)) as [l|]; [|constructor]. cbn [mbind option_bind default] in *. constructor; [apply cstr_nul_free_all|done].
Qed.

Lemma strlwr_nul_free s : nul_free s -> nul_free (strlwr s).
Proof. intros H. unfold strlwr. apply list.Forall_fmap. eapply list.Forall_impl; [exact H|]. intros c Hc. unfold compose, tolower. destruct (isupper c) eqn:E; [unfold isupper in E; lia|done]. Qed.

(** A property that the commands keep. *)
Definition kept {C} (P : C -> Prop) (cmds : list (cfgcmd C)) : Prop :=
  forall k, k ∈ cmds -> forall c argv, Forall nul_free argv -> P c -> P (k.(cmd_function) c argv).1.

Lemma cmdparse_inv {C} (P : C -> Prop) (cmds : list (cfgcmd C)) line c :
  kept P cmds -> P c -> P (cmdparse cmds line c).1.
Proof.
  intros Hk Hc. unfold cmdparse. pose proof (parse_args_nul_free line) as Ha. destruct (parse_args line) as [|name rest]; [done|]. case_bool_decide; [done|].
  destruct (List.find _ cmds) as [k|] eqn:E; [|done]. apply find_some in E as [E _]. apply list_elem_of_In in E. apply list.Forall_cons_1 in Ha as [Hn Ha]. apply Hk; [done| |done]. constructor; [by apply strlwr_nul_free|done].
Qed.

Lemma read_lines_inv {C} (P : C -> Prop) (cmds : list (cfgcmd C)) fuel file c c' rc :
  kept P cmds -> P c -> read_lines fuel cmds file c = Some (c', rc) -> P c'.
Proof.
  intros Hk. revert file c. induction fuel as [|fuel IH]; intros file c Hc E; cbn [read_lines] in E; [by injection E as <- _|].
  inv_bind E. destruct x as [[line|] rest]; [|by injection E as <- _].
  pose proof (cmdparse_inv P cmds (cstr line) c Hk Hc) as Hc'. destruct (cmdparse cmds (cstr line) c) as [c1 ret]. split_if_in E; [by injection E as <- _|by eapply IH].
Qed.

(** ** What is kept *)

(** An uplink that can be connected to. *)
Record uplink_read (l : uplink_config_t) : Prop := {
  ur_name : nul_free l.(ul_name);
  ur_flags : l.(ul_client_flags) = CLFLAGS_UPLINKPORT \/ l.(ul_client_flags) = Z.lor CLFLAGS_UPLINKPORT CLFLAGS_PORT_RO \/
             l.(ul_client_flags) = Z.lor CLFLAGS_UPLINKPORT (Z.lor CLFLAGS_PORT_RO CLFLAGS_UPLINKMULTI);
  ur_port : exists p, atoi l.(ul_port) = Some p /\ 1 <= p <= 65535;
  ur_proto : is_Some (proto_of l.(ul_proto));
  ur_state : l.(ul_state) = UPLINK_ST_UNKNOWN /\ l.(ul_client_ptr) = None
}.

Definition pe_same (p q : peerip_config_t) : bool := ai_same p.(pe_ai) q.(pe_ai).

(** No two peers have the same address. *)
Fixpoint peers_apart (ps : list peerip_config_t) : Prop :=
  match ps with [] => True | p :: ps => Forall (fun q => pe_same p q = false) ps /\ peers_apart ps end.

(** A peer has a listener of its group, at another address. *)
Definition peer_listener (ls : list listen_config_t) (p : peerip_config_t) : Prop :=
  exists l, l ∈ ls /\ l.(lc_corepeer) = true /\ l.(lc_portnum) = p.(pe_local_port) /\ l.(lc_ai).(ai_family) = p.(pe_af) /\
    p.(pe_ai).(ai_family) = p.(pe_af) /\ ai_same p.(pe_ai) l.(lc_ai) = false.

Section Spec.
Variable getaddrinfo : Z -> Z -> list Z -> list Z -> option (list addrinfo).
Variable acl_lookup : list Z -> option (list sockaddr).
Variable open_file : list Z -> option (list Z).
Variable is_directory : list Z -> bool.
Variable random : nat -> Z.
Variable cosf : spec_float -> spec_float.

(** Addresses are of the type that was asked for. *)
Hypothesis getaddrinfo_type : forall socktype protocol host port ais ai,
  getaddrinfo socktype protocol host port = Some ais -> ai ∈ ais -> ai.(ai_socktype) = socktype /\ ai.(ai_protocol) = protocol.

Definition filter_accepted (o : option (list Z)) : Prop := forall f, o = Some f -> exists rc, filter_check cosf f = Some rc /\ 0 <= rc.

(** A listener that can be opened; [old] is the configuration before. *)
Record listen_read (old : list listen_config_t) (l : listen_config_t) : Prop := {
  lr_proto : (l.(lc_ai).(ai_socktype), l.(lc_ai).(ai_protocol)) = (SOCK_DGRAM, IPPROTO_UDP) \/
             (l.(lc_ai).(ai_socktype), l.(lc_ai).(ai_protocol)) = (SOCK_STREAM, IPPROTO_TCP);
  lr_filters : length l.(lc_filters) = LISTEN_MAX_FILTERS /\ Forall filter_accepted l.(lc_filters);
  lr_tls : given l.(lc_certfile) = given l.(lc_keyfile);
  lr_core : l.(lc_corepeer) = true -> l.(lc_client_flags) = 0 /\ l.(lc_clients_max) = 1 /\ l.(lc_acl) = None;
  lr_client : l.(lc_corepeer) = false ->
    has l.(lc_client_flags) CLFLAGS_INPORT = true /\ has l.(lc_client_flags) CLFLAGS_UPLINKPORT = false /\ 1 <= l.(lc_portnum) <= 65535 /\
    (has l.(lc_client_flags) CLFLAGS_UDPSUBMIT = true -> l.(lc_ai).(ai_protocol) = IPPROTO_UDP /\ l.(lc_clients_max) = 1) /\
    (has l.(lc_client_flags) (Z.lor (Z.lor CLFLAGS_FULLFEED CLFLAGS_UDPSUBMIT) CLFLAGS_DUPEFEED) = true -> l.(lc_filters) = repeat None LISTEN_MAX_FILTERS) /\
    match find_listen_config old l.(lc_proto) l.(lc_host) l.(lc_portnum) with Some o => l.(lc_id) = o.(lc_id) | None => exists k, l.(lc_id) = random k end
}.

Record config_ok (old : list listen_config_t) (ins : list uplink_config_t) (peers : list peerip_config_t) (g : globals) : Prop := {
  co_old : g.(g_listen) = old /\ g.(g_uplink_install) = ins /\ g.(g_peer) = peers;
  co_listen : Forall (listen_read old) g.(g_listen_new);
  co_uplinks : Forall uplink_read g.(g_uplink_new);
  co_apart : peers_apart g.(g_peer_new);
  co_peers : Forall (peer_listener g.(g_listen_new)) g.(g_peer_new)
}.

(** What the invariant is about. *)
Definition lists_of (g : globals) := (g.(g_listen_new), g.(g_listen), g.(g_uplink_new), g.(g_uplink_install), g.(g_peer_new), g.(g_peer)).

Lemma config_ok_lists old ins peers g g' : config_ok old ins peers g -> lists_of g' = lists_of g -> config_ok old ins peers g'.
Proof. intros [A B C D E] [= E1 E2 E3 E4 E5 E6]. split; rewrite ?E1, ?E2, ?E3, ?E4, ?E5, ?E6; done. Qed.

(** *** Listen *)

Lemma listen_filters_spec args : forall i fs fs',
  (i + length args <= length fs)%nat -> Forall filter_accepted fs -> listen_filters cosf i args fs = Some (Some fs') -> length fs' = length fs /\ Forall filter_accepted fs'.
Proof.
  induction args as [|f args IH]; intros i fs fs' Hi Hf E; cbn [listen_filters] in E; [by injection E as <-|]. inv_bind E.
  split_if_in E; [done|]. apply IH in E as [E1 E2].
  - by rewrite length_insert in E1.
  - rewrite length_insert. cbn in Hi. lia.
  - apply list.Forall_insert; [done|]. intros g [= <-]. eexists. split; [done|]. lia.
Qed.

Definition opts_ok (clflags : Z) (o : listen_opts) : Prop :=
  length o.(lo_filters) = LISTEN_MAX_FILTERS /\ Forall filter_accepted o.(lo_filters) /\
  (has clflags (Z.lor (Z.lor CLFLAGS_FULLFEED CLFLAGS_UDPSUBMIT) CLFLAGS_DUPEFEED) = true -> o.(lo_filters) = repeat None LISTEN_MAX_FILTERS).

Lemma listen_options_spec clflags n : forall args o o', (length args <= n)%nat ->
  opts_ok clflags o -> listen_options acl_lookup open_file cosf clflags args o = Some (Some o') -> opts_ok clflags o'.
Proof.
  induction n as [|n IH]; intros args [fs mx acl key cert ca crl hid] o' Hn Ho E.
  { destruct args; [|cbn in Hn; lia]. cbn [listen_options] in E. by injection E as <-. }
  destruct args as [|a args]; cbn [listen_options] in E; [by injection E as <-|]. cbn [length] in Hn.
  assert (forall args' o1, (length args' <= length args)%nat -> o1.(lo_filters) = fs -> listen_options acl_lookup open_file cosf clflags args' o1 = Some (Some o') -> opts_ok clflags o') as Hsame.
  { intros args' o1 Hl E1. apply IH; [lia|]. unfold opts_ok in *. by rewrite E1. }
  split_if_in E; [destruct args as [|v args]; [done|]|].
  { destruct (has clflags _) eqn:Eh in E; [done|]. inv_bind E. destruct x as [fs'|]; [|done]. eapply IH; [| |exact E]; [cbn in Hn; lia|].
    destruct Ho as (H1 & H2 & _). cbn [lo_filters] in *. match goal with Hc : config_parse_listen_filter _ _ _ = _ |- _ => rename Hc into Ec end.
    unfold config_parse_listen_filter in Ec. split_if_in Ec; [done|]. match goal with Hb : (_ || _) = false |- _ => apply orb_false_elim in Hb as [_ Hb%Nat.ltb_ge] end.
    apply listen_filters_spec in Ec as [E1 E2]; [|rewrite H1; lia|done]. split; [by cbn [lo_filters]; rewrite E1|]. split; [done|]. cbn [lo_filters]. congruence. }
  split_if_in E; [destruct args as [|v args]; [done|]|].
  { inv_bind E. eapply Hsame; [| |exact E]; [cbn; lia|done]. }
  split_if_in E; [destruct args as [|v args]; [done|]|].
  { destruct acl; cbn [given] in E; [done|]. inv_bind E. destruct x as [x|]; [|done]. eapply Hsame; [| |exact E]; [cbn; lia|done]. }
  split_if_in E; [destruct args as [|v args]; [done|]|].
  { destruct key; cbn [tls_option] in E; [done|]. eapply Hsame; [| |exact E]; [cbn; lia|done]. }
  split_if_in E; [destruct args as [|v args]; [done|]|].
  { destruct cert; cbn [tls_option] in E; [done|]. eapply Hsame; [| |exact E]; [cbn; lia|done]. }
  split_if_in E; [destruct args as [|v args]; [done|]|].
  { destruct ca; cbn [tls_option] in E; [done|]. eapply Hsame; [| |exact E]; [cbn; lia|done]. }
  split_if_in E; [destruct args as [|v args]; [done|]|].
  { destruct crl; cbn [tls_option] in E; [done|]. eapply Hsame; [| |exact E]; [cbn; lia|done]. }
  split_if_in E; [|done]. eapply Hsame; [| |exact E]; [cbn; lia|done].
Qed.

(** A directive leaves the invariant. *)
Definition keeps (f : globals -> list (list Z) -> option (globals * Z)) : Prop :=
  forall old ins peers g argv g' rc, Forall nul_free argv -> config_ok old ins peers g -> f g argv = Some (g', rc) -> config_ok old ins peers g'.

Lemma port_type_flags s fl mx : port_type s = (fl, mx) -> has fl CLFLAGS_INPORT = true /\ has fl CLFLAGS_UPLINKPORT = false.
Proof. unfold port_type. repeat (split_if; [by intros [= <- <-]|]). by intros [= <- <-]. Qed.

Lemma proto_of_type s t p : proto_of s = Some (t, p) -> (t, p) = (SOCK_DGRAM, IPPROTO_UDP) \/ (t, p) = (SOCK_STREAM, IPPROTO_TCP).
Proof. unfold proto_of. repeat split_if; intros [= <- <-]; auto. Qed.

Lemma no_opts_ok clflags n : opts_ok clflags (no_opts n).
Proof. split; [done|]. split; [|done]. unfold no_opts. cbn [lo_filters]. apply list.Forall_forall. intros o Ho%list_elem_of_In%repeat_spec. subst. by intros f. Qed.

Lemma add_listener_ok old ins peers g l g' :
  config_ok old ins peers g -> listen_read old l ->
  (g'.(g_listen_new), g'.(g_listen), g'.(g_uplink_new), g'.(g_uplink_install), g'.(g_peer_new), g'.(g_peer)) =
    (l :: g.(g_listen_new), g.(g_listen), g.(g_uplink_new), g.(g_uplink_install), g.(g_peer_new), g.(g_peer)) ->
  config_ok old ins peers g'.
Proof.
  intros [A B C D E] Hl [= E1 E2 E3 E4 E5 E6]. split; rewrite ?E1, ?E2, ?E3, ?E4, ?E5, ?E6; try done; [by constructor|].
  eapply list.Forall_impl; [exact E|]. intros p (x & Hx & Hrest). exists x. split; [by right|done].
Qed.

Lemma do_listen_keeps : keeps (do_listen getaddrinfo acl_lookup open_file random cosf).
Proof.
  intros old ins peers g argv g' rc Hargv Hok E. unfold do_listen in E.
  destruct argv as [|x0 [|name [|type [|proto [|host [|portnum args]]]]]]; try (by injection E as <- _).
  destruct (port_type type) as [clflags mx] eqn:Ept. destruct (proto_of proto) as [[t p]|] eqn:Epr; [|by injection E as <- _].
  destruct (_ && _) eqn:Eu in E; [by injection E as <- _|]. inv_bind E. destruct (_ || _) eqn:Eport in E; [by injection E as <- _|].
  destruct (getaddrinfo t p host portnum) as [[|ai ais]|] eqn:Eai; try (by injection E as <- _). inv_bind E. destruct x1 as [o|]; [|by injection E as <- _].
  match goal with Ho : listen_options _ _ _ _ _ _ = _ |- _ => eapply listen_options_spec in Ho as (O1 & O2 & O3); [|reflexivity|apply no_opts_ok] end.
  destruct (xorb _ _) eqn:Ex; [by injection E as <- _|]. apply xorb_eq in Ex. destruct (getaddrinfo_type _ _ _ _ _ ai Eai) as [T1 T2]; [left|].
  destruct (port_type_flags _ _ _ Ept) as [F1 F2]. set (g1 := if x <? 1024 then _ else g) in E.
  assert (lists_of g1 = lists_of g) as Eg1 by (unfold g1; by destruct (x <? 1024)).
  injection Eg1 as G1 G2 G3 G4 G5 G6. destruct (co_old _ _ _ _ Hok) as (Eold & _). rewrite G2, Eold in E.
  destruct (match find_listen_config old proto host x with Some o0 => (lc_id o0, g_randoms g1) | None => (random (g_randoms g1), S (g_randoms g1)) end) as [id n] eqn:Eid.
  injection E as <- _. eapply add_listener_ok; [exact Hok| |cbn; rewrite G1, G3, G4, G5, G6; by rewrite Eold].
  split; cbn [lc_ai lc_filters lc_certfile lc_keyfile lc_corepeer lc_client_flags lc_portnum lc_clients_max lc_proto lc_host lc_id]; try done.
  - rewrite T1, T2. by apply (proto_of_type proto).
  - intros _. split; [done|]. split; [done|]. split; [lia|]. split; [|split; [done|]].
    + intros Hu. rewrite Hu in *. cbn [andb] in Eu. rewrite T2. split; [|done]. destruct (Z.eqb_spec p IPPROTO_UDP); [done|done].
    + destruct (find_listen_config old proto host x); injection Eid as <- _; [done|by eexists].
Qed.

(** *** PeerGroup *)

Lemma peer_of_keeps af lp my_ai l peerid hp old ins peers g g' ok :
  config_ok old ins peers g -> l ∈ g.(g_listen_new) -> l.(lc_corepeer) = true -> l.(lc_portnum) = lp -> l.(lc_ai) = my_ai -> my_ai.(ai_family) = af ->
  peer_of getaddrinfo af lp [my_ai] peerid hp g = Some (g', ok) -> config_ok old ins peers g' /\ g'.(g_listen_new) = g.(g_listen_new).
Proof.
  intros Hok Hl Hc Hp Hai Haf E. unfold peer_of in E. destruct (parse_hostport hp) as [[host port_s]|]; [|by injection E as <- _]. inv_bind E.
  destruct (_ || _) in E; [by injection E as <- _|]. destruct (getaddrinfo _ _ _ _) as [[|ai [|]]|] in E; try (by injection E as <- _).
  destruct (Z.eqb_spec (ai_family ai) af) as [Ef|]; cbn [negb] in E; [|by injection E as <- _].
  destruct (ai_comp [ai] [my_ai]) eqn:Eme; [by injection E as <- _|].
  destruct (existsb _ _) eqn:Ed in E; injection E as <- _; [done|]. split; [|done].
  destruct Hok as [A B C D F]. split; try done; cbn [g_peer_new g_listen_new set_peer set_g_lists].
  - split; [|done]. apply list.Forall_forall. intros q Hq. unfold pe_same. cbn [pe_ai].
    destruct (ai_same ai (pe_ai q)) eqn:Es; [|done]. rewrite <- Ed. symmetry. apply existsb_exists. exists q. split; [by apply list_elem_of_In|].
    unfold ai_comp. cbn [existsb]. by rewrite Es.
  - constructor; [|done]. exists l. split; [done|]. split; [done|]. split; [done|]. cbn [pe_af pe_ai]. split; [congruence|]. split; [done|].
    unfold ai_comp in Eme. cbn [existsb] in Eme. rewrite Hai. by destruct (ai_same ai my_ai).
Qed.

Lemma peers_of_keeps af lp my_ai l n : forall args old ins peers g g' rc, (length args <= n)%nat ->
  config_ok old ins peers g -> l ∈ g.(g_listen_new) -> l.(lc_corepeer) = true -> l.(lc_portnum) = lp -> l.(lc_ai) = my_ai -> my_ai.(ai_family) = af ->
  peers_of getaddrinfo af lp [my_ai] args g = Some (g', rc) -> config_ok old ins peers g'.
Proof.
  induction n as [|n IH]; intros args old ins peers g g' rc Hn Hok Hl Hc Hp Hai Haf E.
  { destruct args; [by injection E as <- _|cbn in Hn; lia]. }
  destruct args as [|a [|b args]]; cbn [peers_of] in E; try (by injection E as <- _). inv_bind E. destruct x as [g1 ok].
  match goal with Hx : peer_of _ _ _ _ _ _ _ = _ |- _ => eapply peer_of_keeps in Hx as [H1 H2]; try done end.
  destruct ok; [|by injection E as <- _]. eapply IH; try done; [cbn in Hn; lia|by rewrite H2].
Qed.

Lemma do_peergroup_keeps : keeps (do_peergroup getaddrinfo random).
Proof.
  intros old ins peers g argv g' rc Hargv Hok E. unfold do_peergroup in E. destruct argv as [|x0 [|name [|proto [|local args]]]]; try (by injection E as <- _).
  destruct (negb _) in E; [by injection E as <- _|]. destruct (parse_hostport local) as [[host port_s]|]; [|by injection E as <- _]. inv_bind E.
  destruct (getaddrinfo _ _ host port_s) as [[|ai [|]]|] eqn:Eai in E; try (by injection E as <- _).
  destruct (getaddrinfo_type _ _ _ _ _ ai Eai) as [T1 T2]; [left|]. set (li := mk_lc _ _ _ _ _ _ _ _ _ _ _ _ _ _ _ _) in E.
  eapply (peers_of_keeps _ _ _ li); [reflexivity| | | | | | |exact E]; try done; [|left].
  eapply add_listener_ok; [exact Hok| |done]. split; cbn [lc_ai lc_filters lc_certfile lc_keyfile lc_corepeer lc_client_flags lc_clients_max lc_acl li]; try done.
  - rewrite T1, T2. by left.
  - split; [done|]. apply (no_opts_ok 0 0).
Qed.

(** *** Uplink and the others *)

Lemma uplink_options_keep n : forall args l l', (length args <= n)%nat -> uplink_options args l = Some l' ->
  (l'.(ul_name), l'.(ul_proto), l'.(ul_host), l'.(ul_port), l'.(ul_client_flags), l'.(ul_state), l'.(ul_client_ptr)) =
  (l.(ul_name), l.(ul_proto), l.(ul_host), l.(ul_port), l.(ul_client_flags), l.(ul_state), l.(ul_client_ptr)).
Proof.
  induction n as [|n IH]; intros args [name proto host port key cert ca crl ssl fl st cp] l' Hn E.
  { destruct args; [|cbn in Hn; lia]. by injection E as <-. }
  destruct args as [|a [|v args]]; cbn [uplink_options] in E; [by injection E as <-|done|]. cbn [length] in Hn.
  do 4 (destruct (is_opt a _ _) in E; [inv_bind E; apply IH in E; [done|lia]|]). done.
Qed.

Lemma do_uplink_keeps : keeps do_uplink.
Proof.
  intros old ins peers g argv g' rc Hargv Hok E. unfold do_uplink in E. destruct argv as [|x0 [|name [|type [|proto [|host args]]]]]; try (by injection E as <- _).
  destruct (uplink_type type) as [fl|] eqn:Et; [|by injection E as <- _]. destruct (proto_of proto) as [pr|] eqn:Ep; cbn [given negb] in E; [|by injection E as <- _].
  destruct args as [|port_s args]; [done|]. inv_bind E. destruct (_ || _) eqn:Er in E; [by injection E as <- _|].
  destruct (uplink_options _ _) as [l|] eqn:El; [|by injection E as <- _]. injection E as <- _. eapply uplink_options_keep in El; [|reflexivity].
  cbn [ul_name ul_proto ul_host ul_port ul_client_flags ul_state ul_client_ptr] in El. injection El as L1 L2 L3 L4 L5 L6 L7.
  destruct Hok as [A B C D F]. split; try done. cbn [g_uplink_new set_uplink set_g_lists]. apply Forall_app. split; [done|]. constructor; [|constructor].
  split; rewrite ?L1, ?L2, ?L4, ?L5, ?L6, ?L7; [by apply list.Forall_cons_1 in Hargv as [_ [? _]%list.Forall_cons_1]| |exists x; split; [done|lia]|by rewrite Ep; eexists|done].
  unfold uplink_type in Et. repeat split_if_in Et; try done; injection Et as <-; auto.
Qed.

Lemma keeps_lists f : (forall g argv g' rc, f g argv = Some (g', rc) -> lists_of g' = lists_of g) -> keeps f.
Proof. intros Hf old ins peers g argv g' rc Ha Hok E. eapply config_ok_lists; [exact Hok|]. by eapply Hf. Qed.

Lemma uplinkbind_lists args : forall g g' rc, uplinkbind getaddrinfo args g = Some (g', rc) -> lists_of g' = lists_of g.
Proof.
  induction args as [|a args IH]; intros g g' rc E; cbn [uplinkbind] in E; [by injection E as <- _|].
  destruct (getaddrinfo _ _ _ _) as [[|ai [|]]|] in E; try (by injection E as <- _). repeat split_if_in E; [by apply IH in E..|by injection E as <- _].
Qed.

(** Directives that only set variables. *)
Ltac plain_cmd :=
  apply keeps_lists; intros ? ? ? ? E;
  repeat match type of E with
  | context [match ?a with [] => _ | _ :: _ => _ end] => destruct a
  | context [let '(_, _) := ?a in _] => destruct a
  | _ ≫= _ = Some _ => let x := fresh in inv_bind E
  | context [if ?b then _ else _] => destruct b
  end; by injection E as <- _.

Lemma str_cmd_keeps v : keeps (str_cmd v).
Proof. unfold str_cmd. plain_cmd. Qed.
Lemma arr_cmd_keeps v : keeps (arr_cmd v).
Proof. unfold arr_cmd. plain_cmd. Qed.
Lemma int_cmd_keeps v : keeps (int_cmd v).
Proof. unfold int_cmd. plain_cmd. Qed.
Lemma interval_cmd_keeps v : keeps (interval_cmd v).
Proof. unfold interval_cmd. plain_cmd. Qed.
Lemma bool_cmd_keeps v : keeps (bool_cmd v).
Proof. unfold bool_cmd. plain_cmd. Qed.
Lemma char_cmd_keeps : keeps char_cmd.
Proof. unfold char_cmd. plain_cmd. Qed.
Lemma do_http_keeps up : keeps (do_http_listener up).
Proof. unfold do_http_listener. plain_cmd. Qed.
Lemma do_logrotate_keeps : keeps do_logrotate.
Proof. unfold do_logrotate. plain_cmd. Qed.
Lemma do_uplinkbind_keeps : keeps (do_uplinkbind getaddrinfo).
Proof. apply keeps_lists. intros g [|x0 [|a args]] g' rc E; unfold do_uplinkbind in E; [by injection E as <- _..|]. by eapply uplinkbind_lists. Qed.

#[local] Hint Resolve str_cmd_keeps arr_cmd_keeps int_cmd_keeps interval_cmd_keeps bool_cmd_keeps char_cmd_keeps do_http_keeps do_logrotate_keeps
  do_uplinkbind_keeps do_uplink_keeps do_listen_keeps do_peergroup_keeps : core.

Abbreviation cmds := (cfg_cmds getaddrinfo acl_lookup open_file random cosf).

Definition still_ok old ins peers (g : option globals) : Prop := forall x, g = Some x -> config_ok old ins peers x.

Lemma cmd_keeps name f old ins peers : keeps f -> forall c argv, Forall nul_free argv -> still_ok old ins peers c -> still_ok old ins peers ((cmd name f).(cmd_function) c argv).1.
Proof.
  intros Hf [g|] argv Ha Hc; cbn [cmd_function cmd]; [|done]. destruct (f g argv) as [[g' rc]|] eqn:E; [|done]. intros x [= <-]. eapply Hf; [done| |exact E]. by apply Hc.
Qed.

Lemma read_keeps old ins peers text g g' rc :
  config_ok old ins peers g -> read_cfgfile cmds text (Some g) = Some (Some g', rc) -> config_ok old ins peers g'.
Proof.
  intros Hok E. apply (read_lines_inv (still_ok old ins peers)) in E; [by apply E| |by intros ? [= <-]].
  intros k Hk c argv. unfold cfg_cmds in Hk.
  repeat (apply elem_of_cons in Hk as [->|Hk]; [apply cmd_keeps; by auto|]). by apply elem_of_nil in Hk.
Qed.

(** ** Installing *)

Lemma install_rundir_lists g : lists_of (install_rundir is_directory g).1 = lists_of g.
Proof. unfold install_rundir. destruct (g_str g Rundir); [done|]. by destruct (g_str g NewRundir). Qed.
Lemma install_serverid_lists g : lists_of (install_serverid g).1 = lists_of g.
Proof. unfold install_serverid. destruct (g_str g Serverid); [done|]. destruct (g_str g NewServerid); [|done]. by destruct (serverid_valid _). Qed.
Lemma install_needed_lists n c g : lists_of (install_needed n c g).1 = lists_of g.
Proof. unfold install_needed. by destruct (g_str g n). Qed.
Lemma clamp_workers_lists g : lists_of (clamp_workers g) = lists_of g.
Proof. unfold clamp_workers. by repeat split_if. Qed.
Lemma install_pidfile_lists g : lists_of (install_pidfile g) = lists_of g.
Proof. unfold install_pidfile. by destruct (g_str g Pidfile). Qed.

(** The uplinks that are fit to be installed. *)
Definition good_uplinks (ls : list uplink_config_t) : list uplink_config_t :=
  if existsb is_multiro ls && existsb (fun l => negb (is_multiro l)) ls || existsb is_multi_rw ls then [] else ls.

Lemma check_uplinks_lists g :
  lists_of (check_uplinks g).1 = (g.(g_listen_new), g.(g_listen), good_uplinks g.(g_uplink_new), g.(g_uplink_install), g.(g_peer_new), g.(g_peer)).
Proof. unfold check_uplinks, good_uplinks. cbv zeta. cbn [fst]. by destruct (_ || _). Qed.

(** What becomes of the lists. *)
Lemma install_lists g g' rc :
  install is_directory g = (g', rc) ->
  lists_of g' = ([], match g.(g_listen_new) with [] => g.(g_listen) | _ => g.(g_listen_new) end,
                 [], match g.(g_uplink_install) with [] => good_uplinks g.(g_uplink_new) | _ => g.(g_uplink_install) end, [], g.(g_peer_new)) /\
  (rc = 0 -> g.(g_listen_new) <> []).
Proof.
  intros E. unfold install in E.
  destruct (install_rundir is_directory g) as [g1 f1] eqn:E1. pose proof (install_rundir_lists g) as L1. rewrite E1 in L1. cbn [fst] in L1.
  destruct (install_serverid g1) as [g3 f3] eqn:E3. pose proof (install_serverid_lists g1) as L3. rewrite E3 in L3. cbn [fst] in L3.
  destruct (install_needed NewPasscode Passcode g3) as [g4 f4] eqn:E4. pose proof (install_needed_lists NewPasscode Passcode g3) as L4. rewrite E4 in L4. cbn [fst] in L4.
  destruct (install_needed NewMyadmin Myadmin g4) as [g5 f5] eqn:E5. pose proof (install_needed_lists NewMyadmin Myadmin g4) as L5. rewrite E5 in L5. cbn [fst] in L5.
  destruct (install_needed NewMyemail Myemail g5) as [g6 f6] eqn:E6. pose proof (install_needed_lists NewMyemail Myemail g5) as L6. rewrite E6 in L6. cbn [fst] in L6.
  set (g7 := install_arr NewDisallowIgate _ _) in E. assert (lists_of g7 = lists_of g) as L7 by (unfold g7; transitivity (lists_of g6); [done|congruence]).
  clearbody g7. clear - E L7. injection L7 as A1 A2 A3 A4 A5 A6.
  destruct (check_uplinks g7) as [g8 f7] eqn:E8. assert (lists_of g8 = (g_listen_new g, g_listen g, good_uplinks (g_uplink_new g), g_uplink_install g, g_peer_new g, g_peer g)) as L8.
  { pose proof (check_uplinks_lists g7) as L8. rewrite E8, A1, A2, A3, A4, A5, A6 in L8. exact L8. }
  pose proof (clamp_workers_lists g8) as L9. rewrite L8 in L9. set (g9 := clamp_workers g8) in *. clearbody g9. clear - E L9. injection L9 as A1 A2 A3 A4 A5 A6.
  unfold install_listen in E. rewrite A1 in E.
  assert (forall gx (b f8 : bool) ln, (if f8 then ln = [] else ln <> []) -> ln = g_listen_new g -> (if b || f8 then (gx, -1) else (install_pidfile gx, 0)) = (g', rc) -> lists_of g' = lists_of gx /\ (rc = 0 -> g_listen_new g <> [])) as Hend.
  { intros gx b f8 ln Hln -> Eend. destruct f8; [rewrite orb_true_r in Eend; by injection Eend as <- <-|].
    destruct b; injection Eend as <- <-; [done|]. split; [apply install_pidfile_lists|done]. }
  destruct (g_listen_new g) as [|l ls] eqn:El.
  - eapply Hend in E as [E Hrc]; [|done|done]. split; [rewrite E|exact Hrc]. unfold install_uplinks, lists_of.
    rewrite A4. destruct (g_uplink_install g); cbn; by rewrite ?A1, ?A2, ?A3, ?A4, ?A5, ?A6.
  - eapply (Hend _ _ false (l :: ls)) in E as [E Hrc]; [|done|done]. split; [rewrite E|exact Hrc]. unfold install_uplinks, lists_of.
    cbn [g_uplink_install set_listen set_g_lists]. rewrite A4. destruct (g_uplink_install g); cbn; by rewrite ?A1, ?A2, ?A3, ?A4, ?A5, ?A6.
Qed.

(** Nothing is left of an earlier file. *)
Definition no_pending (g : globals) : Prop := (g.(g_listen_new), g.(g_uplink_new), g.(g_peer_new)) = ([], [], []).

Lemma no_pending_ok g : no_pending g -> config_ok g.(g_listen) g.(g_uplink_install) g.(g_peer) g.
Proof. intros [= E1 E2 E3]. split; rewrite ?E1, ?E2, ?E3; try done; constructor. Qed.

(** All uplinks are multiple ones that only receive, or none is. *)
Definition no_loop (ls : list uplink_config_t) : Prop :=
  Forall (fun l => is_multi l = true /\ has l.(ul_client_flags) CLFLAGS_PORT_RO = true) ls \/ Forall (fun l => is_multi l = false) ls.

Lemma good_uplinks_spec ls : Forall uplink_read ls -> Forall uplink_read (good_uplinks ls) /\ no_loop (good_uplinks ls).
Proof.
  intros Hls. unfold good_uplinks. destruct (_ || _) eqn:E; [split; [constructor|right; constructor]|]. split; [done|].
  apply orb_false_elim in E as [E _]. apply andb_false_iff in E as [E|E].
  - right. apply list.Forall_forall. intros l Hl. destruct (is_multi l) eqn:Em; [|done]. rewrite <- E. symmetry. apply existsb_exists. exists l. split; [by apply list_elem_of_In|done].
  - left. apply list.Forall_forall. intros l Hl. assert (is_multi l = true) as Em.
    { destruct (is_multi l) eqn:Em; [done|]. rewrite <- E. apply existsb_exists. exists l. split; [by apply list_elem_of_In|]. by unfold is_multiro; unfold is_multi in Em; rewrite Em. }
    split; [done|]. destruct (proj1 (list.Forall_forall _ _) Hls l Hl) as [_ [F|[F|F]] _ _ _]; unfold is_multi in Em; rewrite F in *; by vm_compute in Em |- *.
Qed.

(** The configuration that is in use after a file was read. *)
Record installed (g g' : globals) : Prop := {
  in_listen : g'.(g_listen) <> [] /\ Forall (listen_read g.(g_listen)) g'.(g_listen);
  in_uplinks : g.(g_uplink_install) = [] -> Forall uplink_read g'.(g_uplink_install) /\ no_loop g'.(g_uplink_install);
  in_peers : peers_apart g'.(g_peer) /\ Forall (peer_listener g'.(g_listen)) g'.(g_peer);
  in_clean : no_pending g'
}.

Abbreviation read := (read_config getaddrinfo acl_lookup open_file is_directory random cosf).

Lemma read_config_spec file g g' : no_pending g -> read file g = Some (g', 0) -> installed g g'.
Proof.
  intros Hp E. unfold read_config in E. destruct file as [text|]; [|done]. inv_bind E. destruct x as [og rc]. inv_bind E. split_if_in E; [done|].
  match goal with Hx : read_cfgfile _ _ _ = Some (?o, _), Ho : ?o = Some _ |- _ => rewrite Ho in Hx; eapply read_keeps in Hx; [|by apply no_pending_ok] end.
  injection E as E. match goal with Hc : config_ok _ _ _ _ |- _ => rename Hc into Hok end. apply install_lists in E as [El Hrc]. injection El as L1 L2 L3 L4 L5 L6.
  destruct Hok as [(O1 & O2 & O3) B C D F]. specialize (Hrc eq_refl).
  assert (g_listen g' = g_listen_new x) as L2' by (rewrite L2; by destruct (g_listen_new x)). split.
  - rewrite L2'. done.
  - intros Hi. rewrite L4, O2, Hi. by apply good_uplinks_spec.
  - rewrite L6, L2'. done.
  - unfold no_pending. by rewrite L1, L3, L5.
Qed.

(** C18: Whatever the file says, a configuration that was read without error cannot make packets go in circles: its uplinks are
    all multiple uplinks that only receive, or none of them is one; no address is a peer twice; no peer has the
    address of this server, and each one has a listener for its port and address family.  Nothing is left over for the next file. *)
Theorem config_no_loops file g g' :
  no_pending g -> read file g = Some (g', 0) ->
  (g.(g_uplink_install) = [] -> Forall uplink_read g'.(g_uplink_install) /\ no_loop g'.(g_uplink_install)) /\
  peers_apart g'.(g_peer) /\ Forall (peer_listener g'.(g_listen)) g'.(g_peer) /\ no_pending g'.
Proof. intros Hp E. destruct (read_config_spec file g g' Hp E) as [_ H2 [H3 H4] H5]. done. Qed.

(** ** The uplink thread takes over *)

Lemma uplink_read_ok clients l : uplink_read l -> link_ok clients l.
Proof.
  intros [H1 H2 (p & H3 & _) _ [H4 _]]. split; [|done|by eexists|left; rewrite H4; done]. by destruct H2 as [->|[->| ->]].
Qed.

Lemma uplink_reconfigure_ok h cl cls ss config u :
  links_ok h cl cls ss u -> Forall uplink_read config -> links_ok h cl cls ss (uplink_reconfigure config u).
Proof.
  intros [K1 K2 K3 K4 K5 K6 K7] Hc. split; try done. cbn [up_config up_clients uplink_reconfigure set_up_config close_uplinkers].
  eapply list.Forall_impl; [exact Hc|]. apply uplink_read_ok.
Qed.

Lemma no_loop_regulars config j l : no_loop config -> config !! j = Some l -> regular l = true -> regulars_first (length config) config.
Proof.
  intros [Hm|Hr] Hj Hl.
  - destruct (proj1 (list.Forall_forall _ _) Hm l) as [Hx _]; [by eapply list_elem_of_lookup_2|]. unfold regular in Hl. by rewrite Hx in Hl.
  - split.
    + intros i [x Hx]%lookup_lt_is_Some_2. exists x. split; [done|]. unfold regular. apply negb_true_iff. apply (proj1 (list.Forall_forall _ _) Hr). by eapply list_elem_of_lookup_2.
    + intros i x Hi Hx%lookup_lt_Some. lia.
Qed.

(** C20: A file with uplinks gets the server connected: when it was read without error and the uplink thread has taken it over, and one of
    the regular uplinks it names can be reached, there is an uplink after as many rounds as it names, whatever the other servers do.
    Clients of old uplinks and the new links agree all the time. *)
Theorem configured_uplink_found file g g' tick isize osize h cl cls ss u (j : nat) l envs :
  no_pending g -> g.(g_uplink_install) = [] -> read file g = Some (g', 0) -> links_ok h cl cls ss u ->
  g'.(g_uplink_install) !! j = Some l -> regular l = true -> -1 <= u.(up_next) < Z.of_nat (length g'.(g_uplink_install)) ->
  length envs = length g'.(g_uplink_install) -> Forall (sane_env ss) envs -> Forall (fun env => answers (env.2 j) l) envs ->
  exists r u', (r <= length g'.(g_uplink_install))%nat /\
    rounds tick isize osize (take r envs) (uplink_reconfigure g'.(g_uplink_install) u) = Some u' /\ links_ok h cl cls ss u' /\ has_uplink u'.
Proof.
  intros Hp Hi E Hok Hj Hreg Hnext Hlen Hs Ha. destruct (read_config_spec file g g' Hp E) as [_ Hu _ _]. destruct (Hu Hi) as [Hr Hl].
  eapply links_found; try done; [by apply uplink_reconfigure_ok|by eapply no_loop_regulars|by eapply lookup_lt_Some].
Qed.

(** ** The accepting thread takes over *)

Lemma apply_filters_fit mem flags fs : forall k cf gauge,
  filters_ok cf -> chains_fit false k cf -> 0 <= k -> k + words_size (omap id fs) <= FILT_TEXTBUFSIZE -> is_Some (apply_filters cosf mem flags fs cf gauge).
Proof.
  induction fs as [|[f|] fs IH]; intros k cf gauge Hok Hcf Hk Hb; cbn [apply_filters]; [by eexists| |by eapply IH].
  cbn [omap list_omap id words_size foldr] in Hb. fold (words_size (omap id fs)) in Hb. pose proof (zlen_nonneg f). pose proof (words_size_nonneg (omap id fs)).
  destruct (filter_parse_fits false cosf mem flags k f cf gauge) as (cf1 & g1 & rc & E & H1); [done|done|lia|lia|].
  rewrite E. cbn [mbind option_bind]. apply filter_parse_keeps in E as (Hok1 & _); [|done]. apply (IH (k + zlen f + 1)); try done; lia.
Qed.

(** Filters of 448 bytes at most can be read for every client. *)
Lemma configured_filters_fine maxclients mem lc l :
  configured maxclients lc l -> words_size (omap id lc.(lc_filters)) <= FILT_TEXTBUFSIZE -> filters_fine cosf mem l.
Proof.
  intros [_ _ E _ _] Hb gauge. rewrite E. apply (apply_filters_fit mem _ _ 0); [by repeat constructor|by intros []; constructor|lia|lia].
Qed.

(** The system goes along with everything. *)
Definition sockets_open (os : list opening) : Prop := Forall (fun o => is_Some o.(op_socket) /\ o.(op_tls) = true) os.

End Spec.

(** ** Witnesses *)

Definition demo_resolver (socktype protocol : Z) (host port : list Z) : option (list addrinfo) :=
  n ← atoi port; Some [mk_ai AF_INET socktype protocol (Inet (zlen host)) n (host ++ [ch_colon] ++ port)].

Definition demo_globals (ls : list listen_config_t) : globals :=
  mk_globals (fun _ => 2) (fun v => if decide (v = LogDir) then Some (str "logs") else None) (fun _ => None) (fun _ => false) 65
    [] ls [] [] [] [] [] [] None None 0.

Definition lines (l : list string) : list Z := List.concat (map (fun s => str s ++ [10]) l).

Definition demo_head : list string := ["ServerId T2TEST"; "PassCode 8385"; "MyAdmin Me"; "MyEmail me@example.com"; "RunDir /tmp"]%string.
Definition demo_listen_line : string := "Listen Clients igate tcp 0.0.0.0 14580 filter m/500 maxclients 100"%string.

Abbreviation demo_read := (read_config demo_resolver (fun _ => None) (fun _ => None) (fun _ => true) (fun k => Z.of_nat k + 10) (fun x => x)).

(** What is computed of a run, without the variables. *)
Definition outcome (r : option (globals * Z)) := match r with Some (g, rc) => Some (lists_of g, rc) | None => None end.

Lemma outcome_some r l rc : outcome r = Some (l, rc) -> exists g, r = Some (g, rc) /\ lists_of g = l.
Proof. destruct r as [[g x]|]; [|done]. intros [= <- <-]. by exists g. Qed.

Lemma demo_resolver_type socktype protocol host port ais ai :
  demo_resolver socktype protocol host port = Some ais -> ai ∈ ais -> ai.(ai_socktype) = socktype /\ ai.(ai_protocol) = protocol.
Proof. unfold demo_resolver. intros E Ha. inv_bind E. injection E as <-. by apply list_elem_of_singleton in Ha as ->. Qed.

Definition demo_file : list Z :=
  lines (demo_head ++ [demo_listen_line; "Uplink first full tcp rotate.aprs2.net 10152"; "Uplink second ro tcp rotate.aprs2.net 10152";
                       "PeerGroup core udp 10.0.0.1:10100 T2ONE 10.0.0.10:10100 T2TWO 10.0.0.100:10100 T2SELF 10.0.0.1:10100"]%string).

Definition demo_outcome := Eval vm_compute in outcome (demo_read (Some demo_file) (demo_globals [])).

(** Two uplinks and two peers; the third is this server. *)
Lemma config_no_loops_witness :
  exists g', demo_read (Some demo_file) (demo_globals []) = Some (g', 0) /\ length g'.(g_uplink_install) = 2%nat /\ length g'.(g_peer) = 2%nat /\
    no_loop g'.(g_uplink_install) /\ peers_apart g'.(g_peer).
Proof.
  assert (outcome (demo_read (Some demo_file) (demo_globals [])) = demo_outcome) as E by (vm_compute; reflexivity).
  apply outcome_some in E as (g' & E & El). injection El as _ _ _ L4 _ L6.
  destruct (config_no_loops demo_resolver (fun _ => None) (fun _ => None) (fun _ => true) (fun k => Z.of_nat k + 10) (fun x => x) demo_resolver_type
              (Some demo_file) (demo_globals []) g') as (H1 & H2 & _).
  - reflexivity.
  - exact E.
  - exists g'. split; [exact E|]. split; [rewrite L4; reflexivity|]. split; [rewrite L6; reflexivity|]. split; [apply H1; reflexivity|exact H2].
Defined.

Definition demo_second : uplink_config_t :=
  mk_uplink (str "second") (str "tcp") (str "rotate.aprs2.net") (str "10152") None None None None false (Z.lor CLFLAGS_UPLINKPORT CLFLAGS_PORT_RO) UPLINK_ST_UNKNOWN None.

Lemma demo_second_answers : answers (demo_attempt true) demo_second.
Proof.
  split; [done|by vm_compute; eexists|exists 10152; split; [by vm_compute|lia]|exists 3%nat, 1%nat, 7; split; [done|]; split; [cbn; lia|done]|].
  split; [by eexists|done].
Qed.

(** The second of the two uplinks can be reached. *)
Lemma configured_uplink_found_witness :
  exists g' r u', demo_read (Some demo_file) (demo_globals []) = Some (g', 0) /\ (r <= 2)%nat /\
    rounds 100 512 512 (take r [demo_env; demo_env]) (uplink_reconfigure g'.(g_uplink_install) demo_uplinks) = Some u' /\ has_uplink u'.
Proof.
  assert (outcome (demo_read (Some demo_file) (demo_globals [])) = demo_outcome) as E by (vm_compute; reflexivity).
  apply outcome_some in E as (g' & E & El). injection El as _ _ _ L4 _ _.
  destruct (configured_uplink_found demo_resolver (fun _ => None) (fun _ => None) (fun _ => true) (fun k => Z.of_nat k + 10) (fun x => x) demo_resolver_type
              (Some demo_file) (demo_globals []) g' 100 512 512 demo_up_held [] (fun _ => []) [] demo_uplinks 1
              demo_second [demo_env; demo_env]) as (r & u' & R1 & R2 & _ & R4).
  - reflexivity.
  - reflexivity.
  - exact E.
  - exact demo_uplinks_ok.
  - rewrite L4. reflexivity.
  - reflexivity.
  - rewrite L4. cbn. lia.
  - rewrite L4. reflexivity.
  - repeat (constructor; [split; intros k; apply demo_attempt_sane|]). constructor.
  - repeat (constructor; [exact demo_second_answers|]). constructor.
  - rewrite L4 in R1. exists g', r, u'. split; [exact E|]. split; [exact R1|]. split; [exact R2|exact R4].
Defined.

Definition demo_reload_file : list Z := lines (demo_head ++ [demo_listen_line]).
Definition demo_reload := Eval vm_compute in outcome (demo_read (Some demo_reload_file) (demo_globals [demo_lc 1 "14580" 14580])).


(** A file that is refused leaves its peers behind, and every file with one of these peers is refused from then on, also
    one that would be read without error by a server that just started. *)
Theorem failed_file_sticks :
  exists g1 g2, demo_read (Some (demo_file ++ lines ["Nonsense"%string])) (demo_globals []) = Some (g1, -1) /\
    demo_read (Some demo_file) g1 = Some (g2, -1) /\ ~ no_pending g1.
Proof.
  assert (match demo_read (Some (demo_file ++ lines ["Nonsense"%string])) (demo_globals []) with
          | Some (g, rc) => rc = -1 /\ length (g_peer_new g) = 2%nat /\ option_map snd (demo_read (Some demo_file) g) = Some (-1)
          | None => False end) as H by (vm_compute; repeat split; reflexivity).
  destruct (demo_read (Some (demo_file ++ lines ["Nonsense"%string])) (demo_globals [])) as [[g1 rc]|]; [|destruct H]. destruct H as (-> & Hl & H).
  destruct (demo_read (Some demo_file) g1) as [[g2 rc2]|] eqn:E2; [|cbn in H; discriminate H]. cbn in H. injection H as ->.
  exists g1, g2. split; [done|]. split; [exact E2|]. intros [= _ _ E3]. by rewrite E3 in Hl.
Qed.
