(* ===== verification/LiveUpgrade.v ===== *)
(** * Live upgrade: clients survive a restart

    The old process writes a status file with everything it knows of its clients ([worker_client_json]
    of worker.c) and starts the new program in its place; the sockets stay open.  The new process makes its clients out of that file
    ([accept_liveupgrade_single] of accept.c).

    The file is a JSON tree here: printing and reading it is the work of the JSON library.  Integers, strings, arrays and objects
    are read as they were written; a real number comes back as [reread] of it, because the library prints six decimals. *)

From S2P Require Import Prelude Types Cfloat Cfgfile Acl ParseQc ParseAprs Clientlist ClientHeard Filter FilterParse Outgoing Login.
From S2P Require Import Plist ClientIO Accounting Worker WorkerSpec Newclient Accept Config.
From Stdlib Require Import ZArith Lia Bool String SpecFloat.
From stdpp Require Import base tactics list gmap numbers.
Open Scope Z_scope.

(** ** JSON *)

Inductive json : Type :=
  | JNumber (n : Z)
  | JReal (x : spec_float)
  | JString (s : list Z)
  | JArray (l : list json)
  | JObject (l : list (list Z * json)).

Inductive jtype : Set := TNumber | TString | TArray | TObject.

Definition json_type (j : json) : jtype :=
  match j with JNumber _ | JReal _ => TNumber | JString _ => TString | JArray _ => TArray | JObject _ => TObject end.

#[export] Instance jtype_dec : EqDecision jtype.
Proof. solve_decision. Defined.

(** [cJSON_GetObjectItem]: the first member of a name, in any case of letters. *)
Definition get_item (key : string) (j : json) : option json :=
  match j with JObject l => snd <$> List.find (fun kv => caseeq kv.1 (str key)) l | _ => None end.

(** [accept_liveupgrade_cJSON_get] *)
Definition get_typed (key : string) (type : jtype) (j : json) : option json :=
  v ← get_item key j; if decide (json_type v = type) then Some v else None.

(** [valueint]; a real number where the file has an integer is not modelled. *)
Definition valueint (j : json) : option Z := match j with JNumber n => Some n | _ => None end.
Definition valuestring (j : json) : list Z := match j with JString s => s | _ => [] end.

(** ** Buffers as text *)

Definition lut (n : Z) : Z := if n <? 10 then 48 + n else 87 + n.

(** [hex_encode]: the index of the first digit is negative for a [char] that is. *)
Fixpoint hex_encode (buf : list Z) : option (list Z) :=
  match buf with
  | [] => Some []
  | b :: buf => if b <? 128 then s ← hex_encode buf; Some (lut (Z.shiftr b 4) :: lut (Z.land b 15) :: s) else None
  end.

Definition hex_val (c : Z) : option Z :=
  let h := toupper c in
  if (48 <=? h) && (h <=? 57) then Some (h - 48) else if (65 <=? h) && (h <=? 70) then Some (h - 65 + 10) else None.

(** The buffer and the length, or -1. *)
Fixpoint hex_loop (hex : list Z) (oi : nat) (obuf : list Z) : list Z * Z :=
  match hex with
  | h :: l :: t =>
      match hex_val h, hex_val l with
      | Some a, Some b => hex_loop t (S oi) (<[oi := a * 16 + b]> obuf)
      | _, _ => (obuf, -1)
      end
  | _ => (obuf, Z.of_nat oi)
  end.

Definition hex_decode (obuf : list Z) (hex : list Z) : list Z * Z :=
  if Z.odd (zlen hex) then (obuf, -1)
  else if zlen obuf <? zlen hex / 2 then (obuf, -1)
  else hex_loop hex 0 obuf.

(** ** The dump *)

Definition client_state_string (s : CStateEnum) : list Z :=
  match s with
  | CSTATE_CONNECTED => str "connected"
  | CSTATE_INIT => str "init"
  | CSTATE_LOGIN => str "login"
  | CSTATE_LOGRESP => str "logresp"
  | CSTATE_UDP => str "udp"
  | CSTATE_COREPEER => str "corepeer"
  end.

Definition json_rxerrs (vals : list Z) : json := JArray (map JNumber vals).

Definition num (key : string) (n : Z) : list (list Z * json) := [(str key, JNumber n)].
Definition text (key : string) (s : list Z) : list (list Z * json) := [(str key, JString s)].
Definition real (key : string) (x : spec_float) : list (list Z * json) := [(str key, JReal x)].
Definition when (b : bool) (l : list (list Z * json)) : list (list Z * json) := if b then l else [].

(** A buffer, if there is something in it. *)
Definition buffer (key : string) (data : list Z) : option (list (list Z * json)) :=
  match data with [] => Some [] | _ => s ← hex_encode data; Some (text key s) end.

(** An address without its port. *)
Definition cut_port (s : list Z) : list Z := let s := take 79 s in match strrchr s ch_colon with Some (a, _) => a | None => s end.

Definition IPPROTO_SCTP : Z := 132.

(** [addr_rem] and [connect_time] are what [c->addr_rem] and [c->connect_time] have, which only the status display reads; the
    texts of a certificate, which the new process does not read, are not modelled. *)
Definition worker_client_json (tick connect_time : Z) (addr_rem : list Z) (liveup_info : bool) (c : wclient) : option json :=
  let x := c.(wc_client) in
  let o := c.(wc_conn) in
  let a := c.(wc_account).(ca_local) in
  let feed := negb (c.(wc_udp_port) =? 0) && given c.(wc_udpclient) in
  obuf ← buffer "obuf" (take (Z.to_nat (o.(co_obuf_end) - o.(co_obuf_start))) (drop (Z.to_nat o.(co_obuf_start)) o.(co_obuf)));
  ibuf ← buffer "ibuf" (take (Z.to_nat o.(co_ibuf_end)) o.(co_ibuf));
  let core := bool_decide (x.(c_state) = CSTATE_COREPEER) in
  Some (JObject (
    num "fd" x.(c_fd) ++ num "id" x.(c_fd) ++
    when liveup_info (
      num "listener_id" c.(wc_listener_id) ++ text "state" (client_state_string x.(c_state)) ++ when feed (num "udp_port" c.(wc_udp_port)) ++
      obuf ++ ibuf ++
      when (has x.(c_flags) CLFLAGS_IGATE) [(str "client_heard", JArray (map JString (client_heard_json (c_heard_list x))))]) ++
    text "addr_rem" (if core then cut_port addr_rem else addr_rem) ++ text "addr_loc" (if core then cut_port c.(wc_addr_loc) else c.(wc_addr_loc)) ++
    when feed (num "udp_downstream" 1) ++
    num "t_connect" connect_time ++ num "t_connect_tick" c.(wc_connect_tick) ++ num "since_connect" (tick - c.(wc_connect_tick)) ++
    num "since_last_read" (tick - o.(co_last_read)) ++ text "username" x.(c_username) ++ text "app_name" c.(wc_app_name) ++ text "app_version" c.(wc_app_version) ++
    num "verified" x.(c_validated) ++ num "obuf_q" (o.(co_obuf_end) - o.(co_obuf_start)) ++
    num "bytes_rx" a.(pa_rxbytes) ++ num "bytes_tx" a.(pa_txbytes) ++ num "pkts_rx" a.(pa_rxpackets) ++ num "pkts_tx" a.(pa_txpackets) ++
    num "pkts_ign" a.(pa_rxdrops) ++ num "pkts_dup" a.(pa_rxdupes) ++ num "heard_count" x.(c_heard_count) ++ num "courtesy_count" x.(c_courtesy_count) ++
    when x.(c_loc_known) (real "lat" x.(c_lat) ++ real "lng" x.(c_lng)) ++
    when x.(c_quirks_mode) (num "quirks_mode" 1) ++ when x.(c_no_tx) (num "no_tx" 1) ++
    [(str "rx_errs", json_rxerrs a.(pa_rxerrs))] ++
    (if core then text "mode" (str "peer")
     else if has x.(c_flags) CLFLAGS_INPORT then text "filter" c.(wc_filters).(cf_filter_s)
     else text "mode" (if has x.(c_flags) CLFLAGS_UPLINKMULTI then str "multiro" else if has x.(c_flags) CLFLAGS_PORT_RO then str "ro" else str "full")) ++
    when (c.(wc_proto) =? IPPROTO_SCTP) (text "proto" (str "sctp")))).

(** ** Error counters under their names *)

(** The last of the labels that is [s], or -1. *)
Fixpoint label_index (labels : list (list Z)) (s : list Z) (j r : Z) : Z :=
  match labels with
  | [] => r
  | l :: labels => label_index labels s (j + 1) (if bool_decide (l = s) then j else r)
  end.

Definition accept_rx_err_map (rx_err_labels : list json) : list Z :=
  map (fun v => match v with JString s => label_index inerr_labels s 0 (-1) | _ => -1 end) rx_err_labels.

Fixpoint accept_rx_err_load (rxerr_map : list Z) (vals : list json) (rxerrs : list Z) : list Z :=
  match rxerr_map, vals with
  | j :: rxerr_map, v :: vals =>
      accept_rx_err_load rxerr_map vals
        (if (0 <=? j) && (j <? INERR_BUCKETS) then match v with JNumber n => if 0 <? n then <[Z.to_nat j := n]> rxerrs else rxerrs | _ => rxerrs end else rxerrs)
  | _, _ => rxerrs
  end.

(** ** Old clients in the new process *)

(** What the system says of a socket: the peer, the local address, whether its options can be set; the
    address of the structure; and two random numbers. *)
Record survivor := mk_survivor {
  sv_peer : option sockaddr;
  sv_addr_loc : list Z;
  sv_sockopt : bool;
  sv_client : option Z;
  sv_keepalive : Z;
  sv_cleanup : Z
}.

Section LiveUpgrade.
Variable maxclients tick now : Z.
Variable cosf : spec_float -> spec_float.
Variable mem quirks_mode : bool.
Variable isize osize : Z.
Variable reread : spec_float -> spec_float.

(** The members of the file that have to be there. *)
Definition required : list (string * jtype) := [
  ("fd", TNumber); ("listener_id", TNumber); ("state", TString); ("username", TString); ("t_connect", TNumber); ("addr_loc", TString);
  ("app_name", TString); ("app_version", TString); ("verified", TNumber); ("obuf_q", TNumber); ("bytes_rx", TNumber); ("bytes_tx", TNumber);
  ("pkts_rx", TNumber); ("pkts_tx", TNumber); ("pkts_ign", TNumber); ("rx_errs", TArray); ("filter", TString)]%string.

Definition int_item (key : string) (j : json) : option Z := v ← get_item key j; valueint v.
Definition str_item (key : string) (j : json) : list Z := match get_item key j with Some v => valuestring v | None => [] end.

(** A member that may be missing. *)
Definition opt_number (key : string) (j : json) : option (option Z) :=
  match get_item key j with Some v => if decide (json_type v = TNumber) then n ← valueint v; Some (Some n) else Some None | None => Some None end.

(** The filters of the user; the gauge goes with them. *)
Definition restore_filters (flags : Z) (filter : list Z) (cf : client_filters) (gauge : Z) : option (client_filters * Z) :=
  if has flags CLFLAGS_USERFILTEROK && negb (bool_decide (filter = [])) then
    parse_filters cosf mem flags (parse_args filter) (set_filter_s (sanitize_ascii_string (take (Z.to_nat (FILTER_S_SIZE - 1)) filter)) cf) gauge
  else Some (cf, gauge).

(** The UDP feed: the port, and its account. *)
Definition restore_udp (port : option Z) (c : wclient) (acc : accounts) : option (Z * accounts) :=
  match port with
  | Some p => if (1024 <? p) && (p <? 65536) && given c.(wc_udpclient)
              then acc ← inbound_connects_account 3 c.(wc_account).(ca_udp) acc; Some (p, acc)
              else Some (c.(wc_udp_port), acc)
  | None => Some (c.(wc_udp_port), acc)
  end.

(** A buffer, and its length if the text could be decoded. *)
Definition restore_buffer (key : string) (j : json) (buf : list Z) : list Z * option Z :=
  match get_item key j with
  | Some (JString s) => let '(buf, l) := hex_decode buf s in (buf, if l <? 0 then None else Some l)
  | _ => (buf, None)
  end.

Definition restore_heard (j : json) (l : heard_list) : option heard_list :=
  match get_item "client_heard" j with
  | Some (JArray vs) => client_heard_json_load mem tick (omap (fun v => match v with JString s => Some s | _ => None end) vs) l
  | _ => Some l
  end.

Definition restore_rxerrs (j : json) (rxerr_map : list Z) (rxerrs : list Z) : list Z :=
  match get_item "rx_errs" j with Some (JArray vs) => accept_rx_err_load rxerr_map vs rxerrs | _ => rxerrs end.

(** [valuedouble], as a [float]. *)
Definition valuefloat (j : json) : option spec_float :=
  match j with JNumber n => Some (to_f32 (f64_of_Z n)) | JReal x => Some (reread x) | _ => None end.

(** A position; the cosine is not set. *)
Definition restore_position (j : json) (x : client_t) : client_t :=
  match (get_item "lat" j ≫= valuefloat), (get_item "lng" j ≫= valuefloat) with
  | Some lat, Some lng => set_c_lng lng (set_c_lat lat (set_c_loc_known true x))
  | _, _ => x
  end.

(** The members of the client behind the test of its state. *)
Definition restore_client (client : json) (rxerr_map : list Z) (sv : survivor) (name : list Z) (st : CStateEnum) (c : wclient) (w : worker)
    : option (wclient * worker) :=
  time_connect ← int_item "t_connect" client;
  tick_connect ← opt_number "t_connect_tick" client;
  verified ← int_item "verified" client;
  bytes_rx ← int_item "bytes_rx" client; bytes_tx ← int_item "bytes_tx" client;
  pkts_rx ← int_item "pkts_rx" client; pkts_tx ← int_item "pkts_tx" client; pkts_ign ← int_item "pkts_ign" client;
  udp_port ← opt_number "udp_port" client;
  let x := set_c_login st verified name c.(wc_client).(c_quirks_mode) c.(wc_client).(c_no_tx) c.(wc_client) in
  let lg := login_set_app_name quirks_mode (str_item "app_name" client) (str_item "app_version" client)
              (mk_login x c.(wc_filters) [] [] 0 0 false 0 tt) in
  let x := lg.(lg_client) in
  '(cf, gauge) ← restore_filters x.(c_flags) (str_item "filter" client) c.(wc_filters) w.(wk_gauge);
  '(port, acc) ← restore_udp udp_port c w.(wk_accounts);
  let o := c.(wc_conn) in
  let '(ibuf, iend) := restore_buffer "ibuf" client o.(co_ibuf) in
  let '(obuf, oend) := restore_buffer "obuf" client o.(co_obuf) in
  let o := mk_conn ibuf (default o.(co_ibuf_end) iend) obuf (if given oend then 0 else o.(co_obuf_start)) (default o.(co_obuf_end) oend) o.(co_obuf_flushsize) o.(co_obuf_writes) o.(co_obuf_wtime)
             o.(co_last_read) o.(co_udp) o.(co_poll_out) o.(co_closed) o.(co_calls) o.(co_sent) o.(co_datagrams) in
  hl ← restore_heard client (c_heard_list x);
  let x := restore_position client (set_c_heard_list hl x) in
  let a := c.(wc_account).(ca_local) in
  let a := mk_portaccount a.(pa_counter) a.(pa_gauge) a.(pa_gauge_max) bytes_rx bytes_tx pkts_rx pkts_tx pkts_ign a.(pa_rxdupes)
             (restore_rxerrs client rxerr_map a.(pa_rxerrs)) a.(pa_refcount) in
  let connect_tick := match tick_connect with Some t => t | None => tick - (now - time_connect) end in
  Some (mk_wclient x cf o (mk_client_account a c.(wc_account).(ca_port) c.(wc_account).(ca_udp)) c.(wc_proto) c.(wc_addr_loc) c.(wc_udpclient) port
          connect_tick (tick + sv.(sv_keepalive)) (tick + sv.(sv_cleanup)) c.(wc_listener_id) c.(wc_addr) lg.(lg_app_name) lg.(lg_app_version),
        set_wk_gauge gauge (set_wk_accounts acc w)).

(** The client is given up: its socket is closed, and again when the structure is freed. *)
Definition drop_survivor (id : Z) (c : wclient) (w : worker) (a : acceptor) : option (acceptor * Z) :=
  w ← give_up_client id c (close_fd c.(wc_client).(c_fd) (add_client id c w));
  Some (set_al_worker w a, -1).

Definition set_wk_table (t : clientlist_table) (w : worker) : worker :=
  mk_wk w.(wk_store) w.(wk_list) w.(wk_class) w.(wk_count) w.(wk_new) w.(wk_peers) w.(wk_accounts) w.(wk_udp) t w.(wk_gauge) w.(wk_uplinks) w.(wk_fds).

Definition accept_liveupgrade_single (client : json) (rxerr_map : list Z) (sv : survivor) (a : acceptor) : option (acceptor * Z) :=
  fd ← (match get_typed "fd" TNumber client with Some v => valueint v | None => Some (-1) end);
  let closed := Some (set_al_worker (close_fd fd a.(al_worker)) a, -1) in
  if fd <? 0 then Some (a, -1)
  else if negb (forallb (fun '(k, t) => given (get_typed k t client)) required) then closed
  else match sv.(sv_peer) with
  | None => closed
  | Some sa =>
      listener_id ← int_item "listener_id" client;
      match find_listener_hash_id a.(al_listen) listener_id, sv.(sv_client) with
      | Some l, Some id =>
          '(c, w) ← accept_client_for_listener tick cosf mem isize osize l id (mk_arrival fd sa (Some id) sv.(sv_addr_loc) sv.(sv_sockopt) true)
                      CSTATE_INIT 0 a;
          let state := str_item "state" client in
          let connected := bool_decide (state = str "connected") in
          if negb connected && negb (bool_decide (state = str "login")) then drop_survivor id c w a
          else
            '(c, w) ← restore_client client rxerr_map sv (if connected then take 15 (str_item "username" client) else [])
                        (if connected then CSTATE_CONNECTED else CSTATE_LOGIN) c w;
            if negb sv.(sv_sockopt) then drop_survivor id c w a
            else
              let '(table, old_fd) := clientlist_add w.(wk_table) c.(wc_client) in
              let a := if negb (c.(wc_client).(c_validated) =? 0) && negb (old_fd =? -1) then al_shut old_fd a else a in
              Some (set_al_worker (pass_client_to_worker id (add_client id c (set_wk_table table w))) a, 0)
      | _, _ => closed
      end
  end.

(** All clients of the file: how many were accepted. *)
Fixpoint liveupgrade_clients (clients : list json) (rxerr_map : list Z) (svs : list survivor) (a : acceptor) (accepted : Z) : option (acceptor * Z) :=
  match clients, svs with
  | client :: clients, sv :: svs =>
      if decide (json_type client = TObject) then
        '(a, rc) ← accept_liveupgrade_single client rxerr_map sv a;
        liveupgrade_clients clients rxerr_map svs a (if rc =? 0 then accepted + 1 else accepted)
      else liveupgrade_clients clients rxerr_map svs a accepted
  | _, _ => Some (a, accepted)
  end.

Definition accept_liveupgrade_accept (status : json) (svs : list survivor) (a : acceptor) : option (acceptor * Z) :=
  let rxerr_map := match get_item "rx_errs" status with Some (JArray labels) => accept_rx_err_map labels | _ => [] end in
  match get_item "clients" status with
  | Some (JArray clients) => liveupgrade_clients clients rxerr_map svs a 0
  | _ => Some (a, 0)
  end.
End LiveUpgrade.
