(* ===== verification/LiveUpgradeSpec.v ===== *)
(** * What survives a live upgrade

    A client that is logged in is in the new process what it was in the old one: its name and
    its verification, its counters, what it had sent and what was still to be sent to it, the stations it heard,
    and its filters.  For bytes of 128 and more in the buffers this is not so: their text is undefined. *)

From S2P Require Import Prelude Table Types Cfloat Cfgfile Acl ParseQc ParseAprs Clientlist ClientHeard Filter FilterParse FilterSpec FilterText Outgoing Login LoginSpec.
From S2P Require Import Plist ClientIO Accounting Worker WorkerSpec Newclient Accept Uplink UplinkSpec AcceptSpec Config ConfigSpec LiveUpgrade.
From Stdlib Require Import ZArith Lia Bool String SpecFloat.
From stdpp Require Import base tactics list gmap numbers.
Open Scope Z_scope.

(** ** Buffers *)

Definition ascii_bytes (s : list Z) : Prop := Forall (fun b => 0 <= b < 128) s.

Lemma hex_val_lut n : 0 <= n < 16 -> hex_val (lut n) = Some n.
Proof.
  intros Hn. assert (forallb (fun k => bool_decide (hex_val (lut (Z.of_nat k)) = Some (Z.of_nat k))) (seq 0 16) = true) as H by done.
  pose proof (proj1 (forallb_forall _ _) H (Z.to_nat n) ltac:(apply in_seq; lia)) as Hx. cbv beta in Hx. rewrite Z2Nat.id in Hx by lia.
  by apply bool_decide_eq_true_1 in Hx.
Qed.

Lemma nibbles b : 0 <= b < 128 -> 0 <= Z.shiftr b 4 < 16 /\ 0 <= Z.land b 15 < 16 /\ Z.shiftr b 4 * 16 + Z.land b 15 = b.
Proof.
  intros Hb. rewrite Z.shiftr_div_pow2 by lia. change 15 with (Z.ones 4). rewrite Z.land_ones by lia. change (2 ^ 4) with 16.
  pose proof (Z.div_mod b 16 ltac:(lia)). pose proof (Z.mod_pos_bound b 16 ltac:(lia)). assert (0 <= b / 16 < 16) by (split; [apply Z.div_pos; lia|apply Z.div_lt_upper_bound; lia]). lia.
Qed.

Lemma hex_encode_spec buf : ascii_bytes buf ->
  exists s, hex_encode buf = Some s /\ zlen s = 2 * zlen buf /\
    forall pre post, (length buf <= length post)%nat -> hex_loop s (length pre) (pre ++ post) = (pre ++ buf ++ drop (length buf) post, Z.of_nat (length pre) + zlen buf).
Proof.
  induction 1 as [|b buf Hb _ (s & E & Hl & IH)]; cbn [hex_encode].
  { exists []. split; [done|]. split; [done|]. intros pre post _. cbn [hex_loop Datatypes.app length]. rewrite drop_0. change (zlen []) with 0. by rewrite Z.add_0_r. }
  destruct (nibbles b Hb) as (H1 & H2 & H3). rewrite (proj2 (Z.ltb_lt b 128)) by lia. rewrite E. cbn [mbind option_bind]. eexists. split; [done|].
  split; [rewrite !zlen_cons, Hl; lia|]. intros pre [|x post] Hp; [cbn in Hp; lia|]. cbn [hex_loop]. rewrite !hex_val_lut, H3 by done.
  rewrite insert_app_r_alt by lia. rewrite Nat.sub_diag. cbn [insert list_insert].
  replace (pre ++ b :: post) with ((pre ++ [b]) ++ post) by (by rewrite <- app_assoc). replace (S (length pre)) with (length (pre ++ [b])) by (rewrite length_app; cbn; lia).
  rewrite IH by (cbn in Hp; lia). rewrite zlen_cons, length_app. cbn [length drop]. rewrite <- app_assoc. cbn [Datatypes.app]. f_equal. unfold zlen. lia.
Qed.

(** The text of a buffer is read back as the buffer, if its bytes are below 128 and it fits. *)
Theorem hex_roundtrip buf obuf : ascii_bytes buf -> zlen buf <= zlen obuf ->
  exists s, hex_encode buf = Some s /\ hex_decode obuf s = (buf ++ drop (length buf) obuf, zlen buf).
Proof.
  intros Hb Hl. destruct (hex_encode_spec buf Hb) as (s & E & Hs & Hloop). exists s. split; [done|]. unfold hex_decode.
  rewrite Hs, Z.odd_mul, andb_false_l. replace (2 * zlen buf / 2) with (zlen buf) by (rewrite Z.mul_comm, Z.div_mul; lia).
  rewrite (proj2 (Z.ltb_ge _ _)) by lia. apply (Hloop []). unfold zlen in Hl. lia.
Qed.

(** The text of a buffer with a byte of 128 or more is undefined: the table of digits has no such index. *)
Theorem hex_high_undefined buf b : b ∈ buf -> 128 <= b -> hex_encode buf = None.
Proof.
  intros Hb H. induction buf as [|x buf IH]; [by apply elem_of_nil in Hb|]. cbn [hex_encode]. apply elem_of_cons in Hb as [->|Hb].
  - by rewrite (proj2 (Z.ltb_ge x 128)) by lia.
  - rewrite IH by done. by destruct (x <? 128).
Qed.

(** ** Error counters *)

Lemma rx_err_map_same : accept_rx_err_map (map JString inerr_labels) = map Z.of_nat (seq 0 (Z.to_nat INERR_BUCKETS)).
Proof. by vm_compute. Qed.

Lemma rx_err_load_spec vals : forall pre,
  Z.of_nat (length pre + length vals) = INERR_BUCKETS -> Forall (fun n => 0 <= n) vals ->
  accept_rx_err_load (map Z.of_nat (seq (length pre) (length vals))) (map JNumber vals) (pre ++ repeat 0 (length vals)) = pre ++ vals.
Proof.
  induction vals as [|n vals IH]; intros pre Hl Hn; [done|]. apply list.Forall_cons_1 in Hn as [Hn Hv]. cbn [length seq map repeat accept_rx_err_load] in *.
  rewrite (proj2 (Z.leb_le _ _)), (proj2 (Z.ltb_lt _ _)) by lia. cbn [andb].
  assert ((if 0 <? n then <[Z.to_nat (Z.of_nat (length pre)) := n]> (pre ++ 0 :: repeat 0 (length vals)) else pre ++ 0 :: repeat 0 (length vals)) = (pre ++ [n]) ++ repeat 0 (length vals)) as ->.
  { rewrite <- app_assoc. cbn [Datatypes.app]. destruct (Z.ltb_spec 0 n); [|by replace n with 0 by lia]. rewrite Nat2Z.id, insert_app_r_alt by lia. by rewrite Nat.sub_diag. }
  replace (S (length pre)) with (length (pre ++ [n])) by (rewrite length_app; cbn; lia). rewrite IH; [by rewrite <- app_assoc|rewrite length_app; cbn; lia|done].
Qed.

(** ** Stations heard *)

Lemma heard_load_spec tick calls : forall l,
  heard_wf l -> Forall (fun c => zlen c <= CALLSIGNLEN_MAX) calls ->
  Z.of_nat (size (dom (heard_map l) ∪ list_to_set (map (map tolower) calls) : gset (list Z))) <= MAX_HEARD_PER_CLIENT ->
  exists l', client_heard_json_load true tick calls l = Some l' /\ heard_wf l' /\ dom (heard_map l') = dom (heard_map l) ∪ (list_to_set (map (map tolower) calls) : gset (list Z)).
Proof.
  unfold client_heard_json_load. induction calls as [|c calls IH]; intros l Hwf Hc Hs; cbn [fold_left map list_to_set] in *.
  { exists l. split; [done|]. split; [done|]. set_solver. }
  apply list.Forall_cons_1 in Hc as [Hc Hcs]. destruct (heard_update_map l Hwf true c tick Hc) as (l1 & E & W1 & M1). cbn [mbind option_bind]. rewrite E.
  assert (dom (heard_map l1) = dom (heard_map l) ∪ {[map tolower c]}) as D1.
  { rewrite M1. destruct (decide (is_Some (heard_map l !! map tolower c))) as [Hi|Hi].
    - rewrite bool_decide_eq_true_2 by done. cbn [orb]. rewrite dom_insert_L. set_solver.
    - rewrite bool_decide_eq_false_2 by done. cbn [orb andb]. rewrite (proj2 (Z.ltb_lt _ _)); [rewrite dom_insert_L; set_solver|].
      assert (map tolower c ∉ dom (heard_map l)) as Hd by (intros Hx%elem_of_dom; done).
      rewrite <- size_dom. enough (size (dom (heard_map l)) < size (dom (heard_map l) ∪ ({[map tolower c]} ∪ list_to_set (map (map tolower) calls)) : gset (list Z)))%nat by lia.
      apply subset_size. set_solver. }
  destruct (IH l1 W1 Hcs) as (l' & E' & W' & D'); [rewrite D1; by rewrite <- (assoc_L (∪))|]. exists l'. split; [done|]. split; [done|]. rewrite D', D1. set_solver.
Qed.

Lemma heard_dump_keys l : heard_wf l -> dom (heard_map l) = (list_to_set (map (map tolower) (client_heard_json l)) : gset (list Z)).
Proof.
  intros _. unfold heard_map, view, client_heard_json. rewrite dom_list_to_map_L. by rewrite !map_map.
Qed.

(** ** Members of the file *)

Lemma item_app key l1 l2 :
  get_item key (JObject (l1 ++ l2)) = match get_item key (JObject l1) with Some v => Some v | None => get_item key (JObject l2) end.
Proof. cbn [get_item]. induction l1 as [|kv l1 IH]; [done|]. cbn [Datatypes.app List.find]. by destruct (caseeq kv.1 (str key)). Qed.

Lemma item_when key b l : get_item key (JObject (when b l)) = if b then get_item key (JObject l) else None.
Proof. by destruct b. Qed.

Lemma item_one key k v : get_item key (JObject [(str k, v)]) = if caseeq (str k) (str key) then Some v else None.
Proof. cbn [get_item List.find fst]. by destruct (caseeq (str k) (str key)). Qed.

Lemma item_num key k n : get_item key (JObject (num k n)) = if caseeq (str k) (str key) then Some (JNumber n) else None.
Proof. apply item_one. Qed.
Lemma item_text key k s : get_item key (JObject (text k s)) = if caseeq (str k) (str key) then Some (JString s) else None.
Proof. apply item_one. Qed.
Lemma item_real key k x : get_item key (JObject (real k x)) = if caseeq (str k) (str key) then Some (JReal x) else None.
Proof. apply item_one. Qed.

Lemma item_buffer key k data l :
  buffer k data = Some l -> get_item key (JObject l) = if caseeq (str k) (str key) then (match data with [] => None | _ => JString <$> hex_encode data end) else None.
Proof.
  unfold buffer. intros E. destruct data as [|b data]; [injection E as <-; by destruct (caseeq _ _)|]. inv_bind E. injection E as <-. rewrite item_text, E0. done.
Qed.

Lemma if_none {A} (b : bool) : (if b then None else None : option A) = None.
Proof. by destruct b. Qed.

(** Find a member of a dump. *)
Ltac find_item :=
  repeat progress (rewrite ?item_app, ?item_when, ?item_num, ?item_text, ?item_real, ?item_one);
  repeat match goal with H : buffer _ _ = Some _ |- context [get_item ?k (JObject ?l)] => rewrite (item_buffer k _ _ _ H) end;
  repeat match goal with |- context [caseeq (str ?a) (str ?b)] => let v := eval vm_compute in (caseeq (str a) (str b)) in change (caseeq (str a) (str b)) with v end;
  repeat progress (cbv iota; rewrite ?if_none).

(** What is to be sent, and what was received of a line. *)
Definition pending_out (o : conn) : list Z := take (Z.to_nat (o.(co_obuf_end) - o.(co_obuf_start))) (drop (Z.to_nat o.(co_obuf_start)) o.(co_obuf)).
Definition pending_in (o : conn) : list Z := take (Z.to_nat o.(co_ibuf_end)) o.(co_ibuf).

Definition buffer_item (data : list Z) : option json := match data with [] => None | _ => JString <$> hex_encode data end.

Record dumped (ct : Z) (c : wclient) (j : json) : Prop := {
  di_fd : get_item "fd" j = Some (JNumber c.(wc_client).(c_fd));
  di_listener : get_item "listener_id" j = Some (JNumber c.(wc_listener_id));
  di_state : get_item "state" j = Some (JString (client_state_string c.(wc_client).(c_state)));
  di_username : get_item "username" j = Some (JString c.(wc_client).(c_username));
  di_time : get_item "t_connect" j = Some (JNumber ct);
  di_tick : get_item "t_connect_tick" j = Some (JNumber c.(wc_connect_tick));
  di_addr : get_item "addr_loc" j = Some (JString c.(wc_addr_loc));
  di_app : get_item "app_name" j = Some (JString c.(wc_app_name)) /\ get_item "app_version" j = Some (JString c.(wc_app_version));
  di_verified : get_item "verified" j = Some (JNumber c.(wc_client).(c_validated));
  di_obuf_q : exists n, get_item "obuf_q" j = Some (JNumber n);
  di_bytes : get_item "bytes_rx" j = Some (JNumber c.(wc_account).(ca_local).(pa_rxbytes)) /\ get_item "bytes_tx" j = Some (JNumber c.(wc_account).(ca_local).(pa_txbytes));
  di_pkts : get_item "pkts_rx" j = Some (JNumber c.(wc_account).(ca_local).(pa_rxpackets)) /\ get_item "pkts_tx" j = Some (JNumber c.(wc_account).(ca_local).(pa_txpackets)) /\
            get_item "pkts_ign" j = Some (JNumber c.(wc_account).(ca_local).(pa_rxdrops));
  di_errs : get_item "rx_errs" j = Some (json_rxerrs c.(wc_account).(ca_local).(pa_rxerrs));
  di_filter : get_item "filter" j = Some (JString c.(wc_filters).(cf_filter_s));
  di_udp : c.(wc_udp_port) = 0 -> get_item "udp_port" j = None;
  di_bufs : get_item "obuf" j = buffer_item (pending_out c.(wc_conn)) /\ get_item "ibuf" j = buffer_item (pending_in c.(wc_conn));
  di_heard : get_item "client_heard" j =
    if has c.(wc_client).(c_flags) CLFLAGS_IGATE then Some (JArray (map JString (client_heard_json (c_heard_list c.(wc_client))))) else None;
  di_pos : get_item "lat" j = (if c.(wc_client).(c_loc_known) then Some (JReal c.(wc_client).(c_lat)) else None) /\
           get_item "lng" j = (if c.(wc_client).(c_loc_known) then Some (JReal c.(wc_client).(c_lng)) else None)
}.

Lemma buffer_some k data : ascii_bytes data -> is_Some (buffer k data).
Proof. destruct data as [|b data]; [by eexists|]. intros Hd. destruct (hex_encode_spec _ Hd) as (s & E & _). unfold buffer. rewrite E. by eexists. Qed.

Lemma dump_spec tick ct addr c :
  c.(wc_client).(c_state) <> CSTATE_COREPEER -> has c.(wc_client).(c_flags) CLFLAGS_INPORT = true -> ascii_bytes (pending_out c.(wc_conn)) -> ascii_bytes (pending_in c.(wc_conn)) ->
  exists j, worker_client_json tick ct addr true c = Some j /\ dumped ct c j.
Proof.
  intros Hst Hin Ho Hi. unfold worker_client_json. fold (pending_out (wc_conn c)). fold (pending_in (wc_conn c)).
  destruct (buffer_some "obuf" _ Ho) as [obuf Eo]. destruct (buffer_some "ibuf" _ Hi) as [ibuf Ei]. rewrite Eo, Ei. cbn [mbind option_bind].
  rewrite bool_decide_eq_false_2 by done. rewrite Hin. eexists. split; [done|].
  split; unfold buffer_item; repeat split; find_item; try done.
  - by eexists.
  - intros ->. done.
  - by destruct (match pending_out (wc_conn c) with [] => None | _ => _ end).
  - by destruct (match pending_in (wc_conn c) with [] => None | _ => _ end).
  - by destruct (has (c_flags (wc_client c)) CLFLAGS_IGATE).
  - by destruct (c_loc_known (wc_client c)).
  - by destruct (c_loc_known (wc_client c)).
Qed.

(** ** The client in the new process *)

Section Survive.
Variable tick now : Z.
Variable cosf : spec_float -> spec_float.
Variable quirks_mode : bool.
Variable isize osize : Z.
Variable reread : spec_float -> spec_float.

(** A client that is logged in on a port that the listener [l] of the new process has too. *)
Record upgradable (l : listen_t) (c : wclient) : Prop := {
  ug_state : c.(wc_client).(c_state) = CSTATE_CONNECTED;
  ug_session : session_ok c.(wc_client) /\ 0 <= c.(wc_client).(c_fd);
  ug_port : c.(wc_listener_id) = l.(li_listener_id) /\ c.(wc_client).(c_flags) = l.(li_client_flags) /\ has l.(li_client_flags) CLFLAGS_INPORT = true;
  ug_feed : c.(wc_udp_port) = 0;
  ug_out : ascii_bytes (pending_out c.(wc_conn)) /\ zlen (pending_out c.(wc_conn)) <= osize;
  ug_in : ascii_bytes (pending_in c.(wc_conn)) /\ zlen (pending_in c.(wc_conn)) <= isize;
  ug_errs : zlen c.(wc_account).(ca_local).(pa_rxerrs) = INERR_BUCKETS /\ Forall (fun n => 0 <= n) c.(wc_account).(ca_local).(pa_rxerrs);
  ug_heard : heard_wf (c_heard_list c.(wc_client)) /\ Forall (fun s => zlen s <= CALLSIGNLEN_MAX) (client_heard_json (c_heard_list c.(wc_client))) /\
             Z.of_nat (size (heard_map (c_heard_list c.(wc_client)))) <= MAX_HEARD_PER_CLIENT;
  ug_filter : words_size (parse_args c.(wc_filters).(cf_filter_s)) <= FILT_TEXTBUFSIZE
}.

Record survived (c c' : wclient) : Prop := {
  su_client : (c'.(wc_client).(c_username), c'.(wc_client).(c_state), c'.(wc_client).(c_validated), c'.(wc_client).(c_fd), c'.(wc_client).(c_flags), c'.(wc_connect_tick)) =
              (c.(wc_client).(c_username), c.(wc_client).(c_state), c.(wc_client).(c_validated), c.(wc_client).(c_fd), c.(wc_client).(c_flags), c.(wc_connect_tick));
  su_counters : let a := c.(wc_account).(ca_local) in let a' := c'.(wc_account).(ca_local) in
    (a'.(pa_rxbytes), a'.(pa_txbytes), a'.(pa_rxpackets), a'.(pa_txpackets), a'.(pa_rxdrops), a'.(pa_rxerrs)) =
    (a.(pa_rxbytes), a.(pa_txbytes), a.(pa_rxpackets), a.(pa_txpackets), a.(pa_rxdrops), a.(pa_rxerrs));
  su_out : pending_out c'.(wc_conn) = pending_out c.(wc_conn);
  su_in : pending_in c'.(wc_conn) = pending_in c.(wc_conn);
  su_heard : has c.(wc_client).(c_flags) CLFLAGS_IGATE = true ->
    dom (heard_map (c_heard_list c'.(wc_client))) = dom (heard_map (c_heard_list c.(wc_client)));
  su_filters : has c.(wc_client).(c_flags) CLFLAGS_USERFILTEROK = true -> c.(wc_filters).(cf_filter_s) <> [] ->
    exists cf0 g g', (cf0.(neguserfilters), cf0.(posuserfilters)) = ([], []) /\
      parse_filters cosf true c.(wc_client).(c_flags) (parse_args c.(wc_filters).(cf_filter_s)) cf0 g = Some (c'.(wc_filters), g');
  su_position : c'.(wc_client).(c_loc_known) = c.(wc_client).(c_loc_known) /\
    (c.(wc_client).(c_loc_known) = true -> c'.(wc_client).(c_lat) = reread c.(wc_client).(c_lat) /\ c'.(wc_client).(c_lng) = reread c.(wc_client).(c_lng))
}.

Lemma restore_buffer_spec key j data n :
  get_item key j = buffer_item data -> ascii_bytes data -> zlen data <= n -> 0 <= n ->
  exists buf l, restore_buffer key j (repeat 0 (Z.to_nat n)) = (buf, l) /\ take (Z.to_nat (default 0 l)) buf = data /\ (forall x, l = Some x -> 0 <= x).
Proof.
  intros E Hd Hl Hn. unfold restore_buffer. rewrite E. destruct data as [|b data]; cbn [buffer_item]; [by eexists _, None|].
  destruct (hex_encode_spec _ Hd) as (s & -> & Hs & Hloop). cbn [fmap option_fmap option_map].
  assert (hex_decode (repeat 0 (Z.to_nat n)) s = ((b :: data) ++ drop (length (b :: data)) (repeat 0 (Z.to_nat n)), zlen (b :: data))) as ->.
  { unfold hex_decode. assert (zlen (repeat 0 (Z.to_nat n)) = n) as -> by (unfold zlen; rewrite repeat_length; lia).
    rewrite Hs, Z.odd_mul, andb_false_l. replace (2 * zlen (b :: data) / 2) with (zlen (b :: data)) by (rewrite Z.mul_comm, Z.div_mul; lia).
    rewrite (proj2 (Z.ltb_ge _ _)) by lia. apply (Hloop []). rewrite repeat_length. unfold zlen in Hl. lia. }
  rewrite (proj2 (Z.ltb_ge _ _)) by apply zlen_nonneg. eexists _, (Some _). split; [done|]. split; [|intros x [= <-]; apply zlen_nonneg].
  change (default 0 (Some (zlen (b :: data)))) with (zlen (b :: data)). unfold zlen. rewrite Nat2Z.id. apply take_app_length.
Qed.

(** The members that the restoring needs are there. *)
Lemma dumped_required ct c j : dumped ct c j -> forallb (fun '(k, t) => given (get_typed k t j)) required = true.
Proof.
  intros [D1 D2 D3 D4 D5 D6 D7 [D8 D8'] D9 [n D10] [D11 D11'] (D12 & D12' & D12'') D13 D14 _ _ _ _].
  unfold required, get_typed. cbn [forallb]. by rewrite D1, D2, D3, D4, D5, D7, D8, D8', D9, D10, D11, D11', D12, D12', D12'', D13, D14.
Qed.

Lemma restore_filters_spec flags fs cf gauge :
  filters_ok cf -> (cf.(neguserfilters), cf.(posuserfilters)) = ([], []) -> words_size (parse_args fs) <= FILT_TEXTBUFSIZE ->
  exists cf' gauge', restore_filters cosf true flags fs cf gauge = Some (cf', gauge') /\ gauge' - filter_count cf' = gauge - filter_count cf /\
    (has flags CLFLAGS_USERFILTEROK = true -> fs <> [] -> exists cf0 g g', (cf0.(neguserfilters), cf0.(posuserfilters)) = ([], []) /\ parse_filters cosf true flags (parse_args fs) cf0 g = Some (cf', g')).
Proof.
  intros Hok [= Hn Hp] Hw. unfold restore_filters. destruct (has flags CLFLAGS_USERFILTEROK) eqn:Eu; cbn [andb].
  2:{ exists cf, gauge. split; [done|]. by split. }
  destruct (decide (fs = [])) as [->|Hne]; [rewrite bool_decide_eq_true_2 by done; cbn [negb]; exists cf, gauge; split; [done|]; by split|].
  rewrite bool_decide_eq_false_2 by done. cbn [negb]. set (cf0 := set_filter_s _ cf). assert (filters_ok cf0) as Hok0 by (by destruct Hok).
  destruct (parse_filters_fit cosf true flags (parse_args fs) 0 cf0 gauge) as (cf' & g' & E & _); [done|intros []; cbn; [rewrite Hn|rewrite Hp]; constructor|lia|lia|].
  exists cf', g'. split; [done|]. split; [|intros _ _; exists cf0, gauge, g'; split; [cbn; by rewrite Hn, Hp|done]].
  apply parse_filters_keeps in E as (_ & E & _); [|done]. exact E.
Qed.

Lemma omap_strings l : omap (fun v => match v with JString s => Some s | _ => None end) (map JString l) = l.
Proof. induction l as [|x l IH]; [done|]. cbn [map omap list_omap]. f_equal. exact IH. Qed.

Lemma restore_heard_spec ct c j :
  dumped ct c j -> heard_wf (c_heard_list c.(wc_client)) -> Forall (fun s => zlen s <= CALLSIGNLEN_MAX) (client_heard_json (c_heard_list c.(wc_client))) ->
  Z.of_nat (size (heard_map (c_heard_list c.(wc_client)))) <= MAX_HEARD_PER_CLIENT ->
  exists l, restore_heard tick true j (mk_heard_list ∅ 0) = Some l /\
    (has c.(wc_client).(c_flags) CLFLAGS_IGATE = true -> dom (heard_map l) = dom (heard_map (c_heard_list c.(wc_client)))).
Proof.
  intros D Hwf Hc Hs. unfold restore_heard. rewrite (di_heard _ _ _ D). destruct (has (c_flags (wc_client c)) CLFLAGS_IGATE); [|eexists; split; [done|intros Hx; discriminate Hx]].
  rewrite omap_strings.
  assert (heard_wf (mk_heard_list ∅ 0) /\ heard_map (mk_heard_list ∅ 0) = ∅) as [W0 M0] by (split; [apply heard_wf_empty|by vm_compute]).
  destruct (heard_load_spec tick (client_heard_json (c_heard_list (wc_client c))) (mk_heard_list ∅ 0) W0 Hc) as (l & E & _ & Dm).
  { rewrite M0, dom_empty_L, (left_id_L ∅ (∪)), <- heard_dump_keys by done. by rewrite size_dom. }
  exists l. split; [done|]. intros _. by rewrite Dm, M0, dom_empty_L, (left_id_L ∅ (∪)), <- heard_dump_keys.
Qed.

Abbreviation same_map := (accept_rx_err_map (map JString inerr_labels)).
Abbreviation restore := (restore_client tick now cosf true quirks_mode reread).

(** The client [c1] that the listener made, with what the file says of [c]. *)
Lemma restore_spec l id r c c1 w ct j sv :
  upgradable l c -> dumped ct c j -> accepted isize osize l id r CSTATE_INIT c1 -> r.(ar_fd) = c.(wc_client).(c_fd) -> 0 <= isize -> 0 <= osize ->
  exists c' g', restore j same_map sv (take 15 c.(wc_client).(c_username)) CSTATE_CONNECTED c1 w = Some (c', set_wk_gauge g' (set_wk_accounts w.(wk_accounts) w)) /\
    survived c c' /\ g' - filter_count c'.(wc_filters) = w.(wk_gauge) - filter_count c1.(wc_filters) /\ c'.(wc_client).(c_id) = id /\ session_ok c'.(wc_client) /\
    (c'.(wc_account).(ca_port), c'.(wc_account).(ca_udp), c'.(wc_udpclient), c'.(wc_udp_port), c'.(wc_listener_id), c'.(wc_addr)) =
    (c1.(wc_account).(ca_port), c1.(wc_account).(ca_udp), c1.(wc_udpclient), c1.(wc_udp_port), c1.(wc_listener_id), c1.(wc_addr)).
Proof.
  intros [U1 [U2 U2'] (U3 & U3' & U3'') U4 [U5 U5'] [U6 U6'] [U7 U7'] (U8 & U8' & U8'') U9] D [A1 A2 A3 A4 (A5 & A5' & A5'') A6 A7 A8 A9 (A10 & A10' & A10'' & Aloc) [A11 A11']] Hfd Hi Ho.
  unfold restore_client, int_item, opt_number, str_item. destruct D as [D1 D2 D3 D4 D5 D6 D7 [D8 D8'] D9 [n D10] [D11 D11'] (D12 & D12' & D12'') D13 D14 D15 [D16 D16'] D17 D18] eqn:ED. clear ED.
  rewrite D5, D6, D9, D11, D11', D12, D12', D12'', (D15 U4). cbn [mbind option_bind valueint json_type]. rewrite decide_True by done. cbn [mbind option_bind].
  rewrite D8, D8', D14. cbn [valuestring]. set (x := set_c_login _ _ _ _ _ _). set (lg := login_set_app_name _ _ _ _).
  assert (lg_client lg = set_c_app (c_quirks_mode (lg_client lg)) (c_no_tx (lg_client lg)) x) as Elg by done.
  assert (c_flags (lg_client lg) = c_flags (wc_client c)) as Efl by (rewrite Elg; cbn; by rewrite A4, U3').
  clearbody lg. rewrite Efl. destruct (restore_filters_spec (c_flags (wc_client c)) (cf_filter_s (wc_filters c)) (wc_filters c1) (wk_gauge w) A11 A11' U9) as (cf' & g' & -> & G1 & G2).
  cbn [mbind option_bind restore_udp]. apply pair_equal_spec in A9 as [[[[B1 B2]%pair_equal_spec B3]%pair_equal_spec B4]%pair_equal_spec B5].
  rewrite B1, B2, B3, B4, B5.
  destruct (restore_buffer_spec "ibuf" j _ isize D16' U6 U6' Hi) as (ibuf & il & -> & Hib & _). destruct (restore_buffer_spec "obuf" j _ osize D16 U5 U5' Ho) as (obuf & ol & -> & Hob & Holn).
  assert (c_heard_list (lg_client lg) = mk_heard_list ∅ 0) as -> by (rewrite Elg; exact A10').
  destruct (restore_heard_spec ct c j D U8 U8' U8'') as (hl & -> & Hh). cbn [mbind option_bind].
  eexists _, g'. split; [done|].
  assert (forall y, let z := restore_position reread j y in
    c_username z = c_username y /\ c_username_len z = c_username_len y /\ c_state z = c_state y /\ c_validated z = c_validated y /\
    c_fd z = c_fd y /\ c_flags z = c_flags y /\ c_id z = c_id y /\ c_heard_list z = c_heard_list y) as Hpos.
  { intros y. unfold restore_position. destruct D18 as [E1 E2]. rewrite E1, E2. by destruct (c_loc_known (wc_client c)). }
  destruct (Hpos (set_c_heard_list hl (lg_client lg))) as (P1 & P2 & P3 & P4 & P5 & P6 & P7 & P8).
  assert (take 15 (c_username (wc_client c)) = c_username (wc_client c)) as Etake by (destruct U2 as [U2 _]; apply take_ge; unfold zlen in U2; lia).
  split; [|split; [exact G1|]; split; [|split; [|done]]].
  - split; cbn [wc_client wc_account wc_conn wc_filters wc_connect_tick ca_local pa_rxbytes pa_txbytes pa_rxpackets pa_txpackets pa_rxdrops pa_rxerrs].
    + rewrite P1, P3, P4, P5, P6. cbn [set_c_heard_list c_username c_state c_validated c_fd c_flags]. rewrite Elg. cbn. rewrite Etake, U1, A2, A4, Hfd, U3'. done.
    + rewrite A10. unfold restore_rxerrs. rewrite D13. cbn [account_zero pa_rxerrs json_rxerrs]. rewrite rx_err_map_same.
      replace (Z.to_nat INERR_BUCKETS) with (length (pa_rxerrs (ca_local (wc_account c)))) by (unfold zlen in U7; lia).
      pose proof (rx_err_load_spec (pa_rxerrs (ca_local (wc_account c))) []) as Hr. cbn [length Datatypes.app] in Hr.
      rewrite Hr; [done|unfold zlen in U7; cbn; lia|done].
    + unfold pending_out at 1. cbn [co_obuf co_obuf_start co_obuf_end]. rewrite <- Hob. destruct ol as [ol|]; unfold default; cbn [given from_option]; rewrite drop_0, Z.sub_0_r; done.
    + unfold pending_in at 1. cbn [co_ibuf co_ibuf_end]. rewrite <- Hib. done.
    + intros Hig. rewrite P8. by apply Hh.
    + done.
    + unfold restore_position. destruct D18 as [E1 E2]. rewrite E1, E2. destruct (c_loc_known (wc_client c)) eqn:El; [done|].
      split; [|done]. change (c_loc_known (set_c_heard_list hl (lg_client lg))) with (c_loc_known (lg_client lg)). rewrite Elg. exact Aloc.
  - cbn [wc_client]. rewrite P7. change (c_id (set_c_heard_list hl (lg_client lg))) with (c_id (lg_client lg)). by rewrite Elg.
  - unfold session_ok. cbn [wc_client]. rewrite P1, P2. change (c_username (set_c_heard_list hl (lg_client lg))) with (c_username (lg_client lg)).
    change (c_username_len (set_c_heard_list hl (lg_client lg))) with (c_username_len (lg_client lg)). rewrite Elg. cbn. rewrite Etake. destruct U2 as (? & ? & ?). done.
Qed.

(** A client of the worker gets a session. *)
Lemma session_added h cl cls ss w t id c :
  worker_ok h cl cls ss w -> w.(wk_store) !! id = Some c -> session_ok c.(wc_client) -> id ∉ map c_id ss -> represents t (c.(wc_client) :: ss) ->
  worker_ok h cl cls (c.(wc_client) :: ss) (set_wk_table t w).
Proof.
  intros [L R [S1 S2 S3 S4]] Hc Hs Hid Ht. split; [by destruct L|by destruct R|]. destruct (S4 id c Hc) as [_ Eid]. split; cbn [wk_table wk_store set_wk_table map]; [done| | |].
  - rewrite Eid. by apply list.NoDup_cons.
  - intros s x [->|Hx]%elem_of_cons Hst; [rewrite Eid in Hst; by simplify_eq|by eapply S3].
  - intros i x Hx. destruct (S4 i x Hx) as [H1 H2]. split; [|done]. destruct (decide (i = id)) as [->|Hne]; [left; by simplify_eq|].
    destruct H1 as [H1|H1]; [by left|right]. apply not_elem_of_cons. split; [congruence|done].
Qed.

(** The worker [w] that provides for a client provides for the one that is made of it. *)
Lemma provided_restored h ids c1 c' w0 w g' :
  provided h ids (fun p => port_refs p c1) c1 w0 w -> g' - filter_count c'.(wc_filters) = w.(wk_gauge) - filter_count c1.(wc_filters) ->
  (c'.(wc_account).(ca_port), c'.(wc_account).(ca_udp), c'.(wc_udpclient), c'.(wc_udp_port), c'.(wc_listener_id), c'.(wc_addr)) =
  (c1.(wc_account).(ca_port), c1.(wc_account).(ca_udp), c1.(wc_udpclient), c1.(wc_udp_port), c1.(wc_listener_id), c1.(wc_addr)) ->
  provided h ids (fun p => port_refs p c') c' w0 (set_wk_gauge g' (set_wk_accounts w.(wk_accounts) w)).
Proof.
  intros [P1 P2 P3 P4 P5 P6 P7] Hg [= E1 E2 E3 E4 E5 E6]. split; cbn [wk_accounts wk_udp wk_gauge set_wk_gauge set_wk_accounts]; try done.
  - intros p. unfold port_refs at 1. rewrite E1, E2, E4. apply P1.
  - intros u. unfold udp_refs at 1. rewrite E3. apply P2.
  - intros u. rewrite E2, E3. apply P4.
  - rewrite E3, E4. done.
  - lia.
Qed.

(** A client that is logged in survives a live upgrade: what the old process writes of it, the new process makes into a
    client in the queue of a worker, with the same name, state, verification and socket, the same counters, the same bytes to be sent and received, the
    stations it heard, and the filters of its filter text; it is a session again, and everything stays counted.  (Assumed is that its port is
    still configured as before, that it has no UDP feed, and that its buffers have no bytes of 128 and more.) *)
Theorem client_survives tick0 ct addr h cl cls ss a l id c sa aloc ka cu :
  acceptor_ok h cl cls ss a -> find_listener_hash_id a.(al_listen) l.(li_listener_id) = Some l -> filters_fine cosf true l -> upgradable l c ->
  is_Some (hexsockaddr sa) -> a.(al_worker).(wk_store) !! id = None -> id ∉ map c_id ss -> 0 <= isize -> 0 <= osize ->
  exists j a' c', worker_client_json tick0 ct addr true c = Some j /\
    accept_liveupgrade_single tick now cosf true quirks_mode isize osize reread j same_map (mk_survivor (Some sa) aloc true (Some id) ka cu) a = Some (a', 0) /\
    survived c c' /\ a'.(al_worker).(wk_store) = <[id := c']> a.(al_worker).(wk_store) /\ a'.(al_worker).(wk_new) = a.(al_worker).(wk_new) ++ [id] /\
    a'.(al_listen) = a.(al_listen) /\ acceptor_ok h cl cls (c'.(wc_client) :: ss) a'.
Proof.
  intros Hok Hl Hf Hu Hx Hid Hss Hi Ho. pose proof Hu as [U1 [U2 U2'] (U3 & U3' & U3'') U4 [U5 _] [U6 _] _ _ _].
  destruct (dump_spec tick0 ct addr c) as (j & Ej & D); [congruence|by rewrite U3'|done|done|]. exists j. unfold accept_liveupgrade_single.
  assert (get_typed "fd" TNumber j = Some (JNumber (c_fd (wc_client c)))) as -> by (unfold get_typed; by rewrite (di_fd _ _ _ D)).
  cbn [valueint mbind option_bind]. rewrite (proj2 (Z.ltb_ge _ _)) by done. rewrite (dumped_required ct c j D). cbn [negb sv_peer sv_client sv_addr_loc sv_sockopt].
  unfold int_item at 1. rewrite (di_listener _ _ _ D). cbn [valueint mbind option_bind]. rewrite U3, Hl.
  assert (l ∈ al_listen a) as Hin by (apply find_some in Hl as [Hl _]; by apply list_elem_of_In).
  set (r := mk_arrival _ sa (Some id) aloc true true).
  destruct (accept_client_spec tick cosf true isize osize h cl cls ss a l id r CSTATE_INIT 0 Hok Hin Hx Hf) as (c1 & w & E & Ha & P & Gw & Ew & Cw).
  rewrite E. cbn [mbind option_bind].
  assert (str_item "state" j = str "connected") as -> by (unfold str_item; rewrite (di_state _ _ _ D), U1; done).
  rewrite bool_decide_eq_true_2 by done. cbn [negb andb].
  assert (str_item "username" j = c_username (wc_client c)) as -> by (unfold str_item; by rewrite (di_username _ _ _ D)).
  destruct (restore_spec l id r c c1 w ct j (mk_survivor (Some sa) aloc true (Some id) ka cu) Hu D Ha eq_refl Hi Ho) as (c' & g' & -> & S1 & S2 & S3 & S4 & S5).
  cbn [mbind option_bind wk_table set_wk_gauge set_wk_accounts].
  set (w2 := set_wk_gauge g' (set_wk_accounts (wk_accounts w) w)). pose proof (provided_restored _ _ _ _ _ _ _ P S2 S5) as P2. fold w2 in P2.
  destruct (clientlist_add (wk_table w) (wc_client c')) as [table old_fd] eqn:Et. set (a1 := if _ && _ then al_shut old_fd a else a).
  eexists _, c'. split; [exact Ej|]. split; [done|]. split; [done|].
  assert (al_listen a1 = al_listen a) as La1 by (unfold a1; by destruct (_ && _)). pose proof Hok as [Hw Hh Hg Hp].
  destruct (pr_rest _ _ _ _ _ _ P) as [E1 E2]. injection E1 as Es _ _ _. injection E2 as En Etab. cbn [al_worker set_al_worker wk_store wk_new pass_client_to_worker add_client set_wk_table].
  split; [by unfold w2; cbn; rewrite Es|]. split; [by unfold w2; cbn; rewrite En|]. split; [exact La1|].
  split; cbn [al_worker al_listen set_al_worker]; rewrite ?La1; try done.
  change (worker_ok (with_listeners h (al_listen a)) cl cls (wc_client c' :: ss) (set_wk_table table (pass_client_to_worker id (add_client id c' w2)))).
  eapply session_added; [eapply enqueue_ok; [exact Hw|exact P2|done..]|by cbn; rewrite lookup_insert_eq|done|done|].
  assert (table = (clientlist_add (wk_table (al_worker a)) (wc_client c')).1) as -> by (rewrite <- Etab, Et; done).
  apply (represents_step _ ss (Login (wc_client c'))); [apply (wo_sessions _ _ _ _ _ Hw)|done].
Qed.
End Survive.

(** ** Witness *)

Definition demo_wclient : wclient :=
  mk_wclient
    (mk_client 1 7 CSTATE_CONNECTED CLFLAGS_INPORT 1 (str "N0CALL") 6 [] false false true ∅ ∅ 0 0 (f32_of_Z 60) (f32_of_Z 25) (S754_zero false))
    (mk_client_filters [] [] [] [] (str "t/m") false)
    (mk_conn (str "N0CALL>APRS:" ++ repeat 0 20) 12 (str "# aprsc 2.1" ++ repeat 0 20) 2 11 0 0 0 0 false false None 0 [] [])
    (mk_client_account (mk_portaccount 0 0 0 200 300 4 5 6 7 (repeat 3 (Z.to_nat INERR_BUCKETS)) 1) (Some 5) None) IPPROTO_TCP (str "0.0.0.0:14580") None 0 50 60 70
    (li_listener_id demo_listener) (Inet 0x7F000001) (str "app") (str "1").

Lemma demo_upgradable : upgradable 512 512 demo_listener demo_wclient.
Proof.
  split; try done.
  - split; [|done]. split; [by vm_compute|]. split; [done|]. by repeat constructor.
  - split; [|by vm_compute]. vm_compute. repeat constructor; done.
  - split; [|by vm_compute]. vm_compute. repeat constructor; done.
  - split; [done|]. vm_compute. repeat constructor; done.
  - split; [apply heard_wf_empty|]. split; [constructor|done].
Qed.

(** A client of the demo listener survives. *)
Lemma client_survives_witness :
  exists j a', worker_client_json 100 1000 [] true demo_wclient = Some j /\
    accept_liveupgrade_single 3 1003 (fun x => x) true false 512 512 to_f32 j (accept_rx_err_map (map JString inerr_labels))
      (mk_survivor (Some (Inet 0x7F000001)) [] true (Some 1) 5 7) demo_acceptor = Some (a', 0) /\
    a'.(al_worker).(wk_new) = [1].
Proof.
  destruct (client_survives 3 1003 (fun x => x) false 512 512 to_f32 100 1000 [] demo_no_held [] (fun _ => []) [] demo_acceptor demo_listener 1 demo_wclient
              (Inet 0x7F000001) [] 5 7 demo_acceptor_ok) as (j & a' & c' & Ej & Ea & _ & _ & En & _).
  - vm_compute. reflexivity.
  - intros g. eexists. vm_compute. reflexivity.
  - exact demo_upgradable.
  - eexists. vm_compute. reflexivity.
  - reflexivity.
  - apply not_elem_of_nil.
  - lia.
  - lia.
  - exists j, a'. split; [exact Ej|]. split; [exact Ea|exact En].
Defined.
