(* ===== verification/Tls.v ===== *)
(** * tls.c: connections over TLS

    Reading and writing through the TLS library, and the check of a client's certificate.  The library is a
    parameter: what it answers to the n-th [SSL_write] and to each [SSL_read], and what it says of the certificate of the peer.
    Of its manual one rule is part of the model: a write that was not done has to be repeated from the same place in memory, or it fails
    ([SSL_MODE_ACCEPT_MOVING_WRITE_BUFFER] is not set).  The flags [no_wait_shutdown] and [no_send_shutdown] are never read. *)

From S2P Require Import Prelude Types Cfgfile ParseQc ParseAprs Callsign Clientlist Messaging Incoming Filter FilterParse Outgoing Login LoginSpec ClientIO.
From Stdlib Require Import ZArith Lia Bool String SpecFloat.
From stdpp Require Import base tactics list gmap numbers.
Open Scope Z_scope.

(** ** Writing *)

(** [tc_retry] is where the data of a write that was not done begins. *)
Record tls_conn := mk_tls {
  tc_conn : conn;
  tc_retry : option Z
}.

(** [SSL_write]: some bytes were taken, one more than [n] at most; it has to wait for the socket; or it failed. *)
Inductive ssl_answer : Set := Sent (n : nat) | WantWrite | WantRead | SyscallError (e : errno) | LibraryError.

(** [SSL_read] without data: it has to wait for the socket, the peer ended the connection, or it failed. *)
Inductive ssl_wait : Set := WaitRead | WaitWrite | ZeroReturn | ReadSyscall (e : errno) | ReadError.

(** The error number that [client_close] gets when the library failed without a system call: 0. *)
Abbreviation no_errno := (Errno (Eother 0)).

Section Tls.
Variable ssl : nat -> ssl_answer.
Variable tick : Z.

Definition moved (t : tls_conn) : bool :=
  match t.(tc_retry) with Some a => negb (a =? t.(tc_conn).(co_obuf_start)) | None => false end.

(** [None]: a write of no bytes, which is undefined. *)
Definition ssl_write (t : tls_conn) : option (tls_conn * Z) :=
  let c := t.(tc_conn) in
  if bool_decide (pending c = []) then None
  else
    let c1 := set_socket (S c.(co_calls)) c.(co_sent) c.(co_datagrams) c in
    let fail e := Some (mk_tls (client_close e c1) None, -13) in
    match (if moved t then LibraryError else ssl c.(co_calls)) with
    | Sent n =>
        let data := take (S n) (pending c) in
        let c := set_wtime tick (set_obuf c.(co_obuf) (c.(co_obuf_start) + zlen data) c.(co_obuf_end)
                   (set_socket (S c.(co_calls)) (c.(co_sent) ++ data) c.(co_datagrams) c)) in
        if c.(co_obuf_start) >=? c.(co_obuf_end) then Some (mk_tls (set_poll_out false (set_obuf c.(co_obuf) 0 0 c)) None, zlen data)
        else Some (mk_tls (set_poll_out true c) None, zlen data)
    | WantWrite => Some (mk_tls (set_poll_out true c1) (Some c.(co_obuf_start)), 0)
    | WantRead => Some (mk_tls (set_poll_out false c1) (Some c.(co_obuf_start)), 0)
    | SyscallError e => fail (Errno e)
    | LibraryError => fail no_errno
    end.

Definition ssl_writable (t : tls_conn) : option (tls_conn * Z) :=
  let c := t.(tc_conn) in
  if c.(co_obuf_end) - c.(co_obuf_start) =? 0 then Some (mk_tls (set_poll_out false c) t.(tc_retry), 0) else ssl_write t.

(** The test that [handle_client_event] makes before it. *)
Definition ssl_writable_event (t : tls_conn) : option (tls_conn * Z) :=
  let c := t.(tc_conn) in
  if c.(co_obuf_start) =? c.(co_obuf_end) then Some (mk_tls (set_obuf c.(co_obuf) 0 0 (set_poll_out false c)) t.(tc_retry), 0)
  else ssl_writable t.

(** [ssl_client_write] of worker.c *)
Definition ssl_client_write (t : tls_conn) (p : list Z) : option (tls_conn * Z) :=
  let c := t.(tc_conn) in
  let len := zlen p in
  '(c, rc) ← client_buffer_outgoing_data (set_obuf_mode c.(co_obuf_flushsize) (c.(co_obuf_writes) + 1) c) p;
  if rc =? -12 then Some (mk_tls c None, -12)
  else if (c.(co_obuf_end) >? c.(co_obuf_flushsize)) || (len =? 0) && (c.(co_obuf_end) >? c.(co_obuf_start)) then ssl_write (mk_tls c t.(tc_retry))
  else Some (mk_tls (set_poll_out true c) t.(tc_retry), len).

(** ** Reading *)

Section Read.
Context {H : Type}.
Variable handler : H -> list Z -> H * Z.

(** At most as many bytes come as there is room for; [None] when there is none, because a read into no room is not defined. *)
Definition ssl_readable (t : tls_conn) (r : list Z + ssl_wait) (h : H) : option (tls_conn * H * Z) :=
  let c := t.(tc_conn) in
  match r with
  | inl avail =>
      let data := take (Z.to_nat (ibuf_size c - c.(co_ibuf_end) - 1)) avail in
      if bool_decide (data = []) then None
      else
        ibuf ← blit c.(co_ibuf) c.(co_ibuf_end) data;
        '(c, h, rc) ← client_postread handler tick (set_ibuf ibuf c.(co_ibuf_end) c) (zlen data) h;
        Some (mk_tls c t.(tc_retry), h, rc)
  | inr WaitRead => Some (mk_tls (if c.(co_obuf_end) - c.(co_obuf_start) >? 0 then set_poll_out true c else c) t.(tc_retry), h, 0)
  | inr WaitWrite => '(t, rc) ← ssl_write t; Some (t, h, rc)
  | inr ZeroReturn => Some (mk_tls (client_close CLIERR_EOF c) None, h, -1)
  | inr (ReadSyscall e) => Some (mk_tls (client_close (Errno e) c) None, h, -1)
  | inr ReadError => Some (mk_tls (client_close no_errno c) None, h, -1)
  end.
End Read.
End Tls.

(** ** The certificate of a peer *)

(** What the library says of the peer: the result of the verification against the trusted authorities with its text, and the
    certificate.  Of its subject: whether there is one, and the callsign if it has such an entry, unless it cannot be converted. *)
Record x509 := mk_x509 {
  x_subject : bool;
  x_callsign : option (option (list Z))
}.

Record ssl_peer := mk_peer {
  sp_verify : Z;
  sp_verify_text : list Z;
  sp_cert : option x509
}.

Definition X509_V_OK : Z := 0.
Definition SSL_VALIDATE_INTERNAL_ERROR : Z := -1.
Definition SSL_VALIDATE_CLIENT_CERT_UNVERIFIED : Z := -2.
Definition SSL_VALIDATE_NO_CLIENT_CERT : Z := -3.
Definition SSL_VALIDATE_CERT_NO_SUBJECT : Z := -4.
Definition SSL_VALIDATE_CERT_NO_CALLSIGN : Z := -5.
Definition SSL_VALIDATE_CERT_CALLSIGN_MISMATCH : Z := -6.

Definition ssl_err_labels : list (list Z) := [
  str "Invalid, unknown error"; str "Internal error"; str "Peer certificate is not valid or not trusted"; str "Peer did not present a certificate";
  str "Certificate does not contain a Subject field"; str "Certificate does not contain a TQSL callsign in CN - not a ham cert";
  str "Certificate callsign does not match login username"].

Definition ssl_strerror (code : Z) : list Z :=
  if (0 <=? - code) && (- code <? zlen ssl_err_labels) then nth (Z.to_nat (- code)) ssl_err_labels [] else nth 0 ssl_err_labels [].

(** The loop of [ssl_cert_callsign_match], with what is left of both strings. *)
Fixpoint callsign_loop (username subj_call : list Z) : option (list Z * list Z) :=
  match username, subj_call with
  | u :: username', s :: subj_call' =>
      if u =? ch_dash then Some (username, subj_call)
      else if toupper u =? toupper s then callsign_loop username' subj_call' else None
  | _, _ => Some (username, subj_call)
  end.

Definition ssl_cert_callsign_match (subj_call username : list Z) : bool :=
  match callsign_loop username subj_call with
  | Some ([], []) => true
  | Some (u :: _, []) => u =? ch_dash
  | _ => false
  end.

Section Validate.
(** Whether the library knows the name of the callsign entry, as [load_tqsl_custom_objects] has told it. *)
Variable nid : bool.

Definition ssl_validate_peer_cert_phase1 (p : ssl_peer) : Z :=
  if negb (p.(sp_verify) =? X509_V_OK) then SSL_VALIDATE_CLIENT_CERT_UNVERIFIED
  else match p.(sp_cert) with None => SSL_VALIDATE_NO_CLIENT_CERT | Some _ => 0 end.

Definition ssl_validate_peer_cert_phase2 (p : ssl_peer) (username : list Z) : Z :=
  match p.(sp_cert) with
  | None => SSL_VALIDATE_NO_CLIENT_CERT
  | Some cert =>
      if negb cert.(x_subject) then SSL_VALIDATE_CERT_NO_SUBJECT
      else if negb nid then SSL_VALIDATE_INTERNAL_ERROR
      else match cert.(x_callsign) with
      | None | Some None => SSL_VALIDATE_CERT_NO_CALLSIGN
      | Some (Some subj_call) => if ssl_cert_callsign_match (cstr subj_call) username then 0 else SSL_VALIDATE_CERT_CALLSIGN_MISMATCH
      end
  end.

(** [login_client_validate_cert] of login.c: [validate] says whether the listener asks for certificates, and [None] is a client without TLS. *)
Definition login_client_validate_cert (con : option (bool * ssl_peer)) (username : list Z) : cert_check :=
  match con with
  | Some (true, p) =>
      let ssl_res := ssl_validate_peer_cert_phase1 p in
      let ssl_res := if ssl_res =? 0 then ssl_validate_peer_cert_phase2 p username else ssl_res in
      if ssl_res =? 0 then CertOk
      else CertFailed (if ssl_res =? SSL_VALIDATE_CLIENT_CERT_UNVERIFIED then str "# Client certificate not accepted: " ++ p.(sp_verify_text)
                       else str "# Client certificate authentication failed: " ++ ssl_strerror ssl_res)
  | _ => NoCert
  end.
End Validate.
