(* ===== verification/TlsSpec.v ===== *)
(** * What TLS connections do

    The output of a TLS connection is the same queue as that of a plain one, and its lines are the same lines, whatever the library
    wants in between; a certificate verifies a client only under the callsign that it was issued for. *)

From S2P Require Import Prelude Types Cfgfile ParseQc ParseAprs Callsign Clientlist Messaging Incoming Filter FilterParse Outgoing Login LoginSpec ClientIO Tls.
From Stdlib Require Import ZArith Lia Bool String SpecFloat.
From stdpp Require Import base tactics list gmap numbers.
Open Scope Z_scope.

(** ** Certificates *)

(** A name without what follows its first dash. *)
Fixpoint before_dash (name : list Z) : list Z :=
  match name with [] => [] | u :: name => if u =? ch_dash then [] else u :: before_dash name end.

Lemma callsign_match_spec subj_call : forall username,
  ssl_cert_callsign_match subj_call username = bool_decide (map toupper subj_call = map toupper (before_dash username)).
Proof.
  unfold ssl_cert_callsign_match. induction subj_call as [|s subj_call IH]; intros [|u username]; cbn [callsign_loop before_dash map]; try done.
  - by destruct (u =? ch_dash).
  - destruct (u =? ch_dash); [done|]. cbn [map]. destruct (Z.eqb_spec (toupper u) (toupper s)) as [E|E].
    + rewrite IH, E. apply bool_decide_ext. split; [by intros ->|by intros [= ->]].
    + rewrite bool_decide_eq_false_2 by congruence. done.
Qed.

(** A peer whose certificate was issued for [name], with or without an SSID, by a trusted authority. *)
Definition certified (p : ssl_peer) (name : list Z) : Prop :=
  p.(sp_verify) = X509_V_OK /\
  exists cert call, p.(sp_cert) = Some cert /\ cert.(x_callsign) = Some (Some call) /\ map toupper (cstr call) = map toupper (before_dash name).

Lemma validate_spec nid con name :
  match login_client_validate_cert nid con name with
  | CertOk => exists p, con = Some (true, p) /\ certified p name
  | NoCert => forall p, con <> Some (true, p)
  | CertFailed _ => exists p, con = Some (true, p) /\ (nid = true -> (forall cert, p.(sp_cert) = Some cert -> cert.(x_subject) = true) -> ~ certified p name)
  end.
Proof.
  unfold login_client_validate_cert, ssl_validate_peer_cert_phase1, ssl_validate_peer_cert_phase2. destruct con as [[[] p]|]; try done.
  destruct (Z.eqb_spec (sp_verify p) X509_V_OK) as [Ev|Ev]; cbn [negb]; cycle 1.
  { cbn. exists p. split; [done|]. intros _ _ [Hv _]. congruence. }
  destruct (sp_cert p) as [cert|] eqn:Ec; cycle 1.
  { cbn. exists p. split; [done|]. intros _ _ (_ & ? & ? & Hc & _). congruence. }
  cbn [Z.eqb]. destruct (x_subject cert) eqn:Es; cbn [negb]; [|cbn; exists p; split; [done|]; intros _ Hs; specialize (Hs cert Ec); congruence].
  destruct nid; cbn [negb]; [|cbn; by exists p].
  assert (forall n, ~ certified p n \/ exists call, x_callsign cert = Some (Some call)) as Hcall.
  { intros n. destruct (x_callsign cert) as [[call|]|] eqn:Ex; [by right; exists call| |]; left; intros (_ & c0 & call & Hc & Hx & _); congruence. }
  destruct (x_callsign cert) as [[call|]|] eqn:Ex; [|cbn; exists p; split; [done|]; intros _ _; destruct (Hcall name) as [?|[? ?]]; [done|congruence]..].
  rewrite callsign_match_spec. case_bool_decide as Em; cbn.
  - exists p. split; [done|]. split; [done|]. by exists cert, call.
  - exists p. split; [done|]. intros _ _ (_ & c0 & call0 & Hc & Hx & Hm). congruence.
Qed.

(** The name that a login line gives. *)
Definition line_name (s : list Z) : list Z := match line_words s with _ :: name :: _ => name | _ => [] end.

Section Login.
Context {W : Type} {ops : ServerOps W}.
Context (cfg : config) (quirks_mode : bool) (fnmatch : list Z -> list Z -> bool) (disallow_login_glob : list (list Z)).
Context (cosf : spec_float -> spec_float) (mem nid : bool).

End Login.

(** ** The stream *)

(** The output side of a connection to which [w] was written. *)
Definition tls_ok (t : tls_conn) (w : list Z) : Prop :=
  let c := t.(tc_conn) in
  conn_ok c /\ 0 <= c.(co_obuf_flushsize) /\ (c.(co_obuf_start) = c.(co_obuf_end) -> c.(co_obuf_end) = 0) /\
  match c.(co_closed) with
  | None => c.(co_sent) ++ pending c = w
  | Some _ => c.(co_sent) `prefix_of` w
  end.

(** The input side is untouched. *)
Definition same_input (t t' : tls_conn) : Prop :=
  (t'.(tc_conn).(co_ibuf), t'.(tc_conn).(co_ibuf_end)) = (t.(tc_conn).(co_ibuf), t.(tc_conn).(co_ibuf_end)).

Lemma pending_empty c : conn_ok c -> pending c = [] <-> c.(co_obuf_start) = c.(co_obuf_end).
Proof.
  intros Hc. destruct (obuf_split c Hc) as (_ & _ & _ & _ & Hp). split; intros E; [rewrite E, zlen_nil in Hp; lia|].
  apply length_zero_iff_nil. unfold zlen in Hp. lia.
Qed.

Section Stream.
Variable ssl : nat -> ssl_answer.
Variable tick : Z.

Lemma closed_ok t w why : tls_ok t w -> t.(tc_conn).(co_closed) = None ->
  forall k retry, tls_ok (mk_tls (client_close why (set_socket k t.(tc_conn).(co_sent) t.(tc_conn).(co_datagrams) t.(tc_conn))) retry) w.
Proof. intros (H1 & H2 & H3 & H4) Ho k retry. rewrite Ho in H4. split; [same_buffer H1|]. do 2 (split; [done|]). cbn. by exists (pending (tc_conn t)). Qed.

Lemma ssl_write_spec t w :
  tls_ok t w -> t.(tc_conn).(co_closed) = None -> pending t.(tc_conn) <> [] ->
  exists t' rc, ssl_write ssl tick t = Some (t', rc) /\ tls_ok t' w /\ same_input t t' /\
    match t'.(tc_conn).(co_closed) with None => 0 <= rc | Some why => rc = -13 /\ exists e, why = Errno e end.
Proof.
  intros Hok Ho Hp. pose proof Hok as (H1 & H2 & H3 & H4). unfold ssl_write. rewrite bool_decide_eq_false_2 by done.
  assert (forall e, tls_ok (mk_tls (client_close e (set_socket (S (co_calls (tc_conn t))) (co_sent (tc_conn t)) (co_datagrams (tc_conn t)) (tc_conn t))) None) w)
    as Hcl by (intros e; by apply closed_ok).
  destruct (if moved t then LibraryError else ssl (co_calls (tc_conn t))) as [n| | |e|].
  2-3: eexists _, 0; split; [done|]; split; [split; [same_buffer H1|]; by do 2 (split; [done|])|]; split; [done|]; cbn; by rewrite Ho.
  2-3: eexists _, (-13); split; [done|]; split; [apply Hcl|]; split; [done|]; split; [done|by eexists].
  rewrite Ho in H4. set (i := min (S n) (length (pending (tc_conn t)))).
  assert (take (S n) (pending (tc_conn t)) = take i (pending (tc_conn t)) /\ zlen (take (S n) (pending (tc_conn t))) = Z.of_nat i) as [Et Ez].
  { unfold zlen. rewrite length_take. split; [|done]. unfold i. destruct (Nat.le_ge_cases (S n) (length (pending (tc_conn t)))) as [Hl|Hl].
    - by rewrite Nat.min_l.
    - by rewrite Nat.min_r, !take_ge by lia. }
  rewrite Ez. destruct (pending_advance (tc_conn t) i H1) as [A1 A2]; [unfold i; lia|]. clearbody i.
  assert ((co_sent (tc_conn t) ++ take (S n) (pending (tc_conn t))) ++ drop i (pending (tc_conn t)) = w) as Hw by (by rewrite Et, <- app_assoc, take_drop).
  cbn [co_obuf_start co_obuf_end co_obuf set_wtime set_obuf set_socket].
  set (c1 := set_wtime tick _). assert (conn_ok c1) as B1 by same_buffer A1. assert (pending c1 = drop i (pending (tc_conn t))) as B2 by exact A2.
  destruct (Z.geb_spec (co_obuf_start (tc_conn t) + Z.of_nat i) (co_obuf_end (tc_conn t))) as [Hge|Hlt]; eexists _, (Z.of_nat i); (split; [done|]).
  - split; [|split; [done|cbn; rewrite Ho; lia]]. pose proof (ck_end _ H1). pose proof (ck_start _ H1).
    split; [split; cbn; unfold obuf_size in *; cbn; lia|]. do 2 (split; [done|]). cbn. rewrite Ho.
    assert (drop i (pending (tc_conn t)) = []) as Hnil by (rewrite <- B2; apply pending_empty; [done|]; destruct B1 as [B1 _]; unfold c1 in B1 |- *; cbn in B1 |- *; lia).
    rewrite Hnil in Hw. exact Hw.
  - split; [|split; [done|cbn; rewrite Ho; lia]]. split; [same_buffer B1|]. split; [done|]. split; [cbn; lia|]. cbn. rewrite Ho. rewrite <- Hw, <- B2. done.
Qed.

Lemma ssl_client_write_spec t w p :
  tls_ok t w -> t.(tc_conn).(co_closed) = None ->
  exists t' rc, ssl_client_write ssl tick t p = Some (t', rc) /\ tls_ok t' (w ++ p) /\ same_input t t' /\
    match t'.(tc_conn).(co_closed) with
    | None => 0 <= rc
    | Some why => rc < -2 /\ (why = CLIERR_OUTPUT_BUFFER_FULL /\ zlen (pending t.(tc_conn)) + zlen p > obuf_size t.(tc_conn) \/ exists e, why = Errno e)
    end.
Proof.
  intros (H1 & H2 & H3 & H4) Ho. unfold ssl_client_write. set (c0 := set_obuf_mode _ _ _).
  assert (conn_ok c0) as Hc0 by same_buffer H1. pose proof (buffer_spec c0 p Hc0) as Hb. rewrite Ho in H4.
  change (pending c0) with (pending (tc_conn t)) in Hb. change (obuf_size c0) with (obuf_size (tc_conn t)) in Hb.
  destruct (Z.gtb_spec (zlen (pending (tc_conn t)) + zlen p) (obuf_size (tc_conn t))) as [Hfull|Hroom].
  { rewrite Hb. cbn [mbind option_bind Z.eqb Pos.eqb]. eexists _, (-12). split; [done|]. split; [|split; [done|]; cbn; split; [lia|left; split; [done|lia]]].
    split; [same_buffer H1|]. do 2 (split; [done|]). cbn. exists (pending (tc_conn t) ++ p). by rewrite app_assoc, H4. }
  destruct Hb as (c1 & E & (B1 & Bp & Bz & Bc)). rewrite E. cbn [mbind option_bind]. change (0 =? -12) with false. cbv iota.
  assert (co_obuf_end c1 - co_obuf_start c1 = zlen (pending (tc_conn t)) + zlen p) as Hlen.
  { destruct (obuf_split c1 B1) as (_ & _ & _ & _ & Hl). rewrite <- Hl, Bp. apply zlen_app. }
  assert (p = [] -> c1 = set_obuf (co_obuf c1) (co_obuf_start (tc_conn t)) (co_obuf_end (tc_conn t)) c0) as Hnop.
  { intros ->. unfold client_buffer_outgoing_data, client_buffer_outgoing_allocate in E. rewrite zlen_nil in E. pose proof (ck_end _ Hc0).
    destruct (Z.gtb_spec (co_obuf_end c0 + 0) (obuf_size c0)); [lia|]. cbn [mbind option_bind Z.gtb Z.compare] in E.
    injection E as <-. cbn. by rewrite Z.add_0_r. }
  assert (tls_ok (mk_tls c1 (tc_retry t)) (w ++ p) /\ co_closed c1 = None /\ same_input t (mk_tls c1 (tc_retry t))) as (Hok1 & Ho1 & Hi1).
  { split; [|split; rewrite Bc; done]. split; [done|]. split; [by rewrite Bc|]. split.
    - cbn. intros Hse. pose proof (zlen_nonneg (pending (tc_conn t))). pose proof (zlen_nonneg p).
      assert (p = []) as Hpn by (apply length_zero_iff_nil; unfold zlen in *; lia). rewrite (Hnop Hpn) in Hse |- *. cbn in *. by apply H3.
    - cbn [tc_conn]. assert (co_closed c1 = None) as -> by (rewrite Bc; done). rewrite Bp. rewrite Bc. cbn. by rewrite app_assoc, H4. }
  destruct (_ || _) eqn:Ef.
  - destruct (ssl_write_spec (mk_tls c1 (tc_retry t)) (w ++ p) Hok1 Ho1) as (t' & rc & E' & K1 & K2 & K3).
    { cbn. intros Hn%(pending_empty c1 B1). destruct Hok1 as (_ & F1 & F2 & _). specialize (F2 Hn). cbn in F1, F2, Hn.
      apply orb_true_iff in Ef as [Ef|[_ Ef]%andb_true_iff]; [apply Z.gtb_lt in Ef|apply Z.gtb_lt in Ef]; lia. }
    exists t', rc. split; [done|]. split; [done|]. split; [by unfold same_input in *; rewrite K2|].
    destruct (co_closed (tc_conn t')); [|done]. destruct K3 as [-> K3]. split; [lia|by right].
  - eexists _, _. split; [done|]. split; [|split; [done|cbn; rewrite Ho1; apply zlen_nonneg]].
    destruct Hok1 as (F0 & F1 & F2 & F3). split; [same_buffer F0|]. by do 2 (split; [done|]).
Qed.

Lemma ssl_writable_spec t w :
  tls_ok t w -> t.(tc_conn).(co_closed) = None ->
  exists t' rc, ssl_writable_event ssl tick t = Some (t', rc) /\ tls_ok t' w /\ same_input t t' /\
    match t'.(tc_conn).(co_closed) with None => 0 <= rc | Some why => rc = -13 /\ exists e, why = Errno e end.
Proof.
  intros Hok Ho. pose proof Hok as (H1 & H2 & H3 & H4). unfold ssl_writable_event, ssl_writable. destruct (Z.eqb_spec (co_obuf_start (tc_conn t)) (co_obuf_end (tc_conn t))) as [E|E].
  - eexists _, 0. split; [done|]. split; [|split; [done|]; cbn; by rewrite Ho]. pose proof (ck_start _ H1). pose proof (ck_end _ H1).
    split; [split; cbn; unfold obuf_size in *; cbn; lia|]. do 2 (split; [done|]). cbn. rewrite Ho in H4 |- *. rewrite <- H4. f_equal.
    symmetry. by apply pending_empty.
  - destruct (Z.eqb_spec (co_obuf_end (tc_conn t) - co_obuf_start (tc_conn t)) 0); [lia|]. apply ssl_write_spec; [done..|].
    intros Hn%pending_empty; done.
Qed.
End Stream.

(** ** Reading and writing *)

(** What happens on a connection: it is written to, it becomes writable, or readable with so many bytes and one more of the stream, or
    readable without data. *)
Inductive tls_op : Set := TWrite (p : list Z) | TWritable | TRead (n : nat) | TWait (r : ssl_wait).

Definition tls_text (op : tls_op) : list Z := match op with TWrite p => p | _ => [] end.
Definition tls_reads (op : tls_op) : nat := match op with TRead _ => 1 | _ => 0 end.

(** The library wants to write when it is asked to read, as in a renegotiation. *)
Definition renegotiates (op : tls_op) : bool := match op with TWait WaitWrite => true | _ => false end.

Section Duplex.
Variable ssl : nat -> ssl_answer.
Variable tick : Z.
Context {H : Type}.
Variable handler : H -> list Z -> H * Z.

Definition tls_exec (op : tls_op) (t : tls_conn) (s : list Z) (h : H) : option (tls_conn * list Z * H * Z) :=
  match op with
  | TWrite p => '(t, _) ← ssl_client_write ssl tick t p; Some (t, s, h, 0)
  | TWritable => '(t, _) ← ssl_writable_event ssl tick t; Some (t, s, h, 0)
  | TRead n =>
      let room := Z.to_nat (ibuf_size t.(tc_conn) - t.(tc_conn).(co_ibuf_end) - 1) in
      '(t, h, rc) ← ssl_readable ssl tick handler t (if bool_decide (s = []) then inr WaitRead else inl (take (S n) s)) h;
      Some (t, drop (Nat.min room (S n)) s, h, rc)
  | TWait r => '(t, h, rc) ← ssl_readable ssl tick handler t (inr r) h; Some (t, s, h, rc)
  end.

(** Until the connection is closed or the handler says that the client is gone; with the operations that are left. *)
Fixpoint tls_run (ops : list tls_op) (t : tls_conn) (s : list Z) (h : H) : option (tls_conn * list Z * H * list tls_op) :=
  match ops with
  | [] => Some (t, s, h, [])
  | op :: ops =>
      '(t, s, h, rc) ← tls_exec op t s h;
      if (rc <? 0) || is_closed t.(tc_conn) then Some (t, s, h, ops) else tls_run ops t s h
  end.

Lemma postread_output c r h c' h' rc :
  client_postread handler tick c r h = Some (c', h', rc) -> exists ibuf e, c' = set_last_read tick (set_ibuf ibuf e c).
Proof.
  unfold client_postread. intros E. inv_bind E. destruct x as [h1 n]. repeat split_if_in E.
  all: try (inv_bind E; inv_bind E). all: injection E as <- _ _; by eexists _, _.
Qed.

(** Data that is read over TLS is handled as data that is read from a socket. *)
Lemma ssl_reads_plain t avail h :
  take (Z.to_nat (ibuf_size t.(tc_conn) - t.(tc_conn).(co_ibuf_end) - 1)) avail <> [] ->
  ssl_readable ssl tick handler t (inl avail) h =
    '(c, h, rc) ← handle_client_readable handler tick t.(tc_conn) (inl avail) h; Some (mk_tls c t.(tc_retry), h, rc).
Proof.
  intros Hd. unfold ssl_readable, handle_client_readable. rewrite bool_decide_eq_false_2 by done. by destruct (blit _ _ _).
Qed.

Lemma readable_output t avail h c' h' rc w :
  tls_ok t w -> take (Z.to_nat (ibuf_size t.(tc_conn) - t.(tc_conn).(co_ibuf_end) - 1)) avail <> [] ->
  handle_client_readable handler tick t.(tc_conn) (inl avail) h = Some (c', h', rc) -> tls_ok (mk_tls c' t.(tc_retry)) w.
Proof.
  intros (H1 & H2 & H3 & H4) Hd E. unfold handle_client_readable in E. rewrite bool_decide_eq_false_2 in E by done. inv_bind E.
  apply postread_output in E as (ibuf & e & ->). split; [same_buffer H1|]. by do 2 (split; [done|]).
Qed.

(** The input side of a connection whose lines are complete up to [rest], of which [s] is still to come. *)
Definition input_ok (t : tls_conn) (rest s : list Z) : Prop :=
  holds t.(tc_conn) rest /\ 1 < ibuf_size t.(tc_conn) /\ short (ibuf_size t.(tc_conn) - 1) rest s.

Lemma same_input_ok t t' rest s : same_input t t' -> input_ok t rest s -> input_ok t' rest s.
Proof. intros [= E1 E2]. unfold input_ok, holds, ibuf_size. by rewrite E1, E2. Qed.

(** What a step leaves: the text that was written is in the stream, and [k] more bytes of the input were handled as lines. *)
Definition stepped (op : tls_op) (w rest s : list Z) (h : H) (t' : tls_conn) (s' : list Z) (h' : H) (rc : Z) (k : nat) : Prop :=
  let lines := handle_lines handler h (split_lines rest (take k s)).1 in
  tls_ok t' (w ++ tls_text op) /\ s' = drop k s /\ h' = lines.1 /\ (min (tls_reads op) (length s) <= k)%nat /\
  match t'.(tc_conn).(co_closed) with
  | None => (rc <? 0) = (lines.2 <? 0) /\ (lines.2 = 0 -> input_ok t' (split_lines rest (take k s)).2 s')
  | Some why => lines.2 = 0 /\ (why = CLIERR_OUTPUT_BUFFER_FULL \/ (why = CLIERR_EOF /\ op = TWait ZeroReturn) \/ exists e, why = Errno e)
  end.

Lemma no_lines rest : split_lines rest [] = ([], rest).
Proof. done. Qed.

(** A step that reads nothing. *)
Lemma stepped_quiet op w rest s h t t' rc :
  tls_ok t' (w ++ tls_text op) -> tls_reads op = 0%nat \/ s = [] -> same_input t t' -> input_ok t rest s ->
  match t'.(tc_conn).(co_closed) with
  | None => 0 <= rc
  | Some why => why = CLIERR_OUTPUT_BUFFER_FULL \/ (why = CLIERR_EOF /\ op = TWait ZeroReturn) \/ exists e, why = Errno e
  end -> stepped op w rest s h t' s h rc 0.
Proof.
  intros H1 H2 H3 H4 H5. unfold stepped. rewrite take_0, no_lines, drop_0. cbn [handle_lines fst snd]. do 3 (split; [done|]).
  split; [destruct H2 as [-> | ->]; cbn; lia|]. destruct (co_closed (tc_conn t')); [done|]. split; [by apply Z.ltb_ge in H5|].
  intros _. by eapply same_input_ok.
Qed.

Lemma tls_exec_spec op t w rest s h :
  tls_ok t w -> t.(tc_conn).(co_closed) = None -> input_ok t rest s -> renegotiates op = false ->
  exists t' s' h' rc k, tls_exec op t s h = Some (t', s', h', rc) /\ stepped op w rest s h t' s' h' rc k.
Proof.
  intros Hok Ho Hi Hr. assert (same_input t t) as Hsame by done. destruct op as [p| |n|r]; cbn [tls_exec].
  - destruct (ssl_client_write_spec ssl tick t w p Hok Ho) as (t' & rc & E & H1 & H2 & H3). rewrite E. cbn [mbind option_bind].
    eexists _, _, _, _, 0%nat. split; [done|]. eapply stepped_quiet; [done|by left|done|done|].
    destruct (co_closed (tc_conn t')) as [why|]; [|done]. destruct H3 as [_ [[-> _]|He]]; [by left|by right; right].
  - destruct (ssl_writable_spec ssl tick t w Hok Ho) as (t' & rc & E & H1 & H2 & H3). rewrite E. cbn [mbind option_bind].
    eexists _, _, _, _, 0%nat. split; [done|]. eapply stepped_quiet; [by rewrite app_nil_r|by left|done|done|].
    destruct (co_closed (tc_conn t')) as [why|]; [|done]. destruct H3 as [_ He]. by right; right.
  - case_bool_decide as Es.
    + subst s. cbn [ssl_readable mbind option_bind]. eexists _, _, _, _, 0%nat. split; [by rewrite drop_nil|].
      eapply stepped_quiet; [|by right|destruct (_ >? 0); exact Hsame|done|].
      * rewrite app_nil_r. destruct Hok as (F0 & F1 & F2 & F3). destruct (_ >? 0); [split; [same_buffer F0|]|split; [done|]]; by do 2 (split; [done|]).
      * destruct (_ >? 0); cbn; by rewrite Ho.
    + destruct Hi as (Hh & Hsz & Hsh). pose proof (short_rest (ibuf_size (tc_conn t) - 1) rest s ltac:(lia) Hsh) as Hroom.
      assert (take (S n) s <> []) as Hne by (by destruct s).
      destruct (readable_spec handler tick (tc_conn t) rest (take (S n) s) h Hh Hroom Hne) as (Hd & c1 & E1 & Hc1 & Hs1 & Hh1).
      pose proof Hh as (_ & _ & He & _ & _). rewrite <- He in Hd, E1, Hh1. rewrite ssl_reads_plain by done. pose proof (readable_output t _ h _ _ _ w Hok Hd E1) as Hok'.
      rewrite E1. cbn [mbind option_bind]. rewrite take_take in *.
      set (m := Nat.min (Z.to_nat (ibuf_size (tc_conn t) - co_ibuf_end (tc_conn t) - 1)) (S n)) in *.
      eexists _, _, _, _, m. split; [done|]. unfold stepped. rewrite app_nil_r. do 3 (split; [done|]).
      assert (1 <= m)%nat by (destruct m; [done|lia]). split; [cbn [tls_reads]; lia|]. cbn [tc_conn]. rewrite Hc1, Ho. split; [done|]. intros Hz.
      split; [by apply Hh1|]. cbn [tc_conn]. rewrite Hs1. split; [done|]. apply short_app. by rewrite take_drop.
  - destruct r as [| | |e|]; [|done| | |]; cbn [ssl_readable mbind option_bind]; eexists _, _, _, _, 0%nat; (split; [done|]); destruct Hok as (F0 & F1 & F2 & F3).
    + eapply stepped_quiet; [|by left|destruct (_ >? 0); exact Hsame|done|destruct (_ >? 0); cbn; by rewrite Ho].
      rewrite app_nil_r. destruct (_ >? 0); [split; [same_buffer F0|]|split; [done|]]; by do 2 (split; [done|]).
    + eapply stepped_quiet; [|by left|exact Hsame|done|cbn; right; by left]. rewrite app_nil_r, Ho in *. split; [same_buffer F0|]. do 2 (split; [done|]). by eexists.
    + eapply stepped_quiet; [|by left|exact Hsame|done|cbn; right; right; by eexists]. rewrite app_nil_r, Ho in *. split; [same_buffer F0|]. do 2 (split; [done|]). by eexists.
    + eapply stepped_quiet; [|by left|exact Hsame|done|cbn; right; right; by eexists]. rewrite app_nil_r, Ho in *. split; [same_buffer F0|]. do 2 (split; [done|]). by eexists.
Qed.

Lemma tls_run_spec ops : forall t w rest s h,
  tls_ok t w -> t.(tc_conn).(co_closed) = None -> input_ok t rest s -> forallb (fun op => negb (renegotiates op)) ops = true ->
  exists t' done ops' k, let lines := handle_lines handler h (split_lines rest (take k s)).1 in
    tls_run ops t s h = Some (t', drop k s, lines.1, ops') /\ ops = done ++ ops' /\ tls_ok t' (w ++ concat (map tls_text done)) /\
    (ops' = [] \/ is_closed t'.(tc_conn) = true \/ lines.2 = -1) /\
    (lines.2 = 0 -> is_closed t'.(tc_conn) = false -> (min (sum_list_with tls_reads done) (length s) <= k)%nat /\ input_ok t' (split_lines rest (take k s)).2 (drop k s)) /\
    (forall why, t'.(tc_conn).(co_closed) = Some why ->
       why = CLIERR_OUTPUT_BUFFER_FULL \/ (why = CLIERR_EOF /\ TWait ZeroReturn ∈ ops) \/ exists e, why = Errno e).
Proof.
  induction ops as [|op ops IH]; intros t w rest s h Hok Ho Hi Hr.
  { exists t, [], [], 0%nat. rewrite drop_0. cbn [take split_lines handle_lines fst snd map concat app]. split; [done|]. split; [done|]. split; [by rewrite app_nil_r|].
    split; [by left|]. split; [intros _ _; split; [cbn; lia|done]|]. by rewrite Ho. }
  cbn [forallb] in Hr. apply andb_true_iff in Hr as [Hop Hr]. apply negb_true_iff in Hop.
  destruct (tls_exec_spec op t w rest s h Hok Ho Hi Hop) as (t1 & s1 & h1 & rc & k1 & E & S1 & -> & -> & S2 & S3). cbn [tls_run]. rewrite E. cbn [mbind option_bind].
  unfold is_closed. destruct (co_closed (tc_conn t1)) as [why|] eqn:Ec.
  - rewrite orb_true_r. destruct S3 as [Hz Hwhy]. exists t1, [op], ops, k1. split; [done|]. split; [done|]. cbn [map concat]. rewrite app_nil_r. split; [done|].
    rewrite Ec. split; [by right; left|]. split; [intros _ ?; discriminate|]. intros why' [= <-]. destruct Hwhy as [?|[[? ->]|?]]; [by left| |by right; right].
    right. left. split; [done|left].
  - rewrite orb_false_r. destruct S3 as [-> Hin]. set (lines1 := handle_lines handler h (split_lines rest (take k1 s)).1) in *.
    destruct (handle_lines_rc handler h (split_lines rest (take k1 s)).1) as [Hz|Hz]; fold lines1 in Hz; rewrite Hz.
    + change (0 <? 0) with false. cbv iota. destruct (IH t1 (w ++ tls_text op) (split_lines rest (take k1 s)).2 (drop k1 s) lines1.1 S1 Ec (Hin Hz) Hr)
        as (t' & dn & ops' & k & E' & -> & K1 & K2 & K3 & K4).
      exists t', (op :: dn), ops', (k1 + k)%nat. rewrite <- take_take_drop, split_lines_app. cbn [fst snd]. rewrite handle_lines_app.
      fold lines1. replace lines1 with (lines1.1, 0) by (destruct lines1; cbn in *; congruence). change (0 <? 0) with false. cbv iota. rewrite drop_drop in E'.
      split; [exact E'|]. split; [done|]. cbn [map concat]. rewrite app_assoc. split; [done|]. split; [done|]. split.
      * intros Hz' Hc'. destruct (K3 Hz' Hc') as [L1 L2]. rewrite drop_drop in L2. rewrite length_drop in L1. cbn [sum_list_with]. split; [lia|done].
      * intros why Hw. destruct (K4 why Hw) as [?|[[? ?]|?]]; [by left| |by right; right]. right. left. split; [done|by right].
    + change (-1 <? 0) with true. cbv iota. exists t1, [op], ops, k1. cbn [map concat]. rewrite app_nil_r. split; [done|]. split; [done|]. split; [done|].
      fold lines1. rewrite Hz. split; [by right; right|]. split; [discriminate|]. by rewrite Ec.
Qed.
End Duplex.

(** C9: Over any sequence of writes, writable sockets and reads of a TLS connection, whatever the library wants in between: the bytes the library took
    followed by those in the output buffer are the texts that were written, in order; and the line handler gets exactly the complete lines of what was
    read, in order.  The connection is closed only because the buffer is full, because the peer ended it, or because the library failed, and then the
    peer got a prefix of the texts.  (It is assumed that every line fits the input buffer, and that there is no renegotiation.) *)
Theorem tls_stream {H : Type} ssl tick (handler : H -> list Z -> H * Z) ops t w rest s h :
  tls_ok t w -> t.(tc_conn).(co_closed) = None -> input_ok t rest s -> forallb (fun op => negb (renegotiates op)) ops = true ->
  exists t' done ops' k, let lines := handle_lines handler h (split_lines rest (take k s)).1 in
    tls_run ssl tick handler ops t s h = Some (t', drop k s, lines.1, ops') /\ ops = done ++ ops' /\ tls_ok t' (w ++ concat (map tls_text done)) /\
    (ops' = [] \/ is_closed t'.(tc_conn) = true \/ lines.2 = -1) /\
    (lines.2 = 0 -> is_closed t'.(tc_conn) = false -> (min (sum_list_with tls_reads done) (length s) <= k)%nat /\ input_ok t' (split_lines rest (take k s)).2 (drop k s)) /\
    (forall why, t'.(tc_conn).(co_closed) = Some why ->
       why = CLIERR_OUTPUT_BUFFER_FULL \/ (why = CLIERR_EOF /\ TWait ZeroReturn ∈ ops) \/ exists e, why = Errno e).
Proof. apply tls_run_spec. Qed.

(** A renegotiation while there is nothing to send ends in a write of no bytes. *)
Theorem renegotiation_undefined {H : Type} ssl tick (handler : H -> list Z -> H * Z) t h :
  pending t.(tc_conn) = [] -> ssl_readable ssl tick handler t (inr WaitWrite) h = None.
Proof. intros Hp. cbn [ssl_readable]. unfold ssl_write. by rewrite Hp. Qed.

(** ** Examples *)

(** A library that takes one byte and then has to wait for the socket; it never fails. *)
Definition demo_ssl (n : nat) : ssl_answer := match n with 0%nat => Sent 0 | 1%nat => WantWrite | _ => Sent 3 end.

Definition demo_tls : tls_conn := mk_tls (demo_conn 2) None.

(** A write that has to be repeated is repeated from another place when the data was moved to the start of the buffer in between, and the
    client is lost although the library never failed. *)
Theorem moved_write_lost :
  (forall n e, demo_ssl n <> SyscallError e) /\ (forall n, demo_ssl n <> LibraryError) /\
  exists t, tls_run demo_ssl 7 demo_keep [TWrite (str "abc"); TWritable; TWrite (repeat ch_a 62)] demo_tls [] [] = Some (t, [], [], []) /\
    t.(tc_conn).(co_closed) = Some (Errno (Eother 0)) /\ t.(tc_conn).(co_sent) = str "a".
Proof. split; [by intros [|[|n]] e|]. split; [by intros [|[|n]]|]. eexists. split; [vm_compute; reflexivity|]. done. Qed.

Lemma demo_tls_ok : tls_ok demo_tls [].
Proof. split; [split; vm_compute; intuition discriminate|]. by vm_compute. Qed.

Lemma demo_tls_input : input_ok demo_tls [] demo_stream.
Proof.
  split; [exists (repeat 0 64); split; [done|]; split; [done|]; split; [constructor|by vm_compute]|]. split; [by vm_compute|].
  unfold short. vm_compute. by repeat constructor.
Qed.

Lemma tls_stream_witness :
  exists t done ops' k, tls_run demo_ssl 7 demo_keep [TWrite (str "abc"); TRead 2; TWait WaitRead; TRead 9] demo_tls demo_stream [] = Some (t, drop k demo_stream, [str "ab"; str "cd"], ops') /\
    tls_ok t (concat (map tls_text done)).
Proof.
  destruct (tls_stream demo_ssl 7 demo_keep [TWrite (str "abc"); TRead 2; TWait WaitRead; TRead 9] demo_tls [] [] demo_stream [] demo_tls_ok eq_refl demo_tls_input eq_refl)
    as (t & dn & ops' & k & E & _ & Hok & _).
  exists t, dn, ops', k. split; [|exact Hok].
  assert (exists t0 s0 o0, tls_run demo_ssl 7 demo_keep [TWrite (str "abc"); TRead 2; TWait WaitRead; TRead 9] demo_tls demo_stream [] = Some (t0, s0, [str "ab"; str "cd"], o0))
    as (t0 & s0 & o0 & E0) by (eexists _, _, _; vm_compute; reflexivity).
  rewrite E in E0 |- *. congruence.
Defined.

(** A certificate that was issued for the callsign of the login. *)
Definition demo_peer : ssl_peer := mk_peer 0 [] (Some (mk_x509 true (Some (Some (str "n0call"))))).
Definition demo_ssid_line : list Z := str "user N0CALL-5 pass -1 vers test 1.0".

