(* ===== verification/Counterdata.v ===== *)
(** * counterdata.c: samples of the counters over time

    A ring of samples for each counter, which the graphs of the status page are drawn from.  Each operation holds the lock of its
    counter, so it is one step.  Here a counter is known by its name, where the code has its address: the names are the
    distinct names of the table in [status_init].  Times are [tick]; the document has them as time of day. *)

From S2P Require Import Prelude Types LiveUpgrade.
From Stdlib Require Import ZArith Lia Bool String.
From stdpp Require Import base tactics list numbers.
Open Scope Z_scope.

Definition CDATA_SAMPLES : Z := 48 * 60.
Definition CDATA_INTERVAL : Z := 60.

Record cdata_t := mk_cdata {
  cd_name : list Z;
  cd_last_raw_value : Z;
  cd_times : list Z;
  cd_values : list Z;
  cd_last_index : Z;
  cd_is_gauge : bool
}.

(** ** Operations *)

Definition cdata_new (name : list Z) : cdata_t :=
  mk_cdata name 0 (repeat 0 (Z.to_nat CDATA_SAMPLES)) (repeat 0 (Z.to_nat CDATA_SAMPLES)) (-1) false.

Definition cdata_alloc (name : list Z) (counterdata : list cdata_t) : list cdata_t := cdata_new name :: counterdata.

Definition cdata_free (name : list Z) (counterdata : list cdata_t) : list cdata_t :=
  List.filter (fun cd => negb (bool_decide (cd.(cd_name) = name))) counterdata.

(** The search of [cdata_find_and_lock]. *)
Definition cdata_find (name : list Z) (counterdata : list cdata_t) : option cdata_t :=
  List.find (fun cd => bool_decide (cd.(cd_name) = name)) counterdata.

(** The next place of the ring. *)
Definition next_index (cd : cdata_t) : Z :=
  let i := cd.(cd_last_index) + 1 in if i >=? CDATA_SAMPLES then 0 else i.

(** [None] if it were outside of the array. *)
Definition store_sample (tick raw l : Z) (gauge : bool) (cd : cdata_t) : option cdata_t :=
  let i := next_index cd in
  values ← wr cd.(cd_values) i l;
  times ← wr cd.(cd_times) i tick;
  Some (mk_cdata cd.(cd_name) raw times values i (cd.(cd_is_gauge) || gauge)).

Definition cdata_counter_sample (tick value : Z) (cd : cdata_t) : option cdata_t :=
  let l := if value =? -1 then -1 else if value <? cd.(cd_last_raw_value) then -1 else value - cd.(cd_last_raw_value) in
  store_sample tick value l false cd.

Definition cdata_gauge_sample (tick value : Z) (cd : cdata_t) : option cdata_t := store_sample tick value value true cd.

Definition cdata_get_last_value (name : list Z) (counterdata : list cdata_t) : option Z :=
  match cdata_find name counterdata with
  | None => Some (-1)
  | Some cd => if cd.(cd_last_index) <? 0 then Some (-1) else rd cd.(cd_values) cd.(cd_last_index)
  end.

(** The loop of [cdata_json_string]: the samples from the place [i] on to the newest.  [None] when it ran that many times without coming there. *)
Fixpoint cdata_walk (fuel : nat) (cd : cdata_t) (tick_dif i : Z) : option (list (Z * Z)) :=
  match fuel with
  | O => None
  | S fuel =>
      let i := if i =? CDATA_SAMPLES then 0 else i in
      t ← rd cd.(cd_times) i;
      v ← rd cd.(cd_values) i;
      let here := if t >? 0 then [(t + tick_dif, v)] else [] in
      if i =? cd.(cd_last_index) then Some here else rest ← cdata_walk fuel cd tick_dif (i + 1); Some (here ++ rest)
  end.

Definition cdata_series (now tick : Z) (cd : cdata_t) : option (list (Z * Z)) :=
  if cd.(cd_last_index) >=? 0 then cdata_walk (Z.to_nat CDATA_SAMPLES) cd (now - tick) (cd.(cd_last_index) + 1) else Some [].

(** The document; [Some None] when there is no such counter. *)
Definition cdata_json_string (now tick : Z) (name : list Z) (counterdata : list cdata_t) : option (option json) :=
  match cdata_find name counterdata with
  | None => Some None
  | Some cd =>
      values ← cdata_series now tick cd;
      Some (Some (JObject (when cd.(cd_is_gauge) (num "gauge" 1) ++ num "interval" CDATA_INTERVAL ++
                           [(str "values", JArray (map (fun '(t, v) => JArray [JNumber t; JNumber v]) values))])))
  end.

(** * The ring is a window on all samples *)

(** The places of the ring from the oldest to the newest. *)
Definition ring (cd : cdata_t) : list (Z * Z) :=
  let slots := zip cd.(cd_times) cd.(cd_values) in
  drop (Z.to_nat (cd.(cd_last_index) + 1)) slots ++ take (Z.to_nat (cd.(cd_last_index) + 1)) slots.

Record ring_ok (cd : cdata_t) : Prop := {
  ro_times : zlen cd.(cd_times) = CDATA_SAMPLES;
  ro_values : zlen cd.(cd_values) = CDATA_SAMPLES;
  ro_index : -1 <= cd.(cd_last_index) < CDATA_SAMPLES
}.

Lemma zip_insert {A B} (i : nat) (x : A) (y : B) : forall l k, zip (<[i := x]> l) (<[i := y]> k) = <[i := (x, y)]> (zip l k).
Proof. induction i as [|i IH]; intros [|a l] [|b k]; cbn; try done; by rewrite IH. Qed.

Lemma wr_in l i x : 0 <= i < zlen l -> wr l i x = Some (<[Z.to_nat i := x]> l).
Proof. intros H. unfold wr. by rewrite (proj2 (Z.leb_le _ _)), (proj2 (Z.ltb_lt _ _)) by lia. Qed.

Lemma zlen_insert (l : list Z) i x : zlen (<[i := x]> l) = zlen l.
Proof. unfold zlen. by rewrite length_insert. Qed.

Lemma rd_lookup l i : 0 <= i -> rd l i = l !! Z.to_nat i.
Proof. intros H. unfold rd. by rewrite (proj2 (Z.leb_le _ _)) by lia. Qed.

(** A sample takes the place of the oldest. *)
Lemma store_spec tick raw l gauge cd :
  ring_ok cd -> exists cd', store_sample tick raw l gauge cd = Some cd' /\ ring_ok cd' /\ ring cd' = tl (ring cd) ++ [(tick, l)] /\
    0 <= cd'.(cd_last_index) /\ rd cd'.(cd_values) cd'.(cd_last_index) = Some l /\
    (cd'.(cd_name), cd'.(cd_last_raw_value), cd'.(cd_is_gauge)) = (cd.(cd_name), raw, cd.(cd_is_gauge) || gauge).
Proof.
  intros [Ht Hv Hi]. assert (0 < CDATA_SAMPLES) as Hpos by done.
  assert (0 <= next_index cd < CDATA_SAMPLES) as Hn by (unfold next_index; destruct (Z.geb_spec (cd_last_index cd + 1) CDATA_SAMPLES); lia).
  unfold store_sample. rewrite !wr_in by lia. cbn [mbind option_bind]. eexists. split; [done|].
  split; [split; cbn; rewrite ?zlen_insert; lia|]. split; [|split; [cbn; lia|]; split; [|done]].
  2:{ cbn. rewrite rd_lookup by lia. apply list_lookup_insert_eq. unfold zlen in *. lia. }
  unfold ring. cbn [cd_times cd_values cd_last_index]. rewrite zip_insert. set (slots := zip (cd_times cd) (cd_values cd)).
  assert (length slots = Z.to_nat CDATA_SAMPLES) as Hl by (unfold slots; rewrite length_zip_with; unfold zlen in *; lia).
  assert (exists k, Z.to_nat (next_index cd) = k /\ (k < length slots)%nat /\
    drop (Z.to_nat (cd_last_index cd + 1)) slots ++ take (Z.to_nat (cd_last_index cd + 1)) slots = drop k slots ++ take k slots) as (k & Ek & Hk & ->).
  { unfold next_index in *. destruct (Z.geb_spec (cd_last_index cd + 1) CDATA_SAMPLES) as [Hw|Hw].
    - exists 0%nat. split; [done|]. split; [lia|]. replace (Z.to_nat (cd_last_index cd + 1)) with (length slots) by lia. by rewrite drop_all, firstn_all, drop_0, app_nil_r.
    - eexists. split; [done|]. split; [lia|done]. }
  replace (Z.to_nat (next_index cd + 1)) with (S k) by lia. rewrite Ek.
  destruct (lookup_lt_is_Some_2 slots k Hk) as [x Hx]. rewrite <- (take_drop_middle slots k x Hx) at 1 2.
  rewrite (drop_S slots x k Hx). cbn [tl Datatypes.app].
  rewrite insert_app_r_alt by (rewrite length_take; lia). replace (k - length (take k slots))%nat with 0%nat by (rewrite length_take; lia). cbn [insert list_insert].
  assert (length (take k slots) = k) as Hlt by (rewrite length_take; lia).
  rewrite drop_app_ge, take_app_ge by lia. rewrite Hlt. replace (S k - k)%nat with 1%nat by lia. cbn [drop take]. by rewrite <- app_assoc.
Qed.

(** The samples that a document shows, at their time of day. *)
Definition shown (tick_dif : Z) (l : list (Z * Z)) : list (Z * Z) := flat_map (fun '(t, v) => if t >? 0 then [(t + tick_dif, v)] else []) l.

Section Walk.
Context (cd : cdata_t) (Hok : ring_ok cd) (d : Z).
Let slots := zip cd.(cd_times) cd.(cd_values).

Lemma slot_at i : 0 <= i < CDATA_SAMPLES ->
  exists t v, rd cd.(cd_times) i = Some t /\ rd cd.(cd_values) i = Some v /\ drop (Z.to_nat i) slots = (t, v) :: drop (Z.to_nat (i + 1)) slots.
Proof.
  intros Hi. destruct Hok as [Ht Hv _]. destruct (rd_in (cd_times cd) i ltac:(lia)) as [t Et]. destruct (rd_in (cd_values cd) i ltac:(lia)) as [v Ev].
  exists t, v. split; [done|]. split; [done|]. rewrite rd_lookup in Et, Ev by lia. replace (Z.to_nat (i + 1)) with (S (Z.to_nat i)) by lia. apply drop_S.
  unfold slots. rewrite lookup_zip_with, Et, Ev. done.
Qed.

(** From a place up to the newest. *)
Lemma walk_low fuel : forall i, 0 <= i <= cd.(cd_last_index) -> cd.(cd_last_index) - i < Z.of_nat fuel ->
  cdata_walk fuel cd d i = Some (shown d (take (Z.to_nat (cd.(cd_last_index) + 1 - i)) (drop (Z.to_nat i) slots))).
Proof.
  induction fuel as [|fuel IH]; intros i Hi Hf; [lia|]. pose proof (ro_index _ Hok). cbn [cdata_walk]. destruct (Z.eqb_spec i CDATA_SAMPLES); [lia|].
  destruct (slot_at i ltac:(lia)) as (t & v & -> & -> & ->). cbn [mbind option_bind].
  replace (Z.to_nat (cd_last_index cd + 1 - i)) with (S (Z.to_nat (cd_last_index cd + 1 - (i + 1)))) by lia. cbn [take shown flat_map].
  destruct (Z.eqb_spec i (cd_last_index cd)) as [->|Hne].
  - rewrite Z.sub_diag. cbn [Z.to_nat take flat_map]. by rewrite app_nil_r.
  - rewrite IH by lia. done.
Qed.

(** From a place behind the newest around the end of the array. *)
Lemma walk_high fuel : forall i, cd.(cd_last_index) < i <= CDATA_SAMPLES -> 0 <= cd.(cd_last_index) -> CDATA_SAMPLES - i + cd.(cd_last_index) < Z.of_nat fuel ->
  cdata_walk fuel cd d i = Some (shown d (drop (Z.to_nat i) slots ++ take (Z.to_nat (cd.(cd_last_index) + 1)) slots)).
Proof.
  induction fuel as [|fuel IH]; intros i Hi Hl Hf; [lia|]. pose proof (ro_index _ Hok). destruct (Z.eqb_spec i CDATA_SAMPLES) as [->|Hne].
  - transitivity (cdata_walk (S fuel) cd d 0); [done|]. rewrite walk_low by lia. rewrite Z.sub_0_r. change (Z.to_nat 0) with 0%nat. rewrite drop_0.
    rewrite (drop_ge slots); [done|]. unfold slots. rewrite length_zip_with. destruct Hok as [Ht Hv _]. unfold zlen in *. lia.
  - cbn [cdata_walk]. destruct (Z.eqb_spec i CDATA_SAMPLES); [lia|]. destruct (slot_at i ltac:(lia)) as (t & v & -> & -> & ->). cbn [mbind option_bind].
    destruct (Z.eqb_spec i (cd_last_index cd)); [lia|]. rewrite IH by lia. done.
Qed.
End Walk.

Lemma shown_app d l1 l2 : shown d (l1 ++ l2) = shown d l1 ++ shown d l2.
Proof. apply flat_map_app. Qed.

Lemma series_spec now tick cd : ring_ok cd ->
  cdata_series now tick cd = Some (if cd.(cd_last_index) <? 0 then [] else shown (now - tick) (ring cd)).
Proof.
  intros Hok. unfold cdata_series, ring. pose proof (ro_index _ Hok). rewrite Z.geb_leb. destruct (Z.ltb_spec (cd_last_index cd) 0); [by rewrite (proj2 (Z.leb_gt _ _)) by lia|].
  rewrite (proj2 (Z.leb_le _ _)) by lia. by rewrite walk_high by (done || lia).
Qed.

(** ** All samples of a counter *)

(** The samples of a counter, in order: the time, and the value, or nothing. *)
Definition sample_all (gauge : bool) (samples : list (Z * Z)) (cd : cdata_t) : option cdata_t :=
  fold_left (fun cd '(tick, value) => cd ← cd; if gauge then cdata_gauge_sample tick value cd else cdata_counter_sample tick value cd) samples (Some cd).

(** How much a counter grew from sample to sample; -1 when that is not known. *)
Fixpoint increments (prev : Z) (samples : list (Z * Z)) : list (Z * Z) :=
  match samples with
  | [] => []
  | (tick, value) :: samples => (tick, if (value =? -1) || (value <? prev) then -1 else value - prev) :: increments value samples
  end.

Definition recorded (gauge : bool) (prev : Z) (samples : list (Z * Z)) : list (Z * Z) := if gauge then samples else increments prev samples.

Lemma sample_all_spec gauge samples : forall cd, ring_ok cd -> zlen (ring cd) = CDATA_SAMPLES ->
  exists cd', sample_all gauge samples cd = Some cd' /\ ring_ok cd' /\ cd'.(cd_name) = cd.(cd_name) /\
    ring cd' = drop (length samples) (ring cd ++ recorded gauge cd.(cd_last_raw_value) samples) /\
    (samples <> [] -> 0 <= cd'.(cd_last_index) /\ cd'.(cd_is_gauge) = cd.(cd_is_gauge) || gauge /\
       rd cd'.(cd_values) cd'.(cd_last_index) = snd <$> recorded gauge cd.(cd_last_raw_value) samples !! pred (length samples)).
Proof.
  induction samples as [|[tick value] samples IH]; intros cd Hok Hr.
  { exists cd. split; [done|]. split; [done|]. split; [done|]. split; [|done]. by destruct gauge; cbn; rewrite app_nil_r, drop_0. }
  assert (exists cd1 x, (if gauge then cdata_gauge_sample tick value cd else cdata_counter_sample tick value cd) = Some cd1 /\ ring_ok cd1 /\
    ring cd1 = tl (ring cd) ++ [(tick, x)] /\ cd_name cd1 = cd_name cd /\ 0 <= cd_last_index cd1 /\ rd (cd_values cd1) (cd_last_index cd1) = Some x /\
    cd_is_gauge cd1 = cd_is_gauge cd || gauge /\ cd_last_raw_value cd1 = value /\ recorded gauge (cd_last_raw_value cd) ((tick, value) :: samples) = (tick, x) :: recorded gauge value samples)
    as (cd1 & x & E1 & K1 & K2 & K3 & K4 & K5 & K6 & K7 & K8).
  { destruct gauge.
    - destruct (store_spec tick value value true cd Hok) as (cd1 & E & S1 & S2 & S3 & S4 & [= S5 S6 S7]). by exists cd1, value.
    - unfold cdata_counter_sample. destruct (store_spec tick value (if value =? -1 then -1 else if value <? cd_last_raw_value cd then -1 else value - cd_last_raw_value cd) false cd Hok)
        as (cd1 & E & S1 & S2 & S3 & S4 & [= S5 S6 S7]). eexists cd1, _. do 7 (split; [done|]). split; [done|]. cbn [recorded increments].
      do 2 f_equal. by destruct (value =? -1), (value <? cd_last_raw_value cd). }
  assert (exists y r, ring cd = y :: r) as (y & r & Ey) by (destruct (ring cd); [done|by eexists _, _]).
  destruct (IH cd1 K1) as (cd' & E' & L1 & L2 & L3 & L4).
  { rewrite K2, Ey. cbn [tl]. rewrite Ey, zlen_cons in Hr. rewrite zlen_app. change (zlen [(tick, x)]) with 1. lia. }
  exists cd'. split; [unfold sample_all; cbn [fold_left mbind option_bind]; rewrite E1; exact E'|]. split; [done|]. split; [congruence|].
  rewrite K7 in L3, L4. split.
  - rewrite L3, K2, K8, Ey. cbn [tl length Datatypes.app]. rewrite <- app_assoc. done.
  - intros _. destruct samples as [|s samples].
    + cbn in E'. injection E' as <-. split; [done|]. split; [done|]. by rewrite K8, K5.
    + destruct (L4 ltac:(done)) as (M1 & M2 & M3). split; [done|]. split; [by rewrite M2, K6, <- orb_assoc, orb_diag|]. rewrite M3, K8. done.
Qed.

Lemma new_ok name : ring_ok (cdata_new name) /\ ring (cdata_new name) = repeat (0, 0) (Z.to_nat CDATA_SAMPLES).
Proof.
  split; [split; [..|split]; try done; unfold cdata_new, zlen; cbn [cd_times cd_values]; rewrite repeat_length; done|].
  unfold ring, cdata_new. cbn [cd_times cd_values cd_last_index]. change (Z.to_nat (-1 + 1)) with 0%nat. rewrite drop_0, take_0, app_nil_r.
  induction (Z.to_nat CDATA_SAMPLES) as [|n IH]; [done|]. cbn [repeat zip_with]. by rewrite IH.
Qed.

Lemma length_recorded gauge prev samples : length (recorded gauge prev samples) = length samples.
Proof.
  destruct gauge; [done|]. cbn [recorded]. revert prev. induction samples as [|[t v] samples IH]; intros prev; [done|]. cbn [increments length]. by rewrite IH.
Qed.

Lemma recorded_times gauge prev samples : Forall (fun s => 0 < s.1) samples -> Forall (fun s => 0 < s.1) (recorded gauge prev samples).
Proof. destruct gauge; [done|]. cbn [recorded]. intros H. revert prev. induction H as [|[t v] samples Ht _ IH]; intros prev; cbn [increments]; constructor; [done|apply IH]. Qed.

Definition at_time_of_day (d : Z) (s : Z * Z) : Z * Z := (s.1 + d, s.2).

Lemma shown_all d l : Forall (fun s => 0 < s.1) l -> shown d l = map (at_time_of_day d) l.
Proof. induction 1 as [|[t v] l Ht _ IH]; [done|]. cbn [shown flat_map map]. cbn in Ht. rewrite (proj2 (Z.gtb_lt _ _)) by lia. cbn [Datatypes.app]. by f_equal. Qed.

Lemma shown_none d n : shown d (repeat (0, 0) n) = [].
Proof. induction n as [|n IH]; [done|]. exact IH. Qed.

(** The newest samples, as many as there are places. *)
Definition newest (l : list (Z * Z)) : list (Z * Z) := drop (length l - Z.to_nat CDATA_SAMPLES) l.

Lemma shown_window d rec : Forall (fun s => 0 < s.1) rec ->
  shown d (drop (length rec) (repeat (0, 0) (Z.to_nat CDATA_SAMPLES) ++ rec)) = map (at_time_of_day d) (newest rec).
Proof.
  intros Hr. rewrite drop_app, repeat_length. unfold newest. rewrite shown_app.
  assert (shown d (drop (length rec) (repeat (0, 0) (Z.to_nat CDATA_SAMPLES))) = []) as ->.
  { generalize (Z.to_nat CDATA_SAMPLES), (length rec). induction n as [|n IH]; intros [|m]; [done..|apply shown_none|apply IH]. }
  apply shown_all. by apply Forall_drop.
Qed.

(** The graph of a counter shows the newest 2880 samples that were taken of it, and no others, from the oldest to the newest at their time of day: for a
    gauge its values, for a counter how much it grew since the sample before.  Every place that is read or written is inside of the ring, and the loop over it
    ends.  The last value is that of the newest sample. *)
Lemma counter_window_spec gauge name samples now tick :
  Forall (fun s => 0 < s.1) samples -> samples <> [] ->
  exists cd, sample_all gauge samples (cdata_new name) = Some cd /\
    forall counterdata, cdata_find name counterdata = Some cd ->
      cdata_json_string now tick name counterdata =
        Some (Some (JObject (when gauge (num "gauge" 1) ++ num "interval" CDATA_INTERVAL ++
          [(str "values", JArray (map (fun s => JArray [JNumber (s.1 + (now - tick)); JNumber s.2]) (newest (recorded gauge 0 samples))))]))) /\
      cdata_get_last_value name counterdata = snd <$> recorded gauge 0 samples !! pred (length samples).
Proof.
  intros Ht Hne. destruct (new_ok name) as [Hok Hr].
  destruct (sample_all_spec gauge samples (cdata_new name) Hok) as (cd & E & H1 & H2 & H3 & H4); [rewrite Hr; unfold zlen; rewrite repeat_length; done|].
  destruct (H4 Hne) as (H5 & H6 & H7). exists cd. split; [done|]. intros l Hf. unfold cdata_json_string, cdata_get_last_value. rewrite Hf, series_spec by done.
  rewrite (proj2 (Z.ltb_ge _ _)) by done. split; [|exact H7]. cbn [mbind option_bind]. rewrite H6, H3, Hr, <- (length_recorded gauge 0 samples).
  change (cd_last_raw_value (cdata_new name)) with 0. rewrite shown_window by (by apply recorded_times). rewrite map_map. do 2 f_equal.
Qed.

(** After a sample that is missing, a counter seems to have grown by all it ever counted, and one more. *)
Theorem gap_counts_all prev t t' v : 0 <= v -> increments prev [(t, -1); (t', v)] = [(t, -1); (t', v + 1)].
Proof.
  intros Hv. cbn [increments]. change (-1 =? -1) with true. cbn [orb]. rewrite (proj2 (Z.eqb_neq v (-1))), (proj2 (Z.ltb_ge v (-1))) by lia. cbn [orb].
  by replace (v - -1) with (v + 1) by lia.
Qed.
