(* ===== verification/Status.v ===== *)
(** * status.c: alarms, and samples of the status document

    The alarms of the status page, the table of the counters that are sampled from the document once a minute, and the
    document that a live upgrade leaves.  What the document says of the rest of the program is its parameter.  An entry that has just been
    allocated has times that were not set: [None]. *)

From S2P Require Import Prelude Types Accounting LiveUpgrade Counterdata.
From Stdlib Require Import ZArith Lia Bool String.
From stdpp Require Import base tactics list numbers.
Open Scope Z_scope.

(** ** Alarms *)

Record status_error_t := mk_status_error {
  se_err : list Z;
  se_set : Z;
  se_started : option Z;
  se_ends : option Z
}.

(** [status_error_find]: the list with an entry for [err] in it. *)
Definition status_error_find (err : list Z) (errs : list status_error_t) : list status_error_t :=
  if existsb (fun e => bool_decide (e.(se_err) = err)) errs then errs else mk_status_error err (-1) None None :: errs.

(** What [status_error] does to the entry, at [time]. *)
Definition status_error_update (time ttl : Z) (e : status_error_t) : option status_error_t :=
  if 0 <? ttl then
    let e := if e.(se_set) =? 1 then e else mk_status_error e.(se_err) 1 (Some time) e.(se_ends) in
    started ← e.(se_started); Some (mk_status_error e.(se_err) e.(se_set) e.(se_started) (Some (started + ttl)))
  else Some (if e.(se_set) =? 0 then e else mk_status_error e.(se_err) 0 e.(se_started) (Some time)).

(** Change the first element that satisfies [p]. *)
Fixpoint update_first {A} (p : A -> bool) (f : A -> option A) (l : list A) : option (list A) :=
  match l with
  | [] => None
  | x :: l => if p x then y ← f x; Some (y :: l) else l ← update_first p f l; Some (x :: l)
  end.

Definition status_error (time ttl : Z) (err : list Z) (errs : list status_error_t) : option (list status_error_t) :=
  update_first (fun e => bool_decide (e.(se_err) = err)) (status_error_update time ttl) (status_error_find err errs).

(** An alarm of the document; [None] for a time that was never set. *)
Fixpoint status_error_json (now : Z) (errs : list status_error_t) : option (list json) :=
  match errs with
  | [] => Some []
  | e :: errs =>
      ends ← e.(se_ends);
      if ends <? now then status_error_json now errs
      else
        started ← e.(se_started);
        rest ← status_error_json now errs;
        Some (JObject (text "err" e.(se_err) ++ num "set" e.(se_set) ++ num "start" started ++ num "end" ends) :: rest)
  end.

(** ** Samples *)

Record cdata_list_t := mk_cl {
  cl_tree : string;
  cl_name : string;
  cl_gauge : bool
}.

(** SCTP is compiled out. *)
Definition cdata_start : list cdata_list_t := [
  mk_cl "totals" "clients" true; mk_cl "totals" "connects" false; mk_cl "totals" "tcp_bytes_rx" false; mk_cl "totals" "tcp_bytes_tx" false;
  mk_cl "totals" "udp_bytes_rx" false; mk_cl "totals" "udp_bytes_tx" false; mk_cl "totals" "tcp_pkts_rx" false; mk_cl "totals" "tcp_pkts_tx" false;
  mk_cl "totals" "udp_pkts_rx" false; mk_cl "totals" "udp_pkts_tx" false; mk_cl "dupecheck" "dupes_dropped" false; mk_cl "dupecheck" "uniques_out" false].

Definition cl_key (cl : cdata_list_t) : list Z := str cl.(cl_tree) ++ str "." ++ str cl.(cl_name).

(** The counters and their list: both grow at the front. *)
Definition status_init : list cdata_t * list cdata_list_t :=
  fold_left (fun '(counterdata, cdata_list) cl => (cdata_alloc (cl_key cl) counterdata, cl :: cdata_list)) cdata_start ([], []).

(** The value of a member, -1 if it is not there; a member that is no integer is not modelled. *)
Definition status_value (ct : json) (name : string) : option Z :=
  match get_item name ct with Some v => valueint v | None => Some (-1) end.

Definition sample_one (tick value : Z) (cl : cdata_list_t) : list cdata_t -> option (list cdata_t) :=
  update_first (fun cd => bool_decide (cd.(cd_name) = cl_key cl))
    (if cl.(cl_gauge) then cdata_gauge_sample tick value else cdata_counter_sample tick value).

(** The loop of [status_json_string] when the document is periodical. *)
Fixpoint status_sample (tick : Z) (root : json) (cdata_list : list cdata_list_t) (counterdata : list cdata_t) : option (list cdata_t) :=
  match cdata_list with
  | [] => Some counterdata
  | cl :: cdata_list =>
      match get_item cl.(cl_tree) root with
      | None => status_sample tick root cdata_list counterdata
      | Some ct => v ← status_value ct cl.(cl_name); counterdata ← sample_one tick v cl counterdata; status_sample tick root cdata_list counterdata
      end
  end.

(** ** The document of a live upgrade *)

(** [status_dump_liveupgrade], for the clients that the workers left. *)
Definition status_dump_liveupgrade (worker_shutdown_clients : list json) : json :=
  JObject [(str "clients", JArray worker_shutdown_clients); (str "rx_errs", JArray (map JString inerr_labels))].

(** * Alarms *)

(** An alarm that is raised is shown until it ends. *)
Lemma alarm_raised time ttl err now :
  0 < ttl -> now <= time + ttl -> exists errs, status_error time ttl err [] = Some errs /\
    status_error_json now errs = Some [JObject (text "err" err ++ num "set" 1 ++ num "start" time ++ num "end" (time + ttl))].
Proof.
  intros Ht Hn. unfold status_error, status_error_find. cbn [existsb update_first se_err]. rewrite bool_decide_eq_true_2 by done. unfold status_error_update.
  rewrite (proj2 (Z.ltb_lt _ _)) by done. cbn [se_set se_err se_started se_ends Z.eqb mbind option_bind]. eexists. split; [done|].
  cbn [status_error_json se_ends se_started se_err se_set mbind option_bind]. by rewrite (proj2 (Z.ltb_ge _ _)) by lia.
Qed.

(** An alarm that is raised again does not end later, although the comment in the code says that its end is moved forward: an alarm that lasts is no
    longer shown when the time of its first raising is over. *)
Theorem alarm_not_extended t0 t1 ttl err now :
  0 < ttl -> t0 + ttl < now -> exists errs, (errs ← status_error t0 ttl err []; status_error t1 ttl err errs) = Some errs /\ status_error_json now errs = Some [].
Proof.
  intros Ht Hn. unfold status_error, status_error_find. cbn [existsb update_first se_err]. rewrite !(bool_decide_eq_true_2 (err = err)) by done. unfold status_error_update.
  rewrite (proj2 (Z.ltb_lt _ _)) by done. cbn [se_set se_err se_started se_ends Z.eqb mbind option_bind Pos.eqb existsb update_first].
  rewrite !(bool_decide_eq_true_2 (err = err)) by done. cbn [orb update_first se_err se_set se_started se_ends Z.eqb Pos.eqb mbind option_bind].
  rewrite !(bool_decide_eq_true_2 (err = err)) by done. cbn [mbind option_bind]. eexists. split; [done|].
  cbn [status_error_json se_ends mbind option_bind]. by rewrite (proj2 (Z.ltb_lt _ _)) by lia.
Qed.

(** An alarm that is cleared before it was ever raised is shown with a start that was never set. *)
Theorem cleared_alarm_undefined time err : exists errs, status_error time (-1) err [] = Some errs /\ status_error_json time errs = None.
Proof.
  unfold status_error, status_error_find. cbn [existsb update_first se_err]. rewrite bool_decide_eq_true_2 by done. unfold status_error_update. change (0 <? -1) with false.
  cbn [se_set se_err se_started se_ends Z.eqb mbind option_bind]. eexists. split; [done|].
  cbn [status_error_json se_ends se_started mbind option_bind]. by rewrite Z.ltb_irrefl.
Qed.

(** * The graphs show the documents *)

Lemma update_first_app {A} (p : A -> bool) f l1 x l2 :
  Forall (fun y => p y = false) l1 -> p x = true -> update_first p f (l1 ++ x :: l2) = y ← f x; Some (l1 ++ y :: l2).
Proof.
  intros H Hx. induction H as [|y l1 Hy _ IH]; cbn [Datatypes.app update_first]; [by rewrite Hx|]. rewrite Hy, IH. by destruct (f x).
Qed.

(** The counters after the documents of so many minutes. *)
Definition status_minutes (docs : list (Z * json)) (cdata_list : list cdata_list_t) (counterdata : list cdata_t) : option (list cdata_t) :=
  fold_left (fun cds '(tick, root) => cds ← cds; status_sample tick root cdata_list cds) docs (Some counterdata).

(** A document has integers for the counters; members may be missing. *)
Definition doc_ok (root : json) : Prop :=
  forall cl, cl ∈ cdata_start -> exists ct v, get_item cl.(cl_tree) root = Some ct /\ status_value ct cl.(cl_name) = Some v.

Definition doc_value (cl : cdata_list_t) (doc : Z * json) : Z * Z :=
  (doc.1, match get_item cl.(cl_tree) doc.2 with Some ct => default 0 (status_value ct cl.(cl_name)) | None => 0 end).

(** The counter of an entry of the table, after some documents. *)
Definition sampled (docs : list (Z * json)) (cl : cdata_list_t) (cd : cdata_t) : Prop :=
  cd.(cd_name) = cl_key cl /\ sample_all cl.(cl_gauge) (map (doc_value cl) docs) (cdata_new (cl_key cl)) = Some cd.

Lemma sample_all_snoc gauge samples s cd :
  sample_all gauge (samples ++ [s]) cd = (cd ← sample_all gauge samples cd; if gauge then cdata_gauge_sample s.1 s.2 cd else cdata_counter_sample s.1 s.2 cd).
Proof. unfold sample_all. rewrite fold_left_app. cbn [fold_left]. by destruct s. Qed.

Lemma new_sampled gauge samples name :
  exists cd, sample_all gauge samples (cdata_new name) = Some cd /\ cd.(cd_name) = name.
Proof.
  destruct (new_ok name) as [Hok Hr]. destruct (sample_all_spec gauge samples (cdata_new name) Hok) as (cd & E & _ & Hn & _);
    [rewrite Hr; unfold zlen; rewrite repeat_length; done|]. by exists cd.
Qed.

Lemma sampled_next docs doc cl cd : sampled docs cl cd ->
  exists cd', (if cl.(cl_gauge) then cdata_gauge_sample doc.1 (doc_value cl doc).2 cd else cdata_counter_sample doc.1 (doc_value cl doc).2 cd) = Some cd' /\ sampled (docs ++ [doc]) cl cd'.
Proof.
  intros [Hn Hs]. destruct (new_sampled (cl_gauge cl) (map (doc_value cl) (docs ++ [doc])) (cl_key cl)) as (cd' & E & Hn').
  exists cd'. split; [|by split]. rewrite map_app in E. cbn [map] in E. rewrite sample_all_snoc, Hs in E. exact E.
Qed.

Lemma names_differ docs cl L cds : Forall2 (sampled docs) L cds -> cl_key cl ∉ map cl_key L -> Forall (fun cd => bool_decide (cd.(cd_name) = cl_key cl) = false) cds.
Proof.
  induction 1 as [|cl' cd L cds [Hn _] _ IH]; intros Hk; constructor.
  - rewrite Hn. apply bool_decide_eq_false_2. intros E. apply Hk. rewrite <- E. left.
  - apply IH. intros Hx. apply Hk. by right.
Qed.

Lemma status_sample_spec tick root docs : doc_ok root -> forall L2 L1 cs1 cs2,
  (forall cl, cl ∈ L2 -> cl ∈ cdata_start) -> NoDup (map cl_key (L1 ++ L2)) -> Forall2 (sampled (docs ++ [(tick, root)])) L1 cs1 -> Forall2 (sampled docs) L2 cs2 ->
  exists cds, status_sample tick root L2 (cs1 ++ cs2) = Some cds /\ Forall2 (sampled (docs ++ [(tick, root)])) (L1 ++ L2) cds.
Proof.
  intros Hd. induction L2 as [|cl L2 IH]; intros L1 cs1 cs2 Hin Hnd H1 H2.
  { apply Forall2_nil_inv_l in H2 as ->. exists cs1. rewrite !app_nil_r. done. }
  apply Forall2_cons_inv_l in H2 as (cd & cs2' & Hcd & H2 & ->). destruct (Hd cl ltac:(apply Hin; left)) as (ct & v & Ect & Ev).
  cbn [status_sample]. rewrite Ect, Ev. cbn [mbind option_bind]. rewrite map_app in Hnd. apply list.NoDup_app in Hnd as (Hn1 & Hn2 & Hn3). cbn [map] in Hn2, Hn3.
  unfold sample_one. rewrite update_first_app.
  - destruct (sampled_next docs (tick, root) cl cd Hcd) as (cd' & E & Hcd'). unfold doc_value in E. cbn [fst snd] in E. rewrite Ect, Ev in E.
    assert ((if cl_gauge cl then cdata_gauge_sample tick v else cdata_counter_sample tick v) cd = Some cd') as -> by (by destruct (cl_gauge cl)). cbn [mbind option_bind].
    replace (L1 ++ cl :: L2) with ((L1 ++ [cl]) ++ L2) by (by rewrite <- app_assoc). replace (cs1 ++ cd' :: cs2') with ((cs1 ++ [cd']) ++ cs2') by (by rewrite <- app_assoc).
    apply IH; [intros x Hx; apply Hin; by right| |apply Forall2_app; [done|constructor; [done|constructor]]|done].
    rewrite !map_app, <- app_assoc. cbn [map Datatypes.app]. apply list.NoDup_app. done.
  - eapply names_differ; [exact H1|]. intros Hx. apply (Hn2 _ Hx). left.
  - destruct Hcd as [-> _]. by apply bool_decide_eq_true_2.
Qed.

Lemma status_minutes_spec docs : forall before L cds,
  Forall (fun doc => doc_ok doc.2) docs -> (forall cl, cl ∈ L -> cl ∈ cdata_start) -> NoDup (map cl_key L) -> Forall2 (sampled before) L cds ->
  exists cds', status_minutes docs L cds = Some cds' /\ Forall2 (sampled (before ++ docs)) L cds'.
Proof.
  induction docs as [|[tick root] docs IH]; intros before L cds Hd Hin Hnd Hs; [exists cds; by rewrite app_nil_r|]. apply list.Forall_cons_1 in Hd as [Hr Hd].
  destruct (status_sample_spec tick root before Hr L [] [] cds Hin Hnd ltac:(constructor) Hs) as (cds1 & E1 & Hs1). cbn [Datatypes.app] in E1, Hs1.
  destruct (IH (before ++ [(tick, root)]) L cds1 Hd Hin Hnd Hs1) as (cds' & E' & Hs'). exists cds'. rewrite <- app_assoc in Hs'. split; [|done].
  unfold status_minutes. cbn [fold_left mbind option_bind]. rewrite E1. exact E'.
Qed.

Lemma init_sampled : Forall2 (sampled []) status_init.2 status_init.1.
Proof.
  assert (forall L cds lst, Forall2 (sampled []) lst cds ->
    Forall2 (sampled []) (fold_left (fun '(cds, lst) cl => (cdata_alloc (cl_key cl) cds, cl :: lst)) L (cds, lst)).2
      (fold_left (fun '(cds, lst) cl => (cdata_alloc (cl_key cl) cds, cl :: lst)) L (cds, lst)).1) as H.
  { induction L as [|cl L IH]; intros cds lst Hs; [done|]. cbn [fold_left]. apply IH. constructor; [by split|done]. }
  apply H. constructor.
Qed.

Lemma init_list : status_init.2 = rev cdata_start.
Proof. done. Qed.

Lemma init_keys : NoDup (map cl_key (rev cdata_start)).
Proof. apply (bool_decide_unpack _). by vm_compute. Qed.

(** The counter of an entry is found by its name. *)
Lemma sampled_found docs L cds cl : Forall2 (sampled docs) L cds -> NoDup (map cl_key L) -> cl ∈ L ->
  exists cd, cdata_find (cl_key cl) cds = Some cd /\ sampled docs cl cd.
Proof.
  induction 1 as [|cl' cd L cds Hs Hf IH]; intros Hnd Hin; [by apply elem_of_nil in Hin|]. cbn [map] in Hnd. apply list.NoDup_cons in Hnd as [Hn Hnd].
  unfold cdata_find. cbn [List.find]. pose proof Hs as [Hname _]. rewrite Hname. apply elem_of_cons in Hin as [->|Hin].
  - rewrite bool_decide_eq_true_2 by done. by exists cd.
  - rewrite bool_decide_eq_false_2; [by apply IH|]. intros E. apply Hn. rewrite E. by apply list_elem_of_fmap_2.
Qed.

(** C11: The graph of every counter of the status page shows what the status documents of the last 2880 minutes said of it, and nothing else, in order and at their time of
    day: for a gauge its values, for a counter how much it grew from document to document.  (The documents are assumed to have integers where they have the counters, and
    times above 0.)  Sampling never reads or writes outside of a ring, and drawing ends. *)
Theorem graphs_show_documents docs now tick cl :
  Forall (fun doc => 0 < doc.1 /\ doc_ok doc.2) docs -> docs <> [] -> cl ∈ cdata_start ->
  exists counterdata, status_minutes docs status_init.2 status_init.1 = Some counterdata /\
    cdata_json_string now tick (cl_key cl) counterdata =
      Some (Some (JObject (when cl.(cl_gauge) (num "gauge" 1) ++ num "interval" CDATA_INTERVAL ++
        [(str "values", JArray (map (fun s => JArray [JNumber (s.1 + (now - tick)); JNumber s.2]) (newest (recorded cl.(cl_gauge) 0 (map (doc_value cl) docs)))))]))).
Proof.
  intros Hd Hne Hcl. destruct (status_minutes_spec docs [] status_init.2 status_init.1) as (cds & E & Hs).
  - eapply list.Forall_impl; [exact Hd|]. by intros ? [_ ?].
  - rewrite init_list. intros x Hx. apply list_elem_of_In, in_rev, list_elem_of_In in Hx. done.
  - rewrite init_list. apply init_keys.
  - apply init_sampled.
  - exists cds. split; [done|]. destruct (sampled_found docs status_init.2 cds cl Hs) as (cd & Hf & _ & Hcd); [rewrite init_list; apply init_keys| |].
    { rewrite init_list. by apply list_elem_of_In, in_rev; rewrite rev_involutive; apply list_elem_of_In. }
    destruct (counter_window_spec cl.(cl_gauge) (cl_key cl) (map (doc_value cl) docs) now tick) as (cd' & E' & H').
    { apply Forall_map. eapply list.Forall_impl; [exact Hd|]. by intros ? [? _]. }
    { by destruct docs. }
    assert (cd' = cd) as -> by congruence. by apply H'.
Qed.

Definition demo_doc (n : Z) : json := JObject [(str "totals", JObject (num "clients" 2 ++ num "connects" n)); (str "dupecheck", JObject (num "uniques_out" 7))].

Lemma demo_doc_ok n : doc_ok (demo_doc n).
Proof.
  intros cl Hcl. unfold cdata_start in Hcl. repeat (apply elem_of_cons in Hcl as [->|Hcl]; [eexists _, _; split; vm_compute; reflexivity|]).
  by apply elem_of_nil in Hcl.
Qed.

Lemma graphs_show_documents_witness :
  exists counterdata, status_minutes [(60, demo_doc 5); (120, demo_doc 9)] status_init.2 status_init.1 = Some counterdata /\
    cdata_json_string 1000 200 (str "totals.connects") counterdata =
      Some (Some (JObject [(str "interval", JNumber 60); (str "values", JArray [JArray [JNumber 860; JNumber 5]; JArray [JNumber 920; JNumber 4]])])).
Proof.
  destruct (graphs_show_documents [(60, demo_doc 5); (120, demo_doc 9)] 1000 200 (mk_cl "totals" "connects" false)) as (cds & E & H).
  - repeat constructor; apply demo_doc_ok.
  - discriminate.
  - right. left.
  - exists cds. split; [exact E|exact H].
Defined.
