(* ===== verification/Shutdown.v ===== *)
(** * worker.c: worker threads start and stop

    The number of workers follows the configuration.  A worker that is stopped closes its clients; when it is stopped for a live
    upgrade it closes only those with TLS, and writes down what it knows of the others for the new process, whose sockets it leaves open.

    [tls] says whether a client has a TLS connection; [addr_rem] and [connect_time] are the members of a client that
    only the dump reads. *)

From S2P Require Import Prelude Types Acl Outgoing Plist ClientIO Accounting Worker LiveUpgrade.
From Stdlib Require Import ZArith Lia Bool String SpecFloat.
From stdpp Require Import base tactics list gmap numbers.
Open Scope Z_scope.

(** ** The end of a worker *)

(** [while (self->clients) client_close(...)] *)
Fixpoint close_clients (n : nat) (w : worker) : option worker :=
  c ← load (AtHead tt) w.(wk_list);
  match c, n with
  | None, _ => Some w
  | Some _, O => None
  | Some c, S n => w ← client_close c w; close_clients n w
  end.

Definition set_wc_udp (u : option Z) (port : Z) (c : wclient) : wclient :=
  mk_wclient c.(wc_client) c.(wc_filters) c.(wc_conn) c.(wc_account) c.(wc_proto) c.(wc_addr_loc) u port
    c.(wc_connect_tick) c.(wc_keepalive) c.(wc_cleanup) c.(wc_listener_id) c.(wc_addr) c.(wc_app_name) c.(wc_app_version).

Section Shutdown.
Variable tick : Z.
Variable tls : Z -> bool.
Variable addr_rem : Z -> list Z.
Variable connect_time : Z -> Z.

(** What is written down of a client: nothing if it has no socket of its own. *)
Definition shutdown_json (id : Z) (c : wclient) : option (list json) :=
  if c.(wc_client).(c_fd) >=? 0 then j ← worker_client_json tick (connect_time id) (addr_rem id) true c; Some [j] else Some [].

Fixpoint hang_loop (n : nat) (c : option Z) (w : worker) (shutdown_clients : list json) : option (worker * list json) :=
  match n, c with
  | _, None => Some (w, shutdown_clients)
  | O, Some _ => None
  | S n, Some id =>
      next ← load (AtNext id) w.(wk_list);
      if tls id then w ← client_close id w; hang_loop n next w shutdown_clients
      else
        c ← w.(wk_store) !! id;
        jc ← shutdown_json id c;
        w ← client_udp_free c.(wc_udpclient) w;
        hang_loop n next (put id (set_wc_udp None c.(wc_udp_port) c) w) (shutdown_clients ++ jc)
  end.

(** [shutting_down] is 1, or 2 for a live upgrade. *)
Definition worker_end (shutting_down : Z) (w : worker) (shutdown_clients : list json) : option (worker * list json) :=
  let n := Z.to_nat w.(wk_count) in
  if shutting_down =? 2 then c ← load (AtHead tt) w.(wk_list); hang_loop n c w shutdown_clients
  else w ← close_clients n w; Some (w, shutdown_clients).
End Shutdown.

(** ** All workers *)

(** The threads by their number, and [workers_running]. *)
Record workers := mk_workers { ws_threads : list Z; ws_running : Z }.

Section Workers.
Context {S : Type}.
(** A worker starts; a worker is told to end, and is waited for. *)
Variable start : Z -> S -> S.
Variable join : Z -> Z -> S -> option S.
Variable workers_configured : Z.

(** [None]: there is no worker to stop, which ends the program. *)
Fixpoint stop_loop (n : nat) (stop_all : Z) (ws : workers) (s : S) : option (workers * S) :=
  if (ws.(ws_running) >? workers_configured) || negb (stop_all =? 0) && (ws.(ws_running) >? 0) then
    match n, rev ws.(ws_threads) with
    | Datatypes.S n, w :: threads =>
        s ← join w (if stop_all =? 2 then 2 else 1) s;
        stop_loop n stop_all (mk_workers (rev threads) (ws.(ws_running) - 1)) s
    | _, _ => None
    end
  else Some (ws, s).

Definition workers_stop (stop_all : Z) (ws : workers) (s : S) : option (workers * S) := stop_loop (Z.to_nat ws.(ws_running)) stop_all ws s.

Fixpoint start_loop (n : nat) (ws : workers) (s : S) : option (workers * S) :=
  if ws.(ws_running) <? workers_configured then
    match n with
    | O => None
    | Datatypes.S n => let i := zlen ws.(ws_threads) in start_loop n (mk_workers (ws.(ws_threads) ++ [i]) (ws.(ws_running) + 1)) (start i s)
    end
  else Some (ws, s).

Definition workers_start (ws : workers) (s : S) : option (workers * S) :=
  '(ws, s) ← (if negb (ws.(ws_running) =? 0) then workers_stop 0 ws s else Some (ws, s));
  start_loop (Z.to_nat (workers_configured - ws.(ws_running))) ws s.
End Workers.
