(* ===== verification/ShutdownSpec.v ===== *)
(** * What becomes of the clients of a worker that stops

    The workers are as many as configured; a worker that is stopped has given back everything its clients held; and in a live
    upgrade the clients of the worker are clients of the new process, through the document that carries them. *)

From S2P Require Import Prelude Table Types Cfloat Acl ParseQc ParseAprs Clientlist ClientHeard Filter FilterParse FilterSpec Outgoing.
From S2P Require Import Plist ClientIO Accounting Worker WorkerSpec Newclient Accept Uplink UplinkSpec AcceptSpec Config ConfigSpec LiveUpgrade LiveUpgradeSpec Counterdata Status Shutdown.
From Stdlib Require Import ZArith Lia Bool String SpecFloat.
From stdpp Require Import base tactics list gmap numbers.
Open Scope Z_scope.

(** * The number of workers *)

Definition numbered (ws : workers) : Prop := 0 <= ws.(ws_running) /\ ws.(ws_threads) = map Z.of_nat (seq 0 (Z.to_nat ws.(ws_running))).

Definition running (n : Z) : workers := mk_workers (map Z.of_nat (seq 0 (Z.to_nat n))) n.

Lemma numbered_running ws : numbered ws -> 0 <= ws.(ws_running) /\ ws = running ws.(ws_running).
Proof. intros [H1 H2]. split; [done|]. destruct ws as [t r]. cbn in *. by rewrite H2. Qed.

(** The last [k] workers below [n], the last one first. *)
Fixpoint joins {S} (join : Z -> Z -> S -> option S) (mode : Z) (n : Z) (k : nat) (s : S) : option S :=
  match k with O => Some s | Datatypes.S k => s ← join (n - 1) mode s; joins join mode (n - 1) k s end.

Fixpoint starts {S} (start : Z -> S -> S) (n : Z) (k : nat) (s : S) : S :=
  match k with O => s | Datatypes.S k => starts start (n + 1) k (start n s) end.

Section Numbers.
Context {S : Type}.
Variable start : Z -> S -> S.
Variable join : Z -> Z -> S -> option S.
Variable configured : Z.
Context (Hconf : 0 <= configured).

Lemma rev_running n : 0 < n -> rev (running n).(ws_threads) = (n - 1) :: rev (running (n - 1)).(ws_threads).
Proof.
  intros Hn. cbn. replace (Z.to_nat n) with (Z.to_nat (n - 1) + 1)%nat by lia. rewrite seq_app, map_app, rev_app_distr. cbn. f_equal. lia.
Qed.

Definition wanted (stop_all : Z) : Z := if stop_all =? 0 then configured else 0.

Lemma stop_loop_spec stop_all k : forall n s, (k = Z.to_nat (n - wanted stop_all))%nat -> 0 <= n ->
  forall fuel, (k <= fuel)%nat ->
  stop_loop join configured fuel stop_all (running n) s =
    s ← joins join (if stop_all =? 2 then 2 else 1) n k s; Some (running (Z.min n (wanted stop_all)), s).
Proof.
  unfold wanted. induction k as [|k IH]; intros n s Hk Hn [|fuel] Hf; try lia; cbn [stop_loop joins]; change (ws_running (running n)) with n.
  1,2: replace (_ || _) with false by (destruct (Z.eqb_spec stop_all 0); cbn [negb andb]; lia);
    cbn [mbind option_bind]; destruct (Z.eqb_spec stop_all 0); rewrite Z.min_l by lia; done.
  replace (_ || _) with true by (destruct (Z.eqb_spec stop_all 0); cbn [negb andb]; lia).
  rewrite rev_running by (destruct (stop_all =? 0); lia).
  destruct (join (n - 1) _ s) as [s'|]; [|done]. cbn [mbind option_bind]. rewrite rev_involutive. change (mk_workers _ _) with (running (n - 1)).
  rewrite IH; [|destruct (stop_all =? 0); lia..]. replace (Z.min (n - 1) _) with (Z.min n (if stop_all =? 0 then configured else 0)) by (destruct (stop_all =? 0); lia). done.
Qed.

Lemma workers_stop_spec stop_all n s : 0 <= n ->
  workers_stop join configured stop_all (running n) s =
    s ← joins join (if stop_all =? 2 then 2 else 1) n (Z.to_nat (n - wanted stop_all)) s; Some (running (Z.min n (wanted stop_all)), s).
Proof. intros Hn. unfold workers_stop. apply stop_loop_spec; [done|done|]. unfold wanted. cbn [ws_running running]. destruct (stop_all =? 0); lia. Qed.

Lemma start_loop_spec k : forall n s, (k = Z.to_nat (configured - n))%nat -> 0 <= n ->
  start_loop start configured k (running n) s = Some (running (Z.max n configured), starts start n k s).
Proof.
  induction k as [|k IH]; intros n s Hk Hn; cbn [start_loop]; change (ws_running (running n)) with n.
  { rewrite (proj2 (Z.ltb_ge _ _)), Z.max_l by lia. done. }
  rewrite (proj2 (Z.ltb_lt _ _)) by lia. assert (zlen (ws_threads (running n)) = n) as -> by (cbn; rewrite zlen_map; unfold zlen; rewrite length_seq; lia).
  replace (mk_workers _ _) with (running (n + 1)).
  2:{ unfold running. f_equal. cbn. replace (Z.to_nat (n + 1)) with (Z.to_nat n + 1)%nat by lia. rewrite seq_app, map_app. cbn. do 2 f_equal. lia. }
  rewrite IH by lia. replace (Z.max (n + 1) configured) with (Z.max n configured) by lia. done.
Qed.

(** The workers follow the configuration: those above the number are stopped, the last one first, or the missing ones are started; they are numbered from 0 on. *)
Theorem workers_follow_config ws s : numbered ws ->
  workers_start start join configured ws s =
    s ← joins join 1 ws.(ws_running) (Z.to_nat (ws.(ws_running) - configured)) s;
    Some (running configured, starts start ws.(ws_running) (Z.to_nat (configured - ws.(ws_running))) s).
Proof.
  intros [Hn ->]%numbered_running. cbn [ws_running running]. set (n := ws_running ws) in *. unfold workers_start. change (ws_running (running n)) with n.
  destruct (Z.eqb_spec n 0) as [E|E]; cbn [negb].
  - rewrite E. replace (Z.to_nat (0 - configured)) with 0%nat by lia. cbn [joins mbind option_bind ws_running running]. change (mk_workers _ _) with (running 0).
    rewrite start_loop_spec by lia. by rewrite Z.max_r by lia.
  - rewrite workers_stop_spec by done. change (0 =? 2) with false. unfold wanted. change (0 =? 0) with true. cbv iota.
    destruct (joins _ _ _ _ _) as [s'|]; [|done]. cbn [mbind option_bind]. change (ws_running (running (Z.min n configured))) with (Z.min n configured).
    rewrite start_loop_spec by lia. rewrite Z.max_r by lia. destruct (Z.le_gt_cases n configured); [by rewrite Z.min_l|].
    rewrite Z.min_r by lia. replace (Z.to_nat (configured - configured)) with 0%nat by lia. replace (Z.to_nat (configured - n)) with 0%nat by lia. done.
Qed.
End Numbers.

(** * A worker that ends *)

Definition drops_ok (w : worker) : Prop := forall id c, w.(wk_store) !! id = Some c -> is_Some (client_drops c.(wc_account).(ca_local)).

Lemma load_head h cl cls ss w : worker_ok h cl cls ss w -> load (AtHead tt) w.(wk_list) = Some (head cl).
Proof.
  intros Hw. pose proof (ls_seg _ _ (lo_list _ _ _ (wo_lists _ _ _ _ _ Hw)) tt) as Hs. destruct cl; cbn [seg] in Hs; [done|by destruct Hs].
Qed.

(** Closing a client of the list, with what is left. *)
Lemma close_step h cl1 id cl2 cls ss w :
  worker_ok h (cl1 ++ id :: cl2) cls ss w -> drops_ok w ->
  exists w', client_close id w = Some w' /\ worker_ok h (cl1 ++ cl2) (without id cls) (gone id ss) w' /\ drops_ok w' /\
    w'.(wk_store) = delete id w.(wk_store) /\ w'.(wk_new) = w.(wk_new).
Proof.
  intros Hw Hd. pose proof (wo_lists _ _ _ _ _ Hw) as L. assert (id ∈ cl1 ++ id :: cl2) as Hid by (apply elem_of_app; right; left).
  destruct (lo_store _ _ _ L id) as [c Hc]; [apply elem_of_app; by left|].
  destruct (client_close_spec _ _ _ _ _ _ _ Hw Hid Hc (Hd _ _ Hc)) as (w' & E & H1 & H2 & H3 & _). exists w'. split; [done|]. split; [|split; [|done]].
  - pose proof (lo_nodup _ _ _ L) as Hn. apply list.NoDup_app in Hn as (Hn & _ & _). unfold rm in H1. by rewrite filter_split in H1.
  - intros i x. rewrite H2. intros [_ Hx]%lookup_delete_Some. by apply (Hd i).
Qed.

(** A worker that is stopped has closed all its clients, and given back all they held. *)
Theorem shutdown_releases h cl : forall cls ss w, worker_ok h cl cls ss w -> drops_ok w ->
  exists w' cls' ss', close_clients (Z.to_nat w.(wk_count)) w = Some w' /\ worker_ok h [] cls' ss' w' /\
    w'.(wk_new) = w.(wk_new) /\ (forall id, id ∈ cl -> w'.(wk_store) !! id = None) /\ (forall id, id ∉ cl -> w'.(wk_store) !! id = w.(wk_store) !! id).
Proof.
  induction cl as [|id cl IH]; intros cls ss w Hw Hd; rewrite (lo_count _ _ _ (wo_lists _ _ _ _ _ Hw)).
  { exists w, cls, ss. change (Z.to_nat (zlen [])) with 0%nat. cbn [close_clients]. rewrite (load_head _ _ _ _ _ Hw). split; [done|]. split; [done|]. split; [done|].
    split; [by intros ? ?%elem_of_nil|done]. }
  destruct (close_step h [] id cl cls ss w Hw Hd) as (w1 & E & H1 & H2 & H3 & H4).
  destruct (IH _ _ w1 H1 H2) as (w' & cls' & ss' & E' & G1 & G2 & G3 & G4). exists w', cls', ss'.
  replace (Z.to_nat (zlen (id :: cl))) with (S (length cl)) by (unfold zlen; cbn; lia). cbn [close_clients]. rewrite (load_head _ _ _ _ _ Hw). cbn [head mbind option_bind].
  rewrite E. cbn [mbind option_bind]. rewrite (lo_count _ _ _ (wo_lists _ _ _ _ _ H1)) in E'. unfold zlen in E'. rewrite Nat2Z.id in E'.
  split; [exact E'|]. split; [done|]. split; [congruence|]. split.
  - intros i [->|Hi]%elem_of_cons; [|by apply G3]. destruct (decide (id ∈ cl)) as [Hin|Hin]; [by apply G3|]. rewrite G4, H3 by done. apply lookup_delete_eq.
  - intros i [Hne Hi]%not_elem_of_cons. rewrite G4, H3 by done. by apply lookup_delete_ne.
Qed.

(** ** Clients that are left hanging *)

(** Clients [m] in the place of those of the worker. *)
Definition over (m : gmap Z wclient) (w : worker) : worker := set_wk_store (m ∪ w.(wk_store)) w.

Lemma udp_free_over m u w : client_udp_free u (over m w) = over m <$> client_udp_free u w.
Proof. destruct u as [u|]; [|done]. cbn [client_udp_free over set_wk_store wk_udp]. by destruct (wk_udp w !! u). Qed.

Lemma client_free_over m id w : m !! id = None -> client_free id (over m w) = over m <$> client_free id w.
Proof.
  intros Hm. unfold client_free. change (wk_store (over m w)) with (m ∪ wk_store w). rewrite lookup_union_r by done.
  destruct (wk_store w !! id) as [c|]; [|done]. cbn [mbind option_bind]. rewrite udp_free_over. destruct (client_udp_free _ w) as [w1|]; [|done].
  cbn [fmap option_fmap option_map mbind option_bind over set_wk_store wk_store wk_list wk_class wk_count wk_new wk_peers wk_accounts wk_udp wk_table wk_gauge wk_uplinks wk_fds].
  by rewrite delete_union, (delete_id m).
Qed.

Lemma client_close_over m id w : m !! id = None -> client_close id (over m w) = over m <$> client_close id w.
Proof.
  intros Hm. unfold client_close. change (wk_store (over m w)) with (m ∪ wk_store w). rewrite lookup_union_r by done.
  destruct (wk_store w !! id) as [c|]; [|done]. cbn [mbind option_bind]. destruct (client_drops _); [|done]. cbn [mbind option_bind].
  change (wk_list (over m w)) with (wk_list w). change (wk_class (over m w)) with (wk_class w). change (drop_accounts c (over m w)) with (drop_accounts c w).
  destruct (unlink_node id (wk_list w)) as [l1|]; [|done]. cbn [mbind option_bind]. destruct (unlink_class id (wk_class w)) as [l2|]; [|done]. cbn [mbind option_bind].
  destruct (drop_accounts c w) as [a|]; [|done]. cbn [mbind option_bind]. rewrite <- client_free_over by done. done.
Qed.

(** The reference to the account of its UDP socket that a client does not give back when it is left hanging. *)
Definition hung_held (h : held) (c : wclient) : held :=
  mk_held (fun p => h.(he_port) p + (if negb (c.(wc_udp_port) =? 0) && bool_decide (c.(wc_account).(ca_udp) = Some p) then 1 else 0))
    h.(he_udp) h.(he_filters).

Lemma tally_put w id c c' ids f :
  NoDup ids -> id ∈ ids -> w.(wk_store) !! id = Some c ->
  tally (of_client w f 0) ids = f c + tally (of_client w f 0) (rm id ids) /\
  tally (of_client (put id c' w) f 0) ids = f c' + tally (of_client w f 0) (rm id ids).
Proof.
  intros Hd Hi Hc. rewrite (tally_without (of_client w f 0) id ids), (tally_without (of_client (put id c' w) f 0) id ids) by done.
  unfold of_client at 1 4. rewrite put_lookup, Hc. split; [done|]. f_equal. apply tally_ext. intros i [_ Hne]%in_rm. unfold of_client. cbn. by rewrite lookup_insert_ne.
Qed.

Lemma hang_refs h ids w id c udp fds :
  refs_ok h ids w -> NoDup ids -> (forall i, is_Some (w.(wk_store) !! i) -> i ∈ ids) -> w.(wk_store) !! id = Some c ->
  (forall u, counted (h.(he_udp) u) (tally (of_client w (udp_refs u) 0) (rm id ids)) (cu_refcount <$> udp !! u)) ->
  (forall u s, w.(wk_udp) !! u = Some s -> is_Some (udp !! u) -> exists s', udp !! u = Some s' /\ s'.(cu_portaccount) = s.(cu_portaccount)) ->
  refs_ok (hung_held h c) ids (put id (set_wc_udp None 0 c)
    (mk_wk w.(wk_store) w.(wk_list) w.(wk_class) w.(wk_count) w.(wk_new) w.(wk_peers) w.(wk_accounts) udp w.(wk_table) w.(wk_gauge) w.(wk_uplinks) fds)).
Proof.
  intros [R0 R1 R2 R3 R4 R5] Hd Hk Hc Hu Ha. assert (id ∈ ids) as Hid by (apply Hk; by eexists). set (w1 := mk_wk _ _ _ _ _ _ _ _ _ _ _ _).
  set (c' := set_wc_udp None 0 c). pose proof (proj1 (put_store w1 id c c' Hc)) as Hst.
  assert (forall f, tally (of_client (put id c' w1) f 0) ids = f c' + tally (of_client w f 0) (rm id ids)) as Hput by (intros f; by apply (tally_put w1 id c c')).
  assert (forall f, tally (of_client w f 0) ids = f c + tally (of_client w f 0) (rm id ids)) as Htot by (intros f; by apply (tally_put w id c c')).
  split; cbn [hung_held he_port he_udp he_filters wk_accounts wk_udp wk_gauge put set_wk_store w1]; fold w1; change (set_wk_store _ w1) with (put id c' w1).
  - intros x. specialize (R0 x). split; [|lia]. split_if; lia.
  - intros p. rewrite Hput. specialize (R1 p). rewrite Htot in R1. unfold port_refs at 1 in R1. unfold port_refs at 1. cbn [c' set_wc_udp wc_account wc_udp_port Z.eqb negb andb].
    pose proof (tally_nonneg (of_client w (port_refs p) 0) (rm id ids) (port_refs_nonneg w p)) as Ht.
    set (feed := if negb (wc_udp_port c =? 0) && _ then 1 else 0) in *. assert (0 <= feed) by (unfold feed; split_if; lia). clearbody feed.
    set (own := if bool_decide (ca_port _ = _) then 1 else 0) in *. assert (0 <= own) by (unfold own; split_if; lia). clearbody own.
    destruct (R0 p) as [R0p _]. destruct (pa_refcount <$> _) as [n|]; cbn [counted] in *; lia.
  - intros u. rewrite Hput. apply Hu.
  - intros i x u Hx Ex. destruct (Hst i x Hx) as [[Hne Hy]|[-> ->]]; [|discriminate Ex]. clear Hx. rename Hy into Hx. destruct (R3 i x u Hx Ex) as (s & Hs & Ea).
    assert (is_Some (udp !! u)) as Hsome.
    { specialize (Hu u). pose proof (udp_refs_in w u (rm id ids) i x) as Hpos. destruct (udp !! u); [by eexists|]. cbn in Hu.
      assert (0 < tally (of_client w (udp_refs u) 0) (rm id ids)); [|lia]. apply Hpos; [by apply base.NoDup_ListNoDup, NoDup_filter, base.NoDup_ListNoDup| |done|done].
      apply in_rm. split; [apply Hk; by eexists|done]. }
    destruct (Ha u s Hs Hsome) as (s' & Hs' & Es'). exists s'. split; [done|congruence].
  - intros i x Hx Hp. destruct (Hst i x Hx) as [[Hne Hy]|[-> ->]]; [by apply (R4 i x)|done].
  - rewrite Hput, R5, Htot. done.
Qed.

Lemma hang_ok h cl cls ss w id c :
  worker_ok h cl cls ss w -> id ∈ cl -> w.(wk_store) !! id = Some c ->
  exists w1, client_udp_free c.(wc_udpclient) w = Some w1 /\ worker_ok (hung_held h c) cl cls ss (put id (set_wc_udp None 0 c) w1) /\
    w1.(wk_store) = w.(wk_store) /\ w1.(wk_new) = w.(wk_new) /\ w1.(wk_list) = w.(wk_list).
Proof.
  intros [L R S] Hid Hc. pose proof (lo_nodup _ _ _ L) as Hd. set (ids := cl ++ wk_new w) in *.
  assert (id ∈ ids) as Hin by (apply elem_of_app; by left).
  destruct (udp_free_spec (he_udp h) (fun u => tally (of_client w (udp_refs u) 0) (rm id ids)) c w) as (udp & fds & -> & Hu & Ha).
  { intros u. apply (ro_held _ _ _ R). }
  { intros u. apply tally_nonneg, udp_refs_nonneg. }
  { intros u. destruct (tally_put w id c c ids (udp_refs u) Hd Hin Hc) as [<- _]. apply (ro_udp _ _ _ R). }
  eexists. split; [done|]. split; [|done]. split.
  - eapply (put_lists_ok cl cls _ id c); [by destruct L|done|done|done].
  - apply hang_refs; try done. apply (lo_known _ _ _ L).
  - eapply (put_sessions_ok ss _ id c); [by destruct S|done|done|by left].
Qed.

Section Hang.
Variable tick : Z.
Variable tls : Z -> bool.
Variable addr_rem : Z -> list Z.
Variable connect_time : Z -> Z.

(** What is written down of the clients [ids]. *)
Fixpoint dumps (store : gmap Z wclient) (ids : list Z) : option (list json) :=
  match ids with
  | [] => Some []
  | id :: ids =>
      jc ← (if tls id then Some [] else c ← store !! id; shutdown_json tick addr_rem connect_time id c);
      rest ← dumps store ids;
      Some (jc ++ rest)
  end.

Lemma dumps_ext m m' ids : (forall i, i ∈ ids -> m !! i = m' !! i) -> dumps m ids = dumps m' ids.
Proof.
  induction ids as [|id ids IH]; intros He; [done|]. cbn [dumps]. rewrite He by left. destruct (if tls id then _ else _); [|done]. cbn [mbind option_bind].
  rewrite IH; [done|]. intros i Hi. apply He. by right.
Qed.

(** What becomes of a client. *)
Definition left_hanging (i : Z) (c : option wclient) : option wclient :=
  if tls i then None else (fun c => set_wc_udp None c.(wc_udp_port) c) <$> c.

Abbreviation hang := (hang_loop tick tls addr_rem connect_time).

Lemma hang_one n id rest m g docs c :
  load (AtNext id) g.(wk_list) = Some (head rest) -> m !! id = None -> tls id = false -> g.(wk_store) !! id = Some c ->
  forall g1 jc, client_udp_free c.(wc_udpclient) g = Some g1 -> g1.(wk_store) = g.(wk_store) -> shutdown_json tick addr_rem connect_time id c = Some jc ->
  hang (S n) (Some id) (over m g) docs =
    hang n (head rest) (over (<[id := set_wc_udp None c.(wc_udp_port) c]> m) (put id (set_wc_udp None 0 c) g1)) (docs ++ jc).
Proof.
  intros Hl Hm Ht Hc g1 jc Hu Hs Hj. cbn [hang_loop]. change (wk_list (over m g)) with (wk_list g). rewrite Hl. cbn [mbind option_bind]. rewrite Ht.
  change (wk_store (over m g)) with (m ∪ wk_store g). rewrite lookup_union_r, Hc by done. cbn [mbind option_bind]. rewrite Hj. cbn [mbind option_bind].
  rewrite udp_free_over, Hu. cbn [fmap option_fmap option_map mbind option_bind]. f_equal. unfold put, over, set_wk_store.
  cbn [wk_store wk_list wk_class wk_count wk_new wk_peers wk_accounts wk_udp wk_table wk_gauge wk_uplinks wk_fds]. f_equal.
  rewrite <- insert_union_l. apply map_eq. intros i. destruct (decide (i = id)) as [->|Hne]; [by rewrite !lookup_insert_eq|].
  rewrite !lookup_insert_ne by done. rewrite !lookup_union, lookup_insert_ne by done. done.
Qed.

Lemma hang_loop_spec rest : forall n done h cls ss g m docs,
  worker_ok h (done ++ rest) cls ss g -> drops_ok g -> (forall i, i ∈ rest -> m !! i = None) -> (length rest <= n)%nat ->
  is_Some (dumps g.(wk_store) rest) ->
  exists w' docs', hang n (head rest) (over m g) docs = Some (w', docs ++ docs') /\ dumps g.(wk_store) rest = Some docs' /\
    (forall i, w'.(wk_store) !! i = if bool_decide (i ∈ rest) then left_hanging i (g.(wk_store) !! i) else (m ∪ g.(wk_store)) !! i).
Proof.
  induction rest as [|id rest IH]; intros n done h cls ss g m docs Hw Hd Hm Hn Hj.
  { exists (over m g), []. split; [rewrite app_nil_r; by destruct n|]. split; [done|]. intros i. by rewrite bool_decide_eq_false_2 by apply not_elem_of_nil. }
  destruct n as [|n]; [cbn in Hn; lia|]. pose proof (wo_lists _ _ _ _ _ Hw) as L. pose proof (lo_nodup _ _ _ L) as Hnd. apply list.NoDup_app in Hnd as (Hnd & _ & _).
  assert (id ∉ rest) as Hx by (apply list.NoDup_app in Hnd as (_ & _ & H2); by apply list.NoDup_cons in H2 as [H2 _]).
  pose proof (seg_pred _ _ _ _ _ (ls_seg _ _ (lo_list _ _ _ L) tt)) as [_ Hnext]. change (load (AtNext id) (wk_list g) = Some (head rest)) in Hnext.
  assert (m !! id = None) as Hmi by (apply Hm; left). assert (forall i, i ∈ rest -> m !! i = None) as Hmr by (intros i Hi; apply Hm; by right).
  destruct Hj as [docs0 Hj]. cbn [dumps] in Hj. destruct (if tls id then _ else _) as [jc|] eqn:E; [|discriminate Hj]. cbn [mbind option_bind] in Hj.
  destruct (dumps (wk_store g) rest) as [jr|] eqn:E0; [|discriminate Hj]. clear Hj docs0.
  destruct (tls id) eqn:Et.
  - injection E as <-. destruct (close_step _ _ _ _ _ _ _ Hw Hd) as (g1 & Eg & H1 & H2 & H3 & H4).
    assert (dumps (wk_store g1) rest = Some jr) as Hr by (rewrite <- E0; apply dumps_ext; intros i Hi; rewrite H3, lookup_delete_ne; [done|by intros ->]).
    destruct (IH n done h _ _ g1 m docs H1 H2 Hmr) as (w' & docs' & E1 & E2 & E3); [cbn in Hn; lia|by rewrite Hr|].
    exists w', docs'. cbn [hang_loop head]. change (wk_list (over m g)) with (wk_list g). rewrite Hnext. cbn [mbind option_bind]. rewrite Et, client_close_over, Eg by done.
    cbn [fmap option_fmap option_map mbind option_bind]. split; [done|]. split; [cbn [dumps]; rewrite Et; cbn [mbind option_bind]; rewrite E0; cbn; congruence|].
    intros i. rewrite E3, H3. destruct (decide (i = id)) as [->|Hne].
    + rewrite bool_decide_eq_false_2 by done. rewrite bool_decide_eq_true_2 by left. rewrite lookup_union, Hmi, lookup_delete_eq. unfold left_hanging. by rewrite Et.
    + rewrite lookup_union, lookup_delete_ne by done. rewrite <- lookup_union. rewrite (bool_decide_ext (i ∈ id :: rest) (i ∈ rest)); [done|]. rewrite elem_of_cons. tauto.
  - destruct (wk_store g !! id) as [c|] eqn:Ec; [|discriminate E]. cbn [mbind option_bind] in E.
    destruct (hang_ok _ _ _ _ _ id c Hw ltac:(apply elem_of_app; right; left) Ec) as (g1 & Eg & H1 & H2 & H3 & H4).
    set (g2 := put id (set_wc_udp None 0 c) g1) in *. set (m2 := <[id := set_wc_udp None (wc_udp_port c) c]> m).
    assert (forall i, i <> id -> wk_store g2 !! i = wk_store g !! i) as Hg2 by (intros i Hne; unfold g2; cbn; by rewrite lookup_insert_ne, H2).
    assert (forall i, i <> id -> m2 !! i = m !! i) as Hm2 by (intros i Hne; by apply lookup_insert_ne).
    assert (dumps (wk_store g2) rest = Some jr) as Hr by (rewrite <- E0; apply dumps_ext; intros i Hi; apply Hg2; by intros ->).
    replace (done ++ id :: rest) with ((done ++ [id]) ++ rest) in H1 by (by rewrite <- app_assoc).
    destruct (IH n (done ++ [id]) _ _ _ g2 m2 (docs ++ jc) H1) as (w' & docs' & E1 & E2 & E3); [| |cbn in Hn; lia|by rewrite Hr|].
    { intros i x Hi. destruct (decide (i = id)) as [->|Hne]; [|rewrite Hg2 in Hi by done; by apply (Hd i)].
      unfold g2 in Hi. rewrite put_lookup in Hi. injection Hi as <-. exact (Hd id c Ec). }
    { intros i Hi. rewrite Hm2 by (by intros ->). by apply Hmr. }
    exists w', (jc ++ docs'). cbn [head]. rewrite (hang_one n id rest m g docs c Hnext Hmi Et Ec g1 jc Eg H2 E). rewrite app_assoc. split; [done|].
    split; [cbn [dumps]; rewrite Et, Ec; cbn [mbind option_bind]; rewrite E, E0; cbn; congruence|].
    intros i. rewrite E3. destruct (decide (i = id)) as [->|Hne].
    + rewrite bool_decide_eq_false_2 by done. rewrite bool_decide_eq_true_2 by left. unfold left_hanging. rewrite Et, Ec. unfold m2.
      by rewrite <- insert_union_l, lookup_insert_eq.
    + rewrite !lookup_union, Hg2, Hm2 by done. rewrite <- lookup_union. rewrite (bool_decide_ext (i ∈ id :: rest) (i ∈ rest)); [done|]. rewrite elem_of_cons. tauto.
Qed.

End Hang.

(** * From the old process to the new one *)

(** An uplink: it is not a client of a port, and no filter is written down of it. *)
Definition is_uplink (c : wclient) : bool := negb (has c.(wc_client).(c_flags) CLFLAGS_INPORT).

Lemma dump_object tick ct addr c j : worker_client_json tick ct addr true c = Some j ->
  json_type j = TObject /\ get_item "fd" j = Some (JNumber c.(wc_client).(c_fd)) /\ (is_uplink c = true -> get_item "filter" j = None).
Proof.
  unfold worker_client_json, is_uplink. fold (pending_out (wc_conn c)). fold (pending_in (wc_conn c)). intros E.
  destruct (buffer "obuf" _) as [obuf|] eqn:Eo; [|discriminate E]. cbn [mbind option_bind] in E.
  destruct (buffer "ibuf" _) as [ibuf|] eqn:Ei; [|discriminate E]. cbn [mbind option_bind] in E. apply (inj Some) in E as <-.
  split; [done|]. split; [by find_item|]. intros Hin%negb_true_iff. rewrite Hin. destruct (bool_decide _); by find_item.
Qed.

Lemma dump_some tick ct addr c : ascii_bytes (pending_out c.(wc_conn)) -> ascii_bytes (pending_in c.(wc_conn)) -> is_Some (worker_client_json tick ct addr true c).
Proof.
  intros Ho Hi. unfold worker_client_json. fold (pending_out (wc_conn c)). fold (pending_in (wc_conn c)).
  destruct (buffer_some "obuf" _ Ho) as [obuf ->]. destruct (buffer_some "ibuf" _ Hi) as [ibuf ->]. by eexists.
Qed.

Section Upgrade.
Variable tick now : Z.
Variable cosf : spec_float -> spec_float.
Variable quirks_mode : bool.
Variable isize osize : Z.
Variable reread : spec_float -> spec_float.
Context (Hi : 0 <= isize) (Ho : 0 <= osize).

Abbreviation single := (accept_liveupgrade_single tick now cosf true quirks_mode isize osize reread).
Abbreviation all := (liveupgrade_clients tick now cosf true quirks_mode isize osize reread).

(** A client of the old process: an uplink, or a client whose port the new process has too. *)
Definition carried (a : acceptor) (c : wclient) : Prop :=
  0 <= c.(wc_client).(c_fd) /\
  (is_uplink c = true \/ exists l, find_listener_hash_id a.(al_listen) l.(li_listener_id) = Some l /\ filters_fine cosf true l /\ upgradable isize osize l c).

(** The system knows the socket, and there is room for a structure that is not used yet. *)
Definition alive (a : acceptor) (ss : list client_t) (sv : survivor) : Prop :=
  exists sa id, sv.(sv_peer) = Some sa /\ is_Some (hexsockaddr sa) /\ sv.(sv_sockopt) = true /\ sv.(sv_client) = Some id /\
    a.(al_worker).(wk_store) !! id = None /\ id ∉ map c_id ss.

(** The socket of an uplink is closed. *)
Lemma uplink_left_out h cl cls ss a c tick0 ct addr j sv errs :
  acceptor_ok h cl cls ss a -> 0 <= c.(wc_client).(c_fd) -> is_uplink c = true -> worker_client_json tick0 ct addr true c = Some j ->
  let a' := set_al_worker (close_fd c.(wc_client).(c_fd) a.(al_worker)) a in
  single j errs sv a = Some (a', -1) /\ acceptor_ok h cl cls ss a'.
Proof.
  intros Hok Hfd Hu Ej. destruct (dump_object _ _ _ _ _ Ej) as (_ & Efd & Ef). split.
  - unfold accept_liveupgrade_single. assert (get_typed "fd" TNumber j = Some (JNumber (c_fd (wc_client c)))) as -> by (unfold get_typed; by rewrite Efd).
    cbn [valueint mbind option_bind].
    rewrite (proj2 (Z.ltb_ge _ _)) by done. replace (forallb _ required) with false; [done|]. symmetry. apply not_true_is_false. intros Hr.
    pose proof (proj1 (forallb_forall _ _) Hr ("filter"%string, TString) ltac:(cbn; tauto)) as Hx. cbn in Hx. unfold get_typed in Hx. by rewrite (Ef Hu) in Hx.
  - destruct Hok as [[L R S] H2 H3 H4]. split; try done. split; [by destruct L|by destruct R|by destruct S].
Qed.

(** What the new process has of a client. *)
Definition fate (a : acceptor) (c : wclient) (sv : survivor) : Prop :=
  if is_uplink c then True else exists id c', sv.(sv_client) = Some id /\ a.(al_worker).(wk_store) !! id = Some c' /\ survived cosf reread c c' /\ id ∈ a.(al_worker).(wk_new).

Abbreviation used svs := (omap sv_client svs).

Lemma clients_restored h cl cls cs : forall js svs ss a accepted,
  acceptor_ok h cl cls ss a -> Forall (carried a) cs -> Forall2 (fun c j => exists tick0 ct addr, worker_client_json tick0 ct addr true c = Some j) cs js ->
  length svs = length cs -> Forall (alive a ss) svs -> NoDup (used svs) ->
  exists a' ss', all js (accept_rx_err_map (map JString inerr_labels)) svs a accepted = Some (a', accepted + zlen (List.filter (fun c => negb (is_uplink c)) cs)) /\
    acceptor_ok h cl cls ss' a' /\ Forall2 (fate a') cs svs /\ (forall i, i ∉ used svs -> a'.(al_worker).(wk_store) !! i = a.(al_worker).(wk_store) !! i) /\
    (forall i, i ∈ a.(al_worker).(wk_new) -> i ∈ a'.(al_worker).(wk_new)).
Proof.
  induction cs as [|c cs IH]; intros js svs ss a accepted Hok Hc Hj Hl Ha Hd.
  { apply Forall2_nil_inv_l in Hj as ->. destruct svs; [|discriminate Hl]. exists a, ss. cbn. rewrite Z.add_0_r. split; [done|]. split; [done|]. split; [constructor|done]. }
  destruct svs as [|sv svs]; [discriminate Hl|]. apply Forall2_cons_inv_l in Hj as (j & js' & (tick0 & ct & addr & Ej) & Hj & ->).
  apply list.Forall_cons in Hc as [[Hfd Hc] Hcs]. apply list.Forall_cons in Ha as [(sa & id & A1 & A2 & A3 & A4 & A5 & A6) Ha].
  assert (used (sv :: svs) = id :: used svs) as Eu by (cbn [omap list_omap]; by rewrite A4). rewrite Eu in Hd |- *. apply list.NoDup_cons in Hd as [Hid Hd].
  cbn [liveupgrade_clients]. rewrite decide_True by (by apply (dump_object _ _ _ _ _ Ej)). cbn [List.filter]. destruct (is_uplink c) eqn:Eup; cbn [negb].
  - destruct (uplink_left_out h cl cls ss a c tick0 ct addr j sv (accept_rx_err_map (map JString inerr_labels)) Hok Hfd Eup Ej) as [E Hok1].
    rewrite E. cbn [mbind option_bind]. change (-1 =? 0) with false. cbv iota. set (a1 := set_al_worker _ a) in *.
    destruct (IH js' svs ss a1 accepted Hok1) as (a' & ss' & E' & G1 & G2 & G3 & G4); [done|done|cbn in Hl; lia|done|done|].
    exists a', ss'. split; [done|]. split; [done|]. split; [constructor; [unfold fate; by rewrite Eup|done]|]. split; [|done].
    intros i [_ Hi']%not_elem_of_cons. by rewrite G3.
  - destruct Hc as [Hc|(l & Hl1 & Hl2 & Hl3)]; [congruence|]. destruct sv as [sp aloc so sc ka cu]. cbn [sv_peer sv_sockopt sv_client] in *. subst sp so sc.
    destruct (client_survives tick now cosf quirks_mode isize osize reread tick0 ct addr h cl cls ss a l id c sa aloc ka cu Hok Hl1 Hl2 Hl3 A2 A5 A6 Hi Ho)
      as (j' & a1 & c' & Ej' & E & S1 & S2 & S3 & S4 & S5).
    assert (j' = j) as -> by congruence. rewrite E. cbn [mbind option_bind]. change (0 =? 0) with true. cbv iota.
    assert (c_id (wc_client c') = id) as Eid.
    { destruct (so_names _ _ (wo_sessions _ _ _ _ _ (ao_worker _ _ _ _ _ S5)) id c') as [_ Hx]; [rewrite S2; by apply lookup_insert_eq|done]. }
    destruct (IH js' svs (wc_client c' :: ss) a1 (accepted + 1) S5) as (a' & ss' & E' & G1 & G2 & G3 & G4); [|done|cbn in Hl; lia| |done|].
    { eapply list.Forall_impl; [exact Hcs|]. intros x [X1 X2]. split; [done|]. by rewrite S4. }
    { apply list.Forall_forall. intros sv Hsv. destruct (proj1 (list.Forall_forall _ _) Ha sv Hsv) as (sa' & i & B1 & B2 & B3 & B4 & B5 & B6).
      assert (i <> id) as Hne by (intros ->; apply Hid; apply list_elem_of_omap; by exists sv).
      exists sa', i. repeat (split; [done|]). split; [by rewrite S2, lookup_insert_ne|]. cbn [map]. rewrite Eid. by apply not_elem_of_cons. }
    exists a', ss'. split; [rewrite E', zlen_cons; do 2 f_equal; lia|]. split; [done|]. split; [|split].
    + constructor; [|done]. unfold fate. rewrite Eup. exists id, c'. split; [done|]. split; [rewrite G3, S2 by done; apply lookup_insert_eq|].
      split; [done|]. apply G4. rewrite S3. apply elem_of_app. right. left.
    + intros i [Hne Hi']%not_elem_of_cons. by rewrite G3, S2, lookup_insert_ne.
    + intros i Hx. apply G4. rewrite S3. apply elem_of_app. by left.
Qed.

(** The clients of which the old process writes something down. *)
Definition upgraded (tls : Z -> bool) (store : gmap Z wclient) (ids : list Z) : list wclient :=
  omap (fun id => if tls id then None else c ← store !! id; if c.(wc_client).(c_fd) >=? 0 then Some c else None) ids.

Lemma dumps_upgraded tick0 tls addr_rem connect_time store ids :
  (forall id, id ∈ ids -> is_Some (store !! id)) -> (forall c, c ∈ upgraded tls store ids -> ascii_bytes (pending_out c.(wc_conn)) /\ ascii_bytes (pending_in c.(wc_conn))) ->
  exists docs, dumps tick0 tls addr_rem connect_time store ids = Some docs /\
    Forall2 (fun c j => exists tick0 ct addr, worker_client_json tick0 ct addr true c = Some j) (upgraded tls store ids) docs.
Proof.
  unfold upgraded. induction ids as [|id ids IH]; intros Hs Hb; [exists []; split; [done|constructor]|]. cbn [omap list_omap dumps] in *.
  destruct (Hs id) as [c Hc]; [left|]. rewrite Hc in Hb |- *. cbn [mbind option_bind] in Hb |- *. unfold shutdown_json.
  destruct (tls id); [|destruct (c_fd (wc_client c) >=? 0)]; cbn [mbind option_bind] in Hb |- *.
  3,1: destruct IH as (docs & E & Hd); [intros i Hi'; apply Hs; by right|done|]; exists docs; by rewrite E.
  destruct (Hb c ltac:(left)) as [B1 B2]. destruct (dump_some tick0 (connect_time id) (addr_rem id) c B1 B2) as [j Ej]. rewrite Ej. cbn [mbind option_bind].
  destruct IH as (docs & E & Hd); [intros i Hi'; apply Hs; by right|intros x Hx; apply Hb; by right|]. exists (j :: docs). rewrite E. split; [done|].
  constructor; [by eexists _, _, _|done].
Qed.

End Upgrade.

(** ** A worker in a live upgrade *)

(** A client of the demo listener, in the place of the one of [demo_wk]. *)
Definition demo_carried : wclient :=
  let c := WorkerSpec.demo_online in
  mk_wclient c.(wc_client) c.(wc_filters) c.(wc_conn) c.(wc_account) c.(wc_proto) c.(wc_addr_loc) None 0 0 0 0 (li_listener_id demo_listener) c.(wc_addr)
    c.(wc_app_name) c.(wc_app_version).

Definition demo_quiet : worker := match client_udp_free (Some 5) demo_wk with Some w => put 1 demo_carried w | None => demo_wk end.

Lemma demo_quiet_ok : worker_ok (hung_held demo_held WorkerSpec.demo_online) [1] demo_cls [WorkerSpec.demo_online.(wc_client)] demo_quiet /\ drops_ok demo_quiet.
Proof.
  destruct (hang_ok demo_held [1] demo_cls [WorkerSpec.demo_online.(wc_client)] demo_wk 1 WorkerSpec.demo_online) as (w1 & E & H1 & H2 & _ & _); [apply demo_ok|left|done|].
  change (wc_udpclient WorkerSpec.demo_online) with (Some 5) in E. unfold demo_quiet. rewrite E. split.
  - eapply (put_ok _ _ _ _ _ 1 _ demo_carried) in H1; [|apply put_lookup|by split]. by rewrite put_put in H1.
  - intros i c Hc. cbn in Hc. rewrite H2 in Hc. apply lookup_insert_Some in Hc as [[_ <-]|[_ Hc]]; [by eexists; vm_compute|].
    destruct (demo_lookup i c Hc) as [[_ ->]|[_ ->]]; by eexists; vm_compute.
Qed.

Lemma demo_carried_upgradable : upgradable 512 512 demo_listener demo_carried.
Proof.
  split; try done.
  - split; [|done]. split; [by vm_compute|]. split; [done|]. by repeat constructor.
  - split; [constructor|done].
  - split; [constructor|done].
  - split; [done|]. vm_compute. repeat constructor; done.
  - split; [apply heard_wf_empty|]. split; [constructor|done].
Qed.

