(* ===== verification/Peers.v ===== *)
(** * worker.c: datagrams of core peers

    The servers of a peer group send each other their packets in datagrams, one packet in each.  All peers on a local port share one
    UDP socket; the peer is found by the address the datagram comes from, and the packet is its input.

    The port of a peer's address is [wc_udp_port]: the configuration makes both of the same text. *)

From S2P Require Import Prelude Types Acl ParseQc ParseAprs Clientlist ClientHeard Incoming Filter FilterParse FilterSpec Outgoing.
From S2P Require Import Plist ClientIO Accounting Worker WorkerSpec WorkerNew Newclient Accept Uplink UplinkSpec AcceptSpec.
From Stdlib Require Import ZArith Lia Bool String.
From stdpp Require Import base tactics list gmap numbers.
Open Scope Z_scope.

(** What [recvfrom] gives. *)
Inductive udp_recv : Type := RecvFails | Datagram (sa : sockaddr) (port : Z) (data : list Z).

Definition same_peer (sa : sockaddr) (port : Z) (c : wclient) : bool :=
  match c.(wc_addr), sa with
  | Inet a, Inet b => (a =? b) && (c.(wc_udp_port) =? port)
  | Inet6 a, Inet6 b => bool_decide (a = b) && (c.(wc_udp_port) =? port)
  | _, _ => false
  end.

Fixpoint find_peer (sa : sockaddr) (port : Z) (ids : list Z) (w : worker) : option (option Z) :=
  match ids with
  | [] => Some None
  | id :: ids => c ← w.(wk_store) !! id; if same_peer sa port c then Some (Some id) else find_peer sa port ids w
  end.

(** The length up to the first line end. *)
Fixpoint line_end (n : nat) (ibuf : list Z) (i r : Z) : option Z :=
  match n with
  | O => Some r
  | S n => if i <? r then b ← rd ibuf i; if is_eol b then Some i else line_end n ibuf (i + 1) r else Some r
  end.

Definition set_wc_account (a : client_account) (c : wclient) : wclient :=
  mk_wclient c.(wc_client) c.(wc_filters) c.(wc_conn) a c.(wc_proto) c.(wc_addr_loc) c.(wc_udpclient) c.(wc_udp_port)
    c.(wc_connect_tick) c.(wc_keepalive) c.(wc_cleanup) c.(wc_listener_id) c.(wc_addr) c.(wc_app_name) c.(wc_app_version).

(** The client [id] is the one the socket is polled for, whose buffer is used.  The answer has what is given to the line
    handler: the client that sent it, and the line.  [None]: the loop for the line end, or the handler, gets past the buffer, since the length
    of a datagram that does not fit is returned in full. *)
Definition handle_corepeer_readable (tick : Z) (id : Z) (ev : udp_recv) (w : worker) : option (worker * option (Z * list Z)) :=
  c ← w.(wk_store) !! id;
  match ev with
  | RecvFails => Some (w, None)
  | Datagram sa port data =>
      let r := zlen data in
      if r =? 0 then Some (w, None)
      else
        ibuf ← blit c.(wc_conn).(co_ibuf) 0 (take (Z.to_nat (zlen c.(wc_conn).(co_ibuf) - 1)) data);
        let w := put id (set_wc_conn (set_ibuf ibuf c.(wc_conn).(co_ibuf_end) c.(wc_conn)) c) w in
        rc ← find_peer sa port w.(wk_peers) w;
        match rc with
        | None => Some (w, None)
        | Some rc =>
            p ← w.(wk_store) !! rc;
            '(ca, acc) ← clientaccount_add_rx p.(wc_account) IPPROTO_UDP r 0 0 0 w.(wk_accounts);
            let w := set_wk_accounts acc (put rc (set_wc_conn (set_last_read tick p.(wc_conn)) (set_wc_account ca p)) w) in
            r ← line_end (Z.to_nat r) ibuf 0 r;
            line ← rd_range ibuf 0 r;
            Some (w, Some (rc, line))
        end
  end.

(** * A datagram reaches the handler as a packet of its sender *)

(** The text up to the first line end. *)
Fixpoint first_line (s : list Z) : list Z := match s with [] => [] | b :: s => if is_eol b then [] else b :: first_line s end.

Lemma first_line_whole s : no_eol s -> first_line s = s.
Proof. induction 1 as [|b s Hb _ IH]; [done|]. cbn [first_line]. by rewrite Hb, IH. Qed.

Lemma line_end_spec s junk : forall pre n, (length s <= n)%nat ->
  line_end n (pre ++ s ++ junk) (zlen pre) (zlen pre + zlen s) = Some (zlen pre + zlen (first_line s)).
Proof.
  induction s as [|b s IH]; intros pre n Hn.
  { cbn [first_line]. change (zlen []) with 0. destruct n; cbn [line_end]; [done|]. by rewrite (proj2 (Z.ltb_ge _ _)) by lia. }
  destruct n as [|n]; [cbn in Hn; lia|]. cbn [line_end]. rewrite zlen_cons. pose proof (zlen_nonneg s). rewrite (proj2 (Z.ltb_lt _ _)) by lia.
  cbn [Datatypes.app]. rewrite rd_mid. cbn [mbind option_bind first_line]. destruct (is_eol b) eqn:Eb; [change (zlen []) with 0; by rewrite Z.add_0_r|].
  replace (pre ++ b :: s ++ junk) with ((pre ++ [b]) ++ s ++ junk) by (by rewrite <- app_assoc).
  replace (zlen pre + 1) with (zlen (pre ++ [b])) by (rewrite zlen_app; done). replace (zlen pre + (1 + zlen s)) with (zlen (pre ++ [b]) + zlen s) by (rewrite zlen_app; change (zlen [b]) with 1; lia).
  rewrite IH by (cbn in Hn; lia). rewrite zlen_app, !zlen_cons, zlen_nil. f_equal. lia.
Qed.

Lemma first_line_prefix s : exists t, s = first_line s ++ t.
Proof. induction s as [|b s [t Ht]]; [by exists []|]. cbn [first_line]. destruct (is_eol b); [by exists (b :: s)|]. exists t. cbn. by rewrite <- Ht. Qed.

(** A peer with an IPv4 or IPv6 address. *)
Definition peer_at (sa : sockaddr) (port : Z) (c : wclient) : Prop := c.(wc_addr) = sa /\ c.(wc_udp_port) = port /\ sa <> OtherFamily.

Lemma same_peer_spec sa port c : same_peer sa port c = true <-> peer_at sa port c.
Proof.
  unfold same_peer, peer_at. destruct (wc_addr c) as [a|a|], sa as [b|b|]; rewrite ?andb_true_iff, ?Z.eqb_eq, ?bool_decide_eq_true; try (split; [done|by intros (? & _ & ?)]).
  - split; [by intros [-> ->]|by intros ([= ->] & -> & _)].
  - split; [by intros [-> ->]|by intros ([= ->] & -> & _)].
Qed.

(** The addresses of the peers differ. *)
Definition peers_differ (w : worker) : Prop :=
  forall i j c d, i ∈ w.(wk_peers) -> j ∈ w.(wk_peers) -> w.(wk_store) !! i = Some c -> w.(wk_store) !! j = Some d ->
    (c.(wc_addr), c.(wc_udp_port)) = (d.(wc_addr), d.(wc_udp_port)) -> i = j.

Lemma find_peer_spec sa port ids w : (forall i, i ∈ ids -> is_Some (w.(wk_store) !! i)) ->
  exists r, find_peer sa port ids w = Some r /\
    match r with
    | Some i => i ∈ ids /\ exists c, w.(wk_store) !! i = Some c /\ same_peer sa port c = true
    | None => forall i c, i ∈ ids -> w.(wk_store) !! i = Some c -> same_peer sa port c = false
    end.
Proof.
  induction ids as [|id ids IH]; intros Hs; [exists None; split; [done|by intros ? ? ?%elem_of_nil]|]. cbn [find_peer].
  destruct (Hs id) as [c Hc]; [left|]. rewrite Hc. cbn [mbind option_bind]. destruct (same_peer sa port c) eqn:E; [exists (Some id); split; [done|]; split; [left|by exists c]|].
  destruct IH as (r & -> & Hr); [intros i Hi; apply Hs; by right|]. exists r. split; [done|]. destruct r as [i|].
  - destruct Hr as [H1 H2]. split; [by right|done].
  - intros i x [->|Hi]%elem_of_cons Hx; [congruence|by eapply Hr].
Qed.

(** The bytes of a datagram are counted, and no reference is. *)
Lemma add_rx_spec ca r acc :
  (forall p, account_of IPPROTO_UDP ca = Some p -> is_Some (acc.(ac_ports) !! p)) ->
  exists ca' acc', clientaccount_add_rx ca IPPROTO_UDP r 0 0 0 acc = Some (ca', acc') /\ (ca'.(ca_port), ca'.(ca_udp)) = (ca.(ca_port), ca.(ca_udp)) /\
    ca'.(ca_local).(pa_rxbytes) = ca.(ca_local).(pa_rxbytes) + r /\ acc'.(ac_udp).(pa_rxbytes) = acc.(ac_udp).(pa_rxbytes) + r /\
    forall p, acc_count acc' p = acc_count acc p.
Proof.
  intros Hp. unfold clientaccount_add_rx. change (drop_reason 0) with (@None Z). cbn [count_rx mbind option_bind].
  destruct (account_of IPPROTO_UDP ca) as [p|]; cbn [on_port]; [destruct (Hp p eq_refl) as [pa Hpa]; rewrite Hpa|]; cbn [mbind option_bind];
    unfold on_proto; change (IPPROTO_UDP =? IPPROTO_TCP) with false; change (IPPROTO_UDP =? IPPROTO_UDP) with true; cbv iota; cbn [mbind option_bind];
    do 2 eexists; (split; [reflexivity|]); do 3 (split; [done|]); intros q; unfold acc_count; cbn [ac_ports set_ac_ports]; [|done].
  destruct (decide (p = q)) as [<-|Hne]; [by rewrite lookup_insert_eq, Hpa|by rewrite lookup_insert_ne].
Qed.

(** A client with other counters. *)
Lemma recount_put_ok h cl cls ss w id c c' acc :
  worker_ok h cl cls ss w -> w.(wk_store) !! id = Some c -> c'.(wc_client) = c.(wc_client) -> c'.(wc_filters) = c.(wc_filters) ->
  (c'.(wc_account).(ca_port), c'.(wc_account).(ca_udp)) = (c.(wc_account).(ca_port), c.(wc_account).(ca_udp)) ->
  (c'.(wc_udpclient), c'.(wc_udp_port)) = (c.(wc_udpclient), c.(wc_udp_port)) -> (forall p, acc_count acc p = acc_count w.(wk_accounts) p) ->
  worker_ok h cl cls ss (set_wk_accounts acc (put id c' w)).
Proof.
  intros [L R S] Hc E1 E2 E3 E4 Ha. eapply (recounted_ok _ _ _ _ (put id c' w)); [by split|]. split.
  - eapply put_lists_ok; [done|done|by rewrite E1|unfold online; by rewrite E1].
  - by eapply put_refs_ok.
  - eapply put_sessions_ok; [done|done|by rewrite E1|left; by rewrite E1].
Qed.

(** The account that a datagram of a peer is counted on is held by the peer. *)
Lemma peer_account h cl cls ss w id c p :
  worker_ok h cl cls ss w -> id ∈ cl -> w.(wk_store) !! id = Some c -> c.(wc_udp_port) <> 0 -> account_of IPPROTO_UDP c.(wc_account) = Some p ->
  is_Some (w.(wk_accounts).(ac_ports) !! p).
Proof.
  intros [L R S] Hid Hc Hu Hp. pose proof (ro_port _ _ _ R p) as Hr. destruct (ac_ports (wk_accounts w) !! p) as [pa|]; [by eexists|]. destruct Hr as [_ Hr].
  assert (id ∈ cl ++ wk_new w) as Hin by (apply elem_of_app; by left). rewrite (tally_without _ id _ (lo_nodup _ _ _ L) Hin) in Hr.
  fold (rm id (cl ++ wk_new w)) in Hr. pose proof (tally_nonneg (of_client w (port_refs p) 0) (rm id (cl ++ wk_new w)) (port_refs_nonneg w p)) as Hn.
  exfalso. unfold of_client at 1 in Hr. rewrite Hc in Hr. unfold port_refs at 1 in Hr.
  apply Z.eqb_neq in Hu. rewrite Hu in Hr. cbn [negb andb] in Hr. unfold account_of in Hp. change (IPPROTO_UDP =? IPPROTO_UDP) with true in Hp. cbn [andb] in Hp.
  destruct (ca_udp (wc_account c)) as [u|]; cbn in Hp; rewrite Hp, (bool_decide_eq_true_2 (Some p = Some p)) in Hr by done; repeat case_bool_decide; lia.
Qed.

(** The peers of a worker: clients of its list with a UDP port, at different addresses. *)
Record group_ok (cl : list Z) (w : worker) : Prop := {
  gr_peers : peers_ok cl w;
  gr_differ : peers_differ w;
  gr_port : forall i c, i ∈ w.(wk_peers) -> w.(wk_store) !! i = Some c -> c.(wc_udp_port) <> 0
}.

(** The datagram [data] as the handler gets it: from the peer [rc], whose bytes are counted. *)
Definition taken (tick : Z) (sa : sockaddr) (port : Z) (data : list Z) (w w' : worker) (d : option (Z * list Z)) : Prop :=
  match d with
  | Some (rc, line) => line = first_line data /\ rc ∈ w.(wk_peers) /\ exists p p', w.(wk_store) !! rc = Some p /\ peer_at sa port p /\
      w'.(wk_store) !! rc = Some p' /\ p'.(wc_account).(ca_local).(pa_rxbytes) = p.(wc_account).(ca_local).(pa_rxbytes) + zlen data /\
      p'.(wc_conn).(co_last_read) = tick /\ w'.(wk_accounts).(ac_udp).(pa_rxbytes) = w.(wk_accounts).(ac_udp).(pa_rxbytes) + zlen data
  | None => w'.(wk_accounts) = w.(wk_accounts) /\ forall i p, i ∈ w.(wk_peers) -> w.(wk_store) !! i = Some p -> ~ peer_at sa port p
  end.

Lemma corepeer_spec h cl cls ss w id c tick sa port data :
  worker_ok h cl cls ss w -> group_ok cl w -> id ∈ w.(wk_peers) -> w.(wk_store) !! id = Some c -> data <> [] -> zlen data < zlen c.(wc_conn).(co_ibuf) ->
  exists w' d, handle_corepeer_readable tick id (Datagram sa port data) w = Some (w', d) /\ worker_ok h cl cls ss w' /\ taken tick sa port data w w' d.
Proof.
  intros Hw [[_ Hin] _ Hport] Hid Hc Hd Hl. unfold handle_corepeer_readable. rewrite Hc. cbn [mbind option_bind].
  assert (0 < zlen data) as Hpos by (destruct data; [done|]; rewrite zlen_cons; pose proof (zlen_nonneg data); lia). destruct (Z.eqb_spec (zlen data) 0); [lia|].
  rewrite take_ge by (unfold zlen in *; lia). pose proof (blit_at [] (co_ibuf (wc_conn c)) data 0 eq_refl ltac:(lia)) as Eb. cbn [Datatypes.app] in Eb. rewrite Eb.
  cbn [mbind option_bind]. set (junk := drop _ _). set (c1 := set_wc_conn _ c). assert (worker_ok h cl cls ss (put id c1 w)) as Hw1 by (eapply put_ok; [done|done|by split]).
  destruct (put_store w id c c1 Hc) as [Hst Hsome].
  assert (forall i p, (put id c1 w).(wk_store) !! i = Some p -> exists q, w.(wk_store) !! i = Some q /\ (wc_addr p, wc_udp_port p, wc_account p) = (wc_addr q, wc_udp_port q, wc_account q)) as Hof.
  { intros i p Hp. destruct (Hst i p Hp) as [[_ Hy]|[-> ->]]; [by exists p|by exists c]. }
  destruct (find_peer_spec sa port (wk_peers w) (put id c1 w)) as (r & Er & Hr).
  { intros i Hi. apply Hsome. apply (lo_store _ _ _ (wo_lists _ _ _ _ _ Hw)). apply elem_of_app. left. by apply Hin. }
  change (wk_peers (put id c1 w)) with (wk_peers w). rewrite Er. cbn [mbind option_bind]. destruct r as [rc|].
  2:{ eexists _, None. split; [done|]. split; [done|]. split; [done|]. intros i p Hi Hp. destruct (proj1 (Hsome i)) as [q Hq]; [by eexists|].
      destruct (Hof i q Hq) as (p2 & Hp2 & [= E1 E2 E3]). assert (p2 = p) as -> by congruence. rewrite <- same_peer_spec. apply not_true_iff_false. rewrite <- (Hr i q Hi Hq). unfold same_peer. by rewrite E1, E2. }
  destruct Hr as (Hrc & p & Hp & Hs). destruct (Hof rc p Hp) as (q & Hq & [= E1 E2 E3]). rewrite Hp. cbn [mbind option_bind].
  destruct (add_rx_spec (wc_account p) (zlen data) (wk_accounts w)) as (ca & acc & Ea & A1 & A2 & A3 & A4).
  { intros k Hk. rewrite E3 in Hk. eapply (peer_account h cl cls ss w rc q); [done|by apply Hin|done|by apply (Hport rc)|done]. }
  change (wk_accounts (put id c1 w)) with (wk_accounts w). rewrite Ea. cbn [mbind option_bind].
  pose proof (line_end_spec data junk [] (Z.to_nat (zlen data)) ltac:(unfold zlen; lia)) as Ee. cbn [Datatypes.app] in Ee. change (zlen []) with 0 in Ee. rewrite !Z.add_0_l in Ee.
  rewrite Ee. cbn [mbind option_bind]. destruct (first_line_prefix data) as [t Et].
  pose proof (rd_range_mid [] (first_line data) (t ++ junk)) as Em. cbn [Datatypes.app] in Em. rewrite app_assoc, <- Et in Em. change (zlen []) with 0 in Em. rewrite Em. cbn [mbind option_bind].
  eexists _, _. split; [done|]. split; [by eapply recount_put_ok|]. split; [done|]. split; [done|]. eexists q, _. split; [done|].
  split; [apply same_peer_spec; unfold same_peer in *; by rewrite <- E1, <- E2|]. cbn [wk_store set_wk_accounts]. rewrite put_lookup. split; [done|]. cbn. rewrite A2, E3. done.
Qed.

(** C22: What one server of a peer group sends, the other one gets: the text of a packet goes into a datagram without its line end; when it
    comes to a peer whose buffer it fits in, the sender is found among the peers of the worker by its address alone, whichever peer the
    socket is polled for, the line handler gets exactly the packet, as input of that peer, and its bytes are counted on it
    once.  The worker stays consistent. *)
Theorem peers_exchange socket x x' n packet h cl cls ss w id c tick sa port rc p :
  udp_client_write socket x (packet ++ [13; 10]) = Some (x', n) -> n = zlen packet -> no_eol packet -> packet <> [] ->
  worker_ok h cl cls ss w -> group_ok cl w -> id ∈ w.(wk_peers) -> w.(wk_store) !! id = Some c -> zlen packet < zlen c.(wc_conn).(co_ibuf) ->
  rc ∈ w.(wk_peers) -> w.(wk_store) !! rc = Some p -> p.(wc_addr) = sa -> p.(wc_udp_port) = port -> sa <> OtherFamily ->
  x'.(co_datagrams) = x.(co_datagrams) ++ [packet] /\
  exists w', handle_corepeer_readable tick id (Datagram sa port packet) w = Some (w', Some (rc, packet)) /\ worker_ok h cl cls ss w' /\
    taken tick sa port packet w w' (Some (rc, packet)).
Proof.
  intros Hs Hn He Hne Hw Hg Hid Hc Hl Hrc Hp Ha1 Ha2 Ha3. split.
  - unfold udp_client_write in Hs. rewrite zlen_app in Hs. change (zlen [13; 10]) with 2 in Hs. replace (zlen packet + 2 - 2) with (zlen packet) in Hs by lia.
    pose proof (rd_range_mid [] packet [13; 10]) as Em. cbn [Datatypes.app] in Em. change (zlen []) with 0 in Em. rewrite Em in Hs. cbn [mbind option_bind] in Hs.
    destruct (socket (co_calls x)) as [k|e]; injection Hs as <- Hk; [|pose proof (zlen_nonneg packet); lia]. cbn. by rewrite take_ge by (unfold zlen in *; lia).
  - destruct (corepeer_spec h cl cls ss w id c tick sa port packet Hw Hg Hid Hc Hne Hl) as (w' & d & E & H1 & H2). destruct d as [[rc' line]|].
    + pose proof H2 as (-> & Hrc' & q & _ & Hq & Hsq & _). rewrite first_line_whole in E, H2 by done.
      destruct Hsq as (Q1 & Q2 & _). assert (rc' = rc) as -> by (eapply (gr_differ _ _ Hg); [done|done|done|done|congruence]). by exists w'.
    + destruct H2 as [_ H2]. by destruct (H2 rc p Hrc Hp).
Qed.

(** ** A worker with a peer *)

Definition demo_group : worker := set_wk_peers [1] demo_wk.

Lemma demo_group_ok : worker_ok demo_held [1] demo_cls [demo_online.(wc_client)] demo_group /\ group_ok [1] demo_group.
Proof.
  split; [destruct demo_ok as [L R S]; split; [by destruct L|by destruct R|by destruct S]|]. split.
  - split; [apply NoDup_singleton|done].
  - intros i j c d Hi Hj _ _ _. apply list_elem_of_singleton in Hi as ->. by apply list_elem_of_singleton in Hj as ->.
  - intros i c Hi Hc. apply list_elem_of_singleton in Hi as ->. by injection Hc as <-.
Qed.

Lemma peers_exchange_witness :
  exists w', handle_corepeer_readable 50 1 (Datagram (Inet 0x7F000001) 8080 (str "N0CALL>APRS:>x")) demo_group = Some (w', Some (1, str "N0CALL>APRS:>x")).
Proof.
  destruct demo_group_ok as [Hw Hg].
  destruct (peers_exchange (fun _ => Takes 100) demo_wconn (set_socket 1 [] [str "N0CALL>APRS:>x"] demo_wconn) 14 (str "N0CALL>APRS:>x") demo_held [1] demo_cls [demo_online.(wc_client)] demo_group 1 demo_online 50
              (Inet 0x7F000001) 8080 1 demo_online) as [_ (w' & E & _)].
  - vm_compute. reflexivity.
  - reflexivity.
  - repeat constructor.
  - discriminate.
  - exact Hw.
  - exact Hg.
  - left.
  - reflexivity.
  - vm_compute. reflexivity.
  - left.
  - reflexivity.
  - reflexivity.
  - reflexivity.
  - discriminate.
  - exists w'. exact E.
Defined.
