(* ===== verification/Http.v ===== *)
(** * http.c: the status server

    Requests for the status page: the routes, the files that may be served, the translations, the counters and the
    compression.  A request is what the HTTP library makes of it; files, [glob] and the gzip library are parameters, and so are the texts of the
    status document and of the version.  The result has the names of the files that were opened.  Uploads are in Upload.v. *)

From S2P Require Import Prelude Types Cfgfile Callsign Config LiveUpgrade Counterdata.
From Stdlib Require Import ZArith Lia Bool String.
From stdpp Require Import base tactics list numbers.
Open Scope Z_scope.

(** ** Tables *)

Record http_static_t := mk_static { hs_name : list Z; hs_filename : list Z }.

Definition entry (name filename : string) : http_static_t := mk_static (str name) (str filename).

Definition http_static_files : list http_static_t := [
  entry "/" "index.html"; entry "/favicon.ico" "favicon.ico"; entry "/aprsc.css" "aprsc.css"; entry "/aprsc.js" "aprsc.js"; entry "/aprsc-graph.js" "aprsc-graph.js";
  entry "/aprsc-logo4.png" "aprsc-logo4.png"; entry "/aprsc-logo4@2x.png" "aprsc-logo4@2x.png"; entry "/aprsc-joulukissa.jpg" "aprsc-joulukissa.jpg";
  entry "/excanvas.min.js" "excanvas.min.js"; entry "/jquery.flot.min.js" "jquery.flot.min.js"; entry "/jquery.flot.time.min.js" "jquery.flot.time.min.js";
  entry "/jquery.flot.selection.min.js" "jquery.flot.selection.min.js"; entry "/jquery.flot.resize.min.js" "jquery.flot.resize.min.js"; entry "/motd.html" "motd.html";
  entry "/jquery.min.js" "jquery.min.js"; entry "/angular.min.js" "angular.min.js"; entry "/angular-translate.min.js" "angular-translate.min.js";
  entry "/angular-translate-loader-url.min.js" "angular-translate-loader-url.min.js"; entry "/ngDialog.min.js" "ngDialog.min.js"; entry "/ngDialog.min.css" "ngDialog.min.css";
  entry "/ngDialog-theme-plain.min.css" "ngDialog-theme-plain.min.css"; entry "/bootstrap.min.css" "bootstrap.min.css";
  entry "/fonts/glyphicons-halflings-regular.eot" "glyphicons-halflings-regular.eot"; entry "/fonts/glyphicons-halflings-regular.ttf" "glyphicons-halflings-regular.ttf";
  entry "/fonts/glyphicons-halflings-regular.woff" "glyphicons-halflings-regular.woff"; entry "/fonts/glyphicons-halflings-regular.woff2" "glyphicons-halflings-regular.woff2"].

Definition http_content_types : list http_static_t := [
  entry ".html" "text/html; charset=UTF-8"; entry ".ico" "image/x-icon"; entry ".css" "text/css; charset=UTF-8"; entry ".js" "application/x-javascript; charset=UTF-8";
  entry ".jpg" "image/jpeg"; entry ".jpeg" "image/jpeg"; entry ".json" "application/json"; entry ".png" "image/png"; entry ".gif" "image/gif"].

Definition http_content_type (fn : list Z) : list Z :=
  match strrchr fn 46 with
  | None => str "text/html"
  | Some (_, ext) =>
      match List.find (fun e => caseeq e.(hs_name) (46 :: ext)) http_content_types with Some e => e.(hs_filename) | None => str "text/html" end
  end.

(** ** Dates *)

(** [gmtime]: the day and the month of the day so many days after 1970-01-01, in years that begin in March. *)
Definition civil (days : Z) : Z * Z * Z :=
  let z := days + 719468 in
  let era := z / 146097 in
  let doe := z mod 146097 in
  let yoe := (doe - doe / 1460 + doe / 36524 - doe / 146096) / 365 in
  let doy := doe - (365 * yoe + yoe / 4 - yoe / 100) in
  let mp := (5 * doy + 2) / 153 in
  let month := if mp <? 10 then mp + 3 else mp - 9 in
  (yoe + era * 400 + (if month <=? 2 then 1 else 0), month, doy - (153 * mp + 2) / 5 + 1).

(** Decimal digits with leading zeros, as [%02d] and [%04d] print numbers that fit. *)
Fixpoint digits_n (n : nat) (v : Z) : list Z := match n with O => [] | S n => digits_n n (v / 10) ++ [48 + v mod 10] end.

Definition wkday (n : Z) : list Z := nth (Z.to_nat n) (map str ["Sun"; "Mon"; "Tue"; "Wed"; "Thu"; "Fri"; "Sat"]%string) [].
Definition mon (n : Z) : list Z := nth (Z.to_nat (n - 1)) (map str ["Jan"; "Feb"; "Mar"; "Apr"; "May"; "Jun"; "Jul"; "Aug"; "Sep"; "Oct"; "Nov"; "Dec"]%string) [].

(** The years up to 9999. *)
Definition http_date (t : Z) : list Z :=
  let days := t / 86400 in
  let secs := t mod 86400 in
  let '(y, m, d) := civil days in
  wkday ((days + 4) mod 7) ++ str ", " ++ digits_n 2 d ++ [ch_sp] ++ mon m ++ [ch_sp] ++ digits_n 4 y ++ [ch_sp] ++
  digits_n 2 (secs / 3600) ++ [ch_colon] ++ digits_n 2 (secs / 60 mod 60) ++ [ch_colon] ++ digits_n 2 (secs mod 60) ++ str " GMT".

(** ** Requests and answers *)

Record http_request := mk_hreq {
  hq_uri : list Z;
  hq_query : list Z;
  hq_args : option (list (list Z * list Z));
  hq_accept_encoding : option (list Z);
  hq_if_modified_since : option (list Z)
}.

Abbreviation headers := (list (list Z * list Z)).

Inductive http_reply : Type :=
  | ReplyError (code : Z) (text : string)
  | ReplyNotModified (hs : headers)
  | ReplyOk (hs : headers) (body : list Z).

Definition HTTP_NOTFOUND : Z := 404.
Definition HTTP_INTERNAL : Z := 500.
Definition HTTP_BAD : Z := 400.

(** What [open], [fstat], [read] and [close] say of a file. *)
Record hfile := mk_hfile { hf_stat : bool; hf_mtime : Z; hf_size : Z; hf_data : list Z; hf_close : bool }.
Inductive open_result : Type := NotThere | NotOpened | Opened (f : hfile).

Section Http.
Variable webdir verstr_http : list Z.
Variable fs : list Z -> open_result.
(** [http_compress_gzip] into a buffer of so many bytes *)
Variable gzip : list Z -> Z -> option (list Z).
Variable print : json -> list Z.
Variable status_json : list Z.
Variable now tick : Z.

Definition http_header_base (last_modified : Z) : headers :=
  [(str "Server", verstr_http); (str "Date", http_date tick)] ++
  (if last_modified =? 0 then [] else [(str "Last-Modified", http_date last_modified)]).

Definition http_check_req_compressed (r : http_request) : bool :=
  match r.(hq_accept_encoding) with Some enc => match find_sub (str "gzip") enc with Some _ => true | None => false end | None => false end.

Definition http_send_reply_ok (r : http_request) (hs : headers) (data : list Z) (allow_compress : bool) : http_reply :=
  if (zlen data >? 150) && allow_compress && http_check_req_compressed r then
    match gzip data (zlen data + 60) with
    | Some compr => if (zlen compr >? 0) && (zlen compr <? zlen data) then ReplyOk (hs ++ [(str "Content-Encoding", str "gzip")]) compr else ReplyOk hs data
    | None => ReplyOk hs data
    end
  else ReplyOk hs data.

Definition http_static_file (r : http_request) (fname : list Z) : list (list Z) * http_reply :=
  ([fname],
   match fs fname with
   | NotThere => ReplyError HTTP_NOTFOUND "Not found"
   | NotOpened => ReplyError HTTP_INTERNAL "Could not access file"
   | Opened f =>
       if negb f.(hf_stat) then ReplyError HTTP_INTERNAL "Could not access file"
       else
         let last_modified := http_date f.(hf_mtime) in
         let contenttype := http_content_type fname in
         let hs := http_header_base f.(hf_mtime) ++ [(str "Content-Type", contenttype)] in
         if (match r.(hq_if_modified_since) with Some ims => caseeq ims last_modified | None => false end) then ReplyNotModified hs
         else
           let buf := take (Z.to_nat f.(hf_size)) f.(hf_data) in
           if negb f.(hf_close) then ReplyError HTTP_INTERNAL "Could not access file"
           else if negb (zlen buf =? f.(hf_size)) then ReplyError HTTP_INTERNAL "Could not access file"
           else http_send_reply_ok r hs buf (negb (starts_with (str "image/") contenttype))
   end).

Definition HTTP_FNAME_LEN : Z := 1024.

Definition http_route_static (r : http_request) (uri : list Z) : list (list Z) * http_reply :=
  match List.find (fun e => bool_decide (e.(hs_name) = uri)) http_static_files with
  | None => ([], ReplyError HTTP_NOTFOUND "Not found")
  | Some e => http_static_file r (take (Z.to_nat (HTTP_FNAME_LEN - 1)) (webdir ++ [ch_slash] ++ e.(hs_filename)))
  end.

Definition http_json_headers (cache : string) : headers :=
  http_header_base tick ++ [(str "Content-Type", str "application/json; charset=UTF-8"); (str "Cache-Control", str cache)].

Definition http_status (r : http_request) : list (list Z) * http_reply :=
  ([], http_send_reply_ok r (http_json_headers "max-age=9") status_json true).

Definition http_counterdata (r : http_request) (counterdata : list cdata_t) : option (list (list Z) * http_reply) :=
  j ← cdata_json_string now tick r.(hq_query) counterdata;
  Some (match j with
        | None => ([], ReplyError HTTP_BAD "Bad request, no such counter")
        | Some j => ([], http_send_reply_ok r (http_json_headers "max-age=58") (print j) true)
        end).

(** [evhttp_find_header] *)
Definition find_arg (key : string) (args : headers) : option (list Z) := snd <$> List.find (fun a => caseeq a.1 (str key)) args.

(** [None]: the comparison with a [lang] that is NULL. *)
Definition http_strings (r : http_request) (languages : list http_static_t) : option (list (list Z) * http_reply) :=
  let notfound := Some ([], ReplyError HTTP_NOTFOUND "Not found") in
  match r.(hq_args), languages with
  | None, _ | _, [] => notfound
  | Some args, _ :: _ =>
      lang ← find_arg "lang" args;
      match List.find (fun e => caseeq lang e.(hs_name)) languages with
      | Some e => Some (http_static_file r e.(hs_filename))
      | None => notfound
      end
  end.

(** The status server of [http_router]. *)
Definition http_router_status (r : http_request) (languages : list http_static_t) (counterdata : list cdata_t) : option (list (list Z) * http_reply) :=
  let uri := r.(hq_uri) in
  if starts_with (str "/status.json") uri then Some (http_status r)
  else if starts_with (str "/counterdata?") uri then http_counterdata r counterdata
  else if starts_with (str "/strings?") uri then http_strings r languages
  else Some (http_route_static r uri).

(** The upload server: [strncmp] with seven characters of a text of one compares all of it. *)
Definition http_router_upload {A} (upload : A) (notfound : A) (r : http_request) : A :=
  if bool_decide (r.(hq_uri) = str "/") then upload else notfound.

(** [lang_scan], when [glob] finds these files. *)
Definition lang_entry (path : list Z) : option http_static_t :=
  bp ← find_sub (str "strings-") path;
  let rest := drop (bp + 8) path in
  ep ← find_sub (str ".json") rest;
  Some (mk_static (take ep rest) path).

Definition lang_scan (paths : list (list Z)) : list http_static_t := omap lang_entry paths.
End Http.

(** * Only the listed files *)

(** A file of the web directory itself. *)
Definition in_webdir (webdir f : list Z) : Prop := exists name, f = webdir ++ [ch_slash] ++ name /\ ch_slash ∉ name.

Lemma listed_names e : e ∈ http_static_files -> ch_slash ∉ e.(hs_filename) /\ zlen e.(hs_filename) <= 60.
Proof.
  assert (Forall (fun e => ch_slash ∉ hs_filename e /\ zlen (hs_filename e) <= 60) http_static_files) as H by (apply (bool_decide_unpack _); by vm_compute).
  intros He. by apply (proj1 (list.Forall_forall _ _) H).
Qed.

(** The text of an answer is the data, or its compressed form if the client takes it. *)
Definition carries (gzip : list Z -> Z -> option (list Z)) (r : http_request) (hs : headers) (body data : list Z) : Prop :=
  body = data \/ (http_check_req_compressed r = true /\ gzip data (zlen data + 60) = Some body /\ zlen body < zlen data /\ (str "Content-Encoding", str "gzip") ∈ hs).

Lemma send_reply_carries gzip r hs data allow :
  exists hs' body, http_send_reply_ok gzip r hs data allow = ReplyOk hs' body /\ carries gzip r hs' body data.
Proof.
  unfold http_send_reply_ok. destruct (zlen data >? 150), allow; cbn [andb]; try (eexists _, _; split; [done|by left]).
  destruct (http_check_req_compressed r) eqn:Er; [|eexists _, _; split; [done|by left]]. destruct (gzip data (zlen data + 60)) as [compr|] eqn:Eg; [|eexists _, _; split; [done|by left]].
  destruct (_ && _) eqn:E; [|eexists _, _; split; [done|by left]]. apply andb_true_iff in E as [_ E%Z.ltb_lt]. eexists _, _. split; [done|]. right.
  do 3 (split; [done|]). apply elem_of_app. right. left.
Qed.

(** A file that can be read as a whole. *)
Definition whole (fs : list Z -> open_result) (f data : list Z) : Prop :=
  exists h, fs f = Opened h /\ h.(hf_stat) = true /\ h.(hf_close) = true /\ data = take (Z.to_nat h.(hf_size)) h.(hf_data) /\ zlen data = h.(hf_size).

Lemma static_file_spec verstr fs gzip tick r f :
  (http_static_file verstr fs gzip tick r f).1 = [f] /\
  (forall hs body, (http_static_file verstr fs gzip tick r f).2 = ReplyOk hs body -> exists data, whole fs f data /\ carries gzip r hs body data) /\
  (forall data, whole fs f data -> r.(hq_if_modified_since) = None -> exists hs body, (http_static_file verstr fs gzip tick r f).2 = ReplyOk hs body).
Proof.
  split; [done|]. unfold http_static_file. cbn [snd]. split.
  - intros hs body E. destruct (fs f) as [| |h] eqn:Ef; [done..|]. destruct (hf_stat h) eqn:Es; [|done]. cbn [negb] in E.
    destruct (match hq_if_modified_since r with Some _ => _ | None => false end); [done|]. destruct (hf_close h) eqn:Ec; [|done]. cbn [negb] in E.
    destruct (Z.eqb_spec (zlen (take (Z.to_nat (hf_size h)) (hf_data h))) (hf_size h)) as [Ez|]; [|done]. cbn [negb] in E.
    match type of E with http_send_reply_ok _ _ ?hs0 ?d ?al = _ => destruct (send_reply_carries gzip r hs0 d al) as (hs' & body' & E' & Hc) end.
    rewrite E' in E. injection E as <- <-. eexists. split; [|exact Hc]. exists h. done.
  - intros data (h & Ef & Es & Ec & -> & Ez) Hi. rewrite Ef, Es, Hi, Ec. cbn [negb]. rewrite (proj2 (Z.eqb_eq _ _)) by done. cbn [negb].
    match goal with |- context [http_send_reply_ok _ _ ?hs0 ?d ?al] => destruct (send_reply_carries gzip r hs0 d al) as (hs' & body' & E' & _) end. by rewrite E'; eexists _, _.
Qed.

Section Served.
Context (webdir verstr_http : list Z) (fs : list Z -> open_result) (gzip : list Z -> Z -> option (list Z)) (print : json -> list Z) (status_json : list Z) (now tick : Z).

(** The file that a request may open. *)
Inductive may_open (r : http_request) (languages : list http_static_t) : list Z -> Prop :=
  | open_listed e : e ∈ http_static_files -> r.(hq_uri) = e.(hs_name) -> may_open r languages (webdir ++ [ch_slash] ++ e.(hs_filename))
  | open_strings e lang args : e ∈ languages -> starts_with (str "/strings?") r.(hq_uri) = true -> r.(hq_args) = Some args -> find_arg "lang" args = Some lang ->
      caseeq lang e.(hs_name) = true -> may_open r languages e.(hs_filename).

(** What an answer may carry. *)
Definition answers (r : http_request) (counterdata : list cdata_t) (opened : list (list Z)) (hs : headers) (body : list Z) : Prop :=
  (exists f data, opened = [f] /\ whole fs f data /\ carries gzip r hs body data) \/
  (opened = [] /\ (carries gzip r hs body status_json \/
                   exists j, cdata_json_string now tick r.(hq_query) counterdata = Some (Some j) /\ carries gzip r hs body (print j))).

Lemma listed_name e : zlen webdir <= 900 -> e ∈ http_static_files ->
  take (Z.to_nat (HTTP_FNAME_LEN - 1)) (webdir ++ [ch_slash] ++ e.(hs_filename)) = webdir ++ [ch_slash] ++ e.(hs_filename).
Proof.
  intros Hw He. destruct (listed_names e He) as [_ Hl]. apply take_ge. rewrite !length_app. unfold zlen in *. cbn [length]. unfold HTTP_FNAME_LEN. lia.
Qed.

Lemma route_static_spec r languages uri :
  zlen webdir <= 900 -> r.(hq_uri) = uri ->
  (forall f, f ∈ (http_route_static webdir verstr_http fs gzip tick r uri).1 -> may_open r languages f) /\
  (forall hs body, (http_route_static webdir verstr_http fs gzip tick r uri).2 = ReplyOk hs body ->
     exists f data, (http_route_static webdir verstr_http fs gzip tick r uri).1 = [f] /\ whole fs f data /\ carries gzip r hs body data) /\
  (forall e data, e ∈ http_static_files -> uri = e.(hs_name) -> whole fs (webdir ++ [ch_slash] ++ e.(hs_filename)) data -> r.(hq_if_modified_since) = None ->
     exists hs body, (http_route_static webdir verstr_http fs gzip tick r uri).2 = ReplyOk hs body).
Proof.
  intros Hw Hu. unfold http_route_static. destruct (List.find _ http_static_files) as [e|] eqn:Ef.
  - apply find_some in Ef as [He%list_elem_of_In Hn%bool_decide_eq_true_1]. rewrite listed_name by done.
    destruct (static_file_spec verstr_http fs gzip tick r (webdir ++ [ch_slash] ++ hs_filename e)) as (H1 & H2 & H3). rewrite H1. split; [|split].
    + intros f ->%list_elem_of_singleton. apply open_listed; [done|congruence].
    + intros hs body E. destruct (H2 hs body E) as (data & ? & ?). by eexists _, data.
    + intros e' data He' Hu' Hd Hi. assert (e' = e) as ->; [|by eapply H3].
      assert (NoDup (map hs_name http_static_files)) as Hnd by (apply (bool_decide_unpack _); by vm_compute).
      assert (hs_name e' = hs_name e) as En by congruence. apply list_elem_of_lookup in He as [i Hi'], He' as [j Hj].
      assert (i = j) as ->; [|congruence]. eapply (NoDup_lookup (map hs_name http_static_files)); [done|..]; rewrite list_lookup_fmap; [by rewrite Hi'|by rewrite Hj; cbn; rewrite En].
  - cbn [fst snd]. split; [by intros f ?%elem_of_nil|]. split; [done|]. intros e data He Hu' _ _. apply list_elem_of_In, (List.find_none _ _ Ef), bool_decide_eq_false_1 in He. congruence.
Qed.

(** None of the listed names has a route of its own. *)
Lemma listed_static e : e ∈ http_static_files ->
  starts_with (str "/status.json") e.(hs_name) = false /\ starts_with (str "/counterdata?") e.(hs_name) = false /\ starts_with (str "/strings?") e.(hs_name) = false.
Proof.
  assert (Forall (fun e => starts_with (str "/status.json") (hs_name e) = false /\ starts_with (str "/counterdata?") (hs_name e) = false /\ starts_with (str "/strings?") (hs_name e) = false) http_static_files)
    as H by (apply (bool_decide_unpack _); by vm_compute).
  intros He. by apply (proj1 (list.Forall_forall _ _) H).
Qed.

Lemma json_total name counterdata : Forall ring_ok counterdata -> is_Some (cdata_json_string now tick name counterdata).
Proof.
  intros H. unfold cdata_json_string, cdata_find. destruct (List.find _ counterdata) as [cd|] eqn:Ef; [|done]. apply find_some in Ef as [Hin _].
  rewrite series_spec; [by eexists|]. by apply (proj1 (List.Forall_forall _ _) H).
Qed.

(** What the server promises for a request: the file it opened, and its answer. *)
Record served (r : http_request) (languages : list http_static_t) (counterdata : list cdata_t) (x : list (list Z) * http_reply) : Prop := {
  sv_one : (length x.1 <= 1)%nat;
  sv_open : forall f, f ∈ x.1 -> may_open r languages f /\ in_webdir webdir f;
  sv_answer : forall hs body, x.2 = ReplyOk hs body -> answers r counterdata x.1 hs body;
  sv_listed : forall e data, e ∈ http_static_files -> r.(hq_uri) = e.(hs_name) -> whole fs (webdir ++ [ch_slash] ++ e.(hs_filename)) data ->
    r.(hq_if_modified_since) = None -> exists hs body, x.2 = ReplyOk hs body
}.

(** A request that is not for a file of the table, and opens none. *)
Lemma served_none r languages counterdata rp :
  (forall e, e ∈ http_static_files -> r.(hq_uri) <> e.(hs_name)) -> (forall hs body, rp = ReplyOk hs body -> answers r counterdata [] hs body) ->
  served r languages counterdata ([], rp).
Proof.
  intros Hno Ha. split; cbn; [lia|by intros f ?%elem_of_nil|done|]. intros e data He Hu. by destruct (Hno e He).
Qed.

Lemma may_open_webdir r paths f :
  (forall p, p ∈ paths -> exists x, p = webdir ++ str "/strings-" ++ x ++ str ".json" /\ ch_slash ∉ x) -> may_open r (lang_scan paths) f -> in_webdir webdir f.
Proof.
  intros Hg [e He _|e lang args He _ _ _ _]; [exists (hs_filename e); split; [done|by apply listed_names]|].
  unfold lang_scan in He. apply list_elem_of_omap in He as (p & Hp & Ee). destruct (Hg p Hp) as (x & Epath & Hx).
  assert (hs_filename e = p) as -> by (unfold lang_entry in Ee; inv_bind Ee; inv_bind Ee; injection Ee as <-; done).
  exists (str "strings-" ++ x ++ str ".json"). split; [by rewrite Epath|]. rewrite !not_elem_of_app. split; [|split; [done|]]; apply (bool_decide_unpack _); by vm_compute.
Qed.

Lemma strings_served r paths counterdata :
  (forall p, p ∈ paths -> exists x, p = webdir ++ str "/strings-" ++ x ++ str ".json" /\ ch_slash ∉ x) -> starts_with (str "/strings?") r.(hq_uri) = true ->
  match http_strings verstr_http fs gzip tick r (lang_scan paths) with
  | None => lang_scan paths <> [] /\ exists args, r.(hq_args) = Some args /\ find_arg "lang" args = None
  | Some x => served r (lang_scan paths) counterdata x
  end.
Proof.
  intros Hg E3. assert (forall e, e ∈ http_static_files -> hq_uri r <> hs_name e) as Hno.
  { intros e He Hu. rewrite Hu in E3. destruct (listed_static e He) as (_ & _ & H3). congruence. }
  unfold http_strings. destruct (hq_args r) as [args|] eqn:Ea; [|by apply served_none]. destruct (lang_scan paths) as [|l0 ls] eqn:El; [by apply served_none|]. rewrite <- El in *.
  destruct (find_arg "lang" args) as [lang|] eqn:Elang; cbn [mbind option_bind]; [|split; [by rewrite El|by exists args]].
  destruct (List.find (fun e => caseeq lang (hs_name e)) (lang_scan paths)) as [e|] eqn:Ef; [|by apply served_none].
  apply find_some in Ef as [He%list_elem_of_In Hn]. destruct (static_file_spec verstr_http fs gzip tick r (hs_filename e)) as (H1 & H2 & _).
  assert (may_open r (lang_scan paths) (hs_filename e)) as Hm by (by eapply open_strings). split.
  - rewrite H1. cbn. lia.
  - rewrite H1. intros f ->%list_elem_of_singleton. split; [done|by eapply may_open_webdir].
  - intros hs body E. left. destruct (H2 hs body E) as (data & ? & ?). by eexists _, data.
  - intros e' data He' Hu. by destruct (Hno e' He').
Qed.

Lemma counterdata_served r languages counterdata :
  Forall ring_ok counterdata -> starts_with (str "/counterdata?") r.(hq_uri) = true ->
  exists x, http_counterdata verstr_http gzip print now tick r counterdata = Some x /\ served r languages counterdata x.
Proof.
  intros Hr E2. assert (forall e, e ∈ http_static_files -> hq_uri r <> hs_name e) as Hno.
  { intros e He Hu. rewrite Hu in E2. destruct (listed_static e He) as (_ & H2 & _). congruence. }
  unfold http_counterdata. destruct (json_total (hq_query r) counterdata Hr) as [j Ej]. rewrite Ej. cbn [mbind option_bind]. destruct j as [j|]; eexists; (split; [done|]); apply served_none; [done| |done..].
  intros hs body E. destruct (send_reply_carries gzip r (http_json_headers verstr_http tick "max-age=58") (print j) true) as (hs' & body' & E' & Hc). rewrite E' in E.
  injection E as <- <-. right. split; [done|]. right. by exists j.
Qed.

(** C10: The status server serves the files of its table and the translations, and nothing else: whatever the request, it opens at most one file, which is
    the one its table has for that very URI, or the translation of the language that was asked for, and which is always in the web directory itself; an answer carries all
    of that file, the status document or the counter that was asked for, plain or compressed if the client takes that.  A file of the table that can be read is served.
    There is always an answer, unless translations are asked for without naming a language.  ([glob] is assumed to find files of the web directory.) *)
Theorem http_serves_listed paths r counterdata :
  zlen webdir <= 900 -> (forall p, p ∈ paths -> exists x, p = webdir ++ str "/strings-" ++ x ++ str ".json" /\ ch_slash ∉ x) -> Forall ring_ok counterdata ->
  match http_router_status webdir verstr_http fs gzip print status_json now tick r (lang_scan paths) counterdata with
  | None => starts_with (str "/strings?") r.(hq_uri) = true /\ lang_scan paths <> [] /\ exists args, r.(hq_args) = Some args /\ find_arg "lang" args = None
  | Some x => served r (lang_scan paths) counterdata x
  end.
Proof.
  intros Hw Hg Hr. unfold http_router_status. destruct (starts_with (str "/status.json") (hq_uri r)) eqn:E1.
  { apply served_none; [intros e He Hu; rewrite Hu in E1; destruct (listed_static e He) as (H1 & _ & _); congruence|].
    intros hs body E. destruct (send_reply_carries gzip r (http_json_headers verstr_http tick "max-age=9") status_json true) as (hs' & body' & E' & Hc). rewrite E' in E.
    injection E as <- <-. right. split; [done|by left]. }
  destruct (starts_with (str "/counterdata?") (hq_uri r)) eqn:E2; [by destruct (counterdata_served r (lang_scan paths) counterdata Hr E2) as (x & -> & Hx)|].
  destruct (starts_with (str "/strings?") (hq_uri r)) eqn:E3; [pose proof (strings_served r paths counterdata Hg E3) as H; by destruct (http_strings _ _ _ _ _ _)|].
  destruct (route_static_spec r (lang_scan paths) (hq_uri r) Hw eq_refl) as (H1 & H2 & H3). split; [|..].
  - unfold http_route_static. destruct (List.find _ _); cbn; lia.
  - intros f Hf. split; [by apply H1|by eapply may_open_webdir, H1].
  - intros hs body E. left. by apply H2.
  - done.
Qed.
End Served.

(** A request for translations that does not name a language ends the server, if there are translations. *)
Theorem strings_without_lang verstr fs gzip tick uri query enc ims l languages :
  http_strings verstr fs gzip tick (mk_hreq uri query (Some []) enc ims) (l :: languages) = None.
Proof. done. Qed.

Lemma http_date_epoch : http_date 0 = str "Thu, 01 Jan 1970 00:00:00 GMT" /\ http_date 951782400 = str "Tue, 29 Feb 2000 00:00:00 GMT" /\
  http_date 1704067199 = str "Sun, 31 Dec 2023 23:59:59 GMT".
Proof. by vm_compute. Qed.

(** ** Witness *)

Definition demo_fs (f : list Z) : open_result :=
  if bool_decide (f = str "web/aprsc.css") then Opened (mk_hfile true 0 2 (str "{}") true) else NotThere.

Definition demo_request : http_request := mk_hreq (str "/aprsc.css") [] None (Some (str "gzip")) None.

Lemma http_serves_listed_witness :
  match http_router_status (str "web") (str "aprsc") demo_fs (fun _ _ => None) (fun _ => []) [] 0 0 demo_request (lang_scan [str "web/strings-fi.json"]) [] with
  | Some (opened, reply) => opened = [str "web/aprsc.css"] /\ exists hs body, reply = ReplyOk hs body
  | None => False
  end.
Proof.
  pose proof (http_serves_listed (str "web") (str "aprsc") demo_fs (fun _ _ => None) (fun _ => []) [] 0 0 [str "web/strings-fi.json"] demo_request []) as H.
  destruct (http_router_status _ _ _ _ _ _ _ _ _ _ _) as [[opened reply]|] eqn:E; [|vm_compute in E; discriminate E].
  destruct H as [_ _ _ H].
  - vm_compute. discriminate.
  - intros p ->%list_elem_of_singleton. exists (str "fi"). split; [vm_compute; reflexivity|apply (bool_decide_unpack _); vm_compute; reflexivity].
  - constructor.
  - split; [vm_compute in E; injection E as <- _; vm_compute; reflexivity|]. apply (H (entry "/aprsc.css" "aprsc.css") (str "{}")).
    + do 2 right. left.
    + reflexivity.
    + exists (mk_hfile true 0 2 (str "{}") true). split; [vm_compute; reflexivity|]. repeat split.
    + reflexivity.
Defined.
