(* ===== verification/Wire.v ===== *)
(** * From the global queue to the sockets: outgoing.c on top of worker.c

    The output side (Outgoing.v) writes to clients through an interface; the
    connections (ClientIO.v) implement it.  A worker's connections are kept with the
    record of what was written to each; the states are those in which every connection
    carries what was written to it, so that whatever the output side does keeps it
    true. *)

From S2P Require Import Prelude Types Historydb Filterdb Messaging Filter FilterSpec Outgoing ClientIO.
From Stdlib Require Import ZArith Lia Bool SpecFloat.
From stdpp Require Import base tactics list gmap numbers.
Open Scope Z_scope.

Record net := mk_net { nt_conns : gmap Z conn; nt_log : list (Z * list Z) }.

(** Every connection carries the texts written to its client. *)
Definition net_ok (x : net) : Prop :=
  forall id cn, x.(nt_conns) !! id = Some cn -> streamed cn (concat (log_of id x.(nt_log))).

Definition good_net : Type := { x : net | net_ok x }.

Section Net.
(** The sockets of the clients, as in ClientIO.v. *)
Context (socket : Z -> nat -> answer) (tick : Z) (interrupts : nat).
Context (socket_live : forall id k, exists j, (j <= interrupts)%nat /\ socket id (k + j)%nat <> Fails EINTR).

(** [c->write(self, c, text, len)]; a client that is gone is not written to. *)
Definition write_to (id : Z) (text : list Z) (x : net) : net * Z :=
  let log := x.(nt_log) ++ [(id, text)] in
  match x.(nt_conns) !! id with
  | Some cn =>
      if is_closed cn then (mk_net x.(nt_conns) log, -9)
      else match tcp_client_write (socket id) tick (interrupts + 1) cn text with
           | Some (cn, rc) => (mk_net (<[id := cn]> x.(nt_conns)) log, rc)
           | None => (mk_net x.(nt_conns) log, -9)
           end
  | None => (mk_net x.(nt_conns) log, -9)
  end.

Lemma streamed_more cn w t : is_closed cn = true -> streamed cn w -> streamed cn (w ++ t).
Proof.
  unfold is_closed. intros Hc (H1 & H2 & H3). split; [done|]. split; [done|]. destruct (co_closed cn); [|done].
  destruct H3 as [u ->]. exists (u ++ t). by rewrite app_assoc.
Qed.

Lemma log_of_snoc id id' l text : log_of id (l ++ [(id', text)]) = log_of id l ++ if id' =? id then [text] else [].
Proof. rewrite log_of_app. f_equal. unfold log_of. cbn. by destruct (id' =? id). Qed.

Lemma write_to_ok id text x : net_ok x -> net_ok (write_to id text x).1.
Proof.
  intros Hx. assert (forall id' cn, nt_conns x !! id' = Some cn -> id' <> id ->
    streamed cn (concat (log_of id' (nt_log x ++ [(id, text)])))) as Hother.
  { intros id' cn Hcn Hne. rewrite log_of_snoc. destruct (Z.eqb_spec id id'); [congruence|]. rewrite app_nil_r. by apply Hx. }
  assert (forall cn, is_closed cn = true -> nt_conns x !! id = Some cn ->
    streamed cn (concat (log_of id (nt_log x ++ [(id, text)])))) as Hclosed.
  { intros cn Hc Hcn. rewrite log_of_snoc, concat_app. by apply streamed_more; [|apply Hx]. }
  unfold write_to. destruct (nt_conns x !! id) as [cn|] eqn:E.
  2:{ intros id' cn Hcn. apply Hother; [done|]. cbn in Hcn. congruence. }
  destruct (is_closed cn) eqn:Hc.
  { intros id' cn' Hcn'. cbn in Hcn'. destruct (decide (id' = id)) as [->|Hne]; [|by apply Hother].
    rewrite E in Hcn'. injection Hcn' as <-. by apply Hclosed. }
  assert (co_closed cn = None) as Hc' by (unfold is_closed in Hc; by destruct (co_closed cn)).
  destruct (tcp_write_spec (socket id) tick interrupts (socket_live id) cn _ text Hc' (Hx _ _ E)) as (cn' & rc & Ew & Hs & _).
  rewrite Ew. intros id' cn2 Hcn2. cbn in Hcn2. destruct (decide (id' = id)) as [->|Hne].
  - rewrite lookup_insert_eq in Hcn2. injection Hcn2 as <-. cbn [nt_log fst]. rewrite log_of_snoc, Z.eqb_refl, concat_app. cbn [concat].
    by rewrite app_nil_r.
  - rewrite lookup_insert_ne in Hcn2 by done. by apply Hother.
Qed.

(** The interface the output side writes to, and its laws. *)
#[local] Instance net_ops : ServerOps good_net := {|
  op_cellmallocmany := fun len n x => ([], x);
  op_write := fun c text x =>
    (exist net_ok (write_to c.(c_id) text (proj1_sig x)).1 (write_to_ok c.(c_id) text _ (proj2_sig x)),
     (write_to c.(c_id) text (proj1_sig x)).2);
  op_filter_commands := fun c in_msg text len x => (x, 0);
  op_filter_s := fun c x => [];
  op_random := fun x => (0, x);
  op_account_rx := fun c l4proto bytes packets err dupes x => x;
  op_account_tx := fun c bytes packets x => x
|}.

Lemma write_to_log id text x : (write_to id text x).1.(nt_log) = x.(nt_log) ++ [(id, text)].
Proof.
  unfold write_to. destruct (nt_conns x !! id) as [cn|]; [|done]. destruct (is_closed cn); [done|].
  by destruct (tcp_client_write _ _ _ _ _) as [[? ?]|].
Qed.

#[local] Instance net_laws : OutLaws good_net.
Proof.
  refine (Build_OutLaws _ _ (fun x => (proj1_sig x).(nt_log)) _ _ _); [|done..].
  intros c text x. cbn. apply write_to_log.
Defined.

Context (sinf : spec_float -> spec_float) (atan2f : spec_float -> spec_float -> spec_float).
Context (cfg : config) (mem : bool) (db : filterdb).

Definition conn_of (st : out_state good_net) (id : Z) : option conn := (proj1_sig st.(os_ops)).(nt_conns) !! id.

Lemma recipients_NoDup (st : out_state good_net) pb : out_wf st -> NoDup (recipients sinf atan2f cfg tick db st pb).
Proof.
  intros Hw. unfold recipients. destruct (has _ F_DUPE); [apply (ow_class _ Hw ClassDupe)|].
  assert (forall (P : Z -> bool) l, NoDup l -> NoDup (List.filter P l)) as Hf.
  { intros P l Hl. apply base.NoDup_ListNoDup. apply List.NoDup_filter. by apply base.NoDup_ListNoDup. }
  apply list.NoDup_app. split; [|split].
  - destruct (has _ F_FROM_DOWNSTR); [apply Hf, (ow_class _ Hw ClassUps)|constructor].
  - intros id H1 H2. apply list_elem_of_In, List.filter_In in H2 as [H2 _]. apply list_elem_of_In in H2.
    destruct (has _ F_FROM_DOWNSTR); [|by apply elem_of_nil in H1]. apply list_elem_of_In, List.filter_In in H1 as [H1 _].
    apply list_elem_of_In in H1. by pose proof (ow_disjoint _ Hw ClassUps ClassOther id H1 H2).
  - apply Hf, (ow_class _ Hw ClassOther).
Qed.

(** C6: A packet of the global queue on its way to the sockets: when the worker has
    handled it, every connection that is still open has, between what its socket
    took and what waits in its output buffer, exactly the text of the packet more if
    its client is a recipient, and nothing more if it is not. *)
Theorem packet_on_wire pb (st : out_state good_net) :
  sendable pb -> out_wf st ->
  exists st', process_outgoing_single sinf atan2f cfg tick mem db pb st = Some st' /\ out_wf st' /\
    forall id cn cn', conn_of st id = Some cn -> conn_of st' id = Some cn' -> cn.(co_closed) = None -> cn'.(co_closed) = None ->
      cn'.(co_sent) ++ pending cn' = (cn.(co_sent) ++ pending cn) ++
        if bool_decide (id ∈ recipients sinf atan2f cfg tick db st pb) then sent_text pb else [].
Proof.
  intros Hp Hw. destruct (single_spec sinf atan2f cfg tick mem db pb st Hp Hw) as (st' & ids & keep & H1 & H2 & H3).
  exists st'. split; [done|]. split; [by destruct H2|]. intros id cn cn' Hcn Hcn' Ho Ho'.
  destruct (proj2_sig (os_ops st) id cn Hcn) as (_ & _ & Hs). rewrite Ho in Hs.
  destruct (proj2_sig (os_ops st') id cn' Hcn') as (_ & _ & Hs'). rewrite Ho' in Hs'.
  change (nt_log (proj1_sig (os_ops st')) = nt_log (proj1_sig (os_ops st)) ++
            map (fun id => (id, sent_text pb)) (recipients sinf atan2f cfg tick db st pb)) in H3.
  rewrite Hs, Hs', H3, log_of_app, concat_app. f_equal. case_bool_decide as Hin.
  - rewrite log_of_once by (done || by apply recipients_NoDup). cbn [concat]. apply app_nil_r.
  - by rewrite log_of_not.
Qed.
End Net.

(** * A concrete run *)

(** Client 4 of the example of Outgoing.v has a TCP connection with a slow socket. *)
Definition demo_tcp : conn := mk_conn (repeat 0 512) 0 (repeat 0 512) 0 0 0 0 0 0 false false None 0 [] [].

Definition demo_net_state : net := mk_net (<[4 := demo_tcp]> ∅) [].

Lemma demo_net_ok : net_ok demo_net_state.
Proof.
  intros id cn Hcn. cbn in Hcn. destruct (decide (id = 4)) as [->|Hne].
  - rewrite lookup_insert_eq in Hcn. injection Hcn as <-. split; [split; vm_compute; intuition discriminate|split; reflexivity].
  - rewrite lookup_insert_ne in Hcn by done. discriminate.
Qed.

Lemma demo_live id k : exists j, (j <= 0)%nat /\ (fun _ => demo_socket) (id : Z) (k + j)%nat <> Fails EINTR.
Proof. exists 0%nat. split; [lia|]. unfold demo_socket. by destruct (Nat.even _). Qed.

Definition demo_wire : out_state good_net :=
  mk_out demo_out.(os_clients) demo_out.(os_ro) demo_out.(os_dupe) demo_out.(os_ups) demo_out.(os_other) demo_out.(os_store)
    historydb_zero 0 0 0 (exist net_ok demo_net_state demo_net_ok).

Lemma demo_wire_wf : out_wf demo_wire.
Proof. destruct demo_out_wf as [H1 H2 H3]. split; [exact H1|exact H2|exact H3]. Qed.

Lemma packet_on_wire_witness :
  exists st', @process_outgoing_single good_net (net_ops (fun _ => demo_socket) 1000 0 demo_live) (fun x => x) (fun x _ => x) demo_cfg
      1000 true filterdb_zero demo_ready demo_wire = Some st' /\
    forall cn', conn_of st' 4 = Some cn' -> cn'.(co_closed) = None -> cn'.(co_sent) ++ pending cn' = sent_text demo_ready.
Proof.
  destruct (packet_on_wire (fun _ => demo_socket) 1000 0 demo_live (fun x => x) (fun x _ => x) demo_cfg true filterdb_zero
              demo_ready demo_wire demo_ready_sendable demo_wire_wf) as (st' & H1 & _ & H2).
  exists st'. split; [exact H1|]. intros cn' Hcn' Ho'.
  assert (conn_of demo_wire 4 = Some demo_tcp) as Hcn by reflexivity.
  rewrite (H2 4 demo_tcp cn' Hcn Hcn' eq_refl Ho'). rewrite bool_decide_eq_true_2; [reflexivity|].
  apply (bool_decide_unpack _). vm_compute. exact I.
Defined.
